(* ===== verification/_CoqProject ===== *)
-Q . S2P
Prelude.v
Sha1.v
Memory.v
Mutex.v
LinkedList.v
LinkedListSpec.v
LinkedListProof.v
LinkedListEdit.v
LinkedListIndex.v
LinkedListTrace.v
ColumnList.v
ListClient.v
Pool.v
BufferMap.v
HashMap.v
HashMapProof.v
MapObject.v
MapRefusal.v
Str.v
UrlCodec.v
HttpParse.v
Socket.v
BufferPool.v
VarMap.v
HttpConnection.v
HttpConnSpec.v
HttpMachine.v
HttpRequest.v
HttpResponse.v
HttpServer.v
HttpServerProof.v
HtContext.v
Json.v
JsonRefusal.v
JsonScan.v
JsonMemory.v
JsonProof.v
JsonContext.v
JsonRoundtrip.v
JsonSelect.v
Zone.v
ZoneBits.v
ZoneRep.v
ZoneProof.v
ZoneFree.v
ZoneHeap.v
ZoneDestroy.v
ZoneContract.v
Repo.v
LinkMap.v
Repository.v
RepoInv.v
RepoSteps.v
RepoLoops.v
RepoBelow.v
RepoProof.v
RepoContract.v
RepoRegistry.v
RepoPlant.v
RepoDefects.v
RingBuffer.v
StrEdit.v
WildCmp.v
Format.v
Xml.v
XmlRefusal.v
XmlRoundtrip.v
XmlSelect.v
XmlDefects.v
