(* ===== verification/Prelude.v ===== *)
(** * industrial: a verification library for the component framework

    The repository is a framework of components that are looked up by name in a
    repository object and loaded from extensions.  This library models the
    parts that hold its data and its protocols, in the terms of the source, and
    proves what each part promises to the next one.

    ** The program and the files

    - Memory.v: [iHeap] as the class [Allocator] with its laws.  Everything that
      allocates (lists, maps, pools, buffers, JSON values) is proved against it;
      an allocation may fail at any time.  [tracked] counts the requests that an
      allocator refused, so that a theorem can say when a call fails.
    - Mutex.v: core/sync/mutex.cpp [cMutex] and core/repository-2/mutex.cpp, a
      lock that the holder of its handle may take again; interleavings of threads
      are a step relation.
    - Sha1.v: core/mem/sha1.c; [SHA1Context] is the structure of the source,
      [SHA1Input] the streaming entry point, [sha1_spec] the reference.
    - LinkedList.v: core/mem/ll_alg.c at the level of its pointers ([cLlist],
      [linked_list] are wrappers).  LinkedListSpec.v has the abstract list and
      the representation, LinkedListProof.v, LinkedListEdit.v and
      LinkedListIndex.v one refinement lemma per operation, LinkedListTrace.v
      whole clients, which choose their calls by the answers.  ColumnList.v is the
      interface [iLlist] as a class that ll_alg.c is an instance of, and
      [ListGrants] what it says of additions that fail; ListClient.v has the rules
      its clients use.
    - Pool.v: core/mem/pool.cpp; BufferMap.v: core/mem/bmap.cpp; both over
      [ColumnList].
    - HashMap.v, HashMapProof.v: core/mem/map_alg.c at the level of its pointers,
      and its refinement of a finite map; MapObject.v: core/mem/map.cpp [cMap]
      and core/repository-2/map.cpp [hash_map], which put SHA-1 and a mutex
      around it; MapRefusal.v: a record that is not stored is a refused request.
    - RingBuffer.v: core/mem/rb_alg.c, a ring of messages in one block.
    - Str.v, StrEdit.v, WildCmp.v, Format.v: core/additions/str.c - copies and
      searches, edits and divisions of strings, wildcards, [_vsnprintf];
      UrlCodec.v: io/libnet/url-codec.cpp.
    - Socket.v: io/libnet/socket.cpp over a class of system calls; BufferPool.v
      and VarMap.v: what a connection sees of the buffer map and of its two
      maps, with the theorem that [cMap] gives it.
    - HttpParse.v: the scanning loops of io/libnet/http_server_connection.cpp;
      HttpConnection.v: the whole connection, its state machine [process]
      included; HttpConnSpec.v: its invariant; HttpMachine.v, HttpRequest.v,
      HttpResponse.v: its properties.
    - HttpServer.v, HttpServerProof.v: io/libnet/http.cpp, the queue of
      connections, the server thread and the workers.
    - HtContext.v: hypertext/libht/context.c; Json.v: json.c and json.cpp;
      JsonRefusal.v: JSON_MEMORY_ERROR is a refused block and no block is refused
      without it; JsonScan.v, JsonMemory.v, JsonProof.v, JsonContext.v: the parser
      returns, its tree is well formed and owns its blocks, what an error drops is
      whole values; JsonRoundtrip.v: what is written is read back; JsonSelect.v:
      paths.
    - Xml.v: hypertext/libht/xml.c and xml.cpp, over the same context;
      XmlRefusal.v: its errors of memory are refused blocks; XmlRoundtrip.v: what
      is written is read back; XmlSelect.v: paths; XmlDefects.v: documents it takes
      otherwise than one would expect.
    - Zone.v: core/mem/zone.c at the level of its pages and bit maps;
      ZoneBits.v, ZoneRep.v, ZoneProof.v, ZoneFree.v, ZoneDestroy.v: what its
      operations do to the set of objects; ZoneHeap.v: core/mem/zone_heap.cpp and
      core/repository-2/zalloc.cpp, which are instances of [Allocator];
      ZoneContract.v: whole sessions.
    - Repo.v: the state of core/repository-2, base_array.cpp, users.cpp and
      dcs.cpp; LinkMap.v: link_map.cpp; Repository.v: repository.cpp and
      extension.cpp.  RepoInv.v has the invariant - who holds which object -
      and RepoSteps.v, RepoLoops.v, RepoBelow.v, RepoProof.v prove that requests
      and releases keep it; RepoContract.v: the sessions of a client;
      RepoRegistry.v: the registry as a function on maps, and who holds each of
      its keys; RepoPlant.v: when a
      finite system is acyclic, and one that is; RepoDefects.v: scenarios.
    A function of the source keeps its name.  A loop is a [Fixpoint] named after
    its function; a field of a structure is a field of a [Record]; a method of a
    class takes the record of its members.

    ** How code is modelled

    Code that changes state is a function in the monad [M S] below: [None] is
    undefined behaviour or a call that never returns.  [wp] is total correctness
    (the code is defined, returns, and the result is right), [wlp] partial.
    Integers are [Z] with every wrap-around of the source written out.  Memory
    blocks are addresses of an [Allocator]; a C buffer is the list of the bytes
    that can be accessed through a pointer.

    ** What is shown

    Refinement: the list ([linked_list_refinement]), the hash map
    ([cmap_refinement]), [cMap] as its clients see it ([vars_simulate]), the
    zone heaps ([zone_heap_refines]), the ring buffer ([ring_fifo]) behave as their abstract models for every
    program of calls.  Equivalence with a
    reference: [sha1_streaming], [wildcmp_match].
    Invariants of concurrent steps: [mutex_exclusion], [worker_exclusion].
    State machines: [process_step], [event_order], [silent_peer_times_out],
    [dead_peer_closes].  Functional behaviour: [request_parsed],
    [document_sent], [header_sent], [queue_order], [pool_alloc], [bmap_flush],
    [connection_accepted], [json_select_finds], [xml_select_finds],
    [vsnprintf_renders], [registry_newest].  What is meant is said
    without the code's functions: [means] and [renders] of Format.v, [newest] of
    RepoRegistry.v.  Round trips: [url_roundtrip],
    [json_parse_render], [xml_parse_render], [registry_roundtrip].  Memory: [cmap_no_leak], [bmap_uninit],
    [server_shutdown], [json_session_safe], [zone_destroy_exact], [session_safe].  Well-formedness:
    [json_parse_typed].  Where the code does not do what it means to, a theorem
    states what it does ([saturation_is_final], [zone_diverges],
    [json_defects], [select_beside], [long_is_half], [circle_never_returns] and
    others).

    ** Bounds and fuel

    Recursion that is not structural has fuel, and the theorems say the fuel is
    enough: a chain of a hash map has at most as many records as the store
    ([fuel_of]), of which there are less than 2^26 ([MAX_RECORDS]), so that the
    sizes of the table do not wrap; a lock is taken at most 1000 times in a row
    by one holder ([MAX_NEST]), since the counter is 32 bits wide; a request
    header is read in at most one round per byte; a JSON document of [sz] bytes,
    less than 2^28 ([MAX_DOCUMENT]), needs [2 * sz + 4] calls ([parse_fuel]), an XML
    document one round per symbol and one for the end ([xml_fuel]).
    A zone request is at most 2^32 - 4096 bytes ([MAX_ALLOC]) and a zone's chain
    of pages is walked with [chain_fuel].  A request to the repository for a class
    of rank [r] needs [2 * r + 3] nested calls.

    ** Not modelled

    Of the repository: monitoring.cpp, which nothing calls.  Of the core: start-up
    (core/startup), threads, processes, logging and arguments (core/additions),
    events (core/sync/event.cpp) and s2.c are calls to the operating system or
    not built; the templates of core/include.  Of io: libfs (files), net.cpp
    and tcp.cpp (sockets), the client side of HTTP.  gatn, cmd, sync and db are clients of the
    parts above and of the system: command tables, configuration, ODBC calls.
    Examples and tests. *)
From stdpp Require Export base gmap list list_numbers numbers option strings.
From stdpp Require Export ssreflect.
From Stdlib Require Export ZArith Lia.

Set Default Goal Selector "!".
Set Default Proof Using "Type".

Open Scope Z_scope.

(** ** Machine integers

    A w-bit C integer is a [Z]; every place where the code can wrap is written
    with one of these functions (dtype.h: [_u8] ... [_u64], [_s8], [_s32]). *)
Definition u8 (z : Z) : Z := z mod 2 ^ 8.
Definition u16 (z : Z) : Z := z mod 2 ^ 16.
Definition u32 (z : Z) : Z := z mod 2 ^ 32.
Definition u64 (z : Z) : Z := z mod 2 ^ 64.
Definition s8 (z : Z) : Z := (z + 2 ^ 7) mod 2 ^ 8 - 2 ^ 7.
Definition s16 (z : Z) : Z := (z + 2 ^ 15) mod 2 ^ 16 - 2 ^ 15.
Definition s32 (z : Z) : Z := (z + 2 ^ 31) mod 2 ^ 32 - 2 ^ 31.

Definition is_byte (b : Z) : Prop := 0 <= b < 256.
Definition is_u32 (z : Z) : Prop := 0 <= z < 2 ^ 32.
Definition all_bytes (m : list Z) : Prop := Forall is_byte m.

Lemma u8_small z : 0 <= z < 256 -> u8 z = z.
Proof. intros. apply Z.mod_small. lia. Qed.
Lemma u16_small z : 0 <= z < 2 ^ 16 -> u16 z = z.
Proof. intros. by apply Z.mod_small. Qed.
Lemma u32_small z : 0 <= z < 2 ^ 32 -> u32 z = z.
Proof. intros. by apply Z.mod_small. Qed.
Lemma u64_small z : 0 <= z < 2 ^ 64 -> u64 z = z.
Proof. intros. by apply Z.mod_small. Qed.
Lemma s16_small z : 0 <= z < 2 ^ 15 -> s16 z = z.
Proof. intros. unfold s16. rw Z.mod_small; lia. Qed.
Lemma u32_range z : is_u32 (u32 z).
Proof. unfold is_u32, u32. apply Z.mod_pos_bound. lia. Qed.
Lemma u8_range z : is_byte (u8 z).
Proof. unfold is_byte, u8. apply Z.mod_pos_bound. lia. Qed.

Lemma testbit_u32 x i : 0 <= i -> Z.testbit (u32 x) i = (i <? 32) && Z.testbit x i.
Proof.
  intros Hi. unfold u32. destruct (Z.ltb_spec i 32); simpl.
  - apply Z.mod_pow2_bits_low. lia.
  - apply Z.mod_pow2_bits_high. lia.
Qed.

Lemma land_ff b : is_byte b -> Z.land b 0xFF = b.
Proof.
  intros. change 0xFF with (Z.ones 8). rw Z.land_ones; [|lia].
  apply Z.mod_small. unfold is_byte in *. lia.
Qed.

(** ** Stateful code

    A function of the C or C++ code that changes the state [S] and returns an
    [A] is an [M S A]; [None] is undefined behaviour (a NULL or dangling
    dereference, an access out of bounds, a bad free) or a call that never
    returns (a lock taken twice).  [wp] is total correctness: the code is
    defined, returns, and its result satisfies [Q]. *)
Definition M (S A : Type) : Type := S -> option (A * S).

#[global] Instance M_ret {S} : MRet (M S) := fun A a s => Some (a, s).
#[global] Instance M_bind {S} : MBind (M S) := fun A B f m s =>
  match m s with Some (a, s') => f a s' | None => None end.

Definition undefined {S A} : M S A := fun _ => None.
Definition gets {S A} (f : S -> A) : M S A := fun s => Some (f s, s).
Definition modify {S} (f : S -> S) : M S unit := fun s => Some (tt, f s).
Definition lift_opt {S A} (o : option A) : M S A := fun s => (fun a => (a, s)) <$> o.
Definition when {S} (b : bool) (m : M S unit) : M S unit := if b then m else mret tt.

Definition wp {S A} (m : M S A) (s : S) (Q : A -> S -> Prop) : Prop :=
  match m s with Some (a, s') => Q a s' | None => False end.

Section wp_rules.
Context {S : Type}.

Lemma wp_ret {A} (a : A) s (Q : A -> S -> Prop) : Q a s -> wp (mret a) s Q.
Proof. done. Qed.

Lemma wp_bind {A B} (m : M S A) (f : A -> M S B) s Q :
  wp m s (fun a s' => wp (f a) s' Q) -> wp (m ≫= f) s Q.
Proof. unfold wp, mbind, M_bind. by destruct (m s) as [[a s']|]. Qed.

Lemma wp_gets {A} (f : S -> A) s (Q : A -> S -> Prop) : Q (f s) s -> wp (gets f) s Q.
Proof. done. Qed.

Lemma wp_modify (f : S -> S) s (Q : unit -> S -> Prop) : Q tt (f s) -> wp (modify f) s Q.
Proof. done. Qed.

Lemma wp_lift_opt {A} (o : option A) a s (Q : A -> S -> Prop) :
  o = Some a -> Q a s -> wp (lift_opt o) s Q.
Proof. by intros ->. Qed.

Lemma wp_when (b : bool) (m : M S unit) s (Q : unit -> S -> Prop) :
  (b = true -> wp m s Q) -> (b = false -> Q tt s) -> wp (when b m) s Q.
Proof. destruct b; intros H1 H2; [by apply H1|by apply H2]. Qed.

Lemma wp_mono {A} (m : M S A) s (Q Q' : A -> S -> Prop) :
  wp m s Q -> (forall a s', Q a s' -> Q' a s') -> wp m s Q'.
Proof. unfold wp. destruct (m s) as [[a s']|]; auto. Qed.

Lemma wp_run {A} (m : M S A) s (Q : A -> S -> Prop) :
  wp m s Q -> exists a s', m s = Some (a, s') /\ Q a s'.
Proof. unfold wp. destruct (m s) as [[a s']|]; [eauto|done]. Qed.

Lemma wp_intro {A} (m : M S A) s a s' (Q : A -> S -> Prop) :
  m s = Some (a, s') -> Q a s' -> wp m s Q.
Proof. unfold wp. by intros ->. Qed.
End wp_rules.

(** [wlp] is partial correctness, for code whose inputs may leave it undefined
    and for facts about the result of code that is known to return. *)
Definition wlp {S A} (m : M S A) (s : S) (Q : A -> S -> Prop) : Prop :=
  match m s with Some (a, s') => Q a s' | None => True end.

Section wlp_rules.
Context {S : Type}.

Lemma wp_wlp {A} (m : M S A) s Q : wp m s Q -> wlp m s Q.
Proof. unfold wp, wlp. by destruct (m s) as [[a s']|]. Qed.

Lemma wlp_bind {A B} (m : M S A) (f : A -> M S B) s Q :
  wlp m s (fun a s' => wlp (f a) s' Q) -> wlp (m ≫= f) s Q.
Proof. unfold wlp, mbind, M_bind. by destruct (m s) as [[a s']|]. Qed.

Lemma wlp_ret {A} (a : A) s (Q : A -> S -> Prop) : Q a s -> wlp (mret a) s Q.
Proof. done. Qed.

Lemma wlp_mono {A} (m : M S A) s (Q Q' : A -> S -> Prop) :
  wlp m s Q -> (forall a s', Q a s' -> Q' a s') -> wlp m s Q'.
Proof. unfold wlp. destruct (m s) as [[a s']|]; auto. Qed.

Lemma wlp_lift_opt {A} (o : option A) s (Q : A -> S -> Prop) :
  (forall a, o = Some a -> Q a s) -> wlp (lift_opt o) s Q.
Proof. unfold wlp, lift_opt. destruct o; cbn; auto. Qed.

Lemma wp_and {A} (m : M S A) s (P Q : A -> S -> Prop) : wp m s P -> wp m s Q -> wp m s (fun a s' => P a s' /\ Q a s').
Proof. unfold wp. destruct (m s) as [[a s']|]; auto. Qed.

Lemma wp_wlp_and {A} (m : M S A) s (P Q : A -> S -> Prop) :
  wp m s P -> wlp m s Q -> wp m s (fun a s' => P a s' /\ Q a s').
Proof. unfold wp, wlp. destruct (m s) as [[a s']|]; auto. Qed.
Lemma wlp_undefined {A} s (Q : A -> S -> Prop) : wlp undefined s Q.
Proof. done. Qed.
Lemma wlp_gets {A} (f : S -> A) s (Q : A -> S -> Prop) : Q (f s) s -> wlp (gets f) s Q.
Proof. done. Qed.
Lemma wlp_intro {A} (m : M S A) s (Q : A -> S -> Prop) : (forall a s', m s = Some (a, s') -> Q a s') -> wlp m s Q.
Proof. unfold wlp. destruct (m s) as [[a s']|]; auto. Qed.
Lemma wlp_run {A} (m : M S A) s (Q : A -> S -> Prop) a s' : wlp m s Q -> m s = Some (a, s') -> Q a s'.
Proof. unfold wlp. intros Hw E. by rw E in Hw. Qed.
End wlp_rules.

(** One symbolic-execution step on a [wp] goal. *)
Ltac wp_step :=
  lazymatch goal with
  | |- wp (mbind _ _) _ _ => apply wp_bind
  | |- wp (mret _) _ _ => apply wp_ret
  | |- wp (gets _) _ _ => apply wp_gets
  | |- wp (modify _) _ _ => apply wp_modify
  | |- wp (when _ _) _ _ => apply wp_when
  end.
Ltac wp_steps := repeat wp_step.

(** ** Lists *)
Section lists.
Context {A : Type}.
Implicit Types l : list A.

Lemma take_insert_snoc l i x :
  (i < length l)%nat -> take (S i) (<[i:=x]> l) = take i l ++ [x].
Proof.
  intros Hi. rw (take_S_r _ _ x).
  - f_equal. by rw take_insert_ge.
  - by apply list_lookup_insert_eq.
Qed.

Lemma list_lookup_here l i x y : l !! i = Some x -> <[i := y]> l !! i = Some y.
Proof. intros Hi. apply list_lookup_insert_eq. by eapply lookup_lt_Some. Qed.

Lemma list_alter_Some (f : A -> A) l i x : l !! i = Some x -> alter f i l = <[i := f x]> l.
Proof.
  intros Hi. apply list_eq. intros j. destruct (decide (i = j)) as [<-|].
  - by rw list_lookup_alter_eq Hi list_lookup_insert_eq; [|eapply lookup_lt_Some].
  - by rw list_lookup_alter_ne // list_lookup_insert_ne.
Qed.

Lemma fold_left_ext_seq (f g : A -> nat -> A) n k s :
  (forall a t, (n <= t < n + k)%nat -> f a t = g a t) ->
  fold_left f (seq n k) s = fold_left g (seq n k) s.
Proof.
  revert n s. induction k as [|k IH]; intros n s H; [done|]. simpl.
  rw H; [|lia]. apply IH. intros. apply H. lia.
Qed.
End lists.
