(* ===== verification/Sha1.v ===== *)
(** * SHA-1 digest with the repository's own initial value
    (core/mem/sha1.h, core/mem/sha1.c)

    [SHA1Context] is the C structure; [SHA1Reset], [SHA1Input] and [SHA1Result]
    are the three entry points, with the error codes and the sticky
    [Computed]/[Corrupted] flags.  [sha1_spec] is an independent reference: pad
    the whole message, cut it into 64-byte blocks, fold one 80-round
    compression function.  The streaming code is proved to compute it. *)
From S2P Require Import Prelude.
Set Default Goal Selector "!".

Definition shaSuccess : Z := 0.
Definition shaNull : Z := 1.
Definition shaInputTooLong : Z := 2.
Definition shaStateError : Z := 3.
Definition SHA1HashSize : nat := 20.

Record SHA1Context := mkSHA1Context {
  Intermediate_Hash : list Z;   (* uint32_t[5] *)
  Length_Low : Z;               (* uint32_t *)
  Length_High : Z;              (* uint32_t *)
  Message_Block_Index : Z;      (* int_least16_t *)
  Message_Block : list Z;       (* uint8_t[64] *)
  Computed : Z;
  Corrupted : Z
}.

(** [SHA1CircularShift(bits,word)] on [uint32_t]. *)
Definition SHA1CircularShift (bits word : Z) : Z :=
  Z.lor (u32 (Z.shiftl word bits)) (Z.shiftr word (32 - bits)).

Definition CUSTOM_BGN : list Z :=
  [0x1ACA889B; 0x0FA3E271; 0x9FFADBF4; 0x61A3F3A1; 0x88AA7C55].

Definition K : list Z := [0x5A827999; 0x6ED9EBA1; 0x8F1BBCDC; 0xCA62C1D6].

(** Array read of the C code, inside the bounds proved below. *)
Definition rd (l : list Z) (i : nat) : Z := nth i l 0.

Definition SHA1Reset (context : option SHA1Context) : Z * option SHA1Context :=
  match context with
  | None => (shaNull, None)
  | Some c =>
      (shaSuccess,
       Some (mkSHA1Context CUSTOM_BGN 0 0 0 (Message_Block c) 0 0))
  end.

(** The first 16 words of [W], big endian. *)
Definition W_word (blk : list Z) (t : nat) : Z :=
  let w := u32 (Z.shiftl (rd blk (t * 4)) 24) in
  let w := Z.lor w (u32 (Z.shiftl (rd blk (t * 4 + 1)) 16)) in
  let w := Z.lor w (u32 (Z.shiftl (rd blk (t * 4 + 2)) 8)) in
  Z.lor w (rd blk (t * 4 + 3)).

Definition W_init (blk : list Z) : list Z := map (W_word blk) (seq 0 16).

Definition W_extend (W : list Z) (t : nat) : list Z :=
  W ++ [SHA1CircularShift 1
          (Z.lxor (Z.lxor (Z.lxor (rd W (t - 3)) (rd W (t - 8))) (rd W (t - 14)))
             (rd W (t - 16)))].

Definition W_schedule (blk : list Z) : list Z :=
  fold_left W_extend (seq 16 64) (W_init blk).

(** Word buffers A, B, C, D, E. *)
Record regs := mkRegs { rA : Z; rB : Z; rC : Z; rD : Z; rE : Z }.

(** The assignments that end each of the four loops' bodies. *)
Definition rotate_regs (s : regs) (temp : Z) : regs :=
  mkRegs temp (rA s) (SHA1CircularShift 30 (rB s)) (rC s) (rD s).

Definition round_0 (W : list Z) (s : regs) (t : nat) : regs :=
  let temp := u32 (SHA1CircularShift 5 (rA s)
    + Z.lor (Z.land (rB s) (rC s)) (Z.land (u32 (Z.lnot (rB s))) (rD s))
    + rE s + rd W t + rd K 0) in
  rotate_regs s temp.

Definition round_1 (W : list Z) (s : regs) (t : nat) : regs :=
  let temp := u32 (SHA1CircularShift 5 (rA s)
    + Z.lxor (Z.lxor (rB s) (rC s)) (rD s) + rE s + rd W t + rd K 1) in
  rotate_regs s temp.

Definition round_2 (W : list Z) (s : regs) (t : nat) : regs :=
  let temp := u32 (SHA1CircularShift 5 (rA s)
    + Z.lor (Z.lor (Z.land (rB s) (rC s)) (Z.land (rB s) (rD s))) (Z.land (rC s) (rD s))
    + rE s + rd W t + rd K 2) in
  rotate_regs s temp.

Definition round_3 (W : list Z) (s : regs) (t : nat) : regs :=
  let temp := u32 (SHA1CircularShift 5 (rA s)
    + Z.lxor (Z.lxor (rB s) (rC s)) (rD s) + rE s + rd W t + rd K 3) in
  rotate_regs s temp.

(** The four loops over [t]. *)
Definition rounds (W : list Z) (s : regs) : regs :=
  let s := fold_left (round_0 W) (seq 0 20) s in
  let s := fold_left (round_1 W) (seq 20 20) s in
  let s := fold_left (round_2 W) (seq 40 20) s in
  fold_left (round_3 W) (seq 60 20) s.

Definition regs_of (h : list Z) : regs :=
  mkRegs (rd h 0) (rd h 1) (rd h 2) (rd h 3) (rd h 4).

Definition add_regs (h : list Z) (s : regs) : list Z :=
  [u32 (rd h 0 + rA s); u32 (rd h 1 + rB s); u32 (rd h 2 + rC s);
   u32 (rd h 3 + rD s); u32 (rd h 4 + rE s)].

Definition SHA1ProcessMessageBlock (c : SHA1Context) : SHA1Context :=
  let h := Intermediate_Hash c in
  let s := rounds (W_schedule (Message_Block c)) (regs_of h) in
  mkSHA1Context (add_regs h s) (Length_Low c) (Length_High c) 0
    (Message_Block c) (Computed c) (Corrupted c).

(** [context->Message_Block[context->Message_Block_Index++] = b] *)
Definition put_byte (c : SHA1Context) (b : Z) : SHA1Context :=
  mkSHA1Context (Intermediate_Hash c) (Length_Low c) (Length_High c)
    (s16 (Message_Block_Index c + 1))
    (<[Z.to_nat (Message_Block_Index c) := b]> (Message_Block c))
    (Computed c) (Corrupted c).

(** The length counter: [Length_Low += 8], carry into [Length_High], and the
    corruption mark when that overflows too. *)
Definition count_byte (c : SHA1Context) : SHA1Context :=
  let low := u32 (Length_Low c + 8) in
  let high := if low =? 0 then u32 (Length_High c + 1) else Length_High c in
  let corrupted := if low =? 0 then (if high =? 0 then 1 else Corrupted c)
                   else Corrupted c in
  mkSHA1Context (Intermediate_Hash c) low high (Message_Block_Index c)
    (Message_Block c) (Computed c) corrupted.

(** One iteration of the loop of [SHA1Input]. *)
Definition input_byte (c : SHA1Context) (b : Z) : SHA1Context :=
  let c := count_byte (put_byte c (Z.land b 0xFF)) in
  if Message_Block_Index c =? 64 then SHA1ProcessMessageBlock c else c.

(** [while(length-- && !context->Corrupted)], over the [length] octets that
    [message_array] points at. *)
Fixpoint input_loop (c : SHA1Context) (octets : list Z) : SHA1Context :=
  match octets with
  | [] => c
  | b :: octets =>
      if Corrupted c =? 0 then input_loop (input_byte c b) octets else c
  end.

Definition set_corrupted (c : SHA1Context) (e : Z) : SHA1Context :=
  mkSHA1Context (Intermediate_Hash c) (Length_Low c) (Length_High c)
    (Message_Block_Index c) (Message_Block c) (Computed c) e.

(** [message_array] is [None] for NULL; otherwise the list holds at least
    [length] octets (the caller's contract: the code reads exactly those). *)
Definition SHA1Input (context : option SHA1Context) (message_array : option (list Z))
    (length : Z) : Z * option SHA1Context :=
  if length =? 0 then (shaSuccess, context) else
  match context, message_array with
  | Some c, Some m =>
      if negb (Computed c =? 0) then (shaStateError, Some (set_corrupted c shaStateError))
      else if negb (Corrupted c =? 0) then (Corrupted c, context)
      else (shaSuccess, Some (input_loop c (take (Z.to_nat length) m)))
  | _, _ => (shaNull, context)
  end.

(** [while(Message_Block_Index < bound) Message_Block[Message_Block_Index++] = 0]:
    at most 64 iterations, the fuel counts them down. *)
Fixpoint pad_zeros (fuel : nat) (bound : Z) (c : SHA1Context) : SHA1Context :=
  match fuel with
  | O => c
  | S fuel =>
      if Message_Block_Index c <? bound then pad_zeros fuel bound (put_byte c 0) else c
  end.

Definition store_length (c : SHA1Context) : SHA1Context :=
  let hi := Length_High c in
  let lo := Length_Low c in
  let blk := Message_Block c in
  let blk := <[56%nat := u8 (Z.shiftr hi 24)]> blk in
  let blk := <[57%nat := u8 (Z.shiftr hi 16)]> blk in
  let blk := <[58%nat := u8 (Z.shiftr hi 8)]> blk in
  let blk := <[59%nat := u8 hi]> blk in
  let blk := <[60%nat := u8 (Z.shiftr lo 24)]> blk in
  let blk := <[61%nat := u8 (Z.shiftr lo 16)]> blk in
  let blk := <[62%nat := u8 (Z.shiftr lo 8)]> blk in
  let blk := <[63%nat := u8 lo]> blk in
  mkSHA1Context (Intermediate_Hash c) lo hi (Message_Block_Index c) blk
    (Computed c) (Corrupted c).

Definition SHA1PadMessage (c : SHA1Context) : SHA1Context :=
  let c :=
    if 55 <? Message_Block_Index c then
      let c := pad_zeros 64 64 (put_byte c 0x80) in
      pad_zeros 64 56 (SHA1ProcessMessageBlock c)
    else pad_zeros 64 56 (put_byte c 0x80) in
  SHA1ProcessMessageBlock (store_length c).

(** [(uint8_t)(Intermediate_Hash[i>>2] >> 8 * (3 - (i & 0x03)))] *)
Definition digest_byte (h : list Z) (i : nat) : Z :=
  u8 (Z.shiftr (rd h (i / 4)) (8 * (3 - Z.land (Z.of_nat i) 3))).

Definition SHA1_digest (h : list Z) : list Z := map (digest_byte h) (seq 0 SHA1HashSize).

(** Returns the code, the context and, for success, the digest written to
    [Message_Digest]; [out] tells whether that pointer is non-NULL. *)
Definition SHA1Result (context : option SHA1Context) (out : bool)
    : Z * option SHA1Context * option (list Z) :=
  match context with
  | Some c =>
      if out then
        if negb (Corrupted c =? 0) then (Corrupted c, context, None)
        else
          let c :=
            if Computed c =? 0 then
              let c := SHA1PadMessage c in
              mkSHA1Context (Intermediate_Hash c) 0 0 (Message_Block_Index c)
                (replicate 64 0) 1 (Corrupted c)
            else c in
          (shaSuccess, Some c, Some (SHA1_digest (Intermediate_Hash c)))
      else (shaNull, context, None)
  | None => (shaNull, context, None)
  end.

(** ** Reference definition (FIPS 180: one loop of 80 rounds, [Ch], [Parity]
    and [Maj] in their exclusive-or form, padding of the whole message) *)
Definition Ch (x y z : Z) : Z := Z.lxor (Z.land x y) (Z.land (u32 (Z.lnot x)) z).
Definition Parity (x y z : Z) : Z := Z.lxor (Z.lxor x y) z.
Definition Maj (x y z : Z) : Z :=
  Z.lxor (Z.lxor (Z.land x y) (Z.land x z)) (Z.land y z).

Definition fips_f (t : nat) : Z -> Z -> Z -> Z :=
  match (t / 20)%nat with O => Ch | 2%nat => Maj | _ => Parity end.

Definition fips_round (W : list Z) (s : regs) (t : nat) : regs :=
  rotate_regs s (u32 (SHA1CircularShift 5 (rA s) + fips_f t (rB s) (rC s) (rD s)
                      + rE s + rd W t + rd K (t / 20))).

Definition fips_compress (h blk : list Z) : list Z :=
  add_regs h (fold_left (fips_round (W_schedule blk)) (seq 0 80) (regs_of h)).

Definition be64 (n : Z) : list Z :=
  map (fun k => u8 (Z.shiftr n k)) [56; 48; 40; 32; 24; 16; 8; 0].

Definition fips_pad (m : list Z) : list Z :=
  m ++ 0x80 :: replicate (Z.to_nat ((55 - Z.of_nat (length m)) mod 64)) 0
    ++ be64 (8 * Z.of_nat (length m)).

Fixpoint blocks (n : nat) (l : list Z) : list (list Z) :=
  match n with O => [] | S n => take 64 l :: blocks n (drop 64 l) end.

Definition sha1_spec (m : list Z) : list Z :=
  let p := fips_pad m in
  SHA1_digest (fold_left fips_compress (blocks (length p / 64) p) CUSTOM_BGN).

(** *** The four loops are the 80 rounds *)
Lemma Ch_or x y z :
  Z.lor (Z.land x y) (Z.land (u32 (Z.lnot x)) z) = Ch x y z.
Proof.
  apply Z.bits_inj'. intros i Hi. unfold Ch.
  rw Z.lor_spec Z.lxor_spec !Z.land_spec testbit_u32 // Z.lnot_spec //.
  by destruct (i <? 32), (Z.testbit x i), (Z.testbit y i), (Z.testbit z i).
Qed.

Lemma Maj_or x y z :
  Z.lor (Z.lor (Z.land x y) (Z.land x z)) (Z.land y z) = Maj x y z.
Proof.
  apply Z.bits_inj'. intros i Hi. unfold Maj.
  rw !Z.lor_spec !Z.lxor_spec !Z.land_spec.
  by destruct (Z.testbit x i), (Z.testbit y i), (Z.testbit z i).
Qed.

Lemma rounds_fips W s : rounds W s = fold_left (fips_round W) (seq 0 80) s.
Proof.
  assert (forall t q, (q * 20 <= t < q * 20 + 20)%nat -> (t / 20 = q)%nat) as Hq.
  { intros t q ?. symmetry. apply (Nat.div_unique _ _ _ (t - q * 20)); lia. }
  replace (seq 0 80) with (seq 0 20 ++ seq 20 20 ++ seq 40 20 ++ seq 60 20) by done.
  rw !fold_left_app /rounds.
  rw (fold_left_ext_seq (round_0 W) (fips_round W) 0).
  2:{ intros a t Ht. rw /round_0 /fips_round /fips_f (Hq t 0%nat) // Ch_or //. }
  rw (fold_left_ext_seq (round_1 W) (fips_round W) 20).
  2:{ intros a t Ht. rw /round_1 /fips_round /fips_f (Hq t 1%nat) //. }
  rw (fold_left_ext_seq (round_2 W) (fips_round W) 40).
  2:{ intros a t Ht. rw /round_2 /fips_round /fips_f (Hq t 2%nat) // Maj_or //. }
  rw (fold_left_ext_seq (round_3 W) (fips_round W) 60) //.
  intros a t Ht. rw /round_3 /fips_round /fips_f (Hq t 3%nat) //.
Qed.

Lemma process_fips c :
  Intermediate_Hash (SHA1ProcessMessageBlock c)
    = fips_compress (Intermediate_Hash c) (Message_Block c).
Proof. unfold SHA1ProcessMessageBlock, fips_compress. cbn [Intermediate_Hash]. by rw rounds_fips. Qed.

Lemma process_fields c :
  Message_Block_Index (SHA1ProcessMessageBlock c) = 0 /\
  Message_Block (SHA1ProcessMessageBlock c) = Message_Block c /\
  Length_Low (SHA1ProcessMessageBlock c) = Length_Low c /\
  Length_High (SHA1ProcessMessageBlock c) = Length_High c /\
  Computed (SHA1ProcessMessageBlock c) = Computed c /\
  Corrupted (SHA1ProcessMessageBlock c) = Corrupted c.
Proof. done. Qed.

#[local] Opaque fips_compress SHA1ProcessMessageBlock Z.shiftr.

(** *** The context as a prefix of the message *)
(** [c] has absorbed [m]: full blocks are folded into the hash, the tail waits
    in [Message_Block], and the two length words hold the number of bits. *)
Record absorbed (c : SHA1Context) (m : list Z) : Prop := {
  abs_split : exists bs tail,
    m = concat bs ++ tail /\ Forall (fun b => length b = 64%nat) bs /\
    (length tail < 64)%nat /\ Message_Block_Index c = Z.of_nat (length tail) /\
    take (length tail) (Message_Block c) = tail /\
    Intermediate_Hash c = fold_left fips_compress bs CUSTOM_BGN;
  abs_block : length (Message_Block c) = 64%nat;
  abs_low : Length_Low c = (8 * Z.of_nat (length m)) mod 2 ^ 32;
  abs_high : Length_High c = (8 * Z.of_nat (length m)) / 2 ^ 32;
  abs_computed : Computed c = 0;
  abs_corrupted : Corrupted c = 0
}.

(** The length words step without corruption while the bit count fits 64 bits. *)
Lemma count_byte_ok c n :
  Length_Low c = (8 * n) mod 2 ^ 32 -> Length_High c = (8 * n) / 2 ^ 32 ->
  Corrupted c = 0 -> 0 <= n -> 8 * (n + 1) < 2 ^ 64 ->
  Length_Low (count_byte c) = (8 * (n + 1)) mod 2 ^ 32 /\
  Length_High (count_byte c) = (8 * (n + 1)) / 2 ^ 32 /\ Corrupted (count_byte c) = 0.
Proof.
  intros Hl Hh Hc Hn Hb. unfold count_byte; cbn. rw Hl Hh.
  assert (u32 ((8 * n) mod 2 ^ 32 + 8) = (8 * (n + 1)) mod 2 ^ 32) as ->.
  { unfold u32. rw Zplus_mod_idemp_l. f_equal. lia. }
  pose proof (Z.div_mod (8 * n) (2 ^ 32) ltac:(lia)) as E1.
  pose proof (Z.mod_pos_bound (8 * n) (2 ^ 32) ltac:(lia)) as B1.
  pose proof (Z.div_mod (8 * (n + 1)) (2 ^ 32) ltac:(lia)) as E2.
  pose proof (Z.mod_pos_bound (8 * (n + 1)) (2 ^ 32) ltac:(lia)) as B2.
  destruct (Z.eqb_spec ((8 * (n + 1)) mod 2 ^ 32) 0) as [E|E].
  - assert ((8 * (n + 1)) / 2 ^ 32 = (8 * n) / 2 ^ 32 + 1) as -> by lia.
    assert ((8 * n) / 2 ^ 32 + 1 < 2 ^ 32) by lia.
    rw u32_small; [|lia]. rw E. split_and!; try lia.
    destruct (Z.eqb_spec ((8 * n) / 2 ^ 32 + 1) 0); lia.
  - split_and!; [done| |done].
    assert (8 * n mod 2 ^ 32 + 8 < 2 ^ 32); [|lia].
    assert ((8 * n) mod 2 ^ 32 mod 8 = 0) as D1.
    { rw Z.mod_mod_divide; [|by exists (2 ^ 29)].
      rw Z.mul_comm. apply Z.mod_mul. lia. }
    lia.
Qed.

Lemma absorbed_byte c m b :
  absorbed c m -> is_byte b -> 8 * (Z.of_nat (length m) + 1) < 2 ^ 64 ->
  absorbed (input_byte c b) (m ++ [b]).
Proof.
  intros [(bs & tail & Hm & Hbs & Ht & Hi & Htk & Hh) Hblk Hl Hhi Hco Hcr] Hb Hlen.
  set (c' := count_byte (put_byte c b)).
  destruct (count_byte_ok (put_byte c b) (Z.of_nat (length m))) as (Hl' & Hhi' & Hcr'); try done; [lia|].
  fold c' in Hl', Hhi', Hcr'.
  assert (Message_Block_Index c' = Z.of_nat (length tail) + 1) as Hi'.
  { cbn. rw Hi s16_small; lia. }
  assert (take (S (length tail)) (Message_Block c') = tail ++ [b]) as Htk'.
  { cbn. rw Hi Nat2Z.id take_insert_snoc ?Htk //. lia. }
  assert (length (Message_Block c') = 64%nat) as Hblk' by (cbn; by rw length_insert).
  assert (Z.of_nat (length (m ++ [b])) = Z.of_nat (length m) + 1) as Hlm
    by (rw length_app /=; lia).
  unfold input_byte. rw land_ff //. fold c'. rw Hi'.
  destruct (Z.eqb_spec (Z.of_nat (length tail) + 1) 64) as [E|E].
  - assert (S (length tail) = 64%nat) as E' by lia.
    split; rw ?Hlm; try done.
    exists (bs ++ [tail ++ [b]]), []. rw process_fips. split_and!; try done.
    + by rw Hm concat_app /= !app_nil_r app_assoc.
    + apply Forall_app; split; [done|]. constructor; [|done]. rw length_app /=. lia.
    + cbn; lia.
    + rw fold_left_app /=. f_equal; [exact Hh|].
      rw E' in Htk'. by rw -Htk' take_ge ?Hblk'.
  - split; rw ?Hlm; try done.
    exists bs, (tail ++ [b]). rw length_app /=.
    replace (length tail + 1)%nat with (S (length tail)) by lia.
    split_and!; try done; [by rw Hm app_assoc|lia|rw Hi s16_small; lia].
Qed.

Lemma absorbed_loop c m m' :
  absorbed c m -> all_bytes m' -> 8 * Z.of_nat (length (m ++ m')) < 2 ^ 64 ->
  absorbed (input_loop c m') (m ++ m').
Proof.
  revert c m. induction m' as [|b m' IH]; intros c m H Hb Hlen; simpl.
  { by rw app_nil_r. }
  rw (abs_corrupted _ _ H) /=. inversion_clear Hb.
  rw length_app /= in Hlen.
  replace (m ++ b :: m') with ((m ++ [b]) ++ m') by by rw -app_assoc.
  apply IH; [|done|rw !length_app /=; lia].
  apply absorbed_byte; [done|done|lia].
Qed.

Lemma absorbed_reset c c' :
  length (Message_Block c) = 64%nat ->
  SHA1Reset (Some c) = (shaSuccess, Some c') -> absorbed c' [].
Proof.
  intros Hl. cbn. intros [= <-]. split; try done.
  exists [], []. split_and!; try done; cbn; lia.
Qed.

(** *** Padding *)
Lemma pad_zeros_spec fuel bound c i :
  Message_Block_Index c = Z.of_nat i -> (i <= bound)%nat -> (bound <= i + fuel)%nat ->
  (bound <= 64)%nat -> length (Message_Block c) = 64%nat ->
  exists blk, pad_zeros fuel (Z.of_nat bound) c
     = mkSHA1Context (Intermediate_Hash c) (Length_Low c) (Length_High c)
         (Z.of_nat bound) blk (Computed c) (Corrupted c) /\
    length blk = 64%nat /\
    take bound blk = take i (Message_Block c) ++ replicate (bound - i) 0.
Proof.
  revert c i. induction fuel as [|fuel IH]; intros c i Hi Hib Hf Hb Hl.
  - exists (Message_Block c). replace bound with i by lia. simpl.
    rw Nat.sub_diag app_nil_r -Hi. by destruct c.
  - simpl. rw Hi. destruct (Z.ltb_spec (Z.of_nat i) (Z.of_nat bound)) as [E|E].
    + destruct (IH (put_byte c 0) (S i)) as (blk & -> & Hlb & Htk);
        cbn [put_byte Message_Block_Index Message_Block]; rw ?Hi ?Nat2Z.id.
      * rw s16_small; lia.
      * lia.
      * lia.
      * done.
      * by rw length_insert.
      * exists blk. split_and!; [done|done|]. rw Htk.
        cbn [put_byte Message_Block]. rw Hi Nat2Z.id take_insert_snoc; [|lia].
        rw -app_assoc. f_equal. by replace (bound - i)%nat with (S (bound - S i)) by lia.
    + exists (Message_Block c). replace bound with i by lia.
      rw Nat.sub_diag app_nil_r -Hi. by destruct c.
Qed.

Lemma u8_shiftr_low lo hi n :
  0 <= n < 2 ^ 64 -> lo = n mod 2 ^ 32 -> hi = n / 2 ^ 32 ->
  [u8 (Z.shiftr hi 24); u8 (Z.shiftr hi 16); u8 (Z.shiftr hi 8); u8 hi;
   u8 (Z.shiftr lo 24); u8 (Z.shiftr lo 16); u8 (Z.shiftr lo 8); u8 lo] = be64 n.
Proof.
  intros Hn -> ->. unfold be64, u8. cbn [map].
  assert (forall k, 0 <= k <= 24 ->
    Z.shiftr (n / 2 ^ 32) k mod 2 ^ 8 = Z.shiftr n (k + 32) mod 2 ^ 8) as Hhi.
  { intros k Hk. rw -Z.shiftr_div_pow2; [|lia]. rw Z.shiftr_shiftr; [|lia].
    f_equal. f_equal. lia. }
  assert (forall k, 0 <= k <= 24 ->
    Z.shiftr (n mod 2 ^ 32) k mod 2 ^ 8 = Z.shiftr n k mod 2 ^ 8) as Hlo.
  { intros k Hk. apply Z.bits_inj'. intros i Hi.
    destruct (Z.ltb_spec i 8).
    - rw !Z.mod_pow2_bits_low; try lia. rw !Z.shiftr_spec; try lia.
      by rw Z.mod_pow2_bits_low; try lia.
    - rw !Z.mod_pow2_bits_high; lia. }
  pose proof (Hhi 0 ltac:(lia)) as H0. pose proof (Hlo 0 ltac:(lia)) as L0.
  rw Z.shiftr_0_r in H0. rw Z.shiftr_0_r in L0.
  rw !Hhi; try lia. rw !Hlo; try lia. by rw H0 L0.
Qed.

Lemma store_length_block c :
  length (Message_Block c) = 64%nat ->
  Message_Block (store_length c) = take 56 (Message_Block c) ++
    [u8 (Z.shiftr (Length_High c) 24); u8 (Z.shiftr (Length_High c) 16);
     u8 (Z.shiftr (Length_High c) 8); u8 (Length_High c);
     u8 (Z.shiftr (Length_Low c) 24); u8 (Z.shiftr (Length_Low c) 16);
     u8 (Z.shiftr (Length_Low c) 8); u8 (Length_Low c)].
Proof.
  intros Hl. unfold store_length. cbn [Message_Block].
  generalize dependent (Message_Block c). intros l Hl.
  do 64 (destruct l as [|? l]; [done|]). by destruct l.
Qed.

Lemma be64_length n : length (be64 n) = 8%nat.
Proof. done. Qed.

Lemma blocks_app bs rest n :
  Forall (fun b => length b = 64%nat) bs ->
  blocks (length bs + n) (concat bs ++ rest) = bs ++ blocks n rest.
Proof.
  induction 1 as [|b bs Hb _ IH]; [done|]. simpl.
  rw -app_assoc take_app_length' // drop_app_length' // IH //.
Qed.

Lemma concat_length_64 (bs : list (list Z)) :
  Forall (fun b => length b = 64%nat) bs -> length (concat bs) = (length bs * 64)%nat.
Proof. induction 1 as [|b bs Hb _ IH]; [done|]. simpl. rw length_app Hb IH. lia. Qed.

(** The digest the reference computes, from the block decomposition. *)
Lemma sha1_spec_blocks m bs last :
  fips_pad m = concat bs ++ last -> Forall (fun b => length b = 64%nat) bs ->
  length last = 64%nat ->
  sha1_spec m = SHA1_digest (fips_compress (fold_left fips_compress bs CUSTOM_BGN) last).
Proof.
  intros Hp Hbs Hl. unfold sha1_spec. rw Hp length_app concat_length_64 // Hl.
  replace ((length bs * 64 + 64) / 64)%nat with (length bs + 1)%nat.
  2:{ replace (length bs * 64 + 64)%nat with ((length bs + 1) * 64)%nat by lia.
      by rw Nat.div_mul. }
  rw blocks_app // fold_left_app /= take_ge //. lia.
Qed.

Lemma pad_count n k :
  (n mod 64 = k)%nat ->
  Z.to_nat ((55 - Z.of_nat n) mod 64) = (if k <=? 55 then 55 - k else 119 - k)%nat.
Proof.
  intros <-. pose proof (Nat.mod_upper_bound n 64 ltac:(lia)) as Hb.
  pose proof (Nat.div_mod_eq n 64) as E.
  assert ((55 - Z.of_nat n) mod 64 = (55 - Z.of_nat (n mod 64)) mod 64) as ->.
  { rw {1}E. replace (55 - Z.of_nat (64 * (n / 64) + n mod 64))
      with (55 - Z.of_nat (n mod 64) + (- Z.of_nat (n / 64)) * 64) by lia.
    apply Z.mod_add. lia. }
  destruct (Nat.leb_spec (n mod 64) 55).
  - rw Z.mod_small; lia.
  - replace (55 - Z.of_nat (n mod 64)) with (119 - Z.of_nat (n mod 64) + (-1) * 64) by lia.
    rw Z.mod_add; [|lia]. rw Z.mod_small; lia.
Qed.

Lemma final_block h lo hi i blk co cr X n :
  length blk = 64%nat -> take 56 blk = X ->
  0 <= n < 2 ^ 64 -> lo = n mod 2 ^ 32 -> hi = n / 2 ^ 32 ->
  Intermediate_Hash (SHA1ProcessMessageBlock
      (store_length (mkSHA1Context h lo hi i blk co cr)))
    = fips_compress h (X ++ be64 n).
Proof.
  intros Hb <- Hn Hl Hh. rw process_fips store_length_block; [|done].
  by rw (u8_shiftr_low _ _ n Hn Hl Hh).
Qed.

(** [0x80] and zeros up to [bound], after the tail of the message. *)
Lemma pad_first c tail bound :
  Message_Block_Index c = Z.of_nat (length tail) -> take (length tail) (Message_Block c) = tail ->
  length (Message_Block c) = 64%nat -> (length tail < bound)%nat -> (bound <= 64)%nat ->
  exists blk, pad_zeros 64 (Z.of_nat bound) (put_byte c 0x80)
     = mkSHA1Context (Intermediate_Hash c) (Length_Low c) (Length_High c)
         (Z.of_nat bound) blk (Computed c) (Corrupted c) /\
    length blk = 64%nat /\
    take bound blk = tail ++ 0x80 :: replicate (bound - S (length tail)) 0.
Proof.
  intros Hi Htk Hblk Hb1 Hb2.
  destruct (pad_zeros_spec 64 bound (put_byte c 0x80) (S (length tail)))
    as (blk & Hpz & Hlb & Htb); unfold put_byte in *;
    cbn [Message_Block_Index Message_Block Intermediate_Hash Length_Low Length_High
         Computed Corrupted] in *.
  - rw Hi s16_small; lia.
  - lia.
  - lia.
  - done.
  - by rw length_insert.
  - exists blk. split_and!; [done|done|].
    rw Htb Hi Nat2Z.id take_insert_snoc; [|lia]. by rw Htk -app_assoc.
Qed.

Lemma fips_pad_split m bs tail :
  m = concat bs ++ tail -> Forall (fun b => length b = 64%nat) bs -> (length tail < 64)%nat ->
  fips_pad m = concat bs ++ tail ++ 0x80 ::
    replicate (if length tail <=? 55 then 55 - length tail else 119 - length tail)%nat 0
    ++ be64 (8 * Z.of_nat (length m)).
Proof.
  intros Hm Hbs Ht. unfold fips_pad.
  rw (pad_count (length m) (length tail)); [by rw {1}Hm -app_assoc|].
  rw Hm length_app concat_length_64 // Nat.add_comm Nat.Div0.mod_add.
  by apply Nat.mod_small.
Qed.

(** Padding a context that absorbed [m] leaves the reference's chaining value. *)
Lemma pad_message_spec c m :
  absorbed c m -> 8 * Z.of_nat (length m) < 2 ^ 64 ->
  SHA1_digest (Intermediate_Hash (SHA1PadMessage c)) = sha1_spec m.
Proof.
  intros [(bs & tail & Hm & Hbs & Ht & Hi & Htk & Hh) Hblk Hl Hhi Hco Hcr] Hlen.
  pose proof (fips_pad_split _ _ _ Hm Hbs Ht) as Hpad.
  set (n := 8 * Z.of_nat (length m)) in *.
  assert (0 <= n < 2 ^ 64) as Hn by lia.
  unfold SHA1PadMessage. rw Hi.
  destruct (Z.ltb_spec 55 (Z.of_nat (length tail))) as [E|E].
  - destruct (pad_first c tail 64) as (blk & Hpz & Hlb & Htb); [done..|lia|done|].
    change (Z.of_nat 64) with 64 in Hpz. rw Hpz.
    set (cb := mkSHA1Context _ _ _ _ _ _ _). set (c2 := SHA1ProcessMessageBlock cb).
    destruct (process_fields cb) as (F1 & F2 & F3 & F4 & _). fold c2 in F1, F2, F3, F4.
    unfold cb in F2, F3, F4; cbn [Message_Block Length_Low Length_High] in F2, F3, F4.
    destruct (pad_zeros_spec 64 56 c2 0) as (blk2 & Hpz2 & Hlb2 & Htb2);
      [done|lia|lia|lia|by rw F2|].
    change (Z.of_nat 56) with 56 in Hpz2. rw Hpz2.
    erewrite (final_block _ _ _ _ _ _ _ _ n Hlb2 Htb2 Hn); [|by rw F3|by rw F4]. unfold c2. rw process_fips. unfold cb.
    rw take_ge in Htb; [|lia]. cbn [Intermediate_Hash Message_Block].
    rw Htb Hh. symmetry.
    rw (sha1_spec_blocks m (bs ++ [tail ++ 0x80 :: replicate (64 - S (length tail)) 0])
         (replicate 56 0 ++ be64 n)).
    + by rw fold_left_app.
    + rw Hpad. destruct (Nat.leb_spec (length tail) 55); [lia|].
      rw concat_app /= app_nil_r -!app_assoc /=.
      replace (119 - length tail)%nat with (64 - S (length tail) + 56)%nat by lia.
      by rw replicate_add -!app_assoc.
    + apply Forall_app; split; [done|]. constructor; [|done].
      rw length_app /= length_replicate. lia.
    + by rw length_app length_replicate.
  - destruct (pad_first c tail 56) as (blk & Hpz & Hlb & Htb); [done..|lia|lia|].
    change (Z.of_nat 56) with 56 in Hpz. rw Hpz (final_block _ _ _ _ _ _ _ _ n Hlb Htb Hn Hl Hhi).
    cbn [Intermediate_Hash]. rw Hh. symmetry.
    apply sha1_spec_blocks.
    + rw Hpad. destruct (Nat.leb_spec (length tail) 55); [|lia].
      rw -!app_assoc /=. by replace (56 - S (length tail))%nat with (55 - length tail)%nat by lia.
    + done.
    + rw !length_app /= length_replicate. lia.
Qed.

(** Feeding a message in pieces. *)
Fixpoint feed (c : option SHA1Context) (ms : list (list Z)) : option SHA1Context :=
  match ms with
  | [] => c
  | m :: ms => feed (SHA1Input c (Some m) (Z.of_nat (length m))).2 ms
  end.

Lemma input_absorbed c m m' :
  absorbed c m -> all_bytes m' -> 8 * Z.of_nat (length (m ++ m')) < 2 ^ 64 ->
  exists c', SHA1Input (Some c) (Some m') (Z.of_nat (length m')) = (shaSuccess, Some c') /\
    absorbed c' (m ++ m').
Proof.
  intros H Hb Hlen. unfold SHA1Input.
  destruct (Z.eqb_spec (Z.of_nat (length m')) 0) as [E|E].
  - destruct m'; [|simpl in E; lia]. exists c. by rw app_nil_r.
  - rw (abs_computed _ _ H) (abs_corrupted _ _ H) /=.
    rw Nat2Z.id take_ge //. eexists. split; [done|]. by apply absorbed_loop.
Qed.

Lemma feed_absorbed ms c m :
  absorbed c m -> all_bytes (concat ms) -> 8 * Z.of_nat (length (m ++ concat ms)) < 2 ^ 64 ->
  exists c', feed (Some c) ms = Some c' /\ absorbed c' (m ++ concat ms).
Proof.
  revert c m. induction ms as [|m' ms IH]; intros c m H Hb Hlen; simpl in *.
  - exists c. by rw app_nil_r.
  - apply Forall_app in Hb as [Hb1 Hb2].
    destruct (input_absorbed c m m') as (c' & -> & H'); [done|done| |].
    { rw !length_app in Hlen |- *. lia. }
    cbn [snd]. destruct (IH c' (m ++ m')) as (c'' & -> & H''); [done|done| |].
    { by rw -app_assoc. }
    exists c''. by rw -app_assoc in H''.
Qed.

(** The digest of what a context has absorbed. *)
Lemma result_absorbed c m :
  absorbed c m -> all_bytes m -> 8 * Z.of_nat (length m) < 2 ^ 64 ->
  exists c', SHA1Result (Some c) true = (shaSuccess, Some c', Some (sha1_spec m)) /\
    Computed c' = 1 /\ length (Message_Block c') = 64%nat.
Proof.
  intros Ha Hb Hlen. unfold SHA1Result.
  rw (abs_corrupted _ _ Ha) (abs_computed _ _ Ha). cbn [Z.eqb negb Intermediate_Hash].
  rw (pad_message_spec c m); [|done|done]. eexists. split; [reflexivity|]. done.
Qed.

(** C30: whatever the context held before, [SHA1Reset] followed by any split of
    a message into [SHA1Input] calls and [SHA1Result] succeeds and returns the
    reference digest of the whole message, for every message whose bit length
    fits the two length words; the context is then marked computed. *)
Theorem sha1_streaming c ms :
  length (Message_Block c) = 64%nat -> all_bytes (concat ms) ->
  8 * Z.of_nat (length (concat ms)) < 2 ^ 64 ->
  exists c', SHA1Result (feed (SHA1Reset (Some c)).2 ms) true
    = (shaSuccess, Some c', Some (sha1_spec (concat ms))) /\ Computed c' = 1.
Proof.
  intros Hc Hb Hlen.
  destruct (feed_absorbed ms _ [] (absorbed_reset c _ Hc eq_refl) Hb Hlen) as (c1 & E & Ha).
  cbn [snd SHA1Reset]. rw E. destruct (result_absorbed c1 (concat ms)) as (c' & -> & Hc' & _); [done..|].
  by exists c'.
Qed.

Definition zero_context : SHA1Context := mkSHA1Context (replicate 5 0) 0 0 0 (replicate 64 0) 0 0.

#[local] Transparent fips_compress SHA1ProcessMessageBlock Z.shiftr.

Lemma sha1_streaming_witness :
  exists c', SHA1Result (feed (SHA1Reset (Some zero_context)).2 [[97; 98]; []; [99]]) true
    = (shaSuccess, Some c', Some (sha1_spec [97; 98; 99])) /\ Computed c' = 1.
Proof.
  apply (sha1_streaming zero_context [[97; 98]; []; [99]]).
  - reflexivity.
  - repeat constructor; compute; congruence.
  - reflexivity.
Defined.

Lemma digest_bytes h : length (SHA1_digest h) = SHA1HashSize /\ all_bytes (SHA1_digest h).
Proof.
  split; [done|]. unfold SHA1_digest, all_bytes. apply Forall_fmap, Forall_true.
  intros i. apply u8_range.
Qed.

(** the error discipline of the context: after a digest was produced, a
    non-empty [SHA1Input] is refused with [shaStateError] and poisons the
    context, so that every later [SHA1Result] and non-empty [SHA1Input] reports
    an error and no digest, until [SHA1Reset]; and the digest that was produced
    had exactly 20 octets. *)
Theorem sha1_state_error c c' out m d :
  SHA1Result (Some c) out = (shaSuccess, Some c', d) -> m <> [] ->
  exists c'', SHA1Input (Some c') (Some m) (Z.of_nat (length m)) = (shaStateError, Some c'') /\
    SHA1Result (Some c'') true = (shaStateError, Some c'', None) /\
    (SHA1Input (Some c'') (Some m) (Z.of_nat (length m))).1 = shaStateError /\
    (SHA1Reset (Some c'')).1 = shaSuccess /\
    exists digest, d = Some digest /\ length digest = SHA1HashSize /\ all_bytes digest.
Proof.
  unfold SHA1Result. intros H Hm. destruct out; [|done].
  destruct (Corrupted c =? 0) eqn:Ecr; cbn [negb] in H.
  2:{ exfalso. injection H as H1 _ _. rw H1 in Ecr. done. }
  set (c1 := if Computed c =? 0 then _ else c) in H.
  assert ((Computed c1 =? 0) = false) as Hco by (unfold c1; by destruct (Computed c =? 0) eqn:E).
  clearbody c1. injection H as <- <-. unfold SHA1Input.
  destruct (Z.eqb_spec (Z.of_nat (length m)) 0) as [E|_]; [destruct m; simpl in E; [done|lia]|].
  rw Hco. cbn [negb]. eexists. split_and!; try reflexivity.
  - cbn [Computed set_corrupted]. by rw Hco.
  - eexists. split; [done|]. apply digest_bytes.
Qed.

Lemma sha1_state_error_witness :
  let r := SHA1Result (SHA1Reset (Some zero_context)).2 true in
  exists c' d c'', r = (shaSuccess, Some c', d) /\
    SHA1Input (Some c') (Some [1]) 1 = (shaStateError, Some c'').
Proof.
  destruct (SHA1Result (SHA1Reset (Some zero_context)).2 true) as [[z oc] d] eqn:E.
  assert (z = shaSuccess) as -> by (vm_compute in E; injection E as <- _ _; reflexivity).
  destruct oc as [c'|]; [|vm_compute in E; discriminate].
  destruct (sha1_state_error _ _ _ [1] _ E ltac:(congruence)) as (c'' & H & _).
  exists c', d, c''. split; [reflexivity|exact H].
Defined.
