(* ===== verification/Memory.v ===== *)
(** * Allocators (the [iHeap] contract) and mutexes (the [iMutex] contract)

    [Allocator] is what a component that owns memory promises to the components
    built on it: [iHeap::alloc]/[iHeap::free] (core/interface/iMemory.h), and
    the [pf_mem_alloc]/[p_alloc] callbacks that cMap, cLlist, hash_map and
    linked_list install.  [AllocatorLaws] is the contract the clients'
    theorems use; [grown] describes what a component has allocated.  [bump] is
    a concrete allocator with a budget, which the witnesses instantiate;
    [tracked] counts what an allocator refuses. *)
From S2P Require Import Prelude.
Set Default Goal Selector "!".

Class Allocator (A : Type) := {
  a_ok : A -> Prop;                 (* the allocator's own invariant *)
  a_live : A -> gmap Z Z;           (* live blocks: address to size *)
  a_alloc : A -> Z -> Z * A;        (* address, 0 for failure *)
  a_free : A -> Z -> Z -> A
}.

(** The contract: an allocation fails and changes nothing that is live, or
    returns a block nobody holds; freeing a live block with its own size
    removes exactly that block. *)
Class AllocatorLaws (A : Type) `{Allocator A} := {
  alloc_law a n : a_ok a -> 0 < n ->
    a_ok (a_alloc a n).2 /\
    ((a_alloc a n).1 = 0 /\ a_live (a_alloc a n).2 = a_live a \/
     0 < (a_alloc a n).1 /\ a_live a !! (a_alloc a n).1 = None /\
     a_live (a_alloc a n).2 = <[(a_alloc a n).1 := n]> (a_live a));
  free_law a p n : a_ok a -> a_live a !! p = Some n ->
    a_ok (a_free a p n) /\ a_live (a_free a p n) = delete p (a_live a);
  live_pos a p n : a_ok a -> a_live a !! p = Some n -> 0 < p
}.

(** ** Owned blocks

    [grown a0 a bl]: the allocator [a] holds what [a0] held, and the blocks [bl]. *)
Abbreviation block := (Z * Z)%type (only parsing).

Section grown.
Context {A : Type} `{AllocatorLaws A}.

Record grown (a0 a : A) (bl : list block) : Prop := {
  gr_ok : a_ok a;
  gr_live : a_live a = list_to_map bl ∪ a_live a0;
  gr_nodup : NoDup bl.*1;
  gr_new : Forall (fun b => a_live a0 !! b.1 = None) bl
}.

Lemma grown_nil a : a_ok a -> grown a a [].
Proof. intros Ha. split; [done| |constructor|constructor]. by rw list_to_map_nil left_id_L. Qed.

Lemma grown_perm a0 a bl bl' : bl ≡ₚ bl' -> grown a0 a bl -> grown a0 a bl'.
Proof.
  intros Hp [H1 H2 H3 H4]. split; [done| |by rw -Hp|by rw -Hp]. rw H2. f_equal. by apply list_to_map_proper.
Qed.

Lemma grown_alloc a0 a bl n : grown a0 a bl -> 0 < n ->
  (a_alloc a n).1 = 0 /\ grown a0 (a_alloc a n).2 bl \/
  0 < (a_alloc a n).1 /\ grown a0 (a_alloc a n).2 (((a_alloc a n).1, n) :: bl).
Proof.
  intros [H1 H2 H3 H4] Hn. destruct (alloc_law a n H1 Hn) as [Hok [[E Hl]|(Hp & Hf & Hl)]]; [left|right]; (split; [done|]).
  - split; [done|congruence|done|done].
  - rw H2 in Hf. apply lookup_union_None in Hf as [Hf1 Hf2]. split; [done| | |by constructor].
    + rw Hl H2 list_to_map_cons. by rw insert_union_l.
    + cbn. constructor; [|done]. by apply not_elem_of_list_to_map.
Qed.

Lemma grown_free a0 a p n bl : grown a0 a ((p, n) :: bl) ->
  a_live a !! p = Some n /\ grown a0 (a_free a p n) bl.
Proof.
  intros [H1 H2 H3 H4]. assert (a_live a !! p = Some n) as Hl.
  { rw H2 list_to_map_cons -insert_union_l. by rw lookup_insert_eq. }
  split; [done|]. destruct (free_law a p n H1 Hl) as [Hok Hd]. inversion H3; subst. inversion H4; subst.
  split; [done| |done|done]. rw Hd H2 list_to_map_cons delete_union. f_equal.
  - rw delete_insert_id //. by apply not_elem_of_list_to_map.
  - by rw delete_id.
Qed.
End grown.

(** A bump allocator that refuses requests once its budget is used. *)
Module Bump.
Record t := mk { live : gmap Z Z; top : Z; budget : nat }.

Definition ok (a : t) : Prop :=
  0 < top a /\ forall p n, live a !! p = Some n -> 0 < p < top a.

Definition alloc (a : t) (n : Z) : Z * t :=
  match budget a with
  | O => (0, a)
  | S b => (top a, mk (<[top a := n]> (live a)) (top a + Z.max 1 n) b)
  end.

Definition free (a : t) (p n : Z) : t := mk (delete p (live a)) (top a) (budget a).

Definition empty (base : Z) (b : nat) : t := mk ∅ base b.

Lemma alloc_ok a n : ok a -> ok (alloc a n).2.
Proof.
  intros [Ht Hl]. unfold alloc. destruct (budget a); [done|]. split; cbn; [lia|].
  intros p m. rw lookup_insert. case_decide; [lia|]. intros ?%Hl. lia.
Qed.

Lemma free_ok a p n : ok a -> ok (free a p n).
Proof.
  intros [Ht Hl]. split; cbn; [done|]. intros q m.
  rw lookup_delete. case_decide; [done|]. apply Hl.
Qed.
End Bump.

#[global] Instance bump_allocator : Allocator Bump.t := {
  a_ok := Bump.ok; a_live := Bump.live; a_alloc := Bump.alloc; a_free := Bump.free
}.

#[global] Instance bump_laws : AllocatorLaws Bump.t.
Proof.
  split.
  - intros a n Hok Hn. split; [by apply Bump.alloc_ok|]. cbn. unfold Bump.alloc.
    destruct (Bump.budget a); cbn; [by left|]. right. destruct Hok as [Ht Hl].
    split_and!; [lia| |done]. destruct (Bump.live a !! Bump.top a) eqn:E; [|done].
    apply Hl in E. lia.
  - intros a p n Hok Hl. split; [by apply Bump.free_ok|done].
  - intros a p n Hok Hl. apply Hok in Hl. lia.
Qed.

(** ** Refusals

    An allocator that behaves as [A] does; [refusals] counts the requests it
    refused. *)
Record tracked {A : Type} := mkTracked { t_base : A; refusals : Z }.
Arguments tracked : clear implicits.
Arguments mkTracked {A}.

#[global] Instance tracked_allocator {A} `{Allocator A} : Allocator (tracked A) := {
  a_ok a := a_ok (t_base a);
  a_live a := a_live (t_base a);
  a_alloc a n := let '(p, b) := a_alloc (t_base a) n in (p, mkTracked b (refusals a + (if p =? 0 then 1 else 0)));
  a_free a p n := mkTracked (a_free (t_base a) p n) (refusals a)
}.
#[global] Instance tracked_laws {A} `{AllocatorLaws A} : AllocatorLaws (tracked A).
Proof.
  split.
  - intros [b k] n Hok Hn. cbn in *. destruct (alloc_law b n Hok Hn) as [H1 H2]. by destruct (a_alloc b n) as [p c].
  - intros [b k] p n. cbn. apply free_law.
  - intros [b k] p n. cbn. apply live_pos.
Qed.
