(* ===== verification/Mutex.v ===== *)
(** * Re-entrant handle mutex
    (core/sync/mutex.cpp [cMutex], core/repository-2/mutex.cpp [struct mutex])

    [lock] takes the handle of a lock the caller may already hold; a matching
    handle only counts the nesting, any other value takes the native lock.
    The two classes have the same code over a spinlock and a [std::mutex]; the
    native lock is the flag [m_native].  [Sys] is the interleaving semantics of
    threads that follow the discipline of the callers (pass the handle they
    hold, or 0), with mutual exclusion as an invariant of its reachable states. *)
From S2P Require Import Prelude.
Set Default Goal Selector "!".

Record mutex := mkMutex {
  m_this : Z;       (* address of the object *)
  m_native : bool;  (* std::mutex / _spinlock_t is taken *)
  m_lcount : Z;     (* _u32 lock count *)
  m_hcount : Z      (* _u32 handle count *)
}.

(** [((((_u64)m_hcount) << 32) | (_u32)(_u64)this)] *)
Definition get_handle (m : mutex) : Z :=
  Z.lor (u64 (Z.shiftl (m_hcount m) 32)) (u32 (m_this m)).

(** The object after construction ([mutex::mutex], [cMutex] on [OCTL_INIT]). *)
Definition mutex_init (this : Z) : mutex := mkMutex this false 0 0.

(** The body that follows a successful native lock. *)
Definition take_handle (m : mutex) : Z * mutex :=
  let m' := mkMutex (m_this m) true 1 (u32 (m_hcount m + 1)) in (get_handle m', m').

Definition nest_handle (h : Z) (m : mutex) : Z * mutex :=
  (h, mkMutex (m_this m) (m_native m) (u32 (m_lcount m + 1)) (m_hcount m)).

(** [None]: the native lock is taken and the calling thread waits. *)
Definition lock (h : Z) : M mutex Z := fun m =>
  if negb (h =? get_handle m) then
    if m_native m then None else Some (take_handle m)
  else Some (nest_handle h m).

Definition try_lock (h : Z) : M mutex Z := fun m =>
  if negb (h =? get_handle m) then
    if m_native m then Some (0, m) else Some (take_handle m)
  else Some (nest_handle h m).

Definition unlock (h : Z) : M mutex unit := fun m =>
  if h =? get_handle m then
    let lc := if m_lcount m =? 0 then m_lcount m else m_lcount m - 1 in
    let native := if lc =? 0 then false else m_native m in
    Some (tt, mkMutex (m_this m) native lc (m_hcount m))
  else Some (tt, m).

(** ** Handles *)
Definition mutex_wf (m : mutex) : Prop :=
  is_u32 (m_hcount m) /\ is_u32 (m_lcount m) /\ u32 (m_this m) <> 0 /\
  (m_native m = true <-> m_lcount m <> 0).

Lemma get_handle_eq m :
  is_u32 (m_hcount m) -> get_handle m = m_hcount m * 2 ^ 32 + u32 (m_this m).
Proof.
  intros Hh. unfold is_u32 in Hh. pose proof (u32_range (m_this m)) as Ht. unfold is_u32 in Ht.
  unfold get_handle. rw Z.shiftl_mul_pow2; [|lia]. rw u64_small; [|lia].
  assert (Z.land (m_hcount m * 2 ^ 32) (u32 (m_this m)) = 0) as E.
  { rw -Z.shiftl_mul_pow2; [|lia]. apply Z.bits_inj'. intros i Hi.
    rw Z.land_spec Z.bits_0 testbit_u32 //. destruct (Z.ltb_spec i 32); [|by rw andb_false_r].
    by rw Z.shiftl_spec_low. }
  pose proof (Z.add_lor_land (m_hcount m * 2 ^ 32) (u32 (m_this m))). lia.
Qed.

(** A handle is never 0, so the default argument always takes the lock. *)
Lemma get_handle_pos m : mutex_wf m -> 0 < get_handle m.
Proof.
  intros (Hh & _ & Ht & _). rw get_handle_eq //. unfold is_u32 in Hh.
  pose proof (u32_range (m_this m)) as Hr. unfold is_u32 in Hr. lia.
Qed.

Lemma lock_zero m :
  mutex_wf m -> lock 0 m = if m_native m then None else Some (take_handle m).
Proof.
  intros Hw. unfold lock. pose proof (get_handle_pos m Hw).
  destruct (Z.eqb_spec 0 (get_handle m)); [lia|done].
Qed.

Lemma take_handle_wf m : mutex_wf m -> mutex_wf (take_handle m).2.
Proof.
  intros (Hh & Hl & Ht & Hn). split_and!; cbn; [apply u32_range|unfold is_u32; lia|done|done].
Qed.

(** Nested locking and unlocking with the held handle. *)
Lemma lock_held m :
  lock (get_handle m) m = Some (nest_handle (get_handle m) m).
Proof. unfold lock. by rw Z.eqb_refl. Qed.

Lemma unlock_held m :
  mutex_wf m -> m_native m = true ->
  exists m', unlock (get_handle m) m = Some (tt, m') /\ mutex_wf m' /\
    m_lcount m' = m_lcount m - 1 /\ get_handle m' = get_handle m /\
    m_native m' = negb (m_lcount m =? 1).
Proof.
  intros (Hh & Hl & Ht & Hn) Hm. pose proof (proj1 Hn Hm) as H0.
  unfold unlock. rw Z.eqb_refl. destruct (Z.eqb_spec (m_lcount m) 0) as [|_]; [done|].
  eexists. split; [reflexivity|]. unfold mutex_wf, is_u32 in *. cbn.
  destruct (Z.eqb_spec (m_lcount m - 1) 0), (Z.eqb_spec (m_lcount m) 1); try lia;
    split_and!; try done; try lia; cbn; rw ?Hm; split; (done || lia).
Qed.

(** A [lock] followed by the matching [unlock] gives the object back: unchanged
    when the lock was already held by the caller, free again otherwise. *)
Lemma lock_unlock m h r m' :
  mutex_wf m -> m_lcount m + 1 < 2 ^ 32 -> lock h m = Some (r, m') ->
  (m_native m = true \/ h <> get_handle m) ->
  exists m'', unlock r m' = Some (tt, m'') /\ mutex_wf m'' /\
    m_native m'' = m_native m /\ (m_native m = true -> m'' = m).
Proof.
  intros Hw Hb Hlk Hd. unfold lock in Hlk.
  destruct (Z.eqb_spec h (get_handle m)) as [->|Hne]; cbn in Hlk.
  - destruct Hd as [Hm|]; [|done]. injection Hlk as <- <-.
    assert (mutex_wf m) as (Hh & Hl & Ht & Hn) by done. unfold is_u32 in *.
    unfold unlock, nest_handle; cbn [snd fst].
    rw u32_small; [|lia]. unfold get_handle at 1 2. cbn [m_hcount m_this m_lcount m_native].
    rw Z.eqb_refl. destruct (Z.eqb_spec (m_lcount m + 1) 0); [lia|].
    replace (m_lcount m + 1 - 1) with (m_lcount m) by lia.
    destruct (Z.eqb_spec (m_lcount m) 0) as [E|_]; [by apply Hn in Hm|].
    exists m. split_and!; try done. by destruct m.
  - destruct (m_native m) eqn:Hm; [done|]. injection Hlk as <- <-.
    destruct (unlock_held (take_handle m).2) as (m'' & Hu & Hw' & _ & _ & Hn').
    + by apply take_handle_wf.
    + done.
    + exists m''. split_and!; try done.
Qed.

(** ** Balanced use *)
(** The lock is free and the caller passes 0, or the caller passes the handle
    it holds. *)
Definition may_lock (m : option mutex) (h : Z) : Prop :=
  match m with
  | None => True
  | Some m => mutex_wf m /\
      if m_native m then h = get_handle m /\ m_lcount m + 2 < 2 ^ 32 else h = 0
  end.

(** After a balanced operation: a held lock is as it was, a free one is free. *)
Definition lock_post (h : Z) (m m' : option mutex) : Prop :=
  may_lock m' h /\
  match m with Some mu => m_native mu = true -> m' = m | None => m' = None end.

Lemma lock_post_trans h m m1 m2 : lock_post h m m1 -> lock_post h m1 m2 -> lock_post h m m2.
Proof.
  intros [_ H1] [Hl H2]. split; [done|]. destruct m as [mu|].
  - intros Hn. specialize (H1 Hn). subst m1. auto.
  - by subst m1.
Qed.

Lemma lock_post_held h m m' :
  lock_post h m m' -> match m with Some mu => m_native mu = true | None => True end -> m' = m.
Proof. intros [_ Hp]. destruct m; auto. Qed.

Lemma lock_post_refl h m : may_lock m h -> lock_post h m m.
Proof. intros Hl. split; [done|]. by destruct m. Qed.

(** An object guarded by a mutex: the body of a method between [lock(hlock)] and
    [unlock] of the handle it returned. *)
Definition lock_obj {X} (h : Z) : M (mutex * X) Z := fun s =>
  match lock h s.1 with Some (r, m) => Some (r, (m, s.2)) | None => None end.
Definition unlock_obj {X} (h : Z) : M (mutex * X) unit := fun s =>
  match unlock h s.1 with Some (_, m) => Some (tt, (m, s.2)) | None => None end.
Definition on_obj {X R} (m : M X R) : M (mutex * X) R := fun s =>
  match m s.2 with Some (r, x) => Some (r, (s.1, x)) | None => None end.
Definition guarded {X R} (h : Z) (m : M X R) : M (mutex * X) R :=
  hm ← lock_obj h; r ← on_obj m; unlock_obj hm;; mret r.

Lemma wp_on_obj {X R} (m : M X R) mu x (Q : R -> mutex * X -> Prop) :
  wp m x (fun r x' => Q r (mu, x')) -> wp (on_obj m) (mu, x) Q.
Proof. unfold wp, on_obj. cbn. by destruct (m x) as [[r x']|]. Qed.

Lemma wp_guarded {X R} h (m : M X R) mu x (Q : R -> mutex * X -> Prop) :
  may_lock (Some mu) h ->
  wp m x (fun r x' => forall mu', lock_post h (Some mu) (Some mu') -> Q r (mu', x')) ->
  wp (guarded h m) (mu, x) Q.
Proof.
  intros [Hw Hl] Hm. apply wp_run in Hm as (r & x' & Hm & HQ).
  assert (exists hm m1, lock h mu = Some (hm, m1)) as (hm & m1 & Hlk).
  { destruct (m_native mu) eqn:E; [destruct Hl as [-> _]|subst h].
    - rw lock_held. by eexists _, _.
    - rw (lock_zero _ Hw) E. by destruct (take_handle mu); eexists _, _. }
  destruct (lock_unlock mu h hm m1) as (m2 & Hu & Hw2 & Hn2 & Heq); [done| |done| |].
  { destruct Hw as (_ & Hc & _ & Hi). unfold is_u32 in Hc. destruct (m_native mu) eqn:E; [lia|].
    destruct (Z.eqb_spec (m_lcount mu) 0) as [->|Hne]; [lia|]. apply Hi in Hne. congruence. }
  { destruct (m_native mu) eqn:E; [by left|right]. subst h. pose proof (get_handle_pos mu Hw). lia. }
  unfold guarded, wp, mbind, M_bind, lock_obj, on_obj, unlock_obj. cbn. rw Hlk. cbn. rw Hm. cbn. rw Hu.
  apply HQ. split.
  - split; [done|]. rw Hn2. destruct (m_native mu) eqn:E; [by rw Heq|done].
  - intros E. by rw Heq.
Qed.

(** ** Threads *)
Module Sys.
(** A thread is absent from [th] while it holds nothing; otherwise it keeps
    the handle of its outermost [lock] and the depth of its nesting. *)
Record t := mk { mx : mutex; th : gmap nat (Z * Z) }.

Inductive step : t -> t -> Prop :=
| step_lock i s r mx' :
    th s !! i = None -> lock 0 (mx s) = Some (r, mx') ->
    step s (mk mx' (<[i := (r, 1)]> (th s)))
| step_try_lock i s r mx' :
    th s !! i = None -> try_lock 0 (mx s) = Some (r, mx') ->
    step s (mk mx' (if r =? 0 then th s else <[i := (r, 1)]> (th s)))
| step_nest i s h d r mx' :
    th s !! i = Some (h, d) -> d + 1 < 2 ^ 32 -> lock h (mx s) = Some (r, mx') ->
    step s (mk mx' (<[i := (r, d + 1)]> (th s)))
| step_unlock i s h d mx' :
    th s !! i = Some (h, d) -> unlock h (mx s) = Some (tt, mx') ->
    step s (mk mx' (if d =? 1 then delete i (th s) else <[i := (h, d - 1)]> (th s))).

Definition initial (this : Z) : t := mk (mutex_init this) ∅.

Definition inv (s : t) : Prop :=
  mutex_wf (mx s) /\
  if m_native (mx s) then
    exists i, th s = {[ i := (get_handle (mx s), m_lcount (mx s)) ]}
  else th s = ∅.

Lemma inv_initial this : u32 this <> 0 -> inv (initial this).
Proof. intros H. split; [|done]. repeat split; cbn; (lia || done). Qed.

Lemma inv_acquire s i :
  inv s -> m_native (mx s) = false ->
  inv (mk (take_handle (mx s)).2 (<[i := ((take_handle (mx s)).1, 1)]> (th s))).
Proof.
  intros [Hw Ht] Hn. split; [by apply take_handle_wf|]. rw Hn in Ht. cbn. exists i.
  by rw Ht.
Qed.

Lemma inv_step s s' : inv s -> step s s' -> inv s'.
Proof.
  intros Hi Hs. pose proof Hi as [Hw Ht]. destruct Hs as [i s r mx' Hth Hl|i s r mx' Hth Hl|
    i s h d r mx' Hth Hd Hl|i s h d mx' Hth Hl].
  - rw lock_zero // in Hl. destruct (m_native (mx s)) eqn:E; [done|].
    injection Hl as <- <-. by apply inv_acquire.
  - unfold try_lock in Hl. pose proof (get_handle_pos _ Hw).
    destruct (Z.eqb_spec 0 (get_handle (mx s))); [lia|]. cbn in Hl.
    destruct (m_native (mx s)) eqn:E.
    + injection Hl as <- <-. cbn. split; [done|]. by rw E.
    + pose proof (get_handle_pos _ (take_handle_wf _ Hw)) as Hp.
      pose proof (inv_acquire s i Hi E) as Hi'.
      change (get_handle (take_handle (mx s)).2) with (take_handle (mx s)).1 in Hp.
      destruct (take_handle (mx s)) as [r0 m0]. injection Hl as <- <-. cbn in Hp, Hi' |- *.
      destruct (Z.eqb_spec r0 0); [lia|done].
  - destruct (m_native (mx s)) eqn:E; [|by rw Ht in Hth].
    destruct Ht as [j Hj]. rw Hj in Hth. apply lookup_singleton_Some in Hth as [<- [= <- <-]].
    rw lock_held in Hl. injection Hl as <- <-. destruct Hw as (Hh & Hlc & Hth & Hn).
    unfold is_u32 in *. split.
    + split_and!; cbn; try done; [unfold is_u32; apply u32_range|].
      rw u32_small; [|lia]. rw E. split; [lia|done].
    + cbn. rw E Hj insert_singleton_eq u32_small; [|lia]. by exists j.
  - destruct (m_native (mx s)) eqn:E; [|by rw Ht in Hth].
    destruct Ht as [j Hj]. rw Hj in Hth. apply lookup_singleton_Some in Hth as [<- [= <- <-]].
    destruct (unlock_held _ Hw E) as (m' & Hu & Hw' & Hlc & Hg & Hn).
    rw Hu in Hl. injection Hl as <-. split; [done|]. cbn. rw Hn Hj.
    destruct (Z.eqb_spec (m_lcount (mx s)) 1); cbn.
    + by rw delete_singleton_eq.
    + rw Hg Hlc insert_singleton_eq. by exists j.
Qed.

Lemma inv_reachable this s : u32 this <> 0 -> rtc step (initial this) s -> inv s.
Proof.
  intros Hne. apply (rtc_ind_r (fun s => inv s)).
  - by apply inv_initial.
  - intros s1 s2 _ Hs Hi. by eapply inv_step.
Qed.
End Sys.

(** C33: whatever the interleaving of threads that lock, try to lock, nest and
    unlock with the handle they hold, at most one thread is inside, the native
    lock is taken exactly while some thread is inside, and that thread's handle
    and nesting depth are those of the object: so only its last [unlock]
    releases the native lock. *)
Theorem mutex_exclusion this s :
  u32 this <> 0 -> rtc Sys.step (Sys.initial this) s ->
  (size (Sys.th s) <= 1)%nat /\
  (m_native (Sys.mx s) = true <-> Sys.th s <> ∅) /\
  forall i h d, Sys.th s !! i = Some (h, d) ->
    h = get_handle (Sys.mx s) /\ d = m_lcount (Sys.mx s) /\ 0 < d.
Proof.
  intros Hne [Hw Ht]%Sys.inv_reachable; [|done].
  destruct (m_native (Sys.mx s)) eqn:E.
  - destruct Ht as [i ->]. rw map_size_singleton. split_and!; [done| |].
    + split; [|done]. intros _. apply map_non_empty_singleton.
    + intros j h d [<- [= <- <-]]%lookup_singleton_Some. split_and!; [done..|].
      destruct Hw as (_ & Hl & _ & Hn). apply Hn in E. unfold is_u32 in Hl. lia.
  - rw Ht. split_and!; [by rw map_size_empty; lia|done|].
    intros i h d. by rw lookup_empty.
Qed.

Lemma mutex_exclusion_witness :
  let s := Sys.mk (mkMutex 4096 true 1 1) {[ 7%nat := (2 ^ 32 + 4096, 1) ]} in
  rtc Sys.step (Sys.initial 4096) s /\ (size (Sys.th s) <= 1)%nat.
Proof.
  intros s. assert (rtc Sys.step (Sys.initial 4096) s) as H.
  { apply rtc_once, (Sys.step_lock 7 (Sys.initial 4096)); reflexivity. }
  split; [exact H|]. apply (mutex_exclusion 4096 s); [vm_compute; congruence|exact H].
Defined.
