(* ===== verification/LinkedList.v ===== *)
(** * Multi-column doubly linked list
    (core/mem/ll_alg.h, core/mem/ll_alg.c; wrapped by core/mem/llist.cpp [cLlist]
    and core/repository-2/list.cpp [linked_list])

    The list is modelled at the level of its pointers: [items] is the store of
    item headers, addressed by [Z] with 0 for NULL; [states] is the array of
    column states; the allocator and the mutex behind the callbacks are the
    components of Memory.v and Mutex.v.  A record pointer handed to the user is
    the header's address plus [HDR].  Dereferencing an address that holds no
    item is undefined ([None]), as is waiting for a lock the caller holds. *)
From S2P Require Import Prelude Memory Mutex.
Set Default Goal Selector "!".

Definition LL_MODE_VECTOR : Z := 1.
Definition LL_MODE_RING : Z := 2.

(** [sizeof(_ll_item_hdr_t)], packed: 8 + 4 + 1 + 8 + 8. *)
Definition HDR : Z := 29.
(** [sizeof(_ll_state_t)]: three pointers and two [_u32]. *)
Definition STATE_SIZE : Z := 32.

Record ll_item_hdr {V : Type} := mkItem {
  h_cxt : Z; h_size : Z; h_col : Z; h_prev : Z; h_next : Z; h_data : V
}.
Arguments ll_item_hdr : clear implicits.

Record ll_state := mkState {
  p_first : Z; p_last : Z; p_current : Z; count : Z; current : Z
}.

Record ll_context {A V : Type} := mkContext {
  self : Z;                          (* address of the context *)
  mode : Z; ncol : Z; ccol : Z; addr_limit : Z;
  p_alloc : bool; p_free : bool;     (* the callbacks are installed *)
  state_addr : Z;                    (* the [state] pointer, 0 for NULL *)
  states : list ll_state;
  items : gmap Z (ll_item_hdr V);
  heap : A;
  mx : option mutex                  (* None: no lock callbacks *)
}.
Arguments ll_context : clear implicits.

Section setters.
Context {A V : Type}.
Implicit Types (c : ll_context A V) (it : ll_item_hdr V).

Definition set_next (q : Z) it := mkItem V (h_cxt it) (h_size it) (h_col it) (h_prev it) q (h_data it).
Definition set_prev (q : Z) it := mkItem V (h_cxt it) (h_size it) (h_col it) q (h_next it) (h_data it).
Definition set_cxt (x : Z) it := mkItem V x (h_size it) (h_col it) (h_prev it) (h_next it) (h_data it).
Definition set_col (k : Z) it := mkItem V (h_cxt it) (h_size it) k (h_prev it) (h_next it) (h_data it).
Definition set_data (v : V) it := mkItem V (h_cxt it) (h_size it) (h_col it) (h_prev it) (h_next it) v.

Definition st_first (p : Z) s := mkState p (p_last s) (p_current s) (count s) (current s).
Definition st_last (p : Z) s := mkState (p_first s) p (p_current s) (count s) (current s).
Definition st_cur (p : Z) s := mkState (p_first s) (p_last s) p (count s) (current s).
Definition st_count (n : Z) s := mkState (p_first s) (p_last s) (p_current s) n (current s).
Definition st_index (n : Z) s := mkState (p_first s) (p_last s) (p_current s) (count s) n.

Definition set_items (i : gmap Z (ll_item_hdr V)) c :=
  mkContext A V (self c) (mode c) (ncol c) (ccol c) (addr_limit c) (p_alloc c) (p_free c)
    (state_addr c) (states c) i (heap c) (mx c).
Definition set_states (s : list ll_state) c :=
  mkContext A V (self c) (mode c) (ncol c) (ccol c) (addr_limit c) (p_alloc c) (p_free c)
    (state_addr c) s (items c) (heap c) (mx c).
Definition set_heap (a : A) c :=
  mkContext A V (self c) (mode c) (ncol c) (ccol c) (addr_limit c) (p_alloc c) (p_free c)
    (state_addr c) (states c) (items c) a (mx c).
Definition set_ccol (k : Z) c :=
  mkContext A V (self c) (mode c) (ncol c) k (addr_limit c) (p_alloc c) (p_free c)
    (state_addr c) (states c) (items c) (heap c) (mx c).
Definition set_mx (m : option mutex) c :=
  mkContext A V (self c) (mode c) (ncol c) (ccol c) (addr_limit c) (p_alloc c) (p_free c)
    (state_addr c) (states c) (items c) (heap c) m.
(** [mode], [ncol], [addr_limit], [ccol] and [state] as [ll_init] and
    [ll_uninit] set them. *)
Definition set_layout (md n k lim sa : Z) (s : list ll_state) c :=
  mkContext A V (self c) md n k lim (p_alloc c) (p_free c)
    sa s (items c) (heap c) (mx c).
End setters.

Section ll.
Context {A V : Type} `{Allocator A}.
Abbreviation ctx := (ll_context A V).
Abbreviation LM := (M ctx).

(** *** Memory accesses *)
Definition load (p : Z) : LM (ll_item_hdr V) := fun c => (fun it => (it, c)) <$> items c !! p.
Definition store (p : Z) (f : ll_item_hdr V -> ll_item_hdr V) : LM unit := fun c =>
  match items c !! p with
  | Some it => Some (tt, set_items (<[p := f it]> (items c)) c)
  | None => None
  end.
Definition get_state (k : Z) : LM ll_state := fun c =>
  (fun st => (st, c)) <$> states c !! Z.to_nat k.
Definition upd_state (k : Z) (f : ll_state -> ll_state) : LM unit := fun c =>
  match states c !! Z.to_nat k with
  | Some st => Some (tt, set_states (<[Z.to_nat k := f st]> (states c)) c)
  | None => None
  end.
(** [p_cxt->state[p_cxt->ccol]] *)
Definition cur_state : LM ll_state := k ← gets ccol; get_state k.
Definition upd_cur (f : ll_state -> ll_state) : LM unit := k ← gets ccol; upd_state k f.

Definition alloc (n : Z) : LM Z := fun c =>
  let '(p, a) := a_alloc (heap c) n in Some (p, set_heap a c).
(** A block must be live with the size it is freed with. *)
Definition free (p n : Z) : LM unit := fun c =>
  if decide (a_live (heap c) !! p = Some n)
  then Some (tt, set_items (delete p (items c)) (set_heap (a_free (heap c) p n) c))
  else None.

(** A call through [p_free] that the code does not guard. *)
Definition call_free (p n : Z) : LM unit :=
  ok ← gets p_free; if ok : bool then free p n else undefined.

(** *** Locking *)
Definition ll_lock (hlock : Z) : LM Z := fun c =>
  match mx c with
  | None => Some (0, c)
  | Some m => match lock hlock m with
              | Some (r, m') => Some (r, set_mx (Some m') c)
              | None => None
              end
  end.
Definition ll_unlock (hlock : Z) : LM unit := fun c =>
  match mx c with
  | None => Some (tt, c)
  | Some m => match unlock hlock m with
              | Some (_, m') => Some (tt, set_mx (Some m') c)
              | None => None
              end
  end.
Definition locked {R} (hlock : Z) (body : Z -> LM R) : LM R :=
  hm ← ll_lock hlock; r ← body hm; ll_unlock hm;; mret r.

(** *** Construction *)
Definition ll_init (md nc lim : Z) : LM Z :=
  sa ← gets state_addr;
  if negb (sa =? 0) then mret 0 else
  locked 0 (fun _ =>
    let ssz := u32 (nc * STATE_SIZE) in
    ok ← gets p_alloc;
    if ok : bool then
      p ← alloc ssz;
      modify (set_layout md nc 0 lim p
        (if p =? 0 then [] else replicate (Z.to_nat nc) (mkState 0 0 0 0 0)));;
      mret (if p =? 0 then 0 else 1)
    else undefined).

(** *** Cursor movement: [_get] *)
Fixpoint get_walk (fuel : nat) (index cnt : Z) (p i : Z) : LM (Z * Z) :=
  match fuel with
  | O => undefined
  | S fuel =>
      if negb (i =? index) && (i <? cnt) then
        (* move back *)
        '(p, i, stop) ← (if index <? i then
            it ← load p;
            mret (h_prev it, i - 1, i - 1 =? 0)
          else mret (p, i, false));
        if stop : bool then mret (p, i) else
        (* move forward *)
        '(p, i) ← (if i <? index then
            it ← load p;
            mret (h_next it, i + 1)
          else mret (p, i));
        get_walk fuel index cnt p i
      else mret (p, i)
  end.

Definition _get (index : Z) : LM Z :=
  st ← cur_state;
  if index <? count st then
    let p := p_current st in
    if negb (p =? 0) then
      '(p, i) ← get_walk (S (Z.to_nat (count st))) index (count st) p (current st);
      when (i =? index) (upd_cur (fun s => st_cur p (st_index i s)));;
      mret p
    else mret p
  else mret 0.

(** The record pointer and the size written to [*p_size]. *)
Definition ll_get (index hlock : Z) : LM (Z * option Z) :=
  locked hlock (fun _ =>
    p ← _get index;
    if negb (p =? 0) then it ← load p; mret (p + HDR, Some (h_size it))
    else mret (0, None)).

Definition ll_cnt (hlock : Z) : LM Z :=
  locked hlock (fun _ => st ← cur_state; mret (count st)).

(** *** Insertion *)
Definition do_alloc (sz : Z) : LM Z := ok ← gets p_alloc; if ok : bool then alloc sz else mret 0.

(** The cleared block, with the first three header fields. *)
Definition new_item (p size : Z) (v : V) : LM unit :=
  modify (fun c => set_items (<[p := mkItem V (self c) size (ccol c) 0 0 v]> (items c)) c).

(** The statements [ll_new] and [ll_add] share between lock and unlock. *)
Definition link_last (p : Z) : LM unit :=
  st ← cur_state;
  when (negb (p_last st =? 0)) (store (p_last st) (set_next p));;
  store p (set_prev (p_last st));;
  md ← gets mode;
  store p (set_next (if md =? LL_MODE_RING then p_first st else 0));;
  upd_cur (fun s => st_last p (st_cur p s));;
  when (p_first st =? 0) (upd_cur (st_first p));;
  upd_cur (fun s => st_index (count s) s);;
  upd_cur (fun s => st_count (u32 (count s + 1)) s).

(** [blank]: the record area after [_set((_u8 * )p, 0, sz)]. *)
Definition ll_new (blank : V) (size hlock : Z) : LM Z :=
  p ← do_alloc (u32 (size + HDR));
  if p =? 0 then mret 0 else
    new_item p size blank;;
    locked hlock (fun _ => link_last p);;
    mret (p + HDR).

Definition ll_add (data : V) (size hlock : Z) : LM Z :=
  p ← do_alloc (u32 (size + HDR));
  if p =? 0 then mret 0 else
    new_item p size data;;
    locked hlock (fun _ => link_last p);;
    mret (p + HDR).

Definition ll_ins (index : Z) (data : V) (size hlock : Z) : LM Z :=
  let sz := u32 (size + HDR) in
  st ← cur_state;
  if index <? count st then
    p_new ← do_alloc sz;
    if p_new =? 0 then mret 0 else
    locked hlock (fun _ =>
      p_cur ← _get index;
      if negb (p_cur =? 0) then
        new_item p_new size data;;
        p_prev ← (if 0 <? index then
            p_prev ← _get (index - 1);
            when (negb (p_prev =? 0)) (store p_prev (set_next p_new));;
            mret p_prev
          else upd_cur (st_first p_new);; mret 0);
        store p_new (set_prev p_prev);;
        store p_new (set_next p_cur);;
        store p_cur (set_prev p_new);;
        upd_cur (fun s => st_cur p_new s);;
        upd_cur (fun s => st_index index s);;
        upd_cur (fun s => st_count (u32 (count s + 1)) s);;
        mret (p_new + HDR)
      else
        ok ← gets p_free;
        when ok (free p_new sz);;
        mret 0)
  else mret 0.

(** *** Removal *)
Definition ll_rem (index hlock : Z) : LM unit :=
  locked hlock (fun _ =>
    p_cur ← _get index;
    ok ← gets p_free;
    if negb (p_cur =? 0) && ok then
      it ← load p_cur;
      when (negb (h_prev it =? 0)) (store (h_prev it) (set_next (h_next it)));;
      it ← load p_cur;
      when (negb (h_next it =? 0))
        (upd_cur (st_cur (h_next it));; store (h_next it) (set_prev (h_prev it)));;
      st ← cur_state;
      md ← gets mode;
      when (p_cur =? p_first st) (
        it ← load p_cur;
        upd_cur (fun s => st_cur (h_next it) (st_first (h_next it) s));;
        st ← cur_state;
        when (md =? LL_MODE_RING) (store (p_last st) (set_next (p_current st))));;
      st ← cur_state;
      when (p_cur =? p_last st) (
        it ← load p_cur;
        upd_cur (fun s => st_cur (h_prev it) (st_last (h_prev it) s));;
        st ← cur_state;
        when (md =? LL_MODE_RING) (store (p_current st) (set_next (p_first st)));;
        upd_cur (fun s => st_index (u32 (current s - 1)) s));;
      upd_cur (fun s => st_count (u32 (count s - 1)) s);;
      it ← load p_cur;
      free p_cur (u32 (h_size it + HDR))
    else mret tt).

Definition ll_del (hlock : Z) : LM unit :=
  locked hlock (fun _ =>
    st ← cur_state;
    let p_cur := p_current st in
    ok ← gets p_free;
    if negb (p_cur =? 0) && ok then
      it ← load p_cur;
      let p_prev := h_prev it in
      let p_next := h_next it in
      when (negb (p_prev =? 0)) (it ← load p_cur; store p_prev (set_next (h_next it)));;
      (if negb (p_next =? 0) then
         it ← load p_cur;
         store p_next (set_prev (h_prev it));;
         upd_cur (st_cur p_next)
       else upd_cur (st_cur p_prev));;
      st ← cur_state;
      md ← gets mode;
      when (p_cur =? p_first st) (
        upd_cur (fun s => st_cur p_next (st_first p_next s));;
        st ← cur_state;
        when (md =? LL_MODE_RING) (store (p_last st) (set_next (p_current st))));;
      st ← cur_state;
      when (p_cur =? p_last st) (
        upd_cur (fun s => st_cur p_prev (st_last p_prev s));;
        st ← cur_state;
        when (md =? LL_MODE_RING) (store (p_current st) (set_next (p_first st)));;
        upd_cur (fun s => st_index (u32 (current s - 1)) s));;
      store p_cur (set_cxt 0);;
      upd_cur (fun s => st_count (u32 (count s - 1)) s);;
      it ← load p_cur;
      free p_cur (u32 (h_size it + HDR))
    else mret tt).

(** The loop of [ll_clr]: at most [count] iterations. *)
Fixpoint clr_loop (n : nat) (p : Z) : LM unit :=
  match n with
  | O => mret tt
  | S n =>
      if negb (p =? 0) then
        it ← load p;
        call_free p (u32 (h_size it + HDR));;
        upd_cur (st_first (h_next it));;
        clr_loop n (h_next it)
      else mret tt
  end.

Definition ll_clr (hlock : Z) : LM unit :=
  st ← cur_state;
  locked hlock (fun _ =>
    clr_loop (Z.to_nat (count st)) (p_first st);;
    upd_cur (fun s => st_cur 0 (st_first 0 (st_last 0 s)));;
    upd_cur (fun s => st_count 0 (st_index 0 s))).

(** *** Columns *)
Definition ll_col (k hlock : Z) : LM unit :=
  n ← gets ncol;
  if k <? n then locked hlock (fun _ => modify (set_ccol k)) else mret tt.

Definition ll_sel (p_data hlock : Z) : LM Z :=
  let p_hdr := p_data - HDR in
  it ← load p_hdr;
  s ← gets self;
  k ← gets ccol;
  if (h_cxt it =? s) && (h_col it =? k) then
    locked hlock (fun _ => upd_state (h_col it) (st_cur p_hdr));; mret 1
  else mret 0.

(** Unlinking from the source column. *)
Definition mov_unlink (p_hdr src : Z) : LM unit :=
  it ← load p_hdr;
  let p_src_prev := h_prev it in
  let p_src_next := h_next it in
  when (negb (p_src_prev =? 0)) (store p_src_prev (set_next p_src_next));;
  when (negb (p_src_next =? 0)) (store p_src_next (set_prev p_src_prev));;
  ss ← get_state src;
  when (p_first ss =? p_hdr) (upd_state src (st_first p_src_next));;
  when (p_last ss =? p_hdr) (upd_state src (st_last p_src_prev));;
  when (p_current ss =? p_hdr) (
    ss ← get_state src;
    upd_state src (st_cur (if negb (p_src_next =? 0) then p_src_next
                           else if negb (p_src_prev =? 0) then p_src_prev
                           else p_first ss)));;
  upd_state src (fun s => st_count (u32 (count s - 1)) s).

(** Linking into the destination column; [false] is the [goto _mov_done_]. *)
Definition mov_link (p_hdr dst : Z) : LM bool :=
  ds ← get_state dst;
  md ← gets mode;
  if negb (count ds =? 0) then
    if negb (p_last ds =? 0) then
      store (p_last ds) (set_next p_hdr);;
      store p_hdr (set_prev (p_last ds));;
      store p_hdr (set_next (if md =? LL_MODE_RING then p_first ds else 0));;
      upd_state dst (st_last p_hdr);;
      mret true
    else if negb (p_first ds =? 0) then
      store (p_first ds) (set_prev p_hdr);;
      store p_hdr (set_next (p_first ds));;
      store p_hdr (set_prev (if md =? LL_MODE_RING then p_last ds else 0));;
      upd_state dst (st_first p_hdr);;
      mret true
    else mret false
  else
    upd_state dst (fun s => st_first p_hdr (st_last p_hdr (st_cur p_hdr s)));;
    (if md =? LL_MODE_RING then ds ← get_state dst; store p_hdr (set_next (p_first ds))
     else store p_hdr (set_next 0);; store p_hdr (set_prev 0));;
    mret true.

Definition ll_mov (p_data k hlock : Z) : LM Z :=
  locked hlock (fun _ =>
    let p_hdr := p_data - HDR in
    it ← load p_hdr;
    s ← gets self;
    n ← gets ncol;
    if (h_cxt it =? s) && negb (k =? h_col it) && (k <? n) then
      mov_unlink p_hdr (h_col it);;
      linked ← mov_link p_hdr k;
      if linked : bool then
        store p_hdr (set_col k);;
        upd_state k (fun s => st_count (u32 (count s + 1)) s);;
        mret 1
      else mret 0
    else mret 0).

Definition ll_roll (hlock : Z) : LM unit :=
  md ← gets mode;
  if md =? LL_MODE_RING then
    locked hlock (fun _ =>
      st ← cur_state;
      let pf := p_first st in
      let pl := p_last st in
      it ← load pf;
      let pc := h_next it in
      when (negb (pf =? pl)) (
        upd_cur (fun s => st_cur pc (st_first pc s));;
        store pl (set_next pf);;
        store pf (set_prev pl);;
        store pf (set_next pc);;
        store pc (set_prev pl);;
        upd_cur (st_last pf)))
  else mret tt.

(** *** Traversal: the record pointer and the size written to [*p_size] *)
Definition ll_next (hlock : Z) : LM (Z * option Z) :=
  locked hlock (fun _ =>
    st ← cur_state;
    let p := p_current st in
    if p =? 0 then mret (0, None) else
    it ← load p;
    if h_next it =? 0 then mret (0, None) else
    upd_cur (st_cur (h_next it));;
    nx ← load (h_next it);
    upd_cur (fun s => st_index (u32 (current s + 1)) s);;
    mret (h_next it + HDR, Some (h_size nx))).

Definition ll_current (hlock : Z) : LM (Z * option Z) :=
  locked hlock (fun _ =>
    st ← cur_state;
    let p := p_current st in
    if p =? 0 then mret (0, None) else
    it ← load p;
    mret (p + HDR, Some (h_size it))).

Definition ll_first (hlock : Z) : LM (Z * option Z) :=
  locked hlock (fun _ =>
    st ← cur_state;
    let p := p_first st in
    if p =? 0 then mret (0, None) else
    upd_cur (st_cur p);;
    it ← load p;
    upd_cur (st_index 0);;
    mret (p + HDR, Some (h_size it))).

Definition ll_last (hlock : Z) : LM (Z * option Z) :=
  locked hlock (fun _ =>
    st ← cur_state;
    let p := p_last st in
    if p =? 0 then mret (0, None) else
    upd_cur (st_cur p);;
    it ← load p;
    upd_cur (fun s => st_index (u32 (count s - 1)) s);;
    mret (p + HDR, Some (h_size it))).

Definition ll_prev (hlock : Z) : LM (Z * option Z) :=
  locked hlock (fun _ =>
    st ← cur_state;
    let p := p_current st in
    if p =? 0 then mret (0, None) else
    it ← load p;
    if h_prev it =? 0 then mret (0, None) else
    upd_cur (st_cur (h_prev it));;
    pv ← load (h_prev it);
    upd_cur (fun s => st_index (u32 (current s - 1)) s);;
    mret (h_prev it + HDR, Some (h_size pv))).

(** *** Destruction: every column is selected and cleared under one lock *)
Fixpoint uninit_columns (n : nat) (i hlock : Z) : LM unit :=
  match n with
  | O => mret tt
  | S n => ll_col i hlock;; ll_clr hlock;; uninit_columns n (i + 1) hlock
  end.

Definition ll_uninit : LM unit :=
  sa ← gets state_addr;
  if negb (sa =? 0) then
    locked 0 (fun lk =>
      n ← gets ncol;
      uninit_columns (Z.to_nat n) 0 lk;;
      sz ← gets (fun c => ncol c * STATE_SIZE);
      call_free sa (u32 sz);;
      modify (fun c => set_layout (mode c) 0 0 (addr_limit c) 0 [] c))
  else mret tt.

(** *** User access to a record through the pointer it was given *)
Definition read_record (p_data : Z) : LM V := it ← load (p_data - HDR); mret (h_data it).
Definition write_record (p_data : Z) (f : V -> V) : LM unit :=
  store (p_data - HDR) (fun it => set_data (f (h_data it)) it).
End ll.
