(* ===== verification/LinkedListSpec.v ===== *)
(** * Specification of the multi-column list and the refinement proof

    [alist] is what a client sees: per column the sequence of record headers
    and a cursor, the selected column, and the contents of every record.  The
    [a_*] functions are the operations on it.  [ll_rep] relates the pointer
    structure of LinkedList.v (vector mode) to it, and the [*_refines] lemmas
    show that each operation of ll_alg.c is defined, returns, and implements
    its abstract counterpart. *)
From S2P Require Import Prelude Memory Mutex LinkedList.
Set Default Goal Selector "!".

(** ** Sequences of addresses *)
Definition hd_or (d : Z) (l : list Z) : Z := match l with [] => d | x :: _ => x end.
Fixpoint last_or (d : Z) (l : list Z) : Z := match l with [] => d | x :: l => last_or x l end.

(** Neighbours of [p] in a duplicate-free sequence, 0 at the ends. *)
Fixpoint after (p : Z) (l : list Z) : Z :=
  match l with [] => 0 | q :: l => if q =? p then hd_or 0 l else after p l end.
Fixpoint before (prv p : Z) (l : list Z) : Z :=
  match l with [] => 0 | q :: l => if q =? p then prv else before q p l end.
Definition without (p : Z) (l : list Z) : list Z := filter (fun q => q <> p) l.

Lemma last_or_app d l1 l2 : last_or d (l1 ++ l2) = last_or (last_or d l1) l2.
Proof. revert d. induction l1; intros d; simpl; auto. Qed.

Lemma last_or_snoc d l x : last_or d (l ++ [x]) = x.
Proof. by rw last_or_app. Qed.

Lemma last_or_elem d l : l <> [] -> last_or d l ∈ l.
Proof.
  intros Hl. destruct (exists_last Hl) as (l' & x & ->). rw last_or_snoc.
  apply elem_of_app. right. by left.
Qed.

Lemma hd_or_app d l1 l2 : hd_or d (l1 ++ l2) = hd_or (hd_or d l2) l1.
Proof. by destruct l1. Qed.

Lemma without_id p l : p ∉ l -> without p l = l.
Proof.
  unfold without. induction l as [|q l IH]; intros Hp; [done|].
  apply not_elem_of_cons in Hp as [? ?]. rw filter_cons decide_True; [|congruence].
  by rw IH.
Qed.

Section neighbours.
Context (l1 l2 : list Z) (p : Z).
Hypothesis Hnd : NoDup (l1 ++ p :: l2).

Lemma not_in_prefix : p ∉ l1.
Proof. apply NoDup_app in Hnd as (_ & H & _). intros Hp. apply (H p Hp). by left. Qed.

Lemma not_in_suffix : p ∉ l2.
Proof. apply NoDup_app in Hnd as (_ & _ & H). by apply NoDup_cons in H as [? _]. Qed.

Lemma after_split : after p (l1 ++ p :: l2) = hd_or 0 l2.
Proof.
  pose proof not_in_prefix as Hn. clear Hnd. induction l1 as [|q l IH]; simpl.
  - by rw Z.eqb_refl.
  - apply not_elem_of_cons in Hn as [Hn1 Hn2].
    destruct (Z.eqb_spec q p); [done|]. by apply IH.
Qed.

Lemma before_split prv : before prv p (l1 ++ p :: l2) = last_or prv l1.
Proof.
  pose proof not_in_prefix as Hn. clear Hnd. revert prv. induction l1 as [|q l IH]; intros prv.
  - simpl. by rw Z.eqb_refl.
  - apply not_elem_of_cons in Hn as [Hn1 Hn2]. simpl.
    destruct (Z.eqb_spec q p); [done|]. by rw IH.
Qed.

Lemma without_split : without p (l1 ++ p :: l2) = l1 ++ l2.
Proof.
  pose proof not_in_prefix as Hn1. pose proof not_in_suffix as Hn2.
  unfold without. rw filter_app filter_cons decide_False; [|by intros []].
  by rw -/(without p l1) -/(without p l2) !without_id.
Qed.
End neighbours.

(** ** Doubly linked segments *)
Section dll.
Context {V : Type}.
Abbreviation store := (gmap Z (ll_item_hdr V)).
Implicit Types (h : store) (ok : ll_item_hdr V -> Prop).

(** The items of [l] are chained in order between [prv] and [nxt]. *)
Fixpoint dll h ok (prv : Z) (l : list Z) (nxt : Z) : Prop :=
  match l with
  | [] => True
  | p :: l' =>
      (exists it, h !! p = Some it /\ h_prev it = prv /\ h_next it = hd_or nxt l' /\ ok it) /\
      dll h ok p l' nxt
  end.

Lemma dll_app h ok prv l1 l2 nxt :
  dll h ok prv (l1 ++ l2) nxt <->
  dll h ok prv l1 (hd_or nxt l2) /\ dll h ok (last_or prv l1) l2 nxt.
Proof.
  revert prv. induction l1 as [|p l1 IH]; intros prv; simpl; [tauto|].
  rw IH hd_or_app. tauto.
Qed.

Lemma dll_frame h h' ok prv l nxt :
  (forall p, p ∈ l -> h' !! p = h !! p) -> dll h ok prv l nxt -> dll h' ok prv l nxt.
Proof.
  revert prv. induction l as [|p l IH]; intros prv Hf; simpl; [done|].
  intros [(it & Hit & ?) Hd]. split.
  - exists it. rw Hf; [done|by left].
  - apply IH; [|done]. intros q Hq. apply Hf. by right.
Qed.

Lemma dll_insert_ne h ok prv l nxt p it :
  p ∉ l -> dll h ok prv l nxt -> dll (<[p := it]> h) ok prv l nxt.
Proof.
  intros Hp. apply dll_frame. intros q Hq. rw lookup_insert_ne //. congruence.
Qed.

Lemma dll_delete_ne h ok prv l nxt p :
  p ∉ l -> dll h ok prv l nxt -> dll (delete p h) ok prv l nxt.
Proof.
  intros Hp. apply dll_frame. intros q Hq. rw lookup_delete_ne //. congruence.
Qed.

Lemma dll_lookup h ok prv l1 p l2 nxt :
  dll h ok prv (l1 ++ p :: l2) nxt ->
  exists it, h !! p = Some it /\ h_prev it = last_or prv l1 /\
    h_next it = hd_or nxt l2 /\ ok it.
Proof. rw dll_app. intros [_ [H _]]. exact H. Qed.

Lemma dll_elem h ok prv l nxt p :
  dll h ok prv l nxt -> p ∈ l -> exists it, h !! p = Some it /\ ok it.
Proof.
  intros Hd (l1 & l2 & ->)%list_elem_of_split.
  apply dll_lookup in Hd as (it & ? & _ & _ & ?). eauto.
Qed.

(** Relinking the last item of a segment, and the first. *)
Lemma dll_set_next h ok prv l p it nxt nxt' :
  (forall i q, ok i -> ok (set_next q i)) ->
  p ∉ l -> h !! p = Some it ->
  dll h ok prv (l ++ [p]) nxt -> dll (<[p := set_next nxt' it]> h) ok prv (l ++ [p]) nxt'.
Proof.
  intros Hok Hp Hit. rw !dll_app /=. intros [H1 [(it' & Hit' & Hpr & Hn & Ho) _]].
  rw Hit in Hit'. injection Hit' as <-. split.
  - by apply dll_insert_ne.
  - split; [|done]. eexists. rw lookup_insert_eq. split_and!; [done|done|done|by apply Hok].
Qed.

Lemma dll_set_prev h ok prv prv' l p it nxt :
  (forall i q, ok i -> ok (set_prev q i)) ->
  p ∉ l -> h !! p = Some it ->
  dll h ok prv (p :: l) nxt -> dll (<[p := set_prev prv' it]> h) ok prv' (p :: l) nxt.
Proof.
  intros Hok Hp Hit. simpl. intros [(it' & Hit' & Hpr & Hn & Ho) H2].
  rw Hit in Hit'. injection Hit' as <-. split.
  - eexists. rw lookup_insert_eq. split_and!; [done|done|done|by apply Hok].
  - by apply dll_insert_ne.
Qed.
End dll.

(** ** The abstract list *)
Record acol := mkCol { elems : list Z; cursor : Z; pos : Z }.

Record alist {V : Type} := mkAlist {
  a_cols : list acol;
  a_sel : nat;                    (* selected column *)
  a_data : gmap Z (Z * V)         (* size and contents of each record *)
}.
Arguments alist : clear implicits.

Section abstract_ops.
Context {V : Type}.
Implicit Types a : alist V.

Definition on_col (k : nat) (f : acol -> acol) a : alist V :=
  mkAlist V (alter f k (a_cols a)) (a_sel a) (a_data a).
Definition sel_col a : acol := default (mkCol [] 0 0) (a_cols a !! a_sel a).
Definition upd_sel (f : acol -> acol) a : alist V := on_col (a_sel a) f a.

(** Record pointer and size, as the traversal functions return them. *)
Definition rec_ptr a (p : Z) : Z * option Z :=
  if p =? 0 then (0, None) else (p + HDR, fst <$> a_data a !! p).

Definition put_cursor (p n : Z) (ac : acol) : acol := mkCol (elems ac) p n.

Definition a_first a : (Z * option Z) * alist V :=
  let p := hd_or 0 (elems (sel_col a)) in
  (rec_ptr a p, if p =? 0 then a else upd_sel (put_cursor p 0) a).

Definition a_last a : (Z * option Z) * alist V :=
  let l := elems (sel_col a) in
  let p := last_or 0 l in
  (rec_ptr a p, if p =? 0 then a
                else upd_sel (put_cursor p (u32 (Z.of_nat (length l) - 1))) a).

Definition a_current a : (Z * option Z) * alist V := (rec_ptr a (cursor (sel_col a)), a).

Definition a_next a : (Z * option Z) * alist V :=
  let ac := sel_col a in
  let p := after (cursor ac) (elems ac) in
  (rec_ptr a p, if p =? 0 then a else upd_sel (put_cursor p (u32 (pos ac + 1))) a).

Definition a_prev a : (Z * option Z) * alist V :=
  let ac := sel_col a in
  let p := before 0 (cursor ac) (elems ac) in
  (rec_ptr a p, if p =? 0 then a else upd_sel (put_cursor p (u32 (pos ac - 1))) a).

Definition a_cnt a : Z := Z.of_nat (length (elems (sel_col a))).

Definition a_col (k : Z) a : alist V :=
  if k <? Z.of_nat (length (a_cols a)) then mkAlist V (a_cols a) (Z.to_nat k) (a_data a) else a.

Definition append (p : Z) (ac : acol) : acol :=
  mkCol (elems ac ++ [p]) p (Z.of_nat (length (elems ac))).
Definition a_add (p sz : Z) (v : V) a : alist V :=
  mkAlist V (alter (append p) (a_sel a) (a_cols a)) (a_sel a) (<[p := (sz, v)]> (a_data a)).

(** Deleting the cursor's record moves the cursor to its successor, or to
    its predecessor at the end of the column. *)
Definition drop_cursor (ac : acol) : acol :=
  let p := cursor ac in
  let nx := after p (elems ac) in
  mkCol (without p (elems ac)) (if nx =? 0 then before 0 p (elems ac) else nx)
    (if nx =? 0 then u32 (pos ac - 1) else pos ac).
Definition a_del a : alist V :=
  let p := cursor (sel_col a) in
  if p =? 0 then a
  else mkAlist V (alter drop_cursor (a_sel a) (a_cols a)) (a_sel a) (delete p (a_data a)).

Definition a_selrec (p : Z) a : Z * alist V :=
  if decide (p ∈ elems (sel_col a))
  then (1, upd_sel (fun ac => mkCol (elems ac) p (pos ac)) a) else (0, a).

(** The column that holds [p]. *)
Definition home (p : Z) a : option nat := fst <$> list_find (fun ac => p ∈ elems ac) (a_cols a).

Definition leave (p : Z) (ac : acol) : acol :=
  let nx := after p (elems ac) in
  mkCol (without p (elems ac))
    (if cursor ac =? p then (if nx =? 0 then before 0 p (elems ac) else nx) else cursor ac)
    (pos ac).
Definition enter (p : Z) (ac : acol) : acol :=
  mkCol (elems ac ++ [p]) (if bool_decide (elems ac = []) then p else cursor ac) (pos ac).

Definition a_mov (p k : Z) a : Z * alist V :=
  match home p a with
  | Some j =>
      if negb (k =? Z.of_nat j) && (k <? Z.of_nat (length (a_cols a)))
      then (1, on_col (Z.to_nat k) (enter p) (on_col j (leave p) a))
      else (0, a)
  | None => (0, a)
  end.

Definition a_clr a : alist V :=
  mkAlist V (alter (fun _ => mkCol [] 0 0) (a_sel a) (a_cols a)) (a_sel a)
    (filter (fun kv => kv.1 ∉ elems (sel_col a)) (a_data a)).

(** The cursor of a non-empty column is one of its records; [synced] says
    that its index is the right one, which [ll_get], [ll_ins] and [ll_rem]
    rely on. *)
Definition cursor_ok (ac : acol) : Prop :=
  cursor ac ∈ elems ac \/ elems ac = [] /\ cursor ac = 0.
Definition col_synced (ac : acol) : Prop :=
  elems ac = [] \/ 0 <= pos ac /\ elems ac !! Z.to_nat (pos ac) = Some (cursor ac).
End abstract_ops.

(** ** Representation *)
Section rep.
Context {A V : Type} `{AllocatorLaws A}.
Abbreviation ctx := (ll_context A V).
Abbreviation item := (ll_item_hdr V).

(** What relinking never touches. *)
Definition erase (it : item) : Z * Z * (Z * V) := (h_cxt it, h_col it, (h_size it, h_data it)).
Definition shape (its : gmap Z item) : gmap Z (Z * Z * (Z * V)) := erase <$> its.
#[global] Arguments shape : simpl never.

Definition state_of (ac : acol) : ll_state :=
  mkState (hd_or 0 (elems ac)) (last_or 0 (elems ac)) (cursor ac)
    (Z.of_nat (length (elems ac))) (pos ac).

Definition owned (slf : Z) (k : nat) (it : item) : Prop :=
  h_cxt it = slf /\ h_col it = Z.of_nat k.

Record ll_rep (c : ctx) (a : alist V) : Prop := {
  rep_addr : 0 < state_addr c;
  rep_self : self c <> 0;
  rep_mode : mode c = LL_MODE_VECTOR;
  rep_cbs : p_alloc c = true /\ p_free c = true;
  rep_ncol : ncol c = Z.of_nat (length (a_cols a));
  rep_small : (length (a_cols a) < 256)%nat;
  rep_ccol : ccol c = Z.of_nat (a_sel a);
  rep_sel : (a_sel a < length (a_cols a))%nat;
  rep_states : states c = state_of <$> a_cols a;
  rep_col k ac : a_cols a !! k = Some ac ->
    dll (items c) (owned (self c) k) 0 (elems ac) 0 /\ NoDup (elems ac) /\ cursor_ok ac;
  rep_home p x : shape (items c) !! p = Some x ->
    exists k ac, x.1.2 = Z.of_nat k /\ a_cols a !! k = Some ac /\ p ∈ elems ac;
  rep_data : a_data a = snd <$> shape (items c);
  rep_count : Z.of_nat (size (items c)) < 2 ^ 32;
  rep_heap : a_ok (heap c);
  rep_live p x : shape (items c) !! p = Some x ->
    0 <= x.2.1 /\ x.2.1 + HDR < 2 ^ 32 /\ a_live (heap c) !! p = Some (x.2.1 + HDR);
  rep_array : a_live (heap c) !! state_addr c = Some (ncol c * STATE_SIZE) /\
    items c !! state_addr c = None
}.

(** *** Symbolic execution of the memory accesses *)
Lemma wp_locked {R} h (body : Z -> M ctx R) c (Q : R -> ctx -> Prop) :
  may_lock (mx c) h ->
  (forall hm m1,
    (match mx c with Some m => m_native m = false | None => True end ->
      may_lock m1 hm /\ match m1 with Some m => m_native m = true | None => True end) ->
    wp (body hm) (set_mx m1 c) (fun r c' => mx c' = m1 /\
      forall m2, lock_post h (mx c) m2 -> Q r (set_mx m2 c'))) ->
  wp (locked h body) c Q.
Proof.
  intros Hl Hb. unfold locked. apply wp_bind. unfold wp at 1, ll_lock.
  destruct (mx c) as [m|] eqn:Hm; simpl in Hl.
  - destruct Hl as [Hw Hl].
    assert (exists r m1, lock h m = Some (r, m1) /\
      (m_native m = false -> may_lock (Some m1) r /\ m_native m1 = true)) as (r & m1 & Hlk & Hn).
    { destruct (m_native m) eqn:E; [destruct Hl as [-> Hc]|subst h].
      - rw lock_held. eexists _, _. split; [reflexivity|done].
      - rw (lock_zero _ Hw) E. exists (take_handle m).1, (take_handle m).2. split; [done|].
        intros _. split; [|done]. split; [by apply take_handle_wf|]. cbn. done. }
    rw Hlk. apply wp_bind. eapply wp_mono; [by apply (Hb r (Some m1))|].
    intros x c' [Hmx HQ]. apply wp_bind. unfold wp at 1, ll_unlock. rw Hmx.
    destruct (lock_unlock m h r m1) as (m2 & Hu & Hw2 & Hn2 & Heq); [done| |done| |].
    { destruct (m_native m) eqn:E; [lia|]. destruct Hw as (_ & _ & _ & Hi).
      unfold is_u32 in *. destruct (Z.eqb_spec (m_lcount m) 0); [lia|].
      apply Hi in n. congruence. }
    { destruct (m_native m) eqn:E; [by left|right]. subst h.
      pose proof (get_handle_pos m Hw). lia. }
    rw Hu. apply wp_ret, HQ. split.
    + split; [done|]. rw Hn2. destruct (m_native m) eqn:E; [|done].
      rw Heq //.
    + intros E. by rw Heq.
  - assert (set_mx None c = c) as Hc by (destruct c; cbn in *; by subst).
    specialize (Hb 0 None (fun _ => conj I I)). rw Hc in Hb.
    apply wp_bind. eapply wp_mono; [exact Hb|].
    intros x c' [Hmx HQ]. apply wp_bind. unfold wp at 1, ll_unlock. rw Hmx.
    apply wp_ret. specialize (HQ None). destruct c'; cbn in *; subst.
    by apply HQ.
Qed.

Section access.
Context (slf md nc cc lim : Z) (pa pf : bool) (sa : Z) (ss : list ll_state).
Context (its : gmap Z item) (hp : A) (m : option mutex).
Abbreviation cx := (mkContext A V slf md nc cc lim pa pf sa).

Lemma wp_load p it (Q : item -> ctx -> Prop) :
  its !! p = Some it -> Q it (cx ss its hp m) -> wp (load p) (cx ss its hp m) Q.
Proof. intros Hp HQ. unfold wp, load. cbn. by rw Hp. Qed.

Lemma wp_store p f it (Q : unit -> ctx -> Prop) :
  its !! p = Some it -> Q tt (cx ss (<[p := f it]> its) hp m) ->
  wp (store p f) (cx ss its hp m) Q.
Proof. intros Hp HQ. unfold wp, store. cbn. by rw Hp. Qed.

Lemma wp_get_state k i st (Q : ll_state -> ctx -> Prop) :
  k = Z.of_nat i -> ss !! i = Some st -> Q st (cx ss its hp m) ->
  wp (get_state k) (cx ss its hp m) Q.
Proof. intros -> Hi HQ. unfold wp, get_state. cbn. rw Nat2Z.id. by rw Hi. Qed.

Lemma wp_upd_state k i st f (Q : unit -> ctx -> Prop) :
  k = Z.of_nat i -> ss !! i = Some st -> Q tt (cx (<[i := f st]> ss) its hp m) ->
  wp (upd_state k f) (cx ss its hp m) Q.
Proof. intros -> Hi HQ. unfold wp, upd_state. cbn. rw Nat2Z.id. by rw Hi. Qed.

Lemma wp_cur_state i st (Q : ll_state -> ctx -> Prop) :
  cc = Z.of_nat i -> ss !! i = Some st -> Q st (cx ss its hp m) ->
  wp cur_state (cx ss its hp m) Q.
Proof. intros ? ? HQ. apply wp_bind, wp_gets. by eapply wp_get_state. Qed.

Lemma wp_upd_cur i st f (Q : unit -> ctx -> Prop) :
  cc = Z.of_nat i -> ss !! i = Some st -> Q tt (cx (<[i := f st]> ss) its hp m) ->
  wp (upd_cur f) (cx ss its hp m) Q.
Proof. intros ? ? HQ. apply wp_bind, wp_gets. by eapply wp_upd_state. Qed.

Lemma wp_free p n (Q : unit -> ctx -> Prop) :
  a_live hp !! p = Some n -> Q tt (cx ss (delete p its) (a_free hp p n) m) ->
  wp (free p n) (cx ss its hp m) Q.
Proof. intros Hl HQ. unfold wp, free. cbn. by rw decide_True. Qed.

Lemma wp_alloc n (Q : Z -> ctx -> Prop) :
  Q (a_alloc hp n).1 (cx ss its (a_alloc hp n).2 m) -> wp (alloc n) (cx ss its hp m) Q.
Proof. unfold wp, alloc. cbn. by destruct (a_alloc hp n). Qed.
End access.

(** Guarded relinking: [if(q) q->next = v] and [if(q) q->prev = v]. *)
Definition relink_next (q v : Z) (its : gmap Z item) : gmap Z item :=
  if q =? 0 then its else alter (set_next v) q its.
Definition relink_prev (q v : Z) (its : gmap Z item) : gmap Z item :=
  if q =? 0 then its else alter (set_prev v) q its.

Lemma alter_Some {K} `{Countable K} {X} (f : X -> X) (k : K) (g : gmap K X) x :
  g !! k = Some x -> alter f k g = <[k := f x]> g.
Proof.
  intros Hx. apply map_eq. intros j. rw lookup_alter lookup_insert.
  case_decide; [|done]. subst. by rw Hx.
Qed.

Lemma alter_None {K} `{Countable K} {X} (f : X -> X) (k : K) (g : gmap K X) :
  g !! k = None -> alter f k g = g.
Proof.
  intros Hx. apply map_eq. intros j. rw lookup_alter.
  case_decide; [|done]. subst. by rw Hx.
Qed.

Lemma wp_relink_next q v slf md nc cc lim pa pf sa ss its hp m (Q : unit -> ctx -> Prop) :
  (q <> 0 -> is_Some (its !! q)) ->
  Q tt (mkContext A V slf md nc cc lim pa pf sa ss (relink_next q v its) hp m) ->
  wp (when (negb (q =? 0)) (store q (set_next v)))
     (mkContext A V slf md nc cc lim pa pf sa ss its hp m) Q.
Proof.
  unfold relink_next. intros Hs HQ. destruct (Z.eqb_spec q 0) as [->|Hq]; [done|].
  destruct (Hs Hq) as [it Hit]. simpl. eapply wp_store; [done|].
  by rw (alter_Some _ _ _ it) in HQ.
Qed.

Lemma wp_relink_prev q v slf md nc cc lim pa pf sa ss its hp m (Q : unit -> ctx -> Prop) :
  (q <> 0 -> is_Some (its !! q)) ->
  Q tt (mkContext A V slf md nc cc lim pa pf sa ss (relink_prev q v its) hp m) ->
  wp (when (negb (q =? 0)) (store q (set_prev v)))
     (mkContext A V slf md nc cc lim pa pf sa ss its hp m) Q.
Proof.
  unfold relink_prev. intros Hs HQ. destruct (Z.eqb_spec q 0) as [->|Hq]; [done|].
  destruct (Hs Hq) as [it Hit]. simpl. eapply wp_store; [done|].
  by rw (alter_Some _ _ _ it) in HQ.
Qed.

Lemma shape_insert_same p it it' its :
  its !! p = Some it -> erase it' = erase it -> shape (<[p := it']> its) = shape its.
Proof.
  intros Hp He. unfold shape. rw fmap_insert He. apply insert_id.
  by rw lookup_fmap Hp.
Qed.

Lemma shape_relink_next q v its : shape (relink_next q v its) = shape its.
Proof.
  unfold relink_next. destruct (q =? 0); [done|]. destruct (its !! q) as [it|] eqn:E.
  - rw (alter_Some _ _ _ it) //. by eapply shape_insert_same.
  - by rw alter_None.
Qed.

Lemma shape_relink_prev q v its : shape (relink_prev q v its) = shape its.
Proof.
  unfold relink_prev. destruct (q =? 0); [done|]. destruct (its !! q) as [it|] eqn:E.
  - rw (alter_Some _ _ _ it) //. by eapply shape_insert_same.
  - by rw alter_None.
Qed.
End rep.
