(* ===== verification/LinkedListProof.v ===== *)
(** * The operations of ll_alg.c implement the abstract list

    One [*_refines] lemma per operation: started in a context that represents
    [a] with a lock the caller may take, the pointer code is defined, returns,
    hands the lock back, and leaves a context that represents the result of the
    abstract operation. *)
From S2P Require Import Prelude Memory Mutex LinkedList LinkedListSpec.
Set Default Goal Selector "!".

Section relink.
Context {V : Type}.
Abbreviation item := (ll_item_hdr V).
Implicit Types (its : gmap Z item) (ok : item -> Prop).

Lemma lookup_relink_next_ne q v its p : p <> q -> relink_next q v its !! p = its !! p.
Proof. unfold relink_next. intros. destruct (q =? 0); [done|]. by rw lookup_alter_ne. Qed.
Lemma lookup_relink_prev_ne q v its p : p <> q -> relink_prev q v its !! p = its !! p.
Proof. unfold relink_prev. intros. destruct (q =? 0); [done|]. by rw lookup_alter_ne. Qed.

Lemma lookup_relink_next q v its : q <> 0 -> relink_next q v its !! q = set_next v <$> its !! q.
Proof. unfold relink_next. intros. destruct (Z.eqb_spec q 0); [done|]. by rw lookup_alter_eq. Qed.
Lemma lookup_relink_prev q v its : q <> 0 -> relink_prev q v its !! q = set_prev v <$> its !! q.
Proof. unfold relink_prev. intros. destruct (Z.eqb_spec q 0); [done|]. by rw lookup_alter_eq. Qed.

Lemma relink_next_is_Some q v its p : is_Some (its !! p) -> is_Some (relink_next q v its !! p).
Proof.
  destruct (decide (p = q)) as [->|]; [|by rw lookup_relink_next_ne].
  destruct (Z.eqb_spec q 0) as [->|]; [done|]. rw lookup_relink_next //. by intros [? ->].
Qed.
Lemma relink_prev_is_Some q v its p : is_Some (its !! p) -> is_Some (relink_prev q v its !! p).
Proof.
  destruct (decide (p = q)) as [->|]; [|by rw lookup_relink_prev_ne].
  destruct (Z.eqb_spec q 0) as [->|]; [done|]. rw lookup_relink_prev //. by intros [? ->].
Qed.

Lemma dll_relink_next_ne its ok q v prv l nxt :
  q ∉ l -> dll its ok prv l nxt -> dll (relink_next q v its) ok prv l nxt.
Proof.
  intros Hq. apply dll_frame. intros p Hp. apply lookup_relink_next_ne. congruence.
Qed.
Lemma dll_relink_prev_ne its ok q v prv l nxt :
  q ∉ l -> dll its ok prv l nxt -> dll (relink_prev q v its) ok prv l nxt.
Proof.
  intros Hq. apply dll_frame. intros p Hp. apply lookup_relink_prev_ne. congruence.
Qed.

Context (ok : item -> Prop).
Hypothesis ok_next : forall i q, ok i -> ok (set_next q i).
Hypothesis ok_prev : forall i q, ok i -> ok (set_prev q i).

(** The end of a segment is redirected by its last item, the beginning by its
    first. *)
Lemma dll_retarget_next its prv l nxt v :
  0 ∉ l -> NoDup l -> dll its ok prv l nxt -> dll (relink_next (last_or 0 l) v its) ok prv l v.
Proof.
  intros H0 Hnd Hd. destruct (decide (l = [])) as [->|Hl]; [done|].
  destruct (exists_last Hl) as (l' & q & ->). rw last_or_snoc.
  apply NoDup_app in Hnd as (_ & Hn & _).
  assert (q <> 0) as Hq by (intros ->; apply H0, elem_of_app; right; by left).
  destruct (dll_lookup _ _ _ _ _ _ _ Hd) as (it & Hit & _).
  unfold relink_next. destruct (Z.eqb_spec q 0); [done|].
  rw (alter_Some _ _ _ it Hit). apply (dll_set_next _ _ _ _ _ _ nxt); try done.
  intros Hin. apply (Hn q Hin). by left.
Qed.

Lemma dll_retarget_prev its prv l nxt v :
  0 ∉ l -> NoDup l -> dll its ok prv l nxt -> dll (relink_prev (hd_or 0 l) v its) ok v l nxt.
Proof.
  intros H0 Hnd Hd. destruct l as [|q l]; [done|]. simpl hd_or.
  apply NoDup_cons in Hnd as [Hn Hnd].
  assert (q <> 0) as Hq by (intros ->; apply H0; by left).
  destruct Hd as [(it & Hit & Hr) Hd].
  unfold relink_prev. destruct (Z.eqb_spec q 0); [done|].
  rw (alter_Some _ _ _ it Hit). apply (dll_set_prev _ _ prv); try done.
  split; [by exists it|done].
Qed.

Lemma last_or_notin (l1 l2 : list Z) d :
  (forall x, x ∈ l1 -> x ∉ l2) -> d ∉ l2 -> last_or d l1 ∉ l2.
Proof.
  intros Hd H0. destruct (decide (l1 = [])) as [->|Hl]; [done|].
  by apply Hd, last_or_elem.
Qed.

Lemma hd_or_notin (l1 l2 : list Z) d :
  (forall x, x ∈ l1 -> x ∉ l2) -> d ∉ l1 -> hd_or d l2 ∉ l1.
Proof.
  intros Hd H0. destruct l2 as [|x l2]; [done|]. simpl. intros Hx. apply (Hd x Hx). by left.
Qed.

(** Unlinking an item from the middle of a column. *)
Lemma dll_unlink its l1 p l2 :
  0 ∉ l1 ++ p :: l2 -> NoDup (l1 ++ p :: l2) -> dll its ok 0 (l1 ++ p :: l2) 0 ->
  dll (relink_prev (hd_or 0 l2) (last_or 0 l1) (relink_next (last_or 0 l1) (hd_or 0 l2) its))
    ok 0 (l1 ++ l2) 0.
Proof.
  intros H0 Hnd Hd. rw not_elem_of_app not_elem_of_cons in H0. destruct H0 as (H1 & H2 & H3).
  apply NoDup_app in Hnd as (Hn1 & Hdis & Hn2). apply NoDup_cons in Hn2 as [Hp Hn2].
  assert (forall x, x ∈ l1 -> x ∉ l2) as Hdis'.
  { intros x Hx Hx'. apply (Hdis x Hx). by right. }
  apply dll_app in Hd as [D1 D2]. simpl in D1, D2. destruct D2 as [_ D2].
  apply dll_app. split.
  - apply dll_relink_prev_ne; [by apply hd_or_notin|]. by eapply dll_retarget_next.
  - eapply dll_retarget_prev; [done|done|]. apply dll_relink_next_ne; [|done].
    by apply last_or_notin.
Qed.

(** Appending an item. *)
Lemma dll_append its l p it :
  0 ∉ l -> NoDup l -> p ∉ l -> dll its ok 0 l 0 ->
  h_prev it = last_or 0 l -> h_next it = 0 -> ok it ->
  dll (<[p := it]> (relink_next (last_or 0 l) p its)) ok 0 (l ++ [p]) 0.
Proof.
  intros H0 Hnd Hp Hd Hpr Hnx Hok. apply dll_app. simpl. split.
  - apply dll_insert_ne; [done|]. by eapply dll_retarget_next.
  - split; [|done]. exists it. rw lookup_insert_eq. done.
Qed.
End relink.

Section rep_lemmas.
Context {A V : Type} `{AllocatorLaws A}.
Abbreviation ctx := (ll_context A V).
Abbreviation item := (ll_item_hdr V).
Implicit Types (c : ctx) (a : alist V).

Lemma owned_next slf k (i : item) q : owned slf k i -> owned slf k (set_next q i).
Proof. done. Qed.
Lemma owned_prev slf k (i : item) q : owned slf k i -> owned slf k (set_prev q i).
Proof. done. Qed.

Lemma shape_lookup (its : gmap Z item) p : shape its !! p = erase <$> its !! p.
Proof. apply lookup_fmap. Qed.

Lemma rep_selected c a : ll_rep c a -> a_cols a !! a_sel a = Some (sel_col a).
Proof.
  intros Hr. unfold sel_col. destruct (lookup_lt_is_Some_2 (a_cols a) (a_sel a)) as [ac E].
  { apply (rep_sel _ _ Hr). }
  by rw E.
Qed.

Lemma rep_sel_state c a :
  ll_rep c a -> states c !! a_sel a = Some (state_of (sel_col a)).
Proof. intros Hr. rw (rep_states _ _ Hr) list_lookup_fmap (rep_selected _ _ Hr) //. Qed.

Lemma rep_elem c a k ac p :
  ll_rep c a -> a_cols a !! k = Some ac -> p ∈ elems ac ->
  exists it, items c !! p = Some it /\ owned (self c) k it.
Proof. intros Hr Hk Hp. destruct (rep_col _ _ Hr k ac Hk) as [Hd _]. by eapply dll_elem. Qed.

Lemma rep_item_pos c a p it : ll_rep c a -> items c !! p = Some it -> 0 < p.
Proof.
  intros Hr Hp. destruct (rep_live _ _ Hr p (erase it)) as (_ & _ & Hl).
  { by rw shape_lookup Hp. }
  eapply live_pos; [apply (rep_heap _ _ Hr)|exact Hl].
Qed.

Lemma rep_nonzero c a k ac : ll_rep c a -> a_cols a !! k = Some ac -> 0 ∉ elems ac.
Proof.
  intros Hr Hk Hz. destruct (rep_elem _ _ _ _ _ Hr Hk Hz) as (it & Hit & _).
  apply (rep_item_pos _ _ _ _ Hr) in Hit. lia.
Qed.

Lemma rep_disjoint c a j k aj ak p :
  ll_rep c a -> a_cols a !! j = Some aj -> a_cols a !! k = Some ak ->
  p ∈ elems aj -> p ∈ elems ak -> j = k.
Proof.
  intros Hr Hj Hk Hpj Hpk.
  destruct (rep_elem _ _ _ _ _ Hr Hj Hpj) as (it & Hit & [_ H1]).
  destruct (rep_elem _ _ _ _ _ Hr Hk Hpk) as (it' & Hit' & [_ H2]).
  rw Hit in Hit'. injection Hit' as <-. lia.
Qed.

(** A duplicate-free column is no longer than the store. *)
Lemma elems_bound (its : gmap Z item) l :
  NoDup l -> (forall p, p ∈ l -> is_Some (its !! p)) -> (length l <= size its)%nat.
Proof.
  intros Hnd Hin. rw -(size_list_to_set (C := gset Z) l) // -size_dom.
  apply subseteq_size. intros p Hp. apply elem_of_list_to_set, Hin in Hp. by apply elem_of_dom.
Qed.

Lemma rep_length c a k ac :
  ll_rep c a -> a_cols a !! k = Some ac -> Z.of_nat (length (elems ac)) < 2 ^ 32.
Proof.
  intros Hr Hk. pose proof (rep_count _ _ Hr).
  destruct (rep_col _ _ Hr k ac Hk) as (_ & Hnd & _).
  assert (length (elems ac) <= size (items c))%nat; [|lia].
  apply elems_bound; [done|]. intros p Hp.
  destruct (rep_elem _ _ _ _ _ Hr Hk Hp) as (it & -> & _). by eexists.
Qed.

Lemma shape_size (i1 i2 : gmap Z item) : shape i1 = shape i2 -> size i1 = size i2.
Proof. intros E. by rw -(map_size_fmap erase i1) -/(shape i1) E map_size_fmap. Qed.

(** Replacing one column, with the links of its own items only. *)
Lemma rep_update c a k ac ac' its' :
  ll_rep c a -> a_cols a !! k = Some ac ->
  shape its' = shape (items c) ->
  (forall p, p ∉ elems ac -> its' !! p = items c !! p) ->
  dll its' (owned (self c) k) 0 (elems ac') 0 -> NoDup (elems ac') -> cursor_ok ac' ->
  (forall p, p ∈ elems ac -> p ∈ elems ac') ->
  ll_rep (set_states (<[k := state_of ac']> (states c)) (set_items its' c))
    (on_col k (fun _ => ac') a).
Proof.
  intros Hr Hk Hs Hf Hd Hnd Hc Hsub. pose proof (shape_size _ _ Hs) as Hsz.
  destruct Hr as [Ra Rself Rm Rcb Rn Rsm Rcc Rsel Rst Rcol Rh Rd Rc Rhp Rl [Rarr Rai]].
  split; cbn -[shape]; rw ?length_alter ?Hs ?Hsz; try done.
  - rw Rst. rw -list_fmap_insert. f_equal. apply list_eq. intros j.
    destruct (decide (j = k)) as [->|].
    + rw list_lookup_insert_eq; [|by eapply lookup_lt_Some]. by rw list_lookup_alter_eq Hk.
    + rw list_lookup_insert_ne // list_lookup_alter_ne //.
  - intros j aj. destruct (decide (j = k)) as [->|Hne].
    + rw list_lookup_alter_eq Hk /=. intros [= <-]. done.
    + rw list_lookup_alter_ne //. intros Hj. destruct (Rcol j aj Hj) as (Dj & Nj & Cj).
      split_and!; [|done|done]. eapply dll_frame; [|exact Dj].
      intros p Hp. apply Hf. intros Hp'. apply Hne.
      destruct (dll_elem _ _ _ _ _ _ Dj Hp) as (it & Hit & [_ H1]).
      destruct (Rcol k ac Hk) as (Dk & _).
      destruct (dll_elem _ _ _ _ _ _ Dk Hp') as (it' & Hit' & [_ H2]).
      rw Hit in Hit'. injection Hit' as <-. lia.
  - intros p x Hp. destruct (Rh p x Hp) as (j & aj & Hx & Hj & Hpj).
    exists j. destruct (decide (j = k)) as [->|Hne].
    + exists ac'. rw list_lookup_alter_eq Hj. split_and!; [done|done|].
      rw Hk in Hj. injection Hj as ->. by apply Hsub.
    + exists aj. by rw list_lookup_alter_ne.
  - split; [done|]. destruct (its' !! state_addr c) eqn:E; [|done]. exfalso.
    pose proof (shape_lookup its' (state_addr c)) as E1.
    rw Hs shape_lookup Rai E in E1. done.
Qed.
End rep_lemmas.

Section refinement.
Context {A V : Type} `{AL : AllocatorLaws A}.
Abbreviation ctx := (ll_context A V).
Abbreviation item := (ll_item_hdr V).
Implicit Types (c : ctx) (a : alist V).

(** The outcome of an operation that returns [r'] and moves [a] to [a']. *)
Definition outcome {R} (h : Z) (m : option mutex) (r' : R) (a' : alist V) (r : R) (c' : ctx) : Prop :=
  r = r' /\ ll_rep c' a' /\ lock_post h m (mx c').

Lemma rep_set_mx m c a : ll_rep (set_mx m c) a <-> ll_rep c a.
Proof. destruct c; split; intros []; split; done. Qed.

Lemma on_col_const k f ac a :
  a_cols a !! k = Some ac -> on_col k f a = on_col k (fun _ => f ac) a.
Proof.
  intros Hk. unfold on_col. f_equal. apply list_eq. intros j.
  destruct (decide (j = k)) as [->|].
  - by rw !list_lookup_alter_eq Hk.
  - by rw !list_lookup_alter_ne.
Qed.

Lemma rep_cursor c a p n :
  ll_rep c a -> p ∈ elems (sel_col a) ->
  ll_rep (set_states (<[a_sel a := state_of (put_cursor p n (sel_col a))]> (states c)) c)
    (upd_sel (put_cursor p n) a).
Proof.
  intros Hr Hp. pose proof (rep_selected _ _ Hr) as Hs.
  unfold upd_sel. rw (on_col_const _ _ _ _ Hs).
  destruct (rep_col _ _ Hr _ _ Hs) as (Hd & Hnd & _).
  replace c with (set_items (items c) c) at 2 by by destruct c.
  eapply rep_update; try done. by left.
Qed.

Lemma rep_rec_ptr c a p it :
  ll_rep c a -> items c !! p = Some it -> rec_ptr a p = (p + HDR, Some (h_size it)).
Proof.
  intros Hr Hp. pose proof (rep_item_pos _ _ _ _ Hr Hp).
  unfold rec_ptr. destruct (Z.eqb_spec p 0); [lia|].
  rw (rep_data _ _ Hr) lookup_fmap shape_lookup Hp //.
Qed.

Lemma rep_cc c a : ll_rep c a -> ccol c = Z.of_nat (a_sel a).
Proof. apply rep_ccol. Qed.
End refinement.

#[global] Arguments outcome : simpl never.

(** Opening an operation: the representation facts of the selected column,
    then the lock. *)
Ltac ll_open Hr :=
  let Hs := fresh "Hs" in let Hst := fresh "Hst" in let Hcc := fresh "Hcc" in
  pose proof (rep_selected _ _ Hr) as Hs;
  pose proof (rep_sel_state _ _ Hr) as Hst;
  pose proof (rep_ccol _ _ Hr) as Hcc.

Ltac ll_locked Hl :=
  apply wp_locked; [exact Hl|]; intros hm m1 _.

Ltac ll_lk := first [eassumption | eapply list_lookup_here; ll_lk].

(** One memory access; lookups are found in the context. *)
Ltac ll_access :=
  lazymatch goal with
  | |- wp (mbind _ _) _ _ => apply wp_bind; ll_access
  | |- wp cur_state _ _ => eapply wp_cur_state; [eassumption|ll_lk|]
  | |- wp (upd_cur _) _ _ =>
      eapply wp_upd_cur; [eassumption|ll_lk|]; rw ?list_insert_insert_eq
  | |- wp (load _) _ _ => eapply wp_load; [eassumption|]
  | |- wp (gets _) _ _ => apply wp_gets
  | |- wp (modify _) _ _ => apply wp_modify
  | |- wp (mret _) _ _ => apply wp_ret
  end.
Ltac ll_steps := repeat (ll_access; cbn -[relink_next relink_prev shape Z.mul Z.add Z.sub]).

Section cursor_ops.
Context {A V : Type} `{AL : AllocatorLaws A}.
Abbreviation ctx := (ll_context A V).
Implicit Types (c : ctx) (a : alist V).

(** Final step of the four cursor movements: the cursor was set to [p]. *)
Lemma finish_cursor c a p n it h m1 ss' :
  ll_rep c a -> p ∈ elems (sel_col a) -> items c !! p = Some it ->
  ss' = <[a_sel a := state_of (put_cursor p n (sel_col a))]> (states c) ->
  mx (set_states ss' (set_mx m1 c)) = m1 /\
  forall m2, lock_post h (mx c) m2 ->
    outcome h (mx c) (rec_ptr a p) (if p =? 0 then a else upd_sel (put_cursor p n) a)
      (p + HDR, Some (h_size it)) (set_mx m2 (set_states ss' (set_mx m1 c))).
Proof.
  intros Hr Hp Hit ->. split; [by destruct c|]. intros m2 Hm2.
  pose proof (rep_item_pos _ _ _ _ Hr Hit). split_and!.
  - by rw (rep_rec_ptr _ _ _ _ Hr Hit).
  - destruct (Z.eqb_spec p 0); [lia|]. apply rep_set_mx.
    pose proof (rep_cursor c a p n Hr Hp) as Hc. apply (rep_set_mx m1) in Hc.
    by destruct c.
  - by destruct c.
Qed.

Lemma finish_same {R} c a (r : R) h m1 :
  ll_rep c a -> mx (set_mx m1 c) = m1 /\
  forall m2, lock_post h (mx c) m2 -> outcome h (mx c) r a r (set_mx m2 (set_mx m1 c)).
Proof.
  intros Hr. split; [by destruct c|]. intros m2 Hm2. split_and!; [done| |by destruct c].
  by apply rep_set_mx, rep_set_mx.
Qed.

Lemma ll_first_refines c a h :
  ll_rep c a -> may_lock (mx c) h ->
  wp (ll_first h) c (outcome h (mx c) (a_first a).1 (a_first a).2).
Proof.
  intros Hr Hl. ll_open Hr. ll_locked Hl.
  destruct (decide (elems (sel_col a) = [])) as [E|E].
  - pose proof (finish_same c a (0, @None Z) h m1 Hr) as Hf.
    unfold a_first. rw E. simpl hd_or. destruct c; cbn in *.
    ll_access. cbn. rw E. apply wp_ret. exact Hf.
  - assert (hd_or 0 (elems (sel_col a)) ∈ elems (sel_col a)) as Hp.
    { destruct (elems (sel_col a)); [done|]. by left. }
    destruct (rep_elem _ _ _ _ _ Hr Hs Hp) as (it & Hit & _).
    pose proof (rep_item_pos _ _ _ _ Hr Hit).
    pose proof (fun ss' => finish_cursor c a _ 0 it h m1 ss' Hr Hp Hit) as Hf.
    unfold a_first. destruct c; cbn in *.
    ll_access. cbn. destruct (Z.eqb_spec (hd_or 0 (elems (sel_col a))) 0); [lia|].
    ll_steps. by apply Hf.
Qed.

Lemma ll_last_refines c a h :
  ll_rep c a -> may_lock (mx c) h ->
  wp (ll_last h) c (outcome h (mx c) (a_last a).1 (a_last a).2).
Proof.
  intros Hr Hl. ll_open Hr. ll_locked Hl.
  destruct (decide (elems (sel_col a) = [])) as [E|E].
  - pose proof (finish_same c a (0, @None Z) h m1 Hr) as Hf.
    unfold a_last. rw E. simpl last_or. destruct c; cbn in *.
    ll_access. cbn. rw E. apply wp_ret. exact Hf.
  - pose proof (last_or_elem 0 _ E) as Hp.
    destruct (rep_elem _ _ _ _ _ Hr Hs Hp) as (it & Hit & _).
    pose proof (rep_item_pos _ _ _ _ Hr Hit).
    pose proof (fun n ss' => finish_cursor c a _ n it h m1 ss' Hr Hp Hit) as Hf.
    unfold a_last. destruct c; cbn in *.
    ll_access. cbn. destruct (Z.eqb_spec (last_or 0 (elems (sel_col a))) 0); [lia|].
    ll_steps. by apply Hf.
Qed.

Lemma rep_cursor_cases c a :
  ll_rep c a -> cursor (sel_col a) = 0 /\ elems (sel_col a) = [] \/
    0 < cursor (sel_col a) /\ cursor (sel_col a) ∈ elems (sel_col a).
Proof.
  intros Hr. pose proof (rep_selected _ _ Hr) as Hs.
  destruct (rep_col _ _ Hr _ _ Hs) as (_ & _ & [Hc|[He Hc]]).
  - right. split; [|done]. destruct (rep_elem _ _ _ _ _ Hr Hs Hc) as (it & Hit & _).
    by eapply rep_item_pos.
  - by left.
Qed.

(** The links of an item are its neighbours in the column. *)
Lemma rep_neighbours c a k ac p :
  ll_rep c a -> a_cols a !! k = Some ac -> p ∈ elems ac ->
  exists it l1 l2, elems ac = l1 ++ p :: l2 /\ items c !! p = Some it /\ owned (self c) k it /\
    h_prev it = last_or 0 l1 /\ h_next it = hd_or 0 l2 /\
    before 0 p (elems ac) = last_or 0 l1 /\ after p (elems ac) = hd_or 0 l2 /\
    without p (elems ac) = l1 ++ l2.
Proof.
  intros Hr Hk Hp. destruct (rep_col _ _ Hr k ac Hk) as (Hd & Hnd & _).
  apply list_elem_of_split in Hp as (l1 & l2 & E). rw E in Hd, Hnd |- *.
  destruct (dll_lookup _ _ _ _ _ _ _ Hd) as (it & Hit & Hpr & Hnx & Ho).
  exists it, l1, l2. split_and!; try done.
  - by apply before_split.
  - by apply after_split.
  - by apply without_split.
Qed.

Lemma hd_or_elem d l : hd_or d l <> d -> hd_or d l ∈ l.
Proof. destruct l; [done|]. intros _. by left. Qed.

Lemma ll_next_refines c a h :
  ll_rep c a -> may_lock (mx c) h ->
  wp (ll_next h) c (outcome h (mx c) (a_next a).1 (a_next a).2).
Proof.
  intros Hr Hl. ll_open Hr. ll_locked Hl. unfold a_next.
  destruct (rep_cursor_cases _ _ Hr) as [[E1 E2]|[Hpos Hin]].
  - rw E1 E2. cbn [after fst snd]. pose proof (finish_same c a (0, @None Z) h m1 Hr) as Hf.
    destruct c; cbn in *. ll_access. cbn. rw E1. by apply wp_ret.
  - destruct (rep_neighbours _ _ _ _ _ Hr Hs Hin)
      as (it & l1 & l2 & El & Hit & _ & _ & Hnx & _ & -> & _).
    destruct (Z.eqb_spec (cursor (sel_col a)) 0) as [|_]; [lia|].
    destruct (Z.eqb_spec (hd_or 0 l2) 0) as [E|E].
    + pose proof (finish_same c a (0, @None Z) h m1 Hr) as Hf. rw E.
      destruct c; cbn in *. ll_access. cbn.
      destruct (Z.eqb_spec (cursor (sel_col a)) 0) as [|_]; [lia|].
      ll_access. rw Hnx E. by apply wp_ret.
    + assert (hd_or 0 l2 ∈ elems (sel_col a)) as Hp.
      { rw El. apply elem_of_app. right. right. by apply hd_or_elem. }
      destruct (rep_elem _ _ _ _ _ Hr Hs Hp) as (nx & Hnxt & _).
      pose proof (fun n ss' => finish_cursor c a _ n nx h m1 ss' Hr Hp Hnxt) as Hf.
      destruct c; cbn in *. ll_access. cbn.
      destruct (Z.eqb_spec (cursor (sel_col a)) 0) as [|_]; [lia|].
      ll_access. rw Hnx. destruct (Z.eqb_spec (hd_or 0 l2) 0); [done|].
      ll_steps. by apply Hf.
Qed.
End cursor_ops.

Section observers.
Context {A V : Type} `{AL : AllocatorLaws A}.
Abbreviation ctx := (ll_context A V).
Implicit Types (c : ctx) (a : alist V).

Lemma ll_prev_refines c a h :
  ll_rep c a -> may_lock (mx c) h ->
  wp (ll_prev h) c (outcome h (mx c) (a_prev a).1 (a_prev a).2).
Proof.
  intros Hr Hl. ll_open Hr. ll_locked Hl. unfold a_prev.
  destruct (rep_cursor_cases _ _ Hr) as [[E1 E2]|[Hpos Hin]].
  - rw E1 E2. cbn [before fst snd]. pose proof (finish_same c a (0, @None Z) h m1 Hr) as Hf.
    destruct c; cbn in *. ll_access. cbn. rw E1. by apply wp_ret.
  - destruct (rep_neighbours _ _ _ _ _ Hr Hs Hin)
      as (it & l1 & l2 & El & Hit & _ & Hpr & _ & -> & _ & _).
    destruct (Z.eqb_spec (cursor (sel_col a)) 0) as [|_]; [lia|].
    destruct (Z.eqb_spec (last_or 0 l1) 0) as [E|E].
    + pose proof (finish_same c a (0, @None Z) h m1 Hr) as Hf. rw E.
      destruct c; cbn in *. ll_access. cbn.
      destruct (Z.eqb_spec (cursor (sel_col a)) 0) as [|_]; [lia|].
      ll_access. rw Hpr E. by apply wp_ret.
    + assert (last_or 0 l1 ∈ elems (sel_col a)) as Hp.
      { rw El. apply elem_of_app. left. apply last_or_elem. by intros ->. }
      destruct (rep_elem _ _ _ _ _ Hr Hs Hp) as (nx & Hnxt & _).
      pose proof (fun n ss' => finish_cursor c a _ n nx h m1 ss' Hr Hp Hnxt) as Hf.
      destruct c; cbn in *. ll_access. cbn.
      destruct (Z.eqb_spec (cursor (sel_col a)) 0) as [|_]; [lia|].
      ll_access. rw Hpr. destruct (Z.eqb_spec (last_or 0 l1) 0); [done|].
      ll_steps. by apply Hf.
Qed.

Lemma ll_current_refines c a h :
  ll_rep c a -> may_lock (mx c) h ->
  wp (ll_current h) c (outcome h (mx c) (a_current a).1 (a_current a).2).
Proof.
  intros Hr Hl. ll_open Hr. ll_locked Hl. unfold a_current. cbn [fst snd].
  destruct (rep_cursor_cases _ _ Hr) as [[E1 E2]|[Hpos Hin]].
  - rw E1. pose proof (finish_same c a (0, @None Z) h m1 Hr) as Hf.
    destruct c; cbn in *. ll_access. cbn. rw E1. by apply wp_ret.
  - destruct (rep_elem _ _ _ _ _ Hr Hs Hin) as (it & Hit & _).
    rw (rep_rec_ptr _ _ _ _ Hr Hit).
    pose proof (finish_same c a (cursor (sel_col a) + HDR, Some (h_size it)) h m1 Hr) as Hf.
    destruct c; cbn in *. ll_access. cbn.
    destruct (Z.eqb_spec (cursor (sel_col a)) 0) as [|_]; [lia|].
    ll_steps. exact Hf.
Qed.

Lemma ll_cnt_refines c a h :
  ll_rep c a -> may_lock (mx c) h ->
  wp (ll_cnt h) c (outcome h (mx c) (a_cnt a) a).
Proof.
  intros Hr Hl. ll_open Hr. ll_locked Hl.
  pose proof (finish_same c a (a_cnt a) h m1 Hr) as Hf.
  destruct c; cbn in *. ll_access. cbn. by apply wp_ret.
Qed.

Lemma upd_sel_ext f g c a :
  ll_rep c a -> f (sel_col a) = g (sel_col a) -> upd_sel f a = upd_sel g a.
Proof.
  intros Hr E. pose proof (rep_selected _ _ Hr) as Hs. unfold upd_sel.
  by rw (on_col_const _ f _ _ Hs) (on_col_const _ g _ _ Hs) E.
Qed.

Lemma rep_set_ccol c a k :
  ll_rep c a -> 0 <= k < Z.of_nat (length (a_cols a)) ->
  ll_rep (set_ccol k c) (mkAlist V (a_cols a) (Z.to_nat k) (a_data a)).
Proof. intros [] Hk. split; cbn -[shape]; try done; lia. Qed.

Lemma ll_col_refines c a k h :
  ll_rep c a -> may_lock (mx c) h -> 0 <= k ->
  wp (ll_col k h) c (fun r c' => outcome h (mx c) tt (a_col k a) r c' /\
    heap c' = heap c /\ state_addr c' = state_addr c /\ ncol c' = ncol c).
Proof.
  intros Hr Hl Hk. unfold ll_col. apply wp_bind, wp_gets. unfold a_col.
  rw (rep_ncol _ _ Hr). destruct (Z.ltb_spec k (Z.of_nat (length (a_cols a)))).
  - ll_locked Hl. apply wp_modify. split; [by destruct c|]. intros m2 Hm2.
    assert (ll_rep (set_ccol k c) (mkAlist V (a_cols a) (Z.to_nat k) (a_data a))) as Hr'.
    { by apply rep_set_ccol. }
    split; [|split_and!; [done|done|apply (rep_ncol _ _ Hr)]]. split_and!; [done| |by destruct c]. apply rep_set_mx.
    apply (rep_set_mx m1) in Hr'. by destruct c.
  - apply wp_ret. split; [|split_and!; [done|done|apply (rep_ncol _ _ Hr)]]. split_and!; [done|done|by apply lock_post_refl].
Qed.

(** [ll_sel] reads the record header before taking the lock; the record must
    be live, in this list. *)
Lemma ll_sel_refines c a p h :
  ll_rep c a -> may_lock (mx c) h -> is_Some (a_data a !! p) ->
  wp (ll_sel (p + HDR) h) c (outcome h (mx c) (a_selrec p a).1 (a_selrec p a).2).
Proof.
  intros Hr Hl Hp. ll_open Hr. unfold ll_sel, a_selrec.
  replace (p + HDR - HDR) with p by lia.
  rw (rep_data _ _ Hr) lookup_fmap shape_lookup in Hp.
  destruct (items c !! p) as [it|] eqn:Hit; [clear Hp|by destruct Hp].
  destruct (rep_home _ _ Hr p (erase it)) as (k & ac & Hk & Hka & Hin).
  { by rw shape_lookup Hit. }
  cbn in Hk. destruct (rep_elem _ _ _ _ _ Hr Hka Hin) as (it' & Hit' & [Hcx _]).
  rw Hit in Hit'. injection Hit' as <-.
  assert (p ∈ elems (sel_col a) <-> k = a_sel a) as Hsel.
  { split; [intros Hp'; by eapply rep_disjoint|]. intros ->. rw Hs in Hka. by injection Hka as ->. }
  apply wp_bind. eapply wp_mono with (Q := fun i s => i = it /\ s = c).
  { destruct c; cbn in *. by eapply wp_load. }
  intros i s [-> ->]. apply wp_bind, wp_gets, wp_bind, wp_gets.
  rw Hcx Hk Hcc Z.eqb_refl. simpl.
  destruct (Z.eqb_spec (Z.of_nat k) (Z.of_nat (a_sel a))) as [E|E].
  - apply Nat2Z.inj in E. rw decide_True; [|by apply Hsel].
    pose proof (proj2 Hsel E) as Hp. cbn [fst snd].
    pose proof (rep_cursor c a p (pos (sel_col a)) Hr Hp) as Hc.
    apply wp_bind. ll_locked Hl. destruct c; cbn in *.
    eapply wp_upd_state; [reflexivity|by rw E|]. split; [done|]. intros m2 Hm2.
    apply wp_ret. split_and!; [done| |done]. apply (rep_set_mx m1), (rep_set_mx m2) in Hc.
    rw (upd_sel_ext _ (put_cursor p (pos (sel_col a))) _ _ Hr); [|done]. rw E. exact Hc.
  - rw decide_False; [|intros Hp'; apply E; by rw (proj1 Hsel Hp')].
    apply wp_ret. split_and!; [done|done|]. split; [done|]. by destruct (mx c).
Qed.
End observers.
