(* ===== verification/LinkedListEdit.v ===== *)
(** * Insertion, removal, transfer and destruction

    The refinement lemmas of the operations of ll_alg.c that change the shape of
    the list or the store: [ll_add], [ll_new], [ll_del], [ll_mov], [ll_clr],
    [ll_init] and [ll_uninit]. *)
From S2P Require Import Prelude Memory Mutex LinkedList LinkedListSpec LinkedListProof.
Set Default Goal Selector "!".

Section change.
Context {A V : Type} `{AL : AllocatorLaws A}.
Abbreviation ctx := (ll_context A V).
Abbreviation item := (ll_item_hdr V).
Implicit Types (c : ctx) (a : alist V).

(** Every live item is of a size and at an address the heap knows. *)
Definition live_in (its : gmap Z item) (hp : A) : Prop :=
  forall p it, its !! p = Some it ->
    0 <= h_size it /\ h_size it + HDR < 2 ^ 32 /\ a_live hp !! p = Some (h_size it + HDR).

Lemma rep_live_in c a : ll_rep c a -> live_in (items c) (heap c).
Proof.
  intros Hr p it Hp. apply (rep_live _ _ Hr p (erase it)). by rw shape_lookup Hp.
Qed.

Lemma shape_Some (its : gmap Z item) p x :
  shape its !! p = Some x <-> exists it, its !! p = Some it /\ x = erase it.
Proof.
  rw shape_lookup fmap_Some. naive_solver.
Qed.

(** Replacing column [k] by [ac'], the store and the heap: the items outside
    both versions of the column are untouched. *)
Lemma rep_change c a k ac ac' its' hp' dat' :
  ll_rep c a -> a_cols a !! k = Some ac ->
  (forall q, q ∉ elems ac -> q ∉ elems ac' -> its' !! q = items c !! q) ->
  (forall q, q ∈ elems ac' -> q ∈ elems ac \/ items c !! q = None) ->
  (forall q, q ∈ elems ac -> q ∈ elems ac' \/ its' !! q = None) ->
  dll its' (owned (self c) k) 0 (elems ac') 0 -> NoDup (elems ac') -> cursor_ok ac' ->
  Z.of_nat (size its') < 2 ^ 32 -> a_ok hp' -> live_in its' hp' ->
  a_live hp' !! state_addr c = Some (ncol c * STATE_SIZE) -> its' !! state_addr c = None ->
  dat' = snd <$> shape its' ->
  ll_rep (set_states (<[k := state_of ac']> (states c)) (set_heap hp' (set_items its' c)))
    (mkAlist V (alter (fun _ => ac') k (a_cols a)) (a_sel a) dat').
Proof.
  intros Hr Hk Hf Hnew Hold Hd Hnd Hc Hsz Hok Hl Ha1 Ha2 Hdat.
  destruct (Hr) as [Ra Rself Rm Rcb Rn Rsm Rcc Rsel Rst Rcol Rh _ _ _ _ _].
  assert (forall q, is_Some (items c !! q) -> q ∉ elems ac -> q ∉ elems ac') as Hout.
  { intros q [it Hit] Hq Hq'. destruct (Hnew q Hq') as [?|E]; [done|]. by rw Hit in E. }
  split; cbn -[shape]; rw ?length_alter; try done.
  - rw Rst -list_fmap_insert. f_equal. apply list_eq. intros j.
    destruct (decide (j = k)) as [->|].
    + rw list_lookup_insert_eq; [|by eapply lookup_lt_Some]. by rw list_lookup_alter_eq Hk.
    + rw list_lookup_insert_ne // list_lookup_alter_ne //.
  - intros j aj. destruct (decide (j = k)) as [->|Hne].
    + rw list_lookup_alter_eq Hk /=. by intros [= <-].
    + rw list_lookup_alter_ne //. intros Hj. destruct (Rcol j aj Hj) as (Dj & Nj & Cj).
      split_and!; [|done|done]. eapply dll_frame; [|exact Dj]. intros q Hq.
      destruct (rep_elem _ _ _ _ _ Hr Hj Hq) as (it & Hit & _).
      assert (q ∉ elems ac) as Hq' by (intros Hq'; by eapply Hne, rep_disjoint).
      apply Hf; [done|]. apply Hout; [by rw Hit|done].
  - intros p x (it & Hp & ->)%shape_Some. destruct (decide (p ∈ elems ac')) as [Hin|Hin].
    + destruct (dll_elem _ _ _ _ _ _ Hd Hin) as (it' & Hit' & [_ Hcol]).
      rw Hp in Hit'. injection Hit' as <-.
      exists k, ac'. by rw list_lookup_alter_eq Hk.
    + destruct (decide (p ∈ elems ac)) as [Hin'|Hin'].
      { destruct (Hold p Hin') as [?|E]; [done|]. by rw Hp in E. }
      rw Hf // in Hp. destruct (Rh p (erase it)) as (j & aj & Hx & Hj & Hpj).
      { apply shape_Some. by eexists. }
      exists j, aj. split_and!; [done| |done]. rw list_lookup_alter_ne; [done|].
      intros ->. rw Hk in Hj. by injection Hj as ->.
  - intros p x (it & Hp & ->)%shape_Some. by apply Hl.
Qed.

Lemma size_data c a : ll_rep c a -> size (a_data a) = size (items c).
Proof. intros Hr. by rw (rep_data _ _ Hr) map_size_fmap /shape map_size_fmap. Qed.

Lemma data_None c a p : ll_rep c a -> a_data a !! p = None <-> items c !! p = None.
Proof. intros Hr. by rw (rep_data _ _ Hr) lookup_fmap shape_lookup !fmap_None. Qed.
End change.

Section add.
Context {A V : Type} `{AL : AllocatorLaws A}.
Abbreviation ctx := (ll_context A V).
Abbreviation item := (ll_item_hdr V).
Implicit Types (c : ctx) (a : alist V).

(** Allocation failed and nothing changed, or a fresh record was appended;
    the heap gained at most that record's block. *)
Definition add_post (h : Z) (c : ctx) (size : Z) (v : V) (a : alist V) (r : Z) (c' : ctx) : Prop :=
  state_addr c' = state_addr c /\
  (outcome h (mx c) 0 a r c' /\ a_live (heap c') = a_live (heap c) \/
   exists p, 0 < p /\ a_data a !! p = None /\ a_live (heap c) !! p = None /\
     outcome h (mx c) (p + HDR) (a_add p size v a) r c' /\
     a_live (heap c') = <[p := size + HDR]> (a_live (heap c))).

(** The store after [link_last] on a fresh item [p]. *)
Definition linked_store (slf sz cc p lst : Z) (v : V) (its : gmap Z item) : gmap Z item :=
  <[p := mkItem V slf sz cc lst 0 v]> (relink_next lst p its).

Lemma rep_append c a p sz v hp' :
  ll_rep c a -> 0 < p -> items c !! p = None -> a_live (heap c) !! p = None ->
  a_ok hp' -> a_live hp' = <[p := sz + HDR]> (a_live (heap c)) ->
  0 <= sz -> sz + HDR < 2 ^ 32 -> Z.of_nat (size (a_data a)) + 1 < 2 ^ 32 ->
  ll_rep (set_states (<[a_sel a := state_of (append p (sel_col a))]> (states c))
      (set_heap hp' (set_items (linked_store (self c) sz (ccol c) p
        (last_or 0 (elems (sel_col a))) v (items c)) c)))
    (a_add p sz v a).
Proof.
  intros Hr Hp Hf Hlv Hok Hlive Hsz Hsz2 Hcnt.
  pose proof (rep_selected _ _ Hr) as Hs. pose proof (rep_nonzero _ _ _ _ Hr Hs) as H0.
  pose proof (rep_ccol _ _ Hr) as Hcc. destruct (rep_col _ _ Hr _ _ Hs) as (Hd & Hnd & _).
  set (ac := sel_col a) in *. set (its' := linked_store _ _ _ _ _ _ _).
  assert (p ∉ elems ac) as Hpn.
  { intros Hin. destruct (rep_elem _ _ _ _ _ Hr Hs Hin) as (it & Hit & _). by rw Hf in Hit. }
  assert (p <> last_or 0 (elems ac)) as Hpl.
  { intros ->. destruct (decide (elems ac = [])) as [E|E]; [rw E in Hp; done|].
    by apply Hpn, last_or_elem. }
  assert (shape its' = <[p := (self c, ccol c, (sz, v))]> (shape (items c))) as Hsh.
  { unfold its', linked_store, shape. rw fmap_insert. f_equal. apply shape_relink_next. }
  assert (items c !! state_addr c = None /\ a_live (heap c) !! state_addr c = Some (ncol c * STATE_SIZE))
    as [Ha1 Ha2] by by destruct (rep_array _ _ Hr).
  assert (p <> state_addr c) as Hpa by (intros ->; by rw Hlv in Ha2).
  assert (forall q it, its' !! q = Some it -> q = p /\ h_size it = sz \/
    q <> p /\ exists it0, items c !! q = Some it0 /\ h_size it0 = h_size it) as Hits.
  { intros q it Hq. assert (shape its' !! q = Some (erase it)) as Hq' by (apply shape_Some; eauto).
    rw Hsh lookup_insert in Hq'. case_decide as E.
    - left. injection Hq'; intros; subst. by split.
    - right. split; [done|]. apply shape_Some in Hq' as (it0 & H1 & H2). exists it0.
      split; [done|]. unfold erase in H2. congruence. }
  unfold a_add. assert (alter (append p) (a_sel a) (a_cols a) =
    alter (fun _ => append p ac) (a_sel a) (a_cols a)) as ->.
  { pose proof (on_col_const (a_sel a) (append p) _ _ Hs) as E. by injection E. }
  apply (rep_change _ _ _ ac); try done.
  - intros q Hq1 Hq2. cbn in Hq2. apply not_elem_of_app in Hq2 as [_ Hq2].
    unfold its', linked_store. rw lookup_insert_ne; [|intros ->; apply Hq2; by left].
    unfold relink_next. destruct (Z.eqb_spec (last_or 0 (elems ac)) 0) as [_|Hl0]; [done|].
    rw lookup_alter_ne //. intros E. apply Hq1. rw -E. apply last_or_elem.
    by intros El; rw El in Hl0.
  - cbn. intros q [Hq|Hq]%elem_of_app; [by left|right]. apply list_elem_of_singleton in Hq as ->. done.
  - intros q Hq. left. cbn. apply elem_of_app. by left.
  - apply (dll_append _ (owned_next _ _)); try done.
  - cbn. apply NoDup_app. split_and!; [done| |apply NoDup_singleton].
    intros q Hq ->%list_elem_of_singleton. done.
  - left. cbn. apply elem_of_app. right. by left.
  - rw -(map_size_fmap erase) -/(shape its') Hsh map_size_insert_None; [|by rw shape_lookup Hf].
    rw /shape map_size_fmap -(size_data _ _ Hr). lia.
  - intros q it Hq. rw Hlive lookup_insert. destruct (Hits q it Hq) as [[-> ->]|(Hne & it0 & Hq0 & <-)].
    + by rw decide_True.
    + rw decide_False //. by eapply rep_live_in.
  - by rw Hlive lookup_insert_ne.
  - destruct (its' !! state_addr c) as [it|] eqn:E; [|done].
    destruct (Hits _ _ E) as [[E1 _]|(_ & it0 & E1 & _)]; [by destruct Hpa|]. by rw Ha1 in E1.
  - rw Hsh fmap_insert (rep_data _ _ Hr) //.
Qed.

Lemma append_state p (ac : acol) :
  0 ∉ elems ac -> Z.of_nat (length (elems ac)) + 1 < 2 ^ 32 ->
  state_of (append p ac) =
  st_count (u32 (Z.of_nat (length (elems ac)) + 1)) (st_index (Z.of_nat (length (elems ac)))
    ((if hd_or 0 (elems ac) =? 0 then st_first p else id) (st_last p (st_cur p (state_of ac))))).
Proof.
  intros H0 Hlen. unfold state_of, append. cbn. rw last_or_snoc length_app Nat2Z.inj_add u32_small; [|lia].
  destruct (elems ac) as [|x l]; [done|]. cbn [hd_or app].
  destruct (Z.eqb_spec x 0) as [->|]; [by destruct H0; left|]. done.
Qed.

(** The statements between lock and unlock, on a fresh item. *)
Lemma wp_link_last c a p sz v hp' m (Q : unit -> ctx -> Prop) :
  ll_rep c a -> 0 < p -> items c !! p = None ->
  (let l := elems (sel_col a) in
   Q tt (set_mx m (set_states (<[a_sel a := state_of (append p (sel_col a))]> (states c))
      (set_heap hp' (set_items (linked_store (self c) sz (ccol c) p (last_or 0 l) v (items c)) c))))) ->
  Z.of_nat (size (a_data a)) + 1 < 2 ^ 32 ->
  wp (link_last p) (set_mx m (set_heap hp'
     (set_items (<[p := mkItem V (self c) sz (ccol c) 0 0 v]> (items c)) c))) Q.
Proof.
  cbn zeta. intros Hr Hp Hf HQ Hcnt. ll_open Hr. pose proof (rep_nonzero _ _ _ _ Hr Hs) as H0.
  pose proof (rep_mode _ _ Hr) as Hmd. pose proof (rep_length _ _ _ _ Hr Hs) as Hlen.
  assert (Z.of_nat (length (elems (sel_col a))) + 1 < 2 ^ 32) as Hlen'.
  { rw (size_data _ _ Hr) in Hcnt. destruct (rep_col _ _ Hr _ _ Hs) as (_ & Hnd & _).
    assert (length (elems (sel_col a)) <= size (items c))%nat; [|lia].
    apply elems_bound; [done|]. intros q Hq.
    destruct (rep_elem _ _ _ _ _ Hr Hs Hq) as (it & -> & _). by eexists. }
  assert (last_or 0 (elems (sel_col a)) <> 0 ->
    is_Some (items c !! last_or 0 (elems (sel_col a)))) as Hlast.
  { intros Hne. destruct (rep_elem c a (a_sel a) (sel_col a) (last_or 0 (elems (sel_col a))))
      as (it & -> & _); [done..| |by eexists]. apply last_or_elem. by intros E; rw E in Hne. }
  set (ac := sel_col a) in *. clearbody ac. destruct c; cbn -[Z.mul Z.add] in *. subst mode.
  unfold linked_store in HQ.
  assert (last_or 0 (elems ac) <> p) as Hlp.
  { intros E. destruct Hlast as [? Hl]; [lia|]. rw E Hf in Hl. done. }
  unfold link_last. ll_access. apply wp_bind.
  apply wp_relink_next.
  { intros Hl. rw lookup_insert_ne; [|done]. by apply Hlast. }
  assert (forall x y, relink_next (last_or 0 (elems ac)) x (<[p := y]> items) =
    <[p := y]> (relink_next (last_or 0 (elems ac)) x items)) as Hcomm.
  { intros x y. unfold relink_next. destruct (last_or 0 (elems ac) =? 0); [done|].
    by apply alter_insert_ne. }
  cbn. rw Hcomm. clear Hcomm.
  apply wp_bind. eapply wp_store; [apply lookup_insert_eq|]. rw insert_insert_eq.
  ll_access. cbn. apply wp_bind. eapply wp_store; [apply lookup_insert_eq|]. rw insert_insert_eq.
  ll_access. cbn.
  apply wp_bind. apply wp_when; intros Hz.
  all: ll_steps; rw append_state // Hz // in HQ.
Qed.

Lemma add_block_refines c a v sz h :
  ll_rep c a -> may_lock (mx c) h ->
  0 <= sz -> sz + HDR < 2 ^ 32 -> Z.of_nat (size (a_data a)) + 1 < 2 ^ 32 ->
  wp (p ← do_alloc (u32 (sz + HDR));
      if p =? 0 then mret 0 else
        new_item p sz v;; locked h (fun _ => link_last p);; mret (p + HDR))
    c (add_post h c sz v a).
Proof.
  intros Hr Hl Hsz Hsz2 Hcnt. rw u32_small; [|unfold HDR in *; lia].
  destruct (rep_cbs _ _ Hr) as [Hpa _]. apply wp_bind, wp_bind, wp_gets. rw Hpa.
  destruct (alloc_law (heap c) (sz + HDR)) as [Hok Hcase].
  { apply (rep_heap _ _ Hr). } { unfold HDR. lia. }
  apply wp_intro with (a := (a_alloc (heap c) (sz + HDR)).1)
    (s' := set_heap (a_alloc (heap c) (sz + HDR)).2 c).
  { unfold alloc. by destruct (a_alloc _ _). }
  destruct Hcase as [[-> Hlive]|(Hp & Hnone & Hlive)].
  - simpl. apply wp_ret. split; [done|]. left. split; [|done]. split_and!; [done| |].
    + destruct Hr. split; try done; cbn; by rw Hlive.
    + by apply lock_post_refl.
  - set (p := (a_alloc (heap c) (sz + HDR)).1) in *.
    set (hp' := (a_alloc (heap c) (sz + HDR)).2) in *. clearbody p hp'.
    destruct (Z.eqb_spec p 0); [lia|].
    assert (items c !! p = None) as Hf.
    { destruct (items c !! p) as [it|] eqn:E; [|done].
      destruct (rep_live_in _ _ Hr p it E) as (_ & _ & E'). by rw Hnone in E'. }
    apply wp_bind, wp_modify, wp_bind. cbn beta.
    match goal with |- wp _ ?x _ =>
      change x with (set_heap hp' (set_items (<[p := mkItem V (self c) sz (ccol c) 0 0 v]> (items c)) c)) end.
    ll_locked Hl. apply wp_link_last with (a := a); try done. cbn zeta.
    pose proof (rep_append c a p sz v hp' Hr Hp Hf Hnone Hok Hlive Hsz Hsz2 Hcnt) as Hr'.
    split; [done|]. intros m2 Hm2. apply wp_ret. split; [by destruct c|]. right. exists p.
    split_and!; [done|by apply (data_None _ _ _ Hr)|done| |by destruct c].
    split; [done|split; [|by destruct c]].
    apply (rep_set_mx m2). by apply (rep_set_mx m1).
Qed.

Lemma ll_add_refines c a v sz h :
  ll_rep c a -> may_lock (mx c) h ->
  0 <= sz -> sz + HDR < 2 ^ 32 -> Z.of_nat (size (a_data a)) + 1 < 2 ^ 32 ->
  wp (ll_add v sz h) c (add_post h c sz v a).
Proof. apply add_block_refines. Qed.

Lemma ll_new_refines c a blank sz h :
  ll_rep c a -> may_lock (mx c) h ->
  0 <= sz -> sz + HDR < 2 ^ 32 -> Z.of_nat (size (a_data a)) + 1 < 2 ^ 32 ->
  wp (ll_new blank sz h) c (add_post h c sz blank a).
Proof. apply add_block_refines. Qed.
End add.

Section del.
Context {A V : Type} `{AL : AllocatorLaws A}.
Abbreviation ctx := (ll_context A V).
Abbreviation item := (ll_item_hdr V).
Implicit Types (c : ctx) (a : alist V).

(** Both neighbours of a record bypass it. *)
Definition bypass (pv nx : Z) (its : gmap Z item) : gmap Z item :=
  relink_prev nx pv (relink_next pv nx its).

Lemma shape_bypass pv nx its : shape (bypass pv nx its) = shape its.
Proof. unfold bypass. by rw shape_relink_prev shape_relink_next. Qed.

Lemma bypass_ne pv nx its q : q <> pv -> q <> nx -> bypass pv nx its !! q = its !! q.
Proof. intros. unfold bypass. by rw lookup_relink_prev_ne // lookup_relink_next_ne. Qed.

(** A segment that avoids both neighbours of the record keeps its links. *)
Lemma rep_remove c a k ac l1 p l2 it ac' :
  ll_rep c a -> a_cols a !! k = Some ac -> elems ac = l1 ++ p :: l2 ->
  items c !! p = Some it -> elems ac' = l1 ++ l2 -> cursor_ok ac' ->
  ll_rep (set_states (<[k := state_of ac']> (states c))
    (set_heap (a_free (heap c) p (h_size it + HDR))
      (set_items (delete p (bypass (last_or 0 l1) (hd_or 0 l2) (items c))) c)))
    (mkAlist V (alter (fun _ => ac') k (a_cols a)) (a_sel a) (delete p (a_data a))).
Proof.
  intros Hr Hk El Hit El' Hc. pose proof (rep_nonzero _ _ _ _ Hr Hk) as H0.
  destruct (rep_col _ _ Hr _ _ Hk) as (Hd & Hnd & _). rw El in Hd, Hnd, H0.
  destruct (rep_live_in _ _ Hr p it Hit) as (Hsz & Hsz2 & Hlv).
  destruct (free_law (heap c) p _ (rep_heap _ _ Hr) Hlv) as [Hok Hlive].
  destruct (rep_array _ _ Hr) as [Ha1 Ha2].
  assert (p <> state_addr c) as Hpa by (intros ->; by rw Ha2 in Hit).
  pose proof (shape_bypass (last_or 0 l1) (hd_or 0 l2) (items c)) as Hsh.
  set (its' := bypass _ _ _) in *.
  assert (forall q it', its' !! q = Some it' -> exists it0, items c !! q = Some it0 /\
    h_size it0 = h_size it') as Hits.
  { intros q it' Hq. assert (shape its' !! q = Some (erase it')) as Hq' by (apply shape_Some; eauto).
    rw Hsh in Hq'. apply shape_Some in Hq' as (it0 & H1 & H2). exists it0.
    split; [done|]. unfold erase in H2. congruence. }
  assert (p ∉ l1 ++ l2) as Hpn.
  { apply NoDup_app in Hnd as (_ & Hn & [H1 H2]%NoDup_cons). intros [Hq|Hq]%elem_of_app; [|done].
    apply (Hn p Hq). by left. }
  apply (rep_change _ _ _ ac); try done.
  - intros q Hq _. rw El in Hq. apply not_elem_of_app in Hq as [Hq1 [Hqp Hq2]%not_elem_of_cons].
    rw lookup_delete_ne //. unfold its', bypass, relink_prev, relink_next.
    destruct (Z.eqb_spec (last_or 0 l1) 0), (Z.eqb_spec (hd_or 0 l2) 0); rw ?lookup_alter_ne //.
    all: intros E; rw -E in Hq1, Hq2.
    all: first [by apply Hq1, last_or_elem; intros El1; rw El1 in n|by apply Hq2, hd_or_elem].
  - intros q. rw El El' !elem_of_app elem_of_cons. tauto.
  - intros q. rw El El' !elem_of_app elem_of_cons. intros [?|[->|?]]; [tauto| |tauto].
    right. apply lookup_delete_eq.
  - rw El'. apply dll_delete_ne; [done|]. by apply (dll_unlink _ (owned_next _ _) (owned_prev _ _) _ _ p).
  - rw El'. apply NoDup_app in Hnd as (? & Hn & [? ?]%NoDup_cons). apply NoDup_app.
    split_and!; try done. intros x Hx Hx'. apply (Hn x Hx). by right.
  - assert (size (delete p its') <= size its')%nat as Hle.
    { apply map_subseteq_size, delete_subseteq. }
    rw (shape_size _ _ Hsh) in Hle. pose proof (rep_count _ _ Hr). lia.
  - intros q it' Hq. apply lookup_delete_Some in Hq as [Hne Hq].
    destruct (Hits _ _ Hq) as (it0 & Hq0 & <-). rw Hlive lookup_delete_ne //. by eapply rep_live_in.
  - by rw Hlive lookup_delete_ne.
  - rw lookup_delete_ne //. destruct (its' !! state_addr c) as [it'|] eqn:E; [|done].
    destruct (Hits _ _ E) as (it0 & Hq0 & _). by rw Ha2 in Hq0.
  - unfold shape. rw !fmap_delete -/(shape its') Hsh (rep_data _ _ Hr) //.
Qed.

Lemma drop_cursor_split (ac : acol) l1 l2 :
  NoDup (elems ac) -> 0 ∉ elems ac -> elems ac = l1 ++ cursor ac :: l2 ->
  drop_cursor ac = mkCol (l1 ++ l2) (if hd_or 0 l2 =? 0 then last_or 0 l1 else hd_or 0 l2)
    (if hd_or 0 l2 =? 0 then u32 (pos ac - 1) else pos ac) /\
  cursor_ok (drop_cursor ac).
Proof.
  intros Hnd H0 E. unfold drop_cursor. rw E in Hnd, H0 |- *.
  rw after_split // before_split // without_split //. split; [done|].
  apply not_elem_of_app in H0 as [H1 [_ H2]%not_elem_of_cons].
  unfold cursor_ok. cbn. destruct l2 as [|y l2]; cbn.
  - destruct (decide (l1 = [])) as [->|Hl]; [by right|]. left. rw app_nil_r. by apply last_or_elem.
  - destruct (Z.eqb_spec y 0) as [->|]; [by destruct H2; left|]. left.
    apply elem_of_app. right. by left.
Qed.

Lemma ends_split l1 p l2 :
  NoDup (l1 ++ p :: l2) -> 0 ∉ l1 ++ p :: l2 ->
  (p =? hd_or 0 (l1 ++ p :: l2)) = (last_or 0 l1 =? 0) /\
  (p =? last_or 0 (l1 ++ p :: l2)) = (hd_or 0 l2 =? 0) /\
  p <> last_or 0 l1 /\ p <> hd_or 0 l2 /\
  (last_or 0 l1 <> 0 -> last_or 0 l1 ∈ l1) /\ (hd_or 0 l2 <> 0 -> hd_or 0 l2 ∈ l2).
Proof.
  intros (_ & Hn & [H1 H2]%NoDup_cons)%NoDup_app [H3 [H4 H5]%not_elem_of_cons]%not_elem_of_app.
  assert (last_or 0 l1 <> 0 -> last_or 0 l1 ∈ l1) as Hlast.
  { intros Hne. apply last_or_elem. by intros ->. }
  assert (hd_or 0 l2 <> 0 -> hd_or 0 l2 ∈ l2) as Hhd by apply hd_or_elem.
  assert (p <> last_or 0 l1) as Hpv.
  { intros E. apply (Hn p); [|by left]. rw E. apply Hlast. congruence. }
  assert (p <> hd_or 0 l2) as Hnx.
  { intros E. apply H1. rw E. apply Hhd. congruence. }
  split_and!; try done.
  - destruct l1 as [|x l1]; simpl; [by rw Z.eqb_refl|].
    destruct (Z.eqb_spec p x) as [->|_]; [by destruct (Hn x); left|].
    destruct (Z.eqb_spec (last_or x l1) 0) as [E|_]; [|done].
    destruct H3. rw -E. by apply (last_or_elem 0 (x :: l1)).
  - rw last_or_app. cbn [last_or]. destruct l2 as [|x l2]; [by rw !Z.eqb_refl|]. simpl.
    destruct (Z.eqb_spec x 0) as [->|_]; [by destruct H5; left|].
    destruct (Z.eqb_spec p (last_or x l2)) as [E|_]; [|done].
    destruct H1. rw E. by apply (last_or_elem 0 (x :: l2)).
Qed.

(** Everything the code can read about a record of a column. *)
Lemma rep_at c a k ac p :
  ll_rep c a -> a_cols a !! k = Some ac -> p ∈ elems ac ->
  exists it l1 l2, let pv := last_or 0 l1 in let nx := hd_or 0 l2 in
    elems ac = l1 ++ p :: l2 /\ items c !! p = Some it /\ owned (self c) k it /\
    h_prev it = pv /\ h_next it = nx /\
    (0 <= h_size it /\ h_size it + HDR < 2 ^ 32 /\ a_live (heap c) !! p = Some (h_size it + HDR)) /\
    (pv <> 0 -> is_Some (items c !! pv)) /\ (nx <> 0 -> is_Some (items c !! nx)) /\
    (p =? hd_or 0 (elems ac)) = (pv =? 0) /\ (p =? last_or 0 (elems ac)) = (nx =? 0) /\
    p <> pv /\ p <> nx /\ 0 < p /\ NoDup (elems ac) /\ (0 ∉ elems ac) /\
    Z.of_nat (length (elems ac)) < 2 ^ 32.
Proof.
  intros Hr Hk Hp. destruct (rep_neighbours _ _ _ _ _ Hr Hk Hp)
    as (it & l1 & l2 & El & Hit & Ho & Hpr & Hnx & _).
  pose proof (rep_nonzero _ _ _ _ Hr Hk) as H0. destruct (rep_col _ _ Hr _ _ Hk) as (_ & Hnd & _).
  assert (forall q, q ∈ elems ac -> is_Some (items c !! q)) as Hsome.
  { intros q Hq. destruct (rep_elem _ _ _ _ _ Hr Hk Hq) as (i & -> & _). by eexists. }
  rw El in Hnd, H0. destruct (ends_split _ _ _ Hnd H0) as (Ef & Ela & Hpv & Hpn & Hl & Hh).
  destruct (rep_live_in _ _ Hr p it Hit) as (? & ? & ?).
  exists it, l1, l2. cbn zeta. rw -El in Ef, Ela, Hnd, H0. split_and!; try done.
  - intros Hn. apply Hsome. rw El. apply elem_of_app. left. by apply Hl.
  - intros Hn. apply Hsome. rw El. apply elem_of_app. right. right. by apply Hh.
  - by eapply rep_item_pos.
  - by eapply rep_length.
Qed.

Lemma del_state (ac : acol) l1 l2 (s1 s2 s3 : ll_state) :
  NoDup (elems ac) -> 0 ∉ elems ac -> elems ac = l1 ++ cursor ac :: l2 ->
  Z.of_nat (length (elems ac)) < 2 ^ 32 ->
  let pv := last_or 0 l1 in let nx := hd_or 0 l2 in
  s1 = st_cur (if nx =? 0 then pv else nx) (state_of ac) ->
  s2 = (if pv =? 0 then st_cur nx (st_first nx s1) else s1) ->
  s3 = (if nx =? 0 then st_index (u32 (current s2 - 1)) (st_cur pv (st_last pv s2)) else s2) ->
  st_count (u32 (count s3 - 1)) s3 = state_of (drop_cursor ac).
Proof.
  intros Hnd H0 E Hlen pv nx -> -> ->. destruct (drop_cursor_split _ _ _ Hnd H0 E) as [-> _].
  rw E in Hnd, H0, Hlen. unfold state_of. rw E. subst pv nx. cbn.
  assert (forall n, n = length (l1 ++ l2) ->
    u32 (Z.of_nat (length (l1 ++ cursor ac :: l2)) - 1) = Z.of_nat n) as Hc.
  { intros n ->. rw u32_small; rw !length_app in Hlen |- *; cbn [length] in *; lia. }
  rw !last_or_app !hd_or_app. cbn [last_or hd_or].
  apply not_elem_of_app in H0 as [H1 [_ H2]%not_elem_of_cons].
  destruct (decide (l1 = [])) as [->|(l1' & x & ->)%exists_last].
  - destruct l2 as [|y l2]; cbn [hd_or last_or]; cbn -[length u32]; [by rw (Hc 0%nat)|].
    destruct (Z.eqb_spec y 0) as [->|]; [by destruct H2; left|]. cbn -[length u32].
    by rw (Hc (length (y :: l2))).
  - rw !last_or_snoc. destruct (Z.eqb_spec x 0) as [->|].
    { destruct H1. apply elem_of_app. right. by left. }
    rw !hd_or_app. cbn [hd_or].
    destruct l2 as [|y l2]; cbn -[length u32]; [by rw (Hc (length ((l1' ++ [x]) ++ [])))|].
    destruct (Z.eqb_spec y 0) as [->|]; [by destruct H2; left|]. cbn -[length u32].
    by rw (Hc (length ((l1' ++ [x]) ++ y :: l2))).
Qed.

Lemma ll_del_refines c a h :
  ll_rep c a -> may_lock (mx c) h ->
  wp (ll_del h) c (fun r c' => outcome h (mx c) tt (a_del a) r c' /\
    state_addr c' = state_addr c /\ forall p, p ∉ elems (sel_col a) ->
      a_live (heap c') !! p = a_live (heap c) !! p).
Proof.
  intros Hr Hl. ll_open Hr. ll_locked Hl. unfold a_del.
  destruct (rep_cursor_cases _ _ Hr) as [[E1 E2]|[Hpos Hin]].
  - rw E1. pose proof (finish_same c a tt h m1 Hr) as Hf.
    destruct c; cbn in *. ll_access. cbn. ll_access. cbn. rw E1. apply wp_ret.
    destruct Hf as [Hf1 Hf2]. split; [done|]. intros m2 Hm2. split; [by apply Hf2|done].
  - set (p := cursor (sel_col a)) in *. destruct (Z.eqb_spec p 0) as [|_]; [lia|].
    destruct (rep_at _ _ _ _ _ Hr Hs Hin) as (it & l1 & l2 & El & Hit & _ & Hpr & Hnx &
      (Hsz & Hsz2 & Hlv) & Hspv & Hsnx & Ef & Ela & Hpv & Hpn & _ & Hnd & H0 & Hlen).
    destruct (drop_cursor_split _ _ _ Hnd H0 El) as [Edrop Hcok].
    pose proof (rep_remove _ _ _ _ _ _ _ _ (drop_cursor (sel_col a)) Hr Hs El Hit (f_equal elems Edrop) Hcok) as Hr'.
    pose proof (on_col_const _ drop_cursor _ _ Hs) as Hcol. injection Hcol as Hcol.
    rw -Hcol in Hr'. clear Hcol.
    pose proof (fun s1 s2 s3 => del_state _ _ _ s1 s2 s3 Hnd H0 El Hlen) as Hst'. cbn zeta in Hst'.
    pose proof (rep_mode _ _ Hr) as Hmd. destruct (rep_cbs _ _ Hr) as [_ Hpf].
    destruct (free_law (heap c) p _ (rep_heap _ _ Hr) Hlv) as [_ Hlive].
    set (pv := last_or 0 l1) in *. set (nx := hd_or 0 l2) in *.
    set (ac := sel_col a) in *. clearbody pv nx.
    destruct c; cbn -[Z.mul Z.add] in *. subst mode p_free.
    ll_access. cbn. ll_access. cbn. fold p. destruct (Z.eqb_spec p 0) as [|_]; [lia|]. cbn.
    ll_access. cbn. rw Hpr Hnx. apply wp_bind.
    (* prev->next = next *)
    eapply wp_mono with (Q := fun _ s => s = mkContext A V self LL_MODE_VECTOR ncol ccol addr_limit p_alloc true
      state_addr states (relink_next pv nx items) heap m1).
    { unfold relink_next. destruct (Z.eqb_spec pv 0); [done|]. destruct (Hspv n) as [i Hi]. cbn.
      ll_access. rw Hnx. eapply wp_store; [done|]. by rw (alter_Some _ _ _ i). }
    intros _ s ->. apply wp_bind.
    assert (relink_next pv nx items !! p = Some it) as Hit1 by by rw lookup_relink_next_ne.
    (* next->prev = prev, the cursor *)
    eapply wp_mono with (Q := fun _ s => s = mkContext A V self LL_MODE_VECTOR ncol ccol addr_limit p_alloc true
      state_addr (<[a_sel a := st_cur (if nx =? 0 then pv else nx) (state_of ac)]> states)
      (bypass pv nx items) heap m1).
    { unfold bypass, relink_prev. destruct (Z.eqb_spec nx 0); cbn.
      - by ll_steps.
      - destruct (relink_next_is_Some pv nx items nx (Hsnx n)) as [i Hi].
        ll_access. rw Hpr. apply wp_bind. eapply wp_store; [done|]. rw -(alter_Some _ _ _ i Hi).
        by ll_steps. }
    intros _ s ->. assert (bypass pv nx items !! p = Some it) as Hit2 by by rw bypass_ne.
    ll_access. cbn. ll_access. cbn. rw Ef.
    apply wp_bind.
    eapply wp_mono with (Q := fun _ s => s = mkContext A V self LL_MODE_VECTOR ncol ccol addr_limit p_alloc true
      state_addr (<[a_sel a := (let s1 := st_cur (if nx =? 0 then pv else nx) (state_of ac) in
        if pv =? 0 then st_cur nx (st_first nx s1) else s1)]> states)
      (bypass pv nx items) heap m1).
    { destruct (pv =? 0); cbn [when]; ll_steps; done. }
    intros _ s ->. ll_access. cbn.
    match goal with |- context [p_last ?s] => replace (p_last s) with (last_or 0 (elems ac)) by by destruct (pv =? 0) end.
    rw Ela. apply wp_bind.
    eapply wp_mono with (Q := fun _ s => s = mkContext A V self LL_MODE_VECTOR ncol ccol addr_limit p_alloc true
      state_addr (<[a_sel a := (let s1 := st_cur (if nx =? 0 then pv else nx) (state_of ac) in
        let s2 := if pv =? 0 then st_cur nx (st_first nx s1) else s1 in
        if nx =? 0 then st_index (u32 (current s2 - 1)) (st_cur pv (st_last pv s2)) else s2)]> states)
      (bypass pv nx items) heap m1).
    { destruct (nx =? 0); cbn [when]; ll_steps; done. }
    intros _ s ->. apply wp_bind. eapply wp_store; [done|].
    ll_access. rw (Hst' _ _ _ eq_refl eq_refl eq_refl).
    apply wp_bind. eapply wp_load; [apply lookup_insert_eq|]. cbn -[Z.mul Z.add].
    rw u32_small; [|unfold HDR in *; lia]. eapply wp_free; [done|].
    rw delete_insert_eq. split; [done|]. intros m2 Hm2. split.
    2:{ split; [done|]. intros q Hq. cbn. rw Hlive lookup_delete_ne //. intros <-. by apply Hq. }
    split_and!; [done| |done]. apply (rep_set_mx m2). apply (rep_set_mx m1) in Hr'. exact Hr'.
Qed.
End del.

Section mov.
Context {A V : Type} `{AL : AllocatorLaws A}.
Abbreviation ctx := (ll_context A V).
Abbreviation item := (ll_item_hdr V).
Implicit Types (c : ctx) (a : alist V).

(** The store after moving item [p] to the end of column [k]. *)
Definition moved_store (slf k p lst pv nx : Z) (it : item) (its : gmap Z item) : gmap Z item :=
  <[p := mkItem V slf (h_size it) k lst 0 (h_data it)]> (relink_next lst p (bypass pv nx its)).

Lemma shape_moved slf k p lst pv nx it its :
  shape (moved_store slf k p lst pv nx it its) =
    <[p := (slf, k, (h_size it, h_data it))]> (shape its).
Proof.
  unfold moved_store. rw {1}/shape fmap_insert -/(shape (relink_next lst p (bypass pv nx its))).
  by rw shape_relink_next shape_bypass.
Qed.

Lemma moved_frame c a j k aj ak l1 p l2 it q :
  ll_rep c a -> a_cols a !! j = Some aj -> a_cols a !! k = Some ak ->
  elems aj = l1 ++ p :: l2 -> q ∉ elems aj -> q ∉ elems ak ->
  moved_store (self c) (Z.of_nat k) p (last_or 0 (elems ak)) (last_or 0 l1) (hd_or 0 l2) it (items c) !! q
    = items c !! q.
Proof.
  intros Hr Hj Hk El Hq Hq'. destruct (decide (q = 0)) as [->|Hq0].
  { assert (items c !! 0 = None) as E0.
    { destruct (items c !! 0) eqn:E; [|done]. by apply (rep_item_pos _ _ _ _ Hr) in E. }
    rw E0. apply fmap_None with (f := erase). rw -shape_lookup shape_moved lookup_insert_ne.
    - by rw shape_lookup E0.
    - intros ->. apply Hq. rw El. apply elem_of_app. right. by left. }
  rw El in Hq. apply not_elem_of_app in Hq as [Hq1 [Hqp Hq2]%not_elem_of_cons].
  assert (forall l, q ∉ l -> q <> last_or 0 l) as Hl.
  { intros l Hql ->. apply Hql, last_or_elem. by intros ->. }
  assert (forall l, q ∉ l -> q <> hd_or 0 l) as Hh.
  { intros l Hql ->. by apply Hql, hd_or_elem. }
  unfold moved_store. rw lookup_insert_ne // lookup_relink_next_ne; [|by apply Hl].
  by rw bypass_ne; [|apply Hl|apply Hh].
Qed.

Lemma moved_cols c a j k aj ak l1 p l2 it :
  ll_rep c a -> a_cols a !! j = Some aj -> a_cols a !! k = Some ak -> j <> k ->
  elems aj = l1 ++ p :: l2 -> items c !! p = Some it ->
  let its' := moved_store (self c) (Z.of_nat k) p (last_or 0 (elems ak)) (last_or 0 l1)
        (hd_or 0 l2) it (items c) in
  dll its' (owned (self c) j) 0 (l1 ++ l2) 0 /\ NoDup (l1 ++ l2) /\
  dll its' (owned (self c) k) 0 (elems ak ++ [p]) 0 /\ NoDup (elems ak ++ [p]) /\
  p ∉ l1 ++ l2.
Proof.
  intros Hr Hj Hk Hjk El Hit its'.
  pose proof (rep_nonzero _ _ _ _ Hr Hj) as H0j. pose proof (rep_nonzero _ _ _ _ Hr Hk) as H0k.
  destruct (rep_col _ _ Hr _ _ Hj) as (Hdj & Hndj & _).
  destruct (rep_col _ _ Hr _ _ Hk) as (Hdk & Hndk & _).
  assert (forall q, q ∈ elems aj -> q ∉ elems ak) as Hdis.
  { intros q Hq Hq'. by eapply Hjk, rep_disjoint. }
  rw El in Hdis, Hdj, Hndj, H0j.
  assert ((p ∉ l1 ++ l2) /\ NoDup (l1 ++ l2)) as [Hp12 Hnd12].
  { apply NoDup_app in Hndj as (? & Hn & [? ?]%NoDup_cons). split.
    - intros [Hq|Hq]%elem_of_app; [|done]. apply (Hn p Hq). by left.
    - apply NoDup_app. split_and!; try done. intros x Hx Hx'. apply (Hn x Hx). by right. }
  assert (p ∉ elems ak) as Hpk by (apply Hdis, elem_of_app; right; by left).
  assert (forall q, q ∈ l1 ++ l2 -> q ∉ elems ak) as Hdis12.
  { intros q [Hq|Hq]%elem_of_app; apply Hdis, elem_of_app; [by left|right; by right]. }
  split_and!; [|done| | |done].
  - apply dll_insert_ne; [done|]. apply dll_relink_next_ne.
    + destruct (decide (elems ak = [])) as [->|Hne]; simpl.
      * intros [Hq|Hq]%elem_of_app; apply H0j, elem_of_app; [by left|right; by right].
      * intros Hq. apply (Hdis12 _ Hq). by apply last_or_elem.
    + by apply (dll_unlink _ (owned_next _ _) (owned_prev _ _) _ _ p).
  - apply (dll_append _ (owned_next _ _)); try done. apply dll_frame with (h := items c); [|done].
    intros q Hq. apply bypass_ne; intros ->.
    + destruct (decide (l1 = [])) as [->|Hne]; [done|].
      apply (Hdis12 (last_or 0 l1)); [|done]. apply elem_of_app. left. by apply last_or_elem.
    + destruct (decide (hd_or 0 l2 = 0)) as [E|Hne]; [by rw E in Hq|].
      apply (Hdis12 (hd_or 0 l2)); [|done]. apply elem_of_app. right. by apply hd_or_elem.
  - apply NoDup_app. split_and!; [done| |apply NoDup_singleton].
    by intros q Hq ->%list_elem_of_singleton.
Qed.

Lemma rep_move c a j k aj ak l1 p l2 it aj' ak' :
  ll_rep c a -> a_cols a !! j = Some aj -> a_cols a !! k = Some ak -> j <> k ->
  elems aj = l1 ++ p :: l2 -> items c !! p = Some it ->
  elems aj' = l1 ++ l2 -> cursor_ok aj' -> elems ak' = elems ak ++ [p] -> cursor_ok ak' ->
  ll_rep (set_states (<[k := state_of ak']> (<[j := state_of aj']> (states c)))
      (set_items (moved_store (self c) (Z.of_nat k) p (last_or 0 (elems ak)) (last_or 0 l1)
        (hd_or 0 l2) it (items c)) c))
    (mkAlist V (<[k := ak']> (<[j := aj']> (a_cols a))) (a_sel a) (a_data a)).
Proof.
  intros Hr Hj Hk Hjk El Hit El' Hcj Ek' Hck.
  pose proof (fun q => moved_frame c a j k aj ak l1 p l2 it q Hr Hj Hk El) as Hframe.
  destruct (moved_cols c a j k aj ak l1 p l2 it Hr Hj Hk Hjk El Hit) as (Hdj & Hndj & Hdk & Hndk & Hpn).
  pose proof (shape_moved (self c) (Z.of_nat k) p (last_or 0 (elems ak)) (last_or 0 l1)
        (hd_or 0 l2) it (items c)) as Hsh.
  set (its' := moved_store _ _ _ _ _ _ _ _) in *. rw -El' in Hdj, Hndj, Hpn. rw -Ek' in Hdk, Hndk.
  assert (shape (items c) !! p = Some (self c, Z.of_nat j, (h_size it, h_data it))) as Hshp.
  { assert (p ∈ elems aj) as Hp by (rw El; apply elem_of_app; right; by left).
    destruct (rep_elem _ _ _ _ _ Hr Hj Hp) as (it' & Hit' & [Ho1 Ho2]). rw Hit in Hit'.
    injection Hit' as <-. rw shape_lookup Hit /= /erase Ho1 Ho2 //. }
  assert (j < length (a_cols a))%nat as Hjl by by eapply lookup_lt_Some.
  assert (k < length (a_cols a))%nat as Hkl by by eapply lookup_lt_Some.
  assert (Hsnd : snd <$> shape its' = snd <$> shape (items c)).
  { rw Hsh fmap_insert. apply insert_id. by rw lookup_fmap Hshp. }
  assert (size its' = size (items c)) as Hsz.
  { rw -(map_size_fmap erase its') -(map_size_fmap snd (erase <$> its')) -/(shape its') Hsnd.
    by rw /shape !map_size_fmap. }
  destruct (Hr) as [Ra Rself Rm Rcb Rn Rsm Rcc Rsel Rst Rcol Rh Rd Rc Rhp Rl [Rarr Rai]].
  split; cbn -[shape its']; rw ?length_insert ?Hsz; try done.
  - by rw Rst !list_fmap_insert.
  - intros i ai Hi. apply list_lookup_insert_Some in Hi as [(<- & <- & _)|[Hik Hi]].
    { by split_and!. }
    apply list_lookup_insert_Some in Hi as [(<- & <- & _)|[Hij Hi]].
    { by split_and!. }
    destruct (Rcol i ai Hi) as (Di & Ni & Ci). split_and!; [|done..].
    eapply dll_frame; [|exact Di]. intros q Hq.
    apply Hframe; intros Hq'; [by eapply Hij, rep_disjoint|by eapply Hik, rep_disjoint].
  - intros q x. rw Hsh lookup_insert. case_decide as E.
    + intros [= <-]. subst q. exists k, ak'. rw list_lookup_insert_eq; [|by rw length_insert].
      split_and!; [done|done|]. rw Ek'. apply elem_of_app. right. by left.
    + intros Hq. destruct (Rh q x Hq) as (i & ai & Hx & Hi & Hqi).
      destruct (decide (i = k)) as [->|]; [|destruct (decide (i = j)) as [->|]].
      * exists k, ak'. rw list_lookup_insert_eq; [|by rw length_insert].
        split_and!; [done|done|]. rw Ek'. apply elem_of_app. left. congruence.
      * exists j, aj'. rw list_lookup_insert_ne // list_lookup_insert_eq //.
        split_and!; [done|done|]. rw Hj in Hi. injection Hi as ->. rw El'. rw El in Hqi.
        revert Hqi. rw !elem_of_app elem_of_cons. intros [?|[?|?]]; [by left|congruence|by right].
      * exists i, ai. by rw !list_lookup_insert_ne.
  - by rw Hsnd.
  - intros q x. rw Hsh lookup_insert. case_decide as E; [|by apply Rl].
    intros [= <-]. subst q. by apply (Rl p _ Hshp).
  - split; [done|]. apply fmap_None with (f := erase).
    rw -shape_lookup Hsh lookup_insert_ne; [by rw shape_lookup Rai|].
    intros ->. by rw Hit in Rai.
Qed.

Lemma leave_state (ac : acol) l1 p l2 (s1 s2 s3 : ll_state) :
  NoDup (elems ac) -> 0 ∉ elems ac -> elems ac = l1 ++ p :: l2 -> cursor_ok ac ->
  Z.of_nat (length (elems ac)) < 2 ^ 32 ->
  let pv := last_or 0 l1 in let nx := hd_or 0 l2 in
  s1 = (if pv =? 0 then st_first nx (state_of ac) else state_of ac) ->
  s2 = (if nx =? 0 then st_last pv s1 else s1) ->
  s3 = (if cursor ac =? p
        then st_cur (if negb (nx =? 0) then nx else if negb (pv =? 0) then pv else p_first s2) s2
        else s2) ->
  st_count (u32 (count s3 - 1)) s3 = state_of (leave p ac) /\
  elems (leave p ac) = l1 ++ l2 /\ cursor_ok (leave p ac).
Proof.
  intros Hnd H0 E Hcok Hlen pv nx -> -> ->. unfold leave. rw E in Hnd, H0, Hlen.
  unfold cursor_ok in *. rw E in Hcok |- *. rw after_split // before_split // without_split //.
  fold pv nx. unfold state_of. rw E. cbn [elems cursor pos].
  assert (forall n, n = length (l1 ++ l2) ->
    u32 (Z.of_nat (length (l1 ++ p :: l2)) - 1) = Z.of_nat n) as Hc.
  { intros n ->. rw u32_small; rw !length_app in Hlen |- *; cbn [length] in *; lia. }
  rw !last_or_app !hd_or_app. fold pv nx. cbn [last_or hd_or].
  apply not_elem_of_app in H0 as [H1 [_ H2]%not_elem_of_cons].
  assert (pv = 0 -> l1 = []) as Hpv.
  { intros E0. destruct (decide (l1 = [])); [done|]. destruct H1. rw -E0. by apply last_or_elem. }
  assert (nx = 0 -> l2 = []) as Hnx.
  { intros E0. destruct l2; [done|]. destruct H2. rw -E0. by left. }
  assert (pv <> 0 -> pv ∈ l1) as Hpv'.
  { intros Hne. apply last_or_elem. intros E0. by rw /pv E0 in Hne. }
  assert (nx <> 0 -> nx ∈ l2) as Hnx' by apply hd_or_elem.
  assert (pv <> 0 -> hd_or p l1 = hd_or nx l1) as Hh1 by by destruct l1.
  assert (nx <> 0 -> last_or p l2 = last_or pv l2) as Hh2 by by destruct l2.
  split_and!; [|done|].
  - destruct (Z.eqb_spec pv 0) as [E1|E1], (Z.eqb_spec nx 0) as [E2|E2];
      rw ?(Hpv E1) ?(Hnx E2) in Hc |- *; cbn -[length u32]; destruct (cursor ac =? p);
      cbn -[length u32]; rw (Hc _ eq_refl).
    all: unfold st_count, st_cur, st_last, st_first; cbn -[length];
      rw ?(Hh1 E1) ?(Hh2 E2); f_equal; congruence.
  - destruct (Z.eqb_spec (cursor ac) p) as [Ec|Ec].
    + destruct (Z.eqb_spec nx 0) as [E2|E2].
      * destruct (decide (pv = 0)) as [E1|E1].
        -- right. by rw (Hpv E1) (Hnx E2).
        -- left. apply elem_of_app. left. by apply Hpv'.
      * left. apply elem_of_app. right. by apply Hnx'.
    + left. destruct Hcok as [Hcok|[Hcok _]]; [|by destruct l1].
      revert Hcok. rw !elem_of_app elem_of_cons. intros [?|[?|?]]; [by left|done|by right].
Qed.

Lemma enter_state (ac : acol) p (s1 : ll_state) :
  0 ∉ elems ac -> cursor_ok ac -> Z.of_nat (length (elems ac)) + 1 < 2 ^ 32 ->
  s1 = (if negb (count (state_of ac) =? 0) then st_last p (state_of ac)
        else st_first p (st_last p (st_cur p (state_of ac)))) ->
  st_count (u32 (count s1 + 1)) s1 = state_of (enter p ac) /\
  elems (enter p ac) = elems ac ++ [p] /\ cursor_ok (enter p ac).
Proof.
  intros H0 Hc Hlen ->. split_and!; [|done|].
  - unfold state_of, enter. cbn -[length]. rw last_or_snoc length_app Nat2Z.inj_add.
    destruct (elems ac) as [|x l]; cbn -[length].
    + by rw u32_small.
    + destruct (Z.eqb_spec (Z.of_nat (length (x :: l))) 0); [done|].
      unfold st_count, st_last. cbn -[length]. by rw u32_small.
  - unfold cursor_ok, enter. cbn. destruct Hc as [Hc|[-> Hc]].
    + case_bool_decide as E; [rw E in Hc; by apply not_elem_of_nil in Hc|]. left. apply elem_of_app. by left.
    + rw bool_decide_true //. left. by left.
Qed.

(** [mov_unlink] takes the record out of its column. *)
Lemma wp_mov_unlink c a j aj p m (Q : unit -> ctx -> Prop) :
  ll_rep c a -> a_cols a !! j = Some aj -> p ∈ elems aj ->
  (forall it l1 l2, items c !! p = Some it -> elems aj = l1 ++ p :: l2 ->
    elems (leave p aj) = l1 ++ l2 -> cursor_ok (leave p aj) ->
    bypass (last_or 0 l1) (hd_or 0 l2) (items c) !! p = Some it ->
    Q tt (set_mx m (set_states (<[j := state_of (leave p aj)]> (states c))
      (set_items (bypass (last_or 0 l1) (hd_or 0 l2) (items c)) c)))) ->
  wp (mov_unlink p (Z.of_nat j)) (set_mx m c) Q.
Proof.
  intros Hr Hj Hp HQ. destruct (rep_at _ _ _ _ _ Hr Hj Hp) as (it & l1 & l2 & El & Hit & Ho & Hpr & Hnx &
    _ & Hspv & Hsnx & Ef & Ela & Hpv & Hpn & _ & Hnd & H0 & Hlen).
  destruct (rep_col _ _ Hr _ _ Hj) as (_ & _ & Hcok).
  destruct (leave_state _ _ _ _ _ _ _ Hnd H0 El Hcok Hlen eq_refl eq_refl eq_refl) as (Hst & El' & Hcok').
  specialize (HQ _ _ _ Hit El El' Hcok'). rw bypass_ne // in HQ. specialize (HQ Hit).
  assert (states c !! j = Some (state_of aj)) as Hsj by by rw (rep_states _ _ Hr) list_lookup_fmap Hj.
  set (pv := last_or 0 l1) in *. set (nx := hd_or 0 l2) in *. clearbody pv nx.
  destruct c; cbn -[Z.mul Z.add] in *. unfold mov_unlink. ll_access. rw Hpr Hnx. cbn zeta.
  apply wp_bind, wp_relink_next; [done|]. apply wp_bind, wp_relink_prev; [by intros; apply relink_next_is_Some, Hsnx|].
  rw -/(bypass pv nx items). apply wp_bind. eapply wp_get_state; [done..|]. cbn.
  rw (Z.eqb_sym (hd_or 0 (elems aj))) Ef. apply wp_bind.
  eapply wp_mono with (Q := fun _ s => s = mkContext A V self mode ncol ccol addr_limit p_alloc p_free
    state_addr (<[j := (if pv =? 0 then st_first nx (state_of aj) else state_of aj)]> states)
    (bypass pv nx items) heap m).
  { destruct (pv =? 0); cbn [when].
    - by eapply wp_upd_state.
    - apply wp_ret. by rw list_insert_id. }
  intros _ s ->. rw (Z.eqb_sym (last_or 0 (elems aj))) Ela. apply wp_bind.
  set (s1 := if pv =? 0 then _ else _) in *.
  eapply wp_mono with (Q := fun _ s => s = mkContext A V self mode ncol ccol addr_limit p_alloc p_free
    state_addr (<[j := (if nx =? 0 then st_last pv s1 else s1)]> states)
    (bypass pv nx items) heap m).
  { destruct (nx =? 0); cbn [when].
    - eapply wp_upd_state; [done|by eapply list_lookup_here|]. by rw list_insert_insert_eq.
    - by apply wp_ret. }
  intros _ s ->. apply wp_bind. set (s2 := if nx =? 0 then _ else _) in *.
  eapply wp_mono with (Q := fun _ s => s = mkContext A V self mode ncol ccol addr_limit p_alloc p_free
    state_addr (<[j := (if cursor aj =? p
      then st_cur (if negb (nx =? 0) then nx else if negb (pv =? 0) then pv else p_first s2) s2 else s2)]> states)
    (bypass pv nx items) heap m).
  { destruct (cursor aj =? p); cbn [when].
    - apply wp_bind. eapply wp_get_state; [done|by eapply list_lookup_here|]. cbn.
      eapply wp_upd_state; [done|by eapply list_lookup_here|]. by rw list_insert_insert_eq.
    - by apply wp_ret. }
  intros _ s ->. eapply wp_upd_state; [done|by eapply list_lookup_here|].
  rw list_insert_insert_eq Hst. exact HQ.
Qed.

(** [mov_link] and the statements after it put it at the end of another. *)
Lemma wp_mov_enter slf nc cc lim pa pf sa ss its hp m k (ak : acol) p it (Q : Z -> ctx -> Prop) :
  its !! p = Some it -> ss !! k = Some (state_of ak) ->
  (last_or 0 (elems ak) <> 0 -> is_Some (its !! last_or 0 (elems ak))) ->
  last_or 0 (elems ak) <> p -> 0 ∉ elems ak -> cursor_ok ak ->
  Z.of_nat (length (elems ak)) + 1 < 2 ^ 32 ->
  Q 1 (mkContext A V slf LL_MODE_VECTOR nc cc lim pa pf sa (<[k := state_of (enter p ak)]> ss)
    (<[p := mkItem V (h_cxt it) (h_size it) (Z.of_nat k) (last_or 0 (elems ak)) 0 (h_data it)]>
      (relink_next (last_or 0 (elems ak)) p its)) hp m) ->
  wp (linked ← mov_link p (Z.of_nat k);
      if linked : bool then
        store p (set_col (Z.of_nat k));;
        upd_state (Z.of_nat k) (fun s => st_count (u32 (count s + 1)) s);;
        mret 1
      else mret 0)
    (mkContext A V slf LL_MODE_VECTOR nc cc lim pa pf sa ss its hp m) Q.
Proof.
  intros Hit Hk Hsome Hne H0 Hc Hlen HQ.
  destruct (enter_state _ p _ H0 Hc Hlen eq_refl) as (Hst & _). rw -Hst in HQ. clear Hst.
  apply wp_bind. unfold mov_link. apply wp_bind. eapply wp_get_state; [done..|]. ll_access.
  cbn [count p_last p_first state_of] in *.
  destruct (Z.eqb_spec (Z.of_nat (length (elems ak))) 0) as [E|E]; cbn [negb] in *.
  - assert (elems ak = []) as El by (destruct (elems ak); [done|]; cbn in E; lia).
    rw El in HQ. cbn [last_or relink_next Z.eqb] in HQ.
    apply wp_bind. eapply wp_upd_state; [done..|]. apply wp_bind.
    cbn [Z.eqb LL_MODE_VECTOR LL_MODE_RING]. apply wp_bind. eapply wp_store; [done|].
    eapply wp_store; [apply lookup_insert_eq|]. rw insert_insert_eq. apply wp_ret. cbn beta iota.
    apply wp_bind. eapply wp_store; [apply lookup_insert_eq|]. rw insert_insert_eq.
    apply wp_bind. eapply wp_upd_state; [done|by eapply list_lookup_here|].
    rw list_insert_insert_eq. apply wp_ret. exact HQ.
  - assert (last_or 0 (elems ak) <> 0) as Hl.
    { intros El. apply H0. rw -El. apply last_or_elem. intros El'. by rw El' in E. }
    destruct (Z.eqb_spec (last_or 0 (elems ak)) 0) as [|_]; [done|]. cbn [negb].
    destruct (Hsome Hl) as [il Hil]. unfold relink_next in HQ.
    destruct (Z.eqb_spec (last_or 0 (elems ak)) 0) as [|_]; [done|]. rw (alter_Some _ _ _ il Hil) in HQ.
    apply wp_bind. eapply wp_store; [done|].
    apply wp_bind. eapply wp_store; [by rw lookup_insert_ne|].
    apply wp_bind. eapply wp_store; [apply lookup_insert_eq|]. rw insert_insert_eq.
    apply wp_bind. eapply wp_upd_state; [done..|]. apply wp_ret. cbn beta iota.
    apply wp_bind. eapply wp_store; [apply lookup_insert_eq|]. rw insert_insert_eq.
    apply wp_bind. eapply wp_upd_state; [done|by eapply list_lookup_here|].
    rw list_insert_insert_eq. apply wp_ret. exact HQ.
Qed.

Lemma rep_room c a k ac p it :
  ll_rep c a -> a_cols a !! k = Some ac -> items c !! p = Some it -> p ∉ elems ac ->
  Z.of_nat (length (elems ac)) + 1 < 2 ^ 32.
Proof.
  intros Hr Hk Hit Hp. pose proof (rep_count _ _ Hr). destruct (rep_col _ _ Hr _ _ Hk) as (_ & Hnd & _).
  assert (length (p :: elems ac) <= size (items c))%nat as Hle.
  { apply elems_bound; [by apply NoDup_cons|]. intros q [->|Hq]%elem_of_cons; [by eexists|].
    destruct (rep_elem _ _ _ _ _ Hr Hk Hq) as (i & -> & _). by eexists. }
  cbn in Hle. lia.
Qed.

Lemma rep_home_Some c a p it :
  ll_rep c a -> items c !! p = Some it ->
  exists j aj, home p a = Some j /\ a_cols a !! j = Some aj /\ p ∈ elems aj /\ owned (self c) j it.
Proof.
  intros Hr Hit. destruct (rep_home _ _ Hr p (erase it)) as (j & aj & Hx & Hj & Hp).
  { by rw shape_lookup Hit. }
  destruct (rep_elem _ _ _ _ _ Hr Hj Hp) as (it' & Hit' & Ho). rw Hit in Hit'. injection Hit' as <-.
  exists j, aj. split_and!; try done. unfold home.
  replace (list_find (fun ac => p ∈ elems ac) (a_cols a)) with (Some (j, aj)); [done|].
  symmetry. apply list_find_Some. split_and!; try done. intros i ai Hi Hij Hp'.
  assert (j = i) by by eapply rep_disjoint. lia.
Qed.

Lemma data_Some c a p : ll_rep c a -> is_Some (a_data a !! p) -> is_Some (items c !! p).
Proof.
  intros Hr [x Hx]. rw (rep_data _ _ Hr) lookup_fmap shape_lookup in Hx.
  by destruct (items c !! p).
Qed.

Lemma ll_mov_refines c a p k h :
  ll_rep c a -> may_lock (mx c) h -> is_Some (a_data a !! p) -> 0 <= k ->
  wp (ll_mov (p + HDR) k h) c (outcome h (mx c) (a_mov p k a).1 (a_mov p k a).2).
Proof.
  intros Hr Hl Hp Hk0. destruct (data_Some _ _ _ Hr Hp) as [it Hit].
  destruct (rep_home_Some _ _ _ _ Hr Hit) as (j & aj & Hhome & Hj & Hin & [Hcx Hcol]).
  apply Z_of_nat_complete in Hk0 as [k' ->].
  unfold a_mov. rw Hhome Nat2Z.id. ll_locked Hl. replace (p + HDR - HDR) with p by lia. cbn zeta.
  pose proof (rep_ncol _ _ Hr) as Hn. pose proof (rep_mode _ _ Hr) as Hmd.
  pose proof (finish_same c a 0 h m1 Hr) as Hsame.
  apply wp_bind. apply wp_intro with (a := it) (s' := set_mx m1 c).
  { destruct c; cbn in *. unfold load. cbn. by rw Hit. }
  apply wp_bind, wp_gets, wp_bind, wp_gets. cbn [self ncol set_mx]. rw Hcx Hcol Hn Z.eqb_refl. cbn [andb].
  destruct (Z.eqb_spec (Z.of_nat k') (Z.of_nat j)) as [|Hkj]; cbn [negb andb]; [by apply wp_ret|].
  destruct (Z.ltb_spec (Z.of_nat k') (Z.of_nat (length (a_cols a)))) as [Hlt|]; cbn [fst snd]; [|by apply wp_ret].
  destruct (lookup_lt_is_Some_2 (a_cols a) k') as [ak Hk]; [lia|].
  assert (j <> k') as Hjk by lia.
  apply wp_bind. eapply wp_mov_unlink; [done..|].
  intros it' l1 l2 Hit' El El' Hcj Hby. rw Hit in Hit'. injection Hit' as <-.
  destruct (rep_col _ _ Hr _ _ Hk) as (_ & _ & Hcok).
  pose proof (rep_nonzero _ _ _ _ Hr Hk) as H0k.
  assert (last_or 0 (elems ak) <> 0 -> last_or 0 (elems ak) ∈ elems ak) as Hlast.
  { intros Hne. apply last_or_elem. by intros E; rw E in Hne. }
  assert (last_or 0 (elems ak) <> p) as Hlp.
  { intros E. pose proof (rep_item_pos _ _ _ _ Hr Hit). apply Hjk. eapply rep_disjoint; try done.
    rw -E. apply Hlast. lia. }
  pose proof (rep_room _ _ _ _ _ _ Hr Hk Hit (fun Hq => Hjk (rep_disjoint _ _ _ _ _ _ _ Hr Hj Hk Hin Hq))) as Hlen.
  destruct (enter_state ak p _ H0k Hcok Hlen eq_refl) as (_ & Ek' & Hck).
  pose proof (rep_move _ _ _ _ _ _ _ _ _ _ _ _ Hr Hj Hk Hjk El Hit El' Hcj Ek' Hck) as Hr'.
  assert (last_or 0 (elems ak) <> 0 -> is_Some (items c !! last_or 0 (elems ak))) as Hls.
  { intros Hne. destruct (rep_elem _ _ _ _ _ Hr Hk (Hlast Hne)) as (i & -> & _). by eexists. }
  assert (states c !! k' = Some (state_of ak)) as Hsk by by rw (rep_states _ _ Hr) list_lookup_fmap Hk.
  rw (on_col_const j (leave p) aj a Hj). unfold on_col at 2. unfold moved_store in Hr'.
  destruct c; cbn -[Z.mul Z.add] in *. subst mode.
  eapply wp_mov_enter with (ak := ak) (it := it); try done.
  { by rw list_lookup_insert_ne. }
  { intros Hne. by apply relink_prev_is_Some, relink_next_is_Some, Hls. }
  split; [done|]. intros m2 Hm2. split_and!; [done| |done].
  apply (rep_set_mx m1) in Hr'. apply (rep_set_mx m2). rw Hcx. unfold on_col. cbn. rw (list_alter_Some _ (a_cols a) j aj) //.
  rw (list_alter_Some _ _ k' ak); [exact Hr'|by rw list_lookup_insert_ne].
Qed.
End mov.

Section clr.
Context {A V : Type} `{AL : AllocatorLaws A}.
Abbreviation ctx := (ll_context A V).
Abbreviation item := (ll_item_hdr V).
Implicit Types (c : ctx) (a : alist V).

Definition removed {X} (l : list Z) (g : gmap Z X) : gmap Z X := filter (fun kv => kv.1 ∉ l) g.

Lemma lookup_removed {X} l (g : gmap Z X) p :
  removed l g !! p = if decide (p ∈ l) then None else g !! p.
Proof.
  unfold removed. rw map_lookup_filter. destruct (g !! p) as [x|]; cbn; case_decide; try done.
  - by rw option_guard_False; [|intros Hp; apply Hp].
  - by rw option_guard_True.
Qed.

Lemma removed_cons {X} p l (g : gmap Z X) : removed (p :: l) g = removed l (delete p g).
Proof.
  apply map_eq. intros q. rw !lookup_removed lookup_delete.
  destruct (decide (q ∈ p :: l)) as [E|E]; rw elem_of_cons in E;
    repeat case_decide; try done; exfalso; intuition congruence.
Qed.

Lemma removed_nil {X} (g : gmap Z X) : removed [] g = g.
Proof. apply map_eq. intros q. rw lookup_removed. case_decide as E; [by apply not_elem_of_nil in E|done]. Qed.

(** The loop of [ll_clr] frees the chain it walks, and nothing else. *)
Lemma wp_clr_loop slf md nc cc lim pa sa ss its hp m k st ok prv l (Q : unit -> ctx -> Prop) :
  dll its ok prv l 0 -> NoDup l -> 0 ∉ l -> live_in its hp -> a_ok hp ->
  cc = Z.of_nat k -> ss !! k = Some st ->
  (forall hp' st', a_ok hp' -> a_live hp' = removed l (a_live hp) ->
    Q tt (mkContext A V slf md nc cc lim pa true sa (<[k := st']> ss) (removed l its) hp' m)) ->
  wp (clr_loop (length l) (hd_or 0 l)) (mkContext A V slf md nc cc lim pa true sa ss its hp m) Q.
Proof.
  intros Hd Hnd H0 Hlive Hok Hcc. revert its ss hp prv st Hd Hnd H0 Hlive Hok.
  induction l as [|p l IH]; intros its ss hp prv st Hd Hnd H0 Hlive Hok Hst HQ.
  - apply wp_ret. rw -(list_insert_id ss k st Hst) -(removed_nil its). apply HQ; [done|].
    by rw removed_nil.
  - apply NoDup_cons in Hnd as [Hp Hnd]. apply not_elem_of_cons in H0 as [Hp0 H0].
    destruct Hd as [(it & Hit & _ & Hnx & _) Hd]. destruct (Hlive p it Hit) as (Hs1 & Hs2 & Hlv).
    destruct (free_law hp p _ Hok Hlv) as [Hok' Hlive'].
    cbn [length clr_loop hd_or]. destruct (Z.eqb_spec p 0); [congruence|]. cbn [negb].
    ll_access. unfold call_free. apply wp_bind. ll_access. cbn -[Z.add].
    rw u32_small; [|unfold HDR in *; lia]. eapply wp_free; [done|].
    ll_access. rw Hnx. eapply IH; try done.
    + by apply dll_delete_ne.
    + intros q it' Hq. apply lookup_delete_Some in Hq as [Hne Hq]. rw Hlive' lookup_delete_ne //.
      by apply Hlive.
    + apply list_lookup_insert_eq. by eapply lookup_lt_Some.
    + intros hp' st' Hok2 Hl2. rw list_insert_insert_eq -removed_cons. apply HQ; [done|].
      by rw removed_cons -Hlive'.
Qed.

Lemma ll_clr_refines c a h :
  ll_rep c a -> may_lock (mx c) h ->
  wp (ll_clr h) c (fun r c' => outcome h (mx c) tt (a_clr a) r c' /\
    a_live (heap c') = removed (elems (sel_col a)) (a_live (heap c)) /\
    state_addr c' = state_addr c /\ ncol c' = ncol c).
Proof.
  intros Hr Hl. ll_open Hr. unfold ll_clr. apply wp_bind.
  apply wp_intro with (a := state_of (sel_col a)) (s' := c).
  { unfold cur_state, mbind, M_bind, gets, get_state. rw Hcc Nat2Z.id Hst //. }
  cbn [count p_first state_of]. rw Nat2Z.id. ll_locked Hl.
  pose proof (rep_nonzero _ _ _ _ Hr Hs) as H0.
  destruct (rep_col _ _ Hr _ _ Hs) as (Hd & Hnd & _).
  pose proof (rep_live_in _ _ Hr) as Hlive. pose proof (rep_heap _ _ Hr) as Hok.
  destruct (rep_cbs _ _ Hr) as [_ Hpf]. destruct (rep_array _ _ Hr) as [Ha1 Ha2].
  assert (state_addr c ∉ elems (sel_col a)) as Ha3.
  { intros Hin. destruct (rep_elem _ _ _ _ _ Hr Hs Hin) as (it & Hit & _). by rw Ha2 in Hit. }
  assert (forall hp', a_ok hp' -> a_live hp' = removed (elems (sel_col a)) (a_live (heap c)) ->
    ll_rep (set_states (<[a_sel a := state_of (mkCol [] 0 0)]> (states c)) (set_heap hp'
      (set_items (removed (elems (sel_col a)) (items c)) c))) (a_clr a)) as Hr'.
  { intros hp' Hok' Hl'. apply (rep_change _ _ _ (sel_col a)); try done.
    - intros q Hq _. by rw lookup_removed decide_False.
    - by intros q ?%not_elem_of_nil.
    - intros q Hq. right. by rw lookup_removed decide_True.
    - by constructor.
    - by right.
    - pose proof (rep_count _ _ Hr).
      assert (size (removed (elems (sel_col a)) (items c)) <= size (items c))%nat; [|lia].
      apply map_subseteq_size, map_filter_subseteq.
    - intros q it. rw Hl' !lookup_removed. case_decide; [done|]. apply Hlive.
    - by rw Hl' lookup_removed decide_False.
    - by rw lookup_removed decide_False.
    - apply map_eq. intros q. rw -/(removed (elems (sel_col a)) (a_data a)).
      rw lookup_removed !lookup_fmap lookup_removed (rep_data _ _ Hr) lookup_fmap shape_lookup.
      by case_decide. }
  unfold a_clr in *. destruct c; cbn in *. subst p_free.
  apply wp_bind. eapply wp_clr_loop; try done. intros hp' st' Hok' Hl'.
  ll_steps. split; [done|]. intros m2 Hm2. split; [|done].
  split_and!; [done| |done]. specialize (Hr' hp' Hok' Hl'). apply (rep_set_mx m1) in Hr'.
  apply (rep_set_mx m2). exact Hr'.
Qed.
End clr.

Section lifetime.
Context {A V : Type} `{AL : AllocatorLaws A}.
Abbreviation ctx := (ll_context A V).
Abbreviation item := (ll_item_hdr V).
Implicit Types (c : ctx) (a : alist V).

Definition no_col : acol := mkCol [] 0 0.
Definition a_init (n : Z) : alist V := mkAlist V (replicate (Z.to_nat n) no_col) 0 ∅.

(** A context as the wrappers zero-fill it, with its callbacks installed. *)
Definition blank_ctx c : Prop :=
  state_addr c = 0 /\ self c <> 0 /\ p_alloc c = true /\ p_free c = true /\
  items c = ∅ /\ a_ok (heap c).

Lemma ll_init_refines c nc lim :
  blank_ctx c -> may_lock (mx c) 0 -> 0 < nc < 256 ->
  wp (ll_init LL_MODE_VECTOR nc lim) c (fun r c' => lock_post 0 (mx c) (mx c') /\
    (r = 0 /\ state_addr c' = 0 /\ a_live (heap c') = a_live (heap c) \/
     r = 1 /\ ll_rep c' (a_init nc) /\
       a_live (heap c') = <[state_addr c' := nc * STATE_SIZE]> (a_live (heap c)))).
Proof.
  intros (Hsa & Hself & Hpa & Hpf & Hits & Hok) Hl Hnc. unfold ll_init.
  apply wp_bind, wp_gets. rw Hsa. cbn [Z.eqb negb]. ll_locked Hl.
  rw u32_small; [|unfold STATE_SIZE; lia]. apply wp_bind, wp_gets. cbn [p_alloc set_mx]. rw Hpa.
  destruct (alloc_law (heap c) (nc * STATE_SIZE) Hok) as [Hok' Hcase]; [unfold STATE_SIZE; lia|].
  apply wp_bind. apply wp_intro with (a := (a_alloc (heap c) (nc * STATE_SIZE)).1)
    (s' := set_heap (a_alloc (heap c) (nc * STATE_SIZE)).2 (set_mx m1 c)).
  { unfold alloc. cbn [heap set_mx]. by destruct (a_alloc _ _). }
  set (p := (a_alloc (heap c) (nc * STATE_SIZE)).1) in *.
  set (hp' := (a_alloc (heap c) (nc * STATE_SIZE)).2) in *. clearbody p hp'.
  apply wp_bind, wp_modify, wp_ret. split; [done|]. intros m2 Hm2. split; [done|].
  destruct Hcase as [[-> Hlive]|(Hp & Hnone & Hlive)]; [by left|right].
  destruct (Z.eqb_spec p 0); [lia|]. split; [done|]. split; [|done].
  split; cbn -[shape]; rw ?length_replicate ?Hits; try done; try lia.
  - by rw fmap_replicate.
  - intros k ac [-> Hk]%lookup_replicate. split_and!; [done|by constructor|by right].
  - by rw Hlive lookup_insert_eq.
Qed.

(** All addresses held by the columns. *)
Definition all_elems (cols : list acol) : list Z := concat (elems <$> cols).

Lemma removed_app {X} l1 l2 (g : gmap Z X) : removed (l1 ++ l2) g = removed l2 (removed l1 g).
Proof.
  apply map_eq. intros q. rw !lookup_removed.
  destruct (decide (q ∈ l1 ++ l2)) as [E|E]; rw elem_of_app in E;
    repeat case_decide; try done; tauto.
Qed.

Lemma uninit_columns_spec n c a i h :
  ll_rep c a -> may_lock (mx c) h -> (i + n = length (a_cols a))%nat ->
  wp (uninit_columns n (Z.of_nat i) h) c (fun _ c' => lock_post h (mx c) (mx c') /\
    exists a', ll_rep c' a' /\ a_cols a' = take i (a_cols a) ++ replicate n no_col /\
      a_live (heap c') = removed (all_elems (drop i (a_cols a))) (a_live (heap c)) /\
      state_addr c' = state_addr c /\ ncol c' = ncol c).
Proof.
  revert c a i. induction n as [|n IH]; intros c a i Hr Hl Hi.
  - apply wp_ret. split; [by apply lock_post_refl|]. exists a. split_and!; try done.
    + rw app_nil_r take_ge //. lia.
    + rw drop_ge; [|lia]. by rw removed_nil.
  - cbn [uninit_columns]. apply wp_bind.
    destruct (lookup_lt_is_Some_2 (a_cols a) i) as [ac Hac]; [lia|].
    eapply wp_mono; [by apply (ll_col_refines _ a); try done; lia|].
    intros _ c1 ((_ & Hr1 & Hl1) & Hh1 & Ha1 & Hn1). unfold a_col in Hr1.
    assert ((Z.of_nat i <? Z.of_nat (length (a_cols a))) = true) as Hlt by (apply Z.ltb_lt; lia).
    rw Hlt Nat2Z.id in Hr1. clear Hlt.
    set (a1 := mkAlist V (a_cols a) i (a_data a)) in *.
    assert (sel_col a1 = ac) as Hsel by by rw /sel_col Hac.
    apply wp_bind. eapply wp_mono; [apply (ll_clr_refines _ a1 h); [done|apply Hl1]|].
    intros _ c2 ((_ & Hr2 & Hl2) & Hh2 & Ha2 & Hn2). cbn beta.
    replace (Z.of_nat i + 1) with (Z.of_nat (S i)) by lia.
    eapply wp_mono; [apply (IH c2 (a_clr a1) (S i)); [done|apply Hl2|]|].
    { cbn. rw length_alter. lia. }
    intros _ c3 (Hl3 & a' & Hr3 & Hc3 & Hh3 & Ha3 & Hn3). split.
    { eapply lock_post_trans; [exact Hl1|]. by eapply lock_post_trans. }
    exists a'. rw Hc3 Hh3 Hh2 Hh1 Ha3 Ha2 Ha1 Hn3 Hn2 Hn1 Hsel.
    cbn [a_clr a_cols a_sel a1]. rw (list_alter_Some _ _ i ac) //. split_and!; try done.
    + rw take_insert_snoc; [|by eapply lookup_lt_Some]. by rw -app_assoc.
    + rw drop_insert_lt; [|lia]. rw (drop_S _ _ _ Hac). unfold all_elems. cbn.
      by rw removed_app.
Qed.

Lemma all_empty_items c a n :
  ll_rep c a -> a_cols a = replicate n no_col -> items c = ∅.
Proof.
  intros Hr Hc. apply map_empty. intros p. destruct (items c !! p) as [it|] eqn:E; [|done].
  destruct (rep_home _ _ Hr p (erase it)) as (k & ac & _ & Hk & Hp).
  { by rw shape_lookup E. }
  rw Hc in Hk. apply lookup_replicate in Hk as [-> _]. by apply not_elem_of_nil in Hp.
Qed.

(** Every record and the state array are returned to the heap, and nothing
    else. *)
Lemma ll_uninit_refines c a :
  ll_rep c a -> may_lock (mx c) 0 ->
  wp ll_uninit c (fun _ c' => lock_post 0 (mx c) (mx c') /\
    state_addr c' = 0 /\ items c' = ∅ /\ a_ok (heap c') /\
    a_live (heap c') = delete (state_addr c) (removed (all_elems (a_cols a)) (a_live (heap c)))).
Proof.
  intros Hr Hl. unfold ll_uninit. apply wp_bind, wp_gets. pose proof (rep_addr _ _ Hr).
  destruct (Z.eqb_spec (state_addr c) 0); [lia|]. cbn [negb].
  apply wp_locked; [exact Hl|]. intros hm m1 Hm1.
  destruct Hm1 as [Hl1 Hheld].
  { destruct (mx c) as [m|]; [|done]. destruct Hl as [Hw Hl]. destruct (m_native m); [|done].
    pose proof (get_handle_pos m Hw). lia. }
  apply wp_bind, wp_gets. cbn [ncol set_mx]. rw (rep_ncol _ _ Hr) Nat2Z.id.
  apply (rep_set_mx m1) in Hr. apply wp_bind.
  eapply wp_mono; [by apply (uninit_columns_spec _ _ a 0 hm Hr)|].
  intros _ c1 (Hl2 & a' & Hr1 & Hc1 & Hh1 & Ha1 & Hn1). cbn beta.
  assert (mx c1 = m1) as Hmx by (eapply lock_post_held; [exact Hl2|done]).
  rw take_0 in Hc1. pose proof (all_empty_items _ _ _ Hr1 Hc1) as Hemp.
  destruct (rep_array _ _ Hr1) as [Harr _]. destruct (rep_cbs _ _ Hr1) as [_ Hpf].
  pose proof (rep_heap _ _ Hr1) as Hok. pose proof (rep_small _ _ Hr1).
  pose proof (rep_ncol _ _ Hr1).
  rw drop_0 in Hh1. cbn [state_addr ncol set_mx heap] in *.
  destruct (free_law (heap c1) _ _ Hok Harr) as [Hok2 Hlive2].
  apply wp_bind, wp_gets. unfold call_free. apply wp_bind, wp_bind, wp_gets. rw Hpf.
  rw u32_small; [|unfold STATE_SIZE; lia].
  destruct c1; cbn in *. subst. eapply wp_free; [done|]. split; [done|].
  intros m2 Hm2. split_and!; try done. by rw Hlive2 Hh1.
Qed.
End lifetime.
