(* ===== verification/LinkedListIndex.v ===== *)
(** * Access by index

    [_get] walks from the cursor to a position, using the [current] counter as
    the cursor's own position.  While the counter is right ([col_synced]),
    [ll_get], [ll_rem] and [ll_ins] act on the record at the index; every
    operation but [ll_sel] and [ll_mov] keeps it right. *)
From S2P Require Import Prelude Memory Mutex LinkedList LinkedListSpec LinkedListProof LinkedListEdit.
Set Default Goal Selector "!".

Section index.
Context {A V : Type} `{AL : AllocatorLaws A}.
Abbreviation ctx := (ll_context A V).
Abbreviation item := (ll_item_hdr V).
Implicit Types (c : ctx) (a : alist V).

(** The abstract operations. *)
Definition a_seek (index : Z) a : Z * alist V :=
  if index <? a_cnt a
  then let p := default 0 (elems (sel_col a) !! Z.to_nat index) in
       (p, upd_sel (put_cursor p index) a)
  else (0, a).

Definition a_get (index : Z) a : (Z * option Z) * alist V :=
  let '(p, a') := a_seek index a in (rec_ptr a p, a').

(** Consecutive elements are linked both ways. *)
Lemma dll_links (h : gmap Z item) ok l i p (it : item) :
  dll h ok 0 l 0 -> l !! i = Some p -> h !! p = Some it ->
  (forall q, l !! S i = Some q -> h_next it = q) /\
  (forall j q, i = S j -> l !! j = Some q -> h_prev it = q).
Proof.
  intros Hd Hi Hit. pose proof (take_drop_middle l i p Hi) as E. rw -E in Hd.
  destruct (dll_lookup _ _ _ _ _ _ _ Hd) as (it' & Hit' & Hpr & Hnx & _).
  rw Hit in Hit'. injection Hit' as <-. split.
  - intros q Hq. rw Hnx. rw (drop_S _ _ _ Hq). done.
  - intros j q -> Hq. rw Hpr. rw (take_S_r _ _ _ Hq). apply last_or_snoc.
Qed.

Lemma wp_get_walk fuel slf md nc cc lim pa pf sa ss its hp m ok l index i p (Q : Z * Z -> ctx -> Prop) :
  dll its ok 0 l 0 -> l !! Z.to_nat i = Some p -> 0 <= i -> 0 <= index < Z.of_nat (length l) ->
  Z.abs (i - index) < Z.of_nat fuel ->
  (forall q, l !! Z.to_nat index = Some q ->
    Q (q, index) (mkContext A V slf md nc cc lim pa pf sa ss its hp m)) ->
  wp (get_walk fuel index (Z.of_nat (length l)) p i)
    (mkContext A V slf md nc cc lim pa pf sa ss its hp m) Q.
Proof.
  intros Hd. revert i p. induction fuel as [|fuel IH]; intros i p Hp Hi0 Hix Hfuel HQ; [lia|].
  cbn [get_walk]. pose proof (lookup_lt_Some _ _ _ Hp) as Hlt.
  destruct (Z.eqb_spec i index) as [->|Hne]; [by apply wp_ret, HQ|]. cbn [negb andb].
  destruct (Z.ltb_spec i (Z.of_nat (length l))) as [_|]; [|lia].
  destruct (dll_elem _ _ _ _ _ p Hd) as (it & Hit & _); [by eapply list_elem_of_lookup_2|].
  destruct (dll_links _ _ _ _ _ _ Hd Hp Hit) as [Hnext Hprev].
  destruct (Z.ltb_spec index i) as [Hback|Hfwd].
  - destruct (lookup_lt_is_Some_2 l (Z.to_nat (i - 1))) as [q Hq]; [lia|].
    apply wp_bind, wp_bind. eapply wp_load; [done|]. apply wp_ret.
    rw (Hprev (Z.to_nat (i - 1)) q); [|lia|done].
    destruct (Z.eqb_spec (i - 1) 0) as [E|E].
    + apply wp_ret. replace (i - 1) with index by lia. apply HQ.
      by replace index with (i - 1) by lia.
    + destruct (Z.ltb_spec (i - 1) index); [lia|]. apply wp_bind, wp_ret.
      apply IH; [done|lia..|done].
  - apply wp_bind, wp_ret. destruct (Z.ltb_spec i index); [|lia].
    destruct (lookup_lt_is_Some_2 l (S (Z.to_nat i))) as [q Hq]; [lia|].
    apply wp_bind, wp_bind. eapply wp_load; [done|]. apply wp_ret.
    rw (Hnext q Hq). apply IH; [|lia..|done].
    by replace (Z.to_nat (i + 1)) with (S (Z.to_nat i)) by lia.
Qed.

(** The position of the cursor is the index where it is found. *)
Lemma get_seek c a index m (Q : Z -> ctx -> Prop) :
  ll_rep c a -> col_synced (sel_col a) -> 0 <= index ->
  (forall c', ll_rep c' (a_seek index a).2 -> mx c' = m -> heap c' = heap c -> items c' = items c ->
    self c' = self c -> p_free c' = true -> mode c' = LL_MODE_VECTOR -> Q (a_seek index a).1 c') ->
  wp (_get index) (set_mx m c) Q.
Proof.
  intros Hr Hsync Hix HQ. ll_open Hr. pose proof (rep_length _ _ _ _ Hr Hs) as Hlen.
  destruct (rep_col _ _ Hr _ _ Hs) as (Hd & Hnd & _).
  unfold a_seek, a_cnt in HQ. unfold _get. apply wp_bind.
  apply wp_intro with (a := state_of (sel_col a)) (s' := set_mx m c).
  { unfold cur_state, mbind, M_bind, gets, get_state. cbn. rw Hcc Nat2Z.id Hst //. }
  cbn [count p_current current state_of].
  destruct (Z.ltb_spec index (Z.of_nat (length (elems (sel_col a))))) as [Hlt|Hge].
  - destruct Hsync as [E|[Hpos Hcur]]; [rw E in Hlt; cbn in Hlt; lia|].
    destruct (rep_cursor_cases _ _ Hr) as [[_ E]|[Hc0 _]]; [rw E in Hlt; cbn in Hlt; lia|].
    destruct (Z.eqb_spec (cursor (sel_col a)) 0); [lia|]. cbn [negb].
    destruct (lookup_lt_is_Some_2 (elems (sel_col a)) (Z.to_nat index)) as [q Hq]; [lia|].
    rw Hq in HQ. pose proof (rep_cursor c a q index Hr (list_elem_of_lookup_2 _ _ _ Hq)) as Hr'.
    pose proof (rep_mode _ _ Hr) as Hmd. destruct (rep_cbs _ _ Hr) as [_ Hpf].
    pose proof (lookup_lt_Some _ _ _ Hcur) as Hcl.
    apply wp_bind. destruct c; cbn -[get_walk] in *.
    eapply wp_get_walk; try done; [lia|]. intros q' Hq'. rw Hq in Hq'. injection Hq' as <-.
    cbn beta iota. rw Z.eqb_refl. cbn [when].
    apply wp_bind. eapply wp_upd_cur; [done|done|]. apply wp_ret.
    apply HQ; try done. by apply (rep_set_mx m) in Hr'.
  - apply wp_ret. apply HQ; try done; [by apply rep_set_mx|apply (rep_cbs _ _ Hr)|apply (rep_mode _ _ Hr)].
Qed.

Lemma ll_get_refines c a index h :
  ll_rep c a -> may_lock (mx c) h -> col_synced (sel_col a) -> 0 <= index ->
  wp (ll_get index h) c (outcome h (mx c) (a_get index a).1 (a_get index a).2).
Proof.
  intros Hr Hl Hsync Hix. ll_locked Hl. apply wp_bind.
  eapply get_seek; [done..|]. intros c' Hr' Hmx _ Hit _ _ _. unfold a_get.
  assert (rec_ptr (a_seek index a).2 (a_seek index a).1 = rec_ptr a (a_seek index a).1) as Hrp.
  { unfold a_seek. by destruct (_ <? _). }
  destruct (a_seek index a) as [p a'] eqn:E. cbn [fst snd] in *.
  destruct (Z.eqb_spec p 0) as [->|Hp]; cbn [negb].
  - apply wp_ret. split; [done|]. intros m2 Hm2. split_and!; [done| |by destruct c'].
    by apply rep_set_mx.
  - assert (p ∈ elems (sel_col a)) as Hin.
    { unfold a_seek in E. destruct (_ <? _); [|congruence]. injection E as E _.
      destruct (elems (sel_col a) !! Z.to_nat index) eqn:Ep; cbn in E; [|congruence].
      subst. by eapply list_elem_of_lookup_2. }
    destruct (rep_elem _ _ _ _ _ Hr (rep_selected _ _ Hr) Hin) as (it & Hp' & _).
    rw -Hrp (rep_rec_ptr _ _ _ it Hr'); [|by rw Hit].
    rw -Hit in Hp'. apply wp_bind. destruct c'; cbn in *. eapply wp_load; [done|].
    apply wp_ret. split; [done|]. intros m2 Hm2. split_and!; [done| |done].
    by apply (rep_set_mx m2) in Hr'.
Qed.

End index.

(** ** Which operations keep the counter right *)
Section sync.
Context {V : Type}.
Implicit Types (a : alist V) (ac : acol).

Definition col_wf ac : Prop :=
  NoDup (elems ac) /\ (0 ∉ elems ac) /\ Z.of_nat (length (elems ac)) < 2 ^ 32 /\
  cursor_ok ac /\ col_synced ac.
Definition all_wf a : Prop := forall k ac, a_cols a !! k = Some ac -> col_wf ac.

(** Everything a client can do but [ll_sel] and [ll_mov]. *)
Inductive astep : alist V -> alist V -> Prop :=
| as_first a : astep a (a_first a).2
| as_last a : astep a (a_last a).2
| as_next a : astep a (a_next a).2
| as_prev a : astep a (a_prev a).2
| as_col k a : 0 <= k -> astep a (a_col k a)
| as_add p sz v a : p <> 0 -> p ∉ elems (sel_col a) ->
    Z.of_nat (length (elems (sel_col a))) + 1 < 2 ^ 32 -> astep a (a_add p sz v a)
| as_del a : astep a (a_del a)
| as_clr a : astep a (a_clr a)
| as_get i a : 0 <= i -> astep a (a_get i a).2.

Lemma synced_cursor ac i p :
  col_wf ac -> elems ac !! i = Some p -> col_wf (put_cursor p (Z.of_nat i) ac).
Proof.
  intros (Hnd & H0 & Hlen & _) Hi. split_and!; try done.
  - left. by eapply list_elem_of_lookup_2.
  - right. cbn. rw Nat2Z.id. split; [lia|done].
Qed.

(** A non-empty synced column splits at its cursor. *)
Lemma synced_split ac p :
  col_wf ac -> cursor ac = p -> p <> 0 ->
  exists l1 l2, elems ac = l1 ++ p :: l2 /\ pos ac = Z.of_nat (length l1) /\
    after p (elems ac) = hd_or 0 l2 /\ before 0 p (elems ac) = last_or 0 l1 /\
    without p (elems ac) = l1 ++ l2.
Proof.
  intros (Hnd & H0 & Hlen & Hc & Hs) <- Hp.
  destruct Hs as [E|[Hpos Hl]]; [destruct Hc as [Hc|[_ Hc]]; [rw E in Hc; by apply not_elem_of_nil in Hc|done]|].
  pose proof (take_drop_middle _ _ _ Hl) as E.
  assert (length (take (Z.to_nat (pos ac)) (elems ac)) = Z.to_nat (pos ac)) as Htl.
  { rw length_take. apply lookup_lt_Some in Hl. lia. }
  set (l1 := take _ _) in *. set (l2 := drop _ _) in *. clearbody l1 l2.
  exists l1, l2. rw -E in Hnd |- *. rw after_split // before_split // without_split //.
  split_and!; try done. lia.
Qed.

Lemma wf_alter f k a dat sel :
  all_wf a -> (forall ac, col_wf ac -> a_cols a !! k = Some ac -> col_wf (f ac)) ->
  all_wf (mkAlist V (alter f k (a_cols a)) sel dat).
Proof.
  intros Hw Hf j aj. cbn. destruct (decide (j = k)) as [->|Hne].
  - rw list_lookup_alter_eq. destruct (a_cols a !! k) as [ac|] eqn:E; [|done].
    intros [= <-]. apply Hf; [by eapply Hw|done].
  - rw list_lookup_alter_ne //. apply Hw.
Qed.

Lemma sel_col_lookup a ac : a_cols a !! a_sel a = Some ac -> sel_col a = ac.
Proof. unfold sel_col. by intros ->. Qed.

Lemma drop_cursor_wf ac : col_wf ac -> cursor ac <> 0 -> col_wf (drop_cursor ac).
Proof.
  intros Hw Hc. pose proof Hw as (Hnd & H0 & Hlen & _).
  destruct (synced_split ac _ Hw eq_refl Hc) as (l1 & l2 & E & Hpos & _).
  destruct (drop_cursor_split _ _ _ Hnd H0 E) as [-> Hok]. rw E in Hnd, H0, Hlen.
  apply NoDup_app in Hnd as (N1 & N2 & [N3 N4]%NoDup_cons).
  apply not_elem_of_app in H0 as [H1 [_ H2]%not_elem_of_cons].
  rw length_app in Hlen. cbn in Hlen. split_and!; cbn.
  - apply NoDup_app. split_and!; try done. intros x Hx Hx'. apply (N2 x Hx). by right.
  - rw elem_of_app. tauto.
  - rw length_app. lia.
  - unfold cursor_ok. cbn. destruct l2 as [|y l2]; cbn.
    + destruct (decide (l1 = [])) as [->|]; [by right|]. left. rw app_nil_r. by apply last_or_elem.
    + destruct (Z.eqb_spec y 0) as [->|]; [by destruct H2; left|]. left.
      apply elem_of_app. right. by left.
  - unfold col_synced. cbn. destruct l2 as [|y l2]; cbn.
    + destruct (decide (l1 = [])) as [->|(l & x & ->)%exists_last]; [by left|right].
      rw length_app in Hpos. cbn in Hpos. rw app_nil_r last_or_snoc u32_small; [|rw length_app in Hlen; cbn in *; lia].
      split; [lia|]. replace (Z.to_nat (pos ac - 1)) with (length l) by lia. by rw list_lookup_middle.
    + destruct (Z.eqb_spec y 0) as [->|]; [by destruct H2; left|]. right.
      rw Hpos Nat2Z.id. split; [lia|]. by rw list_lookup_middle.
Qed.

Lemma after_none p l : p ∉ l -> after p l = 0.
Proof.
  induction l as [|q l IH]; [done|]. intros [Hq Hl]%not_elem_of_cons. cbn.
  destruct (Z.eqb_spec q p); [congruence|]. by apply IH.
Qed.

Lemma before_none prv p l : p ∉ l -> before prv p l = 0.
Proof.
  revert prv. induction l as [|q l IH]; [done|]. intros prv [Hq Hl]%not_elem_of_cons. cbn.
  destruct (Z.eqb_spec q p); [congruence|]. by apply IH.
Qed.

Lemma append_wf ac p :
  col_wf ac -> p <> 0 -> p ∉ elems ac -> Z.of_nat (length (elems ac)) + 1 < 2 ^ 32 -> col_wf (append p ac).
Proof.
  intros (Hnd & H0 & Hlen & _) Hp Hin Hlen'. split_and!; cbn.
  - apply NoDup_app. split_and!; [done| |apply NoDup_singleton]. by intros x Hx ->%list_elem_of_singleton.
  - rw elem_of_app list_elem_of_singleton. intros [Hx|Hx]; [by apply H0|by apply Hp].
  - rw length_app. cbn. lia.
  - left. cbn. apply elem_of_app. right. by left.
  - right. cbn. rw Nat2Z.id. split; [lia|]. by rw list_lookup_middle.
Qed.

Theorem astep_wf a a' : all_wf a -> astep a a' -> all_wf a'.
Proof.
  intros Hw Hs. destruct Hs as [a|a|a|a|k a Hk|p sz v a Hp Hin Hlen|a|a|i a Hi].
  - unfold a_first. cbn. destruct (Z.eqb_spec (hd_or 0 (elems (sel_col a))) 0) as [|Hz]; [done|].
    apply wf_alter; [done|]. intros ac Hac E0. rw (sel_col_lookup _ _ E0) in Hz |- *.
    destruct (elems ac) as [|x l] eqn:E; [done|]. apply (synced_cursor ac 0); [done|]. by rw E.
  - unfold a_last. cbn. destruct (Z.eqb_spec (last_or 0 (elems (sel_col a))) 0) as [|Hz]; [done|].
    apply wf_alter; [done|]. intros ac Hac E0. rw (sel_col_lookup _ _ E0) in Hz |- *.
    destruct (decide (elems ac = [])) as [E|(l & x & E)%exists_last]; [by rw E in Hz|].
    destruct (Hac) as (_ & _ & Hlen & _). rw E last_or_snoc length_app in Hlen |- *. cbn in Hlen |- *.
    rw u32_small; [|lia]. replace (Z.of_nat (length l + 1) - 1) with (Z.of_nat (length l)) by lia.
    apply synced_cursor; [done|]. rw E. by rw list_lookup_middle.
  - unfold a_next. cbn. destruct (Z.eqb_spec (after (cursor (sel_col a)) (elems (sel_col a))) 0) as [|Hz]; [done|].
    apply wf_alter; [done|]. intros ac Hac E0. rw (sel_col_lookup _ _ E0) in Hz |- *.
    destruct (decide (cursor ac = 0)) as [Hc|Hc].
    { destruct Hac as (_ & H0 & _). rw Hc in Hz. by rw after_none in Hz. }
    destruct (synced_split ac _ Hac eq_refl Hc) as (l1 & l2 & E & Hpos & Ha & _).
    rw Ha in Hz |- *. destruct Hac as (Hnd & H0 & Hlen & Hcs). destruct l2 as [|y l2]; [done|].
    cbn. pose proof Hlen as Hl. rw E length_app in Hl. cbn in Hl. rw Hpos u32_small; [|lia].
    replace (Z.of_nat (length l1) + 1) with (Z.of_nat (S (length l1))) by lia.
    apply synced_cursor; [done|]. rw E. rw lookup_app_r; [|lia].
    by replace (S (length l1) - length l1)%nat with 1%nat by lia.
  - unfold a_prev. cbn. destruct (Z.eqb_spec (before 0 (cursor (sel_col a)) (elems (sel_col a))) 0) as [|Hz]; [done|].
    apply wf_alter; [done|]. intros ac Hac E0. rw (sel_col_lookup _ _ E0) in Hz |- *.
    destruct (decide (cursor ac = 0)) as [Hc|Hc].
    { destruct Hac as (_ & H0 & _). rw Hc in Hz. by rw before_none in Hz. }
    destruct (synced_split ac _ Hac eq_refl Hc) as (l1 & l2 & E & Hpos & _ & Hb & _).
    rw Hb in Hz |- *. destruct (decide (l1 = [])) as [->|(l & x & ->)%exists_last]; [done|].
    rw last_or_snoc. pose proof Hac as (Hnd & H0 & Hlen & Hcs). rw E !length_app in Hlen Hpos.
    cbn in Hlen, Hpos. rw Hpos u32_small; [|lia].
    replace (Z.of_nat (length l + 1) - 1) with (Z.of_nat (length l)) by lia.
    apply synced_cursor; [done|]. rw E -app_assoc. by rw list_lookup_middle.
  - unfold a_col. destruct (_ <? _); [|done]. apply Hw.
  - unfold a_add. apply wf_alter; [done|]. intros ac Hac E. rw (sel_col_lookup _ _ E) in Hin Hlen.
    by apply append_wf.
  - unfold a_del. destruct (Z.eqb_spec (cursor (sel_col a)) 0) as [|Hc]; [done|].
    apply wf_alter; [done|]. intros ac Hac E. rw (sel_col_lookup _ _ E) in Hc.
    by apply drop_cursor_wf.
  - unfold a_clr. apply wf_alter; [done|]. intros ac _ _. split_and!; cbn; try done.
    + constructor.
    + by apply not_elem_of_nil.
    + by right.
    + by left.
  - unfold a_get, a_seek, a_cnt. destruct (Z.ltb_spec i (Z.of_nat (length (elems (sel_col a))))) as [Hlt|]; [|done].
    apply wf_alter; [done|]. intros ac Hac E0. rw (sel_col_lookup _ _ E0) in Hlt |- *.
    destruct (lookup_lt_is_Some_2 (elems ac) (Z.to_nat i)) as [q Hq]; [lia|]. rw Hq.
    rw -{1}(Z2Nat.id i Hi). by apply synced_cursor.
Qed.
End sync.
