(* ===== verification/LinkedListTrace.v ===== *)
(** * Whole programs over the list

    [cmd] is a call of the list's API and [client] a program that chooses its
    next call by the answers it got, so that it can use the addresses that
    [ll_add] gave it; [spec] is what the abstract list answers; [ready] what the
    caller must respect (a record pointer it selects or moves is a live record of
    the list, sizes fit the header, an index is looked up only while the cursor's
    counter is right).  The theorem runs any program of such calls on the pointer
    code, from [ll_init] on. *)
From S2P Require Import Prelude Memory Mutex LinkedList LinkedListSpec LinkedListProof LinkedListEdit LinkedListIndex.
Set Default Goal Selector "!".

Inductive cmd (V : Type) : Type :=
| CFirst | CLast | CNext | CPrev | CCurrent | CCnt
| CCol (k : Z) | CSel (p : Z) | CAdd (v : V) (sz : Z) | CNew (blank : V) (sz : Z)
| CDel | CMov (p k : Z) | CClr | CGet (index : Z).
Arguments CFirst {V}. Arguments CLast {V}. Arguments CNext {V}. Arguments CPrev {V}.
Arguments CCurrent {V}. Arguments CCnt {V}. Arguments CCol {V}. Arguments CSel {V}.
Arguments CAdd {V}. Arguments CNew {V}. Arguments CDel {V}. Arguments CMov {V}.
Arguments CClr {V}. Arguments CGet {V}.

Inductive answer := ARec (r : Z * option Z) | ANum (n : Z) | ANone.

(** A program: after each answer the next call, or the end. *)
Inductive client (V : Type) : Type :=
| Done | Call (i : cmd V) (k : answer -> client V).
Arguments Done {V}. Arguments Call {V}.
(** Calls that do not depend on answers. *)
Fixpoint script {V} (l : list (cmd V)) : client V :=
  match l with [] => Done | i :: l => Call i (fun _ => script l) end.

Section trace.
Context {A V : Type} `{AL : AllocatorLaws A}.
Abbreviation ctx := (ll_context A V).
Implicit Types (c : ctx) (a : alist V).

Definition call (h : Z) (i : cmd V) : M ctx answer :=
  match i with
  | CFirst => r ← ll_first h; mret (ARec r)
  | CLast => r ← ll_last h; mret (ARec r)
  | CNext => r ← ll_next h; mret (ARec r)
  | CPrev => r ← ll_prev h; mret (ARec r)
  | CCurrent => r ← ll_current h; mret (ARec r)
  | CCnt => n ← ll_cnt h; mret (ANum n)
  | CCol k => ll_col k h;; mret ANone
  | CSel p => n ← ll_sel p h; mret (ANum n)
  | CAdd v sz => p ← ll_add v sz h; mret (ANum p)
  | CNew v sz => p ← ll_new v sz h; mret (ANum p)
  | CDel => ll_del h;; mret ANone
  | CMov p k => n ← ll_mov p k h; mret (ANum n)
  | CClr => ll_clr h;; mret ANone
  | CGet i => r ← ll_get i h; mret (ARec r)
  end.

Fixpoint run (h : Z) (prog : client V) : M ctx (list answer) :=
  match prog with
  | Done => mret []
  | Call i k => r ← call h i; rs ← run h (k r); mret (r :: rs)
  end.
Definition calls (h : Z) (l : list (cmd V)) : M ctx (list answer) := run h (script l).

(** The answers of the abstract list; an allocation may fail. *)
Inductive spec : cmd V -> alist V -> answer -> alist V -> Prop :=
| s_first a : spec CFirst a (ARec (a_first a).1) (a_first a).2
| s_last a : spec CLast a (ARec (a_last a).1) (a_last a).2
| s_next a : spec CNext a (ARec (a_next a).1) (a_next a).2
| s_prev a : spec CPrev a (ARec (a_prev a).1) (a_prev a).2
| s_current a : spec CCurrent a (ARec (a_current a).1) a
| s_cnt a : spec CCnt a (ANum (a_cnt a)) a
| s_col k a : spec (CCol k) a ANone (a_col k a)
| s_sel p a : spec (CSel (p + HDR)) a (ANum (a_selrec p a).1) (a_selrec p a).2
| s_add v sz p a : 0 < p -> a_data a !! p = None ->
    spec (CAdd v sz) a (ANum (p + HDR)) (a_add p sz v a)
| s_add_fail v sz a : spec (CAdd v sz) a (ANum 0) a
| s_new v sz p a : 0 < p -> a_data a !! p = None ->
    spec (CNew v sz) a (ANum (p + HDR)) (a_add p sz v a)
| s_new_fail v sz a : spec (CNew v sz) a (ANum 0) a
| s_del a : spec CDel a ANone (a_del a)
| s_mov p k a : spec (CMov (p + HDR) k) a (ANum (a_mov p k a).1) (a_mov p k a).2
| s_clr a : spec CClr a ANone (a_clr a)
| s_get i a : spec (CGet i) a (ARec (a_get i a).1) (a_get i a).2.

Definition ready (i : cmd V) a : Prop :=
  match i with
  | CCol k => 0 <= k
  | CSel q => is_Some (a_data a !! (q - HDR))
  | CMov q k => is_Some (a_data a !! (q - HDR)) /\ 0 <= k
  | CAdd _ sz | CNew _ sz =>
      0 <= sz /\ sz + HDR < 2 ^ 32 /\ Z.of_nat (size (a_data a)) + 1 < 2 ^ 32
  | CGet i => 0 <= i /\ col_synced (sel_col a)
  | _ => True
  end.

Inductive specs : client V -> alist V -> list answer -> alist V -> Prop :=
| ss_done a : specs Done a [] a
| ss_call i k a r a1 rs a2 : spec i a r a1 -> specs (k r) a1 rs a2 -> specs (Call i k) a (r :: rs) a2.

(** The program respects [ready] whatever the answers are. *)
Fixpoint safe (prog : client V) a : Prop :=
  match prog with
  | Done => True
  | Call i k => ready i a /\ forall r a', spec i a r a' -> safe (k r) a'
  end.

Lemma call_lift {R} (m : M ctx R) (f : R -> answer) c Q :
  wp m c (fun r c' => Q (f r) c') -> wp (r ← m; mret (f r)) c Q.
Proof. intros Hm. apply wp_bind. eapply wp_mono; [exact Hm|]. by intros r c' ?. Qed.

Lemma call_refines i c a h :
  ll_rep c a -> may_lock (mx c) h -> ready i a ->
  wp (call h i) c (fun r c' => exists a', spec i a r a' /\ ll_rep c' a' /\ lock_post h (mx c) (mx c')).
Proof.
  intros Hr Hl Hrd. destruct i; cbn [call ready] in *;
    first [apply (call_lift _ ARec)|apply (call_lift _ ANum)|apply (call_lift _ (fun _ => ANone))].
  - eapply wp_mono; [by apply ll_first_refines|]. intros r c' (-> & ? & ?). eauto using spec.
  - eapply wp_mono; [by apply ll_last_refines|]. intros r c' (-> & ? & ?). eauto using spec.
  - eapply wp_mono; [by apply ll_next_refines|]. intros r c' (-> & ? & ?). eauto using spec.
  - eapply wp_mono; [by apply ll_prev_refines|]. intros r c' (-> & ? & ?). eauto using spec.
  - eapply wp_mono; [by apply ll_current_refines|]. intros r c' (-> & ? & ?). eauto using spec.
  - eapply wp_mono; [by apply ll_cnt_refines|]. intros r c' (-> & ? & ?). eauto using spec.
  - eapply wp_mono; [by apply ll_col_refines|]. intros r c' ((_ & ? & ?) & _). eauto using spec.
  - replace p with (p - HDR + HDR) by lia.
    eapply wp_mono; [by apply ll_sel_refines|]. intros r c' (-> & ? & ?). eauto using spec.
  - destruct Hrd as (? & ? & ?). eapply wp_mono; [by apply ll_add_refines|].
    intros r c' (_ & [((-> & ? & ?) & _)|(p & ? & ? & _ & (-> & ? & ?) & _)]); eauto using spec.
  - destruct Hrd as (? & ? & ?). eapply wp_mono; [by apply ll_new_refines|].
    intros r c' (_ & [((-> & ? & ?) & _)|(p & ? & ? & _ & (-> & ? & ?) & _)]); eauto using spec.
  - eapply wp_mono; [by apply ll_del_refines|]. intros r c' ((_ & ? & ?) & _). eauto using spec.
  - destruct Hrd. replace p with (p - HDR + HDR) by lia.
    eapply wp_mono; [by apply ll_mov_refines|]. intros r c' (-> & ? & ?). eauto using spec.
  - eapply wp_mono; [by apply ll_clr_refines|]. intros r c' ((_ & ? & ?) & _). eauto using spec.
  - destruct Hrd. eapply wp_mono; [by apply ll_get_refines|]. intros r c' (-> & ? & ?). eauto using spec.
Qed.

Lemma run_refines prog c a h :
  ll_rep c a -> may_lock (mx c) h -> safe prog a ->
  wp (run h prog) c (fun rs c' => exists a', specs prog a rs a' /\ ll_rep c' a' /\ lock_post h (mx c) (mx c')).
Proof.
  revert c a. induction prog as [|i k IH]; intros c a Hr Hl Hs.
  - apply wp_ret. exists a. split_and!; [constructor|done|by apply lock_post_refl].
  - destruct Hs as [Hrd Hs]. apply wp_bind. eapply wp_mono; [by apply call_refines|].
    intros r c1 (a1 & Hs1 & Hr1 & Hl1). apply wp_bind.
    eapply wp_mono; [apply (IH r c1 a1); [done|apply Hl1|by eapply Hs]|].
    intros rs c2 (a2 & Hs2 & Hr2 & Hl2). apply wp_ret. exists a2.
    split_and!; [by econstructor|done|by eapply lock_post_trans].
Qed.
End trace.

(** C1: refinement of the list as a whole.  After [ll_init] on a zeroed context
    over any lawful allocator, every program of API calls that respects [ready]
    - it may choose each call by the answers it has got, so that it selects and
    moves the records whose addresses the list handed out - runs without
    undefined behaviour or deadlock, and its answers and final contents are those
    of the abstract multi-column list; if the state array cannot be allocated,
    [ll_init] says so and nothing stays allocated. *)
Theorem linked_list_refinement {A V} `{AllocatorLaws A} (c : ll_context A V) nc lim prog :
  blank_ctx c -> may_lock (mx c) 0 -> 0 < nc < 256 -> safe prog (a_init (V := V) nc) ->
  wp (ll_init LL_MODE_VECTOR nc lim) c (fun ok c1 =>
    ok = 0 /\ a_live (heap c1) = a_live (heap c) \/
    ok = 1 /\ wp (run 0 prog) c1 (fun rs c2 =>
      exists a', specs prog (a_init nc) rs a' /\ ll_rep c2 a' /\ lock_post 0 (mx c1) (mx c2))).
Proof.
  intros Hb Hl Hn Hs. eapply wp_mono; [by apply ll_init_refines|].
  intros ok c1 (Hl1 & [(-> & _ & ?)|(-> & Hr & _)]); [by left|right].
  split; [done|]. apply run_refines; [done|apply Hl1|done].
Qed.

Definition blank : ll_context Bump.t Z :=
  mkContext Bump.t Z 64 0 0 0 0 true true 0 [] ∅ (Bump.empty 4096 10) (Some (mutex_init 64)).

(** Two records are added; the first one, by the address that [ll_add] gave, is
    selected and moved to the other column, and found there. *)
Definition demo : client Z :=
  Call (CAdd 11 1) (fun r1 => match r1 with
    | ANum p => if p =? 0 then Done else
        Call (CAdd 22 1) (fun _ => Call (CSel p) (fun _ => Call (CMov p 1) (fun _ =>
          Call (CCol 1) (fun _ => Call CFirst (fun _ => Done)))))
    | _ => Done end).

Lemma a_selrec_data {V} p (a : alist V) : a_data (a_selrec p a).2 = a_data a.
Proof. unfold a_selrec. by case_decide. Qed.
Lemma demo_safe : safe demo (a_init (V := Z) 2).
Proof.
  split; [split_and!; [lia|done|by vm_compute]|]. intros r a1 Hs1. inversion Hs1; subst; [|done].
  destruct (Z.eqb_spec (p + HDR) 0) as [|_]; [done|]. split; [split_and!; [lia|done|]|].
  { cbn [a_data a_add a_init]. by rw insert_empty map_size_singleton. }
  intros r2 a2 Hs2. assert (is_Some (a_data a2 !! p)) as Hp.
  { inversion Hs2; subst; cbn; [|by rw lookup_insert_eq; eexists].
    rw lookup_insert_is_Some. destruct (decide (p0 = p)) as [?|Hne]; [by left|right; split; [done|]]. rw lookup_insert_eq. by eexists. }
  assert (p + HDR - HDR = p) as Ep by lia. split; [cbn; by rw Ep|]. intros r3 a3 Hs3. inversion Hs3 as [| | | | | | |q ? Eq| | | | | | | |]; subst.
  assert (q = p) as -> by lia. split; [cbn; by rw Ep a_selrec_data|].
  intros r4 a4 _. split; [done|]. intros r5 a5 _. split; [done|]. by intros.
Qed.

Lemma linked_list_refinement_witness :
  fst <$> (ll_init LL_MODE_VECTOR 2 0;; run 0 demo) blank =
    Some [ANum (4160 + HDR); ANum (4190 + HDR); ANum 1; ANum 1; ANone; ARec (4160 + HDR, Some 1)] /\
  wp (ll_init LL_MODE_VECTOR 2 0) blank (fun ok c1 =>
    ok = 0 /\ a_live (heap c1) = a_live (heap blank) \/
    ok = 1 /\ wp (run 0 demo) c1 (fun rs c2 =>
      exists a', specs demo (a_init 2) rs a' /\ ll_rep c2 a' /\ lock_post 0 (mx c1) (mx c2))).
Proof.
  split; [by vm_compute|].
  apply (linked_list_refinement blank 2 0 demo); [| |done|exact demo_safe].
  - split_and!; try done; cbn; intros ? ?; by rw lookup_empty.
  - split; [|done]. split_and!; vm_compute; (split; congruence) || congruence.
Defined.

(** The record at position [i] of the selected column, as [ll_get] returns it. *)
Definition nth_record {V} (i : Z) (a : alist V) : Z * option Z :=
  match elems (sel_col a) !! Z.to_nat i with
  | Some p => (p + HDR, fst <$> a_data a !! p)
  | None => (0, None)
  end.

(** access by index.  From a list whose counters are right, any calls but
    [ll_sel] and [ll_mov] keep them right, so [ll_get(i)] returns the i-th record
    of the selected column with its size, and NULL beyond the end. *)
Theorem index_access {A V} `{AllocatorLaws A} (c : ll_context A V) a a' i h :
  all_wf a -> rtc astep a a' -> ll_rep c a' -> may_lock (mx c) h -> 0 <= i ->
  wp (ll_get i h) c (fun r c' =>
    r = nth_record i a' /\ exists a2, ll_rep c' a2 /\ all_wf a2).
Proof.
  intros Hw Hs Hr Hl Hi. assert (all_wf a') as Hw'.
  { clear Hr. induction Hs; [done|]. eauto using astep_wf. }
  pose proof (rep_selected _ _ Hr) as Hsel.
  eapply wp_mono; [apply ll_get_refines; [done|done|by destruct (Hw' _ _ Hsel) as (_ & _ & _ & _ & ?)|done]|].
  intros r c' (-> & Hr' & _). split.
  - unfold nth_record, a_get, a_seek, a_cnt. destruct (Z.ltb_spec i (Z.of_nat (length (elems (sel_col a'))))) as [Hlt|Hge].
    + destruct (lookup_lt_is_Some_2 (elems (sel_col a')) (Z.to_nat i)) as [p Hp]; [lia|].
      rw Hp. cbn. unfold rec_ptr. destruct (Z.eqb_spec p 0) as [->|]; [|done].
      exfalso. eapply rep_nonzero; [exact Hr|exact Hsel|]. by eapply list_elem_of_lookup_2.
    + by rw lookup_ge_None_2; [|lia].
  - exists (a_get i a').2. split; [done|]. eapply astep_wf; [done|by constructor].
Qed.

(** ** Two defects of ll_alg.c, on concrete runs *)

(** [ll_sel] moves the cursor but not its counter: with the first of three
    records selected, [ll_get(2)] returns the first record. *)
Theorem stale_index_after_sel :
  (fun rs => rs.1) <$> (ll_init LL_MODE_VECTOR 1 0;;
     calls 0 [CAdd 11 1; CAdd 22 1; CAdd 33 1; CSel (4128 + HDR); CGet 2]) blank =
  Some [ANum (4128 + HDR); ANum (4158 + HDR); ANum (4188 + HDR); ANum 1; ARec (4128 + HDR, Some 1)].
Proof. vm_compute. reflexivity. Qed.

(** In ring mode, deleting the only record dereferences NULL. *)
Theorem ring_del_last_undefined :
  (ll_init LL_MODE_RING 1 0;; calls 0 [CAdd 11 1; CDel]) blank = None /\
  is_Some ((ll_init LL_MODE_VECTOR 1 0;; calls 0 [CAdd 11 1; CDel]) blank).
Proof. split; [vm_compute; reflexivity|]. vm_compute. by eexists. Qed.

Lemma index_access_witness :
  let c := match ll_init LL_MODE_VECTOR 2 0 blank with Some (_, c) => c | None => blank end in
  exists r, wp (ll_get 3 0) c (fun r' c' => r' = r /\ exists a2, ll_rep c' a2 /\ all_wf a2).
Proof.
  intros c. exists (0, None).
  pose proof (ll_init_refines blank 2 0) as Hi.
  assert (blank_ctx blank) as Hb by (split_and!; try done; cbn; intros ? ?; by rw lookup_empty).
  assert (may_lock (mx blank) 0) as Hl.
  { split; [|done]. split_and!; vm_compute; (split; congruence) || congruence. }
  specialize (Hi Hb Hl ltac:(lia)). apply wp_run in Hi as (ok & c1 & E & Hl1 & Hcase).
  assert (c = c1) as -> by (unfold c; by rw E).
  destruct Hcase as [(-> & _ & _)|(-> & Hr & _)]; [exfalso; vm_compute in E; congruence|].
  apply (index_access c1 (a_init 2) (a_init 2) 3 0); [|done|done|apply Hl1|lia].
  intros k ac [-> _]%lookup_replicate. split_and!; cbn; try done; [constructor|apply not_elem_of_nil|by right|by left].
Defined.
