(* ===== verification/ColumnList.v ===== *)
(** * The interface of the multi-column list (iMemory.h, [iLlist])

    What [iLlist] promises to its clients (cPool, cBufferMap, the repository):
    [ColumnList] lists the operations with their laws, each a total-correctness
    triple against the abstract list [alist] of LinkedListSpec.v.  The clients'
    theorems are proved against this class; [ll_column_list] shows that the
    pointer implementation of ll_alg.c over any lawful allocator is an
    instance. *)
From S2P Require Import Prelude Memory Mutex LinkedList LinkedListSpec LinkedListProof LinkedListEdit LinkedListIndex.
Set Default Goal Selector "!".

(** Nesting of the list's lock that the clients need. *)
Definition MAX_NEST : Z := 1000.

Class ColumnList (C V : Type) := {
  cl_lock : Z -> M C Z;
  cl_unlock : Z -> M C unit;
  cl_col : Z -> Z -> M C unit;
  cl_cnt : Z -> M C Z;
  cl_first : Z -> M C (Z * option Z);
  cl_next : Z -> M C (Z * option Z);
  cl_current : Z -> M C (Z * option Z);
  cl_add : V -> Z -> Z -> M C Z;
  cl_new : V -> Z -> Z -> M C Z;
  cl_sel : Z -> Z -> M C Z;
  cl_mov : Z -> Z -> Z -> M C Z;
  cl_del : Z -> M C unit;
  cl_read : Z -> M C V;
  cl_write : Z -> (V -> V) -> M C unit;
  (* the heap the list was initialised with, which its owner shares *)
  cl_halloc : Z -> M C Z;
  cl_hfree : Z -> Z -> M C unit;

  (* [cl_rep c a bufs]: the list stands for [a]; [bufs] are blocks of the
     shared heap that the owner holds.  [cl_free]: nobody holds the lock;
     [cl_held c h d]: the handle [h] holds it, [d] levels deep. *)
  cl_rep : C -> alist V -> gmap Z Z -> Prop;
  cl_free : C -> Prop;
  cl_held : C -> Z -> Z -> Prop
}.

(** What every list satisfies: columns are duplicate-free and disjoint, their
    records are exactly the live ones, and the owner's blocks are apart. *)
Definition alist_ok {V} (a : alist V) (b : gmap Z Z) : Prop :=
  (forall k ac, a_cols a !! k = Some ac -> NoDup (elems ac) /\ cursor_ok ac /\ (0 ∉ elems ac)) /\
  (forall p, is_Some (a_data a !! p) <-> exists k ac, a_cols a !! k = Some ac /\ p ∈ elems ac) /\
  (forall j k aj ak p, a_cols a !! j = Some aj -> a_cols a !! k = Some ak ->
    p ∈ elems aj -> p ∈ elems ak -> j = k) /\
  (a_sel a < length (a_cols a))%nat /\ (length (a_cols a) < 256)%nat /\
  (forall p n, b !! p = Some n -> 0 < p /\ a_data a !! p = None) /\
  (forall p x, a_data a !! p = Some x -> 0 < p).

Section triple.
Context {C V : Type} `{ColumnList C V}.

(** From a list that stands for [a] with the lock held, [m] returns [r] and
    leaves a list that stands for [a'], with the lock as it was. *)
Definition cl_triple {R} (h d : Z) (m : M C R) (a : alist V) (b : gmap Z Z)
    (Q : R -> alist V -> gmap Z Z -> Prop) : Prop :=
  forall c, cl_rep c a b -> cl_held c h d ->
    wp m c (fun r c' => exists a' b', cl_rep c' a' b' /\ cl_held c' h d /\ Q r a' b').

Definition put_data (p : Z) (f : V -> V) (a : alist V) : alist V :=
  mkAlist V (a_cols a) (a_sel a) (alter (fun x => (x.1, f x.2)) p (a_data a)).
End triple.

Class ColumnListLaws (C V : Type) `{ColumnList C V} := {
  cl_lock_free c a b : cl_rep c a b -> cl_free c ->
    wp (cl_lock 0) c (fun h c' => cl_rep c' a b /\ cl_held c' h 1);
  cl_lock_nest c a b h d : cl_rep c a b -> cl_held c h d -> d < MAX_NEST ->
    wp (cl_lock h) c (fun h' c' => h' = h /\ cl_rep c' a b /\ cl_held c' h (d + 1));
  cl_unlock_nest c a b h d : cl_rep c a b -> cl_held c h d -> 1 < d ->
    wp (cl_unlock h) c (fun _ c' => cl_rep c' a b /\ cl_held c' h (d - 1));
  cl_unlock_last c a b h : cl_rep c a b -> cl_held c h 1 ->
    wp (cl_unlock h) c (fun _ c' => cl_rep c' a b /\ cl_free c');

  cl_col_law h d k a b : 0 <= k ->
    cl_triple h d (cl_col k h) a b (fun _ a' b' => a' = a_col k a /\ b' = b);
  cl_cnt_law h d a b : cl_triple h d (cl_cnt h) a b (fun r a' b' => r = a_cnt a /\ a' = a /\ b' = b);
  cl_first_law h d a b :
    cl_triple h d (cl_first h) a b (fun r a' b' => r = (a_first a).1 /\ a' = (a_first a).2 /\ b' = b);
  cl_next_law h d a b :
    cl_triple h d (cl_next h) a b (fun r a' b' => r = (a_next a).1 /\ a' = (a_next a).2 /\ b' = b);
  cl_current_law h d a b :
    cl_triple h d (cl_current h) a b (fun r a' b' => r = (a_current a).1 /\ a' = a /\ b' = b);
  cl_add_law h d v sz a b :
    0 <= sz -> sz + HDR < 2 ^ 32 -> Z.of_nat (size (a_data a)) + 1 < 2 ^ 32 ->
    cl_triple h d (cl_add v sz h) a b (fun r a' b' => b' = b /\
      (r = 0 /\ a' = a \/
       exists p, r = p + HDR /\ 0 < p /\ a_data a !! p = None /\ b !! p = None /\ a' = a_add p sz v a));
  cl_new_law h d v sz a b :
    0 <= sz -> sz + HDR < 2 ^ 32 -> Z.of_nat (size (a_data a)) + 1 < 2 ^ 32 ->
    cl_triple h d (cl_new v sz h) a b (fun r a' b' => b' = b /\
      (r = 0 /\ a' = a \/
       exists p, r = p + HDR /\ 0 < p /\ a_data a !! p = None /\ b !! p = None /\ a' = a_add p sz v a));
  cl_sel_law h d p a b : is_Some (a_data a !! p) ->
    cl_triple h d (cl_sel (p + HDR) h) a b
      (fun r a' b' => r = (a_selrec p a).1 /\ a' = (a_selrec p a).2 /\ b' = b);
  cl_mov_law h d p k a b : is_Some (a_data a !! p) -> 0 <= k ->
    cl_triple h d (cl_mov (p + HDR) k h) a b
      (fun r a' b' => r = (a_mov p k a).1 /\ a' = (a_mov p k a).2 /\ b' = b);
  cl_del_law h d a b :
    cl_triple h d (cl_del h) a b (fun _ a' b' => a' = a_del a /\ b' = b);
  cl_read_law c a b p sz v : cl_rep c a b -> a_data a !! p = Some (sz, v) ->
    wp (cl_read (p + HDR)) c (fun r c' => r = v /\ c' = c);
  cl_write_law h d p f a b : is_Some (a_data a !! p) ->
    cl_triple h d (cl_write (p + HDR) f) a b (fun _ a' b' => a' = put_data p f a /\ b' = b);
  cl_halloc_law h d n a b : 0 < n ->
    cl_triple h d (cl_halloc n) a b (fun r a' b' => a' = a /\
      (r = 0 /\ b' = b \/ 0 < r /\ a_data a !! r = None /\ b !! r = None /\ b' = <[r := n]> b));
  cl_hfree_law h d p n a b : b !! p = Some n ->
    cl_triple h d (cl_hfree p n) a b (fun _ a' b' => a' = a /\ b' = delete p b);

  (* what every list satisfies *)
  cl_wf c a b : cl_rep c a b -> alist_ok a b
}.

(** The heap behind the list grants the next request: then a record is added. *)
Class ListGrants (C V : Type) `{ColumnList C V} := {
  cl_grants : C -> Prop;
  grants_lock h c r c' : cl_lock h c = Some (r, c') -> cl_grants c -> cl_grants c';
  grants_col k h c r c' : cl_col k h c = Some (r, c') -> cl_grants c -> cl_grants c';
  grants_first h c r c' : cl_first h c = Some (r, c') -> cl_grants c -> cl_grants c';
  grants_add c a b v sz h r c' : cl_rep c a b -> 0 <= sz -> sz + HDR < 2 ^ 32 -> cl_grants c ->
    cl_add v sz h c = Some (r, c') -> r <> 0
}.

(** ** The implementation *)
Section frame.
Context {A V : Type} `{Allocator A}.
Abbreviation ctx := (ll_context A V).

(** Code that leaves the heap and the state array's address alone. *)
Definition keeps {R} (m : M ctx R) : Prop :=
  forall c r c', m c = Some (r, c') -> heap c' = heap c /\ state_addr c' = state_addr c.

Lemma keeps_ret {R} (r : R) : keeps (mret r).
Proof. by intros c r' c' [= <- <-]. Qed.
Lemma keeps_bind {R T} (m : M ctx R) (f : R -> M ctx T) :
  keeps m -> (forall r, keeps (f r)) -> keeps (m ≫= f).
Proof.
  intros Hm Hf c t c'. unfold mbind, M_bind. destruct (m c) as [[r c1]|] eqn:E; [|done].
  intros E2. apply Hm in E as [<- <-]. by eapply Hf.
Qed.
Lemma keeps_gets {R} (f : ctx -> R) : keeps (gets f).
Proof. by intros c r' c' [= <- <-]. Qed.
Lemma keeps_when b (m : M ctx unit) : keeps m -> keeps (when b m).
Proof. destruct b; [done|]. intros _. apply keeps_ret. Qed.
Lemma keeps_load p : keeps (load p).
Proof. intros c r c'. unfold load. destruct (items c !! p); [|done]. by intros [= <- <-]. Qed.
Lemma keeps_store p f : keeps (store p f).
Proof. intros c r c'. unfold store. destruct (items c !! p); [|done]. by intros [= <- <-]. Qed.
Lemma keeps_get_state k : keeps (get_state k).
Proof. intros c r c'. unfold get_state. destruct (states c !! _); [|done]. by intros [= <- <-]. Qed.
Lemma keeps_upd_state k f : keeps (upd_state k f).
Proof. intros c r c'. unfold upd_state. destruct (states c !! _); [|done]. by intros [= <- <-]. Qed.
Lemma keeps_set_ccol k : keeps (modify (set_ccol k)).
Proof. by intros c r' c' [= <- <-]. Qed.
Lemma keeps_lock h : keeps (ll_lock h).
Proof.
  intros c r c'. unfold ll_lock. destruct (mx c) as [m|]; [|by intros [= <- <-]].
  destruct (lock h m) as [[? ?]|]; [|done]. by intros [= <- <-].
Qed.
Lemma keeps_unlock h : keeps (ll_unlock h).
Proof.
  intros c r c'. unfold ll_unlock. destruct (mx c) as [m|]; [|by intros [= <- <-]].
  destruct (unlock h m) as [[? ?]|]; [|done]. by intros [= <- <-].
Qed.
End frame.

Create HintDb keeps discriminated.
#[global] Hint Resolve keeps_ret keeps_bind keeps_gets keeps_when keeps_load keeps_store
  keeps_get_state keeps_upd_state keeps_set_ccol keeps_lock keeps_unlock : keeps.

(** Syntax-directed: the frame of a whole operation. *)
Ltac keeps_tac :=
  repeat first
    [ progress intros
    | apply keeps_bind
    | apply keeps_when
    | solve [auto with keeps nocore]
    | match goal with |- keeps (if ?b then _ else _) => destruct b end
    | match goal with |- keeps (match ?x with _ => _ end) => destruct x end ].

Section frames.
Context {A V : Type} `{Allocator A}.
Abbreviation ctx := (ll_context A V).

Lemma keeps_locked {R} h (body : Z -> M ctx R) : (forall x, keeps (body x)) -> keeps (locked h body).
Proof. intros Hb. unfold locked. keeps_tac. Qed.

Lemma keeps_first h : keeps (ll_first (A := A) (V := V) h).
Proof. apply keeps_locked. unfold cur_state, upd_cur. keeps_tac. Qed.
Lemma keeps_next h : keeps (ll_next (A := A) (V := V) h).
Proof. apply keeps_locked. unfold cur_state, upd_cur. keeps_tac. Qed.
Lemma keeps_current h : keeps (ll_current (A := A) (V := V) h).
Proof. apply keeps_locked. unfold cur_state, upd_cur. keeps_tac. Qed.
Lemma keeps_cnt h : keeps (ll_cnt (A := A) (V := V) h).
Proof. apply keeps_locked. unfold cur_state, upd_cur. keeps_tac. Qed.
Lemma keeps_col k h : keeps (ll_col (A := A) (V := V) k h).
Proof. unfold ll_col, locked. keeps_tac. Qed.
Lemma keeps_sel p h : keeps (ll_sel (A := A) (V := V) p h).
Proof. unfold ll_sel. keeps_tac. Qed.
Lemma keeps_mov p k h : keeps (ll_mov (A := A) (V := V) p k h).
Proof. apply keeps_locked. unfold mov_unlink, mov_link. keeps_tac. Qed.

Lemma wp_keeps {R} (m : M ctx R) c Q :
  keeps m -> wp m c Q -> wp m c (fun r c' => Q r c' /\ heap c' = heap c /\ state_addr c' = state_addr c).
Proof.
  intros Hk Hw. apply wp_run in Hw as (r & c' & E & HQ). eapply wp_intro; [done|].
  split; [done|]. by eapply Hk.
Qed.
End frames.

Section instance.
Context {A V : Type} `{AL : AllocatorLaws A}.
Abbreviation ctx := (ll_context A V).

Definition owner_blocks (c : ctx) (a : alist V) (b : gmap Z Z) : Prop :=
  forall p n, b !! p = Some n ->
    a_live (heap c) !! p = Some n /\ a_data a !! p = None /\ p <> state_addr c.

Definition list_rep (c : ctx) (a : alist V) (b : gmap Z Z) : Prop :=
  ll_rep c a /\ owner_blocks c a b.

(** The list has a mutex, free or held with the handle at depth [d]. *)
Definition list_free (c : ctx) : Prop :=
  exists m, mx c = Some m /\ mutex_wf m /\ m_native m = false.
Definition list_held (c : ctx) (h d : Z) : Prop :=
  exists m, mx c = Some m /\ mutex_wf m /\ m_native m = true /\ h = get_handle m /\
    m_lcount m = d /\ d <= MAX_NEST.

#[global] Instance ll_column_list : ColumnList ctx V := {
  cl_lock := ll_lock; cl_unlock := ll_unlock; cl_col := ll_col; cl_cnt := ll_cnt;
  cl_first := ll_first; cl_next := ll_next; cl_current := ll_current;
  cl_add := ll_add; cl_new := ll_new; cl_sel := ll_sel; cl_mov := ll_mov; cl_del := ll_del;
  cl_read := read_record; cl_write := write_record; cl_halloc := alloc; cl_hfree := free;
  cl_rep := list_rep; cl_free := list_free; cl_held := list_held
}.

Lemma held_may_lock c h d : list_held c h d -> may_lock (mx c) h.
Proof.
  intros (m & Hm & Hw & Hn & -> & Hd & Hle). rw Hm. split; [done|]. rw Hn.
  split; [done|]. unfold MAX_NEST in *. lia.
Qed.

Lemma held_post c c' h d : list_held c h d -> lock_post h (mx c) (mx c') -> list_held c' h d.
Proof.
  intros (m & Hm & Hw & Hn & -> & Hd & Hle) [_ Hp]. rw Hm in Hp. specialize (Hp Hn).
  exists m. by rw Hp.
Qed.

(** An operation that keeps the heap and the set of records. *)
Lemma triple_of_refines {R} h d (m : M ctx R) a b (r' : R) a' :
  (forall c, ll_rep c a -> may_lock (mx c) h -> wp m c (outcome h (mx c) r' a')) ->
  keeps m -> (forall p, a_data a !! p = None -> a_data a' !! p = None) ->
  cl_triple h d m a b (fun r a2 b2 => r = r' /\ a2 = a' /\ b2 = b).
Proof.
  intros Hm Hk Hdat c [Hr Hb] Hh. eapply wp_mono.
  - apply wp_keeps; [exact Hk|]. apply Hm; [exact Hr|]. by eapply held_may_lock.
  - cbn beta. intros r c' [(-> & Hr' & Hl) [Hhp Hsa]]. exists a', b. split; [split|split]; [done| |by eapply held_post|done].
    intros p n Hp. rw Hhp Hsa. destruct (Hb p n Hp) as (? & ? & ?). auto.
Qed.

Lemma list_lock_free c a b :
  list_rep c a b -> list_free c ->
  wp (ll_lock 0) c (fun h c' => list_rep c' a b /\ list_held c' h 1).
Proof.
  intros [Hr Hb] (m & Hm & Hw & Hn). unfold wp, ll_lock. rw Hm lock_zero // Hn. cbn.
  split; [split; [by apply rep_set_mx|done]|]. eexists. split; [done|].
  split_and!; try done. by apply take_handle_wf.
Qed.

Lemma list_lock_nest c a b h d :
  list_rep c a b -> list_held c h d -> d < MAX_NEST ->
  wp (ll_lock h) c (fun h' c' => h' = h /\ list_rep c' a b /\ list_held c' h (d + 1)).
Proof.
  intros [Hr Hb] (m & Hm & Hw & Hn & -> & Hd & Hle) Hlt. unfold wp, ll_lock. rw Hm lock_held. cbn.
  destruct Hw as (H1 & H2 & H3 & H4). unfold is_u32, MAX_NEST in *.
  split; [done|]. split; [split; [by apply rep_set_mx|done]|].
  eexists. split; [done|]. unfold mutex_wf, is_u32. cbn. rw (u32_small (m_lcount m + 1)); [|lia].
  split_and!; try done; try lia; [split; [lia|done]|unfold MAX_NEST; lia].
Qed.

Lemma list_unlock c a b h d :
  list_rep c a b -> list_held c h d ->
  wp (ll_unlock h) c (fun _ c' => list_rep c' a b /\
    if d =? 1 then list_free c' else list_held c' h (d - 1)).
Proof.
  intros [Hr Hb] (m & Hm & Hw & Hn & -> & Hd & Hle). unfold wp, ll_unlock. rw Hm.
  destruct (unlock_held m Hw Hn) as (m' & -> & Hw' & Hlc & Hg & Hn').
  split; [split; [by apply rep_set_mx|done]|].
  destruct (Z.eqb_spec d 1) as [E|E].
  - exists m'. split_and!; try done. by rw Hn' Hd E.
  - exists m'. rw Hg Hlc. split_and!; try done; [|lia..].
    rw Hn' Hd. by destruct (Z.eqb_spec d 1).
Qed.

(** *** The record contents and the shared heap *)
Lemma data_lookup (c : ctx) (a : alist V) p :
  ll_rep c a -> a_data a !! p = (fun it => (h_size it, h_data it)) <$> items c !! p.
Proof. intros Hr. rw (rep_data _ _ Hr) lookup_fmap shape_lookup. by destruct (items c !! p). Qed.

Lemma rep_put_data (c : ctx) (a : alist V) p it f :
  ll_rep c a -> items c !! p = Some it ->
  ll_rep (set_items (<[p := set_data (f (h_data it)) it]> (items c)) c) (put_data p f a).
Proof.
  intros Hr Hit. set (its' := <[p := _]> (items c)).
  assert (shape its' = <[p := (h_cxt it, h_col it, (h_size it, f (h_data it)))]> (shape (items c))) as Hsh.
  { unfold its', shape. by rw fmap_insert. }
  assert (shape (items c) !! p = Some (erase it)) as Hp by by rw shape_lookup Hit.
  destruct (Hr) as [Ra Rself Rm Rcb Rn Rsm Rcc Rsel Rst Rcol Rh Rd Rc Rhp Rl [Rarr Rai]].
  assert (p <> state_addr c) as Hpa by (intros ->; by rw Rai in Hit).
  split; cbn -[shape its']; try done.
  - intros k ac Hk. destruct (Rcol k ac Hk) as (Hd & Hnd & Hc). split_and!; [|done..].
    clear -Hd Hit. revert Hd. generalize 0 at 1 3 as prv. induction (elems ac) as [|q l IH]; [done|].
    intros prv [(it' & Hq & Hpr & Hnx & Ho) Hd]. split; [|by apply IH].
    unfold its'. destruct (decide (p = q)) as [<-|Hne].
    + rw Hit in Hq. injection Hq as <-. eexists. rw lookup_insert_eq. done.
    + exists it'. by rw lookup_insert_ne.
  - intros q x. rw Hsh lookup_insert. case_decide as E; [|by apply Rh].
    intros [= <-]. subst q. by apply (Rh p _ Hp).
  - rw Rd Hsh fmap_insert. apply map_eq. intros q. rw lookup_alter lookup_insert.
    case_decide; [|done]. subst q. by rw lookup_fmap Hp.
  - by rw map_size_insert_Some.
  - intros q x. rw Hsh lookup_insert. case_decide as E; [|by apply Rl].
    intros [= <-]. subst q. by apply (Rl p _ Hp).
  - split; [done|]. unfold its'. by rw lookup_insert_ne.
Qed.

Lemma rep_heap_change (c : ctx) (a : alist V) hp' :
  ll_rep c a -> a_ok hp' ->
  (forall p n, a_live (heap c) !! p = Some n -> (is_Some (items c !! p) \/ p = state_addr c) ->
    a_live hp' !! p = Some n) ->
  ll_rep (set_heap hp' c) a.
Proof.
  intros Hr Hok Hl. destruct (Hr) as [Ra Rself Rm Rcb Rn Rsm Rcc Rsel Rst Rcol Rh Rd Rc Rhp Rl [Rarr Rai]].
  split; cbn -[shape]; try done.
  - intros p x Hp. destruct (Rl p x Hp) as (? & ? & ?). split_and!; try done. apply Hl; [done|].
    left. apply shape_Some in Hp as (it & -> & _). by eexists.
  - split; [|done]. apply Hl; [done|by right].
Qed.

(** *** The laws *)
Lemma list_add_law (m : M ctx Z) h d v sz a b :
  (forall c : ctx, ll_rep c a -> may_lock (mx c) h -> wp m c (add_post h c sz v a)) ->
  cl_triple h d m a b (fun r a' b' => b' = b /\
    (r = 0 /\ a' = a \/
     exists p, r = p + HDR /\ 0 < p /\ a_data a !! p = None /\ b !! p = None /\ a' = a_add p sz v a)).
Proof.
  intros Hm c [Hr Hb] Hh. eapply wp_mono; [apply Hm; [done|by eapply held_may_lock]|].
  intros r c' (Hsa & [((-> & Hr' & Hl) & Hlive)|(p & Hp & Hf & Hlv & (-> & Hr' & Hl) & Hlive)]).
  - exists a, b. split; [split|split]; [done| |by eapply held_post|split; [done|by left]].
    intros q n Hq. rw Hlive Hsa. auto.
  - exists (a_add p sz v a), b.
    assert (b !! p = None) as Hbp.
    { destruct (b !! p) as [n|] eqn:E; [|done]. destruct (Hb p n E) as (E' & _). by rw Hlv in E'. }
    split; [split|split]; [done| |by eapply held_post|split; [done|right; by exists p]].
    intros q n Hq. rw Hlive Hsa. destruct (Hb q n Hq) as (? & ? & ?).
    assert (p <> q) by congruence. cbn. by rw !lookup_insert_ne.
Qed.

Lemma list_read_law c a b p sz v :
  list_rep c a b -> a_data a !! p = Some (sz, v) ->
  wp (read_record (p + HDR)) c (fun r c' => r = v /\ c' = c).
Proof.
  intros [Hr Hb] Hp. rw (data_lookup _ _ _ Hr) in Hp.
  destruct (items c !! p) as [it|] eqn:Hit; [|done]. injection Hp as _ <-.
  unfold read_record. replace (p + HDR - HDR) with p by lia. apply wp_bind.
  eapply wp_intro with (s' := c); [unfold load; by rw Hit|]. by apply wp_ret.
Qed.

Lemma list_write_law h d p f a b :
  is_Some (a_data a !! p) ->
  cl_triple h d (write_record (p + HDR) f) a b (fun _ a' b' => a' = put_data p f a /\ b' = b).
Proof.
  intros Hp c [Hr Hb] Hh. destruct (data_Some _ _ _ Hr Hp) as [it Hit].
  unfold write_record. replace (p + HDR - HDR) with p by lia.
  eapply wp_intro; [unfold store; by rw Hit|].
  exists (put_data p f a), b. split; [split|done].
  - by apply rep_put_data.
  - intros q n Hq. destruct (Hb q n Hq) as (H1 & H2 & H3). split_and!; try done.
    cbn. rw lookup_alter. case_decide; [|done]. subst. by rw H2.
Qed.

Lemma list_halloc_law h d n a b : 0 < n ->
  cl_triple h d (alloc n) a b (fun r a' b' => a' = a /\
    (r = 0 /\ b' = b \/ 0 < r /\ a_data a !! r = None /\ b !! r = None /\ b' = <[r := n]> b)).
Proof.
  intros Hn c [Hr Hb] Hh. destruct (alloc_law (heap c) n (rep_heap _ _ Hr) Hn) as [Hok Hcase].
  eapply wp_intro with (a := (a_alloc (heap c) n).1) (s' := set_heap (a_alloc (heap c) n).2 c).
  { unfold alloc. by destruct (a_alloc _ _). }
  set (p := (a_alloc (heap c) n).1) in *. set (hp' := (a_alloc (heap c) n).2) in *. clearbody p hp'.
  destruct Hcase as [[-> Hlive]|(Hp & Hnone & Hlive)].
  - exists a, b. split; [split|split]; [|by intros q m Hq; cbn; rw Hlive; apply Hb|done|
      split; [done|by left]].
    apply rep_heap_change; [done..|]. by rw Hlive.
  - assert (a_data a !! p = None) as Hdp.
    { destruct (a_data a !! p) as [x|] eqn:E; [|done]. rw (data_lookup _ _ _ Hr) in E.
      destruct (items c !! p) as [it|] eqn:Hit; [|done].
      destruct (rep_live_in _ _ Hr p it Hit) as (_ & _ & E'). by rw Hnone in E'. }
    assert (b !! p = None) as Hbp.
    { destruct (b !! p) as [m|] eqn:E; [|done]. destruct (Hb p m E) as (E' & _). by rw Hnone in E'. }
    exists a, (<[p := n]> b). split; [split|split]; [| |done|split; [done|by right]].
    + apply rep_heap_change; [done..|]. intros q m Hq _. rw Hlive lookup_insert_ne //. congruence.
    + intros q m. cbn. rw Hlive !lookup_insert. case_decide as E; [|by apply Hb].
      intros [= <-]. subst q. split_and!; [done..|]. intros ->.
      destruct (rep_array _ _ Hr) as [E _]. by rw Hnone in E.
Qed.

Lemma list_hfree_law h d p n a b : b !! p = Some n ->
  cl_triple h d (free p n) a b (fun _ a' b' => a' = a /\ b' = delete p b).
Proof.
  intros Hp c [Hr Hb] Hh. destruct (Hb p n Hp) as (Hlv & Hd & Hsa).
  destruct (free_law (heap c) p n (rep_heap _ _ Hr) Hlv) as [Hok Hlive].
  assert (items c !! p = None) as Hit by by apply (data_None _ _ _ Hr).
  eapply wp_intro with (s' := set_heap (a_free (heap c) p n) c).
  { unfold free. rw decide_True // delete_id //. }
  exists a, (delete p b). split; [split|done].
  - apply rep_heap_change; [done..|]. intros q m Hq Hor. rw Hlive lookup_delete_ne //.
    intros <-. destruct Hor as [[? E]|E]; [by rw Hit in E|done].
  - intros q m [Hne Hq]%lookup_delete_Some. cbn. rw Hlive lookup_delete_ne //. by apply Hb.
Qed.

#[global] Instance ll_column_list_laws : ColumnListLaws ctx V.
Proof.
  split.
  - apply list_lock_free.
  - apply list_lock_nest.
  - intros c a b h d Hr Hh Hd. eapply wp_mono; [by eapply list_unlock|]. cbn. intros _ c' [Hr' Hh'].
    destruct (Z.eqb_spec d 1); [lia|done].
  - intros c a b h Hr Hh. eapply wp_mono; [by eapply list_unlock|]. done.
  - intros h d k a b Hk c [Hr Hb] Hh. eapply wp_mono; [apply ll_col_refines; [done|by eapply held_may_lock|done]|].
    cbn beta. intros r c' ((_ & Hr' & Hl) & Hhp & Hsa & _).
    exists (a_col k a), b. split; [split|split]; [done| |by eapply held_post|done].
    intros p n Hp. rw Hhp Hsa. unfold a_col. by destruct (_ <? _); apply Hb.
  - intros h d a b. apply triple_of_refines; [|apply keeps_cnt|done].
    intros c Hr Hl. by apply ll_cnt_refines.
  - intros h d a b. apply triple_of_refines; [|apply keeps_first|].
    + intros c Hr Hl. by apply ll_first_refines.
    + intros p. unfold a_first. cbn. by destruct (_ =? _).
  - intros h d a b. apply triple_of_refines; [|apply keeps_next|].
    + intros c Hr Hl. by apply ll_next_refines.
    + intros p. unfold a_next. cbn. by destruct (_ =? _).
  - intros h d a b. apply triple_of_refines; [|apply keeps_current|done].
    intros c Hr Hl. by apply ll_current_refines.
  - intros h d v sz a b Hsz Hsz2 Hn. apply list_add_law. intros c Hr Hl. by apply ll_add_refines.
  - intros h d v sz a b Hsz Hsz2 Hn. apply list_add_law. intros c Hr Hl. by apply ll_new_refines.
  - intros h d p a b Hp. apply triple_of_refines; [|apply keeps_sel|].
    + intros c Hr Hl. by apply ll_sel_refines.
    + intros q. unfold a_selrec. by case_decide.
  - intros h d p k a b Hp Hk. apply triple_of_refines; [|apply keeps_mov|].
    + intros c Hr Hl. by apply ll_mov_refines.
    + intros q. unfold a_mov. destruct (home p a); [|done]. by destruct (_ && _).
  - intros h d a b c [Hr Hb] Hh. eapply wp_mono; [apply ll_del_refines; [done|by eapply held_may_lock]|].
    cbn beta. intros r c' ((_ & Hr' & Hl) & Hsa & Hlive).
    exists (a_del a), b. split; [split|split]; [done| |by eapply held_post|done].
    intros p n Hp. destruct (Hb p n Hp) as (H1 & H2 & H3). rw Hsa Hlive.
    + split_and!; try done. unfold a_del. destruct (_ =? _); [done|]. cbn.
      rw lookup_delete. by case_decide.
    + intros Hin. destruct (rep_elem _ _ _ _ _ Hr (rep_selected _ _ Hr) Hin) as (it & Hit & _).
      rw (data_lookup _ _ _ Hr) Hit in H2. done.
  - apply list_read_law.
  - apply list_write_law.
  - apply list_halloc_law.
  - apply list_hfree_law.
  - intros c a b [Hr Hb]. split_and!.
    + intros k ac Hk. destruct (rep_col _ _ Hr k ac Hk) as (_ & Hnd & Hc). split_and!; try done.
      by eapply rep_nonzero.
    + intros p. rw (data_lookup _ _ _ Hr) fmap_is_Some. split.
      * intros [it Hit]. destruct (rep_home_Some _ _ _ _ Hr Hit) as (j & aj & _ & Hj & Hp & _). eauto.
      * intros (k & ac & Hk & Hp). destruct (rep_elem _ _ _ _ _ Hr Hk Hp) as (it & -> & _). by eexists.
    + intros. by eapply rep_disjoint.
    + apply (rep_sel _ _ Hr).
    + apply (rep_small _ _ Hr).
    + intros p n Hp. destruct (Hb p n Hp) as (H1 & H2 & H3). split; [|done].
      eapply live_pos; [apply (rep_heap _ _ Hr)|done].
    + intros p x Hp. rw (data_lookup _ _ _ Hr) in Hp. destruct (items c !! p) as [it|] eqn:Hit; [|done].
      by eapply rep_item_pos.
Qed.

Lemma list_add_grants (c : ctx) a b v sz h r c' : list_rep c a b -> 0 <= sz -> sz + HDR < 2 ^ 32 ->
  (forall n, (a_alloc (heap c) n).1 <> 0) -> ll_add v sz h c = Some (r, c') -> r <> 0.
Proof.
  intros [Hr _] H0 Hs Hg E. assert (wlp (ll_add v sz h) c (fun r _ => r <> 0)) as Hw; [|by rw /wlp E in Hw].
  destruct (rep_cbs _ _ Hr) as [Hpa _]. unfold ll_add, do_alloc. do 2 apply wlp_bind. apply wlp_gets. rw Hpa.
  apply wlp_intro. intros p c1 E1. unfold alloc in E1. rw u32_small in E1; [|unfold HDR in *; lia].
  destruct (alloc_law (heap c) (sz + HDR) (rep_heap _ _ Hr)) as [_ [[Ez _]|[Hp _]]]; [unfold HDR; lia|by destruct (Hg (sz + HDR))|].
  destruct (a_alloc (heap c) (sz + HDR)) as [q hp]. injection E1 as <- _. cbn [fst] in Hp. destruct (Z.eqb_spec q 0); [lia|].
  apply wlp_bind, wlp_intro. intros _ c2 _. apply wlp_bind, wlp_intro. intros _ c3 _. apply wlp_ret. unfold HDR. lia.
Qed.
#[global] Instance ll_list_grants : ListGrants ctx V.
Proof.
  refine {| cl_grants c := forall n, (a_alloc (heap c) n).1 <> 0 |}.
  - intros h c r c' E. by destruct (keeps_lock h _ _ _ E) as [-> _].
  - intros k h c r c' E. by destruct (keeps_col k h _ _ _ E) as [-> _].
  - intros h c r c' E. by destruct (keeps_first h _ _ _ E) as [-> _].
  - intros c a b v sz h r c' Hr H0 Hs Hg E. exact (list_add_grants c a b v sz h r c' Hr H0 Hs Hg E).
Defined.
End instance.

(** ** Columns as plain sequences

    Clients that do not look at cursors reason with [els]. *)
Section columns.
Context {V : Type}.
Implicit Types a : alist V.

Definition els a : list (list Z) := elems <$> a_cols a.

Lemma alter_fmap_comm (f : acol -> acol) (g : list Z -> list Z) k (cols : list acol) :
  (forall ac, cols !! k = Some ac -> elems (f ac) = g (elems ac)) ->
  elems <$> alter f k cols = alter g k (elems <$> cols).
Proof.
  intros Hf. apply list_eq. intros j. rw list_lookup_fmap. destruct (decide (j = k)) as [->|Hne].
  - rw !list_lookup_alter_eq list_lookup_fmap. destruct (cols !! k) as [ac|]; [|done].
    cbn. by rw Hf.
  - by rw !list_lookup_alter_ne // list_lookup_fmap.
Qed.

Lemma alter_id_list {X} (k : nat) (l : list X) : alter (fun x => x) k l = l.
Proof.
  apply list_eq. intros j. destruct (decide (j = k)) as [->|Hne].
  - rw list_lookup_alter_eq. by destruct (l !! k).
  - by rw list_lookup_alter_ne.
Qed.

Lemma els_keep f k a dat : (forall ac, elems (f ac) = elems ac) ->
  els (mkAlist V (alter f k (a_cols a)) (a_sel a) dat) = els a.
Proof. intros Hf. unfold els. cbn. rw (alter_fmap_comm _ (fun x => x)) // alter_id_list //. Qed.

Lemma els_lookup a k ac : a_cols a !! k = Some ac -> els a !! k = Some (elems ac).
Proof. intros Hk. unfold els. by rw list_lookup_fmap Hk. Qed.
Lemma els_lookup_inv a k l : els a !! k = Some l -> exists ac, a_cols a !! k = Some ac /\ elems ac = l.
Proof.
  unfold els. rw list_lookup_fmap. destruct (a_cols a !! k) as [ac|]; [|done].
  intros [= <-]. eauto.
Qed.

Lemma els_length a : length (els a) = length (a_cols a).
Proof. apply length_fmap. Qed.

Lemma els_sel a l : els a !! a_sel a = Some l -> elems (sel_col a) = l.
Proof. intros (ac & Hk & <-)%els_lookup_inv. unfold sel_col. by rw Hk. Qed.

Lemma els_col k a : els (a_col k a) = els a.
Proof. unfold a_col. by destruct (_ <? _). Qed.
Lemma sel_a_col k a : (k < length (els a))%nat -> a_sel (a_col (Z.of_nat k) a) = k.
Proof.
  rw els_length. intros Hk. unfold a_col. destruct (Z.ltb_spec (Z.of_nat k) (Z.of_nat (length (a_cols a)))); [|lia].
  cbn. lia.
Qed.
Lemma data_col k a : a_data (a_col k a) = a_data a.
Proof. unfold a_col. by destruct (_ <? _). Qed.

Lemma els_first a : els (a_first a).2 = els a.
Proof. unfold a_first. cbn. destruct (_ =? 0); [done|]. by apply els_keep. Qed.
Lemma sel_first a : a_sel (a_first a).2 = a_sel a.
Proof. unfold a_first. cbn. by destruct (_ =? 0). Qed.
Lemma data_first a : a_data (a_first a).2 = a_data a.
Proof. unfold a_first. cbn. by destruct (_ =? 0). Qed.

Lemma els_next a : els (a_next a).2 = els a.
Proof. unfold a_next. cbn. destruct (_ =? 0); [done|]. by apply els_keep. Qed.
Lemma sel_next a : a_sel (a_next a).2 = a_sel a.
Proof. unfold a_next. cbn. by destruct (_ =? 0). Qed.
Lemma data_next a : a_data (a_next a).2 = a_data a.
Proof. unfold a_next. cbn. by destruct (_ =? 0). Qed.

Lemma els_selrec p a : els (a_selrec p a).2 = els a.
Proof. unfold a_selrec. case_decide; [|done]. by apply els_keep. Qed.
Lemma sel_selrec p a : a_sel (a_selrec p a).2 = a_sel a.
Proof. unfold a_selrec. by case_decide. Qed.
Lemma data_selrec p a : a_data (a_selrec p a).2 = a_data a.
Proof. unfold a_selrec. by case_decide. Qed.

Lemma els_put p f a : els (put_data p f a) = els a.
Proof. done. Qed.

Lemma els_add p sz v a : els (a_add p sz v a) = alter (fun l => l ++ [p]) (a_sel a) (els a).
Proof. unfold els, a_add. cbn. by rw (alter_fmap_comm _ (fun l => l ++ [p])). Qed.

Lemma els_mov p k a b j l :
  alist_ok a b -> els a !! j = Some l -> p ∈ l -> j <> k -> (k < length (els a))%nat ->
  (a_mov p (Z.of_nat k) a).1 = 1 /\
  els (a_mov p (Z.of_nat k) a).2 = alter (fun l => l ++ [p]) k (alter (without p) j (els a)) /\
  a_sel (a_mov p (Z.of_nat k) a).2 = a_sel a /\ a_data (a_mov p (Z.of_nat k) a).2 = a_data a.
Proof.
  rw els_length. intros (_ & _ & Hdis & _) (aj & Hj & <-)%els_lookup_inv Hp Hjk Hk.
  assert (home p a = Some j) as Hh.
  { unfold home. replace (list_find (fun ac => p ∈ elems ac) (a_cols a)) with (Some (j, aj)); [done|].
    symmetry. apply list_find_Some. split_and!; try done. intros i ai Hi Hij Hp'.
    assert (j = i) by by eapply Hdis. lia. }
  unfold a_mov. rw Hh Nat2Z.id.
  destruct (Z.eqb_spec (Z.of_nat k) (Z.of_nat j)); [lia|].
  destruct (Z.ltb_spec (Z.of_nat k) (Z.of_nat (length (a_cols a)))); [|lia]. cbn [negb andb fst snd].
  split_and!; try done. unfold els, on_col. cbn.
  by rw (alter_fmap_comm _ (fun l => l ++ [p])) // (alter_fmap_comm _ (without p)).
Qed.

Lemma els_mov_same p k a b l :
  alist_ok a b -> els a !! k = Some l -> p ∈ l -> a_mov p (Z.of_nat k) a = (0, a).
Proof.
  intros (_ & _ & Hdis & _) (ak & Hk & <-)%els_lookup_inv Hp. unfold a_mov.
  destruct (home p a) as [j|] eqn:Hh; [|done]. unfold home in Hh.
  destruct (list_find _ (a_cols a)) as [[j' aj]|] eqn:E; [|done]. injection Hh as ->.
  apply list_find_Some in E as (Hj & Hp' & _). assert (j = k) as -> by by eapply Hdis.
  by rw Z.eqb_refl.
Qed.

Lemma els_del a b l :
  alist_ok a b -> els a !! a_sel a = Some l ->
  els (a_del a) = alter (without (cursor (sel_col a))) (a_sel a) (els a) /\
  a_sel (a_del a) = a_sel a.
Proof.
  intros (Hcol & _) Hl. pose proof (els_sel _ _ Hl) as Hs.
  apply els_lookup_inv in Hl as (ac & Hk & El). destruct (Hcol _ _ Hk) as (_ & Hc & H0).
  assert (sel_col a = ac) as Hsc by (unfold sel_col; by rw Hk).
  unfold a_del. destruct (Z.eqb_spec (cursor (sel_col a)) 0) as [E|E].
  - split; [|done]. rw E. destruct Hc as [Hc|[Hc _]].
    { rw Hsc in E. by rw E in Hc. }
    rw (list_alter_Some _ (els a) _ []); [|by rw (els_lookup _ _ _ Hk) Hc].
    rw list_insert_id //. by rw (els_lookup _ _ _ Hk) Hc.
  - split; [|done]. unfold els. cbn. apply alter_fmap_comm.
    intros ac' Hk'. rw Hk in Hk'. injection Hk' as <-. by rw Hsc.
Qed.

(** The record the cursor visits first, and the one after it. *)
Lemma first_of a p l :
  els a !! a_sel a = Some (p :: l) -> p <> 0 ->
  (a_first a).1 = (p + HDR, fst <$> a_data a !! p) /\ cursor (sel_col (a_first a).2) = p.
Proof.
  intros (ac & Hk & Hl)%els_lookup_inv Hp. unfold a_first.
  assert (sel_col a = ac) as Hsc by (unfold sel_col; by rw Hk).
  rw Hsc Hl. cbn [hd_or fst snd]. unfold rec_ptr. destruct (Z.eqb_spec p 0); [done|].
  split; [done|]. unfold sel_col, upd_sel, on_col. cbn. by rw list_lookup_alter_eq Hk.
Qed.

Lemma first_none a : els a !! a_sel a = Some [] -> a_first a = ((0, None), a).
Proof.
  intros (ac & Hk & Hl)%els_lookup_inv. unfold a_first.
  assert (sel_col a = ac) as -> by (unfold sel_col; by rw Hk). by rw Hl.
Qed.

Lemma next_of a l1 q p l :
  NoDup (l1 ++ q :: p :: l) -> els a !! a_sel a = Some (l1 ++ q :: p :: l) ->
  cursor (sel_col a) = q -> p <> 0 ->
  (a_next a).1 = (p + HDR, fst <$> a_data a !! p) /\ cursor (sel_col (a_next a).2) = p.
Proof.
  intros Hnd (ac & Hk & Hl)%els_lookup_inv Hc Hp. unfold a_next.
  assert (sel_col a = ac) as Hsc by (unfold sel_col; by rw Hk).
  rw Hsc in Hc |- *. rw Hc Hl after_split //. cbn [hd_or fst snd]. unfold rec_ptr.
  destruct (Z.eqb_spec p 0); [done|]. split; [done|].
  unfold sel_col, upd_sel, on_col. cbn. by rw list_lookup_alter_eq Hk.
Qed.

Lemma next_none a l1 q :
  NoDup (l1 ++ [q]) -> els a !! a_sel a = Some (l1 ++ [q]) -> cursor (sel_col a) = q ->
  a_next a = ((0, None), a).
Proof.
  intros Hnd (ac & Hk & Hl)%els_lookup_inv Hc. unfold a_next.
  assert (sel_col a = ac) as Hsc by (unfold sel_col; by rw Hk).
  rw Hsc in Hc |- *. by rw Hc Hl after_split.
Qed.

(** Moving or deleting the first record of the selected column, when the
    cursor is on it, puts the cursor on the next one. *)
Lemma mov_cursor p k a b l :
  alist_ok a b -> els a !! a_sel a = Some (p :: l) -> cursor (sel_col a) = p ->
  a_sel a <> k -> (k < length (els a))%nat ->
  cursor (sel_col (a_mov p (Z.of_nat k) a).2) = hd_or 0 l.
Proof.
  rw els_length. intros (Hcol & _ & Hdis & _) (ac & Hj & Hl)%els_lookup_inv Hc Hne Hk.
  destruct (Hcol _ _ Hj) as (Hnd & _ & _). rw Hl in Hnd.
  assert (home p a = Some (a_sel a)) as Hh.
  { unfold home. replace (list_find (fun ac => p ∈ elems ac) (a_cols a)) with (Some (a_sel a, ac)); [done|].
    symmetry. apply list_find_Some. split_and!; [done|rw Hl; by left|]. intros i ai Hi Hij Hp'.
    assert (a_sel a = i); [|lia]. eapply Hdis; try done. rw Hl. by left. }
  unfold a_mov. rw Hh Nat2Z.id.
  destruct (Z.eqb_spec (Z.of_nat k) (Z.of_nat (a_sel a))); [lia|].
  destruct (Z.ltb_spec (Z.of_nat k) (Z.of_nat (length (a_cols a)))); [|lia]. cbn [negb andb fst snd].
  assert (sel_col a = ac) as Hsc by (unfold sel_col; by rw Hj).
  unfold sel_col, on_col. cbn. rw list_lookup_alter_ne // list_lookup_alter_eq Hj. cbn.
  rw -Hsc Hc Z.eqb_refl Hsc Hl (after_split [] l p Hnd).
  destruct (Z.eqb_spec (hd_or 0 l) 0) as [E|]; [|done]. by rw (before_split [] l p Hnd).
Qed.

Lemma del_cursor p a b l :
  alist_ok a b -> els a !! a_sel a = Some (p :: l) -> cursor (sel_col a) = p ->
  cursor (sel_col (a_del a)) = hd_or 0 l.
Proof.
  intros (Hcol & _) (ac & Hj & Hl)%els_lookup_inv Hc.
  destruct (Hcol _ _ Hj) as (Hnd & _ & H0). rw Hl in Hnd, H0.
  assert (sel_col a = ac) as Hsc by (unfold sel_col; by rw Hj).
  unfold a_del. rw Hc. destruct (Z.eqb_spec p 0) as [->|]; [by destruct H0; left|].
  unfold sel_col. cbn. rw list_lookup_alter_eq Hj. cbn. unfold drop_cursor. cbn.
  rw -Hsc Hc Hsc Hl (after_split [] l p Hnd).
  destruct (Z.eqb_spec (hd_or 0 l) 0) as [E|]; [|done]. by rw (before_split [] l p Hnd).
Qed.

Lemma without_head p l : NoDup (p :: l) -> without p (p :: l) = l.
Proof. intros Hnd. apply (without_split [] l p Hnd). Qed.
End columns.

(** ** A concrete list, for the witnesses of the clients *)
Module Demo.
(** [cols] columns, [budget] allocations, the mutex at address 64. *)
Definition fresh {V} (budget : nat) : ll_context Bump.t V :=
  mkContext Bump.t V 64 0 0 0 0 true true 0 [] ∅ (Bump.empty 4096 budget) (Some (mutex_init 64)).
Definition made {V} (cols : Z) (budget : nat) : ll_context Bump.t V :=
  match ll_init LL_MODE_VECTOR cols 0 (fresh budget) with Some (_, c) => c | None => fresh budget end.

Lemma fresh_blank {V} budget : blank_ctx (fresh (V := V) budget).
Proof. by split_and!. Qed.

Lemma fresh_lock {V} budget : may_lock (mx (fresh (V := V) budget)) 0.
Proof. split; [|done]. split_and!; vm_compute; (split; congruence) || congruence. Qed.

Lemma made_rep {V} cols budget : 0 < cols < 256 -> (0 < budget)%nat ->
  cl_rep (made (V := V) cols budget) (a_init cols) ∅ /\ cl_free (made (V := V) cols budget).
Proof.
  intros Hc Hb. pose proof (ll_init_refines (fresh (V := V) budget) cols 0
    (fresh_blank budget) (fresh_lock budget) Hc) as Hw.
  apply wp_run in Hw as (r & c' & E & Hl & [(-> & _ & Hlv)|(-> & Hr & _)]).
  - exfalso. revert E. unfold ll_init, mbind, M_bind, gets, fresh. cbn.
    destruct budget as [|n]; [lia|]. cbn. intros [= E _].
  - unfold made. rw E. split; [split; [done|by intros p n; rw lookup_empty]|].
    destruct Hl as [Hl _]. destruct (mx c') as [m|] eqn:Em.
    + exists m. destruct Hl as [Hw Hn]. split_and!; try done. destruct (m_native m); [|done].
      pose proof (get_handle_pos m Hw). lia.
    + exfalso. destruct budget as [|n]; [lia|]. clear -E Em. revert E.
      unfold ll_init, mbind, M_bind, gets, fresh. cbn. intros [= <-]. done.
Qed.
End Demo.
