(* ===== verification/ListClient.v ===== *)
(** * Critical sections over a multi-column list

    Rules for components that own an [iLlist] next to other fields [X]: the
    state is a pair, [lst] lifts a call of the list's interface, and [inside]
    describes the list between [lock] and [unlock] by its columns as plain
    sequences. *)
From S2P Require Import Prelude Memory Mutex LinkedList LinkedListSpec ColumnList.
Set Default Goal Selector "!".

Section client.
Context {C V X : Type} `{CL : ColumnListLaws C V}.
Abbreviation S := (C * X)%type.

(** A call through the list pointer. *)
Definition lst {R} (m : M C R) : M S R := fun s =>
  match m s.1 with Some (r, c) => Some (r, (c, s.2)) | None => None end.

Definition inside (c : C) (h d : Z) (a : alist V) (b : gmap Z Z) (k : nat)
    (cols : list (list Z)) (dat : gmap Z (Z * V)) : Prop :=
  cl_rep c a b /\ cl_held c h d /\ a_sel a = k /\ els a = cols /\ a_data a = dat.

Definition outside (c : C) (b : gmap Z Z) (cols : list (list Z)) (dat : gmap Z (Z * V)) : Prop :=
  exists a, cl_rep c a b /\ cl_free c /\ els a = cols /\ a_data a = dat.

Lemma wp_lst {R} (m : M C R) c x h d a b Q (Post : R -> S -> Prop) :
  cl_triple h d m a b Q -> cl_rep c a b -> cl_held c h d ->
  (forall r a' b' c', Q r a' b' -> cl_rep c' a' b' -> cl_held c' h d -> Post r (c', x)) ->
  wp (lst m) (c, x) Post.
Proof.
  intros Ht Hr Hh HP. apply (Ht c Hr), wp_run in Hh as (r & c' & E & a' & b' & Hr' & Hh' & HQ).
  unfold wp, lst. cbn. rw E. by eapply HP.
Qed.

(** Reading a record needs no lock. *)
Lemma wp_read c x p v (Post : V -> S -> Prop) :
  wp (cl_read (p + HDR)) c (fun r c' => r = v /\ c' = c) -> Post v (c, x) ->
  wp (lst (cl_read (p + HDR))) (c, x) Post.
Proof.
  unfold wp, lst. cbn. destruct (cl_read (p + HDR) c) as [[r c']|]; [|done]. by intros [-> ->].
Qed.

Lemma wp_enter c x b cols dat (Post : Z -> S -> Prop) :
  outside c b cols dat ->
  (forall h c' a k, inside c' h 1 a b k cols dat -> Post h (c', x)) ->
  wp (lst (cl_lock 0)) (c, x) Post.
Proof.
  intros (a & Hr & Hf & He & Hd) HP.
  destruct (wp_run _ _ _ (cl_lock_free c a b Hr Hf)) as (h & c' & E & Hr' & Hh').
  unfold wp, lst. cbn. rw E. eapply HP. by split_and!.
Qed.

Lemma wp_leave c x h a b k cols dat (Post : unit -> S -> Prop) :
  inside c h 1 a b k cols dat ->
  (forall c', outside c' b cols dat -> Post tt (c', x)) ->
  wp (lst (cl_unlock h)) (c, x) Post.
Proof.
  intros (Hr & Hh & _ & He & Hd) HP.
  destruct (wp_run _ _ _ (cl_unlock_last c a b h Hr Hh)) as ([] & c' & E & Hr' & Hf').
  unfold wp, lst. cbn. rw E. apply HP. by exists a.
Qed.

Lemma wp_select k c x h d a b j cols dat (Post : unit -> S -> Prop) :
  inside c h d a b j cols dat -> (k < length cols)%nat ->
  (forall c' a', inside c' h d a' b k cols dat -> Post tt (c', x)) ->
  wp (lst (cl_col (Z.of_nat k) h)) (c, x) Post.
Proof.
  intros (Hr & Hh & _ & Hel & Hd) Hk HP. eapply wp_lst; [apply cl_col_law; lia|done|done|].
  intros [] a' b' c' [-> ->] Hr' Hh'. eapply HP. split_and!; try done.
  - apply sel_a_col. by rw Hel.
  - by rw els_col.
  - by rw data_col.
Qed.

(** What holds in every critical section. *)
Lemma inside_wf c h d a b k cols dat :
  inside c h d a b k cols dat ->
  (forall j l, cols !! j = Some l -> NoDup l /\ (forall p, p ∈ l -> 0 < p /\ is_Some (dat !! p))) /\
  (forall p, is_Some (dat !! p) -> exists j l, cols !! j = Some l /\ p ∈ l) /\
  (forall i j li lj p, cols !! i = Some li -> cols !! j = Some lj -> p ∈ li -> p ∈ lj -> i = j) /\
  (forall p n, b !! p = Some n -> 0 < p /\ dat !! p = None).
Proof.
  intros (Hr & _ & _ & <- & <-).
  destruct (cl_wf _ _ _ Hr) as (Hc & Hdat & Hdis & _ & _ & Hb & Hpos). split_and!.
  - intros j l (ac & Hj & <-)%els_lookup_inv. destruct (Hc _ _ Hj) as (Hnd & _ & _).
    split; [done|]. intros p Hp. assert (is_Some (a_data a !! p)) as [v Hv] by (apply Hdat; eauto).
    split; [by eapply Hpos|]. by eexists.
  - intros p (j & ac & Hj & Hp)%Hdat. exists j, (elems ac). split; [by apply els_lookup|done].
  - intros i j li lj p (ai & Hi & <-)%els_lookup_inv (aj & Hj & <-)%els_lookup_inv. by apply Hdis.
  - apply Hb.
Qed.

Lemma inside_sel c h d a b k cols dat l :
  inside c h d a b k cols dat -> cols !! k = Some l -> els a !! a_sel a = Some l.
Proof. by intros (_ & _ & H1 & H2 & _) Hl; rw H1 H2. Qed.

Lemma wp_first_of c x h d a b k cols dat l (Post : Z * option Z -> S -> Prop) :
  inside c h d a b k cols dat -> cols !! k = Some l ->
  (l = [] -> forall c', inside c' h d a b k cols dat -> Post (0, None) (c', x)) ->
  (forall p l', l = p :: l' -> 0 < p -> is_Some (dat !! p) ->
    forall c' a', inside c' h d a' b k cols dat -> cursor (sel_col a') = p ->
    Post (p + HDR, fst <$> dat !! p) (c', x)) ->
  wp (lst (cl_first h)) (c, x) Post.
Proof.
  intros Hin Hl Hnil Hcons. pose proof (inside_sel _ _ _ _ _ _ _ _ _ Hin Hl) as Hel.
  destruct (inside_wf _ _ _ _ _ _ _ _ Hin) as (Hw & _).
  destruct Hin as (Hr & Hh & Hs & He & Hd).
  eapply wp_lst; [apply cl_first_law|done|done|]. intros r a' b' c' (-> & -> & ->) Hr' Hh'.
  destruct l as [|p l'].
  - rw (first_none _ Hel) in Hr' |- *. by apply Hnil.
  - destruct (Hw _ _ Hl) as [_ Hp]. destruct (Hp p) as [Hp0 Hps]; [by left|].
    destruct (first_of a p l' Hel) as [-> Hcur]; [lia|]. rw Hd. eapply Hcons; try done.
    split_and!; try done; [by rw sel_first|by rw els_first|by rw data_first].
Qed.

(** The cursor's record, after it was set by [first]. *)
Lemma wp_current_of c x h d a b k cols dat p (Post : Z * option Z -> S -> Prop) :
  inside c h d a b k cols dat -> cursor (sel_col a) = p ->
  (forall c', inside c' h d a b k cols dat -> Post (rec_ptr a p) (c', x)) ->
  wp (lst (cl_current h)) (c, x) Post.
Proof.
  intros (Hr & Hh & Hs & He & Hd) <- HP. eapply wp_lst; [apply cl_current_law|done|done|].
  intros r a' b' c' (-> & -> & ->) Hr' Hh'. apply HP. by split_and!.
Qed.

Lemma wp_cnt_of c x h d a b k cols dat l (Post : Z -> S -> Prop) :
  inside c h d a b k cols dat -> cols !! k = Some l ->
  (forall c', inside c' h d a b k cols dat -> Post (Z.of_nat (length l)) (c', x)) ->
  wp (lst (cl_cnt h)) (c, x) Post.
Proof.
  intros Hin Hl HP. pose proof (inside_sel _ _ _ _ _ _ _ _ _ Hin Hl) as Hel.
  destruct Hin as (Hr & Hh & Hs & He & Hd). eapply wp_lst; [apply cl_cnt_law|done|done|].
  intros r a' b' c' (-> & -> & ->) Hr' Hh'. unfold a_cnt. rw (els_sel _ _ Hel).
  apply HP. by split_and!.
Qed.

Lemma wp_mov_to c x h d a b k cols dat j l i p (Post : Z -> S -> Prop) :
  inside c h d a b k cols dat -> cols !! j = Some l -> p ∈ l -> j <> i -> (i < length cols)%nat ->
  (forall c' a', inside c' h d a' b k (alter (fun l => l ++ [p]) i (alter (without p) j cols)) dat ->
    a' = (a_mov p (Z.of_nat i) a).2 -> Post 1 (c', x)) ->
  wp (lst (cl_mov (p + HDR) (Z.of_nat i) h)) (c, x) Post.
Proof.
  intros Hin Hl Hp Hji Hi HP. destruct (inside_wf _ _ _ _ _ _ _ _ Hin) as (Hw & _).
  destruct (Hw _ _ Hl) as [_ Hps]. destruct (Hps p Hp) as [_ Hs].
  destruct Hin as (Hr & Hh & Hk & He & Hd). rw -Hd in Hs.
  eapply wp_lst; [apply cl_mov_law; [done|lia]|done|done|].
  intros r a' b' c' (-> & -> & ->) Hr' Hh'.
  destruct (els_mov p i a b j l) as (E1 & E2 & E3 & E4); rw ?He; try done; [by eapply cl_wf|].
  rw E1. eapply HP; [|reflexivity]. split_and!; try done; [congruence|by rw E2 He|congruence].
Qed.

Lemma wp_mov_stay c x h d a b k cols dat i l p (Post : Z -> S -> Prop) :
  inside c h d a b k cols dat -> cols !! i = Some l -> p ∈ l ->
  (forall c', inside c' h d a b k cols dat -> Post 0 (c', x)) ->
  wp (lst (cl_mov (p + HDR) (Z.of_nat i) h)) (c, x) Post.
Proof.
  intros Hin Hl Hp HP. destruct (inside_wf _ _ _ _ _ _ _ _ Hin) as (Hw & _).
  destruct (Hw _ _ Hl) as [_ Hps]. destruct (Hps p Hp) as [_ Hs].
  destruct Hin as (Hr & Hh & Hk & He & Hd). rw -Hd in Hs.
  eapply wp_lst; [apply cl_mov_law; [done|lia]|done|done|].
  intros r a' b' c' (-> & -> & ->) Hr' Hh'.
  rw (els_mov_same p i a b l) ?He // in Hr' |- *; try (by eapply cl_wf).
  apply HP. by split_and!.
Qed.

Lemma wp_read_of c x h d a b k cols dat p sz v (Post : V -> S -> Prop) :
  inside c h d a b k cols dat -> dat !! p = Some (sz, v) ->
  (forall c', inside c' h d a b k cols dat -> Post v (c', x)) ->
  wp (lst (cl_read (p + HDR))) (c, x) Post.
Proof.
  intros (Hr & Hh & Hk & He & Hd) Hp HP. rw -Hd in Hp. eapply wp_read; [by eapply cl_read_law|].
  apply HP. by split_and!.
Qed.

Lemma wp_write_of c x h d a b k cols dat p f (Post : unit -> S -> Prop) :
  inside c h d a b k cols dat -> is_Some (dat !! p) ->
  (forall c' a', inside c' h d a' b k cols (alter (fun y => (y.1, f y.2)) p dat) ->
    a' = put_data p f a -> Post tt (c', x)) ->
  wp (lst (cl_write (p + HDR) f)) (c, x) Post.
Proof.
  intros (Hr & Hh & Hk & He & Hd) Hp HP. rw -Hd in Hp.
  eapply wp_lst; [by eapply cl_write_law|done|done|].
  intros [] a' b' c' (-> & ->) Hr' Hh'. eapply HP; [|done]. split_and!; try done. cbn. by rw Hd.
Qed.

Lemma wp_add_of c x h d a b k cols dat v sz (Post : Z -> S -> Prop) :
  inside c h d a b k cols dat ->
  0 <= sz -> sz + HDR < 2 ^ 32 -> Z.of_nat (size dat) + 1 < 2 ^ 32 ->
  (forall c', inside c' h d a b k cols dat -> Post 0 (c', x)) ->
  (forall p c' a', 0 < p -> dat !! p = None -> b !! p = None ->
    inside c' h d a' b k (alter (fun l => l ++ [p]) k cols) (<[p := (sz, v)]> dat) ->
    Post (p + HDR) (c', x)) ->
  wp (lst (cl_add v sz h)) (c, x) Post.
Proof.
  intros (Hr & Hh & Hk & He & Hd) Hsz Hsz2 Hn Hfail Hok.
  eapply wp_lst; [apply (cl_add_law h d v sz a b); rw ?Hd; done|done|done|].
  intros r a' b' c' (-> & [[-> ->]|(p & -> & Hp & Hnone & Hb & ->)]) Hr' Hh'.
  - apply Hfail. by split_and!.
  - rw Hd in Hnone. eapply Hok; try done. split_and!; try done; [by rw els_add Hk He|].
    cbn. by rw Hd.
Qed.

Lemma wp_del_of c x h d a b k cols dat l p (Post : unit -> S -> Prop) :
  inside c h d a b k cols dat -> cols !! k = Some l -> cursor (sel_col a) = p -> p <> 0 ->
  (forall c', inside c' h d (a_del a) b k (alter (without p) k cols) (delete p dat) -> Post tt (c', x)) ->
  wp (lst (cl_del h)) (c, x) Post.
Proof.
  intros Hin Hl <- Hp HP. pose proof (inside_sel _ _ _ _ _ _ _ _ _ Hin Hl) as Hel.
  destruct Hin as (Hr & Hh & Hk & He & Hd). eapply wp_lst; [apply cl_del_law|done|done|].
  intros [] a' b' c' (-> & ->) Hr' Hh'. destruct (els_del a b l) as [E1 E2]; [by eapply cl_wf|done|].
  apply HP. split_and!; try done; [congruence|by rw E1 Hk He|].
  unfold a_del. destruct (Z.eqb_spec (cursor (sel_col a)) 0); [done|]. cbn. by rw Hd.
Qed.

Lemma wp_halloc_of c x h d a b k cols dat n (Post : Z -> S -> Prop) :
  inside c h d a b k cols dat -> 0 < n ->
  (forall c', inside c' h d a b k cols dat -> Post 0 (c', x)) ->
  (forall r c', 0 < r -> dat !! r = None -> b !! r = None ->
    inside c' h d a (<[r := n]> b) k cols dat -> Post r (c', x)) ->
  wp (lst (cl_halloc n)) (c, x) Post.
Proof.
  intros (Hr & Hh & Hk & He & Hd) Hn Hfail Hok.
  eapply wp_lst; [by apply (cl_halloc_law h d n a b)|done|done|].
  intros r a' b' c' (-> & [[-> ->]|(Hp & Hnone & Hb & ->)]) Hr' Hh'.
  - apply Hfail. by split_and!.
  - rw Hd in Hnone. by eapply Hok.
Qed.

Lemma wp_hfree_of c x h d a b k cols dat p n (Post : unit -> S -> Prop) :
  inside c h d a b k cols dat -> b !! p = Some n ->
  (forall c', inside c' h d a (delete p b) k cols dat -> Post tt (c', x)) ->
  wp (lst (cl_hfree p n)) (c, x) Post.
Proof.
  intros (Hr & Hh & Hk & He & Hd) Hp HP.
  eapply wp_lst; [by apply (cl_hfree_law h d p n a b)|done|done|].
  intros [] a' b' c' (-> & ->) Hr' Hh'. apply HP. by split_and!.
Qed.
End client.
