(* ===== verification/Pool.v ===== *)
(** * Object pool (core/mem/pool.cpp, [cPool])

    The pool keeps its records in a two-column list: column [COL_FREE] holds
    the records that can be handed out again, [COL_BUSY] those in use.  The
    code is written over the interface of ColumnList.v; [cb] is the callback
    given to [init] (its effect on a record's contents), and [log] the calls it
    received.  [assert(false)] ends the process and is undefined here. *)
From S2P Require Import Prelude Memory Mutex LinkedList LinkedListSpec LinkedListEdit ColumnList.
Set Default Goal Selector "!".

Definition COL_FREE : Z := 0.
Definition COL_BUSY : Z := 1.
Definition POOL_OP_NEW : Z := 1.
Definition POOL_OP_BUSY : Z := 2.
Definition POOL_OP_FREE : Z := 3.
Definition POOL_OP_DELETE : Z := 4.
Definition ENUM_CANCEL : Z := 1.

Record pool {C : Type} := mkPool {
  mpi_list : C;
  m_data_size : Z;
  log : list (Z * Z)          (* operation and record of each callback *)
}.
Arguments pool : clear implicits.

Section pool.
Context {C V : Type} `{ColumnList C V}.
Context (cb : option (Z -> V -> V)) (zeroed : V).
Abbreviation PM := (M (pool C)).

(** A call through [mpi_list->]. *)
Definition lst {R} (m : M C R) : PM R := fun s =>
  match m (mpi_list s) with
  | Some (r, c) => Some (r, mkPool C c (m_data_size s) (log s))
  | None => None
  end.

(** [if(mp_cb) mp_cb(op, rec, mp_udata)] *)
Definition notify (op rec : Z) : PM unit :=
  match cb with
  | Some f => lst (cl_write rec (f op));;
              modify (fun s => mkPool C (mpi_list s) (m_data_size s) (log s ++ [(op, rec)]))
  | None => mret tt
  end.

Fixpoint free_all_loop (fuel : nat) (hm : Z) : PM unit :=
  match fuel with
  | O => undefined
  | S fuel =>
      '(rec, _) ← lst (cl_first hm);
      if negb (rec =? 0) then
        notify POOL_OP_FREE rec;;
        lst (cl_mov rec COL_FREE hm);;
        free_all_loop fuel hm
      else mret tt
  end.

Definition _free_all (fuel : nat) (hlock : Z) : PM unit :=
  hm ← lst (cl_lock hlock);
  lst (cl_col COL_BUSY hm);;
  free_all_loop fuel hm;;
  lst (cl_unlock hm).

Fixpoint clear_loop (fuel : nat) (hm : Z) : PM unit :=
  match fuel with
  | O => undefined
  | S fuel =>
      '(rec, _) ← lst (cl_first hm);
      if negb (rec =? 0) then
        notify POOL_OP_DELETE rec;;
        lst (cl_del hm);;
        clear_loop fuel hm
      else mret tt
  end.

Definition _clear (fuel : nat) (hlock : Z) : PM unit :=
  hm ← lst (cl_lock hlock);
  _free_all fuel hm;;
  lst (cl_col COL_FREE hm);;
  clear_loop fuel hm;;
  lst (cl_unlock hm).

(** [destroy], up to the release of the list object. *)
Fixpoint destroy_loop (fuel : nat) (rec hm : Z) : PM unit :=
  match fuel with
  | O => undefined
  | S fuel =>
      if negb (rec =? 0) then
        notify POOL_OP_DELETE rec;;
        '(rec, _) ← lst (cl_next hm);
        destroy_loop fuel rec hm
      else mret tt
  end.

Definition destroy (fuel : nat) : PM unit :=
  hm ← lst (cl_lock 0);
  _free_all fuel hm;;
  (match cb with
   | Some _ =>
       lst (cl_col COL_FREE hm);;
       '(rec, _) ← lst (cl_first hm);
       destroy_loop fuel rec hm
   | None => mret tt
   end);;
  lst (cl_unlock hm).

Definition alloc : PM Z :=
  hm ← lst (cl_lock 0);
  lst (cl_col COL_FREE hm);;
  '(r, _) ← lst (cl_first hm);
  r ← (if negb (r =? 0) then
         notify POOL_OP_BUSY r;;
         lst (cl_mov r COL_BUSY hm);;
         mret r
       else
         lst (cl_col COL_BUSY hm);;
         sz ← gets m_data_size;
         r ← lst (cl_new zeroed sz hm);
         when (negb (r =? 0)) (lst (cl_write r (fun _ => zeroed));; notify POOL_OP_NEW r);;
         mret r);
  lst (cl_unlock hm);;
  mret r.

Definition free (rec : Z) : PM unit :=
  hm ← lst (cl_lock 0);
  lst (cl_col COL_BUSY hm);;
  ok ← lst (cl_sel rec hm);
  (if negb (ok =? 0) then
     notify POOL_OP_FREE rec;;
     lst (cl_mov rec COL_FREE hm);;
     mret tt
   else undefined);;
  lst (cl_unlock hm).

Definition verify (rec : Z) : PM bool :=
  hm ← lst (cl_lock 0);
  lst (cl_col COL_BUSY hm);;
  ok ← lst (cl_sel rec hm);
  lst (cl_unlock hm);;
  mret (negb (ok =? 0)).

Definition free_all (fuel : nat) : PM unit := _free_all fuel 0.
Definition clear (fuel : nat) : PM unit := _clear fuel 0.

Definition num_col (k : Z) : PM Z :=
  hm ← lst (cl_lock 0);
  lst (cl_col k hm);;
  r ← lst (cl_cnt hm);
  lst (cl_unlock hm);;
  mret r.
Definition num_busy : PM Z := num_col COL_BUSY.
Definition num_free : PM Z := num_col COL_FREE.

(** [pcb] returns its verdict and the new contents of [udata]. *)
Section enumerate.
Context {U : Type} (pcb : Z -> option Z -> U -> Z * U).

Fixpoint enum_loop (fuel : nat) (rec : Z) (size : option Z) (u : U) (hlock : Z) : PM U :=
  match fuel with
  | O => undefined
  | S fuel =>
      if negb (rec =? 0) then
        let '(x, u) := pcb rec size u in
        if x =? ENUM_CANCEL then mret u else
        '(rec, size) ← lst (cl_next hlock);
        enum_loop fuel rec size u hlock
      else mret u
  end.

Definition enumerate (fuel : nat) (u : U) (hlock : Z) : PM U :=
  '(rec, size) ← lst (cl_first hlock);
  enum_loop fuel rec size u hlock.

Definition enum_col (k : Z) (fuel : nat) (u : U) : PM U :=
  hm ← lst (cl_lock 0);
  lst (cl_col k hm);;
  u ← enumerate fuel u hm;
  lst (cl_unlock hm);;
  mret u.
Definition enum_busy := enum_col COL_BUSY.
Definition enum_free := enum_col COL_FREE.

(** What an enumeration of [l] computes. *)
Fixpoint visit (sz : Z -> option Z) (l : list Z) (u : U) : U :=
  match l with
  | [] => u
  | p :: l => let '(x, u) := pcb (p + HDR) (sz p) u in
              if x =? ENUM_CANCEL then u else visit sz l u
  end.
End enumerate.
End pool.

(** ** Specification and proofs *)
Section pool_proofs.
Context {C V : Type} `{CL : ColumnListLaws C V}.
Context (cb : option (Z -> V -> V)) (zeroed : V).
Abbreviation pl := (mkPool C).

Definition event (op rec : Z) : list (Z * Z) := match cb with Some _ => [(op, rec)] | None => [] end.
Definition touch (op p : Z) (a : alist V) : alist V :=
  match cb with Some f => put_data p (f op) a | None => a end.
Definition touched (op p : Z) (dat : gmap Z (Z * V)) : gmap Z (Z * V) :=
  match cb with Some f => alter (fun x => (x.1, f op x.2)) p dat | None => dat end.

Lemma els_touch op p a : els (touch op p a) = els a.
Proof. unfold touch. by destruct cb. Qed.
Lemma sel_touch op p a : a_sel (touch op p a) = a_sel a.
Proof. unfold touch. by destruct cb. Qed.
Lemma data_touch op p a : a_data (touch op p a) = touched op p (a_data a).
Proof. unfold touch, touched. by destruct cb. Qed.
Lemma size_touched op p dat : size (touched op p dat) = size dat.
Proof.
  unfold touched. destruct cb as [f|]; [|done].
  destruct (dat !! p) as [x|] eqn:E; [rw (alter_Some _ _ _ _ E) map_size_insert_Some //|].
  by rw alter_None.
Qed.
Lemma touch_cursor op p a : sel_col (touch op p a) = sel_col a.
Proof. unfold touch. by destruct cb. Qed.

Lemma pool_wp_lst {R} (m : M C R) c sz lg h d a b Q (Post : R -> pool C -> Prop) :
  cl_triple h d m a b Q -> cl_rep c a b -> cl_held c h d ->
  (forall r a' b' c', Q r a' b' -> cl_rep c' a' b' -> cl_held c' h d -> Post r (pl c' sz lg)) ->
  wp (lst m) (pl c sz lg) Post.
Proof.
  intros Ht Hr Hh HP. apply (Ht c Hr), wp_run in Hh as (r & c' & E & a' & b' & Hr' & Hh' & HQ).
  unfold wp, lst. cbn. rw E. by eapply HP.
Qed.

Lemma wp_notify op p c sz lg h d a b (Post : unit -> pool C -> Prop) :
  is_Some (a_data a !! p) -> cl_rep c a b -> cl_held c h d ->
  (forall c', cl_rep c' (touch op p a) b -> cl_held c' h d ->
    Post tt (pl c' sz (lg ++ event op (p + HDR)))) ->
  wp (notify cb op (p + HDR)) (pl c sz lg) Post.
Proof.
  intros Hp Hr Hh HP. unfold notify, touch, event in *. destruct cb as [f|].
  - apply wp_bind. eapply pool_wp_lst; [by apply cl_write_law|done|done|].
    intros [] a' b' c' [-> ->] Hr' Hh'. apply wp_modify. by apply HP.
  - apply wp_ret. specialize (HP c Hr Hh). by rw app_nil_r in HP.
Qed.

(** Taking the free lock, and releasing it. *)
Lemma wp_lst_lock c sz lg a b (Post : Z -> pool C -> Prop) :
  cl_rep c a b -> cl_free c ->
  (forall h c', cl_rep c' a b -> cl_held c' h 1 -> Post h (pl c' sz lg)) ->
  wp (lst (cl_lock 0)) (pl c sz lg) Post.
Proof.
  intros Hr Hf HP. destruct (wp_run _ _ _ (cl_lock_free c a b Hr Hf)) as (h & c' & E & Hr' & Hh').
  unfold wp, lst. cbn. rw E. by apply HP.
Qed.

Lemma wp_lst_unlock c sz lg a b h (Post : unit -> pool C -> Prop) :
  cl_rep c a b -> cl_held c h 1 ->
  (forall c', cl_rep c' a b -> cl_free c' -> Post tt (pl c' sz lg)) ->
  wp (lst (cl_unlock h)) (pl c sz lg) Post.
Proof.
  intros Hr Hf HP. destruct (wp_run _ _ _ (cl_unlock_last c a b h Hr Hf)) as ([] & c' & E & Hr' & Hh').
  unfold wp, lst. cbn. rw E. by apply HP.
Qed.

(** The pool at rest: free and busy records in order, their contents, and
    the callbacks made so far. *)
Definition pool_ok (s : pool C) (fr bs : list Z) (dat : gmap Z (Z * V)) : Prop :=
  exists a b, cl_rep (mpi_list s) a b /\ cl_free (mpi_list s) /\ els a = [fr; bs] /\ a_data a = dat.

(** Inside a critical section. *)
Definition inside (c : C) (h d : Z) (a : alist V) (b : gmap Z Z) (k : nat) (fr bs : list Z)
    (dat : gmap Z (Z * V)) : Prop :=
  cl_rep c a b /\ cl_held c h d /\ a_sel a = k /\ els a = [fr; bs] /\ a_data a = dat.

Lemma pool_wp_select k c sz lg h d a b j fr bs dat (Post : unit -> pool C -> Prop) :
  (k < 2)%nat -> inside c h d a b j fr bs dat ->
  (forall c' a', inside c' h d a' b k fr bs dat -> Post tt (pl c' sz lg)) ->
  wp (lst (cl_col (Z.of_nat k) h)) (pl c sz lg) Post.
Proof.
  intros Hk (Hr & Hh & _ & Hel & Hd) HP. eapply pool_wp_lst; [apply cl_col_law; lia|done|done|].
  intros [] a' b' c' [-> ->] Hr' Hh'. eapply HP. split_and!; try done.
  - apply sel_a_col. by rw Hel.
  - by rw els_col.
  - by rw data_col.
Qed.

Definition column (k : nat) (fr bs : list Z) : list Z := if decide (k = 0%nat) then fr else bs.

Lemma inside_elems c h d a b k fr bs dat :
  (k < 2)%nat -> inside c h d a b k fr bs dat -> els a !! a_sel a = Some (column k fr bs).
Proof.
  intros Hk (H1 & H2 & H3 & H4 & H5). rw H3 H4. unfold column. destruct k as [|[|k]]; [done|done|lia].
Qed.

(** [first] on the selected column: its head, or NULL when it is empty. *)
Lemma pool_wp_first_of c sz lg h d a b k fr bs dat (Post : Z * option Z -> pool C -> Prop) :
  (k < 2)%nat -> inside c h d a b k fr bs dat ->
  (column k fr bs = [] -> forall c', inside c' h d a b k fr bs dat -> Post (0, None) (pl c' sz lg)) ->
  (forall p l, column k fr bs = p :: l -> 0 < p -> NoDup (p :: l) -> is_Some (dat !! p) ->
    forall c' a', inside c' h d a' b k fr bs dat -> cursor (sel_col a') = p -> alist_ok a' b ->
    Post (p + HDR, fst <$> dat !! p) (pl c' sz lg)) ->
  wp (lst (cl_first h)) (pl c sz lg) Post.
Proof.
  intros Hk Hin Hnil Hcons. pose proof (inside_elems _ _ _ _ _ _ _ _ _ Hk Hin) as Hel.
  destruct Hin as (Hr & Hh & Hs & He & Hd). pose proof (cl_wf _ _ _ Hr) as (Hc & Hdat & _ & _ & _ & _ & Hpos).
  eapply pool_wp_lst; [apply cl_first_law|done|done|]. intros r a' b' c' (-> & -> & ->) Hr' Hh'.
  destruct (column k fr bs) as [|p l] eqn:El.
  - rw (first_none _ Hel) in Hr' |- *. by apply Hnil.
  - destruct (els_lookup_inv _ _ _ Hel) as (ac & Hk' & Eac).
    destruct (Hc _ _ Hk') as (Hnd & _ & _). rw Eac in Hnd.
    assert (is_Some (a_data a !! p)) as [x Hx].
    { apply Hdat. exists (a_sel a), ac. split; [done|]. rw Eac. by left. }
    pose proof (Hpos _ _ Hx). destruct (first_of a p l Hel) as [-> Hcur]; [lia|].
    rw Hd. eapply Hcons; try done.
    + rw -Hd Hx. by eexists.
    + split_and!; try done; [by rw sel_first|by rw els_first|by rw data_first].
    + by eapply cl_wf.
Qed.

Lemma inside_data c h d a b k fr bs dat p :
  inside c h d a b k fr bs dat -> p ∈ fr \/ p ∈ bs -> is_Some (dat !! p).
Proof.
  intros (Hr & _ & _ & He & <-) Hp. pose proof (cl_wf _ _ _ Hr) as (_ & Hdat & _).
  apply Hdat. destruct Hp as [Hp|Hp].
  - destruct (els_lookup_inv a 0 fr) as (ac & Hk & E); [by rw He|]. exists 0%nat, ac. by rw E.
  - destruct (els_lookup_inv a 1 bs) as (ac & Hk & E); [by rw He|]. exists 1%nat, ac. by rw E.
Qed.

Lemma inside_touch c h d a b k fr bs dat op p c' :
  inside c h d a b k fr bs dat -> cl_rep c' (touch op p a) b -> cl_held c' h d ->
  inside c' h d (touch op p a) b k fr bs (touched op p dat).
Proof.
  intros (Hr & Hh & Hs & He & Hd) Hr' Hh'. split_and!; try done.
  - by rw sel_touch.
  - by rw els_touch.
  - by rw data_touch Hd.
Qed.

(** A callback on a record of the pool. *)
Lemma wp_notify_in op p c sz lg h d a b k fr bs dat (Post : unit -> pool C -> Prop) :
  inside c h d a b k fr bs dat -> p ∈ fr \/ p ∈ bs ->
  (forall c', inside c' h d (touch op p a) b k fr bs (touched op p dat) ->
    Post tt (pl c' sz (lg ++ event op (p + HDR)))) ->
  wp (notify cb op (p + HDR)) (pl c sz lg) Post.
Proof.
  intros Hin Hp HP. pose proof (inside_data _ _ _ _ _ _ _ _ _ _ Hin Hp) as Hs.
  pose proof Hin as (Hr & Hh & _ & _ & Hd). rw -Hd in Hs.
  eapply wp_notify; [done..|]. intros c' Hr' Hh'. apply HP. by eapply inside_touch.
Qed.

Lemma wp_mov_busy c sz lg h d a b k fr bs dat p (Post : Z -> pool C -> Prop) :
  inside c h d a b k fr bs dat -> p ∈ fr ->
  (forall c' a', inside c' h d a' b k (without p fr) (bs ++ [p]) dat -> Post 1 (pl c' sz lg)) ->
  wp (lst (cl_mov (p + HDR) COL_BUSY h)) (pl c sz lg) Post.
Proof.
  intros Hin Hp HP. pose proof (inside_data _ _ _ _ _ _ _ _ _ _ Hin (or_introl Hp)) as Hs.
  destruct Hin as (Hr & Hh & Hk & He & Hd). rw -Hd in Hs.
  eapply pool_wp_lst; [apply cl_mov_law; [done|done]|done|done|].
  intros r a' b' c' (-> & -> & ->) Hr' Hh'.
  destruct (els_mov p 1 a b 0 fr) as (E1 & E2 & E3 & E4); rw ?He; try done; [by eapply cl_wf|cbn; lia|].
  change (Z.of_nat 1) with COL_BUSY in *. rw E1. apply (HP c' (a_mov p COL_BUSY a).2).
  split_and!; try done; [congruence|by rw E2 He|congruence].
Qed.

Lemma wp_mov_free c sz lg h d a b k fr bs dat p (Post : Z -> pool C -> Prop) :
  inside c h d a b k fr bs dat -> p ∈ bs ->
  (forall c' a', inside c' h d a' b k (fr ++ [p]) (without p bs) dat -> Post 1 (pl c' sz lg)) ->
  wp (lst (cl_mov (p + HDR) COL_FREE h)) (pl c sz lg) Post.
Proof.
  intros Hin Hp HP. pose proof (inside_data _ _ _ _ _ _ _ _ _ _ Hin (or_intror Hp)) as Hs.
  destruct Hin as (Hr & Hh & Hk & He & Hd). rw -Hd in Hs.
  eapply pool_wp_lst; [apply cl_mov_law; [done|done]|done|done|].
  intros r a' b' c' (-> & -> & ->) Hr' Hh'.
  destruct (els_mov p 0 a b 1 bs) as (E1 & E2 & E3 & E4); rw ?He; try done; [by eapply cl_wf|cbn; lia|].
  change (Z.of_nat 0) with COL_FREE in *. rw E1. apply (HP c' (a_mov p COL_FREE a).2).
  split_and!; try done; [congruence|by rw E2 He|congruence].
Qed.

(** Leaving the critical section with the result. *)
Lemma pool_wp_leave c sz lg h a b k fr bs dat (Post : unit -> pool C -> Prop) :
  inside c h 1 a b k fr bs dat ->
  (forall c', pool_ok (pl c' sz lg) fr bs dat -> Post tt (pl c' sz lg)) ->
  wp (lst (cl_unlock h)) (pl c sz lg) Post.
Proof.
  intros (Hr & Hh & _ & He & Hd) HP. eapply wp_lst_unlock; [done|done|].
  intros c' Hr' Hf'. apply HP. by exists a, b.
Qed.

Lemma pool_wp_enter s fr bs dat (Post : Z -> pool C -> Prop) :
  pool_ok s fr bs dat ->
  (forall h c' a b k, inside c' h 1 a b k fr bs dat -> Post h (pl c' (m_data_size s) (log s))) ->
  wp (lst (cl_lock 0)) s Post.
Proof.
  intros (a & b & Hr & Hf & He & Hd) HP. destruct s as [c sz lg]. cbn in *.
  eapply wp_lst_lock; [done|done|]. intros h c' Hr' Hh'. eapply HP. by split_and!.
Qed.

Lemma column_free fr bs : column 0 fr bs = fr. Proof. done. Qed.
Lemma column_busy fr bs : column 1 fr bs = bs. Proof. done. Qed.

(** The answer and the new state of [alloc]. *)
Definition alloc_post (s : pool C) (fr bs : list Z) (dat : gmap Z (Z * V)) (r : Z) (s' : pool C) : Prop :=
  m_data_size s' = m_data_size s /\
  match fr with
  | p :: fr' =>
      r = p + HDR /\ pool_ok s' fr' (bs ++ [p]) (touched POOL_OP_BUSY p dat) /\
      log s' = log s ++ event POOL_OP_BUSY r
  | [] =>
      r = 0 /\ pool_ok s' [] bs dat /\ log s' = log s \/
      exists p, r = p + HDR /\ 0 < p /\ dat !! p = None /\
        pool_ok s' [] (bs ++ [p]) (touched POOL_OP_NEW p (<[p := (m_data_size s, zeroed)]> dat)) /\
        log s' = log s ++ event POOL_OP_NEW r
  end.

Lemma wp_alloc_new c sz lg h a b bs dat (Post : Z -> pool C -> Prop) :
  inside c h 1 a b 1 [] bs dat ->
  0 <= sz -> sz + HDR < 2 ^ 32 -> Z.of_nat (size dat) + 1 < 2 ^ 32 ->
  (forall c' a', inside c' h 1 a' b 1 [] bs dat -> Post 0 (pl c' sz lg)) ->
  (forall p c' a', 0 < p -> dat !! p = None ->
    inside c' h 1 a' b 1 [] (bs ++ [p]) (touched POOL_OP_NEW p (<[p := (sz, zeroed)]> dat)) ->
    Post (p + HDR) (pl c' sz (lg ++ event POOL_OP_NEW (p + HDR)))) ->
  wp (r ← lst (cl_new zeroed sz h);
      when (negb (r =? 0)) (lst (cl_write r (fun _ => zeroed));; notify cb POOL_OP_NEW r);;
      mret r) (pl c sz lg) Post.
Proof.
  intros Hin Hsz Hsz2 Hn Hfail Hok. destruct Hin as (Hr & Hh & Hk & He & Hd).
  apply wp_bind. eapply pool_wp_lst; [apply (cl_new_law h 1 zeroed sz a b); rw ?Hd; done|done|done|].
  intros r a' b' c' (-> & [[-> ->]|(p & -> & Hp & Hnone & Hb & ->)]) Hr' Hh'.
  - apply wp_bind, wp_ret, wp_ret. eapply Hfail. by split_and!.
  - destruct (Z.eqb_spec (p + HDR) 0); [unfold HDR in *; lia|]. cbn [negb when].
    apply wp_bind, wp_bind. eapply pool_wp_lst; [apply cl_write_law|done|done|].
    { cbn. rw lookup_insert_eq. by eexists. }
    intros [] a2 b2 c2 [-> ->] Hr2 Hh2.
    assert (inside c2 h 1 (put_data p (fun _ => zeroed) (a_add p sz zeroed a)) b 1 [] (bs ++ [p])
      (<[p := (sz, zeroed)]> dat)) as Hin2.
    { split_and!; try done.
      - by rw els_put els_add Hk He.
      - cbn. rw (alter_Some _ _ _ (sz, zeroed)) ?lookup_insert_eq // insert_insert_eq Hd //. }
    eapply wp_notify_in; [exact Hin2|right; apply elem_of_app; right; by left|].
    intros c3 Hin3. apply wp_ret. rw Hd in Hnone. by eapply Hok.
Qed.

Lemma pool_alloc_spec s fr bs dat :
  pool_ok s fr bs dat -> 0 <= m_data_size s -> m_data_size s + HDR < 2 ^ 32 ->
  Z.of_nat (size dat) + 1 < 2 ^ 32 ->
  wp (alloc cb zeroed) s (alloc_post s fr bs dat).
Proof.
  intros Hp Hsz Hsz2 Hn. unfold alloc. apply wp_bind. eapply pool_wp_enter; [done|].
  intros h c a b k Hin. apply wp_bind. eapply (pool_wp_select 0); [lia|exact Hin|].
  clear a Hin c. intros c a Hin. apply wp_bind.
  eapply (pool_wp_first_of c _ _ h 1 a b 0); [lia|exact Hin|rw column_free..].
  - intros -> c' Hin'. cbn [Z.eqb negb]. apply wp_bind, wp_bind.
    eapply (pool_wp_select 1); [lia|exact Hin'|]. clear c' Hin'. intros c' a' Hin'.
    apply wp_bind, wp_gets. eapply wp_alloc_new; [exact Hin'|done..| |].
    + intros c2 a2 Hin2. apply wp_bind. eapply pool_wp_leave; [exact Hin2|].
      intros c3 Hok. apply wp_ret. split; [done|]. by left.
    + intros p c2 a2 Hp0 Hf Hin2. apply wp_bind. eapply pool_wp_leave; [exact Hin2|].
      intros c3 Hok. apply wp_ret. split; [done|]. right. exists p. done.
  - intros p l -> Hp0 Hnd Hdat c' a' Hin' Hcur Hwf. cbn [fst].
    destruct (Z.eqb_spec (p + HDR) 0); [unfold HDR in *; lia|]. cbn [negb].
    apply wp_bind, wp_bind. eapply wp_notify_in; [exact Hin'|left; by left|].
    intros c2 Hin2. apply wp_bind. eapply wp_mov_busy; [exact Hin2|by left|].
    intros c3 a3 Hin3. apply wp_ret. rw without_head // in Hin3.
    apply wp_bind. eapply pool_wp_leave; [exact Hin3|]. intros c4 Hok. apply wp_ret. by split.
Qed.

Lemma pool_free_spec s fr bs dat p :
  pool_ok s fr bs dat -> p ∈ bs ->
  wp (free cb (p + HDR)) s (fun _ s' =>
    pool_ok s' (fr ++ [p]) (without p bs) (touched POOL_OP_FREE p dat) /\
    log s' = log s ++ event POOL_OP_FREE (p + HDR) /\ m_data_size s' = m_data_size s).
Proof.
  intros Hp Hin0. unfold free. apply wp_bind. eapply pool_wp_enter; [done|].
  intros h c a b k Hin. apply wp_bind. eapply (pool_wp_select 1); [lia|exact Hin|].
  clear a Hin c. intros c a Hin. apply wp_bind.
  pose proof (fun H2 => inside_elems _ _ _ _ _ _ _ _ _ H2 Hin) as Hel. specialize (Hel ltac:(lia)). rw column_busy in Hel.
  pose proof (inside_data _ _ _ _ _ _ _ _ _ _ Hin (or_intror Hin0)) as Hs.
  destruct Hin as (Hr & Hh & Hk & He & Hd). rw -Hd in Hs.
  eapply pool_wp_lst; [by apply cl_sel_law|done|done|].
  intros r a' b' c' (-> & -> & ->) Hr' Hh'.
  assert (inside c' h 1 (a_selrec p a).2 b 1 fr bs dat) as Hin'.
  { split_and!; try done; [by rw sel_selrec|by rw els_selrec|by rw data_selrec]. }
  assert ((a_selrec p a).1 = 1) as ->.
  { unfold a_selrec. rw decide_True //. by rw (els_sel _ _ Hel). }
  cbn [Z.eqb negb]. apply wp_bind, wp_bind. eapply wp_notify_in; [exact Hin'|by right|].
  intros c2 Hin2. apply wp_bind. eapply wp_mov_free; [exact Hin2|done|].
  intros c3 a3 Hin3. apply wp_ret. eapply pool_wp_leave; [exact Hin3|]. by intros c4 Hok.
Qed.

(** A record that is not busy makes [free] fail its assertion. *)
Lemma free_not_busy s fr bs dat p :
  pool_ok s fr bs dat -> p ∈ fr -> p ∉ bs -> free cb (p + HDR) s = None.
Proof.
  intros Hp Hin0 Hn. unfold free.
  assert (wp (hm ← lst (cl_lock 0); lst (cl_col COL_BUSY hm);; lst (cl_sel (p + HDR) hm)) s
    (fun r _ => r = 0)) as Hw.
  { apply wp_bind. eapply pool_wp_enter; [done|]. intros h c a b k Hin. apply wp_bind.
    eapply (pool_wp_select 1); [lia|exact Hin|]. clear a Hin c. intros c a Hin.
    pose proof (fun H2 => inside_elems _ _ _ _ _ _ _ _ _ H2 Hin) as Hel. specialize (Hel ltac:(lia)). rw column_busy in Hel.
    pose proof (inside_data _ _ _ _ _ _ _ _ _ _ Hin (or_introl Hin0)) as Hs.
    destruct Hin as (Hr & Hh & Hk & He & Hd). rw -Hd in Hs.
    eapply pool_wp_lst; [by apply cl_sel_law|done|done|].
    intros r a' b' c' (-> & -> & ->) _ _. unfold a_selrec. rw decide_False //.
    by rw (els_sel _ _ Hel). }
  apply wp_run in Hw as (r & s' & E & ->). revert E. unfold mbind, M_bind.
  destruct (lst (cl_lock 0) s) as [[hm s1]|]; [|done].
  destruct (lst (cl_col COL_BUSY hm) s1) as [[? s2]|]; [|done].
  by intros ->.
Qed.

Lemma verify_spec s fr bs dat p :
  pool_ok s fr bs dat -> p ∈ fr \/ p ∈ bs ->
  wp (verify (p + HDR)) s (fun r s' =>
    r = bool_decide (p ∈ bs) /\ pool_ok s' fr bs dat /\ log s' = log s).
Proof.
  intros Hp Hin0. unfold verify. apply wp_bind. eapply pool_wp_enter; [done|].
  intros h c a b k Hin. apply wp_bind. eapply (pool_wp_select 1); [lia|exact Hin|].
  clear a Hin c. intros c a Hin. apply wp_bind.
  pose proof (fun H2 => inside_elems _ _ _ _ _ _ _ _ _ H2 Hin) as Hel. specialize (Hel ltac:(lia)). rw column_busy in Hel.
  pose proof (inside_data _ _ _ _ _ _ _ _ _ _ Hin Hin0) as Hs.
  destruct Hin as (Hr & Hh & Hk & He & Hd). rw -Hd in Hs.
  eapply pool_wp_lst; [by apply cl_sel_law|done|done|].
  intros r a' b' c' (-> & -> & ->) Hr' Hh'.
  assert (inside c' h 1 (a_selrec p a).2 b 1 fr bs dat) as Hin'.
  { split_and!; try done; [by rw sel_selrec|by rw els_selrec|by rw data_selrec]. }
  apply wp_bind. eapply pool_wp_leave; [exact Hin'|]. intros c2 Hok. apply wp_ret.
  split; [|done]. unfold a_selrec. rw (els_sel _ _ Hel). by case_decide; case_bool_decide.
Qed.

Lemma num_busy_spec s fr bs dat :
  pool_ok s fr bs dat ->
  wp num_busy s (fun r s' => r = Z.of_nat (length bs) /\ pool_ok s' fr bs dat /\ log s' = log s).
Proof.
  intros Hp. unfold num_busy, num_col. apply wp_bind. eapply pool_wp_enter; [done|].
  intros h c a b k Hin. apply wp_bind. eapply (pool_wp_select 1); [lia|exact Hin|].
  clear a Hin c. intros c a Hin. apply wp_bind.
  pose proof (fun H2 => inside_elems _ _ _ _ _ _ _ _ _ H2 Hin) as Hel. specialize (Hel ltac:(lia)).
  destruct Hin as (Hr & Hh & Hk & He & Hd). eapply pool_wp_lst; [by apply cl_cnt_law|done|done|].
  intros r a' b' c' (-> & -> & ->) Hr' Hh'. apply wp_bind.
  eapply pool_wp_leave; [by split_and!|]. intros c2 Hok. apply wp_ret. split; [|done].
  unfold a_cnt. by rw (els_sel _ _ Hel).
Qed.

Lemma num_free_spec s fr bs dat :
  pool_ok s fr bs dat ->
  wp num_free s (fun r s' => r = Z.of_nat (length fr) /\ pool_ok s' fr bs dat /\ log s' = log s).
Proof.
  intros Hp. unfold num_free, num_col. apply wp_bind. eapply pool_wp_enter; [done|].
  intros h c a b k Hin. apply wp_bind. eapply (pool_wp_select 0); [lia|exact Hin|].
  clear a Hin c. intros c a Hin. apply wp_bind.
  pose proof (fun H2 => inside_elems _ _ _ _ _ _ _ _ _ H2 Hin) as Hel. specialize (Hel ltac:(lia)).
  destruct Hin as (Hr & Hh & Hk & He & Hd). eapply pool_wp_lst; [by apply cl_cnt_law|done|done|].
  intros r a' b' c' (-> & -> & ->) Hr' Hh'. apply wp_bind.
  eapply pool_wp_leave; [by split_and!|]. intros c2 Hok. apply wp_ret. split; [|done].
  unfold a_cnt. by rw (els_sel _ _ Hel).
Qed.

Definition touched_all (op : Z) (l : list Z) (dat : gmap Z (Z * V)) : gmap Z (Z * V) :=
  foldl (fun d p => touched op p d) dat l.
Definition events (op : Z) (l : list Z) : list (Z * Z) := concat ((fun p => event op (p + HDR)) <$> l).

Lemma wp_free_all_loop bs : forall fuel c sz lg h d a b fr dat (Post : unit -> pool C -> Prop),
  inside c h d a b 1 fr bs dat -> (length bs < fuel)%nat ->
  (forall c' a', inside c' h d a' b 1 (fr ++ bs) [] (touched_all POOL_OP_FREE bs dat) ->
    Post tt (pl c' sz (lg ++ events POOL_OP_FREE bs))) ->
  wp (free_all_loop cb fuel h) (pl c sz lg) Post.
Proof.
  induction bs as [|p bs IH]; intros fuel c sz lg h d a b fr dat Post Hin Hf HP;
    destruct fuel as [|fuel]; try (cbn in Hf; lia); cbn [free_all_loop]; apply wp_bind.
  - eapply (pool_wp_first_of c _ _ h d a b 1); [lia|exact Hin| |by intros p l]; rw column_busy.
    intros _ c' Hin'. apply wp_ret. unfold events in HP. cbn in HP. rw !app_nil_r in HP. by eapply HP.
  - eapply (pool_wp_first_of c _ _ h d a b 1); [lia|exact Hin|done|]; rw column_busy.
    intros p' l [= <- <-] Hp0 Hnd Hdat c' a' Hin' _ _. cbn [fst].
    destruct (Z.eqb_spec (p + HDR) 0); [unfold HDR in *; lia|]. cbn [negb].
    apply wp_bind. eapply wp_notify_in; [exact Hin'|right; by left|].
    intros c2 Hin2. apply wp_bind. eapply wp_mov_free; [exact Hin2|by left|].
    intros c3 a3 Hin3. rw without_head // in Hin3. eapply IH; [exact Hin3|cbn in Hf; lia|].
    intros c4 a4 Hin4. rw -!app_assoc in Hin4 |- *. by eapply HP.
Qed.

(** [_free_all] inside or outside of a critical section. *)
Lemma wp_free_all fuel c sz lg h d a b k fr bs dat (Post : unit -> pool C -> Prop) :
  inside c h d a b k fr bs dat -> 0 < d < MAX_NEST -> (length bs < fuel)%nat ->
  (forall c' a', inside c' h d a' b 1 (fr ++ bs) [] (touched_all POOL_OP_FREE bs dat) ->
    Post tt (pl c' sz (lg ++ events POOL_OP_FREE bs))) ->
  wp (_free_all cb fuel h) (pl c sz lg) Post.
Proof.
  intros (Hr & Hh & Hk & He & Hd) Hn Hf HP. unfold _free_all. apply wp_bind.
  destruct (wp_run _ _ _ (cl_lock_nest c a b h d Hr Hh (proj2 Hn))) as (h' & c' & E & -> & Hr' & Hh').
  unfold wp, lst at 1. cbn [mpi_list]. rw E. apply wp_bind.
  eapply (pool_wp_select 1 _ _ _ h (d + 1) a b k); [lia|by split_and!|].
  intros c2 a2 Hin2. apply wp_bind. eapply wp_free_all_loop; [exact Hin2|done|].
  intros c3 a3 (Hr3 & Hh3 & Hk3 & He3 & Hd3).
  destruct (wp_run _ _ _ (cl_unlock_nest c3 a3 b h (d + 1) Hr3 Hh3 ltac:(lia))) as ([] & c4 & E4 & Hr4 & Hh4).
  unfold wp, lst. cbn [mpi_list]. rw E4. apply (HP c4 a3). split_and!; try done.
  by replace d with (d + 1 - 1) by lia.
Qed.

Lemma free_all_spec s fr bs dat fuel :
  pool_ok s fr bs dat -> (length bs < fuel)%nat ->
  wp (free_all cb fuel) s (fun _ s' =>
    pool_ok s' (fr ++ bs) [] (touched_all POOL_OP_FREE bs dat) /\
    log s' = log s ++ events POOL_OP_FREE bs).
Proof.
  intros Hp Hf. unfold free_all, _free_all. apply wp_bind. eapply pool_wp_enter; [done|].
  intros h c a b k Hin. apply wp_bind. eapply (pool_wp_select 1); [lia|exact Hin|].
  clear a Hin c. intros c a Hin. apply wp_bind. eapply wp_free_all_loop; [exact Hin|done|].
  intros c2 a2 Hin2. eapply pool_wp_leave; [exact Hin2|]. by split.
Qed.

Lemma wp_clear_loop fr : forall fuel c sz lg h d a b dat (Post : unit -> pool C -> Prop),
  inside c h d a b 0 fr [] dat -> (length fr < fuel)%nat ->
  (forall c' a' dat', inside c' h d a' b 0 [] [] dat' ->
    Post tt (pl c' sz (lg ++ events POOL_OP_DELETE fr))) ->
  wp (clear_loop cb fuel h) (pl c sz lg) Post.
Proof.
  induction fr as [|p fr IH]; intros fuel c sz lg h d a b dat Post Hin Hf HP;
    destruct fuel as [|fuel]; try (cbn in Hf; lia); cbn [clear_loop]; apply wp_bind.
  - eapply (pool_wp_first_of c _ _ h d a b 0); [lia|exact Hin| |by intros p l]; rw column_free.
    intros _ c' Hin'. apply wp_ret. unfold events in HP. cbn in HP. rw !app_nil_r in HP. by eapply HP.
  - eapply (pool_wp_first_of c _ _ h d a b 0); [lia|exact Hin|done|]; rw column_free.
    intros p' l [= <- <-] Hp0 Hnd Hdat c' a' Hin' Hcur _. cbn [fst].
    destruct (Z.eqb_spec (p + HDR) 0); [unfold HDR in *; lia|]. cbn [negb].
    apply wp_bind. eapply wp_notify_in; [exact Hin'|left; by left|].
    intros c2 Hin2. pose proof (fun H2 => inside_elems _ _ _ _ _ _ _ _ _ H2 Hin2) as Hel.
    specialize (Hel ltac:(lia)). rw column_free in Hel.
    destruct Hin2 as (Hr2 & Hh2 & Hk2 & He2 & Hd2). apply wp_bind.
    eapply pool_wp_lst; [apply cl_del_law|done|done|]. intros [] a3 b3 c3 [-> ->] Hr3 Hh3.
    destruct (els_del _ _ _ (cl_wf _ _ _ Hr2) Hel) as [Ed Es].
    rw touch_cursor Hcur in Ed. eapply (IH _ _ _ _ _ _ _ _ (a_data (a_del (touch POOL_OP_DELETE p a')))).
    + split_and!; [done|done|congruence| |done]. rw Ed Hk2 He2.
      change ([without p (p :: fr); []] = [fr; @nil Z]). by rw without_head.
    + cbn in Hf. lia.
    + intros c4 a4 dat4 Hin4. rw -!app_assoc. by eapply HP.
Qed.

(** [clear] empties both columns; every record is announced to the callback,
    first as freed when it was busy, then as deleted. *)
Lemma clear_spec s fr bs dat fuel :
  pool_ok s fr bs dat -> (length (fr ++ bs) < fuel)%nat ->
  wp (clear cb fuel) s (fun _ s' =>
    pool_ok s' [] [] ∅ /\
    log s' = log s ++ events POOL_OP_FREE bs ++ events POOL_OP_DELETE (fr ++ bs)).
Proof.
  intros Hp Hf. unfold clear, _clear. apply wp_bind. eapply pool_wp_enter; [done|].
  intros h c a b k Hin. apply wp_bind. rw length_app in Hf.
  eapply wp_free_all; [exact Hin|unfold MAX_NEST; lia|lia|].
  clear a Hin c. intros c a Hin. apply wp_bind. eapply (pool_wp_select 0); [lia|exact Hin|].
  clear a Hin c. intros c a Hin. apply wp_bind.
  eapply wp_clear_loop; [exact Hin|rw length_app; lia|].
  intros c2 a2 dat2 Hin2. assert (dat2 = ∅) as ->.
  { destruct Hin2 as (Hr & _ & _ & He & <-). apply map_empty. intros q.
    destruct (a_data a2 !! q) eqn:E; [|done]. pose proof (cl_wf _ _ _ Hr) as (_ & Hdat & _).
    destruct (proj1 (Hdat q)) as (j & ac & Hj & Hq); [by eexists|].
    apply els_lookup in Hj. rw He in Hj.
    destruct j as [|[|j]]; cbn in Hj; [injection Hj as Hj..|done]; rw -Hj in Hq;
      by apply not_elem_of_nil in Hq. }
  eapply pool_wp_leave; [exact Hin2|]. intros c3 Hok. split; [done|]. cbn. by rw app_assoc.
Qed.

(** Enumeration visits the column in order until the callback cancels. *)
Section enum.
Context {U : Type} (pcb : Z -> option Z -> U -> Z * U).

Lemma wp_enum_loop l2 : forall fuel l1 q c sz lg h d a b k fr bs dat u (Post : U -> pool C -> Prop),
  (k < 2)%nat -> inside c h d a b k fr bs dat -> column k fr bs = l1 ++ q :: l2 ->
  cursor (sel_col a) = q -> (length l2 + 1 < fuel)%nat ->
  (forall c' a', inside c' h d a' b k fr bs dat ->
    Post (visit pcb (fun p => fst <$> dat !! p) (q :: l2) u) (pl c' sz lg)) ->
  wp (enum_loop pcb fuel (q + HDR) (fst <$> dat !! q) u h) (pl c sz lg) Post.
Proof.
  induction l2 as [|p l2 IH]; intros fuel l1 q c sz lg h d a b k fr bs dat u Post Hk Hin Hcol Hcur Hf HP;
    destruct fuel as [|fuel]; try (cbn in Hf; lia); cbn [enum_loop];
    pose proof (inside_elems _ _ _ _ _ _ _ _ _ Hk Hin) as Hel; rw Hcol in Hel;
    destruct Hin as (Hr & Hh & Hs & He & Hd); pose proof (cl_wf _ _ _ Hr) as (Hc & Hdat & _ & _ & _ & _ & Hpos);
    destruct (els_lookup_inv _ _ _ Hel) as (ac & Hac & Eac);
    destruct (Hc _ _ Hac) as (Hnd & _ & _); rw Eac in Hnd;
    (assert (forall p', p' ∈ elems ac -> 0 < p') as Hp0
      by (intros p' Hp'; destruct (proj2 (Hdat p') (ex_intro _ _ (ex_intro _ _ (conj Hac Hp')))) as [x Hx];
          by eapply Hpos));
    rw Eac in Hp0;
    (assert (0 < q) by (apply Hp0, elem_of_app; right; by left));
    (destruct (Z.eqb_spec (q + HDR) 0); [unfold HDR in *; lia|]); cbn [negb visit] in HP |- *;
    destruct (pcb (q + HDR) (fst <$> dat !! q) u) as [x u'];
    (destruct (x =? ENUM_CANCEL); [apply wp_ret; apply (HP c a); by split_and!|]);
    apply wp_bind; (eapply pool_wp_lst; [apply cl_next_law|done|done|]);
    intros r a' b' c' (-> & -> & ->) Hr' Hh'.
  - rw (next_none a l1 q) // in Hr' |- *. cbn [fst snd] in *.
    destruct fuel as [|fuel]; [cbn in Hf; lia|]. apply wp_ret. apply (HP c' a). by split_and!.
  - destruct (next_of a l1 q p l2) as [E1 E2]; try done.
    { assert (0 < p); [|lia]. apply Hp0, elem_of_app. right. right. by left. }
    rw E1 Hd. eapply (IH fuel (l1 ++ [q]) p); try done; [| |cbn in Hf; lia].
    + split_and!; try done; [by rw sel_next|by rw els_next|by rw data_next].
    + by rw -app_assoc.
Qed.

Lemma enum_col_spec (k : nat) s fr bs dat fuel u :
  (k < 2)%nat -> pool_ok s fr bs dat -> (length (column k fr bs) + 1 < fuel)%nat ->
  wp (enum_col pcb (Z.of_nat k) fuel u) s (fun r s' =>
    r = visit pcb (fun p => fst <$> dat !! p) (column k fr bs) u /\
    pool_ok s' fr bs dat /\ log s' = log s).
Proof.
  intros Hk Hp Hf. unfold enum_col. apply wp_bind. eapply pool_wp_enter; [done|].
  intros h c a b j Hin. apply wp_bind. eapply (pool_wp_select k); [lia|exact Hin|].
  clear a Hin c. intros c a Hin. apply wp_bind. unfold enumerate. apply wp_bind.
  eapply (pool_wp_first_of c _ _ h 1 a b k); [lia|exact Hin|..].
  - intros E c' Hin'. destruct fuel as [|fuel]; [lia|]. cbn [enum_loop Z.eqb negb].
    apply wp_ret, wp_bind. eapply pool_wp_leave; [exact Hin'|]. intros c2 Hok. apply wp_ret.
    by rw E.
  - intros p l E Hp0 Hnd _ c' a' Hin' Hcur Hwf. rw E in Hf |- *.
    eapply (wp_enum_loop l fuel [] p); try done; [cbn in Hf; lia|].
    intros c2 a2 Hin2. apply wp_bind. eapply pool_wp_leave; [exact Hin2|]. intros c3 Hok.
    by apply wp_ret.
Qed.
End enum.
End pool_proofs.

(** C35: [alloc] hands out the oldest free record, announced as busy; with none
    free it adds a cleared record of the pool's size, announced as new, or
    returns NULL and changes nothing.  The record becomes the last busy one and
    is never one that was busy already. *)
Theorem pool_alloc {C V} `{ColumnListLaws C V} cb (zeroed : V) s fr bs dat :
  pool_ok s fr bs dat -> 0 <= m_data_size s -> m_data_size s + HDR < 2 ^ 32 ->
  Z.of_nat (size dat) + 1 < 2 ^ 32 ->
  wp (alloc cb zeroed) s (fun r s' => alloc_post cb zeroed s fr bs dat r s' /\
    forall p, p ∈ bs -> r <> p + HDR).
Proof.
  intros Hp Hsz Hsz2 Hn. eapply wp_mono; [by apply pool_alloc_spec|]. intros r s' Hpost.
  split; [done|]. intros q Hq Hr.
  destruct Hp as (a & b & Hrep & _ & He & Hd). pose proof (cl_wf _ _ _ Hrep) as (_ & Hdat & Hdis & _ & _ & _ & Hpos).
  destruct (els_lookup_inv a 1 bs) as (ac & Hk & E); [by rw He|]. rw -E in Hq.
  assert (is_Some (dat !! q)) as [x Hx] by (rw -Hd; apply Hdat; eauto).
  destruct Hpost as [_ Hpost]. destruct fr as [|p fr].
  - destruct Hpost as [[-> _]|(p & -> & _ & Hf & _)].
    + rw -Hd in Hx. pose proof (Hpos _ _ Hx). unfold HDR in *. lia.
    + assert (p = q) by lia. subst p. by rw Hx in Hf.
  - destruct Hpost as [-> _]. assert (p = q) by lia. subst p.
    destruct (els_lookup_inv a 0 (q :: fr)) as (ac' & Hk' & E'); [by rw He|].
    assert (0 = 1)%nat; [|done]. eapply Hdis; [done..| |done]. rw E'. by left.
Qed.

(** a record given back by [free] leaves the busy column for the end of the
    free column, and when nothing else was free the next [alloc] returns that
    very record, with the contents it was left with (it is not cleared again). *)
Theorem pool_free_alloc {C V} `{ColumnListLaws C V} cb (zeroed : V) s bs dat p :
  pool_ok s [] bs dat -> p ∈ bs -> 0 <= m_data_size s -> m_data_size s + HDR < 2 ^ 32 ->
  Z.of_nat (size dat) + 1 < 2 ^ 32 ->
  wp (free cb (p + HDR);; alloc cb zeroed) s (fun r s' =>
    r = p + HDR /\
    pool_ok s' [] (without p bs ++ [p]) (touched cb POOL_OP_BUSY p (touched cb POOL_OP_FREE p dat)) /\
    log s' = log s ++ event cb POOL_OP_FREE r ++ event cb POOL_OP_BUSY r).
Proof.
  intros Hp Hin Hsz Hsz2 Hn. apply wp_bind. eapply wp_mono; [by apply pool_free_spec|].
  intros _ s1 (Hp1 & Hl1 & Hs1). eapply wp_mono; [eapply pool_alloc_spec; [exact Hp1|lia..|]|].
  { by rw size_touched. }
  intros r s2 (_ & -> & Hp2 & Hl2). split_and!; try done. by rw Hl2 Hl1 app_assoc.
Qed.

(** [clear] gives every record back to the heap: the pool is empty, and the
    callback saw each busy record freed and then each record deleted, once. *)
Theorem pool_clear {C V} `{ColumnListLaws C V} cb (s : pool C) fr bs (dat : gmap Z (Z * V)) fuel :
  pool_ok s fr bs dat -> (length (fr ++ bs) < fuel)%nat ->
  wp (clear cb fuel;; nb ← num_busy; nf ← num_free; mret (nb, nf)) s (fun r s' =>
    r = (0, 0) /\ pool_ok s' [] [] (∅ : gmap Z (Z * V)) /\
    log s' = log s ++ events cb POOL_OP_FREE bs ++ events cb POOL_OP_DELETE (fr ++ bs)).
Proof.
  intros Hp Hf. apply wp_bind. eapply wp_mono; [by eapply clear_spec|].
  intros _ s1 [Hp1 Hl1]. apply wp_bind. eapply wp_mono; [by eapply num_busy_spec|].
  intros nb s2 (-> & Hp2 & Hl2). apply wp_bind. eapply wp_mono; [by eapply num_free_spec|].
  intros nf s3 (-> & Hp3 & Hl3). apply wp_ret. split_and!; [done|done|]. by rw Hl3 Hl2.
Qed.

(** an enumeration calls back with every record of the column, in order,
    each with its size, until the callback cancels, and changes nothing. *)
Theorem pool_enumerate {C V U} `{ColumnListLaws C V} (pcb : Z -> option Z -> U -> Z * U)
    (s : pool C) fr bs (dat : gmap Z (Z * V)) fuel u :
  pool_ok s fr bs dat -> (length fr + length bs + 1 < fuel)%nat ->
  wp (enum_busy pcb fuel u) s (fun r s' =>
    r = visit pcb (fun p => fst <$> dat !! p) bs u /\ pool_ok s' fr bs dat /\ log s' = log s) /\
  wp (enum_free pcb fuel u) s (fun r s' =>
    r = visit pcb (fun p => fst <$> dat !! p) fr u /\ pool_ok s' fr bs dat /\ log s' = log s).
Proof.
  intros Hp Hf. split.
  - apply (enum_col_spec pcb 1); [lia|done|]. rw column_busy. lia.
  - apply (enum_col_spec pcb 0); [lia|done|]. rw column_free. lia.
Qed.

(** *** Witnesses: a pool of 8-byte records over the pointer list *)
Definition demo_pool : pool (ll_context Bump.t Z) := mkPool _ (Demo.made 2 10) 8 [].
Definition demo_cb : option (Z -> Z -> Z) := Some (fun op v => v + op).

Lemma demo_pool_ok : pool_ok demo_pool [] [] (∅ : gmap Z (Z * Z)).
Proof.
  destruct (Demo.made_rep (V := Z) 2 10) as [Hr Hf]; [lia|lia|].
  by exists (a_init 2), ∅.
Qed.

Lemma demo_alloc : fst <$> alloc demo_cb 0 demo_pool = Some (4160 + HDR).
Proof. vm_compute. reflexivity. Qed.

(** One record in use. *)
Lemma demo_pool_busy : exists (s : pool (ll_context Bump.t Z)) p (dat : gmap Z (Z * Z)),
  pool_ok s [] [p] dat /\ m_data_size s = 8 /\ (size dat <= 1)%nat.
Proof.
  pose proof (pool_alloc_spec demo_cb 0 demo_pool [] [] ∅ demo_pool_ok) as Hw.
  apply wp_run in Hw as (r & s & E & Hsz & Hpost);
    [|cbn; unfold HDR; rw ?map_size_empty; lia..].
  pose proof demo_alloc as Ha. rw E in Ha. cbn in Ha.
  destruct Hpost as [[-> _]|(p & _ & _ & _ & Hok & _)]; [exfalso; clear -Ha; injection Ha; unfold HDR; lia|].
  exists s, p. eexists. split; [exact Hok|]. split; [exact Hsz|].
  by rw size_touched insert_empty map_size_singleton.
Qed.

Lemma pool_alloc_witness :
  wp (alloc demo_cb 0) demo_pool (fun r s' => alloc_post demo_cb 0 demo_pool [] [] ∅ r s' /\
    forall p, p ∈ [] -> r <> p + HDR).
Proof. 
  apply (pool_alloc demo_cb 0 demo_pool [] [] ∅);
    [apply demo_pool_ok|cbn; unfold HDR; rw ?map_size_empty; lia..].
 Defined.

Lemma pool_free_alloc_witness : exists (s : pool (ll_context Bump.t Z)) p (dat : gmap Z (Z * Z)),
  wp (free demo_cb (p + HDR);; alloc demo_cb 0) s (fun r s' =>
    r = p + HDR /\
    pool_ok s' [] (without p [p] ++ [p])
      (touched demo_cb POOL_OP_BUSY p (touched demo_cb POOL_OP_FREE p dat)) /\
    log s' = log s ++ event demo_cb POOL_OP_FREE r ++ event demo_cb POOL_OP_BUSY r).
Proof.
  destruct demo_pool_busy as (s & p & dat & Hok & Hsz & Hn). exists s, p, dat.
  apply (pool_free_alloc demo_cb 0 s [p] dat p); [done|by left|lia|unfold HDR; lia|lia].
Defined.

Lemma pool_clear_witness : exists (s : pool (ll_context Bump.t Z)) p (dat : gmap Z (Z * Z)),
  wp (clear demo_cb 2;; nb ← num_busy; nf ← num_free; mret (nb, nf)) s (fun r s' =>
    r = (0, 0) /\ pool_ok s' [] [] (∅ : gmap Z (Z * Z)) /\
    log s' = log s ++ events demo_cb POOL_OP_FREE [p] ++ events demo_cb POOL_OP_DELETE ([] ++ [p])).
Proof.
  destruct demo_pool_busy as (s & p & dat & Hok & _). exists s, p, dat.
  apply (pool_clear demo_cb s [] [p] dat 2); [done|cbn; lia].
Defined.

Lemma pool_enumerate_witness : exists (s : pool (ll_context Bump.t Z)) p (dat : gmap Z (Z * Z)),
  let pcb rec (sz : option Z) (u : list Z) := (0, u ++ [rec]) in
  wp (enum_busy pcb 3 []) s (fun r s' =>
    r = visit pcb (fun p => fst <$> dat !! p) [p] [] /\ pool_ok s' [] [p] dat /\ log s' = log s) /\
  wp (enum_free pcb 3 []) s (fun r s' =>
    r = visit pcb (fun p => fst <$> dat !! p) [] [] /\ pool_ok s' [] [p] dat /\ log s' = log s).
Proof.
  destruct demo_pool_busy as (s & p & dat & Hok & _). exists s, p, dat.
  apply (pool_enumerate _ s [] [p] dat 3); [done|cbn; lia].
Defined.
