(* ===== verification/BufferMap.v ===== *)
(** * Buffer map (core/mem/bmap.cpp, [cBufferMap])

    Buffers of one size, kept by their descriptors in a three-column list:
    free, busy and dirty.  The buffers themselves are blocks of the heap the
    list shares; their contents move through the I/O callback, which is
    recorded in [io] as (operation, buffer, size, user data). *)
From S2P Require Import Prelude Memory Mutex LinkedList LinkedListSpec LinkedListEdit ColumnList ListClient.
Set Default Goal Selector "!".

Definition BFREE : Z := 0.
Definition BBUSY : Z := 1.
Definition BDIRTY : Z := 2.
Definition BIO_INIT : Z := 1.
Definition BIO_READ : Z := 2.
Definition BIO_WRITE : Z := 3.
Definition BIO_UNINIT : Z := 4.
Definition MAX_UDATA64_INDEX : Z := 3.
(** [sizeof(_buffer_t)], packed. *)
Definition BUFFER_SIZE : Z := 41.

Record buffer := mkBuffer {
  b_state : Z;
  b_ptr : Z;
  b_udata : Z;
  b_udata64 : list Z
}.
Definition set_state (st : Z) (b : buffer) := mkBuffer st (b_ptr b) (b_udata b) (b_udata64 b).
Definition put_udata (u : Z) (b : buffer) := mkBuffer (b_state b) (b_ptr b) u (b_udata64 b).
Definition put_udata64 (i : nat) (x : Z) (b : buffer) :=
  mkBuffer (b_state b) (b_ptr b) (b_udata b) (<[i := x]> (b_udata64 b)).

Record bmap := mkBmap {
  m_bsize : Z;
  m_pcb_bio : bool;                     (* a callback is installed *)
  io : list (Z * Z * Z * Z)
}.

Section bmap.
Context {C : Type} `{ColumnList C buffer}.
Abbreviation BS := (C * bmap)%type.
Abbreviation BM := (M BS).
(** The bytes of [udata64] in the uninitialised local [_buffer_t b]. *)
Context (stack : list Z).

Definition bsize : BM Z := gets (fun s => m_bsize s.2).
Definition bio (op p udata : Z) : BM unit :=
  modify (fun s => if m_pcb_bio s.2
    then (s.1, mkBmap (m_bsize s.2) true (io s.2 ++ [(op, p, m_bsize s.2, udata)]))
    else s).
Definition rd (hb : Z) : BM buffer := lst (cl_read hb).
Definition wr (hb : Z) (f : buffer -> buffer) : BM unit := lst (cl_write hb f).

Fixpoint uninit_loop (fuel : nat) (b hlock : Z) : BM unit :=
  match fuel with
  | O => undefined
  | S fuel =>
      if negb (b =? 0) then
        r ← rd b;
        bio BIO_UNINIT (b_ptr r) (b_udata r);;
        n ← bsize;
        lst (cl_hfree (b_ptr r) n);;
        lst (cl_del hlock);;
        '(b, _) ← lst (cl_current hlock);
        uninit_loop fuel b hlock
      else mret tt
  end.

Definition uninit_llist (fuel : nat) (col hlock : Z) : BM unit :=
  lst (cl_col col hlock);;
  '(b, _) ← lst (cl_first hlock);
  uninit_loop fuel b hlock.

Definition uninit (fuel : nat) : BM unit :=
  n ← bsize;
  if negb (n =? 0) then
    hm ← lst (cl_lock 0);
    uninit_llist fuel BFREE hm;;
    uninit_llist fuel BBUSY hm;;
    uninit_llist fuel BDIRTY hm;;
    modify (fun s => (s.1, mkBmap 0 false (io s.2)));;
    lst (cl_unlock hm)
  else mret tt.

Definition alloc (udata : Z) : BM Z :=
  hm ← lst (cl_lock 0);
  n ← bsize;
  r ← (if negb (n =? 0) then
         lst (cl_col BFREE hm);;
         '(pb, _) ← lst (cl_first hm);
         if negb (pb =? 0) then
           ok ← lst (cl_mov pb BBUSY hm);
           if negb (ok =? 0) then
             wr pb (set_state BBUSY);;
             wr pb (put_udata udata);;
             b ← rd pb;
             bio BIO_INIT (b_ptr b) (b_udata b);;
             mret pb
           else mret 0
         else
           p ← lst (cl_halloc n);
           if negb (p =? 0) then
             lst (cl_col BBUSY hm);;
             r ← lst (cl_add (mkBuffer BBUSY p udata stack) BUFFER_SIZE hm);
             bio BIO_INIT p udata;;
             mret r
           else mret 0
       else mret 0);
  lst (cl_unlock hm);;
  mret r.

Definition free (hb : Z) : BM unit :=
  if negb (hb =? 0) then
    hm ← lst (cl_lock 0);
    n ← bsize;
    (if negb (n =? 0) then
       b ← rd hb;
       (if b_state b =? BDIRTY then bio BIO_WRITE (b_ptr b) (b_udata b) else mret tt);;
       bio BIO_UNINIT (b_ptr b) (b_udata b);;
       ok ← lst (cl_mov hb BFREE hm);
       when (negb (ok =? 0)) (wr hb (set_state BFREE))
     else mret tt);;
    lst (cl_unlock hm)
  else mret tt.

Definition ptr (hb : Z) : BM Z := if negb (hb =? 0) then b ← rd hb; mret (b_ptr b) else mret 0.

Definition dirty (hb : Z) : BM unit :=
  if negb (hb =? 0) then
    hm ← lst (cl_lock 0);
    n ← bsize;
    (if negb (n =? 0) then
       ok ← lst (cl_mov hb BDIRTY hm);
       when (negb (ok =? 0)) (wr hb (set_state BDIRTY))
     else mret tt);;
    lst (cl_unlock hm)
  else mret tt.

Definition get_udata (hb : Z) : BM Z :=
  if negb (hb =? 0) then b ← rd hb; mret (b_udata b) else mret 0.
Definition set_udata (hb u : Z) : BM unit :=
  if negb (hb =? 0) then wr hb (put_udata u) else mret tt.
Definition set_udata64 (hb x index : Z) : BM unit :=
  if index <? MAX_UDATA64_INDEX then wr hb (put_udata64 (Z.to_nat index) x) else mret tt.
Definition get_udata64 (hb index : Z) : BM Z :=
  if index <? MAX_UDATA64_INDEX
  then b ← rd hb; lift_opt (b_udata64 b !! Z.to_nat index) else mret 0.
Definition size : BM Z := bsize.

(** [reset] and [flush] differ in the I/O operation only. *)
Fixpoint sync_loop (op : Z) (fuel : nat) (b hm : Z) : BM unit :=
  match fuel with
  | O => undefined
  | S fuel =>
      if negb (b =? 0) then
        r ← rd b;
        bio op (b_ptr r) (b_udata r);;
        ok ← lst (cl_mov b BBUSY hm);
        if negb (ok =? 0) then
          wr b (set_state BBUSY);;
          '(b, _) ← lst (cl_current hm);
          sync_loop op fuel b hm
        else
          '(b, _) ← lst (cl_next hm);
          sync_loop op fuel b hm
      else mret tt
  end.

Definition sync (op : Z) (fuel : nat) (hb : Z) : BM unit :=
  hm ← lst (cl_lock 0);
  n ← bsize;
  (if negb (n =? 0) then
     if negb (hb =? 0) then
       b ← rd hb;
       (if negb (b_state b =? BFREE) then bio op (b_ptr b) (b_udata b) else mret tt);;
       (if b_state b =? BDIRTY then
          ok ← lst (cl_mov hb BBUSY hm);
          when (negb (ok =? 0)) (wr hb (set_state BBUSY))
        else mret tt)
     else
       lst (cl_col BDIRTY hm);;
       '(b, _) ← lst (cl_first hm);
       sync_loop op fuel b hm
   else mret tt);;
  lst (cl_unlock hm).
Definition reset : nat -> Z -> BM unit := sync BIO_READ.
Definition flush : nat -> Z -> BM unit := sync BIO_WRITE.

Record bmap_status := mkStatus { st_size : Z; st_all : Z; st_free : Z; st_busy : Z; st_dirty : Z }.
Definition status : BM bmap_status :=
  hm ← lst (cl_lock 0);
  n ← bsize;
  lst (cl_col BFREE hm);;  nf ← lst (cl_cnt hm);
  lst (cl_col BBUSY hm);;  nb ← lst (cl_cnt hm);
  lst (cl_col BDIRTY hm);; nd ← lst (cl_cnt hm);
  lst (cl_unlock hm);;
  mret (mkStatus n (u32 (nf + nb + nd)) nf nb nd).
End bmap.

(** ** Specification *)
Section bmap_spec.
Context {C : Type} `{CL : ColumnListLaws C buffer}.
Abbreviation BS := (C * bmap)%type.
Implicit Types (dat : gmap Z (Z * buffer)) (cols : list (list Z)).

Definition map_buffer (f : buffer -> buffer) (p : Z) dat : gmap Z (Z * buffer) :=
  alter (fun y => (y.1, f y.2)) p dat.
Definition moved (j i : nat) (p : Z) cols : list (list Z) :=
  alter (fun l => l ++ [p]) i (alter (without p) j cols).

(** Every descriptor names its column and owns a heap block of the buffer
    size, and no two own the same. *)
Definition bufs_ok (n : Z) (blk : gmap Z Z) cols dat : Prop :=
  (forall k l p, cols !! k = Some l -> p ∈ l ->
    exists v, dat !! p = Some (BUFFER_SIZE, v) /\ b_state v = Z.of_nat k /\ blk !! b_ptr v = Some n) /\
  (forall p q v w, dat !! p = Some v -> dat !! q = Some w -> b_ptr v.2 = b_ptr w.2 -> p = q).

Definition bmap_ok (s : BS) (blk : gmap Z Z) cols dat : Prop :=
  outside s.1 blk cols dat /\ length cols = 3%nat /\ 0 < m_bsize s.2 < 2 ^ 32 /\
  bufs_ok (m_bsize s.2) blk cols dat.

Definition bio_event (x : bmap) (op : Z) (v : buffer) : list (Z * Z * Z * Z) :=
  if m_pcb_bio x then [(op, b_ptr v, m_bsize x, b_udata v)] else [].
Definition log_io (x : bmap) (l : list (Z * Z * Z * Z)) : bmap :=
  mkBmap (m_bsize x) (m_pcb_bio x) (io x ++ l).

(** The events of one operation on every buffer of a column. *)
Definition bio_events (x : bmap) (op : Z) dat (l : list Z) : list (Z * Z * Z * Z) :=
  concat ((fun p => match dat !! p with Some v => bio_event x op v.2 | None => [] end) <$> l).

Lemma log_io_nil x : log_io x [] = x.
Proof. destruct x. by rw /log_io app_nil_r. Qed.
Lemma log_io_app x l1 l2 : log_io (log_io x l1) l2 = log_io x (l1 ++ l2).
Proof. destruct x. by rw /log_io /= app_assoc. Qed.

Lemma wp_bio op p u c x (Post : unit -> BS -> Prop) :
  Post tt (c, log_io x (if m_pcb_bio x then [(op, p, m_bsize x, u)] else [])) ->
  wp (bio op p u) (c, x) Post.
Proof.
  unfold wp, bio, modify. destruct x as [n pcb l]. cbn.
  destruct pcb; unfold log_io; cbn; [done|by rw app_nil_r].
Qed.

Lemma bufs_data n blk cols dat k l p :
  bufs_ok n blk cols dat -> cols !! k = Some l -> p ∈ l ->
  exists v, dat !! p = Some (BUFFER_SIZE, v) /\ b_state v = Z.of_nat k /\ blk !! b_ptr v = Some n.
Proof. intros [H1 _]. apply H1. Qed.

Lemma map_buffer_twice f g p dat :
  map_buffer g p (map_buffer f p dat) = map_buffer (fun v => g (f v)) p dat.
Proof.
  apply map_eq. intros q. unfold map_buffer. rw !lookup_alter.
  repeat case_decide; try done; by destruct (dat !! p).
Qed.

Definition ptr_inj dat : Prop :=
  forall p q v w, dat !! p = Some v -> dat !! q = Some w -> b_ptr v.2 = b_ptr w.2 -> p = q.

Lemma map_buffer_ptr f p dat q v :
  (forall v, b_ptr (f v) = b_ptr v) -> map_buffer f p dat !! q = Some v ->
  exists v0, dat !! q = Some v0 /\ b_ptr v0.2 = b_ptr v.2.
Proof.
  intros Hf. unfold map_buffer. rw lookup_alter. case_decide as Ep; [|by exists v]. subst q.
  destruct (dat !! p) as [y|] eqn:E; cbn; [|done]. intros [= <-]. exists y. by rw Hf.
Qed.

Lemma map_buffer_inj f p dat :
  (forall v, b_ptr (f v) = b_ptr v) -> ptr_inj dat -> ptr_inj (map_buffer f p dat).
Proof.
  intros Hf Hi q r v w Hq Hr E. apply map_buffer_ptr in Hq as (v0 & Hv & E1); [|done].
  apply map_buffer_ptr in Hr as (w0 & Hw & E2); [|done].
  apply (Hi q r v0 w0); congruence.
Qed.

(** Changing fields other than the pointer. *)
Lemma bufs_map n blk cols dat f p :
  bufs_ok n blk cols dat -> (forall v, b_ptr (f v) = b_ptr v /\ b_state (f v) = b_state v) ->
  bufs_ok n blk cols (map_buffer f p dat).
Proof.
  intros [H1 H2] Hf. split.
  - intros k l q Hk Hq. destruct (H1 k l q Hk Hq) as (v & Hv & Hst & Hb).
    unfold map_buffer. rw lookup_alter. case_decide as Ep; [|by exists v]. subst q. rw Hv.
    exists (f v). destruct (Hf v) as [-> ->]. done.
  - by apply map_buffer_inj; [intros v; apply Hf|].
Qed.

(** Moving a descriptor and recording its new column. *)
Lemma bufs_move n blk cols dat j i l p :
  bufs_ok n blk cols dat -> cols !! j = Some l -> p ∈ l ->
  (forall i j li lj q, cols !! i = Some li -> cols !! j = Some lj -> q ∈ li -> q ∈ lj -> i = j) ->
  bufs_ok n blk (moved j i p cols) (map_buffer (set_state (Z.of_nat i)) p dat).
Proof.
  intros [H1 H2] Hj Hp Hdis. split.
  - intros k l' q Hk Hq. destruct (H1 j l p Hj Hp) as (vp & Hvp & Hsp & Hbp).
    destruct (decide (q = p)) as [->|Hqp].
    + assert (k = i) as ->.
      { unfold moved in Hk. destruct (decide (k = i)) as [|Hki]; [done|]. exfalso.
        rw list_lookup_alter_ne // in Hk. destruct (decide (k = j)) as [->|Hkj].
        - rw list_lookup_alter_eq Hj in Hk. injection Hk as <-. unfold without in Hq.
          apply list_elem_of_filter in Hq as [Hq _]. by apply Hq.
        - rw list_lookup_alter_ne // in Hk. by eapply Hkj, Hdis. }
      exists (set_state (Z.of_nat i) vp). unfold map_buffer. by rw lookup_alter_eq Hvp.
    + assert (exists l0, cols !! k = Some l0 /\ q ∈ l0) as (l0 & Hl0 & Hq0).
      { unfold moved in Hk. destruct (decide (k = i)) as [->|Hki].
        - rw list_lookup_alter_eq in Hk.
          destruct (alter (without p) j cols !! i) as [l1|] eqn:E; [|done]. injection Hk as <-.
          apply elem_of_app in Hq as [Hq|Hq%list_elem_of_singleton]; [|done].
          destruct (decide (i = j)) as [->|Hij].
          + rw list_lookup_alter_eq Hj in E. injection E as <-. exists l. split; [done|].
            by apply list_elem_of_filter in Hq as [_ ?].
          + rw list_lookup_alter_ne // in E. eauto.
        - rw list_lookup_alter_ne // in Hk. destruct (decide (k = j)) as [->|Hkj].
          + rw list_lookup_alter_eq Hj in Hk. injection Hk as <-. exists l. split; [done|].
            by apply list_elem_of_filter in Hq as [_ ?].
          + rw list_lookup_alter_ne // in Hk. eauto. }
      destruct (H1 k l0 q Hl0 Hq0) as (v & Hv & ?). exists v. unfold map_buffer.
      by rw lookup_alter_ne.
  - by apply map_buffer_inj.
Qed.

(** *** Inside a critical section *)
Lemma inside_disjoint c h d a b k cols dat :
  inside c h d a b k cols dat ->
  forall i j li lj q, cols !! i = Some li -> cols !! j = Some lj -> q ∈ li -> q ∈ lj -> i = j.
Proof. intros Hin. by destruct (inside_wf _ _ _ _ _ _ _ _ Hin) as (_ & _ & H1 & _). Qed.

Lemma moved_length j i p cols : length (moved j i p cols) = length cols.
Proof. unfold moved. by rw !length_alter. Qed.

(** Moving buffer [p] to another column, with its state. *)
Lemma wp_move c x h d a b k cols dat n j l i p (Post : unit -> BS -> Prop) :
  inside c h d a b k cols dat -> bufs_ok n b cols dat -> cols !! j = Some l -> p ∈ l ->
  j <> i -> (i < length cols)%nat ->
  (forall c' a', inside c' h d a' b k (moved j i p cols) (map_buffer (set_state (Z.of_nat i)) p dat) ->
    bufs_ok n b (moved j i p cols) (map_buffer (set_state (Z.of_nat i)) p dat) ->
    sel_col a' = sel_col (a_mov p (Z.of_nat i) a).2 -> Post tt (c', x)) ->
  wp (ok ← lst (cl_mov (p + HDR) (Z.of_nat i) h);
      when (negb (ok =? 0)) (wr (p + HDR) (set_state (Z.of_nat i)))) (c, x) Post.
Proof.
  intros Hin Hb Hj Hp Hji Hi HP. apply wp_bind. eapply wp_mov_to; [exact Hin|done..|].
  intros c1 a1 Hin1 Ea. cbn [Z.eqb negb when].
  destruct (bufs_data _ _ _ _ _ _ _ Hb Hj Hp) as (v & Hv & _).
  eapply wp_write_of; [exact Hin1|by rw Hv|]. intros c2 a2 Hin2 Ea2.
  eapply HP; [exact Hin2| |by rw Ea2 Ea].
  eapply bufs_move; try done. by eapply inside_disjoint.
Qed.

Lemma wp_stay c x h d a b k cols dat l i p f (Post : unit -> BS -> Prop) :
  inside c h d a b k cols dat -> cols !! i = Some l -> p ∈ l ->
  (forall c', inside c' h d a b k cols dat -> Post tt (c', x)) ->
  wp (ok ← lst (cl_mov (p + HDR) (Z.of_nat i) h); when (negb (ok =? 0)) (wr (p + HDR) f)) (c, x) Post.
Proof.
  intros Hin Hi Hp HP. apply wp_bind. eapply wp_mov_stay; [exact Hin|done..|].
  intros c' Hin'. by apply wp_ret, HP.
Qed.

Definition column (k : nat) cols : list Z := default [] (cols !! k).

(** The new columns when [p], found in column [j], is sent to column [i]. *)
Definition sent (j i : nat) (p : Z) cols : list (list Z) := if decide (j = i) then cols else moved j i p cols.
Definition sent_data (j i : nat) (p : Z) dat : gmap Z (Z * buffer) :=
  if decide (j = i) then dat else map_buffer (set_state (Z.of_nat i)) p dat.

Lemma sent_length j i p cols : length (sent j i p cols) = length cols.
Proof. unfold sent. case_decide; by rw ?moved_length. Qed.

Lemma wp_send c x h d a b k cols dat n j l i p (Post : unit -> BS -> Prop) :
  inside c h d a b k cols dat -> bufs_ok n b cols dat -> cols !! j = Some l -> p ∈ l ->
  (i < length cols)%nat ->
  (forall c' a', inside c' h d a' b k (sent j i p cols) (sent_data j i p dat) ->
    bufs_ok n b (sent j i p cols) (sent_data j i p dat) -> Post tt (c', x)) ->
  wp (ok ← lst (cl_mov (p + HDR) (Z.of_nat i) h);
      when (negb (ok =? 0)) (wr (p + HDR) (set_state (Z.of_nat i)))) (c, x) Post.
Proof.
  unfold sent, sent_data. intros Hin Hb Hj Hp Hi HP. destruct (decide (j = i)) as [->|Hji].
  - eapply wp_stay; [exact Hin|done..|]. intros c' Hin'. by eapply HP.
  - eapply wp_move; [exact Hin|done..|]. intros c' a' Hin' Hb' _. by eapply HP.
Qed.

Lemma bmap_enter c x blk cols dat (Post : Z -> BS -> Prop) :
  bmap_ok (c, x) blk cols dat ->
  (forall h c' a k, inside c' h 1 a blk k cols dat -> Post h (c', x)) ->
  wp (lst (cl_lock 0)) (c, x) Post.
Proof. intros (Ho & _) HP. by eapply wp_enter. Qed.

Lemma rec_nonzero n blk cols dat c h d a k j l p :
  inside c h d a blk k cols dat -> bufs_ok n blk cols dat -> cols !! j = Some l -> p ∈ l ->
  (p + HDR =? 0) = false.
Proof.
  intros Hin Hb Hj Hp. destruct (inside_wf _ _ _ _ _ _ _ _ Hin) as (Hw & _).
  destruct (Hw _ _ Hj) as [_ Hps]. destruct (Hps _ Hp) as [? _].
  apply Z.eqb_neq. unfold HDR. lia.
Qed.

(** [free]: a dirty buffer is written first, every buffer is released. *)
Lemma free_spec c x blk cols dat j l p v :
  bmap_ok (c, x) blk cols dat -> cols !! j = Some l -> p ∈ l -> dat !! p = Some (BUFFER_SIZE, v) ->
  wp (free (p + HDR)) (c, x) (fun _ s' =>
    bmap_ok s' blk (sent j 0 p cols) (sent_data j 0 p dat) /\
    s'.2 = log_io x ((if decide (j = 2%nat) then bio_event x BIO_WRITE v else []) ++ bio_event x BIO_UNINIT v)).
Proof.
  intros Hok Hj Hp Hv. pose proof Hok as (Ho & Hlen & Hn & Hb). cbn [snd] in Hn, Hb.
  unfold free. assert ((p + HDR =? 0) = false) as ->.
  { pose proof Ho as (a & Hr & _ & He & Hd). apply Z.eqb_neq.
    destruct (cl_wf _ _ _ Hr) as (_ & _ & _ & _ & _ & _ & Hpos). rw -Hd in Hv. apply Hpos in Hv.
    unfold HDR. lia. }
  cbn [negb]. apply wp_bind. eapply bmap_enter; [exact Hok|]. intros h c1 a k Hin.
  apply wp_bind, wp_gets. cbn [snd]. destruct (Z.eqb_spec (m_bsize x) 0); [lia|]. cbn [negb].
  apply wp_bind, wp_bind. eapply wp_read_of; [exact Hin|done|]. clear c1 Hin. intros c1 Hin.
  destruct (bufs_data _ _ _ _ _ _ _ Hb Hj Hp) as (v' & Hv' & Hst & _). rw Hv in Hv'. injection Hv' as <-.
  rw Hst. apply wp_bind.
  set (x1 := log_io x (if decide (j = 2%nat) then bio_event x BIO_WRITE v else [])).
  assert (forall Q : unit -> BS -> Prop, Q tt (c1, x1) ->
    wp (if Z.of_nat j =? BDIRTY then bio BIO_WRITE (b_ptr v) (b_udata v) else mret tt) (c1, x) Q) as Hw.
  { intros Q HQ. unfold x1 in HQ. destruct (Z.eqb_spec (Z.of_nat j) BDIRTY) as [E|E].
    - rw decide_True in HQ; [|unfold BDIRTY in E; lia]. by apply wp_bio.
    - rw decide_False in HQ; [|unfold BDIRTY in E; lia]. apply wp_ret. by rw log_io_nil in HQ. }
  apply Hw. clear Hw. apply wp_bind, wp_bio.
  change BFREE with (Z.of_nat 0). eapply wp_send; [exact Hin|done..|lia|].
  intros c2 a2 Hin2 Hb2. eapply wp_leave; [exact Hin2|]. intros c3 Ho3.
  split; [|by rw /x1 log_io_app]. split; [exact Ho3|]. split; [|split; [exact Hn|exact Hb2]].
  by rw sent_length.
Qed.

Lemma rec_ok c x blk cols dat p v :
  bmap_ok (c, x) blk cols dat -> dat !! p = Some v -> (p + HDR =? 0) = false.
Proof.
  intros ((a & Hr & _ & He & Hd) & _) Hv. apply Z.eqb_neq.
  destruct (cl_wf _ _ _ Hr) as (_ & _ & _ & _ & _ & _ & Hpos). rw -Hd in Hv. apply Hpos in Hv.
  unfold HDR. lia.
Qed.

Lemma dirty_spec c x blk cols dat j l p :
  bmap_ok (c, x) blk cols dat -> cols !! j = Some l -> p ∈ l ->
  wp (dirty (p + HDR)) (c, x) (fun _ s' =>
    bmap_ok s' blk (sent j 2 p cols) (sent_data j 2 p dat) /\ s'.2 = x).
Proof.
  intros Hok Hj Hp. pose proof Hok as (Ho & Hlen & Hn & Hb). cbn [snd] in Hn, Hb.
  destruct (bufs_data _ _ _ _ _ _ _ Hb Hj Hp) as (v & Hv & _).
  unfold dirty. rw (rec_ok _ _ _ _ _ _ _ Hok Hv). cbn [negb].
  apply wp_bind. eapply bmap_enter; [exact Hok|]. intros h c1 a k Hin.
  apply wp_bind, wp_gets. cbn [snd]. destruct (Z.eqb_spec (m_bsize x) 0); [lia|]. cbn [negb].
  apply wp_bind. change BDIRTY with (Z.of_nat 2). eapply wp_send; [exact Hin|done..|lia|].
  intros c2 a2 Hin2 Hb2. eapply wp_leave; [exact Hin2|]. intros c3 Ho3.
  split; [|done]. split; [exact Ho3|]. split; [|split; [exact Hn|exact Hb2]]. by rw sent_length.
Qed.

(** *** Allocation *)
Context (stack : list Z).

(** The recycled buffer [p], or the new one. *)
Definition handed (u : Z) (v : buffer) : buffer := put_udata u (set_state BBUSY v).

Definition alloc_post (u : Z) (x : bmap) blk (fr bs dt : list Z) dat (r : Z) (s' : BS) : Prop :=
  match fr with
  | p :: fr' => r = p + HDR /\
      bmap_ok s' blk [fr'; bs ++ [p]; dt] (map_buffer (handed u) p dat) /\
      exists v, dat !! p = Some (BUFFER_SIZE, v) /\ s'.2 = log_io x (bio_event x BIO_INIT (handed u v))
  | [] =>
      (r = 0 /\ bmap_ok s' blk [[]; bs; dt] dat /\ s'.2 = x) \/
      (r = 0 /\ exists q, blk !! q = None /\ bmap_ok s' (<[q := m_bsize x]> blk) [[]; bs; dt] dat /\
        s'.2 = log_io x (bio_event x BIO_INIT (mkBuffer BBUSY q u stack))) \/
      exists p q, let v := mkBuffer BBUSY q u stack in
        r = p + HDR /\ 0 < p /\ dat !! p = None /\ blk !! q = None /\
        bmap_ok s' (<[q := m_bsize x]> blk) [[]; bs ++ [p]; dt] (<[p := (BUFFER_SIZE, v)]> dat) /\
        s'.2 = log_io x (bio_event x BIO_INIT v)
  end.

(** A fresh block does not disturb the buffers. *)
Lemma bufs_block n blk cols dat q m : blk !! q = None ->
  bufs_ok n blk cols dat -> bufs_ok n (<[q := m]> blk) cols dat.
Proof.
  intros Hq [H1 H2]. split; [|done]. intros k l p Hk Hp. destruct (H1 k l p Hk Hp) as (v & Hv & Hst & Hb).
  exists v. split_and!; try done. rw lookup_insert_ne //. congruence.
Qed.

Lemma bufs_add n blk fr bs dt dat p q v :
  bufs_ok n blk [fr; bs; dt] dat -> dat !! p = None -> blk !! q = None ->
  (forall r, is_Some (dat !! r) -> exists j l, [fr; bs; dt] !! j = Some l /\ r ∈ l) ->
  b_ptr v = q -> b_state v = BBUSY ->
  bufs_ok n (<[q := n]> blk) [fr; bs ++ [p]; dt] (<[p := (BUFFER_SIZE, v)]> dat).
Proof.
  intros [H1 H2] Hp Hq Hdom Hv Hst.
  assert (forall r w, dat !! r = Some w -> b_ptr w.2 <> q) as Hfresh.
  { intros r w Hw E. destruct (Hdom r) as (j & l & Hj & Hr); [by eexists|].
    destruct (H1 j l r Hj Hr) as (w' & Hw' & _ & Hb). rw Hw in Hw'. injection Hw' as ->. cbn in E.
    by rw E Hq in Hb. }
  assert (forall k l r, [fr; bs; dt] !! k = Some l -> r ∈ l -> exists w,
    <[p := (BUFFER_SIZE, v)]> dat !! r = Some (BUFFER_SIZE, w) /\ b_state w = Z.of_nat k /\
    <[q := n]> blk !! b_ptr w = Some n) as Hold.
  { intros k l r Hk Hr. destruct (H1 k l r Hk Hr) as (w & Hw & Hs & Hb). exists w.
    rw !lookup_insert_ne; [done|congruence|congruence]. }
  split.
  - intros k l r Hk Hr. destruct k as [|[|[|k]]]; cbn in Hk; [injection Hk as <-..|done].
    + by apply (Hold 0%nat fr).
    + apply elem_of_app in Hr as [Hr|Hr]; [by apply (Hold 1%nat bs)|].
      apply list_elem_of_singleton in Hr as ->.
      exists v. rw Hv !lookup_insert_eq. done.
    + by apply (Hold 2%nat dt).
  - intros r r' w w'. rw !lookup_insert.
    case_decide as E1; [intros [= <-]|intros Hw]; (case_decide as E2; [intros [= <-]|intros Hw']); try congruence.
    + cbn. rw Hv. intros E. by destruct (Hfresh _ _ Hw').
    + cbn. rw Hv. intros E. by destruct (Hfresh _ _ Hw).
    + by apply (H2 r r').
Qed.

Lemma alloc_spec c x blk fr bs dt dat u :
  bmap_ok (c, x) blk [fr; bs; dt] dat -> (fr = [] -> Z.of_nat (base.size dat) + 1 < 2 ^ 32) ->
  wp (alloc stack u) (c, x) (alloc_post u x blk fr bs dt dat).
Proof.
  intros Hok Hsz. pose proof Hok as (Ho & Hlen & Hn & Hb). cbn [snd] in Hn, Hb.
  unfold alloc. apply wp_bind. eapply bmap_enter; [exact Hok|]. intros h c1 a k Hin.
  apply wp_bind, wp_gets. cbn [snd]. destruct (Z.eqb_spec (m_bsize x) 0); [lia|]. cbn [negb].
  apply wp_bind, wp_bind. eapply (wp_select 0); [exact Hin|cbn; lia|]. clear c1 a Hin. intros c1 a Hin.
  apply wp_bind. eapply wp_first_of; [exact Hin|done|..].
  - intros -> c2 Hin2. specialize (Hsz eq_refl). cbn [Z.eqb negb]. apply wp_bind.
    eapply wp_halloc_of; [exact Hin2|lia|..].
    + intros c3 Hin3. cbn [Z.eqb negb]. apply wp_ret, wp_bind. eapply wp_leave; [exact Hin3|].
      intros c4 Ho4. apply wp_ret. left. done.
    + intros q c3 Hq0 Hqd Hqb Hin3. destruct (Z.eqb_spec q 0); [lia|]. cbn [negb].
      pose proof (inside_wf _ _ _ _ _ _ _ _ Hin3) as (_ & Hdom & _).
      apply wp_bind. eapply (wp_select 1); [exact Hin3|cbn; lia|]. intros c4 a4 Hin4.
      apply wp_bind. eapply wp_add_of; [exact Hin4|done|done|done|..].
      * intros c5 Hin5. apply wp_bind, wp_bio, wp_ret, wp_bind. eapply wp_leave; [exact Hin5|].
        intros c6 Ho6. apply wp_ret. right. left. split; [done|]. exists q. split; [done|].
        split; [|done]. split; [exact Ho6|]. split; [done|]. split; [done|]. by apply bufs_block.
      * intros p c5 a5 Hp0 Hpd Hpb Hin5. apply wp_bind, wp_bio, wp_ret, wp_bind.
        eapply wp_leave; [exact Hin5|]. intros c6 Ho6. apply wp_ret. right. right. exists p, q.
        cbn zeta. split_and!; try done. split; [exact Ho6|]. split; [done|]. split; [done|].
        by apply bufs_add.
  - intros p fr' -> Hp0 [v0 Hv0] c2 a2 Hin2 Hcur. cbn [fst].
    destruct (Z.eqb_spec (p + HDR) 0); [unfold HDR in *; lia|]. cbn [negb].
    destruct (bufs_data _ _ _ _ 0 (p :: fr') p Hb) as (v & Hv & _); [done|by left|].
    pose proof (inside_wf _ _ _ _ _ _ _ _ Hin2) as (Hw & _ & Hdis & _).
    destruct (Hw 0%nat _ eq_refl) as [Hnd _].
    apply wp_bind. change BBUSY with (Z.of_nat 1). eapply (wp_mov_to _ _ _ _ _ _ _ _ _ 0); [exact Hin2|done|by left|done|cbn; lia|].
    intros c3 a3 Hin3 _. cbn [Z.eqb negb]. apply wp_bind. eapply wp_write_of; [exact Hin3|by rw Hv|].
    intros c4 a4 Hin4 _. apply wp_bind. eapply wp_write_of; [exact Hin4|by rw lookup_alter_eq Hv|].
    intros c5 a5 Hin5 _. apply wp_bind. eapply wp_read_of; [exact Hin5|by rw !lookup_alter_eq Hv|].
    intros c6 Hin6. apply wp_bind, wp_bio, wp_ret, wp_bind. eapply wp_leave; [exact Hin6|].
    intros c7 Ho7. apply wp_ret. split; [done|]. change (Z.of_nat 1) with BBUSY in *.
    rw -/(moved 0 1 p [p :: fr'; bs; dt]) in Ho7.
    assert (moved 0 1 p [p :: fr'; bs; dt] = [fr'; bs ++ [p]; dt]) as Em.
    { change ([without p (p :: fr'); bs ++ [p]; dt] = [fr'; bs ++ [p]; dt]). by rw without_head. }
    rw Em in Ho7. split; [|by exists v]. split; [|split; [done|split; [done|]]].
    + cbn [fst]. rw -!/(map_buffer _ _ _) map_buffer_twice in Ho7. exact Ho7.
    + pose proof (bufs_move _ _ _ _ 0 1 _ p Hb eq_refl ltac:(by left) Hdis) as Hb'. rw Em in Hb'.
      apply (bufs_map _ _ _ _ (put_udata u) p) in Hb'; [|done].
      by rw map_buffer_twice in Hb'.
Qed.

(** *** Flushing and resetting every dirty buffer *)
Definition rec_of (p : Z) : Z := if p =? 0 then 0 else p + HDR.
Definition clean (l : list Z) dat : gmap Z (Z * buffer) :=
  foldl (fun d p => map_buffer (set_state BBUSY) p d) dat l.

Lemma bio_events_set x op st p dat l :
  bio_events x op (map_buffer (set_state st) p dat) l = bio_events x op dat l.
Proof.
  unfold bio_events. f_equal. apply list_fmap_ext. intros _ q _. unfold map_buffer.
  rw lookup_alter. case_decide; [|done]. subst q. by destruct (dat !! p).
Qed.

Lemma fst_rec_ptr {V} (a : alist V) p : (rec_ptr a p).1 = rec_of p.
Proof. unfold rec_ptr, rec_of. by destruct (p =? 0). Qed.

Lemma moved_head j i p l cols :
  NoDup (p :: l) -> cols !! j = Some (p :: l) ->
  moved j i p cols = alter (fun l => l ++ [p]) i (<[j := l]> cols).
Proof.
  intros Hnd Hj. unfold moved. by rw (list_alter_Some _ _ _ _ Hj) without_head.
Qed.

Lemma wp_sync_loop op dt : forall fuel c x h a blk fr bs dat n (Post : unit -> BS -> Prop),
  inside c h 1 a blk 2 [fr; bs; dt] dat -> bufs_ok n blk [fr; bs; dt] dat ->
  cursor (sel_col a) = hd_or 0 dt -> (length dt < fuel)%nat ->
  (forall c' a', inside c' h 1 a' blk 2 [fr; bs ++ dt; []] (clean dt dat) ->
    bufs_ok n blk [fr; bs ++ dt; []] (clean dt dat) ->
    Post tt (c', log_io x (bio_events x op dat dt))) ->
  wp (sync_loop op fuel (rec_of (hd_or 0 dt)) h) (c, x) Post.
Proof.
  induction dt as [|p dt IH]; intros fuel c x h a blk fr bs dat n Post Hin Hb Hcur Hf HP;
    destruct fuel as [|fuel]; try (cbn in Hf; lia); cbn [sync_loop hd_or].
  - apply wp_ret. unfold bio_events in HP. cbn in HP. rw app_nil_r log_io_nil in HP. by eapply HP.
  - pose proof (inside_wf _ _ _ _ _ _ _ _ Hin) as (Hw & _ & Hdis & _).
    destruct (Hw 2%nat _ eq_refl) as [Hnd Hpos]. destruct (Hpos p) as [Hp0 _]; [by left|].
    unfold rec_of. destruct (Z.eqb_spec p 0); [lia|].
    destruct (Z.eqb_spec (p + HDR) 0); [unfold HDR in *; lia|]. cbn [negb].
    destruct (bufs_data _ _ _ _ 2 (p :: dt) p Hb) as (v & Hv & _); [done|by left|].
    apply wp_bind. eapply wp_read_of; [exact Hin|done|]. clear c Hin. intros c Hin.
    apply wp_bind, wp_bio. apply wp_bind. change BBUSY with (Z.of_nat 1).
    eapply (wp_mov_to _ _ _ _ _ _ _ _ _ 2); [exact Hin|done|by left|done|cbn; lia|].
    intros c1 a1 Hin1 Ea1. rw -/(moved 2 1 p [fr; bs; p :: dt]) in Hin1. cbn [Z.eqb negb].
    assert (moved 2 1 p [fr; bs; p :: dt] = [fr; bs ++ [p]; dt]) as Em by by rw (moved_head 2 1 p dt).
    rw Em in Hin1. apply wp_bind. eapply wp_write_of; [exact Hin1|by rw Hv|].
    intros c2 a2 Hin2 Ea2. change (Z.of_nat 1) with BBUSY in *. rw -/(map_buffer (set_state BBUSY) p dat) in Hin2.
    assert (cursor (sel_col a2) = hd_or 0 dt) as Hcur2.
    { rw Ea2 Ea1. destruct Hin as (Hr & _ & Hs & He & _).
      apply (mov_cursor p 1 a blk dt (cl_wf _ _ _ Hr)); rw ?He ?Hs; try done. cbn. lia. }
    apply wp_bind. eapply wp_current_of; [exact Hin2|exact Hcur2|]. intros c3 Hin3.
    destruct (rec_ptr a2 (hd_or 0 dt)) as [r sz] eqn:Er.
    replace r with (rec_of (hd_or 0 dt)) by (by rw -(fst_rec_ptr a2) Er).
    pose proof (bufs_move _ _ _ _ 2 1 _ p Hb eq_refl ltac:(by left) Hdis) as Hb2. rw Em in Hb2.
    eapply IH; [exact Hin3|exact Hb2|done|cbn in Hf; lia|].
    intros c4 a4 Hin4 Hb4. rw log_io_app. change (Z.of_nat 1) with BBUSY in *.
    rw bio_events_set. rw -app_assoc in Hin4, Hb4. cbn [app] in Hin4, Hb4.
    specialize (HP c4 a4 Hin4 Hb4). unfold bio_events in HP |- *. cbn [fmap list_fmap concat] in HP.
    by rw Hv in HP.
Qed.

(** [flush(0)] and [reset(0)]: every dirty buffer goes through the callback
    once, in order, and becomes busy. *)
Lemma sync_all_spec op c x blk fr bs dt dat fuel :
  bmap_ok (c, x) blk [fr; bs; dt] dat -> (length dt < fuel)%nat ->
  wp (sync op fuel 0) (c, x) (fun _ s' =>
    bmap_ok s' blk [fr; bs ++ dt; []] (clean dt dat) /\
    s'.2 = log_io x (bio_events x op dat dt)).
Proof.
  intros Hok Hf. pose proof Hok as (Ho & Hlen & Hn & Hb). cbn [snd] in Hn, Hb.
  unfold sync. apply wp_bind. eapply bmap_enter; [exact Hok|]. intros h c1 a k Hin.
  apply wp_bind, wp_gets. cbn [snd]. destruct (Z.eqb_spec (m_bsize x) 0); [lia|]. cbn [negb Z.eqb].
  apply wp_bind, wp_bind. eapply (wp_select 2); [exact Hin|cbn; lia|]. clear c1 a Hin. intros c1 a Hin.
  assert (forall c2 a2, inside c2 h 1 a2 blk 2 [fr; bs; dt] dat -> cursor (sel_col a2) = hd_or 0 dt ->
    wp (sync_loop op fuel (rec_of (hd_or 0 dt)) h) (c2, x) (fun _ s' =>
      wp (lst (cl_unlock h)) s' (fun _ s2 => bmap_ok s2 blk [fr; bs ++ dt; []] (clean dt dat) /\
        s2.2 = log_io x (bio_events x op dat dt)))) as Hloop.
  { intros c2 a2 Hin2 Hcur. eapply wp_sync_loop; [exact Hin2|exact Hb|done|done|].
    intros c3 a3 Hin3 Hb3. eapply wp_leave; [exact Hin3|]. intros c4 Ho4. by split. }
  apply wp_bind. eapply wp_first_of; [exact Hin|done|..].
  - intros -> c2 Hin2. eapply (Hloop c2 a Hin2).
    destruct Hin2 as (Hr & _ & Hs & He & _). destruct (cl_wf _ _ _ Hr) as (Hcol & _).
    destruct (els_lookup_inv a 2 []) as (ac & Hac & Eac); [by rw He|].
    destruct (Hcol _ _ Hac) as (_ & [Hc|[_ Hc]] & _); [rw Eac in Hc; by apply not_elem_of_nil in Hc|].
    unfold sel_col. by rw Hs Hac.
  - intros p l -> Hp0 _ c2 a2 Hin2 Hcur. specialize (Hloop c2 a2 Hin2 Hcur).
    cbn [hd_or] in Hloop. unfold rec_of in Hloop. destruct (Z.eqb_spec p 0); [lia|exact Hloop].
Qed.

(** A single buffer: it is transferred unless it is free, and a dirty one
    becomes busy. *)
Lemma sync_one_spec op c x blk cols dat j l p v fuel :
  bmap_ok (c, x) blk cols dat -> cols !! j = Some l -> p ∈ l -> dat !! p = Some (BUFFER_SIZE, v) ->
  let i := if decide (j = 2%nat) then 1%nat else j in
  wp (sync op fuel (p + HDR)) (c, x) (fun _ s' =>
    bmap_ok s' blk (sent j i p cols) (sent_data j i p dat) /\
    s'.2 = log_io x (if decide (j = 0%nat) then [] else bio_event x op v)).
Proof.
  intros Hok Hj Hp Hv. pose proof Hok as (Ho & Hlen & Hn & Hb). cbn [snd] in Hn, Hb.
  unfold sync. apply wp_bind. eapply bmap_enter; [exact Hok|]. intros h c1 a k Hin.
  apply wp_bind, wp_gets. cbn [snd]. destruct (Z.eqb_spec (m_bsize x) 0); [lia|]. cbn [negb].
  rw (rec_ok _ _ _ _ _ _ _ Hok Hv). cbn [negb].
  apply wp_bind, wp_bind. eapply wp_read_of; [exact Hin|done|]. clear c1 Hin. intros c1 Hin.
  destruct (bufs_data _ _ _ _ _ _ _ Hb Hj Hp) as (v' & Hv' & Hst & _). rw Hv in Hv'. injection Hv' as <-.
  rw Hst. apply wp_bind.
  set (x1 := log_io x (if decide (j = 0%nat) then [] else bio_event x op v)).
  assert (forall Q : unit -> BS -> Prop, Q tt (c1, x1) ->
    wp (if negb (Z.of_nat j =? BFREE) then bio op (b_ptr v) (b_udata v) else mret tt) (c1, x) Q) as Hw.
  { intros Q HQ. unfold x1 in HQ. destruct (Z.eqb_spec (Z.of_nat j) BFREE) as [E|E]; cbn [negb].
    - rw decide_True in HQ; [|unfold BFREE in E; lia]. apply wp_ret. by rw log_io_nil in HQ.
    - rw decide_False in HQ; [|unfold BFREE in E; lia]. by apply wp_bio. }
  apply Hw. clear Hw. destruct (Z.eqb_spec (Z.of_nat j) BDIRTY) as [E|E].
  - rw decide_True; [|unfold BDIRTY in E; lia]. change BBUSY with (Z.of_nat 1).
    eapply wp_send; [exact Hin|done..|lia|]. intros c2 a2 Hin2 Hb2. eapply wp_leave; [exact Hin2|].
    intros c3 Ho3. split; [|done]. split; [exact Ho3|]. split; [by rw sent_length|by split].
  - rw decide_False; [|unfold BDIRTY in E; lia]. unfold sent, sent_data. rw !decide_True //.
    apply wp_ret. eapply wp_leave; [exact Hin|]. intros c3 Ho3. by split.
Qed.

Lemma status_spec c x blk fr bs dt dat :
  bmap_ok (c, x) blk [fr; bs; dt] dat ->
  wp status (c, x) (fun r s' =>
    r = mkStatus (m_bsize x) (u32 (Z.of_nat (length fr + length bs + length dt)))
          (Z.of_nat (length fr)) (Z.of_nat (length bs)) (Z.of_nat (length dt)) /\
    bmap_ok s' blk [fr; bs; dt] dat).
Proof.
  intros Hok. pose proof Hok as (Ho & Hlen & Hn & Hb). unfold status.
  apply wp_bind. eapply bmap_enter; [exact Hok|]. intros h c1 a k Hin. apply wp_bind, wp_gets. cbn [snd].
  apply wp_bind. eapply (wp_select 0); [exact Hin|cbn; lia|]. clear c1 a Hin. intros c1 a Hin.
  apply wp_bind. eapply wp_cnt_of; [exact Hin|done|]. clear c1 Hin. intros c1 Hin.
  apply wp_bind. eapply (wp_select 1); [exact Hin|cbn; lia|]. clear c1 a Hin. intros c1 a Hin.
  apply wp_bind. eapply wp_cnt_of; [exact Hin|done|]. clear c1 Hin. intros c1 Hin.
  apply wp_bind. eapply (wp_select 2); [exact Hin|cbn; lia|]. clear c1 a Hin. intros c1 a Hin.
  apply wp_bind. eapply wp_cnt_of; [exact Hin|done|]. clear c1 Hin. intros c1 Hin.
  apply wp_bind. eapply wp_leave; [exact Hin|]. intros c2 Ho2. apply wp_ret.
  split; [|by split]. cbn. f_equal. f_equal. lia.
Qed.

(** *** Destruction *)
(** The buffers of a column are gone from the heap and the list. *)
Definition ptrs dat (l : list Z) : list Z := omap (fun p => b_ptr ∘ snd <$> dat !! p) l.
Definition gone {X} (l : list Z) (g : gmap Z X) : gmap Z X := foldl (fun g p => delete p g) g l.

Lemma gone_lookup {X} l (g : gmap Z X) p : p ∉ l -> gone l g !! p = g !! p.
Proof.
  revert g. induction l as [|q l IH]; intros g; [done|]. intros [? ?]%not_elem_of_cons. cbn.
  rw IH // lookup_delete_ne //.
Qed.

Lemma bufs_del n blk cols dat j l p v :
  bufs_ok n blk cols dat -> cols !! j = Some (p :: l) -> NoDup (p :: l) ->
  dat !! p = Some (BUFFER_SIZE, v) ->
  (forall i j li lj q, cols !! i = Some li -> cols !! j = Some lj -> q ∈ li -> q ∈ lj -> i = j) ->
  bufs_ok n (delete (b_ptr v) blk) (alter (without p) j cols) (delete p dat).
Proof.
  intros [H1 H2] Hj Hnd Hv Hdis. split.
  - intros k l' q Hk Hq. assert (q <> p /\ exists l0, cols !! k = Some l0 /\ q ∈ l0) as (Hqp & l0 & Hl0 & Hq0).
    { destruct (decide (k = j)) as [->|Hkj].
      - rw list_lookup_alter_eq Hj in Hk. injection Hk as <-.
        apply list_elem_of_filter in Hq as [? ?]. split; [done|]. by exists (p :: l).
      - rw list_lookup_alter_ne // in Hk. split; [|by exists l']. intros ->.
        apply Hkj. eapply Hdis; try done. by left. }
    destruct (H1 k l0 q Hl0 Hq0) as (w & Hw & Hs & Hb). exists w. rw lookup_delete_ne; [|done].
    split_and!; try done. rw lookup_delete_ne //. intros E. apply Hqp. symmetry.
    by apply (H2 p q (BUFFER_SIZE, v) (BUFFER_SIZE, w)).
  - intros q r w w' [_ Hq]%lookup_delete_Some [_ Hr]%lookup_delete_Some. by apply (H2 q r).
Qed.

Lemma ptrs_delete dat p l : p ∉ l -> ptrs (delete p dat) l = ptrs dat l.
Proof.
  unfold ptrs. induction l as [|q l IH]; [done|]. intros [? ?]%not_elem_of_cons. cbn.
  rw lookup_delete_ne //. by rw IH.
Qed.

Lemma bio_events_delete x op dat p l : p ∉ l -> bio_events x op (delete p dat) l = bio_events x op dat l.
Proof.
  unfold bio_events. intros Hp. f_equal. apply list_fmap_ext. intros i q Hq.
  rw lookup_delete_ne //. intros <-. apply Hp. by eapply list_elem_of_lookup_2.
Qed.

Lemma wp_uninit_loop l : forall fuel c x h a blk k cols dat (Post : unit -> BS -> Prop),
  inside c h 1 a blk k cols dat -> bufs_ok (m_bsize x) blk cols dat -> cols !! k = Some l ->
  cursor (sel_col a) = hd_or 0 l -> (length l < fuel)%nat ->
  (forall c' a', inside c' h 1 a' (gone (ptrs dat l) blk) k (<[k := []]> cols) (gone l dat) ->
    bufs_ok (m_bsize x) (gone (ptrs dat l) blk) (<[k := []]> cols) (gone l dat) ->
    Post tt (c', log_io x (bio_events x BIO_UNINIT dat l))) ->
  wp (uninit_loop fuel (rec_of (hd_or 0 l)) h) (c, x) Post.
Proof.
  induction l as [|p l IH]; intros fuel c x h a blk k cols dat Post Hin Hb Hk Hcur Hf HP;
    destruct fuel as [|fuel]; try (cbn in Hf; lia); cbn [uninit_loop hd_or].
  - apply wp_ret. unfold bio_events in HP. cbn in HP. rw log_io_nil list_insert_id // in HP. by eapply HP.
  - pose proof (inside_wf _ _ _ _ _ _ _ _ Hin) as (Hw & _ & Hdis & _).
    destruct (Hw k _ Hk) as [Hnd Hpos]. destruct (Hpos p) as [Hp0 _]; [by left|].
    unfold rec_of. destruct (Z.eqb_spec p 0); [lia|].
    destruct (Z.eqb_spec (p + HDR) 0); [unfold HDR in *; lia|]. cbn [negb].
    destruct (bufs_data _ _ _ _ k (p :: l) p Hb) as (v & Hv & Hst & Hbv); [done|by left|].
    apply wp_bind. eapply wp_read_of; [exact Hin|done|]. clear c Hin. intros c Hin.
    apply wp_bind, wp_bio, wp_bind, wp_gets. cbn [snd m_bsize log_io].
    apply wp_bind. eapply wp_hfree_of; [exact Hin|done|]. intros c1 Hin1.
    apply wp_bind. eapply wp_del_of; [exact Hin1|exact Hk|exact Hcur|cbn; lia|].
    cbn [hd_or]. intros c2 Hin2. cbn [hd_or] in Hcur.
    assert (cursor (sel_col (a_del a)) = hd_or 0 l) as Hcur2.
    { destruct Hin as (Hr & _ & Hs & He & _). apply (del_cursor p a blk); [by eapply cl_wf|by rw He Hs|done]. }
    apply wp_bind. eapply wp_current_of; [exact Hin2|exact Hcur2|]. intros c3 Hin3.
    destruct (rec_ptr (a_del a) (hd_or 0 l)) as [r sz] eqn:Er.
    replace r with (rec_of (hd_or 0 l)) by (by rw -(fst_rec_ptr (a_del a)) Er).
    pose proof (bufs_del _ _ _ _ _ _ _ _ Hb Hk Hnd Hv Hdis) as Hb2.
    rw (list_alter_Some _ _ _ _ Hk) without_head // in Hb2, Hin3.
    pose proof (proj1 (NoDup_cons _ _) Hnd) as [Hpl _].
    eapply IH; [exact Hin3|exact Hb2|by rw list_lookup_insert_eq; [|by eapply lookup_lt_Some]|done|cbn in Hf; lia|].
    intros c4 a4 Hin4 Hb4. rw list_insert_insert_eq ptrs_delete // in Hin4, Hb4.
    rw log_io_app bio_events_delete //. unfold ptrs at 1 in HP. unfold bio_events at 1 in HP.
    cbn in HP. rw Hv in HP. cbn in HP. by eapply HP.
Qed.

Lemma wp_uninit_llist fuel k c x h a blk j cols dat l (Post : unit -> BS -> Prop) :
  inside c h 1 a blk j cols dat -> bufs_ok (m_bsize x) blk cols dat -> cols !! k = Some l ->
  (length l < fuel)%nat ->
  (forall c' a', inside c' h 1 a' (gone (ptrs dat l) blk) k (<[k := []]> cols) (gone l dat) ->
    bufs_ok (m_bsize x) (gone (ptrs dat l) blk) (<[k := []]> cols) (gone l dat) ->
    Post tt (c', log_io x (bio_events x BIO_UNINIT dat l))) ->
  wp (uninit_llist fuel (Z.of_nat k) h) (c, x) Post.
Proof.
  intros Hin Hb Hk Hf HP. unfold uninit_llist. apply wp_bind.
  eapply (wp_select k); [exact Hin|by eapply lookup_lt_Some|]. clear c a Hin. intros c a Hin.
  apply wp_bind. eapply wp_first_of; [exact Hin|exact Hk|..].
  - intros -> c2 Hin2. change 0 with (rec_of (hd_or 0 [])) at 1. eapply wp_uninit_loop; try done.
    destruct Hin2 as (Hr & _ & Hs & He & _). destruct (cl_wf _ _ _ Hr) as (Hcol & _).
    destruct (els_lookup_inv a k []) as (ac & Hac & Eac); [by rw He|].
    destruct (Hcol _ _ Hac) as (_ & [Hc|[_ Hc]] & _); [rw Eac in Hc; by apply not_elem_of_nil in Hc|].
    unfold sel_col. by rw Hs Hac.
  - intros p l' -> Hp0 _ c2 a2 Hin2 Hcur.
    replace (p + HDR) with (rec_of (hd_or 0 (p :: l'))).
    + by eapply wp_uninit_loop.
    + unfold rec_of. cbn. destruct (Z.eqb_spec p 0); [lia|done].
Qed.

Lemma gone_in {X} l (g : gmap Z X) p : p ∈ l -> gone l g !! p = None.
Proof.
  revert g. induction l as [|q l IH]; intros g; [by intros ?%not_elem_of_nil|].
  intros Hp. cbn. destruct (decide (p ∈ l)) as [Hl|Hl]; [by apply IH|].
  apply elem_of_cons in Hp as [->|?]; [|done]. rw gone_lookup // lookup_delete_eq //.
Qed.

Lemma bio_events_gone x op dat l1 l2 :
  (forall p, p ∈ l2 -> p ∉ l1) -> bio_events x op (gone l1 dat) l2 = bio_events x op dat l2.
Proof.
  unfold bio_events. intros Hp. f_equal. apply list_fmap_ext. intros i q Hq.
  rw gone_lookup //. apply Hp. by eapply list_elem_of_lookup_2.
Qed.

Lemma gone_None {X} l (g : gmap Z X) p : g !! p = None -> gone l g !! p = None.
Proof.
  intros Hp. destruct (decide (p ∈ l)) as [?|?]; [by apply gone_in|]. by rw gone_lookup.
Qed.

Lemma ptrs_gone dat l1 l2 : (forall p, p ∈ l2 -> p ∉ l1) -> ptrs (gone l1 dat) l2 = ptrs dat l2.
Proof.
  unfold ptrs. induction l2 as [|q l2 IH]; intros Hp; [done|]. cbn.
  rw gone_lookup; [|apply Hp; by left]. rw IH; [done|]. intros p' ?. apply Hp. by right.
Qed.

Lemma elem_of_ptrs dat l p v : p ∈ l -> dat !! p = Some v -> b_ptr v.2 ∈ ptrs dat l.
Proof. intros Hp Hv. apply list_elem_of_omap. exists p. split; [done|]. by rw Hv. Qed.

Lemma bio_events_log x l op dat r : bio_events (log_io x l) op dat r = bio_events x op dat r.
Proof. done. Qed.

Lemma bio_events_app x op dat l1 l2 :
  bio_events x op dat (l1 ++ l2) = bio_events x op dat l1 ++ bio_events x op dat l2.
Proof. unfold bio_events. by rw fmap_app concat_app. Qed.

(** After [uninit]: no descriptor, none of the buffers, in the heap. *)
Lemma uninit_spec c x blk fr bs dt dat fuel :
  bmap_ok (c, x) blk [fr; bs; dt] dat -> (length (fr ++ bs ++ dt) < fuel)%nat ->
  wp (uninit fuel) (c, x) (fun _ s' => exists blk',
    outside s'.1 blk' [[]; []; []] (∅ : gmap Z (Z * buffer)) /\
    (forall p v, dat !! p = Some v -> blk' !! b_ptr v.2 = None) /\
    s'.2 = mkBmap 0 false (io x ++ bio_events x BIO_UNINIT dat (fr ++ bs ++ dt))).
Proof.
  intros Hok Hf. pose proof Hok as (Ho & Hlen & Hn & Hb). cbn [snd] in Hn, Hb. rw !length_app in Hf.
  unfold uninit. apply wp_bind, wp_gets. cbn [snd]. destruct (Z.eqb_spec (m_bsize x) 0); [lia|]. cbn [negb].
  apply wp_bind. eapply bmap_enter; [exact Hok|]. intros h c1 a k Hin.
  pose proof (inside_wf _ _ _ _ _ _ _ _ Hin) as (_ & Hdom & Hdis & _).
  assert (forall i j li lj q, [fr; bs; dt] !! i = Some li -> [fr; bs; dt] !! j = Some lj ->
    (i <> j)%nat -> q ∈ li -> q ∉ lj) as Hd by (intros i j li lj q Hi Hj Hij Hq Hq'; by eapply Hij, Hdis).
  apply wp_bind. eapply (wp_uninit_llist fuel 0); [exact Hin|exact Hb|done|lia|].
  intros c2 a2 Hin2 Hb2. cbn [list_insert insert] in Hin2, Hb2.
  apply wp_bind. eapply (wp_uninit_llist fuel 1); [exact Hin2|exact Hb2|done|lia|].
  intros c3 a3 Hin3 Hb3. cbn [list_insert insert] in Hin3, Hb3.
  apply wp_bind. eapply (wp_uninit_llist fuel 2); [exact Hin3|exact Hb3|done|lia|].
  intros c4 a4 Hin4 Hb4. cbn [list_insert insert] in Hin4, Hb4.
  apply wp_bind, wp_modify. cbn [fst snd].
  pose proof (inside_wf _ _ _ _ _ _ _ _ Hin4) as (_ & Hdom4 & _).
  eapply wp_leave; [exact Hin4|]. intros c5 Ho5. eexists. split_and!.
  - assert (gone dt (gone bs (gone fr dat)) = ∅) as <-; [|exact Ho5].
    apply map_empty. intros p. destruct (gone dt _ !! p) eqn:E; [|done]. exfalso.
    destruct (Hdom4 p) as (j & l & Hj & Hp); [by eexists|].
    destruct j as [|[|[|j]]]; cbn in Hj; [injection Hj as <-..|done]; by apply not_elem_of_nil in Hp.
  - intros p v Hp. destruct (Hdom p) as (j & l & Hj & Hpl); [by eexists|].
    rw !ptrs_gone; [|by intros q Hq; apply (Hd 1 0 bs fr)%nat|by intros q Hq; apply (Hd 2 0 dt fr)%nat|
      by intros q Hq; apply (Hd 2 1 dt bs)%nat].
    pose proof (elem_of_ptrs _ _ _ _ Hpl Hp).
    destruct j as [|[|[|j]]]; cbn in Hj; [injection Hj as <-..|done].
    + by apply gone_None, gone_None, gone_in.
    + by apply gone_None, gone_in.
    + by apply gone_in.
  - rw !bio_events_log !bio_events_app. cbn [io log_io]. f_equal. rw -!app_assoc.
    rw !bio_events_gone; first done.
    + intros q Hq. by apply (Hd 2 0 dt fr)%nat.
    + intros q Hq. by apply (Hd 2 1 dt bs)%nat.
    + intros q Hq. by apply (Hd 1 0 bs fr)%nat.
Qed.
End bmap_spec.

(** [alloc] recycles the oldest free buffer, or takes a new block of the
    buffer size from the heap; the descriptor it returns is busy, carries the
    user data, owns a block no other descriptor owns ([bmap_ok]), and the
    callback saw one [BIO_INIT].  When the descriptor cannot be added it returns
    NULL although the block stays allocated and was announced: a leak. *)
Theorem bmap_alloc {C} `{ColumnListLaws C buffer} stack u c x blk fr bs dt dat :
  bmap_ok (c, x) blk [fr; bs; dt] dat -> Z.of_nat (base.size dat) + 1 < 2 ^ 32 ->
  wp (alloc stack u) (c, x) (fun r s' =>
    alloc_post stack u x blk fr bs dt dat r s' /\
    (fr <> [] -> r <> 0 /\ exists bs', bs' = bs ++ [r - HDR] /\ exists blk' dat',
       bmap_ok s' blk' [tail fr; bs'; dt] dat')).
Proof.
  intros Hok Hsz. eapply wp_mono; [by apply alloc_spec|]. intros r s' Hp. split; [done|].
  intros Hne. destruct fr as [|p fr]; [done|]. destruct Hp as (-> & Hok' & _). split.
  - destruct Hok as ((a & Hr & _ & He & _) & _). destruct (cl_wf _ _ _ Hr) as (_ & Hdat & _ & _ & _ & _ & Hpos).
    destruct (els_lookup_inv a 0 (p :: fr)) as (ac & Hk & E); [by rw He|].
    destruct (proj2 (Hdat p)) as [v Hv]; [exists 0%nat, ac; rw E; split; [done|by left]|].
    apply Hpos in Hv. unfold HDR. lia.
  - eexists. split; [done|]. replace (p + HDR - HDR) with p by lia. eauto.
Qed.

(** C34: [flush] hands every dirty buffer to the callback exactly once, oldest
    first, and leaves all of them busy; a second [flush] does no I/O at all. *)
Theorem bmap_flush {C} `{ColumnListLaws C buffer} c x blk fr bs dt dat fuel :
  bmap_ok (c, x) blk [fr; bs; dt] dat -> (length dt < fuel)%nat ->
  wp (flush fuel 0;; s1 ← gets snd; flush fuel 0;; mret s1) (c, x) (fun s1 s2 =>
    s1 = log_io x (bio_events x BIO_WRITE dat dt) /\ s2.2 = s1 /\
    bmap_ok s2 blk [fr; bs ++ dt; []] (clean dt dat)).
Proof.
  intros Hok Hf. apply wp_bind. eapply wp_mono; [by apply sync_all_spec|].
  intros _ [c1 x1] [Hok1 Hx1]. cbn [snd] in Hx1. apply wp_bind, wp_gets, wp_bind.
  eapply wp_mono; [apply (sync_all_spec BIO_WRITE c1 x1 blk fr (bs ++ dt) []); [done|cbn; lia]|].
  intros _ s2 [Hok2 Hx2]. apply wp_ret. cbn [snd]. rw app_nil_r in Hok2.
  rw Hx2. split; [done|]. split; [|done]. unfold bio_events. cbn. apply log_io_nil.
Qed.

(** [dirty] then [flush] of one buffer writes that buffer, once, and it is
    busy again; freeing a dirty buffer writes it before releasing it. *)
Theorem bmap_dirty_flush {C} `{ColumnListLaws C buffer} c x blk fr bs dt dat p v fuel :
  bmap_ok (c, x) blk [fr; bs; dt] dat -> p ∈ bs -> dat !! p = Some (BUFFER_SIZE, v) ->
  wp (dirty (p + HDR);; flush fuel (p + HDR)) (c, x) (fun _ s' =>
    s'.2 = log_io x (bio_event x BIO_WRITE v) /\
    exists dat', bmap_ok s' blk [fr; without p bs ++ [p]; dt] dat') /\
  wp (dirty (p + HDR);; free (p + HDR)) (c, x) (fun _ s' =>
    s'.2 = log_io x (bio_event x BIO_WRITE v ++ bio_event x BIO_UNINIT v) /\
    exists dat', bmap_ok s' blk [fr ++ [p]; without p bs; dt] dat').
Proof.
  intros Hok Hp Hv.
  assert (p ∉ dt) as Hpd.
  { destruct Hok as ((a & Hr & _ & He & _) & _). destruct (cl_wf _ _ _ Hr) as (_ & _ & Hdis & _).
    destruct (els_lookup_inv a 1 bs) as (ab & Hb & Eb); [by rw He|].
    destruct (els_lookup_inv a 2 dt) as (ad & Hd & Ed); [by rw He|]. intros Hd'.
    assert (1 = 2)%nat; [|done]. eapply Hdis; [done..|by rw Eb|by rw Ed]. }
  assert (sent 1 2 p [fr; bs; dt] = [fr; without p bs; dt ++ [p]]) as E1 by done.
  assert (sent_data 1 2 p dat !! p = Some (BUFFER_SIZE, set_state BDIRTY v)) as Hv1.
  { unfold sent_data, map_buffer. cbn. by rw lookup_alter_eq Hv. }
  assert (without p (dt ++ [p]) = dt) as Ew.
  { unfold without. rw filter_app -/(without p dt) without_id // filter_cons decide_False; [|by intros []].
    by rw filter_nil app_nil_r. }
  assert (p ∈ dt ++ [p]) as Hin by (apply elem_of_app; right; by left).
  split; apply wp_bind; (eapply wp_mono; [by apply (dirty_spec c x blk [fr; bs; dt] dat 1 bs p)|]);
    intros _ [c1 x1] [Hok1 Hx1]; cbn [snd] in Hx1; subst x1; rw E1 in Hok1.
  - eapply wp_mono; [by apply (sync_one_spec BIO_WRITE c1 x blk [fr; without p bs; dt ++ [p]] (sent_data 1 2 p dat) 2 (dt ++ [p]) p (set_state BDIRTY v))|].
    cbn zeta. intros _ s2 [Hok2 Hx2]. split; [done|]. eexists.
    assert (sent 2 1 p [fr; without p bs; dt ++ [p]] = [fr; without p bs ++ [p]; without p (dt ++ [p])]) as E2 by done.
    change (if decide (2 = 2)%nat then 1%nat else 2%nat) with 1%nat in Hok2.
    rw E2 Ew in Hok2. exact Hok2.
  - eapply wp_mono; [by apply (free_spec c1 x blk [fr; without p bs; dt ++ [p]] (sent_data 1 2 p dat) 2 (dt ++ [p]) p (set_state BDIRTY v))|].
    cbn zeta. intros _ s2 [Hok2 Hx2]. split; [done|]. eexists.
    assert (sent 2 0 p [fr; without p bs; dt ++ [p]] = [fr ++ [p]; without p bs; without p (dt ++ [p])]) as E2 by done.
    rw E2 Ew in Hok2. exact Hok2.
Qed.

(** C38: [uninit] passes every buffer to the callback once as [BIO_UNINIT],
    returns all of them and all descriptors to the heap, and empties the map. *)
Theorem bmap_uninit {C} `{ColumnListLaws C buffer} c x blk fr bs dt dat fuel :
  bmap_ok (c, x) blk [fr; bs; dt] dat -> (length (fr ++ bs ++ dt) < fuel)%nat ->
  wp (uninit fuel) (c, x) (fun _ s' => exists blk',
    outside s'.1 blk' [[]; []; []] (∅ : gmap Z (Z * buffer)) /\
    (forall p v, dat !! p = Some v -> blk' !! b_ptr v.2 = None) /\
    s'.2 = mkBmap 0 false (io x ++ bio_events x BIO_UNINIT dat (fr ++ bs ++ dt))).
Proof. intros Hok Hf. by eapply uninit_spec. Qed.

(** *** Witnesses: 512-byte buffers over the pointer list *)
Definition demo_map (budget : nat) : ll_context Bump.t buffer * bmap :=
  (Demo.made 3 budget, mkBmap 512 true []).

Lemma demo_map_ok budget : (0 < budget)%nat ->
  bmap_ok (demo_map budget) ∅ [[]; []; []] (∅ : gmap Z (Z * buffer)).
Proof.
  intros Hb. destruct (Demo.made_rep (V := buffer) 3 budget) as [Hr Hf]; [lia|lia|].
  split; [by exists (a_init 3)|]. split; [done|]. split; [cbn; lia|]. split.
  - intros k l p Hk Hp. destruct k as [|[|[|k]]]; cbn in Hk; [injection Hk as <-..|done];
      by apply not_elem_of_nil in Hp.
  - intros p q v w. by rw lookup_empty.
Qed.

(** One busy buffer, obtained with [alloc]. *)
Lemma demo_map_busy : exists (s : ll_context Bump.t buffer * bmap) blk p v,
  bmap_ok s blk [[]; [p]; []] {[ p := (BUFFER_SIZE, v) ]}.
Proof.
  assert (fst <$> alloc [0; 0; 0] 7 (demo_map 10) = Some (4192 + 512 + HDR)) as Ha by (vm_compute; reflexivity).
  pose proof (alloc_spec [0; 0; 0] (Demo.made 3 10) (mkBmap 512 true []) ∅ [] [] [] ∅ 7) as Hw.
  apply wp_run in Hw as (r & s & E & Hpost); [|by apply (demo_map_ok 10); lia|rw map_size_empty; lia].
  unfold demo_map in Ha. rw E in Ha. cbn [fmap option_fmap option_map fst] in Ha.
  destruct Hpost as [[-> _]|[[-> _]|(p & q & _ & _ & _ & _ & Hok & _)]];
    [exfalso; clear -Ha; injection Ha; unfold HDR; lia..|].
  by eexists s, _, p, _.
Qed.

Lemma bmap_alloc_witness :
  wp (alloc [0; 0; 0] 7) (demo_map 10) (fun r s' =>
    alloc_post [0; 0; 0] 7 (mkBmap 512 true []) ∅ [] [] [] ∅ r s' /\
    ([] <> @nil Z -> r <> 0 /\ exists bs', bs' = [] ++ [r - HDR] /\ exists blk' dat',
       bmap_ok s' blk' [tail []; bs'; []] dat')).
Proof.
  apply (bmap_alloc [0; 0; 0] 7 (Demo.made 3 10) (mkBmap 512 true []) ∅ [] [] [] ∅).
  - apply (demo_map_ok 10). lia.
  - rw map_size_empty. lia.
Defined.

Lemma bmap_flush_witness : exists (s : ll_context Bump.t buffer * bmap) blk p v,
  let dat := {[ p := (BUFFER_SIZE, v) ]} in
  wp (flush 1 0;; s1 ← gets snd; flush 1 0;; mret s1) (s.1, s.2) (fun s1 s2 =>
    s1 = log_io s.2 (bio_events s.2 BIO_WRITE dat []) /\ s2.2 = s1 /\
    bmap_ok s2 blk [[]; [p] ++ []; []] (clean [] dat)).
Proof.
  destruct demo_map_busy as ([c x] & blk & p & v & Hok). exists (c, x), blk, p, v.
  apply (bmap_flush c x blk [] [p] [] _ 1); [exact Hok|cbn; lia].
Defined.

Lemma bmap_dirty_flush_witness : exists (s : ll_context Bump.t buffer * bmap) blk p v,
  wp (dirty (p + HDR);; flush 1 (p + HDR)) (s.1, s.2) (fun _ s' =>
    s'.2 = log_io s.2 (bio_event s.2 BIO_WRITE v) /\
    exists dat', bmap_ok s' blk [[]; without p [p] ++ [p]; []] dat') /\
  wp (dirty (p + HDR);; free (p + HDR)) (s.1, s.2) (fun _ s' =>
    s'.2 = log_io s.2 (bio_event s.2 BIO_WRITE v ++ bio_event s.2 BIO_UNINIT v) /\
    exists dat', bmap_ok s' blk [[] ++ [p]; without p [p]; []] dat').
Proof.
  destruct demo_map_busy as ([c x] & blk & p & v & Hok). exists (c, x), blk, p, v.
  apply (bmap_dirty_flush c x blk [] [p] [] {[ p := (BUFFER_SIZE, v) ]} p v 1);
    [exact Hok|by left|apply lookup_singleton_eq].
Defined.

Lemma bmap_uninit_witness : exists (s : ll_context Bump.t buffer * bmap) p v,
  let dat := {[ p := (BUFFER_SIZE, v) ]} in
  wp (uninit 2) (s.1, s.2) (fun _ s' => exists blk',
    outside s'.1 blk' [[]; []; []] (∅ : gmap Z (Z * buffer)) /\
    (forall q w, dat !! q = Some w -> blk' !! b_ptr w.2 = None) /\
    s'.2 = mkBmap 0 false (io s.2 ++ bio_events s.2 BIO_UNINIT dat ([] ++ [p] ++ []))).
Proof.
  destruct demo_map_busy as ([c x] & blk & p & v & Hok). exists (c, x), p, v.
  apply (bmap_uninit c x blk [] [p] [] _ 2); [exact Hok|cbn; lia].
Defined.

(** the leak is reachable: with room in the heap for the buffer but not for
    its descriptor, [alloc] returns NULL, has announced the buffer, and the
    buffer's block stays in the heap although nothing refers to it. *)
Theorem bmap_alloc_leak :
  (fun rs => (rs.1, io rs.2.2, Bump.live (heap rs.2.1) !! 4192)) <$> alloc [0; 0; 0] 7 (demo_map 2) =
  Some (0, [(BIO_INIT, 4192, 512, 7)], Some 512).
Proof. vm_compute. reflexivity. Qed.
