(* ===== verification/HashMap.v ===== *)
(** * Hash map with chained buckets
    (core/mem/map_alg.h, core/mem/map_alg.c; used by core/mem/map.cpp [cMap]
    and core/repository-2/map.cpp [hash_map])

    The model is at the level of the pointers: [recs] is the store of record
    headers (address to [map_rec]), [table] the array behind [pp_list], whose
    slots hold the address of the first record of a chain, 0 for NULL.  The
    pointer handed to the user is the header's address plus [REC_HDR].  The
    digest function behind [pf_hash] works on the user data [U] (both callers
    keep a SHA-1 context there). *)
From S2P Require Import Prelude Memory.
Set Default Goal Selector "!".

Definition HASH_SIZE : nat := 20.
(** [sizeof(_map_rec_hdr_t)], packed: 4 + 8 + 20. *)
Definition REC_HDR : Z := 32.
Definition PTR_SIZE : Z := 8.
(** [sizeof(_map_enum_t)]: 8 + 4 + 4 + 32 + 8. *)
Definition ENUM_SIZE : Z := 56.
Definition MAP_ENUM_CONTINUE : Z := 0.
Definition MAP_ENUM_BREAK : Z := 1.
Definition MAP_ENUM_DELETE : Z := 2.

Record map_rec := mkRec { sz_rec : Z; r_next : Z; r_key : list Z; r_data : list Z }.

(** [_map_enum_t]; [e_next] and [e_sz] are the fields of [crec] that are read. *)
Record map_enum_t := mkEnum { aidx : Z; uidx : Z; e_next : Z; e_sz : Z; p_data : Z }.

(** [pf_hash(data, sz, result, udata)]: the buffer before and after the call. *)
Definition hash_fn (U : Type) : Type := U -> option (list Z) -> list Z -> list Z * U.

Record map_context {A U : Type} := mkMap {
  records : Z; collisions : Z; capacity : Z;
  pf_mem_alloc : bool; pf_mem_free : bool;   (* the callbacks are installed *)
  pf_hash : option (hash_fn U);
  pp_list : Z;                               (* 0 for NULL *)
  table : list Z;
  recs : gmap Z map_rec;
  enums : gmap Z map_enum_t;                 (* enumerators on the heap *)
  mem : A;
  udata : U
}.
Arguments map_context : clear implicits.

(** [hash * 33 + c] over an unsigned 64-bit accumulator. *)
Definition hash_step (h c : Z) : Z := u64 (u64 (u64 (Z.shiftl h 5) + h) + c).
Definition hash (key : list Z) : Z := fold_left hash_step key 5381.

Definition set_rec_next (q : Z) (r : map_rec) : map_rec := mkRec (sz_rec r) q (r_key r) (r_data r).

Section setters.
Context {A U : Type}.
Implicit Types c : map_context A U.
Definition set_counts (n k : Z) c := mkMap A U n k (capacity c) (pf_mem_alloc c) (pf_mem_free c)
  (pf_hash c) (pp_list c) (table c) (recs c) (enums c) (mem c) (udata c).
Definition set_table (cap p : Z) (t : list Z) c := mkMap A U (records c) (collisions c) cap
  (pf_mem_alloc c) (pf_mem_free c) (pf_hash c) p t (recs c) (enums c) (mem c) (udata c).
Definition set_recs (r : gmap Z map_rec) c := mkMap A U (records c) (collisions c) (capacity c)
  (pf_mem_alloc c) (pf_mem_free c) (pf_hash c) (pp_list c) (table c) r (enums c) (mem c) (udata c).
Definition set_enums (e : gmap Z map_enum_t) c := mkMap A U (records c) (collisions c) (capacity c)
  (pf_mem_alloc c) (pf_mem_free c) (pf_hash c) (pp_list c) (table c) (recs c) e (mem c) (udata c).
Definition set_mem (a : A) c := mkMap A U (records c) (collisions c) (capacity c)
  (pf_mem_alloc c) (pf_mem_free c) (pf_hash c) (pp_list c) (table c) (recs c) (enums c) a (udata c).
Definition set_udata (u : U) c := mkMap A U (records c) (collisions c) (capacity c)
  (pf_mem_alloc c) (pf_mem_free c) (pf_hash c) (pp_list c) (table c) (recs c) (enums c) (mem c) u.
End setters.

Section map_alg.
Context {A U : Type} `{Allocator A}.
Abbreviation mcxt := (map_context A U).
Abbreviation HM := (M mcxt).

(** *** Memory accesses *)
Definition load (p : Z) : HM map_rec := fun c => (fun r => (r, c)) <$> recs c !! p.
Definition store (p : Z) (f : map_rec -> map_rec) : HM unit := fun c =>
  match recs c !! p with
  | Some r => Some (tt, set_recs (<[p := f r]> (recs c)) c)
  | None => None
  end.
Definition slot (t : list Z) (i : Z) : HM Z := lift_opt (t !! Z.to_nat i).
Definition get_slot (i : Z) : HM Z := t ← gets table; slot t i.
Definition set_slot (i p : Z) : HM unit := fun c =>
  if (Z.to_nat i <? length (table c))%nat
  then Some (tt, set_table (capacity c) (pp_list c) (<[Z.to_nat i := p]> (table c)) c) else None.
Definition alloc (n : Z) : HM Z := fun c =>
  let '(p, a) := a_alloc (mem c) n in Some (p, set_mem a c).
(** A block must be live with the size it is freed with. *)
Definition release (p n : Z) : HM unit := fun c =>
  if decide (a_live (mem c) !! p = Some n) then Some (tt, set_mem (a_free (mem c) p n) c) else None.
Definition call_free (p n : Z) : HM unit :=
  ok ← gets pf_mem_free; if ok : bool then release p n else undefined.
Definition free_record (p n : Z) : HM unit :=
  call_free p n;; modify (fun c => set_recs (delete p (recs c)) c).
Definition put_counts (f : Z -> Z -> Z * Z) : HM unit :=
  modify (fun c => let '(n, k) := f (records c) (collisions c) in set_counts n k c).
(** The number of live records, a bound on the length of every chain. *)
Definition fuel_of : HM nat := gets (fun c => S (size (recs c))).

(** [memset(p, 0, cap * sizeof(_map_rec_hdr_t * ))] on a block of [sz] bytes. *)
Definition clear_table (sz cap : Z) : HM (list Z) :=
  if cap * PTR_SIZE <=? sz then mret (replicate (Z.to_nat cap) 0) else undefined.

Definition map_init : HM Z :=
  c ← gets id;
  if pf_mem_alloc c && negb (capacity c =? 0) && (pp_list c =? 0) then
    let cap := capacity c in
    p ← alloc (u32 (cap * PTR_SIZE));
    modify (fun c => set_table cap p (table c) c);;
    if negb (p =? 0) then
      t ← clear_table (u32 (cap * PTR_SIZE)) cap;
      modify (fun c => set_table cap p t c);;
      put_counts (fun _ _ => (0, 0));;
      mret 1
    else mret 0
  else mret 0.

(** The walk to the end of a chain: 0 when the key is met on the way. *)
Fixpoint chain_end (fuel : nat) (key : list Z) (p_crec : Z) : HM Z :=
  match fuel with
  | O => undefined
  | S fuel =>
      r ← load p_crec;
      if decide (r_key r = key) then mret 0
      else if negb (r_next r =? 0) then chain_end fuel key (r_next r) else mret p_crec
  end.

(** The table is passed by pointer: [remap] fills one that is not installed. *)
Definition add_record (p_rec : Z) (pp_map : list Z) (cap coll : Z) : HM (bool * list Z * Z) :=
  rec ← load p_rec;
  if cap =? 0 then undefined else
  let idx := u32 (hash (r_key rec) mod cap) in
  p_crec ← slot pp_map idx;
  if p_crec =? 0 then mret (true, <[Z.to_nat idx := p_rec]> pp_map, coll)
  else
    fuel ← fuel_of;
    last ← chain_end fuel (r_key rec) p_crec;
    if last =? 0 then mret (false, pp_map, coll)
    else store last (set_rec_next p_rec);; mret (true, pp_map, u32 (coll + 1)).

Fixpoint rehash_chain (fuel : nat) (p_rec : Z) (pp_map : list Z) (cap coll : Z) : HM (list Z * Z) :=
  match fuel with
  | O => undefined
  | S fuel =>
      if p_rec =? 0 then mret (pp_map, coll) else
      r ← load p_rec;
      store p_rec (set_rec_next 0);;
      '(_, pp_map, coll) ← add_record p_rec pp_map cap coll;
      rehash_chain fuel (r_next r) pp_map cap coll
  end.

(** [while(i < capacity)]: [n] slots remain. *)
Fixpoint rehash_loop (n : nat) (i : Z) (pp_map : list Z) (cap coll : Z) : HM (list Z * Z) :=
  match n with
  | O => mret (pp_map, coll)
  | S n =>
      p_rec ← get_slot i;
      fuel ← fuel_of;
      '(pp_map, coll) ← rehash_chain fuel p_rec pp_map cap coll;
      rehash_loop n (i + 1) pp_map cap coll
  end.

Definition remap : HM Z :=
  c ← gets id;
  if pf_mem_alloc c && pf_mem_free c && negb (capacity c =? 0) then
    let cap := capacity c in
    let new_capacity := u32 (cap * 2 + 1) in
    pp_new_map ← alloc (u32 (new_capacity * PTR_SIZE));
    if negb (pp_new_map =? 0) then
      t ← clear_table (u32 (new_capacity * PTR_SIZE)) new_capacity;
      '(t, coll) ← rehash_loop (Z.to_nat cap) 0 t new_capacity 0;
      call_free (pp_list c) (u32 (cap * PTR_SIZE));;
      modify (fun c => set_table new_capacity pp_new_map t c);;
      put_counts (fun n _ => (n, coll));;
      mret 1
    else mret 0
  else mret 0.

(** The digest of a key into a zeroed buffer of [HASH_SIZE] bytes; a key is
    [None] for a NULL pointer with a non-zero size. *)
Definition hash_key (key : option (list Z)) : HM (list Z) := fun c =>
  let buf := replicate HASH_SIZE 0 in
  match pf_hash c, key with
  | Some f, _ => let '(d, u) := f (udata c) key buf in Some (d, set_udata u c)
  | None, Some key => let k := take HASH_SIZE key in Some (k ++ drop (length k) buf, c)
  | None, None => None
  end.

(** The record of a key and the record before it in its chain. *)
Fixpoint find_loop (fuel : nat) (key : list Z) (r pp_prev : Z) : HM (Z * Z) :=
  match fuel with
  | O => undefined
  | S fuel =>
      rec ← load r;
      if decide (r_key rec = key) then mret (r, pp_prev)
      else if negb (r_next rec =? 0) then find_loop fuel key (r_next rec) r else mret (0, r)
  end.

(** Returns the record, the digest, the index and the predecessor. *)
Definition get_record (key : option (list Z)) : HM (Z * list Z * Z * Z) :=
  l ← gets pp_list;
  match key with
  | Some (_ :: _) =>
      if negb (l =? 0) then
        hk ← hash_key key;
        cap ← gets capacity;
        if cap =? 0 then undefined else
        let idx := u32 (hash hk mod cap) in
        r ← get_slot idx;
        if negb (r =? 0) then
          fuel ← fuel_of;
          '(r, prev) ← find_loop fuel hk r 0;
          mret (r, hk, idx, prev)
        else mret (0, hk, idx, 0)
      else mret (0, replicate HASH_SIZE 0, 0, 0)
  | _ => mret (0, replicate HASH_SIZE 0, 0, 0)
  end.

(** The data pointer and, when there is a record, what is stored in [*sz_data]. *)
Definition map_get (key : option (list Z)) : HM (Z * option Z) :=
  '(p_rec, _, _, _) ← get_record key;
  if negb (p_rec =? 0) then
    r ← load p_rec; mret (p_rec + REC_HDR, Some (u32 (sz_rec r - 1)))
  else mret (0, None).

Definition alloc_record (hash_key data : list Z) : HM Z :=
  c ← gets id;
  if pf_mem_alloc c && pf_mem_free c then
    let sz_data := u32 (Z.of_nat (length data)) in
    let data_size := u32 (sz_data + 1) in
    let sz := u32 (REC_HDR + data_size) in
    p_rec ← alloc sz;
    if negb (p_rec =? 0) then
      if REC_HDR + sz_data <=? sz then
        let bytes := take (Z.to_nat sz_data) data ++ replicate (Z.to_nat (data_size - sz_data)) 0 in
        modify (fun c => set_recs (<[p_rec := mkRec data_size 0 hash_key bytes]> (recs c)) c);;
        mret p_rec
      else undefined
    else mret 0
  else mret 0.

(** The tail shared by [map_add] and [map_set]. *)
Definition link_record (p_rec : Z) (sz_data : Z) : HM Z :=
  c ← gets id;
  '(ok, t, coll) ← add_record p_rec (table c) (capacity c) (collisions c);
  if ok : bool then
    modify (fun c => set_table (capacity c) (pp_list c) t c);;
    put_counts (fun n _ => (u32 (n + 1), coll));;
    c ← gets id;
    (if capacity c <=? records c then r ← remap; mret tt else mret tt);;
    mret (p_rec + REC_HDR)
  else
    free_record p_rec (u32 (REC_HDR + sz_data));;
    mret 0.

Definition map_add (key : option (list Z)) (data : list Z) : HM Z :=
  '(p_rec, hk, _, _) ← get_record key;
  if negb (p_rec =? 0) then mret (p_rec + REC_HDR)
  else
    p_rec ← alloc_record hk data;
    if negb (p_rec =? 0) then link_record p_rec (u32 (Z.of_nat (length data))) else mret 0.

Definition map_del (key : option (list Z)) : HM unit :=
  '(p_rec, _, idx, prev) ← get_record key;
  if negb (p_rec =? 0) then
    ok ← gets pf_mem_free;
    if ok : bool then
      r ← load p_rec;
      (if negb (prev =? 0) then store prev (set_rec_next (r_next r))
       else set_slot idx (r_next r));;
      free_record p_rec (u32 (REC_HDR + sz_rec r));;
      put_counts (fun n k => (u32 (n - 1), k))
    else mret tt
  else mret tt.

Definition map_set (key : option (list Z)) (data : list Z) : HM Z :=
  map_del key;;
  hk ← hash_key key;
  p_rec ← alloc_record hk data;
  if negb (p_rec =? 0) then link_record p_rec (u32 (Z.of_nat (length data))) else mret 0.

Fixpoint free_chain (fuel : nat) (p_rec : Z) : HM unit :=
  match fuel with
  | O => undefined
  | S fuel =>
      if p_rec =? 0 then mret tt else
      r ← load p_rec;
      free_record p_rec (u32 (REC_HDR + sz_rec r));;
      free_chain fuel (r_next r)
  end.

Fixpoint clr_loop (n : nat) (i : Z) : HM unit :=
  match n with
  | O => mret tt
  | S n =>
      p_rec ← get_slot i;
      when (negb (p_rec =? 0)) (fuel ← fuel_of; free_chain fuel p_rec;; set_slot i 0);;
      clr_loop n (i + 1)
  end.

Definition map_clr : HM unit :=
  c ← gets id;
  when (pf_mem_free c && negb (pp_list c =? 0) && negb (records c =? 0))
    (clr_loop (Z.to_nat (capacity c)) 0;; put_counts (fun _ _ => (0, 0))).

Definition map_destroy : HM unit :=
  l ← gets pp_list;
  when (negb (l =? 0)) (
    map_clr;;
    c ← gets id;
    when (records c =? 0) (
      call_free (pp_list c) (u32 (capacity c * PTR_SIZE));;
      modify (fun c => set_table (capacity c) 0 [] c))).

(** *** Enumeration *)
Definition enum_zero : map_enum_t := mkEnum 0 0 0 0 0.
Definition on_record (p : Z) (e : map_enum_t) (r : map_rec) : map_enum_t :=
  mkEnum (aidx e) (uidx e) (r_next r) (sz_rec r) (p + REC_HDR).
Definition set_aidx (i : Z) (e : map_enum_t) : map_enum_t :=
  mkEnum i (uidx e) (e_next e) (e_sz e) (p_data e).
Definition count_user (e : map_enum_t) : map_enum_t :=
  mkEnum (aidx e) (u32 (uidx e + 1)) (e_next e) (e_sz e) (p_data e).
Definition off_record (e : map_enum_t) : map_enum_t := mkEnum (aidx e) (uidx e) 0 0 0.

(** From slot [i] on, the first that is not empty, else [i + n]; [n] slots remain. *)
Fixpoint scan (n : nat) (i : Z) : HM (Z * Z) :=
  match n with
  | O => mret (0, i)
  | S n => p ← get_slot i; if negb (p =? 0) then mret (p, i) else scan n (i + 1)
  end.

Definition enum_first (e : map_enum_t) : HM (Z * option Z * map_enum_t) :=
  c ← gets id;
  if negb (records c =? 0) && negb (pp_list c =? 0) then
    let e := mkEnum 0 0 (e_next e) (e_sz e) (p_data e) in
    '(p_rec, i) ← scan (Z.to_nat (capacity c)) 0;
    let e := set_aidx i e in
    if negb (p_rec =? 0) then
      r ← load p_rec;
      mret (p_rec + REC_HDR, Some (u32 (sz_rec r - 1)), on_record p_rec e r)
    else mret (0, None, e)
  else mret (0, None, e).

(** [while(p_rec == NULL && aidx < capacity-1)]: [n] slots follow [i]. *)
Fixpoint scan_next (n : nat) (i : Z) : HM (Z * Z) :=
  match n with
  | O => mret (0, i)
  | S n => p ← get_slot (i + 1); if negb (p =? 0) then mret (p, i + 1) else scan_next n (i + 1)
  end.

Definition enum_next (e : map_enum_t) : HM (Z * option Z * map_enum_t) :=
  c ← gets id;
  if negb (p_data e =? 0) && negb (pp_list c =? 0) then
    if negb (e_next e =? 0) then
      r ← load (e_next e);
      mret (e_next e + REC_HDR, Some (u32 (sz_rec r - 1)), count_user (on_record (e_next e) e r))
    else
      '(p_rec, i) ← scan_next (Z.to_nat (u32 (capacity c - 1) - aidx e)) (aidx e);
      let e := set_aidx i e in
      if negb (p_rec =? 0) then
        r ← load p_rec;
        mret (p_rec + REC_HDR, Some (u32 (sz_rec r - 1)), count_user (on_record p_rec e r))
      else mret (0, None, off_record e)
  else mret (0, None, e).

(** The record whose data is [d] in a chain, and its predecessor. *)
Fixpoint find_data (fuel : nat) (d p_rec p_prev : Z) : HM (Z * Z) :=
  match fuel with
  | O => undefined
  | S fuel =>
      if p_rec =? 0 then mret (0, p_prev)
      else if p_rec + REC_HDR =? d then mret (p_rec, p_prev)
      else r ← load p_rec; find_data fuel d (r_next r) p_rec
  end.

Definition enum_del (e : map_enum_t) : HM map_enum_t :=
  c ← gets id;
  if negb (pp_list c =? 0) then
    p_rec ← get_slot (aidx e);
    if negb (p_rec =? 0) then
      fuel ← fuel_of;
      '(p_rec, p_prev) ← find_data fuel (p_data e) p_rec 0;
      if negb (p_rec =? 0) && pf_mem_free c then
        r ← load p_rec;
        (if negb (p_prev =? 0) then store p_prev (set_rec_next (r_next r))
         else set_slot (aidx e) (r_next r));;
        e ← (if negb (r_next r =? 0) then
               nx ← load (r_next r); mret (on_record (r_next r) e nx)
             else mret (off_record e));
        free_record p_rec (u32 (sz_rec r + REC_HDR));;
        put_counts (fun n k => (u32 (n - 1), k));;
        mret e
      else mret e
    else mret e
  else mret e.

(** The enumerators of the user live on the heap. *)
Definition map_enum_open : HM Z :=
  ok ← gets pf_mem_alloc;
  if ok : bool then
    pe ← alloc ENUM_SIZE;
    when (negb (pe =? 0)) (modify (fun c => set_enums (<[pe := enum_zero]> (enums c)) c));;
    mret pe
  else mret 0.

Definition on_enum {R} (h : Z) (f : map_enum_t -> HM (R * map_enum_t)) : HM R :=
  e ← (fun c => (fun e => (e, c)) <$> enums c !! h);
  '(r, e) ← f e;
  modify (fun c => set_enums (<[h := e]> (enums c)) c);;
  mret r.

Definition map_enum_first (h : Z) : HM (Z * option Z) :=
  if h =? 0 then mret (0, None) else on_enum h enum_first.
Definition map_enum_next (h : Z) : HM (Z * option Z) :=
  if h =? 0 then mret (0, None) else on_enum h enum_next.
Definition map_enum_del (h : Z) : HM unit :=
  if h =? 0 then mret tt else on_enum h (fun e => e ← enum_del e; mret (tt, e)).
Definition map_enum_close (h : Z) : HM unit :=
  if h =? 0 then mret tt else
  ok ← gets pf_mem_free;
  when ok (release h ENUM_SIZE;; modify (fun c => set_enums (delete h (enums c)) c)).

(** [map_enum]: the callback maps its state, the record and its size to a new
    state and one of the MAP_ENUM codes; [n] bounds the number of records. *)
Section with_callback.
Context {X : Type} (pcb : X -> Z -> Z -> X * Z).

Fixpoint enum_loop (n : nat) (e : map_enum_t) (data sz : Z) (x : X) : HM X :=
  match n with
  | O => undefined
  | S n =>
      if data =? 0 then mret x else
      let '(x, op) := pcb x data sz in
      if op =? MAP_ENUM_BREAK then mret x else
      e ← (if op =? MAP_ENUM_DELETE then enum_del e else mret e);
      '(data, s, e) ← enum_next e;
      enum_loop n e data (default sz s) x
  end.

Definition map_enum (x : X) : HM X :=
  n ← gets (fun c => S (size (recs c)));
  '(data, s, e) ← enum_first enum_zero;
  enum_loop n e data (default 0 s) x.
End with_callback.
End map_alg.
