(* ===== verification/HashMapProof.v ===== *)
(** * The hash map refines a finite map from digests to data

    [map_rep c m]: the context [c] of HashMap.v stands for the map [m] from the
    digest of a key to the record's address and data.  The chains of the table
    partition the records by the hash of their digest, every record and the
    table is a live block of the allocator with its own size, and no two records
    share a digest.  The lemmas give each operation of map_alg.c as a
    total-correctness triple against [m]. *)
From S2P Require Import Prelude Memory HashMap.
Set Default Goal Selector "!".

(** ** Chains and tables *)
Fixpoint chain (rs : gmap Z map_rec) (p : Z) (l : list Z) : Prop :=
  match l with
  | [] => p = 0
  | q :: l => p = q /\ q <> 0 /\ exists r, rs !! q = Some r /\ chain rs (r_next r) l
  end.

Definition idx (cap : Z) (key : list Z) : nat := Z.to_nat (u32 (hash key mod cap)).

Definition bucket (rs : gmap Z map_rec) (cap : Z) (i : nat) (p0 : Z) (l : list Z) : Prop :=
  chain rs p0 l /\ NoDup l /\ forall p, p ∈ l -> exists r, rs !! p = Some r /\ idx cap (r_key r) = i.

(** [p] is in one of the buckets [B]. *)
Definition inb (B : list (list Z)) (p : Z) : Prop := exists i l, B !! i = Some l /\ p ∈ l.

Record tab_ok (rs : gmap Z map_rec) (cap : Z) (t : list Z) (B : list (list Z)) : Prop := {
  tok_len : length t = Z.to_nat cap;
  tok_lenB : length B = Z.to_nat cap;
  tok_bucket : forall i p0 l, t !! i = Some p0 -> B !! i = Some l -> bucket rs cap i p0 l
}.

(** What relinking leaves alone. *)
Definition shape (rs : gmap Z map_rec) : gmap Z map_rec := set_rec_next 0 <$> rs.

Definition keys_inj (rs : gmap Z map_rec) : Prop :=
  forall p q r r', rs !! p = Some r -> rs !! q = Some r' -> r_key r = r_key r' -> p = q.

Section chains.
Implicit Types (rs : gmap Z map_rec) (l : list Z) (B : list (list Z)).

Lemma chain_frame rs rs' p l :
  (forall q, q ∈ l -> rs' !! q = rs !! q) -> chain rs p l -> chain rs' p l.
Proof.
  revert p. induction l as [|q l IH]; intros p Hf Hc; [done|].
  destruct Hc as (-> & Hq & r & Hr & Hc). split_and!; [done|done|]. exists r.
  split; [rw Hf //; apply elem_of_cons; by left|]. apply IH; [|done].
  intros x Hx. apply Hf, elem_of_cons. by right.
Qed.

Lemma chain_elem rs p l q : chain rs p l -> q ∈ l -> q <> 0 /\ is_Some (rs !! q).
Proof.
  revert p. induction l as [|x l IH]; intros p Hc Hq; [by apply not_elem_of_nil in Hq|].
  destruct Hc as (-> & Hx & r & Hr & Hc). apply elem_of_cons in Hq as [->|Hq]; [eauto|by eapply IH].
Qed.

Lemma chain_length rs p l : chain rs p l -> NoDup l -> (length l <= size rs)%nat.
Proof.
  intros Hc Hn. rw -(size_dom rs) -(size_list_to_set (C := gset Z) l) //.
  apply subseteq_size. intros q Hq. apply elem_of_list_to_set in Hq.
  by apply elem_of_dom; eapply chain_elem.
Qed.

Lemma chain_split rs p l1 q l2 :
  chain rs p (l1 ++ q :: l2) -> exists r, rs !! q = Some r /\ chain rs (r_next r) l2.
Proof.
  revert p. induction l1 as [|x l1 IH]; intros p Hc; simpl in Hc.
  - by destruct Hc as (_ & _ & Hc).
  - destruct Hc as (_ & _ & r & _ & Hc). by eapply IH.
Qed.

(** Appending a record to a chain. *)
Lemma chain_snoc rs p0 l x rx p r :
  chain rs p0 (l ++ [x]) -> NoDup (l ++ [x]) -> (p ∉ l ++ [x]) -> p <> 0 ->
  rs !! x = Some rx -> rs !! p = Some r -> r_next r = 0 ->
  chain (<[x := set_rec_next p rx]> rs) p0 ((l ++ [x]) ++ [p]).
Proof.
  revert p0. induction l as [|y l IH]; intros p0 Hc Hn Hp H0 Hx Hr Hz; simpl in *.
  - destruct Hc as (-> & Hx0 & _). split_and!; [done|done|]. eexists.
    split; [by rw lookup_insert_eq|]. cbn. split_and!; [done|done|]. exists r.
    split; [|done]. rw lookup_insert_ne //. intros ->. by apply Hp, list_elem_of_singleton.
  - destruct Hc as (-> & Hy & ry & Hry & Hc). apply NoDup_cons in Hn as [Hyl Hn].
    split_and!; [done|done|]. exists ry. split.
    + rw lookup_insert_ne //. intros ->. apply Hyl, elem_of_app. right. by apply list_elem_of_singleton.
    + apply IH; try done. intros Hin. apply Hp, elem_of_cons. by right.
Qed.

(** Unlinking a record. *)
Lemma chain_unlink_head rs p q l : chain rs p (q :: l) ->
  exists r, rs !! q = Some r /\ chain rs (r_next r) l.
Proof. apply (chain_split rs p []). Qed.

Lemma chain_unlink rs p0 l1 x rx q rq l2 :
  chain rs p0 ((l1 ++ [x]) ++ q :: l2) -> NoDup ((l1 ++ [x]) ++ q :: l2) ->
  rs !! x = Some rx -> rs !! q = Some rq ->
  chain (<[x := set_rec_next (r_next rq) rx]> rs) p0 ((l1 ++ [x]) ++ l2).
Proof.
  revert p0. induction l1 as [|y l1 IH]; intros p0 Hc Hn Hx Hq; simpl in *.
  - destruct Hc as (-> & Hx0 & r & Hr & Hc). simplify_eq. destruct Hc as (Hnx & Hq0 & r' & Hr' & Hc).
    simplify_eq. split_and!; [done|done|]. eexists. split; [by rw lookup_insert_eq|]. cbn.
    eapply chain_frame; [|exact Hc]. intros z Hz. rw lookup_insert_ne //. intros ->.
    apply NoDup_cons in Hn as [Hn _]. apply Hn, elem_of_cons. by right.
  - destruct Hc as (-> & Hy & ry & Hry & Hc). apply NoDup_cons in Hn as [Hyl Hn].
    split_and!; [done|done|]. exists ry. split; [|by apply IH].
    rw lookup_insert_ne //. intros ->. apply Hyl. rw !elem_of_app. left. right.
    by apply list_elem_of_singleton.
Qed.

Lemma hm_shape_lookup rs rs' p r :
  shape rs' = shape rs -> rs !! p = Some r ->
  exists r', rs' !! p = Some r' /\ set_rec_next 0 r' = set_rec_next 0 r.
Proof.
  intros Hs Hr. assert (shape rs !! p = Some (set_rec_next 0 r)) as E by by rw lookup_fmap Hr.
  rw -Hs lookup_fmap in E. apply fmap_Some in E as (r' & ? & ?). eauto.
Qed.

Lemma set_next_key r r' : set_rec_next 0 r' = set_rec_next 0 r ->
  r_key r' = r_key r /\ r_data r' = r_data r /\ sz_rec r' = sz_rec r.
Proof. destruct r, r'. cbn. by intros [= -> -> ->]. Qed.

Lemma shape_store rs p r q : rs !! p = Some r -> shape (<[p := set_rec_next q r]> rs) = shape rs.
Proof.
  intros Hp. unfold shape. rw fmap_insert. apply insert_id. by rw lookup_fmap Hp.
Qed.

Lemma hm_shape_size rs rs' : shape rs' = shape rs -> size rs' = size rs.
Proof. intros Hs. by rw -(map_size_fmap (set_rec_next 0) rs') -(map_size_fmap (set_rec_next 0) rs) -/(shape rs) -Hs. Qed.

Lemma shape_None rs rs' p : shape rs' = shape rs -> rs !! p = None -> rs' !! p = None.
Proof.
  intros Hs Hr. destruct (rs' !! p) eqn:E; [|done].
  eapply hm_shape_lookup in E as (r' & ? & _); [|done]. simplify_eq.
Qed.

Lemma bucket_frame rs rs' cap i p0 l :
  (forall q, q ∈ l -> rs' !! q = rs !! q) -> bucket rs cap i p0 l -> bucket rs' cap i p0 l.
Proof.
  intros Hf (Hc & Hn & Hi). split_and!; [by eapply chain_frame|done|].
  intros p Hp. rw Hf //. by apply Hi.
Qed.

Lemma inb_alter B i p q l : B !! i = Some l ->
  inb (alter (fun l => l ++ [p]) i B) q <-> inb B q \/ q = p.
Proof.
  intros Hi. rw (list_alter_Some _ _ _ _ Hi). split.
  - intros (j & l' & Hj & Hq). destruct (decide (i = j)) as [<-|].
    + rw list_lookup_insert_eq in Hj; [|by eapply lookup_lt_Some]. injection Hj as <-.
      apply elem_of_app in Hq as [Hq|Hq]; [left; by exists i, l|right; by apply list_elem_of_singleton in Hq].
    + rw list_lookup_insert_ne // in Hj. left. by exists j, l'.
  - intros [(j & l' & Hj & Hq)| ->].
    + destruct (decide (i = j)) as [<-|].
      * simplify_eq. exists i, (l ++ [p]). split; [by eapply list_lookup_here|]. apply elem_of_app. by left.
      * exists j, l'. by rw list_lookup_insert_ne.
    + exists i, (l ++ [p]). split; [by eapply list_lookup_here|]. apply elem_of_app. right.
      by apply list_elem_of_singleton.
Qed.

(** Records of different buckets have different indices. *)
Lemma tab_disjoint rs cap t B i j li lj p :
  tab_ok rs cap t B -> B !! i = Some li -> B !! j = Some lj -> p ∈ li -> p ∈ lj -> i = j.
Proof.
  intros [Hl HlB Hb] Hi Hj Hpi Hpj.
  destruct (lookup_lt_is_Some_2 t i) as [pi Hti]; [rw Hl -HlB; by eapply lookup_lt_Some|].
  destruct (lookup_lt_is_Some_2 t j) as [pj Htj]; [rw Hl -HlB; by eapply lookup_lt_Some|].
  destruct (Hb i pi li Hti Hi) as (_ & _ & H1), (Hb j pj lj Htj Hj) as (_ & _ & H2).
  destruct (H1 p Hpi) as (r & Hr & <-), (H2 p Hpj) as (r' & Hr' & <-). by simplify_eq.
Qed.
End chains.

(** ** The representation *)
Section proofs.
Context {A U : Type} `{AL : AllocatorLaws A}.
Abbreviation mcxt := (map_context A U).
Abbreviation HM := (M mcxt).

(** The digest function: on the keys [key_ok] it writes [digest key], keeping
    its own state in [u_ok].  [ext]: the blocks of other owners of the heap;
    [open_es]: the open enumerators. *)
Context (digest : list Z -> list Z) (key_ok : list Z -> Prop) (u_ok : U -> Prop)
  (ext : Z -> Prop) (open_es : gmap Z map_enum_t).

Definition hash_law (f : option (hash_fn U)) : Prop :=
  match f with
  | Some f => forall u key, u_ok u -> key_ok key ->
      exists u', f u (Some key) (replicate HASH_SIZE 0) = (digest key, u') /\ u_ok u'
  | None => forall key, key_ok key ->
      digest key = take HASH_SIZE key ++ drop (length (take HASH_SIZE key)) (replicate HASH_SIZE 0)
  end.

(** The blocks of the map: its records, its table, its enumerators.  Any other
    live block belongs to somebody else, [ext]: nothing leaks. *)
Record blocks_ok (ext : Z -> Prop) (rs : gmap Z map_rec) (l cap : Z) (es : gmap Z map_enum_t) (a : A) : Prop := {
  bk_ok : a_ok a;
  bk_recs : forall p r, rs !! p = Some r -> a_live a !! p = Some (u32 (REC_HDR + sz_rec r));
  bk_table : a_live a !! l = Some (u32 (cap * PTR_SIZE));
  bk_apart : rs !! l = None;
  bk_enums : forall h e, es !! h = Some e -> a_live a !! h = Some ENUM_SIZE /\ rs !! h = None /\ h <> l;
  bk_only : forall p k, a_live a !! p = Some k ->
    is_Some (rs !! p) \/ p = l \/ is_Some (es !! p) \/ ext p
}.

(** [n] bounds the records there have been: the table is never larger than
    twice that, which keeps its size in bytes below [2 ^ 32]. *)
Record buckets_ok (c : mcxt) (B : list (list Z)) (n : Z) : Prop := {
  bo_cap : 0 < capacity c <= 2 * n + 1;
  bo_list : pp_list c <> 0;
  bo_cb : pf_mem_alloc c = true /\ pf_mem_free c = true;
  bo_tab : tab_ok (recs c) (capacity c) (table c) B;
  bo_dom : forall p, is_Some (recs c !! p) <-> inb B p;
  bo_count : records c = Z.of_nat (size (recs c)) /\ records c <= n;
  bo_keys : keys_inj (recs c);
  bo_data : forall p r, recs c !! p = Some r ->
    exists d, r_data r = d ++ [0] /\ sz_rec r = Z.of_nat (length d) + 1 /\ sz_rec r + REC_HDR < 2 ^ 32;
  bo_blocks : blocks_ok ext (recs c) (pp_list c) (capacity c) (enums c) (mem c);
  bo_hash : hash_law (pf_hash c) /\ u_ok (udata c);
  bo_enums : enums c = open_es
}.

(** The records as a map from digests. *)
Definition holds (rs : gmap Z map_rec) (m : gmap (list Z) (Z * list Z)) : Prop :=
  forall k p d, m !! k = Some (p, d) <->
    exists r, rs !! p = Some r /\ r_key r = k /\ r_data r = d ++ [0].

Definition map_rep (c : mcxt) (m : gmap (list Z) (Z * list Z)) (n : Z) : Prop :=
  (exists B, buckets_ok c B n) /\ holds (recs c) m /\ size m = size (recs c).

Definition MAX_RECORDS : Z := 2 ^ 26.

(** ** Lookup *)
Lemma hm_wp_load p r (c : mcxt) (Q : map_rec -> mcxt -> Prop) :
  recs c !! p = Some r -> Q r c -> wp (load p) c Q.
Proof. unfold wp, load. by intros ->. Qed.

Lemma hm_wp_store p f r (c : mcxt) (Q : unit -> mcxt -> Prop) :
  recs c !! p = Some r -> Q tt (set_recs (<[p := f r]> (recs c)) c) -> wp (store p f) c Q.
Proof. unfold wp, store. by intros ->. Qed.

Lemma wp_slot t i p (c : mcxt) (Q : Z -> mcxt -> Prop) :
  t !! Z.to_nat i = Some p -> Q p c -> wp (slot t i) c Q.
Proof. unfold wp, slot, lift_opt. by intros ->. Qed.

(** The outcome of a search of the chain [l] for [key]. *)
Definition found (rs : gmap Z map_rec) (key : list Z) (l : list Z) (prev0 r prev : Z) : Prop :=
  (r = 0 /\ forall q rec, q ∈ l -> rs !! q = Some rec -> r_key rec <> key) \/
  (exists l1 l2 rec, l = l1 ++ r :: l2 /\ prev = default prev0 (last l1) /\ r <> 0 /\
     rs !! r = Some rec /\ r_key rec = key).

Lemma find_loop_spec fuel key l p prev (c : mcxt) :
  chain (recs c) p l -> p <> 0 -> (length l < fuel)%nat ->
  wp (find_loop fuel key p prev) c (fun '(r, pv) c' => c' = c /\ found (recs c) key l prev r pv).
Proof.
  revert p l prev. induction fuel as [|fuel IH]; intros p l prev Hc Hp Hf; [lia|].
  destruct l as [|q l]; [done|]. destruct Hc as (<- & _ & rec & Hrec & Hc). simpl in Hf. cbn [find_loop].
  wp_step. eapply hm_wp_load; [done|]. case_decide as Hk.
  - apply wp_ret. split; [done|]. right. by exists [], l, rec.
  - destruct (Z.eqb_spec (r_next rec) 0) as [Hz|Hz]; cbn [negb].
    + apply wp_ret. split; [done|]. left. split; [done|]. intros x rx Hx Hrx.
      destruct l as [|y l]; [|by destruct Hc as (E & ? & _); rw Hz in E].
      apply list_elem_of_singleton in Hx as ->. by simplify_eq.
    + eapply wp_mono; [apply (IH _ l); [done|done|lia]|]. intros [r pv] c' [-> Hfd]. split; [done|].
      destruct Hfd as [[-> Hno]|(l1 & l2 & rx & -> & -> & Hr & Hrx & Hkx)].
      * left. split; [done|]. intros x rx Hx Hrx. apply elem_of_cons in Hx as [->|Hx]; [by simplify_eq|by eapply Hno].
      * right. exists (p :: l1), l2, rx. split_and!; try done.
        rw last_cons. by destruct (last l1).
Qed.

Lemma wp_fuel_of (c : mcxt) (Q : nat -> mcxt -> Prop) : Q (S (size (recs c))) c -> wp fuel_of c Q.
Proof. done. Qed.

Lemma hash_key_spec key (c : mcxt) :
  hash_law (pf_hash c) -> u_ok (udata c) -> key_ok key ->
  wp (hash_key (Some key)) c (fun hk c' => hk = digest key /\ exists u, u_ok u /\ c' = set_udata u c).
Proof.
  intros Hh Hu Hk. unfold wp, hash_key. unfold hash_law in Hh. destruct (pf_hash c) as [f|] eqn:Ef.
  - destruct (Hh (udata c) key Hu Hk) as (u' & -> & Hu'). split; [done|]. by exists u'.
  - split; [by rw (Hh key Hk)|]. exists (udata c). split; [done|]. by destruct c.
Qed.

Lemma idx_lt cap key : 0 < cap < 2 ^ 32 -> (idx cap key < Z.to_nat cap)%nat.
Proof.
  intros. unfold idx. pose proof (Z.mod_pos_bound (hash key) cap ltac:(lia)).
  rw u32_small; lia.
Qed.

Lemma tab_slot rs cap t B i : tab_ok rs cap t B -> (i < Z.to_nat cap)%nat ->
  exists p0 l, t !! i = Some p0 /\ B !! i = Some l /\ bucket rs cap i p0 l.
Proof.
  intros [Hl HlB Hb] Hi. destruct (lookup_lt_is_Some_2 t i) as [p0 Hp]; [lia|].
  destruct (lookup_lt_is_Some_2 B i) as [l HB]; [lia|]. exists p0, l. split_and!; [done|done|by apply Hb].
Qed.

(** The bucket of a digest holds its record, if there is one. *)
Lemma bucket_of_key rs cap t B l p r :
  tab_ok rs cap t B -> inb B p -> rs !! p = Some r -> B !! idx cap (r_key r) = Some l -> p ∈ l.
Proof.
  intros Ht (j & l' & Hj & Hp) Hr Hl.
  destruct (tab_slot rs cap t B j Ht) as (p0 & l'' & _ & Hj' & _ & _ & Hb).
  { destruct Ht. rw -tok_lenB0. by eapply lookup_lt_Some. }
  simplify_eq. destruct (Hb p Hp) as (r' & Hr' & <-). by simplify_eq.
Qed.

Definition absent (rs : gmap Z map_rec) (k : list Z) : Prop :=
  forall q r, rs !! q = Some r -> r_key r <> k.

(** What [get_record] returns. *)
Definition located (c : mcxt) (B : list (list Z)) (k : list Z) (r i prev : Z) : Prop :=
  (r = 0 /\ absent (recs c) k) \/
  (exists l1 l2 rec, B !! Z.to_nat i = Some (l1 ++ r :: l2) /\ prev = default 0 (last l1) /\ r <> 0 /\
     recs c !! r = Some rec /\ r_key rec = k).

Lemma get_record_spec key c B n :
  buckets_ok c B n -> n <= MAX_RECORDS -> key_ok key -> key <> [] ->
  wp (get_record (Some key)) c (fun '(r, hk, i, prev) c' => hk = digest key /\
    (exists u, u_ok u /\ c' = set_udata u c) /\ located c B (digest key) r i prev).
Proof.
  intros [Hcap Hl _ Ht Hdom _ _ _ _ [Hh Hu] _] Hn Hk Hne.
  unfold get_record. wp_steps. destruct key as [|b key]; [done|].
  destruct (Z.eqb_spec (pp_list c) 0) as [|_]; [done|]. cbn [negb].
  wp_step. eapply wp_mono; [by apply hash_key_spec|]. intros hk c' [-> (u & Hu' & ->)].
  wp_steps. destruct (Z.eqb_spec (capacity (set_udata u c)) 0) as [E|_]; [cbn in E; lia|].
  unfold MAX_RECORDS in Hn. cbn [capacity set_udata].
  set (k := digest (b :: key)). assert (idx (capacity c) k < Z.to_nat (capacity c))%nat as Hi by (apply idx_lt; lia).
  destruct (tab_slot _ _ _ _ _ Ht Hi) as (p0 & l & Hp0 & HB & Hc & Hnd & Hb).
  unfold get_slot. wp_step. wp_steps. eapply wp_slot; [exact Hp0|].
  destruct (Z.eqb_spec p0 0) as [->|Hp]; cbn [negb].
  - apply wp_ret. split_and!; [done|by exists u|]. left. split; [done|]. intros q r Hr E.
    destruct l as [|x l]; [|by destruct Hc as (<- & ? & _)].
    assert (q ∈ []) as Hq; [|by apply not_elem_of_nil in Hq].
    eapply bucket_of_key; [exact Ht|apply Hdom; by eexists|exact Hr|]. by rw E.
  - wp_step. apply wp_fuel_of. wp_step. eapply wp_mono.
    { apply find_loop_spec; [exact Hc|done|]. pose proof (chain_length _ _ _ Hc Hnd). cbn [recs set_udata]. lia. }
    intros [r pv] c' [-> Hf]. apply wp_ret. split_and!; [done|by exists u|]. cbn [recs set_udata] in Hf.
    destruct Hf as [[-> Hno]|(l1 & l2 & rec & -> & -> & Hr & Hrec & Hkr)].
    + left. split; [done|]. intros q rq Hrq E. eapply Hno; [|exact Hrq|exact E].
      eapply bucket_of_key; [exact Ht|apply Hdom; by eexists|exact Hrq|]. by rw E.
    + right. by exists l1, l2, rec.
Qed.

(** ** Linking a record *)
Lemma chain_end_spec fuel key l p (c : mcxt) :
  chain (recs c) p l -> p <> 0 -> (length l < fuel)%nat ->
  (forall q r, q ∈ l -> recs c !! q = Some r -> r_key r <> key) ->
  wp (chain_end fuel key p) c (fun x c' => c' = c /\ exists l1, l = l1 ++ [x] /\ x <> 0).
Proof.
  revert p l. induction fuel as [|fuel IH]; intros p l Hc Hp Hf Hk; [lia|].
  destruct l as [|q l]; [done|]. destruct Hc as (<- & _ & rec & Hrec & Hc). simpl in Hf. cbn [chain_end].
  wp_step. eapply hm_wp_load; [done|]. rw decide_False; [|by eapply Hk; [apply elem_of_cons; left|]].
  destruct (Z.eqb_spec (r_next rec) 0) as [Hz|Hz]; cbn [negb].
  - apply wp_ret. split; [done|]. exists []. split; [|done].
    destruct l as [|y l]; [done|by destruct Hc as (E & ? & _); rw Hz in E].
  - eapply wp_mono; [apply (IH _ l); [done|done|lia|]|].
    { intros x r Hx. apply Hk, elem_of_cons. by right. }
    intros x c' (-> & l1 & -> & Hx). split; [done|]. by exists (p :: l1).
Qed.

Lemma tab_ok_insert rs rs' cap t B i p0 l :
  tab_ok rs cap t B -> bucket rs' cap i p0 l ->
  (forall j lj q, j <> i -> B !! j = Some lj -> q ∈ lj -> rs' !! q = rs !! q) ->
  tab_ok rs' cap (<[i := p0]> t) (<[i := l]> B).
Proof.
  intros [Hl HlB Hb] Hi Hf. split; [by rw length_insert|by rw length_insert|].
  intros j pj lj Hj HBj. destruct (decide (i = j)) as [<-|Hne].
  - assert (i < length t)%nat by (rw -(length_insert t i p0); by eapply lookup_lt_Some).
    assert (i < length B)%nat by (rw -(length_insert B i l); by eapply lookup_lt_Some).
    rw list_lookup_insert_eq // in Hj. rw list_lookup_insert_eq // in HBj. by simplify_eq.
  - rw list_lookup_insert_ne // in Hj. rw list_lookup_insert_ne // in HBj.
    eapply bucket_frame; [|by apply Hb]. intros q Hq. by eapply Hf.
Qed.

(** A new record goes to the end of the bucket of its digest; no other record
    outside the table changes. *)
Definition added (c : mcxt) (cap : Z) (B : list (list Z)) (p : Z) (key : list Z) (t' : list Z) (c' : mcxt) : Prop :=
  exists rs', c' = set_recs rs' c /\ shape rs' = shape (recs c) /\
    (forall q, ~ inb B q -> rs' !! q = recs c !! q) /\
    tab_ok rs' cap t' (alter (fun l => l ++ [p]) (idx cap key) B).

Lemma add_record_spec p r t cap coll B (c : mcxt) :
  0 < cap < 2 ^ 32 -> p <> 0 -> recs c !! p = Some r -> r_next r = 0 ->
  tab_ok (recs c) cap t B -> ~ inb B p ->
  (forall q r', inb B q -> recs c !! q = Some r' -> r_key r' <> r_key r) ->
  wp (add_record p t cap coll) c (fun '(ok, t', _) c' => ok = true /\ added c cap B p (r_key r) t' c').
Proof.
  intros Hcap Hp Hr Hz Ht Hnb Hk. unfold add_record. wp_step. eapply hm_wp_load; [done|].
  destruct (Z.eqb_spec cap 0); [lia|].
  destruct (tab_slot _ _ _ _ (idx cap (r_key r)) Ht) as (p0 & l & Hp0 & HB & Hc & Hnd & Hb);
    [by apply idx_lt|].
  assert (p ∉ l) as Hpl by (intros Hin; apply Hnb; by exists (idx cap (r_key r)), l).
  wp_step. eapply wp_slot; [exact Hp0|].
  destruct (Z.eqb_spec p0 0) as [->|Hp0'].
  - apply wp_ret. split; [done|]. exists (recs c). split_and!; [by destruct c|done|done|].
    rw (list_alter_Some _ _ _ _ HB). destruct l as [|y l]; [|by destruct Hc as (<- & ? & _)].
    apply (tab_ok_insert (recs c)); [done| |done]. split_and!.
    + cbn. split_and!; [done|done|]. by exists r.
    + apply NoDup_singleton.
    + intros q ->%list_elem_of_singleton. by exists r.
  - wp_step. apply wp_fuel_of. wp_step. eapply wp_mono.
    { apply chain_end_spec; [exact Hc|done| |].
      - pose proof (chain_length _ _ _ Hc Hnd). lia.
      - intros q r' Hq. apply Hk. by exists (idx cap (r_key r)), l. }
    intros x c' (-> & l1 & -> & Hx). destruct (Z.eqb_spec x 0) as [|_]; [done|].
    destruct (Hb x) as (rx & Hrx & Hix); [apply elem_of_app; right; by apply list_elem_of_singleton|].
    wp_step. eapply hm_wp_store; [done|]. apply wp_ret. split; [done|].
    exists (<[x := set_rec_next p rx]> (recs c)). split_and!; [done|by apply shape_store| |].
    + intros q Hq. rw lookup_insert_ne //. intros ->. apply Hq.
      exists (idx cap (r_key r)), (l1 ++ [q]). split; [done|]. apply elem_of_app. right. by apply list_elem_of_singleton.
    + rw (list_alter_Some _ _ _ _ HB) -(list_insert_id t (idx cap (r_key r)) p0) //.
      apply (tab_ok_insert (recs c)); [done| |].
      * split_and!; [by eapply chain_snoc| |].
        -- apply NoDup_app. split_and!; [done| |apply NoDup_singleton].
           intros y Hy ->%list_elem_of_singleton. done.
        -- intros q Hq. apply elem_of_app in Hq as [Hq|Hq].
           ++ destruct (Hb q Hq) as (rq & Hrq & Hiq). destruct (decide (x = q)) as [->|].
              ** simplify_eq. eexists. by rw lookup_insert_eq.
              ** exists rq. by rw lookup_insert_ne.
           ++ apply list_elem_of_singleton in Hq as ->. exists r. split; [|done].
              rw lookup_insert_ne //. intros ->. by apply Hpl, elem_of_app; right; apply list_elem_of_singleton.
      * intros j lj q Hj HBj Hq. rw lookup_insert_ne //. intros <-. apply Hj.
        eapply tab_disjoint; [exact Ht|exact HBj|exact HB|exact Hq|].
        apply elem_of_app. right. by apply list_elem_of_singleton.
Qed.

Lemma inb_add rs cap t B key p q : 0 < cap < 2 ^ 32 -> tab_ok rs cap t B ->
  inb (alter (fun l => l ++ [p]) (idx cap key) B) q <-> inb B q \/ q = p.
Proof.
  intros Hcap [_ HB _]. destruct (lookup_lt_is_Some_2 B (idx cap key)) as [l Hl].
  - rw HB. by apply idx_lt.
  - by eapply inb_alter.
Qed.

(** ** Growing the table *)
(** The records [l] of a chain of the old table, which hold no key of [B], move
    to the new one. *)
Lemma rehash_chain_spec fuel p l t cap coll B (c : mcxt) :
  0 < cap < 2 ^ 32 -> (length l < fuel)%nat -> keys_inj (recs c) ->
  chain (recs c) p l -> NoDup l -> tab_ok (recs c) cap t B -> (forall q, q ∈ l -> ~ inb B q) ->
  (forall q, inb B q -> is_Some (recs c !! q)) ->
  wp (rehash_chain fuel p t cap coll) c (fun '(t', _) c' => exists rs' B',
    c' = set_recs rs' c /\ shape rs' = shape (recs c) /\
    (forall q, ~ inb B q -> (q ∉ l) -> rs' !! q = recs c !! q) /\
    tab_ok rs' cap t' B' /\ forall q, inb B' q <-> inb B q \/ q ∈ l).
Proof.
  intros Hcap. revert p l t coll B c. induction fuel as [|fuel IH]; intros p l t coll B c Hf Hki Hc Hnd Ht Hnb Hdom; [lia|].
  cbn [rehash_chain]. destruct l as [|q l].
  { simpl in Hc. subst p. apply wp_ret. exists (recs c), B. split_and!; [by destruct c|done|done|done|].
    intros q. rw elem_of_nil. tauto. }
  destruct Hc as (<- & Hp & r & Hr & Hc). simpl in Hf. apply NoDup_cons in Hnd as [Hpl Hnd].
  destruct (Z.eqb_spec p 0) as [|_]; [done|]. wp_step. eapply hm_wp_load; [done|].
  wp_step. eapply hm_wp_store; [done|]. wp_step.
  assert (~ inb B p) as Hpb by (apply Hnb, elem_of_cons; by left).
  set (rs1 := <[p := set_rec_next 0 r]> (recs c)).
  assert (tab_ok rs1 cap t B) as Ht1.
  { destruct Ht as [H1 H2 H3]. split; [done|done|]. intros i p0 li Hi HBi.
    eapply bucket_frame; [|by apply H3]. intros x Hx. apply lookup_insert_ne. intros ->. apply Hpb. by exists i, li. }
  eapply wp_mono.
  { apply (add_record_spec p (set_rec_next 0 r) t cap coll B); [done|done| |done|done|done|].
    - apply lookup_insert_eq.
    - cbn [recs set_recs]. intros x rx Hx. rw lookup_insert. case_decide as E; [by subst x|]. intros Hrx Hk.
      apply E. by eapply Hki. }
  intros [[ok t1] coll1] c1 (-> & rs2 & -> & Hs2 & Hf2 & Ht2). cbn [recs set_recs r_key set_rec_next] in *.
  assert (shape rs2 = shape (recs c)) as Hs by (rw Hs2; by apply shape_store).
  assert (forall x, inb (alter (fun l => l ++ [p]) (idx cap (r_key r)) B) x <-> inb B x \/ x = p) as Hin.
  { intros x. by eapply inb_add. }
  eapply wp_mono.
  { apply (IH _ l t1 coll1 (alter (fun l => l ++ [p]) (idx cap (r_key r)) B) (set_recs rs2 (set_recs rs1 c))); cbn [recs set_recs];
      [lia| | |done|exact Ht2| |].
    - intros x y rx ry Hx Hy E.
      destruct (hm_shape_lookup rs2 (recs c) x rx) as (rx' & Hx' & Ex); [done|done|].
      destruct (hm_shape_lookup rs2 (recs c) y ry) as (ry' & Hy' & Ey); [done|done|].
      apply set_next_key in Ex as (Ex & _), Ey as (Ey & _). eapply Hki; [done|done|]. by rw Ex Ey.
    - eapply chain_frame; [|exact Hc]. intros x Hx. rw Hf2; [|by apply Hnb, elem_of_cons; right].
      apply lookup_insert_ne. by intros ->.
    - intros x Hx [H'| ->]%Hin; [|done]. eapply Hnb; [|exact H']. apply elem_of_cons. by right.
    - intros x Hx%Hin. assert (is_Some (recs c !! x)) as [rx Hrx] by (destruct Hx as [Hx| ->]; [by apply Hdom|by eexists]).
      destruct (hm_shape_lookup (recs c) rs2 x rx) as (rx' & ? & _); [done|done|by eexists]. }
  intros [t' coll'] c' (rs' & B' & -> & Hs' & Hf' & Ht' & HB'). cbn [recs set_recs] in *.
  exists rs', B'. split_and!; [done|by rw Hs'| |done|].
  - intros x Hx Hxl. apply not_elem_of_cons in Hxl as [Hxp Hxl]. rw Hf'; [|by intros [?|?]%Hin|done].
    rw Hf2 //. by apply lookup_insert_ne.
  - intros x. rw HB' Hin elem_of_cons. tauto.
Qed.

Lemma keys_inj_shape rs rs' : shape rs' = shape rs -> keys_inj rs -> keys_inj rs'.
Proof.
  intros Hs Hki p q r r' Hp Hq E.
  destruct (hm_shape_lookup rs' rs p r) as (r1 & H1 & E1); [done|done|].
  destruct (hm_shape_lookup rs' rs q r') as (r2 & H2 & E2); [done|done|].
  apply set_next_key in E1 as (E1 & _), E2 as (E2 & _). eapply Hki; [done|done|]. by rw E1 E2.
Qed.

Lemma shape_is_Some rs rs' p : shape rs' = shape rs -> is_Some (rs !! p) -> is_Some (rs' !! p).
Proof. intros Hs [r Hr]. destruct (hm_shape_lookup rs rs' p r) as (r' & ? & _); [done|done|by eexists]. Qed.

Lemma rehash_loop_spec k i t cap coll B B1 rs0 oc (c : mcxt) :
  0 < cap < 2 ^ 32 -> tab_ok rs0 oc (table c) B -> (i + k = length B)%nat -> keys_inj (recs c) ->
  (forall q, inb B q <-> is_Some (recs c !! q)) ->
  (forall j p0 l, (i <= j)%nat -> table c !! j = Some p0 -> B !! j = Some l -> bucket (recs c) oc j p0 l) ->
  tab_ok (recs c) cap t B1 ->
  (forall q, inb B1 q <-> exists j l, (j < i)%nat /\ B !! j = Some l /\ q ∈ l) ->
  wp (rehash_loop k (Z.of_nat i) t cap coll) c (fun '(t', _) c' => exists rs' B',
    c' = set_recs rs' c /\ shape rs' = shape (recs c) /\ tab_ok rs' cap t' B' /\
    forall q, inb B' q <-> inb B q).
Proof.
  intros Hcap Ht0. revert i t coll B1 c Ht0.
  induction k as [|k IH]; intros i t coll B1 c Ht0 Hik Hki Hdom Hold Ht Hin; cbn [rehash_loop].
  { apply wp_ret. exists (recs c), B1. split_and!; [by destruct c|done|done|].
    intros q. rw Hin. split; intros (j & l & Hj); exists j, l; [tauto|].
    split_and!; [|tauto|tauto]. destruct Hj as [Hj _]. apply lookup_lt_Some in Hj. lia. }
  destruct (tab_slot _ _ _ _ i Ht0) as (p0 & l & Hp0 & HB & _); [destruct Ht0; lia|].
  destruct (Hold i p0 l) as (Hc & Hnd & _); [lia|done|done|].
  unfold get_slot. wp_steps. eapply wp_slot; [by rw Nat2Z.id|]. wp_step. apply wp_fuel_of. wp_step. eapply wp_mono.
  { apply (rehash_chain_spec _ _ l _ _ _ B1); try done.
    - pose proof (chain_length _ _ _ Hc Hnd). lia.
    - intros q Hq (j & l' & Hj & HBj & Hq')%Hin.
      pose proof (tab_disjoint _ _ _ _ _ _ _ _ _ Ht0 HB HBj Hq Hq'). lia.
    - intros q (j & l' & _ & HBj & Hq')%Hin. apply Hdom. by exists j, l'. }
  intros [t1 coll1] c1 (rs1 & B2 & -> & Hs1 & Hf1 & Ht1 & HB2).
  replace (Z.of_nat i + 1) with (Z.of_nat (S i)) by lia.
  eapply wp_mono.
  { apply (IH (S i) t1 coll1 B2 (set_recs rs1 c)); cbn [recs table set_recs]; try done; [lia| | | |].
    - by eapply keys_inj_shape.
    - intros q. rw Hdom. split; by apply shape_is_Some.
    - intros j pj lj Hj Htj HBj. eapply bucket_frame; [|apply Hold; [lia|done|done]].
      intros q Hq. apply Hf1.
      + intros (j' & l' & Hj' & HBj' & Hq')%Hin.
        pose proof (tab_disjoint _ _ _ _ _ _ _ _ _ Ht0 HBj HBj' Hq Hq'). lia.
      + intros Hq'. pose proof (tab_disjoint _ _ _ _ _ _ _ _ _ Ht0 HBj HB Hq Hq'). lia.
    - intros q. rw HB2 Hin. split.
      + intros [(j & l' & Hj & HBj & Hq)|Hq]; [exists j, l'|exists i, l]; split_and!; try done; lia.
      + intros (j & l' & Hj & HBj & Hq). destruct (decide (j = i)) as [->|]; [right; by simplify_eq|].
        left. exists j, l'. split_and!; [lia|done|done]. }
  intros [t' coll'] c' (rs' & B' & -> & Hs' & Ht' & HB'). cbn [recs set_recs] in *.
  exists rs', B'. split_and!; [done|by rw Hs'|done|done].
Qed.

(** *** The allocator and the blocks of the map *)
Lemma hm_wp_alloc k (c : mcxt) (Q : Z -> mcxt -> Prop) :
  Q (a_alloc (mem c) k).1 (set_mem (a_alloc (mem c) k).2 c) -> wp (alloc k) c Q.
Proof. unfold wp, alloc. by destruct (a_alloc (mem c) k). Qed.

Lemma wp_release p k (c : mcxt) (Q : unit -> mcxt -> Prop) :
  a_live (mem c) !! p = Some k -> Q tt (set_mem (a_free (mem c) p k) c) -> wp (release p k) c Q.
Proof. intros Hl HQ. unfold wp, release. by rw decide_True. Qed.

Lemma wp_call_free p k (c : mcxt) (Q : unit -> mcxt -> Prop) :
  pf_mem_free c = true -> a_live (mem c) !! p = Some k ->
  Q tt (set_mem (a_free (mem c) p k) c) -> wp (call_free p k) c Q.
Proof. intros Hf Hl HQ. unfold call_free. wp_steps. rw Hf. by apply wp_release. Qed.

Definition or_block (p q : Z) : Prop := ext q \/ q = p.

(** A request fails, or there is one block more. *)
Lemma alloc_blocks k rs l cap es a : 0 < k -> blocks_ok ext rs l cap es a ->
  (a_alloc a k).1 = 0 /\ blocks_ok ext rs l cap es (a_alloc a k).2 \/
  (let p := (a_alloc a k).1 in 0 < p /\ p <> l /\ rs !! p = None /\ es !! p = None /\
   a_live (a_alloc a k).2 !! p = Some k /\ blocks_ok (or_block p) rs l cap es (a_alloc a k).2).
Proof.
  intros Hk [H1 H2 H3 H4 H5 H6]. destruct (alloc_law a k H1 Hk) as (Ho' & [[H0 Hl]|(Hp & Hn & Hl)]).
  - left. split; [done|]. split; rw ?Hl //.
  - right. cbn zeta. set (p := (a_alloc a k).1) in *. set (a' := (a_alloc a k).2) in *.
    assert (forall q j, a_live a !! q = Some j -> a_live a' !! q = Some j) as Hg.
    { intros q j Hq. rw Hl lookup_insert_ne //. congruence. }
    split_and!.
    + done.
    + congruence.
    + destruct (rs !! p) eqn:E; [|done]. apply H2 in E. congruence.
    + destruct (es !! p) eqn:E; [|done]. apply H5 in E as (E & _). congruence.
    + by rw Hl lookup_insert_eq.
    + split; [done|eauto|eauto|done| |].
      * intros h e Hh. destruct (H5 h e Hh) as (? & ? & ?). eauto.
      * intros q j. rw Hl lookup_insert. case_decide as E; [intros _; do 3 right; by right|].
        intros Hq. destruct (H6 q j Hq) as [?|[?|[?|?]]]; [by left|by right; left|by do 2 right; left|].
        do 3 right. by left.
Qed.

Lemma blocks_shape X rs rs' l cap es a : shape rs' = shape rs ->
  blocks_ok X rs l cap es a -> blocks_ok X rs' l cap es a.
Proof.
  intros Hs [H1 H2 H3 H4 H5 H6]. split; [done| |done| | |].
  - intros p r Hp. destruct (hm_shape_lookup rs' rs p r) as (r' & Hr' & E); [done|done|].
    apply set_next_key in E as (_ & _ & <-). by apply H2.
  - by eapply shape_None.
  - intros h e Hh. destruct (H5 h e Hh) as (? & ? & ?). split_and!; [done|by eapply shape_None|done].
  - intros p k Hp. destruct (H6 p k Hp) as [?|?]; [|by right]. left. by eapply shape_is_Some.
Qed.

(** The table moves to the block [p], the old block is returned. *)
Lemma blocks_move rs l cap es a p cap' :
  blocks_ok (or_block p) rs l cap es a -> a_live a !! p = Some (u32 (cap' * PTR_SIZE)) -> p <> l ->
  rs !! p = None -> es !! p = None ->
  blocks_ok ext rs p cap' es (a_free a l (u32 (cap * PTR_SIZE))).
Proof.
  intros [H1 H2 H3 H4 H5 H6] Hp Hne Hr He. destruct (free_law a l _ H1 H3) as [Ho Hl]. split.
  - done.
  - intros q r Hq. rw Hl lookup_delete_ne //; [by eapply H2|]. intros ->. congruence.
  - by rw Hl lookup_delete_ne.
  - done.
  - intros h e Hh. destruct (H5 h e Hh) as (? & ? & ?).
    split_and!; [by rw Hl lookup_delete_ne|done|]. intros ->. congruence.
  - intros q k. rw Hl lookup_delete. case_decide; [done|]. intros Hq.
    destruct (H6 q k Hq) as [?|[?|[?|[?|?]]]]; [by left|done|by do 2 right; left|by do 3 right|by right; left].
Qed.

(** ** remap *)
Lemma replicate_tab rs cap : tab_ok rs cap (replicate (Z.to_nat cap) 0) (replicate (Z.to_nat cap) []).
Proof.
  split; [by rw length_replicate|by rw length_replicate|].
  intros i p0 l [-> _]%lookup_replicate [-> _]%lookup_replicate.
  split_and!; [done|apply NoDup_nil_2|]. intros p Hp. by apply not_elem_of_nil in Hp.
Qed.

Lemma inb_replicate k q : ~ inb (replicate k []) q.
Proof. intros (i & l & [-> _]%lookup_replicate & Hq). by apply not_elem_of_nil in Hq. Qed.

(** Growing fails and leaves the map alone, or doubles the table; the records
    keep their addresses, keys and data. *)
Definition regrown (c c' : mcxt) : Prop :=
  shape (recs c') = shape (recs c) /\ capacity c <= capacity c' <= 2 * capacity c + 1.

Lemma remap_spec c B n :
  buckets_ok c B n -> n < MAX_RECORDS -> capacity c <= n ->
  wp remap c (fun _ c' => regrown c c' /\ exists B', buckets_ok c' B' n).
Proof.
  intros Hb Hn Hcn. pose proof Hb as [Hcap Hl [Ha Hf] Ht Hdom [Hcnt Hcntn] Hki Hdata Hbl Hhash Hes].
  unfold MAX_RECORDS in Hn. unfold remap. wp_steps. cbn [id]. rw Ha Hf.
  destruct (Z.eqb_spec (capacity c) 0); [lia|]. cbn [andb negb].
  set (cap' := u32 (capacity c * 2 + 1)). assert (cap' = capacity c * 2 + 1) as Ecap by (apply u32_small; lia).
  assert (u32 (cap' * PTR_SIZE) = cap' * PTR_SIZE) as Esz by (apply u32_small; unfold PTR_SIZE; lia).
  wp_step. apply hm_wp_alloc.
  destruct (alloc_blocks (u32 (cap' * PTR_SIZE)) _ _ _ _ _ ltac:(unfold PTR_SIZE in *; lia) Hbl) as [[E0 Hbl1]|Hcase].
  { rw E0. cbn [negb Z.eqb]. apply wp_ret. split; [split; [done|cbn; lia]|]. exists B. by split. }
  cbn zeta in Hcase. set (p := (a_alloc (mem c) _).1) in *. set (a' := (a_alloc (mem c) _).2) in *.
  destruct Hcase as (Hp & Hpl & Hrp & Hep & Hpk & Hbl1).
  destruct (Z.eqb_spec p 0) as [|_]; [lia|]. cbn [negb].
  unfold clear_table. destruct (Z.leb_spec (cap' * PTR_SIZE) (u32 (cap' * PTR_SIZE))); [|lia].
  wp_step. apply wp_ret. wp_step. eapply wp_mono.
  { apply (rehash_loop_spec _ 0 _ _ _ B (replicate (Z.to_nat cap') []) (recs c) (capacity c));
      cbn [recs table set_mem]; [lia|done| |done| | | |].
    - destruct Ht. lia.
    - intros q. by rw Hdom.
    - intros j p0 l _ Hj HB. by apply Ht.
    - apply replicate_tab.
    - intros q. split; [by intros ?%inb_replicate|]. intros (j & l & Hj & _). lia. }
  intros [t1 coll1] c1 (rs1 & B1 & -> & Hs1 & Ht1 & HB1). cbn [recs set_mem] in *.
  wp_step. eapply wp_call_free; [done|apply Hbl1|].
  wp_steps. split; [by split; cbn; [|lia]|]. exists B1. split; cbn -[u32]; try done.
  - lia.
  - lia.
  - intros q. rw HB1 -Hdom. split; by apply shape_is_Some.
  - rw (hm_shape_size _ _ Hs1). done.
  - by eapply keys_inj_shape.
  - intros q r Hq. destruct (hm_shape_lookup rs1 (recs c) q r) as (r' & Hr' & E); [done|done|].
    apply set_next_key in E as (_ & <- & <-). by eapply Hdata.
  - eapply blocks_shape; [exact Hs1|]. by eapply blocks_move.
Qed.

(** ** The map behind the records *)
Lemma holds_shape rs rs' m : shape rs' = shape rs -> holds rs m -> holds rs' m.
Proof.
  intros Hs Hm k p d. rw (Hm k p d). split; intros (r & Hr & <- & Hd).
  - destruct (hm_shape_lookup rs rs' p r) as (r' & Hr' & E); [done|done|].
    apply set_next_key in E as (? & Ed & _). exists r'. by rw Ed.
  - destruct (hm_shape_lookup rs' rs p r) as (r' & Hr' & E); [done|done|].
    apply set_next_key in E as (? & Ed & _). exists r'. by rw Ed.
Qed.

Lemma holds_absent rs m k : holds rs m ->
  (forall p r, rs !! p = Some r -> exists d, r_data r = d ++ [0]) ->
  absent rs k <-> m !! k = None.
Proof.
  intros Hm Hd. split.
  - intros Ha. destruct (m !! k) as [[p d]|] eqn:E; [|done].
    apply Hm in E as (r & Hr & Hk & _). by destruct (Ha p r Hr).
  - intros Hn p r Hr <-. destruct (Hd p r Hr) as [d Ed].
    assert (m !! r_key r = Some (p, d)) by (apply Hm; by exists r). congruence.
Qed.

Lemma holds_insert rs m p r d : holds rs m -> rs !! p = None -> absent rs (r_key r) ->
  r_data r = d ++ [0] -> holds (<[p := r]> rs) (<[r_key r := (p, d)]> m).
Proof.
  intros Hm Hp Ha Hd k q e. split.
  - rw lookup_insert. case_decide as Hk.
    + intros [= <- <-]. exists r. by rw lookup_insert_eq.
    + intros (rq & Hq & <- & Hdq)%Hm. exists rq. rw lookup_insert_ne //. congruence.
  - intros (rq & Hq & <- & Hdq). rw lookup_insert in Hq. case_decide as E.
    + subst q. injection Hq as <-. rw lookup_insert_eq. rw Hd in Hdq. by apply app_inj_tail in Hdq as [<- _].
    + rw lookup_insert_ne; [|intros Ek; by eapply Ha]. apply Hm. by exists rq.
Qed.

Lemma holds_delete rs m p r : holds rs m -> keys_inj rs -> rs !! p = Some r ->
  holds (delete p rs) (delete (r_key r) m).
Proof.
  intros Hm Hki Hp k q e. split.
  - rw lookup_delete. case_decide; [done|]. intros (rq & Hq & <- & Hdq)%Hm.
    exists rq. rw lookup_delete_ne //. intros ->. congruence.
  - intros (rq & Hq & <- & Hdq). rw lookup_delete in Hq. case_decide as E; [done|].
    rw lookup_delete_ne; [|intros Ek; by eapply E, Hki]. apply Hm. by exists rq.
Qed.

(** ** Allocating and linking *)
Definition fresh_rec (c c' : mcxt) (hk data : list Z) (p : Z) : Prop :=
  exists a', c' = set_recs (<[p := mkRec (Z.of_nat (length data) + 1) 0 hk (data ++ [0])]> (recs c)) (set_mem a' c) /\
    0 < p /\ recs c !! p = None /\
    blocks_ok ext (recs c') (pp_list c) (capacity c) (enums c) a'.

Definition data_fits (data : list Z) : Prop := Z.of_nat (length data) + 1 + REC_HDR < 2 ^ 32.

Lemma alloc_record_spec c B n hk data :
  buckets_ok c B n -> data_fits data ->
  wp (alloc_record hk data) c (fun p c' =>
    (p = 0 /\ buckets_ok c' B n /\ recs c' = recs c) \/ fresh_rec c c' hk data p).
Proof.
  intros Hb Hd. pose proof Hb as [_ _ [Ha Hf] _ _ _ _ _ Hbl _ _]. unfold data_fits, REC_HDR in Hd.
  unfold alloc_record. wp_steps. cbn [id]. rw Ha Hf. cbn [andb].
  set (len := Z.of_nat (length data)) in *.
  rw (u32_small len); [|lia]. rw (u32_small (len + 1)); [|lia].
  rw (u32_small (REC_HDR + (len + 1))); [|unfold REC_HDR; lia].
  wp_step. apply hm_wp_alloc.
  destruct (alloc_blocks (REC_HDR + (len + 1)) _ _ _ _ _ ltac:(unfold REC_HDR; lia) Hbl) as [[E0 Hbl1]|Hcase].
  { rw E0. cbn [negb Z.eqb]. apply wp_ret. left. split_and!; [done| |done]. destruct Hb. by split. }
  cbn zeta in Hcase. set (p := (a_alloc (mem c) _).1) in *. set (a' := (a_alloc (mem c) _).2) in *.
  destruct Hcase as (Hp & Hpl & Hrp & Hep & Hpk & [H1 H2 H3 H4 H5 H6]).
  destruct (Z.eqb_spec p 0) as [|_]; [lia|]. cbn [negb].
  destruct (Z.leb_spec (REC_HDR + len) (REC_HDR + (len + 1))); [|lia].
  wp_step. wp_steps. right. exists a'.
  rw (take_ge data); [|lia]. replace (len + 1 - len) with 1 by lia. cbn [recs set_mem set_recs replicate Z.to_nat Pos.to_nat Pos.iter_op Init.Nat.add].
  split_and!; [done|lia|done|]. split.
  - done.
  - intros q r. rw lookup_insert. case_decide; [|by apply H2]. intros [= <-]. subst q. cbn -[u32].
    rw u32_small //. unfold REC_HDR. lia.
  - done.
  - by rw lookup_insert_ne.
  - intros h e He. destruct (H5 h e He) as (? & ? & ?). split_and!; [done| |done].
    rw lookup_insert_ne //. congruence.
  - intros q k Hq. destruct (H6 q k Hq) as [?|[?|[?|[?|?]]]];
      [left|by right; left|by do 2 right; left|by do 3 right|left];
      rw lookup_insert_is_Some; destruct (decide (p = q)); [by left|by right|by left|by subst q].
Qed.

Lemma wp_put_counts f (c : mcxt) (Q : unit -> mcxt -> Prop) :
  Q tt (set_counts (f (records c) (collisions c)).1 (f (records c) (collisions c)).2 c) ->
  wp (put_counts f) c Q.
Proof. unfold wp, put_counts, modify. by destruct (f (records c) (collisions c)). Qed.

(** Linking a fresh record whose key is new. *)
Lemma link_record_spec c0 c B n hk data p :
  buckets_ok c0 B n -> n + 1 < MAX_RECORDS -> data_fits data -> absent (recs c0) hk ->
  fresh_rec c0 c hk data p ->
  wp (link_record p (u32 (Z.of_nat (length data)))) c (fun r c' => r = p + REC_HDR /\
    (exists B', buckets_ok c' B' (n + 1)) /\ shape (recs c') = shape (recs c)).
Proof.
  intros [Hcap Hl [Ha Hf] Ht Hdom [Hcnt Hcntn] Hki Hdata Hbl [Hh Hu] Hes] Hn Hd Hab (a' & -> & Hp & Hpn & Hbl').
  unfold MAX_RECORDS, data_fits in *. set (r := mkRec _ 0 hk _) in *. set (rs := <[p := r]> (recs c0)) in *.
  unfold link_record. wp_steps. cbn [id recs table capacity collisions set_recs set_mem] in *.
  assert (forall q, inb B q -> q <> p) as Hne.
  { intros q Hq%Hdom ->. rw Hpn in Hq. by destruct Hq. }
  eapply wp_mono.
  { apply (add_record_spec p r (table c0) (capacity c0) _ B); cbn [recs set_recs set_mem]; try done; [lia|lia| | | |].
    - apply lookup_insert_eq.
    - destruct Ht as [H1 H2 H3]. split; [done|done|]. intros i p0 l Hi HB. eapply bucket_frame; [|by apply H3].
      intros q Hq. rw lookup_insert_ne //. apply not_eq_sym, Hne. by exists i, l.
    - intros Hin. by apply (Hne p).
    - intros q r' Hq. rw lookup_insert_ne; [|by apply not_eq_sym, Hne]. by apply Hab. }
  intros [[ok t] coll] c' (-> & rs' & -> & Hs & _ & Ht'). cbn [recs set_recs set_mem r_key] in *.
  wp_steps. apply wp_put_counts. wp_steps. cbn [id fst snd records set_table set_recs set_mem].
  set (B' := alter _ _ B) in *.
  match goal with |- wp _ ?x _ => set (c1 := x) end.
  assert (buckets_ok c1 B' (n + 1)) as Hb1.
  { assert (forall q, is_Some (rs' !! q) <-> is_Some (recs c0 !! q) \/ q = p) as Hin.
    { intros q. transitivity (is_Some (rs !! q)); [split; by apply shape_is_Some|].
      unfold rs. rw lookup_insert_is_Some. split.
      - intros [->|[_ ?]]; [by right|by left].
      - intros [?| ->]; [|by left]. destruct (decide (p = q)); [by left|by right]. }
    split; unfold c1; cbn -[u32]; try done.
    - lia.
    - intros q. rw Hin Hdom. symmetry. eapply inb_add; [lia|exact Ht].
    - rw (hm_shape_size _ _ Hs) map_size_insert_None // Hcnt.
      assert (Z.of_nat (size (recs c0)) <= n) by lia. rw u32_small; lia.
    - eapply keys_inj_shape; [exact Hs|]. intros x y rx ry. unfold rs. rw !lookup_insert.
      repeat case_decide; subst; intros Hx Hy E; simplify_eq; try done.
      + by destruct (Hab y ry).
      + by destruct (Hab x rx).
      + by eapply Hki.
    - intros q rq Hq. destruct (hm_shape_lookup rs' rs q rq) as (r' & Hr' & E); [done|done|].
      apply set_next_key in E as (_ & <- & <-). unfold rs in Hr'. rw lookup_insert in Hr'. case_decide.
      + injection Hr' as <-. exists data. cbn. split_and!; [done|done|unfold REC_HDR in *; lia].
      + by eapply Hdata.
    - by eapply blocks_shape. }
  destruct (Z.leb_spec (capacity c1) (records c1)) as [Hge|_].
  - wp_step. eapply wp_mono; [eapply remap_spec; [exact Hb1|unfold MAX_RECORDS; lia|destruct Hb1; lia]|].
    intros _ c2 ([Hs2 _] & Hb2). wp_steps. split_and!; [done|done|]. by rw Hs2.
  - wp_steps. split_and!; [done|by exists B'|done].
Qed.

(** ** The operations *)
Lemma buckets_udata c B n u : u_ok u -> buckets_ok c B n -> buckets_ok (set_udata u c) B n.
Proof. intros Hu []. split; cbn; try done. by destruct bo_hash0. Qed.

Lemma buckets_grow c B n n' : n <= n' -> buckets_ok c B n -> buckets_ok c B n'.
Proof. intros Hn []. split; try done; lia. Qed.

Lemma rep_data c m n p r : map_rep c m n -> recs c !! p = Some r -> exists d, r_data r = d ++ [0].
Proof. intros ([B []] & _ & _) Hr. destruct (bo_data0 p r Hr) as (d & ? & _). by exists d. Qed.

(** What [get_record] says of the map. *)
Lemma located_absent c B k i prev : located c B k 0 i prev -> absent (recs c) k.
Proof. by intros [[_ ?]|(? & ? & ? & _ & _ & ? & _)]. Qed.

Lemma located_found c B k r i prev : located c B k r i prev -> r <> 0 ->
  exists l1 l2 rec, B !! Z.to_nat i = Some (l1 ++ r :: l2) /\ prev = default 0 (last l1) /\
    recs c !! r = Some rec /\ r_key rec = k.
Proof. intros [[? _]|(l1 & l2 & rec & ? & ? & ? & ? & ?)] Hr; [done|by exists l1, l2, rec]. Qed.

Definition key_valid (key : list Z) : Prop := key_ok key /\ key <> [].

Lemma map_get_spec key c m n :
  map_rep c m n -> n <= MAX_RECORDS -> key_valid key ->
  wp (map_get (Some key)) c (fun r c' => map_rep c' m n /\
    match m !! digest key with
    | Some (p, d) => p <> 0 /\ r = (p + REC_HDR, Some (Z.of_nat (length d)))
    | None => r = (0, None)
    end).
Proof.
  intros Hrep Hn [Hk Hne]. pose proof Hrep as ([B Hb] & Hm & Hsz). unfold map_get. wp_step.
  eapply wp_mono; [by eapply get_record_spec|]. intros [[[r hk] i] prev] c' (-> & (u & Hu & ->) & Hloc).
  assert (map_rep (set_udata u c) m n) as Hrep'.
  { split; [|done]. exists B. by apply buckets_udata. }
  destruct (Z.eqb_spec r 0) as [->|Hr]; cbn [negb].
  - apply wp_ret. split; [done|]. apply located_absent in Hloc.
    apply (holds_absent _ m) in Hloc; [by rw Hloc|done|]. intros p r Hp. by eapply rep_data.
  - destruct (located_found _ _ _ _ _ _ Hloc Hr) as (l1 & l2 & rec & HB & _ & Hrec & Hkey).
    wp_step. eapply hm_wp_load; [exact Hrec|]. apply wp_ret. split; [done|].
    destruct Hb. destruct (bo_data0 r rec Hrec) as (d & Hd & Hsd & Hlt). unfold REC_HDR in Hlt.
    assert (m !! digest key = Some (r, d)) as ->.
    { apply Hm. by exists rec. }
    split; [done|]. rw Hsd. f_equal. f_equal. rw u32_small; lia.
Qed.

(** [map_add] returns the existing record, or adds a new one with the data. *)
Definition add_post (m : gmap (list Z) (Z * list Z)) (k data : list Z) (r : Z)
    (m' : gmap (list Z) (Z * list Z)) : Prop :=
  match m !! k with
  | Some (p, _) => r = p + REC_HDR /\ m' = m
  | None => r = 0 /\ m' = m \/
            exists p, 0 < p /\ (forall k' p' d, m !! k' = Some (p', d) -> p' <> p) /\
              r = p + REC_HDR /\ m' = <[k := (p, data)]> m
  end.

Lemma link_rep c0 c B m n hk data p :
  buckets_ok c0 B n -> holds (recs c0) m -> size m = size (recs c0) ->
  n + 1 < MAX_RECORDS -> data_fits data -> m !! hk = None ->
  fresh_rec c0 c hk data p ->
  wp (link_record p (u32 (Z.of_nat (length data)))) c (fun r c' => exists m',
    map_rep c' m' (n + 1) /\ add_post m hk data r m').
Proof.
  intros Hb Hm Hsz Hn Hd Hno Hfr.
  assert (absent (recs c0) hk) as Hab.
  { apply (holds_absent _ m); [done| |done]. intros q r Hq. destruct Hb.
    destruct (bo_data0 q r Hq) as (d & ? & _). by exists d. }
  eapply wp_mono; [by eapply link_record_spec|]. intros r c' (-> & Hb' & Hs).
  pose proof Hfr as (a' & -> & Hp & Hpn & _). cbn [recs set_recs] in Hs.
  exists (<[hk := (p, data)]> m). split.
  - split; [done|]. split.
    + eapply holds_shape; [exact Hs|].
      apply (holds_insert (recs c0) m p (mkRec (Z.of_nat (length data) + 1) 0 hk (data ++ [0])) data); done.
    + rw (hm_shape_size _ _ Hs) !map_size_insert_None // Hsz //.
  - unfold add_post. rw Hno. right. exists p. split_and!; [done| |done|done].
    intros k' p' d (r' & Hr' & _)%Hm ->. congruence.
Qed.

Lemma map_add_spec key data c m n :
  map_rep c m n -> n + 1 < MAX_RECORDS -> key_valid key -> data_fits data ->
  wp (map_add (Some key) data) c (fun r c' => exists m',
    map_rep c' m' (n + 1) /\ add_post m (digest key) data r m').
Proof.
  intros Hrep Hn [Hk Hne] Hd. pose proof Hrep as ([B Hb] & Hm & Hsz). unfold map_add. wp_step.
  eapply wp_mono; [eapply get_record_spec; [exact Hb|lia|done|done]|].
  intros [[[r hk] i] prev] c' (-> & (u & Hu & ->) & Hloc).
  pose proof (buckets_udata _ _ _ u Hu Hb) as Hbu.
  destruct (Z.eqb_spec r 0) as [->|Hr]; cbn [negb].
  - assert (m !! digest key = None) as Hno.
    { apply (holds_absent (recs c)); [done| |by eapply located_absent]. intros p r Hp. by eapply rep_data. }
    wp_step. eapply wp_mono; [by eapply alloc_record_spec|]. intros p c2 [(-> & Hb2 & Hr2)|Hfr].
    + cbn [negb Z.eqb]. apply wp_ret. exists m. split.
      * split; [exists B; by eapply buckets_grow, Hb2; lia|]. cbn [recs set_udata] in Hr2. by rw Hr2.
      * unfold add_post. rw Hno. by left.
    + destruct (Z.eqb_spec p 0) as [->|_]; [by destruct Hfr as (? & ? & ? & _)|]. cbn [negb].
      by eapply link_rep; [exact Hbu|..].
  - destruct (located_found _ _ _ _ _ _ Hloc Hr) as (l1 & l2 & rec & HB & _ & Hrec & Hkey).
    apply wp_ret. exists m. split.
    + split; [exists B; eapply buckets_grow, Hbu; lia|done].
    + destruct (rep_data _ _ _ _ _ Hrep Hrec) as [d Hdat].
      unfold add_post. assert (m !! digest key = Some (r, d)) as ->; [|done]. apply Hm. by exists rec.
Qed.

(** *** Deleting *)
Lemma blocks_del rs l cap es a p r :
  blocks_ok ext rs l cap es a -> rs !! p = Some r ->
  blocks_ok ext (delete p rs) l cap es (a_free a p (u32 (REC_HDR + sz_rec r))).
Proof.
  intros [H1 H2 H3 H4 H5 H6] Hp. destruct (free_law a p _ H1 (H2 p r Hp)) as [Ho Hl]. split.
  - done.
  - intros q rq. rw lookup_delete. case_decide; [done|]. intros Hq. rw Hl lookup_delete_ne //. by apply H2.
  - rw Hl lookup_delete_ne //. congruence.
  - rw lookup_delete. by case_decide.
  - intros h e He. destruct (H5 h e He) as (? & ? & ?). split_and!; [|rw lookup_delete; by case_decide|done].
    rw Hl lookup_delete_ne //. congruence.
  - intros q k. rw Hl lookup_delete. case_decide; [done|]. intros Hq.
    destruct (H6 q k Hq) as [?|?]; [left|by right]. by rw lookup_delete_ne.
Qed.

Lemma bucket_delete rs rs' cap i p0 l p :
  (forall q, q <> p -> shape rs' !! q = shape rs !! q) -> (p ∉ l) ->
  chain rs' p0 l -> NoDup l -> (forall q, q ∈ l -> exists r, rs !! q = Some r /\ idx cap (r_key r) = i) ->
  bucket rs' cap i p0 l.
Proof.
  intros Hs Hp Hc Hn Hb. split_and!; [done|done|]. intros q Hq. destruct (Hb q Hq) as (r & Hr & <-).
  assert (shape rs' !! q = Some (set_rec_next 0 r)) as E by (rw Hs; [by rw lookup_fmap Hr|by intros ->]).
  rw lookup_fmap in E. apply fmap_Some in E as (r' & Hr' & E). exists r'. split; [done|].
  symmetry in E. apply set_next_key in E as (-> & _). done.
Qed.

(** Either way of unlinking leaves the chain without the record. *)
Lemma buckets_unlink c B n i p r l1 l2 rs' t' :
  buckets_ok c B n -> n <= MAX_RECORDS -> B !! i = Some (l1 ++ p :: l2) -> recs c !! p = Some r ->
  shape rs' = shape (recs c) ->
  (forall q, (q ∉ l1 ++ p :: l2) -> rs' !! q = recs c !! q) ->
  (exists p0, t' = <[i := p0]> (table c) /\ chain (delete p rs') p0 (l1 ++ l2)) ->
  buckets_ok (set_counts (u32 (records c - 1)) (collisions c)
    (set_recs (delete p rs') (set_mem (a_free (mem c) p (u32 (REC_HDR + sz_rec r)))
      (set_table (capacity c) (pp_list c) t' c)))) (<[i := l1 ++ l2]> B) n.
Proof.
  intros [Hcap Hl Hcb Ht Hdom [Hcnt Hcntn] Hki Hdata Hbl Hh Hes] Hn HB Hp Hs Hf (p0 & -> & Hc).
  destruct (tab_slot _ _ _ _ i Ht) as (pi & l & Hpi & HB' & _ & Hnd & Hb).
  { destruct Ht. rw -tok_lenB0. by eapply lookup_lt_Some. }
  simplify_eq. apply NoDup_app in Hnd as Hnd'. destruct Hnd' as (Hn1 & Hdis & [Hp2 Hn2]%NoDup_cons).
  assert (p ∉ l1 ++ l2) as Hpl.
  { rw elem_of_app. intros [Hin|Hin]; [|done]. apply (Hdis p Hin), elem_of_cons. by left. }
  assert (forall q, inb (<[i := l1 ++ l2]> B) q <-> inb B q /\ q <> p) as Hin.
  { intros q. split.
    - intros (j & l & Hj & Hq). destruct (decide (i = j)) as [<-|Hne].
      + rw list_lookup_insert_eq in Hj; [|by eapply lookup_lt_Some]. injection Hj as <-. split.
        * exists i, (l1 ++ p :: l2). split; [done|]. rw elem_of_app elem_of_cons. apply elem_of_app in Hq. tauto.
        * by intros ->.
      + rw list_lookup_insert_ne // in Hj. split; [by exists j, l|]. intros ->.
        apply Hne. eapply tab_disjoint; [exact Ht|exact HB|exact Hj| |exact Hq].
        apply elem_of_app. right. apply elem_of_cons. by left.
    - intros [(j & l & Hj & Hq) Hne]. destruct (decide (i = j)) as [<-|].
      + simplify_eq. exists i, (l1 ++ l2). split; [by eapply list_lookup_here|].
        apply elem_of_app in Hq as [?|[?|?]%elem_of_cons]; rw elem_of_app; tauto.
      + exists j, l. by rw list_lookup_insert_ne. }
  assert (forall q, q <> p -> shape (delete p rs') !! q = shape (recs c) !! q) as Hsd.
  { intros q Hq. rw -Hs !lookup_fmap lookup_delete_ne //. }
  assert (forall q rq, delete p rs' !! q = Some rq -> q <> p /\ exists r0, recs c !! q = Some r0 /\ set_rec_next 0 r0 = set_rec_next 0 rq) as Hback.
  { intros q rq. rw lookup_delete. case_decide; [done|]. intros Hq. split; [by apply not_eq_sym|].
    by eapply hm_shape_lookup. }
  assert (exists r', rs' !! p = Some r') as [r' Hr'].
  { destruct (hm_shape_lookup (recs c) rs' p r) as (r' & ? & _); [done|done|by exists r']. }
  split; cbn -[u32]; try done.
  - eapply tab_ok_insert; [exact Ht| |].
    + eapply bucket_delete; [exact Hsd|done|done| |].
      * apply NoDup_app. split_and!; [done| |done]. intros x Hx Hx2. apply (Hdis x Hx), elem_of_cons. by right.
      * intros q Hq. apply Hb. rw elem_of_app elem_of_cons. apply elem_of_app in Hq. tauto.
    + intros j lj q Hj HBj Hq. assert (q ∉ l1 ++ p :: l2) as Hql.
      { intros Hq'. apply Hj. eapply tab_disjoint; [exact Ht|exact HBj|exact HB|exact Hq|exact Hq']. }
      rw lookup_delete_ne; [by apply Hf|]. intros ->. apply Hql, elem_of_app. right. apply elem_of_cons. by left.
  - intros q. rw Hin -Hdom lookup_delete_is_Some. split; intros [H1 H2]; split; try by apply not_eq_sym.
    + by eapply shape_is_Some.
    + by eapply shape_is_Some.
  - rw map_size_delete Hr' (hm_shape_size _ _ Hs). 
    assert (size (recs c) <> 0)%nat.
    { intros E. apply map_size_empty_inv in E. by rw E lookup_empty in Hp. }
    rw Hcnt. unfold MAX_RECORDS in Hn.
    rw u32_small; lia.
  - intros x y rx ry Hx Hy E. destruct (Hback x rx Hx) as (_ & x0 & Hx0 & Ex), (Hback y ry Hy) as (_ & y0 & Hy0 & Ey).
    apply set_next_key in Ex as (Ex & _), Ey as (Ey & _). eapply Hki; [done|done|]. by rw Ex Ey.
  - intros q rq Hq. destruct (Hback q rq Hq) as (_ & q0 & Hq0 & E). apply set_next_key in E as (_ & <- & <-). by eapply Hdata.
  - eapply (blocks_shape _ (delete p (recs c))).
    + unfold shape. rw !fmap_delete. f_equal. done.
    + by apply blocks_del.
Qed.

Lemma chain_delete rs p0 l p : (p ∉ l) -> chain rs p0 l -> chain (delete p rs) p0 l.
Proof. intros Hp. apply chain_frame. intros q Hq. apply lookup_delete_ne. by intros ->. Qed.

Lemma wp_free_record p k (c : mcxt) (Q : unit -> mcxt -> Prop) :
  pf_mem_free c = true -> a_live (mem c) !! p = Some k ->
  Q tt (set_recs (delete p (recs c)) (set_mem (a_free (mem c) p k) c)) -> wp (free_record p k) c Q.
Proof. intros. unfold free_record. wp_step. by apply wp_call_free. Qed.

Lemma wp_set_slot i p p0 (c : mcxt) (Q : unit -> mcxt -> Prop) :
  table c !! Z.to_nat i = Some p0 ->
  Q tt (set_table (capacity c) (pp_list c) (<[Z.to_nat i := p]> (table c)) c) -> wp (set_slot i p) c Q.
Proof.
  intros Hi HQ. unfold wp, set_slot. apply lookup_lt_Some in Hi.
  by destruct (Nat.ltb_spec (Z.to_nat i) (length (table c))); [|lia].
Qed.

Lemma shape_delete rs p : shape (delete p rs) = delete p (shape rs).
Proof. apply fmap_delete. Qed.

Lemma rep_eq c c' m n : map_rep c' m n -> c = c' -> map_rep c m n.
Proof. by intros ? ->. Qed.

Lemma map_del_spec key c m n :
  map_rep c m n -> n <= MAX_RECORDS -> key_valid key ->
  wp (map_del (Some key)) c (fun _ c' => map_rep c' (delete (digest key) m) n).
Proof.
  intros Hrep Hn [Hk Hne]. pose proof Hrep as ([B Hb] & Hm & Hsz). unfold map_del. wp_step.
  eapply wp_mono; [by eapply get_record_spec|]. intros [[[p hk] i] prev] c' (-> & (u & Hu & ->) & Hloc).
  pose proof (buckets_udata _ _ _ u Hu Hb) as Hbu.
  destruct (Z.eqb_spec p 0) as [->|Hp]; cbn [negb].
  { apply wp_ret. rw delete_id; [by split; [exists B|]|].
    apply (holds_absent (recs c)); [done| |by eapply located_absent]. intros p r Hr. by eapply rep_data. }
  destruct (located_found _ _ _ _ _ _ Hloc Hp) as (l1 & l2 & rec & HB & -> & Hrec & Hkey).
  set (c1 := set_udata u c) in *. assert (recs c1 = recs c) as Er by done.
  pose proof Hbu as [_ _ [_ Hf] Ht _ _ Hki _ Hbl _ _].
  destruct (tab_slot _ _ _ _ (Z.to_nat i) Ht) as (p0 & l & Hp0 & HB' & Hc & Hnd & _).
  { destruct Ht. rw -tok_lenB0. by eapply lookup_lt_Some. }
  assert (l = l1 ++ p :: l2) as -> by congruence.
  wp_steps. rw Hf. wp_step. eapply hm_wp_load; [exact Hrec|].
  assert (map_rep (set_udata u c) m n) as Hrep1 by (split; [by exists B|done]).
  assert (forall rs' t',
    shape rs' = shape (recs c1) -> (forall q, (q ∉ l1 ++ p :: l2) -> rs' !! q = recs c1 !! q) ->
    (exists p0, t' = <[Z.to_nat i := p0]> (table c1) /\ chain (delete p rs') p0 (l1 ++ l2)) ->
    map_rep (set_counts (u32 (records c1 - 1)) (collisions c1)
      (set_recs (delete p rs') (set_mem (a_free (mem c1) p (u32 (REC_HDR + sz_rec rec)))
        (set_table (capacity c1) (pp_list c1) t' c1)))) (delete (digest key) m) n) as Hdone.
  { intros rs' t' Hs Hfr Hch. split; [eexists; by eapply buckets_unlink|]. cbn [recs set_recs set_mem set_counts set_table].
    assert (shape (delete p rs') = shape (delete p (recs c))) as Hsd by (rw !shape_delete Hs; done).
    split.
    - eapply holds_shape; [exact Hsd|]. rw -Hkey. by apply holds_delete.
    - rw (hm_shape_size _ _ Hsd) !map_size_delete Hrec Hsz.
      destruct (rep_data _ _ _ _ _ Hrep Hrec) as [d Hd].
      assert (m !! digest key = Some (p, d)) as ->; [|done]. apply Hm. by exists rec. }
  assert (p ∉ l1 ++ l2) as Hpl.
  { apply NoDup_app in Hnd as (_ & Hdis & [Hp2 _]%NoDup_cons). rw elem_of_app. intros [Hin|Hin]; [|done].
    apply (Hdis p Hin), elem_of_cons. by left. }
  destruct l1 as [|x l1 _] using rev_ind.
  - cbn [last default]. cbn [negb Z.eqb]. wp_step. eapply wp_set_slot; [exact Hp0|]. wp_step.
    apply wp_free_record; [done|by apply Hbl|]. apply wp_put_counts.
    cbn [records collisions recs table mem capacity pp_list set_recs set_mem set_table fst snd].
    apply (Hdone (recs c1)); [done|done|]. eexists. split; [done|].
    apply chain_delete; [done|]. destruct (chain_unlink_head _ _ _ _ Hc) as (r & Hr & Hch). by simplify_eq.
  - rw last_snoc. cbn [default from_option id].
    assert (x ∈ (l1 ++ [x]) ++ p :: l2) as Hx.
    { rw !elem_of_app. left. right. by apply list_elem_of_singleton. }
    destruct (chain_elem _ _ _ x Hc Hx) as [Hx0 [rx Hrx]].
    destruct (Z.eqb_spec x 0) as [|_]; [done|]. cbn [negb].
    wp_step. eapply hm_wp_store; [exact Hrx|]. wp_step. apply wp_free_record; [done|by apply Hbl|].
    apply wp_put_counts. cbn [records collisions recs table mem capacity pp_list set_recs set_mem set_table fst snd].
    eapply rep_eq; [apply (Hdone (<[x := set_rec_next (r_next rec) rx]> (recs c1)) (table c1))|].
    + by apply shape_store.
    + intros q Hq. apply lookup_insert_ne. by intros ->.
    + exists p0. rw list_insert_id //. split; [done|]. apply chain_delete; [done|]. by eapply chain_unlink.
    + by destruct c1.
Qed.

(** [map_set] drops the record of the key, then adds a new one. *)
Definition set_post (m : gmap (list Z) (Z * list Z)) (k data : list Z) (r : Z)
    (m' : gmap (list Z) (Z * list Z)) : Prop :=
  add_post (delete k m) k data r m'.

Lemma map_set_spec key data c m n :
  map_rep c m n -> n + 1 < MAX_RECORDS -> key_valid key -> data_fits data ->
  wp (map_set (Some key) data) c (fun r c' => exists m',
    map_rep c' m' (n + 1) /\ set_post m (digest key) data r m').
Proof.
  intros Hrep Hn Hk Hd. unfold map_set. wp_step.
  eapply wp_mono; [eapply map_del_spec; [exact Hrep|lia|exact Hk]|]. intros _ c1 ([B1 Hb1] & Hm1 & Hsz1).
  wp_step. eapply wp_mono.
  { apply hash_key_spec; [apply Hb1|apply Hb1|apply Hk]. }
  intros hk c2 (-> & u & Hu & ->). pose proof (buckets_udata _ _ _ u Hu Hb1) as Hb2.
  assert (delete (digest key) m !! digest key = None) as Hno by apply lookup_delete_eq.
  wp_step. eapply wp_mono; [by eapply alloc_record_spec|]. intros p c3 [(-> & Hb3 & Hr3)|Hfr].
  - cbn [negb Z.eqb]. apply wp_ret. exists (delete (digest key) m). split.
    + split; [exists B1; by eapply buckets_grow, Hb3; lia|]. cbn [recs set_udata] in Hr3. by rw Hr3.
    + unfold set_post, add_post. rw Hno. by left.
  - destruct (Z.eqb_spec p 0) as [->|_]; [by destruct Hfr as (? & ? & ? & _)|]. cbn [negb].
    by eapply link_rep; [exact Hb2|..].
Qed.

(** *** Clearing and destroying *)
Definition cleared (c c' : mcxt) (rs' : gmap Z map_rec) : Prop :=
  exists a' t', c' = set_recs rs' (set_mem a' (set_table (capacity c) (pp_list c) t' c)) /\
    blocks_ok ext rs' (pp_list c) (capacity c) (enums c) a'.

Lemma free_chain_spec fuel p l (c : mcxt) :
  chain (recs c) p l -> NoDup l -> (length l < fuel)%nat -> pf_mem_free c = true ->
  blocks_ok ext (recs c) (pp_list c) (capacity c) (enums c) (mem c) ->
  wp (free_chain fuel p) c (fun _ c' => exists rs' a', c' = set_recs rs' (set_mem a' c) /\
    (forall q, q ∈ l -> rs' !! q = None) /\ (forall q, (q ∉ l) -> rs' !! q = recs c !! q) /\
    blocks_ok ext rs' (pp_list c) (capacity c) (enums c) a').
Proof.
  revert p l c. induction fuel as [|fuel IH]; intros p l c Hc Hnd Hf Hfree Hbl; [lia|]. cbn [free_chain].
  destruct l as [|q l].
  { simpl in Hc. subst p. apply wp_ret. exists (recs c), (mem c). split_and!; [by destruct c| |done|done].
    intros q Hq. by apply not_elem_of_nil in Hq. }
  destruct Hc as (<- & Hp & r & Hr & Hc). simpl in Hf. apply NoDup_cons in Hnd as [Hpl Hnd].
  destruct (Z.eqb_spec p 0) as [|_]; [done|]. wp_step. eapply hm_wp_load; [exact Hr|].
  wp_step. apply wp_free_record; [done|by apply Hbl|].
  set (c1 := set_recs _ _). eapply wp_mono.
  { apply (IH _ l c1); cbn [c1 recs set_recs set_mem pf_mem_free]; [|done|lia|done|].
    - by apply chain_delete.
    - by apply blocks_del. }
  intros _ c' (rs' & a' & -> & H1 & H2 & H3). exists rs', a'. cbn [c1 recs set_recs] in *. split_and!; [done| | |done].
  - intros q Hq. destruct (decide (q ∈ l)); [by apply H1|]. rw H2 //.
    apply elem_of_cons in Hq as [->|]; [apply lookup_delete_eq|done].
  - intros q Hq. apply not_elem_of_cons in Hq as [? ?]. rw H2 //. by apply lookup_delete_ne.
Qed.

Lemma clr_loop_spec k i B (c : mcxt) :
  tab_ok (recs c) (capacity c) (table c) B -> (i + k = length B)%nat -> pf_mem_free c = true ->
  (forall j l, (j < i)%nat -> B !! j = Some l -> l = []) ->
  (forall p, is_Some (recs c !! p) -> inb B p) ->
  blocks_ok ext (recs c) (pp_list c) (capacity c) (enums c) (mem c) ->
  wp (clr_loop k (Z.of_nat i)) c (fun _ c' => cleared c c' ∅ /\ length (table c') = length (table c) /\
    forall j p, table c' !! j = Some p -> p = 0).
Proof.
  revert i B c. induction k as [|k IH]; intros i B c Ht Hik Hf Hem Hdom Hbl; cbn [clr_loop].
  { apply wp_ret.
    assert (forall j l, B !! j = Some l -> l = []) as Hall.
    { intros j l Hj. eapply Hem; [|exact Hj]. apply lookup_lt_Some in Hj. lia. }
    assert (recs c = ∅) as E.
    { apply map_empty. intros p. destruct (recs c !! p) eqn:E; [|done].
      destruct (Hdom p) as (j & l & Hj & Hp); [by eexists|]. rw (Hall j l Hj) in Hp. by apply not_elem_of_nil in Hp. }
    split_and!; [|done|].
    - exists (mem c), (table c). rw E in Hbl. split; [|done]. destruct c; cbn in *. by subst.
    - intros j p Hj. destruct (tab_slot _ _ _ _ j Ht) as (p0 & l & Hp0 & HB & Hc & _).
      { destruct Ht. rw -tok_len0. by eapply lookup_lt_Some. }
      rw (Hall j l HB) in Hc. simpl in Hc. congruence. }
  destruct (tab_slot _ _ _ _ i Ht) as (p0 & l & Hp0 & HB & Hc & Hnd & Hb); [destruct Ht; lia|].
  unfold get_slot. wp_steps. eapply wp_slot; [by rw Nat2Z.id|]. wp_step.
  replace (Z.of_nat i + 1) with (Z.of_nat (S i)) by lia. apply wp_when.
  - intros Hp. wp_step. apply wp_fuel_of. wp_step. eapply wp_mono.
    { eapply free_chain_spec; [exact Hc|done| |done|done]. pose proof (chain_length _ _ _ Hc Hnd). lia. }
    intros _ c1 (rs' & a' & -> & H1 & H2 & H3). eapply wp_set_slot; [by rw Nat2Z.id|].
    rw Nat2Z.id. set (c2 := set_table _ _ _ _).
    eapply wp_mono.
    { apply (IH (S i) (<[i := []]> B) c2); cbn [c2 recs table capacity pp_list mem enums pf_mem_free set_table set_recs set_mem].
      - eapply tab_ok_insert; [exact Ht| |].
        + split_and!; [done|apply NoDup_nil_2|]. intros q Hq. by apply not_elem_of_nil in Hq.
        + intros j lj q Hj HBj Hq. apply H2. intros Hql. apply Hj. by eapply tab_disjoint.
      - rw length_insert. lia.
      - done.
      - intros j l' Hj HBj. destruct (decide (i = j)) as [<-|Hne].
        + rw list_lookup_insert_eq in HBj; [|by eapply lookup_lt_Some]. congruence.
        + rw list_lookup_insert_ne // in HBj. eapply Hem; [|exact HBj]. lia.
      - intros p [r Hr]. destruct (decide (p ∈ l)) as [Hpl|Hpl]; [rw H1 // in Hr|]. rw H2 // in Hr.
        destruct (Hdom p) as (j & l' & Hj & Hq); [by eexists|]. exists j, l'.
        rw list_lookup_insert_ne //. intros <-. congruence.
      - done. }
    intros _ c' ((a2 & t2 & -> & Hbl2) & Hlen & Hz). split_and!; [|by cbn in *; rw Hlen length_insert|done].
    exists a2, t2. split; [done|]. exact Hbl2.
  - intros Hp. destruct (Z.eqb_spec p0 0) as [->|]; [|done]. assert (l = []) as ->.
    { destruct l as [|y l]; [done|]. by destruct Hc as (<- & ? & _). }
    apply (IH (S i) B c); try done; [lia|]. intros j l' Hj HBj.
    destruct (decide (j = i)) as [->|]; [congruence|]. eapply Hem; [|exact HBj]. lia.
Qed.

Lemma empty_tab cap t : length t = Z.to_nat cap -> (forall j p, t !! j = Some p -> p = 0) ->
  tab_ok ∅ cap t (replicate (Z.to_nat cap) []).
Proof.
  intros Hl Hz. split; [done|by rw length_replicate|]. intros i p0 l Hi [-> _]%lookup_replicate.
  rw (Hz i p0 Hi). split_and!; [done|apply NoDup_nil_2|]. intros p Hp. by apply not_elem_of_nil in Hp.
Qed.

Lemma holds_empty : holds ∅ ∅.
Proof. intros k p d. rw lookup_empty. split; [done|]. intros (r & Hr & _). by rw lookup_empty in Hr. Qed.

(** A context without records stands for the empty map. *)
Lemma empty_rep (c : mcxt) n :
  0 < capacity c <= 2 * n + 1 -> 0 <= n -> pp_list c <> 0 -> pf_mem_alloc c = true /\ pf_mem_free c = true ->
  length (table c) = Z.to_nat (capacity c) -> (forall j p, table c !! j = Some p -> p = 0) ->
  recs c = ∅ -> records c = 0 ->
  blocks_ok ext ∅ (pp_list c) (capacity c) (enums c) (mem c) ->
  hash_law (pf_hash c) /\ u_ok (udata c) -> enums c = open_es -> map_rep c ∅ n.
Proof.
  intros Hcap Hn Hl Hcb Hlen Hz Hr Hcnt Hbl Hh He. split.
  - exists (replicate (Z.to_nat (capacity c)) []). split; rw ?Hr //.
    + by apply empty_tab.
    + intros p. split; [by rw lookup_empty; intros [? ?]|by intros ?%inb_replicate].
    + rw map_size_empty. lia.
  - rw Hr. split; [apply holds_empty|done].
Qed.

Lemma map_clr_spec c m n : map_rep c m n ->
  wp map_clr c (fun _ c' => map_rep c' ∅ n /\ capacity c' = capacity c /\ enums c' = enums c).
Proof.
  intros ([B Hb] & Hm & Hsz). pose proof Hb as [Hcap Hl [Ha Hf] Ht Hdom [Hcnt Hcntn] Hki Hdata Hbl Hh Hes].
  unfold map_clr. wp_steps; cbn [id]; rw Hf; cbn [andb].
  - destruct (Z.eqb_spec (pp_list c) 0) as [|_]; [done|]. intros Hrec. wp_step. eapply wp_mono.
    { apply (clr_loop_spec _ 0 B); try done.
      - destruct Ht. cbn. lia.
      - intros j l Hj. lia.
      - intros p. apply Hdom. }
    intros _ c' ((a' & t' & -> & Hbl') & Hlen & Hz). apply wp_put_counts. cbn [fst snd] in *.
    cbn in Hlen, Hz. split; [|done]. apply empty_rep; cbn; try done; [lia|]. destruct Ht. congruence.
  - destruct (Z.eqb_spec (pp_list c) 0) as [|_]; [done|].
    destruct (Z.eqb_spec (records c) 0) as [E|_]; [|done]. intros _.
    assert (m = ∅) as ->; [apply map_size_empty_inv; lia|]. split; [|done]. split; [by exists B|done].
Qed.

(** After [map_destroy] the only blocks left are enumerators that were not
    closed. *)
Definition map_gone (c c' : mcxt) : Prop :=
  pp_list c' = 0 /\ recs c' = ∅ /\ records c' = 0 /\ capacity c' = capacity c /\ enums c' = enums c /\
  a_ok (mem c') /\
  forall p k, a_live (mem c') !! p = Some k -> is_Some (enums c !! p) \/ ext p.

Lemma map_destroy_spec c m n : map_rep c m n -> wp map_destroy c (fun _ c' => map_gone c c').
Proof.
  intros Hrep. unfold map_destroy. wp_step. wp_step. pose proof Hrep as ([B0 Hb0] & _).
  apply wp_when; [intros _|intros E; destruct (Z.eqb_spec (pp_list c) 0) as [E0|]; [by destruct Hb0|done]].
  wp_step. eapply wp_mono; [by eapply map_clr_spec|].
  intros _ c1 (([B [Hcap Hl [Ha Hf] Ht Hdom [Hcnt _] _ _ Hbl _ _]] & _ & Hsz) & Ecap & Een).
  rw map_size_empty in Hsz. assert (recs c1 = ∅) as Er by by apply map_size_empty_inv.
  wp_step. wp_step. cbn [id]. destruct (Z.eqb_spec (records c1) 0) as [E0|]; [|lia]. cbn [when].
  wp_step. apply wp_call_free; [done|by apply Hbl|]. wp_steps.
  destruct Hbl as [H1 _ H3 _ _ H6]. destruct (free_law _ _ _ H1 H3) as [Ho Hlv].
  split_and!; cbn; try done. intros p k. rw Hlv lookup_delete. case_decide; [done|]. intros Hp.
  destruct (H6 p k Hp) as [Hs|[?|[Hs|?]]]; [|done|left; by rw -Een|by right].
  rw Er in Hs. by destruct Hs.
Qed.

(** *** Initialisation *)
Definition raw (c : mcxt) : Prop :=
  pp_list c = 0 /\ recs c = ∅ /\ (enums c = open_es /\ open_es = ∅) /\ pf_mem_alloc c = true /\ pf_mem_free c = true /\
  a_ok (mem c) /\ (forall p k, a_live (mem c) !! p = Some k -> ext p) /\
  hash_law (pf_hash c) /\ u_ok (udata c).

Lemma map_init_spec (c : mcxt) : raw c -> 0 < capacity c <= MAX_RECORDS ->
  wp map_init c (fun r c' => r = 1 /\ map_rep c' ∅ (capacity c) \/
    r = 0 /\ raw c' /\ a_live (mem c') = a_live (mem c)).
Proof.
  intros (Hl & Hr & [He Hes] & Ha & Hf & Ho & Hext & Hh) Hcap. unfold MAX_RECORDS in Hcap.
  unfold map_init. wp_steps. cbn [id]. rw Ha Hl. destruct (Z.eqb_spec (capacity c) 0); [lia|].
  cbn [andb negb Z.eqb]. assert (0 < u32 (capacity c * PTR_SIZE)) as Hsz.
  { rw u32_small; unfold PTR_SIZE; lia. }
  wp_step. apply hm_wp_alloc. destruct (alloc_law (mem c) _ Ho Hsz) as (Ho' & [[-> Hlv]|(Hp & Hn & Hlv)]).
  - wp_steps. cbn [negb Z.eqb]. apply wp_ret. right. split_and!; [done| |by cbn; rw Hlv].
    split_and!; cbn; try done; [|apply Hh|apply Hh]. intros p k. rw Hlv. apply Hext.
  - set (p := (a_alloc (mem c) _).1) in *. wp_steps. destruct (Z.eqb_spec p 0); [lia|]. cbn [negb].
    unfold clear_table. destruct (Z.leb_spec (capacity c * PTR_SIZE) (u32 (capacity c * PTR_SIZE))) as [_|Hlt];
      [|rw u32_small in Hlt; unfold PTR_SIZE in *; lia].
    wp_steps. apply wp_put_counts. apply wp_ret. left. split; [done|].
    apply empty_rep; cbn; try done; [lia|lia|by rw length_replicate| |].
    + intros j q [-> _]%lookup_replicate. done.
    + rw He Hes. split; rw ?lookup_empty //; cbn.
      * by rw Hlv lookup_insert_eq.
      * intros q k. rw Hlv lookup_insert. case_decide; [intros _; right; by left|]. intros ?%Hext. by do 3 right.
Qed.

(** ** Enumeration *)
Lemma from_S (B : list (list Z)) i l : B !! i = Some l -> mjoin (drop i B) = l ++ mjoin (drop (S i) B).
Proof. intros Hi. by rw (drop_S _ _ _ Hi). Qed.

Definition bucket_start (B : list (list Z)) (R : list Z) (p i : Z) : Prop :=
  match R with
  | [] => p = 0
  | q :: R => p = q /\ q <> 0 /\ 0 <= i /\ exists l, B !! Z.to_nat i = Some (q :: l) /\ R = l ++ mjoin (drop (S (Z.to_nat i)) B)
  end.

Lemma bucket_head rs cap i p0 l : bucket rs cap i p0 l ->
  l = [] /\ p0 = 0 \/ exists l', l = p0 :: l' /\ p0 <> 0.
Proof. intros (Hc & _). destruct l as [|y l]; [by left|]. destruct Hc as (-> & ? & _). right. by exists l. Qed.

Lemma scan_spec k i (c : mcxt) B :
  tab_ok (recs c) (capacity c) (table c) B -> (i + k = length B)%nat ->
  wp (scan k (Z.of_nat i)) c (fun '(p, j) c' => c' = c /\ bucket_start B (mjoin (drop i B)) p j).
Proof.
  intros Ht. revert i. induction k as [|k IH]; intros i Hik; cbn [scan].
  { apply wp_ret. split; [done|]. rw drop_ge; [done|lia]. }
  destruct (tab_slot _ _ _ _ i Ht) as (p0 & l & Hp0 & HB & Hb); [destruct Ht; lia|].
  unfold get_slot. wp_steps. eapply wp_slot; [by rw Nat2Z.id|]. rw (from_S _ _ _ HB).
  destruct (bucket_head _ _ _ _ _ Hb) as [[-> ->]|(l' & -> & Hp)].
  - cbn [negb Z.eqb]. replace (Z.of_nat i + 1) with (Z.of_nat (S i)) by lia. apply IH. lia.
  - destruct (Z.eqb_spec p0 0) as [|_]; [done|]. apply wp_ret. split; [done|].
    split_and!; [done|done|lia|]. exists l'. by rw Nat2Z.id.
Qed.

Lemma scan_next_spec k i (c : mcxt) B :
  tab_ok (recs c) (capacity c) (table c) B -> (S i + k = length B)%nat ->
  wp (scan_next k (Z.of_nat i)) c (fun '(p, j) c' => c' = c /\ bucket_start B (mjoin (drop (S i) B)) p j).
Proof.
  intros Ht. revert i. induction k as [|k IH]; intros i Hik; cbn [scan_next].
  { apply wp_ret. split; [done|]. rw drop_ge; [done|lia]. }
  destruct (tab_slot _ _ _ _ (S i) Ht) as (p0 & l & Hp0 & HB & Hb); [destruct Ht; lia|].
  replace (Z.of_nat i + 1) with (Z.of_nat (S i)) by lia.
  unfold get_slot. wp_steps. eapply wp_slot; [by rw Nat2Z.id|]. rw (from_S _ _ _ HB).
  destruct (bucket_head _ _ _ _ _ Hb) as [[-> ->]|(l' & -> & Hp)].
  - cbn [negb Z.eqb]. apply IH. lia.
  - destruct (Z.eqb_spec p0 0) as [|_]; [done|]. apply wp_ret. split; [done|].
    split_and!; [done|done|lia|]. exists l'. by rw Nat2Z.id.
Qed.

(** The enumerator stands on [p], with the records [R] to come. *)
Definition stands (c : mcxt) (B : list (list Z)) (e : map_enum_t) (p : Z) (R : list Z) : Prop :=
  p_data e = p + REC_HDR /\ 0 < p + REC_HDR /\ 0 <= aidx e /\
  exists l1 l2 r, B !! Z.to_nat (aidx e) = Some (l1 ++ p :: l2) /\ recs c !! p = Some r /\
    e_next e = r_next r /\ R = l2 ++ mjoin (drop (S (Z.to_nat (aidx e))) B).

Definition rec_size (c : mcxt) (p : Z) : Z :=
  match recs c !! p with Some r => sz_rec r - 1 | None => 0 end.

Definition stepped (c : mcxt) (B : list (list Z)) (R : list Z) (data : Z) (s : option Z) (e : map_enum_t) : Prop :=
  match R with
  | [] => data = 0
  | q :: R => data = q + REC_HDR /\ s = Some (rec_size c q) /\ stands c B e q R
  end.

Lemma rec_size_ok c B n p r : buckets_ok c B n -> recs c !! p = Some r ->
  u32 (sz_rec r - 1) = rec_size c p /\ 0 < p.
Proof.
  intros Hb Hr. destruct Hb. destruct (bo_data0 p r Hr) as (d & _ & Hs & Hlt). unfold REC_HDR in Hlt.
  split; [unfold rec_size; rw Hr; apply u32_small; lia|].
  destruct bo_blocks0 as [Ho Hrec _ _ _ _]. by eapply live_pos, Hrec.
Qed.

Lemma enum_first_spec c B n e : buckets_ok c B n ->
  wp (enum_first e) c (fun '(data, s, e') c' => c' = c /\ stepped c B (mjoin B) data s e').
Proof.
  intros Hb. pose proof Hb as [Hcap Hl _ Ht Hdom [Hcnt _] _ _ _ _ _]. unfold enum_first. wp_steps. cbn [id].
  destruct (Z.eqb_spec (pp_list c) 0) as [|_]; [done|].
  destruct (Z.eqb_spec (records c) 0) as [E|_]; cbn [andb negb].
  { apply wp_ret. split; [done|]. destruct (mjoin B) as [|q R] eqn:EB; [done|].
    assert (inb B q) as Hq%Hdom.
    { assert (q ∈ mjoin B) as (l & Hql & HlB)%list_elem_of_join by (rw EB; apply elem_of_cons; by left).
      apply list_elem_of_lookup in HlB as [i Hi]. by exists i, l. }
    assert (recs c = ∅) as Er by (apply map_size_empty_inv; lia). rw Er lookup_empty in Hq. by destruct Hq. }
  wp_step. eapply wp_mono.
  { apply (scan_spec _ 0 c B); [done|]. destruct Ht. cbn. lia. }
  intros [p i] c' [-> Hs]. rw drop_0 in Hs. unfold stepped.
  destruct (mjoin B) as [|q R]; cbn in Hs.
  - rw Hs. cbn [negb Z.eqb]. by apply wp_ret.
  - destruct Hs as (-> & Hq & Hi & l & HB & ->). destruct (Z.eqb_spec q 0) as [|_]; [done|]. cbn [negb].
    assert (is_Some (recs c !! q)) as [r Hr] by (apply Hdom; eexists _, _; split; [exact HB|apply elem_of_cons; by left]).
    wp_step. eapply hm_wp_load; [exact Hr|]. apply wp_ret. destruct (rec_size_ok _ _ _ _ _ Hb Hr) as [-> Hpos].
    unfold stepped, stands. cbn [app]. split_and!; [done|done|done|done|unfold REC_HDR; lia|done|]. by exists [], l, r.
Qed.

Lemma enum_next_spec c B n e p R : buckets_ok c B n -> n <= MAX_RECORDS -> stands c B e p R ->
  wp (enum_next e) c (fun '(data, s, e') c' => c' = c /\ stepped c B R data s e').
Proof.
  intros Hb Hn (Hd & Hpos & Hi & l1 & l2 & r & HB & Hr & Hnx & ->). unfold MAX_RECORDS in Hn.
  pose proof Hb as [Hcap Hl _ Ht Hdom _ _ _ _ _ _]. unfold enum_next. wp_steps. cbn [id].
  destruct (Z.eqb_spec (p_data e) 0) as [|_]; [lia|].
  destruct (Z.eqb_spec (pp_list c) 0) as [|_]; [done|]. cbn [andb negb].
  destruct (tab_slot _ _ _ _ (Z.to_nat (aidx e)) Ht) as (p0 & l & Hp0 & HB' & Hc & _).
  { destruct Ht. rw -tok_lenB0. by eapply lookup_lt_Some. }
  assert (l = l1 ++ p :: l2) as -> by congruence.
  destruct (chain_split _ _ _ _ _ Hc) as (r' & Hr' & Hc2). assert (r' = r) as -> by congruence.
  destruct l2 as [|q l2].
  - simpl in Hc2. rw Hnx Hc2. cbn [negb Z.eqb]. wp_step. eapply wp_mono.
    { replace (aidx e) with (Z.of_nat (Z.to_nat (aidx e))) at 2 by lia. apply (scan_next_spec _ _ c B); [done|].
      apply lookup_lt_Some in HB. destruct Ht. rw u32_small; lia. }
    intros [q i] c' [-> Hs]. cbn [app]. destruct (mjoin _) as [|q' R]; cbn in Hs.
    + rw Hs. cbn [negb Z.eqb]. by apply wp_ret.
    + destruct Hs as (<- & Hq & Hi' & l & HBi & ->). destruct (Z.eqb_spec q 0) as [|_]; [done|]. cbn [negb].
      assert (is_Some (recs c !! q)) as [rq Hrq] by (apply Hdom; eexists _, _; split; [exact HBi|apply elem_of_cons; by left]).
      wp_step. eapply hm_wp_load; [exact Hrq|]. apply wp_ret. destruct (rec_size_ok _ _ _ _ _ Hb Hrq) as [-> ?].
      unfold stepped, stands. cbn [app]. split_and!; [done|done|done|done|unfold REC_HDR; lia|done|]. by exists [], l, rq.
  - destruct Hc2 as (Enx & Hq & rq & Hrq & _). rw Hnx Enx. destruct (Z.eqb_spec q 0) as [|_]; [done|]. cbn [negb].
    wp_step. eapply hm_wp_load; [exact Hrq|]. apply wp_ret. destruct (rec_size_ok _ _ _ _ _ Hb Hrq) as [-> ?].
    unfold stepped, stands. cbn [app]. split_and!; [done|done|done|done|unfold REC_HDR; lia|done|].
    exists (l1 ++ [p]), l2, rq. split_and!; [by rw -app_assoc|done|done|done].
Qed.

Section visit.
Context {X : Type} (pcb : X -> Z -> Z -> X * Z).

(** The callback over a list of records, up to the first MAP_ENUM_BREAK. *)
Fixpoint visit (x : X) (l : list (Z * Z)) : X :=
  match l with
  | [] => x
  | (p, sz) :: l =>
      let '(x, op) := pcb x (p + REC_HDR) sz in if op =? MAP_ENUM_BREAK then x else visit x l
  end.

Lemma enum_loop_spec fuel c B n e data s x R :
  buckets_ok c B n -> n <= MAX_RECORDS -> (forall x d z, (pcb x d z).2 <> MAP_ENUM_DELETE) ->
  stepped c B R data s e -> (length R < fuel)%nat ->
  wp (enum_loop pcb fuel e data (default 0 s) x) c (fun y c' => c' = c /\
    y = visit x ((fun p => (p, rec_size c p)) <$> R)).
Proof.
  intros Hb Hn Hcb. revert R e data s x. induction fuel as [|fuel IH]; intros R e data s x Hs Hf; [lia|].
  cbn [enum_loop]. destruct R as [|q R]; cbn in Hs.
  { rw Hs. by apply wp_ret. }
  destruct Hs as (-> & -> & Hst). pose proof Hst as (_ & Hpos & _).
  destruct (Z.eqb_spec (q + REC_HDR) 0) as [|_]; [lia|]. cbn [default from_option id fmap list_fmap visit].
  destruct (pcb x (q + REC_HDR) (rec_size c q)) as [x' op] eqn:Ecb.
  destruct (Z.eqb_spec op MAP_ENUM_BREAK) as [_|_]; [by apply wp_ret|].
  destruct (Z.eqb_spec op MAP_ENUM_DELETE) as [E|_]; [by pose proof (Hcb x (q + REC_HDR) (rec_size c q)) as H'; rw Ecb in H'|].
  wp_steps. eapply wp_mono; [by eapply enum_next_spec|]. intros [[data' s'] e'] c' [-> Hs'].
  simpl in Hf. assert (default 0 s' = default (rec_size c q) s' \/ R = []) as [<-| ->].
  { destruct R as [|y R]; [by right|]. destruct Hs' as (_ & -> & _). by left. }
  - apply IH; [done|lia].
  - cbn in Hs'. rw Hs'. destruct fuel; [simpl in Hf; lia|]. by apply wp_ret.
Qed.
End visit.

Lemma NoDup_buckets (B : list (list Z)) :
  (forall i l, B !! i = Some l -> NoDup l) ->
  (forall i j li lj p, B !! i = Some li -> B !! j = Some lj -> p ∈ li -> p ∈ lj -> i = j) ->
  NoDup (mjoin B).
Proof.
  induction B as [|l B IH]; intros Hn Hd; [apply NoDup_nil_2|]. cbn. apply NoDup_app. split_and!.
  - by apply (Hn 0%nat).
  - intros p Hp (l' & Hp' & Hl')%list_elem_of_join. apply list_elem_of_lookup in Hl' as [j Hj].
    by specialize (Hd 0%nat (S j) l l' p eq_refl Hj Hp Hp').
  - apply IH.
    + intros i l' Hi. by apply (Hn (S i)).
    + intros i j li lj p Hi Hj Hpi Hpj. by pose proof (Hd (S i) (S j) li lj p Hi Hj Hpi Hpj) as [= E].
Qed.

Lemma buckets_list c B n : buckets_ok c B n ->
  NoDup (mjoin B) /\ forall p, p ∈ mjoin B <-> is_Some (recs c !! p).
Proof.
  intros [_ _ _ Ht Hdom _ _ _ _ _ _]. split.
  - apply NoDup_buckets.
    + intros i l Hi. destruct (tab_slot _ _ _ _ i Ht) as (p0 & l' & _ & Hi' & _ & Hn & _);
        [destruct Ht; rw -tok_lenB0; by eapply lookup_lt_Some|]. congruence.
    + intros i j li lj p. by apply (tab_disjoint _ _ _ _ _ _ _ _ _ Ht).
  - intros p. rw Hdom list_elem_of_join. split.
    + intros (l & Hp & Hl). apply list_elem_of_lookup in Hl as [i Hi]. by exists i, l.
    + intros (i & l & Hi & Hp). exists l. split; [done|]. by eapply list_elem_of_lookup_2.
Qed.

Lemma buckets_count c B n : buckets_ok c B n -> length (mjoin B) = size (recs c).
Proof.
  intros Hb. destruct (buckets_list _ _ _ Hb) as [Hn He].
  rw -(size_dom (recs c)) -(size_list_to_set (C := gset Z) (mjoin B)) //.
  apply set_size_proper. intros p. rw elem_of_list_to_set elem_of_dom. apply He.
Qed.

(** The records of the map, as the callback sees them. *)
Definition listing (m : gmap (list Z) (Z * list Z)) : list (Z * Z) :=
  (fun kv => (kv.2.1, Z.of_nat (length kv.2.2))) <$> map_to_list m.

Lemma buckets_listing c B n m : buckets_ok c B n -> holds (recs c) m ->
  ((fun p => (p, rec_size c p)) <$> mjoin B) ≡ₚ listing m.
Proof.
  intros Hb Hm. destruct (buckets_list _ _ _ Hb) as [Hn He]. destruct Hb as [_ _ _ _ _ _ _ Hdata _ _ _].
  apply NoDup_Permutation.
  - apply NoDup_fmap_2; [|done]. by intros p q [= ->].
  - apply NoDup_fmap_2_strong; [|apply NoDup_map_to_list].
    intros [k [p d]] [k' [p' d']] Hk Hk' [= E _]. cbn in E.
    apply elem_of_map_to_list, Hm in Hk as (r & Hr & <- & Hd).
    apply elem_of_map_to_list, Hm in Hk' as (r' & Hr' & <- & Hd'). subst p'.
    assert (r' = r) as -> by congruence. rw Hd in Hd'. by apply app_inj_tail in Hd' as [-> _].
  - intros [p z]. unfold listing. rw !list_elem_of_fmap. split.
    + intros (q & [= <- ->] & Hq). apply He in Hq as [r Hr].
      destruct (Hdata p r Hr) as (d & Hd & Hs & _). exists (r_key r, (p, d)). split.
      * cbn. unfold rec_size. rw Hr Hs. f_equal. lia.
      * apply elem_of_map_to_list, Hm. by exists r.
    + intros ([k [q d]] & [= -> ->] & Hk). cbn in *. apply elem_of_map_to_list, Hm in Hk as (r & Hr & <- & Hd).
      exists q. split; [|apply He; by eexists]. unfold rec_size. rw Hr.
      destruct (Hdata q r Hr) as (d' & Hd' & -> & _). rw Hd in Hd'. apply app_inj_tail in Hd' as [-> _].
      f_equal. lia.
Qed.

(** Without deletions [map_enum] shows every record once, in some order, up to
    the first MAP_ENUM_BREAK. *)
Lemma map_enum_spec {X} (pcb : X -> Z -> Z -> X * Z) x c m n :
  map_rep c m n -> n <= MAX_RECORDS -> (forall x d z, (pcb x d z).2 <> MAP_ENUM_DELETE) ->
  wp (map_enum pcb x) c (fun y c' => c' = c /\ exists l, l ≡ₚ listing m /\ y = visit pcb x l).
Proof.
  intros ([B Hb] & Hm & _) Hn Hcb. unfold map_enum. wp_steps.
  eapply wp_mono; [by eapply enum_first_spec|]. intros [[data s] e] c' [-> Hs].
  eapply wp_mono.
  { eapply enum_loop_spec; [exact Hb|done|exact Hcb|exact Hs|]. rw (buckets_count _ _ _ Hb). lia. }
  intros y c' [-> ->]. split; [done|]. eexists. split; [|done]. by eapply buckets_listing.
Qed.
End proofs.
