(* ===== verification/MapObject.v ===== *)
(** * The map objects
    (core/mem/map.cpp [cMap], core/repository-2/map.cpp [hash_map])

    Both classes guard the algorithm of HashMap.v with a mutex and install a
    digest callback that runs SHA-1 over a context kept in the object.  The
    theorems compose HashMapProof.v, Sha1.v and Mutex.v: the objects are maps
    keyed by the SHA-1 digest of the key bytes. *)
From S2P Require Import Prelude Memory Mutex Sha1 HashMap HashMapProof.
Set Default Goal Selector "!".

(** [_hash] of both classes; a NULL key has a non-zero size. *)
Definition sha1_hash : hash_fn SHA1Context := fun u data result =>
  let sz := match data with Some d => u32 (Z.of_nat (length d)) | None => 1 end in
  let c := (SHA1Reset (Some u)).2 in
  let c := (SHA1Input c data sz).2 in
  let '(_, c, d) := SHA1Result c true in
  (default result d, default u c).

(** [map_cxt] as [init] sets it, the heap and the SHA-1 context being the
    object's own. *)
Definition fresh_cxt {A} (cap : Z) (a : A) (u : SHA1Context) : map_context A SHA1Context :=
  mkMap A SHA1Context 0 0 cap true true (Some sha1_hash) 0 [] ∅ ∅ a u.

(** ** hash_map *)
Module hash_map.
Section hash_map.
Context {A : Type} `{Allocator A}.
Abbreviation cxt := (map_context A SHA1Context).
Abbreviation OM := (M (mutex * cxt)).
Definition construct (this : Z) (a : A) (u : SHA1Context) : option (mutex * cxt) :=
  (fun r => (mutex_init this, r.2)) <$> map_init (fresh_cxt 127 a u).
Definition destroy (hlock : Z) : OM unit := guarded hlock map_destroy.
Definition add (key : option (list Z)) (data : list Z) (hlock : Z) : OM Z := guarded hlock (map_add key data).
Definition set (key : option (list Z)) (data : list Z) (hlock : Z) : OM Z := guarded hlock (map_set key data).
Definition get (key : option (list Z)) (hlock : Z) : OM (Z * option Z) := guarded hlock (map_get key).
Definition del (key : option (list Z)) (hlock : Z) : OM unit := guarded hlock (map_del key).
Definition clr (hlock : Z) : OM unit := guarded hlock map_clr.
(** [enm] does not take the lock. *)
Definition enm {X} (cb : X -> Z -> Z -> X * Z) (udata : X) (hlock : Z) : OM X := on_obj (map_enum cb udata).
End hash_map.
End hash_map.

(** ** cMap *)
Module cMap.
(** [m_is_init] and the context. *)
Record t {A : Type} := mk { is_init : bool; map_cxt : map_context A SHA1Context }.
Arguments t : clear implicits.

Section cMap.
Context {A : Type} `{Allocator A}.
Abbreviation cxt := (map_context A SHA1Context).
Abbreviation OM := (M (mutex * t A)).
Definition on_cxt {R} (m : M cxt R) : M (t A) R := fun s =>
  match m (map_cxt s) with Some (r, c) => Some (r, mk A (is_init s) c) | None => None end.
(** [assert(m_is_init)], then the call between [lock] and [unlock]. *)
Definition checked {R} (hlock : Z) (m : M cxt R) : OM R := fun s =>
  if is_init s.2 then guarded hlock (on_cxt m) s else None.

Definition init (cap : Z) : OM bool := on_obj (fun s =>
  match map_init (fresh_cxt cap (mem (map_cxt s)) (udata (map_cxt s))) with
  | Some (r, c) => Some (r =? 1, mk A (if r =? 1 then true else is_init s) c)
  | None => None
  end).
Definition uninit : OM unit := on_obj (on_cxt map_destroy).
Definition add (key : option (list Z)) (data : list Z) (hlock : Z) : OM Z := checked hlock (map_add key data).
Definition set (key : option (list Z)) (data : list Z) (hlock : Z) : OM Z := checked hlock (map_set key data).
Definition del (key : option (list Z)) (hlock : Z) : OM unit := checked hlock (map_del key).
Definition cnt : OM Z := on_obj (on_cxt (gets records)).
Definition get (key : option (list Z)) (hlock : Z) : OM (Z * option Z) := checked hlock (map_get key).
Definition clr (hlock : Z) : OM unit := checked hlock map_clr.
Definition enum_open : OM Z := fun s => if is_init s.2 then on_obj (on_cxt map_enum_open) s else None.
Definition enum_close (en : Z) : OM unit := on_obj (on_cxt (map_enum_close en)).
Definition enum_first (en hlock : Z) : OM (Z * option Z) := guarded hlock (on_cxt (map_enum_first en)).
Definition enum_next (en hlock : Z) : OM (Z * option Z) := guarded hlock (on_cxt (map_enum_next en)).
Definition enum_del (en hlock : Z) : OM unit := guarded hlock (on_cxt (map_enum_del en)).
Definition enumerate {X} (pcb : X -> Z -> Z -> X * Z) (udata : X) (hlock : Z) : OM X :=
  guarded hlock (on_cxt (map_enum pcb udata)).
(** Capacity, count, collisions. *)
Definition status : OM (Z * Z * Z) :=
  on_obj (on_cxt (gets (fun c => (capacity c, records c, collisions c)))).
End cMap.
End cMap.

(** ** Programs of calls *)
Inductive map_cmd :=
| CAdd (key data : list Z) | CSet (key data : list Z) | CGet (key : list Z) | CDel (key : list Z) | CClr | CCnt.

Inductive map_ans := AnsPtr (p : Z) | AnsData (p : Z) (sz : option Z) | AnsNone | AnsCnt (n : Z).

Section programs.
Context {A : Type} `{Allocator A}.

Definition cmap_call (cmd : map_cmd) (h : Z) : M (mutex * cMap.t A) map_ans :=
  match cmd with
  | CAdd k d => r ← cMap.add (Some k) d h; mret (AnsPtr r)
  | CSet k d => r ← cMap.set (Some k) d h; mret (AnsPtr r)
  | CGet k => '(p, sz) ← cMap.get (Some k) h; mret (AnsData p sz)
  | CDel k => cMap.del (Some k) h;; mret AnsNone
  | CClr => cMap.clr h;; mret AnsNone
  | CCnt => n ← cMap.cnt; mret (AnsCnt n)
  end.

Fixpoint cmap_run (cmds : list map_cmd) (h : Z) : M (mutex * cMap.t A) (list map_ans) :=
  match cmds with
  | [] => mret []
  | cmd :: cmds => a ← cmap_call cmd h; l ← cmap_run cmds h; mret (a :: l)
  end.
End programs.

(** The finite map that the calls mean: one step with its answer. *)
Definition map_step (m : gmap (list Z) (Z * list Z)) (cmd : map_cmd) (ans : map_ans)
    (m' : gmap (list Z) (Z * list Z)) : Prop :=
  match cmd with
  | CAdd k d => exists r, ans = AnsPtr r /\ add_post m (sha1_spec k) d r m'
  | CSet k d => exists r, ans = AnsPtr r /\ add_post (delete (sha1_spec k) m) (sha1_spec k) d r m'
  | CGet k => m' = m /\ ans = match m !! sha1_spec k with
                              | Some (p, d) => AnsData (p + REC_HDR) (Some (Z.of_nat (length d)))
                              | None => AnsData 0 None
                              end
  | CDel k => ans = AnsNone /\ m' = delete (sha1_spec k) m
  | CClr => ans = AnsNone /\ m' = ∅
  | CCnt => m' = m /\ ans = AnsCnt (Z.of_nat (size m))
  end.

Inductive map_steps : gmap (list Z) (Z * list Z) -> list map_cmd -> list map_ans ->
    gmap (list Z) (Z * list Z) -> Prop :=
| steps_nil m : map_steps m [] [] m
| steps_cons m cmd ans m1 cmds l m2 :
    map_step m cmd ans m1 -> map_steps m1 cmds l m2 -> map_steps m (cmd :: cmds) (ans :: l) m2.

(** Keys are byte strings that are not empty, data fits a 32-bit size. *)
Definition sha_key (k : list Z) : Prop := all_bytes k /\ Z.of_nat (length k) < 2 ^ 32.
Definition cmd_ok (cmd : map_cmd) : Prop :=
  match cmd with
  | CAdd k d | CSet k d => key_valid sha_key k /\ data_fits d
  | CGet k | CDel k => key_valid sha_key k
  | CClr | CCnt => True
  end.

(** ** SHA-1 as the digest of the map *)
Definition sha_ok (u : SHA1Context) : Prop := length (Message_Block u) = 64%nat.

Lemma sha1_hash_law : hash_law sha1_spec sha_key sha_ok (Some sha1_hash).
Proof.
  intros u key Hu [Hb Hl]. unfold sha1_hash. rw u32_small; [|lia]. cbn [snd SHA1Reset].
  destruct (input_absorbed _ [] key (absorbed_reset u _ Hu eq_refl)) as (c1 & -> & Ha); [done|cbn [app]; lia|].
  cbn [snd app] in *. destruct (result_absorbed c1 key Ha Hb) as (c2 & -> & _ & H2); [lia|]. by exists c2.
Qed.

Section proofs.
Context {A : Type} `{AL : AllocatorLaws A} (ext : Z -> Prop).
Abbreviation rep := (map_rep sha1_spec sha_key sha_ok ext ∅).

Definition cmap_rep (x : cMap.t A) (m : gmap (list Z) (Z * list Z)) (n : Z) : Prop :=
  cMap.is_init x = true /\ rep (cMap.map_cxt x) m n.

Lemma wp_checked {R} h (m : M (map_context A SHA1Context) R) mu x (Q : R -> mutex * cMap.t A -> Prop) :
  cMap.is_init x = true -> may_lock (Some mu) h ->
  wp m (cMap.map_cxt x) (fun r c => forall mu', lock_post h (Some mu) (Some mu') -> Q r (mu', cMap.mk A true c)) ->
  wp (cMap.checked h m) (mu, x) Q.
Proof.
  intros Hi Hl Hm. unfold cMap.checked, wp at 1. cbn [snd]. rw Hi.
  change (wp (guarded h (cMap.on_cxt m)) (mu, x) Q). apply wp_guarded; [done|].
  unfold wp, cMap.on_cxt in *. destruct (m (cMap.map_cxt x)) as [[r c]|]; [|done]. by rw Hi.
Qed.

(** One call: the object takes the step of the map and gives the lock back. *)
Lemma cmap_call_spec cmd h mu x m n :
  cmap_rep x m n -> may_lock (Some mu) h -> cmd_ok cmd -> 0 <= n -> n + 1 < MAX_RECORDS ->
  wp (cmap_call cmd h) (mu, x) (fun a s => exists m',
    map_step m cmd a m' /\ cmap_rep s.2 m' (n + 1) /\ lock_post h (Some mu) (Some s.1)).
Proof.
  intros [Hi Hr] Hl Hok H0 Hn.
  assert (forall c m', rep c m' n -> rep c m' (n + 1)) as Hg.
  { intros c m' ([B Hb] & ? & ?). split; [|done]. exists B. eapply buckets_grow, Hb. lia. }
  destruct cmd as [k d|k d|k|k| |]; cbn [cmap_call cmd_ok] in *; wp_step.
  - destruct Hok as [Hk Hd]. eapply wp_checked; [done|done|].
    eapply wp_mono; [by eapply map_add_spec|]. intros r c (m' & Hrep & Hpost) mu' Hmu. apply wp_ret.
    exists m'. split_and!; [by exists r|done|done].
  - destruct Hok as [Hk Hd]. eapply wp_checked; [done|done|].
    eapply wp_mono; [by eapply map_set_spec|]. intros r c (m' & Hrep & Hpost) mu' Hmu. apply wp_ret.
    exists m'. split_and!; [by exists r|done|done].
  - eapply wp_checked; [done|done|]. eapply wp_mono; [eapply map_get_spec; [exact Hr|lia|done]|].
    intros [p sz] c (Hrep & Hpost) mu' Hmu. apply wp_ret. exists m. split_and!; [|by split; [|apply Hg]|done].
    split; [done|]. destruct (m !! sha1_spec k) as [[q d]|].
    + by destruct Hpost as (_ & [= -> ->]).
    + by injection Hpost as -> ->.
  - eapply wp_checked; [done|done|]. eapply wp_mono; [eapply map_del_spec; [exact Hr|lia|done]|].
    intros ? c Hrep mu' Hmu. apply wp_ret. eexists. split_and!; [done|by split; [|apply Hg]|done].
  - eapply wp_checked; [done|done|]. eapply wp_mono; [by eapply map_clr_spec|].
    intros ? c (Hrep & _) mu' Hmu. apply wp_ret. eexists. split_and!; [done|by split; [|apply Hg]|done].
  - apply wp_on_obj. unfold wp, cMap.on_cxt, gets. apply wp_ret. exists m. cbn [fst snd].
    destruct Hr as ([B Hb] & Hm & Hsz). split_and!.
    + split; [done|]. apply bo_count in Hb as [-> _]. by rw Hsz.
    + split; [done|]. apply Hg. split; [by exists B|done].
    + by apply lock_post_refl.
Qed.

Lemma cmap_run_spec cmds h mu x m n :
  cmap_rep x m n -> may_lock (Some mu) h -> Forall cmd_ok cmds -> 0 <= n ->
  n + Z.of_nat (length cmds) < MAX_RECORDS ->
  wp (cmap_run cmds h) (mu, x) (fun l s => exists m' n',
    map_steps m cmds l m' /\ cmap_rep s.2 m' n' /\ n' < MAX_RECORDS /\ lock_post h (Some mu) (Some s.1)).
Proof.
  revert mu x m n. induction cmds as [|cmd cmds IH]; intros mu x m n Hr Hl Hok H0 Hn; cbn [cmap_run].
  - apply wp_ret. exists m, n. split_and!; [apply steps_nil|done|simpl in Hn; lia|by apply lock_post_refl].
  - apply Forall_cons in Hok as [Hc Hok]. rw length_cons in Hn. wp_step.
    eapply wp_mono; [apply (cmap_call_spec cmd h mu x m n); [done..|lia]|].
    intros a [mu1 x1] (m1 & Hs & Hr1 & Hp1). cbn [fst snd] in *. wp_step.
    eapply wp_mono; [apply (IH mu1 x1 m1 (n + 1)); [done|by destruct Hp1|done|lia|lia]|].
    intros l [mu2 x2] (m2 & n2 & Hs2 & Hr2 & Hn2 & Hp2). apply wp_ret. exists m2, n2.
    split_and!; [by eapply steps_cons|done|done|]. by eapply lock_post_trans.
Qed.

(** A constructed object: nothing is allocated yet. *)
Definition cmap_raw (x : cMap.t A) : Prop :=
  a_ok (mem (cMap.map_cxt x)) /\ sha_ok (udata (cMap.map_cxt x)) /\
  forall p k, a_live (mem (cMap.map_cxt x)) !! p = Some k -> ext p.

Lemma cmap_init_spec cap mu x :
  cmap_raw x -> 0 < cap <= MAX_RECORDS ->
  wp (cMap.init cap) (mu, x) (fun ok s => s.1 = mu /\ (ok = true -> cmap_rep s.2 ∅ cap)).
Proof.
  intros (Ho & Hu & Hext) Hcap. apply wp_on_obj. unfold wp.
  destruct (map_init _) as [[r c]|] eqn:E.
  - assert (wp map_init (fresh_cxt cap (mem (cMap.map_cxt x)) (udata (cMap.map_cxt x))) (fun r' c' => r' = r /\ c' = c)) as Hwp.
    { unfold wp. by rw E. }
    pose proof (map_init_spec sha1_spec sha_key sha_ok ext ∅ (fresh_cxt cap (mem (cMap.map_cxt x)) (udata (cMap.map_cxt x)))) as Hs.
    unfold wp in Hs. rw E in Hs. split; [done|]. intros ->%Z.eqb_eq. cbn [snd]. rw Z.eqb_refl. split; [done|].
    destruct Hs as [[_ ?]|[? _]]; [|done|done|done].
    split_and!; try done. exact sha1_hash_law.
  - pose proof (map_init_spec sha1_spec sha_key sha_ok ext ∅ (fresh_cxt cap (mem (cMap.map_cxt x)) (udata (cMap.map_cxt x)))) as Hs.
    unfold wp in Hs. rw E in Hs. apply Hs; [|done]. split_and!; try done. exact sha1_hash_law.
Qed.

Lemma cmap_uninit_spec mu x m n : cmap_rep x m n ->
  wp cMap.uninit (mu, x) (fun _ s => a_ok (mem (cMap.map_cxt s.2)) /\
    forall p k, a_live (mem (cMap.map_cxt s.2)) !! p = Some k -> ext p).
Proof.
  intros [_ Hr]. assert (enums (cMap.map_cxt x) = ∅) as He by (destruct Hr as [[B Hb] _]; by apply bo_enums in Hb).
  apply wp_on_obj. pose proof (map_destroy_spec _ _ _ _ _ _ _ _ Hr) as Hd.
  unfold wp, cMap.on_cxt in *. destruct (map_destroy (cMap.map_cxt x)) as [[r c]|]; [|done]. cbn [snd cMap.map_cxt].
  destruct Hd as (_ & _ & _ & _ & _ & Ho & Hl). split; [done|]. intros p k Hp.
  destruct (Hl p k Hp) as [Hs|?]; [|done]. rw He lookup_empty in Hs. by destruct Hs.
Qed.
End proofs.

(** ** The properties *)
Section theorems.
Context {A : Type} `{AL : AllocatorLaws A}.

(** C2: cMap implements a finite map keyed by the SHA-1 digest of the key.
    After an [init] that returned true, any program of [add], [set], [get],
    [del], [clr] and [cnt] calls with non-empty keys is defined and returns, and
    the answers are those of the finite map: [add] keeps an existing record,
    [set] replaces it, an allocation that fails leaves [add]'s map as it was,
    [get] returns the record's pointer and size.  The table grows under the
    program; the lock is given back. *)
Theorem cmap_refinement cap cmds h mu (x : cMap.t A) :
  a_ok (mem (cMap.map_cxt x)) -> sha_ok (udata (cMap.map_cxt x)) -> may_lock (Some mu) h ->
  0 < cap -> Forall cmd_ok cmds -> cap + Z.of_nat (length cmds) < MAX_RECORDS ->
  wp (cMap.init cap) (mu, x) (fun ok s => ok = true ->
    wp (cmap_run cmds h) s (fun l s' => exists m,
      map_steps ∅ cmds l m /\ lock_post h (Some mu) (Some s'.1))).
Proof.
  intros Ho Hu Hl Hcap Hok Hn.
  eapply wp_mono; [apply (cmap_init_spec (fun _ => True)); [by split_and!|lia]|].
  intros ok [mu' x'] [E Hi] ->. cbn [fst snd] in *. subst mu'.
  eapply wp_mono; [eapply cmap_run_spec; [by apply Hi|done|done|lia|done]|].
  intros l s (m & n & Hs & _ & _ & Hp). by exists m.
Qed.

(** C36: cMap does not leak.  Whatever the calls between [init] and [uninit],
    allocations that fail included, afterwards only the blocks that were live
    before are live. *)
Theorem cmap_no_leak cap cmds h mu (x : cMap.t A) :
  a_ok (mem (cMap.map_cxt x)) -> sha_ok (udata (cMap.map_cxt x)) -> may_lock (Some mu) h ->
  0 < cap -> Forall cmd_ok cmds -> cap + Z.of_nat (length cmds) < MAX_RECORDS ->
  wp (cMap.init cap) (mu, x) (fun ok s => ok = true ->
    wp (cmap_run cmds h;; cMap.uninit) s (fun _ s' =>
      forall p, is_Some (a_live (mem (cMap.map_cxt s'.2)) !! p) ->
        is_Some (a_live (mem (cMap.map_cxt x)) !! p))).
Proof.
  intros Ho Hu Hl Hcap Hok Hn. set (ext := fun p => is_Some (a_live (mem (cMap.map_cxt x)) !! p)).
  eapply wp_mono; [apply (cmap_init_spec ext); [|lia]|].
  { split_and!; [done|done|]. intros p k Hp. by exists k. }
  intros ok [mu' x'] [E Hi] ->. cbn [fst snd] in *. subst mu'. wp_step.
  eapply wp_mono; [eapply cmap_run_spec; [by apply Hi|done|done|lia|done]|].
  intros l [mu2 x2] (m & n & _ & Hr & _ & _). eapply wp_mono; [by eapply cmap_uninit_spec|].
  intros _ s [_ Hlv] p [k Hk]. by eapply Hlv.
Qed.

(** C37: [enumerate] with a callback that does not delete shows every record of
    the map exactly once, with its size, up to the first MAP_ENUM_BREAK, and
    leaves the map as it was. *)
Theorem cmap_enumerate {X} (pcb : X -> Z -> Z -> X * Z) (u : X) ext h mu (x : cMap.t A) m n :
  cmap_rep ext x m n -> n <= MAX_RECORDS -> may_lock (Some mu) h ->
  (forall u d z, (pcb u d z).2 <> MAP_ENUM_DELETE) ->
  wp (cMap.enumerate pcb u h) (mu, x) (fun r s => s.2 = x /\ lock_post h (Some mu) (Some s.1) /\
    exists l, l ≡ₚ listing m /\ r = visit pcb u l).
Proof.
  intros [Hi Hr] Hn Hl Hcb. apply wp_guarded; [done|].
  pose proof (map_enum_spec _ _ _ _ _ pcb u _ _ _ Hr Hn Hcb) as Hw. unfold wp, cMap.on_cxt in *.
  destruct (map_enum pcb u (cMap.map_cxt x)) as [[r c]|]; [|done]. destruct Hw as [-> Hl'].
  intros mu' Hmu. split_and!; [by destruct x|done|done].
Qed.
End theorems.

(** ** Examples on the bump allocator *)
Definition demo_mutex : mutex := mutex_init 4096.
Definition demo_map (b : nat) : cMap.t Bump.t :=
  cMap.mk Bump.t false (fresh_cxt 0 (Bump.empty 65536 b) zero_context).

Lemma demo_lock : may_lock (Some demo_mutex) 0.
Proof. split; [|done]. split_and!; cbn; try (unfold is_u32; lia); done. Qed.

Lemma demo_heap b : a_ok (mem (cMap.map_cxt (demo_map b))).
Proof. split; [done|]. intros p k. by rw lookup_empty. Qed.

Definition demo_cmds : list map_cmd :=
  [CAdd [97] [1; 2]; CAdd [97] [3]; CSet [98] [4; 5; 6]; CGet [97]; CDel [97]; CGet [97]; CCnt].

Lemma demo_cmds_ok : Forall cmd_ok demo_cmds.
Proof. repeat constructor; cbn; unfold is_byte, data_fits, REC_HDR; cbn; (lia || congruence || done). Qed.

Lemma cmap_refinement_witness :
  wp (cMap.init 1) (demo_mutex, demo_map 8) (fun ok s => ok = true ->
    wp (cmap_run demo_cmds 0) s (fun l s' => exists m,
      map_steps ∅ demo_cmds l m /\ lock_post 0 (Some demo_mutex) (Some s'.1))).
Proof.
  apply (cmap_refinement 1 demo_cmds 0 demo_mutex (demo_map 8));
    [apply demo_heap|reflexivity|exact demo_lock|lia|exact demo_cmds_ok|reflexivity].
Defined.

Lemma cmap_no_leak_witness :
  wp (cMap.init 1) (demo_mutex, demo_map 3) (fun ok s => ok = true ->
    wp (cmap_run demo_cmds 0;; cMap.uninit) s (fun _ s' =>
      forall p, is_Some (a_live (mem (cMap.map_cxt s'.2)) !! p) ->
        is_Some (a_live (mem (cMap.map_cxt (demo_map 3))) !! p))).
Proof.
  apply (cmap_no_leak 1 demo_cmds 0 demo_mutex (demo_map 3));
    [apply demo_heap|reflexivity|exact demo_lock|lia|exact demo_cmds_ok|reflexivity].
Defined.

(** A map of two records. *)
Definition two_records : list map_cmd := [CAdd [97] [1; 2]; CAdd [98] [3]; CCnt].

Lemma two_records_run :
  match cMap.init 1 (demo_mutex, demo_map 8) with
  | Some (ok, s) => ok = true /\ (fun r => last r.1) <$> cmap_run two_records 0 s = Some (Some (AnsCnt 2))
  | None => False
  end.
Proof. vm_compute. split; reflexivity. Qed.

Lemma two_records_made : exists mu x m n, cmap_rep (fun _ => True) x m n /\ n <= MAX_RECORDS /\
  may_lock (Some mu) 0 /\ size m = 2%nat.
Proof.
  assert (Forall cmd_ok two_records) as Hok.
  { repeat constructor; cbn; unfold is_byte, data_fits, REC_HDR; cbn; (lia || congruence || done). }
  pose proof (cmap_init_spec (fun _ => True) 1 demo_mutex (demo_map 8)) as Hi.
  apply wp_run in Hi as (ok & [mu1 x1] & Ei & Emu & Hi);
    [|split_and!; [apply demo_heap|done|done]|unfold MAX_RECORDS; lia].
  cbn [fst snd] in *. subst mu1. pose proof two_records_run as E2. rw Ei in E2. destruct E2 as [-> E2].
  pose proof (cmap_run_spec (fun _ => True) two_records 0 demo_mutex x1 ∅ 1 (Hi eq_refl) demo_lock Hok) as Hr.
  apply wp_run in Hr as (l & [mu x] & Er & m & n & Hs & Hrep & Hn & [Hl _]); [|lia|reflexivity].
  rw Er in E2. cbn in E2. injection E2 as E2.
  exists mu, x, m, n. split_and!; [done|lia|done|].
  inversion Hs as [|? ? ? ? ? ? ? _ Hs2]; subst. inversion Hs2 as [|? ? ? ? ? ? ? _ Hs3]; subst.
  inversion Hs3 as [|? ? ? ? ? ? ? Hc Hs4]; subst. inversion Hs4; subst.
  destruct Hc as [-> ->]. cbn in E2. injection E2 as E2. lia.
Qed.

Lemma cmap_enumerate_witness :
  exists mu x m, size m = 2%nat /\
    wp (cMap.enumerate (fun n _ z => (n + z, MAP_ENUM_CONTINUE)) 0 0) (mu, x) (fun r s => s.2 = x /\
      lock_post 0 (Some mu) (Some s.1) /\
      exists l, l ≡ₚ listing m /\ r = visit (fun n _ z => (n + z, MAP_ENUM_CONTINUE)) 0 l).
Proof.
  destruct two_records_made as (mu & x & m & n & Hr & Hn & Hl & Hsz).
  exists mu, x, m. split; [exact Hsz|].
  apply (cmap_enumerate (fun n _ z => (n + z, MAP_ENUM_CONTINUE)) 0 (fun _ => True) 0 mu x m n Hr Hn Hl).
  intros u d z E. discriminate E.
Defined.

(** [hash_map] of the repository is [cMap] without the counter: every
    [add], [set], [get], [del] and [clr] behaves as that of an initialised
    [cMap] on the same context, in its result, its state and where it is
    undefined. *)
Theorem hash_map_is_cmap {A} `{Allocator A} key data h mu c :
  let up {R} (r : option (R * (mutex * map_context A SHA1Context))) :=
    (fun r => (r.1, (r.2.1, cMap.mk A true r.2.2))) <$> r in
  let x := cMap.mk A true c in
  cMap.add key data h (mu, x) = up (hash_map.add key data h (mu, c)) /\
  cMap.set key data h (mu, x) = up (hash_map.set key data h (mu, c)) /\
  cMap.get key h (mu, x) = up (hash_map.get key h (mu, c)) /\
  cMap.del key h (mu, x) = up (hash_map.del key h (mu, c)) /\
  cMap.clr h (mu, x) = up (hash_map.clr h (mu, c)).
Proof.
  assert (forall R (m : M (map_context A SHA1Context) R),
    cMap.checked h m (mu, cMap.mk A true c) =
    (fun r => (r.1, (r.2.1, cMap.mk A true r.2.2))) <$> guarded h m (mu, c)) as Hg.
  { intros R m. unfold cMap.checked, guarded, mbind, M_bind, lock_obj, on_obj, unlock_obj, cMap.on_cxt. cbn.
    destruct (lock h mu) as [[hm mu1]|]; [|done]. cbn. destruct (m c) as [[r c1]|]; [|done]. cbn.
    by destruct (unlock hm mu1) as [[[] mu2]|]. }
  cbn zeta. split_and!; apply Hg.
Qed.

(** deleting from a callback is broken.  With three records in three
    buckets, a callback that answers MAP_ENUM_DELETE each time is called once:
    [map_enum_del] leaves no current record and the enumeration stops, with two
    records still in the map. *)
Example enum_delete_stops :
  let unload n (_ _ : Z) := (n + 1, MAP_ENUM_DELETE) in
  (ok ← cMap.init 127; l ← cmap_run [CAdd [1] []; CAdd [2] []; CAdd [3] []] 0;
   calls ← cMap.enumerate unload 0 0; left ← cMap.cnt; mret (calls, left))
    (demo_mutex, demo_map 9) ≫= (fun r => Some r.1) = Some (1, 2).
Proof. vm_compute. reflexivity. Qed.

(** a key of size 0 is stored but never found.  The second [set] of such a
    key, and the second [add], allocate a record, see the digest in the chain
    and free the record with one byte less than was allocated, which the heap's
    contract leaves undefined. *)
Example empty_key_twice :
  let run cmds := (ok ← cMap.init 127; l ← cmap_run cmds 0; mret l) (demo_mutex, demo_map 9) ≫= (fun r => Some r.1) in
  run [CSet [] [7]; CGet []] = Some [AnsPtr 66584; AnsData 0 None] /\
  run [CSet [] [7]; CSet [] [8]] = None /\
  run [CAdd [] [7]; CAdd [] [7]] = None.
Proof. vm_compute. split_and!; reflexivity. Qed.
