(* ===== verification/MapRefusal.v ===== *)
(** * Hash map: refused allocations (core/mem/map_alg.c, core/mem/map.cpp)

    An operation of the map answers 0 only when the heap refused it a block.
    [refused] counts the refusals of a map whose heap is [tracked]; the rules of
    [rising] go through the operations that may ask the heap for a table without
    telling the caller. *)
From S2P Require Import Prelude Memory Mutex Sha1 HashMap HashMapProof MapObject.
Set Default Goal Selector "!".

Section refusal.
Context {A U : Type} `{Allocator A}.
Abbreviation mcxt := (map_context (tracked A) U).
Abbreviation TM := (M mcxt).
Definition refused_of (c : mcxt) : Z := refusals (mem c).
(** The count does not fall. *)
Definition rising {R} (m : TM R) : Prop := forall c, wlp m c (fun _ c' => refused_of c <= refused_of c').

Lemma rising_ret {R} (r : R) : rising (mret r).
Proof. intros c. apply wlp_ret. lia. Qed.
Lemma rising_bind {R T} (m : TM R) (f : R -> TM T) : rising m -> (forall r, rising (f r)) -> rising (m ≫= f).
Proof. intros Hm Hf c. apply wlp_bind. eapply wlp_mono; [apply Hm|]. cbn. intros r c1 E1. eapply wlp_mono; [apply Hf|]. cbn. intros t c2 E2. lia. Qed.
Lemma rising_undefined {R} : rising (undefined : TM R).
Proof. intros c. apply wlp_undefined. Qed.
Lemma rising_gets {R} (f : mcxt -> R) : rising (gets f).
Proof. intros c. apply wlp_gets, Z.le_refl. Qed.
Lemma rising_lift {R} (o : option R) : rising (lift_opt o : TM R).
Proof. intros c. apply wlp_lift_opt. intros r _. apply Z.le_refl. Qed.
Lemma rising_modify f : (forall c : mcxt, refused_of (f c) = refused_of c) -> rising (modify f).
Proof. intros Hf c. unfold wlp, modify. cbn. rw Hf. apply Z.le_refl. Qed.
Lemma rising_when b (m : TM unit) : rising m -> rising (when b m).
Proof. intros Hm. destruct b; [done|apply rising_ret]. Qed.

(** *** Memory accesses *)
Lemma rising_load p : rising (load p : TM _).
Proof. intros c. unfold wlp, load. destruct (recs c !! p); [apply Z.le_refl|done]. Qed.
Lemma rising_store p f : rising (store p f : TM _).
Proof. intros c. unfold wlp, store. destruct (recs c !! p); [apply Z.le_refl|done]. Qed.
Lemma rising_set_slot i p : rising (set_slot i p : TM _).
Proof. intros c. unfold wlp, set_slot. destruct (_ <? _)%nat; [apply Z.le_refl|done]. Qed.
Lemma alloc_counts n (c : mcxt) : wlp (alloc n) c (fun p c' => refused_of c' = refused_of c + (if p =? 0 then 1 else 0) /\ c' = set_mem (mem c') c).
Proof. unfold wlp, alloc, refused_of. cbn. destruct (a_alloc (t_base (mem c)) n) as [p b]. by cbn. Qed.
Lemma rising_alloc n : rising (alloc n : TM _).
Proof. intros c. eapply wlp_mono; [apply alloc_counts|]. cbn. intros p c' [-> _]. destruct (p =? 0); lia. Qed.
Lemma rising_release p n : rising (release p n : TM _).
Proof. intros c. unfold wlp, release. case_decide; [apply Z.le_refl|done]. Qed.
Lemma rising_counts f : rising (put_counts f : TM _).
Proof. apply rising_modify. intros c. by destruct (f _ _). Qed.
Lemma rising_hash key : rising (hash_key key : TM _).
Proof. intros c. unfold wlp, hash_key. destruct (pf_hash c) as [g|]; [destruct (g _ _ _); apply Z.le_refl|destruct key; [apply Z.le_refl|done]]. Qed.
End refusal.

Create HintDb rising discriminated.
#[export] Hint Resolve rising_ret rising_undefined rising_gets rising_lift rising_load rising_store rising_set_slot rising_alloc rising_release
  rising_counts rising_hash : rising.
Ltac rise :=
  repeat first
    [ progress intros
    | solve [auto with rising nocore]
    | apply rising_bind
    | apply rising_when
    | apply rising_modify; intros; reflexivity
    | match goal with
      | |- rising (if ?b then _ else _) => destruct b
      | |- rising (match ?x with _ => _ end) => destruct x
      | |- rising (let _ := _ in _) => cbv zeta
      end ].

Section operations.
Context {A U : Type} `{Allocator A}.
Abbreviation mcxt := (map_context (tracked A) U).
Abbreviation TM := (M mcxt).
Lemma rising_get_slot i : rising (get_slot i : TM _).
Proof. unfold get_slot, slot. rise. Qed.
Lemma rising_slot t i : rising (slot t i : TM _).
Proof. unfold slot. rise. Qed.
Lemma rising_call_free p n : rising (call_free p n : TM _).
Proof. unfold call_free. rise. Qed.
Lemma rising_fuel : rising (fuel_of : TM _).
Proof. unfold fuel_of. rise. Qed.
Hint Resolve rising_get_slot rising_slot rising_call_free rising_fuel : rising.
Lemma rising_free_record p n : rising (free_record p n : TM _).
Proof. unfold free_record. rise. Qed.
Lemma rising_chain_end fuel : forall key p, rising (chain_end fuel key p : TM _).
Proof. induction fuel as [|fuel IH]; intros key p; cbn [chain_end]; rise. Qed.
Lemma rising_find fuel : forall key r prev, rising (find_loop fuel key r prev : TM _).
Proof. induction fuel as [|fuel IH]; intros key r prev; cbn [find_loop]; rise. Qed.
Hint Resolve rising_free_record rising_chain_end rising_find : rising.
Lemma rising_add_record p t cap coll : rising (add_record p t cap coll : TM _).
Proof. unfold add_record. rise. Qed.
Hint Resolve rising_add_record : rising.
Lemma rising_rehash_chain fuel : forall p t cap coll, rising (rehash_chain fuel p t cap coll : TM _).
Proof. induction fuel as [|fuel IH]; intros p t cap coll; cbn [rehash_chain]; rise. Qed.
Hint Resolve rising_rehash_chain : rising.
Lemma rising_rehash n : forall i t cap coll, rising (rehash_loop n i t cap coll : TM _).
Proof. induction n as [|n IH]; intros i t cap coll; cbn [rehash_loop]; rise. Qed.
Lemma rising_clear sz cap : rising (clear_table sz cap : TM _).
Proof. unfold clear_table. rise. Qed.
Hint Resolve rising_rehash rising_clear : rising.
Lemma rising_remap : rising (remap : TM _).
Proof. unfold remap. rise. Qed.
Hint Resolve rising_remap : rising.
Lemma rising_link p sz : rising (link_record p sz : TM _).
Proof. unfold link_record. rise. Qed.
Lemma rising_get_record key : rising (get_record key : TM _).
Proof. unfold get_record. rise. Qed.
Hint Resolve rising_get_record : rising.
Lemma rising_get key : rising (map_get key : TM _).
Proof. unfold map_get. rise. Qed.
Lemma rising_del key : rising (map_del key : TM _).
Proof. unfold map_del. rise. Qed.
Lemma rising_free_chain fuel : forall p, rising (free_chain fuel p : TM _).
Proof. induction fuel as [|fuel IH]; intros p; cbn [free_chain]; rise. Qed.
Hint Resolve rising_free_chain : rising.
Lemma rising_clr_loop n : forall i, rising (clr_loop n i : TM _).
Proof. induction n as [|n IH]; intros i; cbn [clr_loop]; rise. Qed.
Hint Resolve rising_clr_loop : rising.
Lemma rising_clr : rising (map_clr : TM _).
Proof. unfold map_clr. rise. Qed.
End operations.
#[export] Hint Resolve rising_link rising_get_record rising_get rising_del rising_clr : rising.

(** ** An answer of 0 is a refusal *)
Section answers.
Context {A : Type} `{AL : AllocatorLaws A} (ext : Z -> Prop).
Abbreviation mcxt := (map_context (tracked A) SHA1Context).
Abbreviation rep := (map_rep sha1_spec sha_key sha_ok ext ∅).
Definition no_room (r : Z) : Z := if r =? 0 then 1 else 0.

Lemma wp_rising {R} (m : M mcxt R) c k (Q : R -> mcxt -> Prop) : rising m -> k <= refused_of c -> wp m c Q ->
  wp m c (fun r c' => k <= refused_of c' /\ Q r c').
Proof. intros Hm Hk Hw. eapply wp_mono; [apply (wp_wlp_and _ _ _ _ Hw (Hm c))|]. intros r c' [HQ Hc]. cbn in Hc. split; [lia|done]. Qed.
Lemma alloc_record_counts hk d (c : mcxt) : pf_mem_alloc c = true -> pf_mem_free c = true ->
  wlp (alloc_record hk d) c (fun p c' => refused_of c' = refused_of c + no_room p).
Proof.
  intros Ha Hf. unfold alloc_record. apply wlp_bind, wlp_gets. cbn [id]. rw Ha Hf. cbn [andb]. apply wlp_bind. eapply wlp_mono; [apply alloc_counts|].
  intros p c' [E _]. unfold no_room. destruct (p =? 0) eqn:Ep; cbn [negb]; [apply wlp_ret; by rw E|]. destruct (_ <=? _); [|apply wlp_undefined].
  apply wlp_bind. unfold wlp at 1, modify. apply wlp_ret. rw Ep. unfold refused_of in *. cbn. exact E.
Qed.
(** Storing a record of a new key in a context that has refused [k] requests. *)
Lemma store_refused k c B n hk data : buckets_ok sha1_spec sha_key sha_ok ext ∅ c B n -> absent (recs c) hk -> n + 1 < MAX_RECORDS -> data_fits data -> k <= refused_of c ->
  wp (p ← alloc_record hk data; if negb (p =? 0) then link_record p (u32 (Z.of_nat (length data))) else mret 0) c
    (fun r c' => k + no_room r <= refused_of c').
Proof.
  intros Hb Hab Hn Hd Hk. apply wp_bind. eapply wp_mono.
  { eapply wp_wlp_and; [by eapply alloc_record_spec|]. apply alloc_record_counts; apply Hb. }
  intros p c1 [[(-> & _ & _)|Hfr] E]; [apply wp_ret; cbn in *; lia|]. assert (0 < p) as Hp by (by destruct Hfr as (? & _ & ? & _)).
  unfold no_room in E. destruct (Z.eqb_spec p 0) as [|_]; [lia|]. cbn [negb]. eapply wp_mono; [apply (wp_rising _ _ k); [apply rising_link|lia|by eapply link_record_spec]|].
  intros r c2 (Hc & -> & _). unfold no_room. destruct (Z.eqb_spec (p + REC_HDR) 0); [unfold REC_HDR in *; lia|lia].
Qed.
Lemma map_add_refused key data c m n : rep c m n -> n + 1 < MAX_RECORDS -> key_valid sha_key key -> data_fits data ->
  wp (map_add (Some key) data) c (fun r c' => refused_of c + no_room r <= refused_of c').
Proof.
  intros ([B Hb] & Hm & _) Hn [Hk Hne] Hd. unfold map_add. apply wp_bind.
  eapply wp_mono; [apply (wp_rising _ _ (refused_of c)); [apply rising_get_record|done|eapply get_record_spec; [exact Hb|lia|done|done]]|].
  intros [[[r hk] i] prev] c' (Hc & -> & (u & Hu & ->) & Hloc). destruct (Z.eqb_spec r 0) as [->|Hr]; cbn [negb].
  - eapply store_refused; [by apply buckets_udata|by eapply located_absent|done|done|done].
  - destruct (located_found _ _ _ _ _ _ Hloc Hr) as (l1 & l2 & rec & _ & _ & Hrec & _). apply wp_ret.
    destruct Hb as [_ _ _ _ _ _ _ _ [Ho Hbr _ _ _ _] _ _]. pose proof (live_pos _ _ _ Ho (Hbr r rec Hrec)) as Hp.
    unfold no_room. destruct (Z.eqb_spec (r + REC_HDR) 0); [unfold REC_HDR in *; lia|lia].
Qed.
Lemma map_set_refused key data c m n : rep c m n -> n + 1 < MAX_RECORDS -> key_valid sha_key key -> data_fits data ->
  wp (map_set (Some key) data) c (fun r c' => refused_of c + no_room r <= refused_of c').
Proof.
  intros Hrep Hn Hk Hd. unfold map_set. apply wp_bind.
  eapply wp_mono; [apply (wp_rising _ _ (refused_of c)); [apply rising_del|done|eapply map_del_spec; [exact Hrep|lia|exact Hk]]|].
  intros _ c1 (Hc & [B1 Hb1] & Hm1 & Hsz1). apply wp_bind. eapply wp_mono; [apply (wp_rising _ _ (refused_of c)); [apply rising_hash|done|]|].
  { apply (hash_key_spec _ _ _ _ _ (proj1 (bo_hash _ _ _ _ _ _ _ _ Hb1)) (proj2 (bo_hash _ _ _ _ _ _ _ _ Hb1)) (proj1 Hk)). }
  intros hk c2 (Hc2 & -> & u & Hu & ->). eapply store_refused; [by apply buckets_udata| |done|done|done].
  apply (holds_absent _ (delete (sha1_spec key) m)); [done| |apply lookup_delete_eq]. intros p r Hp.
  destruct (bo_data _ _ _ _ _ _ _ _ Hb1 p r Hp) as (d & Hd' & _). by exists d.
Qed.

(** *** The object *)
Abbreviation tmap := (cMap.t (tracked A)).
Definition refused_by (x : tmap) : Z := refused_of (cMap.map_cxt x).
(** The answer of a call that stores: NULL for a record that was not stored. *)
Definition refusal (a : map_ans) : Z := match a with AnsPtr p => no_room p | _ => 0 end.

Lemma cmap_call_refused cmd h mu (x : tmap) m n : cmap_rep ext x m n -> may_lock (Some mu) h -> cmd_ok cmd -> 0 <= n -> n + 1 < MAX_RECORDS ->
  wp (cmap_call cmd h) (mu, x) (fun a s => refused_by x + refusal a <= refused_by s.2).
Proof.
  intros [Hi Hr] Hl Hok H0 Hn. destruct cmd as [k d|k d|k|k| |]; cbn [cmap_call cmd_ok] in *; apply wp_bind.
  - destruct Hok as [Hk Hd]. eapply wp_checked; [done|done|]. eapply wp_mono; [by eapply map_add_refused|]. intros r c Hc mu' _. by apply wp_ret.
  - destruct Hok as [Hk Hd]. eapply wp_checked; [done|done|]. eapply wp_mono; [by eapply map_set_refused|]. intros r c Hc mu' _. by apply wp_ret.
  - eapply wp_checked; [done|done|]. eapply wp_mono; [apply (wp_rising _ _ (refused_by x)); [apply rising_get|done|eapply map_get_spec; [exact Hr|lia|done]]|].
    intros [p sz] c [Hc _] mu' _. apply wp_ret. cbn. unfold refused_by in *. cbn. lia.
  - eapply wp_checked; [done|done|]. eapply wp_mono; [apply (wp_rising _ _ (refused_by x)); [apply rising_del|done|eapply map_del_spec; [exact Hr|lia|done]]|].
    intros ? c [Hc _] mu' _. apply wp_ret. cbn. unfold refused_by in *. cbn. lia.
  - eapply wp_checked; [done|done|]. eapply wp_mono; [apply (wp_rising _ _ (refused_by x)); [apply rising_clr|done|by eapply map_clr_spec]|].
    intros ? c [Hc _] mu' _. apply wp_ret. cbn. unfold refused_by in *. cbn. lia.
  - apply wp_on_obj. unfold wp, cMap.on_cxt, gets. apply wp_ret. cbn. unfold refused_by. cbn. lia.
Qed.
(** A program of calls: the records that were not stored are refusals of the heap. *)
Fixpoint refusals_in (l : list map_ans) : Z := match l with [] => 0 | a :: l => refusal a + refusals_in l end.
Lemma cmap_run_refused cmds h mu (x : tmap) m n : cmap_rep ext x m n -> may_lock (Some mu) h -> Forall cmd_ok cmds -> 0 <= n -> n + Z.of_nat (length cmds) < MAX_RECORDS ->
  wp (cmap_run cmds h) (mu, x) (fun l s => exists m' n', map_steps m cmds l m' /\ cmap_rep ext s.2 m' n' /\ refused_by x + refusals_in l <= refused_by s.2).
Proof.
  revert mu x m n. induction cmds as [|cmd cmds IH]; intros mu x m n Hr Hl Hok H0 Hn; cbn [cmap_run].
  - apply wp_ret. exists m, n. split_and!; [apply steps_nil|done|cbn; lia].
  - apply Forall_cons in Hok as [Hc Hok]. rewrite length_cons in Hn. apply wp_bind.
    eapply wp_mono; [apply (wp_and _ _ _ _ (cmap_call_spec ext cmd h mu x m n Hr Hl Hc H0 ltac:(lia)) (cmap_call_refused cmd h mu x m n Hr Hl Hc H0 ltac:(lia)))|].
    intros a [mu1 x1] [(m1 & Hs & Hr1 & Hp1) Ha]. cbn [fst snd] in *. apply wp_bind.
    eapply wp_mono; [apply (IH mu1 x1 m1 (n + 1)); [done|by destruct Hp1|done|lia|lia]|].
    intros l [mu2 x2] (m2 & n2 & Hs2 & Hr2 & Hle). apply wp_ret. exists m2, n2. split_and!; [by eapply steps_cons|done|cbn [refusals_in snd] in *; lia].
Qed.
(** [init] fails only for lack of memory. *)
Lemma cmap_init_refused cap mu (x : tmap) : cap <> 0 -> wlp (cMap.init cap) (mu, x) (fun ok s => ok = false -> refused_by x < refused_by s.2).
Proof.
  intros Hcap. unfold wlp, cMap.init, on_obj. cbn [fst snd]. destruct (map_init _) as [[r c]|] eqn:E; [|done].
  assert (wlp map_init (fresh_cxt cap (mem (cMap.map_cxt x)) (udata (cMap.map_cxt x))) (fun r c => r = 1 \/ refused_by x < refused_of c)) as Hw.
  { unfold map_init. apply wlp_bind, wlp_gets. cbn [id fresh_cxt pf_mem_alloc capacity pp_list]. rw (proj2 (Z.eqb_neq cap 0) Hcap). cbn [andb negb Z.eqb].
    apply wlp_bind. eapply wlp_mono; [apply alloc_counts|]. intros p c1 [E1 _]. apply wlp_bind. unfold wlp at 1, modify. destruct (Z.eqb_spec p 0) as [->|_]; cbn [negb].
    - apply wlp_ret. right. unfold refused_by, refused_of in *. cbn in *. lia.
    - apply wlp_bind. unfold clear_table. destruct (_ <=? _); [|apply wlp_undefined]. apply wlp_ret. apply wlp_bind. unfold wlp at 1, modify. apply wlp_bind. unfold wlp at 1, put_counts, modify.
      apply wlp_ret. by left. }
  pose proof (wlp_run _ _ _ _ _ Hw E) as [->|Hlt]; [done|]. by intros _.
Qed.
End answers.
