(* ===== verification/Str.v ===== *)
(** * String and memory helpers
    (core/additions/str.h, core/additions/str.c, behind [iStr] of str.cpp)

    A text is the list of the bytes that can be read from a pointer on; reading
    or writing past it is [None].  [_mem_cpy] works on one block of memory with
    two offsets, since its callers move data inside a buffer. *)
From S2P Require Import Prelude.
From Stdlib Require Ascii String.
Set Default Goal Selector "!".

(** A string literal of the code. *)
Fixpoint str (s : String.string) : list Z :=
  match s with
  | String.EmptyString => []
  | String.String a s => Z.of_N (Ascii.N_of_ascii a) :: str s
  end.
Arguments str _%_string_scope.

(** ** Copying *)
(** An atomic access of [n] bytes: read at [s], write at [d]. *)
Definition copy (m : list Z) (d s n : nat) : option (list Z) :=
  if (d + n <=? length m)%nat && (s + n <=? length m)%nat
  then Some (take d m ++ take n (drop s m) ++ drop (d + n) m) else None.

(** [while(i < _sz) { dst[i] = src[i]; i++; }] on words of [w] bytes: [k] remain. *)
Fixpoint copy_up (w k : nat) (m : list Z) (d s : nat) : option (list Z) :=
  match k with
  | O => Some m
  | S k => m ← copy m d s w; copy_up w k m (d + w) (s + w)
  end.

(** [while(i < _sz) { i++; *(_dst - i) = *(_src - i); }]: from the end down. *)
Fixpoint copy_down (w k : nat) (m : list Z) (d s : nat) : option (list Z) :=
  match k with
  | O => Some m
  | S k => m ← copy m (d + k * w) (s + k * w) w; copy_down w k m d s
  end.

Definition mem_cpy (m : list Z) (dst src sz : nat) : option (list Z) :=
  if (sz =? 0)%nat then Some m else
  let words := (sz / 8)%nat in
  if (dst <? src)%nat then
    m ← copy_up 8 words m dst src;
    copy_up 1 (sz - words * 8) m (dst + words * 8) (src + words * 8)
  else
    m ← copy_down 8 words m (dst + sz mod 8) (src + sz mod 8);
    copy_down 1 (sz mod 8) m dst src.

Fixpoint mem_cmp (p1 p2 : list Z) (sz : nat) {struct sz} : option Z :=
  match sz with
  | O => Some 0
  | S sz =>
      match p1, p2 with
      | a :: p1, b :: p2 => if a - b =? 0 then mem_cmp p1 p2 sz else Some (a - b)
      | _, _ => None
      end
  end.

(** ** Strings *)
Fixpoint str_len (s : list Z) : option Z :=
  match s with
  | [] => None
  | c :: s => if c =? 0 then Some 0 else n ← str_len s; Some (n + 1)
  end.

Fixpoint str_cmp (s1 s2 : list Z) : option Z :=
  match s1, s2 with
  | a :: t1, b :: t2 =>
      if negb (a =? 0) && negb (b =? 0) && (a =? b) then str_cmp t1 t2 else Some (a - b)
  | _, _ => None
  end.

Fixpoint str_ncmp (s1 s2 : list Z) (sz : nat) {struct sz} : option Z :=
  match sz with
  | O => Some 0
  | S sz =>
      match s1, s2 with
      | a :: t1, b :: t2 => if a - b =? 0 then str_ncmp t1 t2 sz else Some (a - b)
      | _, _ => None
      end
  end.

(** [while(i < (text_sz - l))]: [k] positions remain, [i] is the next. *)
Fixpoint nfind_loop (k : nat) (text sub : list Z) (l : nat) (i : Z) : option Z :=
  match k with
  | O => Some (-1)
  | S k =>
      c ← mem_cmp text sub l;
      if c =? 0 then Some i else nfind_loop k (drop 1 text) sub l (i + 1)
  end.

(** [text_sz] is the length passed in, [sub] the literal without its NUL. *)
Definition nfind_string (text : list Z) (text_sz : nat) (sub : list Z) : option Z :=
  let l := length sub in
  if (l <=? text_sz)%nat then nfind_loop (text_sz - l) text sub l 0 else Some (-1).

(** [do s[i++] = digits[n % b]; while((n /= b) > 0)], then reversed. *)
Definition digits : list Z := str "0123456789abcdefghijklmnopqrstuvwxyz".
Fixpoint itoa_loop (fuel : nat) (b n : Z) (acc : list Z) : option (list Z) :=
  match fuel with
  | O => None
  | S fuel =>
      d ← digits !! Z.to_nat (n mod b);
      if 0 <? n / b then itoa_loop fuel b (n / b) (d :: acc) else Some (d :: acc)
  end.
(** 64 digits are enough for any base from 2. *)
Definition ulltoa (n b : Z) : option (list Z) := itoa_loop 64 b (u64 n) [].
Definition uitoa (n b : Z) : option (list Z) := itoa_loop 64 b (u32 n) [].

(** [atoi]: blanks, a sign, digits; a value no [int] holds is undefined. *)
Definition is_blank (c : Z) : bool := (c =? 32) || ((9 <=? c) && (c <=? 13)).
Definition is_digit (c : Z) : bool := (48 <=? c) && (c <=? 57).
Fixpoint atoi_digits (s : list Z) (n : Z) : Z :=
  match s with c :: s => if is_digit c then atoi_digits s (10 * n + (c - 48)) else n | [] => n end.
Fixpoint atoi_value (s : list Z) : Z :=
  match s with
  | c :: t => if is_blank c then atoi_value t
              else if c =? 45 then - atoi_digits t 0
              else if c =? 43 then atoi_digits t 0
              else atoi_digits s 0
  | [] => 0
  end.
Definition atoi (s : list Z) : option Z :=
  let n := atoi_value s in if (- 2 ^ 31 <=? n) && (n <? 2 ^ 31) then Some n else None.

(** ** Memory moves *)
Definition moved (m m' : list Z) (d s a b : nat) : Prop :=
  forall x, m' !! x = if decide (d + a <= x < d + b)%nat then m !! (x - d + s)%nat else m !! x.

Definition memmove (m : list Z) (d s n : nat) : list Z := take d m ++ take n (drop s m) ++ drop (d + n) m.

Section moves.
Implicit Types (m : list Z).

Lemma memmove_lookup m d s n x : (d + n <= length m)%nat -> (s + n <= length m)%nat ->
  memmove m d s n !! x = if decide (d <= x < d + n)%nat then m !! (x - d + s)%nat else m !! x.
Proof.
  intros Hd Hs. unfold memmove. assert (length (take n (drop s m)) = n) as Hl by (rw length_take length_drop; lia).
  destruct (decide (x < d)%nat) as [H1|H1].
  - rw lookup_app_l; [|rw length_take; lia]. rw decide_False; [|lia]. by rw lookup_take_lt.
  - rw lookup_app_r; [|rw length_take; lia]. rw length_take Nat.min_l; [|lia].
    destruct (decide (x < d + n)%nat) as [H2|H2].
    + rw lookup_app_l; [|lia]. rw decide_True; [|lia]. rw lookup_take_lt; [|lia]. rw lookup_drop. f_equal. lia.
    + rw lookup_app_r; [|lia]. rw decide_False; [|lia]. rw lookup_drop Hl. f_equal. lia.
Qed.

Lemma memmove_length m d s n : (d + n <= length m)%nat -> (s + n <= length m)%nat ->
  length (memmove m d s n) = length m.
Proof. intros. unfold memmove. rw !length_app !length_take !length_drop. lia. Qed.

Lemma copy_in m d s n : (d + n <= length m)%nat -> (s + n <= length m)%nat ->
  copy m d s n = Some (memmove m d s n).
Proof.
  intros Hd Hs. unfold copy. destruct (Nat.leb_spec (d + n) (length m)); [|lia].
  destruct (Nat.leb_spec (s + n) (length m)); [|lia]. done.
Qed.

(** Upwards, with the destination below the source. *)
Lemma copy_up_moved w k m m0 d s a :
  (d < s)%nat -> length m = length m0 -> (s + a + k * w <= length m0)%nat -> moved m0 m d s 0 a ->
  exists m', copy_up w k m (d + a) (s + a) = Some m' /\ length m' = length m0 /\
    moved m0 m' d s 0 (a + k * w).
Proof.
  intros Hds. revert m a. induction k as [|k IH]; intros m a Hl Hb Hm; cbn [copy_up].
  { exists m. split_and!; [done|done|]. by replace (a + 0 * w)%nat with a by lia. }
  rw copy_in; [|lia|lia]. cbn [mbind option_bind].
  destruct (IH (memmove m (d + a) (s + a) w) (a + w)%nat) as (m' & Hc & Hl' & Hm').
  - rw memmove_length; lia.
  - lia.
  - intros x. rw memmove_lookup; [|lia|lia]. destruct (decide (d + a <= x < d + a + w)%nat).
    + rw decide_True; [|lia]. rw (Hm (x - (d + a) + (s + a))%nat) decide_False; [|lia]. f_equal. lia.
    + rw (Hm x). repeat case_decide; (done || lia).
  - exists m'. rw -!Nat.add_assoc. split_and!; [done|done|].
    by replace (a + S k * w)%nat with (a + w + k * w)%nat by lia.
Qed.

(** Downwards, with the destination at or above the source; [n] is the end. *)
Lemma copy_down_moved w k m m0 d s n lo :
  (s <= d)%nat -> length m = length m0 -> (d + n <= length m0)%nat -> (lo + k * w <= n)%nat ->
  moved m0 m d s (lo + k * w) n ->
  exists m', copy_down w k m (d + lo) (s + lo) = Some m' /\ length m' = length m0 /\ moved m0 m' d s lo n.
Proof.
  intros Hds. revert m. induction k as [|k IH]; intros m Hl Hb Hn Hm; cbn [copy_down].
  { exists m. split_and!; [done|done|]. by replace (lo + 0 * w)%nat with lo in Hm by lia. }
  rw copy_in; [|lia|lia]. cbn [mbind option_bind].
  apply (IH (memmove m (d + lo + k * w) (s + lo + k * w) w)); [rw memmove_length; lia|lia|lia|].
  intros x. rw memmove_lookup; [|lia|lia]. destruct (decide (d + lo + k * w <= x < d + lo + k * w + w)%nat).
  - rw decide_True; [|lia]. rw (Hm (x - (d + lo + k * w) + (s + lo + k * w))%nat) decide_False; [|lia]. f_equal. lia.
  - rw (Hm x). repeat case_decide; (done || lia).
Qed.
End moves.

Lemma mem_cpy_spec m d s n :
  (d + n <= length m)%nat -> (s + n <= length m)%nat -> mem_cpy m d s n = Some (memmove m d s n).
Proof.
  intros Hd Hs. unfold mem_cpy. destruct (Nat.eqb_spec n 0) as [->|Hn].
  { unfold memmove. rw Nat.add_0_r /= take_drop. done. }
  pose proof (Nat.div_mod_eq n 8) as En. pose proof (Nat.mod_upper_bound n 8 ltac:(lia)) as Hr.
  set (q := (n / 8)%nat) in *. set (r := (n mod 8)%nat) in *.
  assert (forall m', length m' = length m -> moved m m' d s 0 n -> Some m' = Some (memmove m d s n)) as Hend.
  { intros m' Hl' Hm'. f_equal. apply list_eq. intros x. rw (Hm' x) memmove_lookup //. by rw Nat.add_0_r. }
  assert (forall m' a b, (b <= a)%nat -> (forall x, m' !! x = m !! x) -> moved m m' d s a b) as Hid.
  { intros m' a b Hab Hm' x. rw decide_False //. lia. }
  destruct (Nat.ltb_spec d s) as [Hlt|Hge].
  - destruct (copy_up_moved 8 q m m d s 0) as (m1 & E1 & Hl1 & Hm1); [done|done|lia|by apply Hid|].
    rw !Nat.add_0_r in E1. rw E1. cbn [mbind option_bind].
    destruct (copy_up_moved 1 (n - q * 8) m1 m d s (q * 8)) as (m2 & E2 & Hl2 & Hm2); [done|done|lia|done|].
    rw E2. apply Hend; [done|]. by replace n with (q * 8 + (n - q * 8) * 1)%nat by lia.
  - destruct (copy_down_moved 8 q m m d s n r) as (m1 & E1 & Hl1 & Hm1); [done|done|lia|lia|apply Hid; [lia|done]|].
    rw E1. cbn [mbind option_bind].
    destruct (copy_down_moved 1 r m1 m d s n 0) as (m2 & E2 & Hl2 & Hm2); [done|done|lia|lia| |].
    { by replace (0 + r * 1)%nat with r by lia. }
    rw !Nat.add_0_r in E2. rw E2. by apply Hend.
Qed.

(** [_mem_cpy] is memmove.  For any source and destination inside one
    block, overlapping or not, the word and byte loops leave at the destination
    the bytes the source had before the call, and nothing else changes. *)
Theorem mem_cpy_memmove m d s n :
  (d + n <= length m)%nat -> (s + n <= length m)%nat ->
  exists m', mem_cpy m d s n = Some m' /\ length m' = length m /\
    forall x, m' !! x = if decide (d <= x < d + n)%nat then m !! (x - d + s)%nat else m !! x.
Proof.
  intros Hd Hs. exists (memmove m d s n). rw mem_cpy_spec //. split_and!; [done|by apply memmove_length|].
  intros x. by apply memmove_lookup.
Qed.

Definition demo_block : list Z := [1; 2; 3; 4; 5; 6; 7; 8; 9; 10; 11; 12].

Lemma mem_cpy_memmove_witness :
  mem_cpy demo_block 0 1 11 = Some [2; 3; 4; 5; 6; 7; 8; 9; 10; 11; 12; 12] /\
  exists m', mem_cpy demo_block 0 1 11 = Some m' /\ length m' = length demo_block /\
    forall x, m' !! x = if decide (0 <= x < 11)%nat then demo_block !! (x - 0 + 1)%nat else demo_block !! x.
Proof.
  split; [reflexivity|]. apply (mem_cpy_memmove demo_block 0 1 11); cbn; lia.
Defined.

(** ** Searching *)
Definition occurs (text sub : list Z) (i : nat) : Prop := take (length sub) (drop i text) = sub.

Lemma mem_cmp_spec p1 p2 n : (n <= length p1)%nat -> (n <= length p2)%nat ->
  exists c, mem_cmp p1 p2 n = Some c /\ (c = 0 <-> take n p1 = take n p2).
Proof.
  revert p1 p2. induction n as [|n IH]; intros p1 p2 H1 H2; cbn [mem_cmp].
  { exists 0. split; [done|]. by rw !take_0. }
  destruct p1 as [|a p1]; [simpl in H1; lia|]. destruct p2 as [|b p2]; [simpl in H2; lia|]. simpl in H1, H2.
  destruct (Z.eqb_spec (a - b) 0) as [E|E].
  - destruct (IH p1 p2) as (c & Hc & Hiff); [lia|lia|]. exists c. split; [done|]. cbn. rw Hiff.
    assert (a = b) as -> by lia. split; [by intros ->|]. by intros [= ?].
  - exists (a - b). split; [done|]. cbn. split; [lia|]. intros [= ? _]. lia.
Qed.

Lemma nfind_loop_spec k text sub i :
  (k + length sub <= length text)%nat ->
  exists r, nfind_loop k text sub (length sub) i = Some r /\
    ((r = -1 /\ forall j, (j < k)%nat -> ~ occurs text sub j) \/
     exists j, r = i + Z.of_nat j /\ (j < k)%nat /\ occurs text sub j /\ forall j', (j' < j)%nat -> ~ occurs text sub j').
Proof.
  revert text i. induction k as [|k IH]; intros text i Hl; cbn [nfind_loop].
  { exists (-1). split; [done|]. left. split; [done|lia]. }
  destruct (mem_cmp_spec text sub (length sub)) as (c & -> & Hc); [lia|lia|]. cbn [mbind option_bind].
  rw (take_ge sub) // in Hc.
  destruct (Z.eqb_spec c 0) as [E|E].
  - exists i. split; [done|]. right. exists 0%nat. split_and!; [lia|lia|by apply Hc|lia].
  - destruct (IH (drop 1 text) (i + 1)) as (r & -> & Hr); [rw length_drop; lia|]. exists r. split; [done|].
    assert (~ occurs text sub 0) as H0 by by (unfold occurs; rw drop_0; intros ?%Hc).
    assert (forall j, occurs (drop 1 text) sub j <-> occurs text sub (S j)) as HS.
    { intros j. unfold occurs. by rw drop_drop. }
    destruct Hr as [[-> Hno]|(j & -> & Hj & Ho & Hno)].
    + left. split; [done|]. intros [|j] Hj; [done|]. rw -HS. apply Hno. lia.
    + right. exists (S j). split_and!; [lia|lia|by apply HS|]. intros [|j'] Hj'; [done|]. rw -HS. apply Hno. lia.
Qed.

(** The text searched may be longer than the size passed in. *)
Lemma nfind_string_spec text sz sub : (sz <= length text)%nat ->
  exists r, nfind_string text sz sub = Some r /\
    ((r = -1 /\ forall j, (j + length sub < sz)%nat -> ~ occurs text sub j) \/
     exists j, r = Z.of_nat j /\ (j + length sub < sz)%nat /\ occurs text sub j /\
       forall j', (j' < j)%nat -> ~ occurs text sub j').
Proof.
  intros Hsz. unfold nfind_string. destruct (Nat.leb_spec (length sub) sz) as [Hl|Hl].
  - destruct (nfind_loop_spec (sz - length sub) text sub 0) as (r & -> & Hr); [lia|].
    exists r. split; [done|]. destruct Hr as [[-> Hno]|(j & -> & Hj & Ho & Hno)].
    + left. split; [done|]. intros j Hj. apply Hno. lia.
    + right. exists j. split_and!; [lia|lia|done|done].
  - exists (-1). split; [done|]. left. split; [done|]. lia.
Qed.

(** [_nfind_string] returns the first position at which the substring
    occurs, or -1; it looks at every position but the last one, where the
    substring would end exactly at the end of the text. *)
Theorem nfind_first text sub :
  exists r, nfind_string text (length text) sub = Some r /\
    ((r = -1 /\ forall j, (j + length sub < length text)%nat -> ~ occurs text sub j) \/
     exists j, r = Z.of_nat j /\ (j + length sub < length text)%nat /\ occurs text sub j /\
       forall j', (j' < j)%nat -> ~ occurs text sub j').
Proof.
  by apply nfind_string_spec.
Qed.

(** So a header that ends exactly at the end of the text is not found. *)
Example nfind_misses_last :
  nfind_string (str "ab12") 4 (str "12") = Some (-1) /\ occurs (str "ab12") (str "12") 2.
Proof. vm_compute. split; reflexivity. Qed.
