(* ===== verification/UrlCodec.v ===== *)
(** * Percent encoding
    (io/libnet/url-codec.h, io/libnet/url-codec.cpp)

    [UrlEncode] and [UrlDecode] work on C buffers: [src] is the readable memory
    from the source pointer on, [dest] the writable memory from the destination
    pointer on, and an access outside either is undefined.  A [char] is the
    value of its byte.  [escape] and [unescape] are the text transformations of
    the percent-encoding scheme, without buffers. *)
From S2P Require Import Prelude.
Set Default Goal Selector "!".

Definition URL_DECODE_ERR : Z := 65535.

(** The digits, upper case then lower case. *)
Definition hexchars : list Z :=
  [48; 49; 50; 51; 52; 53; 54; 55; 56; 57; 65; 66; 67; 68; 69; 70; 97; 98; 99; 100; 101; 102].
(** Space, percent, colon, slash, question mark, hash, brackets, at, bang, dollar,
    ampersand, quotes, parentheses, star, plus, comma, semicolon, equals. *)
Definition unsafe : list Z :=
  [32; 37; 58; 47; 63; 35; 91; 93; 64; 33; 36; 38; 39; 34; 40; 41; 42; 43; 44; 59; 61].

Definition is_unsafe (ch : Z) : bool := bool_decide (ch ∈ unsafe).

(** The C locale's [toupper]. *)
Definition toupper (ch : Z) : Z := if (97 <=? ch) && (ch <=? 122) then ch - 32 else ch.

Definition hex_digit_order (ch : Z) : Z :=
  if (48 <=? ch) && (ch <=? 57) then ch - 48
  else
    let ch := toupper ch in
    if (65 <=? ch) && (ch <=? 70) then ch - 65 + 10 else -1.

(** The destination buffer is the state. *)
Abbreviation BufM := (M (list Z)).

Definition rd_src (src : list Z) (i : nat) : BufM Z := lift_opt (src !! i).
Definition wr_dst (i : nat) (b : Z) : BufM unit := fun dest =>
  if (i <? length dest)%nat then Some (tt, <[i := b]> dest) else None.

(** [for(i = 0; src[i] && i < srclen; i++)]; [src[i]] is read first. *)
Fixpoint decode_loop (fuel : nat) (src : list Z) (srclen dstlen i di : nat) : BufM Z :=
  match fuel with
  | O => undefined
  | S fuel =>
      ch ← rd_src src i;
      if negb (ch =? 0) && (i <? srclen)%nat then
        if (dstlen <? di + 1)%nat then mret 0
        else if ch =? 37 then
          a ← rd_src src (i + 1);
          b ← rd_src src (i + 2);
          let high := hex_digit_order a in
          let low := hex_digit_order b in
          if (high =? -1) || (low =? -1) then mret URL_DECODE_ERR
          else
            wr_dst di (u8 (Z.lor (Z.shiftl high 4) low));;
            decode_loop fuel src srclen dstlen (i + 3) (di + 1)
        else
          wr_dst di (if ch =? 43 then 32 else ch);;
          decode_loop fuel src srclen dstlen (i + 1) (di + 1)
      else
        wr_dst di 0;;
        mret (Z.of_nat di)
  end.

Definition UrlDecode (src : list Z) (srclen dstlen : nat) : BufM Z :=
  decode_loop (S (length src)) src srclen dstlen 0 0.

Fixpoint encode_loop (fuel : nat) (src : list Z) (srclen dlen i di : nat) : BufM Z :=
  match fuel with
  | O => undefined
  | S fuel =>
      ch ← rd_src src i;
      if negb (ch =? 0) && (i <? srclen)%nat then
        if is_unsafe ch then
          if (dlen <? di + 3)%nat then mret 0
          else
            hi ← lift_opt (hexchars !! Z.to_nat (ch / 16));
            lo ← lift_opt (hexchars !! Z.to_nat (ch mod 16));
            wr_dst di 37;; wr_dst (di + 1) hi;; wr_dst (di + 2) lo;;
            encode_loop fuel src srclen dlen (i + 1) (di + 3)
        else if (dlen <? di + 1)%nat then mret 0
        else
          wr_dst di ch;;
          encode_loop fuel src srclen dlen (i + 1) (di + 1)
      else
        wr_dst di 0;;
        mret (Z.of_nat di)
  end.

Definition UrlEncode (src : list Z) (srclen dlen : nat) : BufM Z :=
  encode_loop (S (length src)) src srclen dlen 0 0.

(** ** Texts *)
Definition pct (ch : Z) : list Z :=
  if is_unsafe ch then [37; nth (Z.to_nat (ch / 16)) hexchars 0; nth (Z.to_nat (ch mod 16)) hexchars 0]
  else [ch].
Definition escape (s : list Z) : list Z := s ≫= pct.

Definition hex_byte (a b : Z) : option Z :=
  let high := hex_digit_order a in
  let low := hex_digit_order b in
  if (high =? -1) || (low =? -1) then None else Some (u8 (Z.lor (Z.shiftl high 4) low)).

Fixpoint unescape (s : list Z) : option (list Z) :=
  match s with
  | [] => Some []
  | ch :: t =>
      if ch =? 37 then
        match t with
        | a :: b :: t => c ← hex_byte a b; d ← unescape t; Some (c :: d)
        | _ => None
        end
      else d ← unescape t; Some ((if ch =? 43 then 32 else ch) :: d)
  end.

Definition char_ok (ch : Z) : Prop := 0 < ch < 256.

Lemma unsafe_spec ch : is_unsafe ch = true ->
  exists a b, hexchars !! Z.to_nat (ch / 16) = Some a /\ hexchars !! Z.to_nat (ch mod 16) = Some b /\
    pct ch = [37; a; b] /\ hex_byte a b = Some ch.
Proof.
  unfold pct. intros H. rw H. apply bool_decide_eq_true in H. unfold unsafe in H.
  repeat (apply elem_of_cons in H as [->|H]; [vm_compute; eexists _, _; split_and!; reflexivity|]).
  by apply not_elem_of_nil in H.
Qed.

Lemma safe_spec ch : is_unsafe ch = false -> pct ch = [ch] /\ (ch =? 37) = false /\ (ch =? 43) = false.
Proof.
  intros H. unfold pct. rw H. split_and!; [done| |]; apply Z.eqb_neq; intros ->; by vm_compute in H.
Qed.

(** Decoding undoes encoding. *)
Lemma unescape_escape s : unescape (escape s) = Some s.
Proof.
  induction s as [|ch s IH]; [done|]. unfold escape in *. cbn. destruct (is_unsafe ch) eqn:E.
  - destruct (unsafe_spec ch E) as (a & b & _ & _ & -> & Hb). cbn [app unescape Z.eqb Pos.eqb].
    by rw Hb /= IH.
  - destruct (safe_spec ch E) as (-> & E1 & E2). cbn [app unescape]. by rw E1 E2 IH.
Qed.

Lemma escape_ok s : Forall char_ok s -> Forall char_ok (escape s).
Proof.
  induction 1 as [|ch s Hc Hs IH]; [done|]. unfold escape in *. cbn. apply Forall_app. split; [|done].
  unfold pct. destruct (is_unsafe ch) eqn:E; [|by apply Forall_singleton].
  unfold char_ok. apply bool_decide_eq_true in E. unfold unsafe in E.
  repeat (apply elem_of_cons in E as [->|E]; [vm_compute; repeat constructor|]).
  by apply not_elem_of_nil in E.
Qed.

(** ** The buffers *)
Section buffers.
Implicit Types (dest done rest s : list Z).

Lemma wp_rd_src src i ch (dest : list Z) Q : src !! i = Some ch -> Q ch dest -> wp (rd_src src i) dest Q.
Proof. unfold wp, rd_src, lift_opt. by intros ->. Qed.

(** Writing behind what is done extends it. *)
Lemma wp_wr_dst done b dest (Q : unit -> list Z -> Prop) :
  (length done < length dest)%nat -> take (length done) dest = done ->
  (forall dest', length dest' = length dest -> take (length (done ++ [b])) dest' = done ++ [b] ->
    (forall k, (length done < k)%nat -> drop k dest' = drop k dest) -> Q tt dest') ->
  wp (wr_dst (length done) b) dest Q.
Proof.
  intros Hl Ht HQ. unfold wp, wr_dst. destruct (Nat.ltb_spec (length done) (length dest)); [|lia].
  apply HQ.
  - by rw length_insert.
  - rw length_app /= Nat.add_1_r take_insert_snoc // Ht //.
  - intros k Hk. by rw drop_insert_lt.
Qed.

(** What a call leaves: the bytes past [n] are as they were. *)
Definition beyond (n : nat) dest dest' : Prop :=
  length dest' = length dest /\ drop (S n) dest' = drop (S n) dest.

Lemma beyond_trans n d1 d2 d3 : beyond n d1 d2 -> beyond n d2 d3 -> beyond n d1 d3.
Proof. intros [H1 H2] [H3 H4]. split; congruence. Qed.

Definition decode_post (d : option (list Z)) (done : list Z) (dstlen : nat) dest (r : Z) dest' : Prop :=
  beyond dstlen dest dest' /\
  match d with
  | Some d =>
      if (length (done ++ d) <=? dstlen)%nat
      then r = Z.of_nat (length (done ++ d)) /\ take (S (length (done ++ d))) dest' = done ++ d ++ [0]
      else r = 0
  | None => r = URL_DECODE_ERR \/ r = 0
  end.

(** A byte of the text goes out, the rest follows. *)
Lemma decode_post_step d done b dstlen dest dest1 r dest' :
  beyond dstlen dest dest1 -> decode_post d (done ++ [b]) dstlen dest1 r dest' ->
  decode_post ((fun d => b :: d) <$> d) done dstlen dest r dest'.
Proof.
  intros H1 [H2 H3]. split; [by eapply beyond_trans|]. destruct d as [d|]; [|done]. cbn [fmap option_fmap option_map].
  by rw -!app_assoc in H3.
Qed.

Lemma decode_post_full d done dstlen dest : (dstlen < length done + 1)%nat ->
  (forall x, d = Some x -> x <> []) -> decode_post d done dstlen dest 0 dest.
Proof.
  intros Hl Hd. split; [done|]. destruct d as [d|]; [|by right].
  destruct (Nat.leb_spec (length (done ++ d)) dstlen) as [H|]; [|done].
  rw length_app in H. specialize (Hd d eq_refl). destruct d; [done|]. simpl in H. lia.
Qed.

Lemma unescape_cons ch t d : unescape (ch :: t) = Some d -> d <> [].
Proof.
  cbn [unescape]. destruct (ch =? 37).
  - destruct t as [|a [|b t]]; [done|done|]. destruct (hex_byte a b); [|done]. cbn.
    destruct (unescape t); [|done]. by intros [= <-].
  - destruct (unescape t); [|done]. by intros [= <-].
Qed.

(** Whatever the input, the destination keeps its size. *)
Lemma decode_loop_length fuel src srclen dstlen i di dest r dest' :
  decode_loop fuel src srclen dstlen i di dest = Some (r, dest') -> length dest' = length dest.
Proof.
  assert (forall k b (d d' : list Z) x, wr_dst k b d = Some (x, d') -> length d' = length d) as Hwr.
  { intros k b d d' x. unfold wr_dst. destruct (k <? length d)%nat; [|done]. intros [= _ <-]. apply length_insert. }
  revert i di dest. induction fuel as [|fuel IH]; intros i di dest; [done|]. cbn [decode_loop].
  unfold mbind, M_bind, rd_src, lift_opt, mret, M_ret. destruct (src !! i) as [ch|]; [|done]. cbn -[Nat.ltb Nat.add].
  destruct (negb (ch =? 0) && (i <? srclen)%nat); cbn -[Nat.ltb Nat.add].
  - destruct (dstlen <? di + 1)%nat; cbn -[Nat.ltb Nat.add]; [by intros [= _ <-]|]. destruct (ch =? 37); cbn -[Nat.ltb Nat.add].
    + destruct (src !! (i + 1)%nat) as [a|]; [|done]. cbn -[Nat.ltb Nat.add]. destruct (src !! (i + 2)%nat) as [b|]; [|done]. cbn -[Nat.ltb Nat.add].
      destruct ((hex_digit_order a =? -1) || (hex_digit_order b =? -1)); cbn -[Nat.ltb Nat.add]; [by intros [= _ <-]|].
      destruct (wr_dst di _ dest) as [[[] d1]|] eqn:E; [|done]. intros H%IH. by rw H (Hwr _ _ _ _ _ E).
    + destruct (wr_dst di _ dest) as [[[] d1]|] eqn:E; [|done]. intros H%IH. by rw H (Hwr _ _ _ _ _ E).
  - destruct (wr_dst di 0 dest) as [[[] d1]|] eqn:E; [|done]. intros [= _ <-]. by rw (Hwr _ _ _ _ _ E).
Qed.

(** More room changes nothing unless the decoder gave up. *)
Lemma decode_loop_mono fuel src srclen d1 d2 i di dest r dest' : (d1 <= d2)%nat -> r <> 0 ->
  decode_loop fuel src srclen d1 i di dest = Some (r, dest') ->
  decode_loop fuel src srclen d2 i di dest = Some (r, dest').
Proof.
  intros Hd Hr. revert i di dest. induction fuel as [|fuel IH]; intros i di dest; [done|]. cbn [decode_loop].
  unfold mbind, M_bind, rd_src, lift_opt, mret, M_ret. destruct (src !! i) as [ch|]; [|done]. cbn -[Nat.ltb Nat.add].
  destruct (negb (ch =? 0) && (i <? srclen)%nat); cbn -[Nat.ltb Nat.add]; [|done].
  destruct (Nat.ltb_spec d1 (di + 1)) as [_|H1]; cbn -[Nat.ltb Nat.add]; [by intros [= <- _]|].
  destruct (Nat.ltb_spec d2 (di + 1)) as [H2|_]; cbn -[Nat.ltb Nat.add]; [lia|]. destruct (ch =? 37); cbn -[Nat.ltb Nat.add].
  - destruct (src !! (i + 1)%nat) as [a|]; [|done]. cbn -[Nat.ltb Nat.add]. destruct (src !! (i + 2)%nat) as [b|]; [|done]. cbn -[Nat.ltb Nat.add].
    destruct ((hex_digit_order a =? -1) || (hex_digit_order b =? -1)); cbn -[Nat.ltb Nat.add]; [done|].
    destruct (wr_dst di _ dest) as [[[] d]|]; [|done]. apply IH.
  - destruct (wr_dst di _ dest) as [[[] d]|]; [|done]. apply IH.
Qed.

Lemma decode_loop_spec fuel src srclen dstlen pre s x rest done dest :
  src = pre ++ s ++ x :: rest -> Forall char_ok s -> (length pre + length s <= srclen)%nat ->
  (x = 0 \/ (length pre + length s = srclen)%nat) -> (unescape s = None -> x = 0 /\ rest <> []) -> (length s < fuel)%nat ->
  (dstlen < length dest)%nat -> (length done <= dstlen)%nat -> take (length done) dest = done ->
  wp (decode_loop fuel src srclen dstlen (length pre) (length done)) dest
    (fun r dest' => decode_post (unescape s) done dstlen dest r dest').
Proof.
  revert pre s done dest. induction fuel as [|fuel IH]; intros pre s done dest Hsrc Hs Hlen Hx Hrest Hf Hd Hdone Ht; [lia|].
  cbn [decode_loop]. wp_step. destruct s as [|ch s].
  { eapply wp_rd_src; [by rw Hsrc list_lookup_middle|].
    assert (negb (x =? 0) && (length pre <? srclen)%nat = false) as ->.
    { destruct Hx as [->|Hx]; [done|]. simpl in Hx. destruct (Nat.ltb_spec (length pre) srclen); [lia|]. by rw andb_false_r. }
    wp_step.
    apply wp_wr_dst; [lia|done|]. intros dest' Hl' Ht' Hdr. apply wp_ret. split.
    - split; [done|]. apply Hdr. lia.
    - cbn [unescape]. rw app_nil_r. destruct (Nat.leb_spec (length done) dstlen); [|lia].
      split; [done|]. rw length_app Nat.add_1_r in Ht'. by rw Ht'. }
  apply Forall_cons in Hs as [Hc Hs]. unfold char_ok in Hc. simpl in Hlen, Hf.
  eapply wp_rd_src; [by rw Hsrc list_lookup_middle|].
  destruct (Z.eqb_spec ch 0); [lia|]. destruct (Nat.ltb_spec (length pre) srclen); [|lia]. cbn [negb andb].
  destruct (Nat.ltb_spec dstlen (length done + 1)) as [Hfull|Hroom].
  { apply wp_ret, decode_post_full; [done|]. intros d. apply unescape_cons. }
  assert (forall b k s', length s' = (length (ch :: s) - k)%nat -> (0 < k)%nat ->
    src = (pre ++ take k (ch :: s)) ++ s' ++ x :: rest -> Forall char_ok s' -> (k <= length (ch :: s))%nat ->
    (unescape s' = None -> x = 0 /\ rest <> []) ->
    wp (wr_dst (length done) b;; decode_loop fuel src srclen dstlen (length pre + k) (length done + 1)) dest
      (fun r dest' => decode_post ((fun d => b :: d) <$> unescape s') done dstlen dest r dest')) as Hstep.
  { intros b k s' Hk Hk0 Hsrc' Hs' Hkl Hr'. wp_step. apply wp_wr_dst; [lia|done|]. intros dest1 Hl1 Ht1 Hdr1.
    replace (length pre + k)%nat with (length (pre ++ take k (ch :: s))) by (rw length_app length_take; lia).
    replace (length done + 1)%nat with (length (done ++ [b])) by (rw length_app; done).
    eapply wp_mono; [apply (IH _ s'); try done|].
    - rw length_app length_take. simpl in *. lia.
    - destruct Hx as [?|Hx]; [by left|right]. rw length_app length_take. simpl in *. lia.
    - simpl in Hk. lia.
    - lia.
    - rw length_app /=. lia.
    - intros r dest' Hp. eapply decode_post_step; [|exact Hp]. split; [done|]. apply Hdr1. lia. }
  cbn [unescape]. destruct (Z.eqb_spec ch 37) as [->|Hne].
  - destruct s as [|a [|b s]].
    + wp_step. eapply wp_rd_src; [by rw Hsrc (assoc_L _ pre [37]) lookup_app_r ?length_app /= ?Nat.sub_diag; [|lia]|].
      destruct Hrest as [-> Hrest]; [done|]. destruct rest as [|y rest]; [done|].
      wp_step. eapply wp_rd_src; [rw Hsrc lookup_app_r; [|lia]; by replace (length pre + 2 - length pre)%nat with 2%nat by lia|].
      change (hex_digit_order 0) with (-1). cbn [Z.eqb Pos.eqb orb]. apply wp_ret. split; [done|]. by left.
    + wp_step. eapply wp_rd_src; [rw Hsrc lookup_app_r; [|lia]; by replace (length pre + 1 - length pre)%nat with 1%nat by lia|].
      wp_step. eapply wp_rd_src; [rw Hsrc lookup_app_r; [|lia]; by replace (length pre + 2 - length pre)%nat with 2%nat by lia|].
      destruct Hrest as [-> _]; [done|]. change (hex_digit_order 0) with (-1). rw orb_true_r. apply wp_ret. split; [done|]. by left.
    + apply Forall_cons in Hs as [_ Hs]. apply Forall_cons in Hs as [_ Hs].
      wp_step. eapply wp_rd_src; [rw Hsrc lookup_app_r; [|lia]; by replace (length pre + 1 - length pre)%nat with 1%nat by lia|].
      wp_step. eapply wp_rd_src; [rw Hsrc lookup_app_r; [|lia]; by replace (length pre + 2 - length pre)%nat with 2%nat by lia|].
      unfold hex_byte. destruct ((hex_digit_order a =? -1) || (hex_digit_order b =? -1)) eqn:Eh.
      * apply wp_ret. split; [done|]. by left.
      * cbn [mbind option_bind]. set (v := u8 _).
        change (decode_post _ done dstlen dest) with (decode_post ((fun d => v :: d) <$> unescape s) done dstlen dest).
        apply (Hstep v 3%nat s); [simpl; lia|lia|by rw Hsrc /= -app_assoc|done|simpl; lia|].
        intros E. apply Hrest. cbn [unescape]. cbn [Z.eqb Pos.eqb]. unfold hex_byte. by rw Eh /= E.
  - set (v := if ch =? 43 then 32 else ch).
    change (decode_post _ done dstlen dest) with (decode_post ((fun d => v :: d) <$> unescape s) done dstlen dest).
    apply (Hstep v 1%nat s); [simpl; lia|lia|by rw Hsrc /= -app_assoc|done|simpl; lia|].
    intros E. apply Hrest. cbn [unescape]. apply Z.eqb_neq in Hne. by rw Hne E.
Qed.
End buffers.

Lemma unescape_length k s d : (length s <= k)%nat -> unescape s = Some d -> (length d <= length s)%nat.
Proof.
  revert s d. induction k as [|k IH]; intros s d Hk; (destruct s as [|ch t]; [by intros [= <-]|]); simpl in Hk; [lia|].
  cbn [unescape]. destruct (ch =? 37).
  - destruct t as [|a [|b t]]; [done|done|]. destruct (hex_byte a b); [|done]. cbn.
    destruct (unescape t) as [d'|] eqn:E; [|done]. cbn. intros [= <-]. apply IH in E; simpl in *; lia.
  - destruct (unescape t) as [d'|] eqn:E; [|done]. cbn. intros [= <-]. apply IH in E; simpl in *; lia.
Qed.

(** A correctly encoded text in the middle of a buffer, decoded into a buffer
    with more than enough room. *)
Lemma UrlDecode_text s d x rest (dest : list Z) : Forall char_ok s -> unescape s = Some d -> d <> [] ->
  (length d < length dest)%nat ->
  exists dest', UrlDecode (s ++ x :: rest) (length s) (length dest) dest = Some (Z.of_nat (length d), dest') /\
    length dest' = length dest /\ take (S (length d)) dest' = d ++ [0].
Proof.
  intros Hs Hd Hne Hl.
  pose proof (decode_loop_spec (S (length (s ++ x :: rest))) _ (length s) (length dest - 1) [] s x rest [] dest eq_refl Hs) as Hw.
  apply wp_run in Hw as (r & dest' & E & [[Hl' _] Hp]); cbn [length]; try done; try lia; [|by rw Hd|rw length_app; lia].
  rw Hd in Hp. cbn [app] in Hp. destruct (Nat.leb_spec (length d) (length dest - 1)); [|lia]. destruct Hp as [-> Ht].
  exists dest'. split_and!; [|done|done]. unfold UrlDecode.
  eapply (decode_loop_mono _ _ _ (length dest - 1)); [lia| |exact E]. destruct d; [done|]. simpl. lia.
Qed.

(** ** Encoding *)
Section encoding.
Implicit Types (dest done rest s : list Z).

Definition encode_post (e : list Z) (done : list Z) (dlen : nat) dest (r : Z) dest' : Prop :=
  beyond dlen dest dest' /\
  if (length (done ++ e) <=? dlen)%nat
  then r = Z.of_nat (length (done ++ e)) /\ take (S (length (done ++ e))) dest' = done ++ e ++ [0]
  else r = 0.

Lemma encode_post_step e done w dlen dest dest1 r dest' :
  beyond dlen dest dest1 -> encode_post e (done ++ w) dlen dest1 r dest' ->
  encode_post (w ++ e) done dlen dest r dest'.
Proof.
  intros H1 [H2 H3]. split; [by eapply beyond_trans|]. rw -!app_assoc in H3. by rw -app_assoc.
Qed.

(** Writing the bytes [w] behind what is done. *)
Fixpoint wr_all (i : nat) (w : list Z) : BufM unit :=
  match w with [] => mret tt | b :: w => wr_dst i b;; wr_all (S i) w end.

Lemma wp_wr_all w n done dest (Q : unit -> list Z -> Prop) :
  (length done + length w <= n)%nat -> (n < length dest)%nat -> take (length done) dest = done ->
  (forall dest', beyond n dest dest' -> take (length (done ++ w)) dest' = done ++ w -> Q tt dest') ->
  wp (wr_all (length done) w) dest Q.
Proof.
  revert done dest. induction w as [|b w IH]; intros done dest Hn Hl Ht HQ; cbn [wr_all].
  { apply wp_ret, HQ; [done|by rw app_nil_r]. }
  wp_step. simpl in Hn. apply wp_wr_dst; [lia|done|]. intros dest1 Hl1 Ht1 Hd1.
  replace (S (length done)) with (length (done ++ [b])) by (rw length_app /=; lia).
  apply IH; [rw length_app /=; lia|lia|done|]. intros dest' Hb Ht'. rw -app_assoc in Ht'.
  apply HQ; [|done]. eapply beyond_trans; [|exact Hb]. split; [done|]. apply Hd1. lia.
Qed.

Lemma encode_loop_spec fuel src srclen dlen pre s rest done dest :
  src = pre ++ s ++ 0 :: rest -> Forall char_ok s -> (length pre + length s <= srclen)%nat ->
  (length s < fuel)%nat -> (dlen < length dest)%nat -> (length done <= dlen)%nat ->
  take (length done) dest = done ->
  wp (encode_loop fuel src srclen dlen (length pre) (length done)) dest
    (fun r dest' => encode_post (escape s) done dlen dest r dest').
Proof.
  revert pre s done dest. induction fuel as [|fuel IH]; intros pre s done dest Hsrc Hs Hlen Hf Hd Hdone Ht; [lia|].
  cbn [encode_loop]. wp_step. destruct s as [|ch s].
  { eapply wp_rd_src; [by rw Hsrc list_lookup_middle|]. cbn [negb andb Z.eqb]. wp_step.
    apply wp_wr_dst; [lia|done|]. intros dest' Hl' Ht' Hdr. apply wp_ret. split.
    - split; [done|]. apply Hdr. lia.
    - rw app_nil_r. destruct (Nat.leb_spec (length done) dlen); [|lia].
      split; [done|]. rw length_app Nat.add_1_r in Ht'. by rw Ht'. }
  apply Forall_cons in Hs as [Hc Hs]. unfold char_ok in Hc. simpl in Hlen, Hf.
  eapply wp_rd_src; [by rw Hsrc list_lookup_middle|].
  destruct (Z.eqb_spec ch 0); [lia|]. destruct (Nat.ltb_spec (length pre) srclen); [|lia]. cbn [negb andb].
  assert (escape (ch :: s) = pct ch ++ escape s) as Ee by done.
  assert ((dlen < length done + length (pct ch))%nat -> encode_post (escape (ch :: s)) done dlen dest 0 dest) as Hfull.
  { intros Hlt. split; [done|]. rw Ee !length_app. destruct (Nat.leb_spec (length done + (length (pct ch) + length (escape s))) dlen); [lia|done]. }
  assert ((length done + length (pct ch) <= dlen)%nat ->
    wp (wr_all (length done) (pct ch);; encode_loop fuel src srclen dlen (length pre + 1) (length done + length (pct ch))) dest
      (fun r dest' => encode_post (escape (ch :: s)) done dlen dest r dest')) as Hstep.
  { intros Hroom. wp_step. eapply (wp_wr_all _ dlen); [done|done|done|]. intros dest1 Hb1 Ht1.
    replace (length pre + 1)%nat with (length (pre ++ [ch])) by (rw length_app; done).
    rw -length_app. eapply wp_mono; [apply (IH _ s)|].
    - by rw Hsrc -app_assoc.
    - done.
    - rw length_app /=. lia.
    - lia.
    - destruct Hb1 as [-> _]. done.
    - by rw length_app.
    - done.
    - intros r dest' Hp. rw Ee. by eapply encode_post_step. }
  destruct (is_unsafe ch) eqn:Eu.
  - destruct (unsafe_spec ch Eu) as (a & b & Ha & Hb & Ep & _). rw Ep /= in Hfull. rw Ep /= in Hstep.
    destruct (Nat.ltb_spec dlen (length done + 3)) as [Hlt|Hge]; [by apply wp_ret, Hfull|].
    wp_step. eapply wp_lift_opt; [exact Ha|]. wp_step. eapply wp_lift_opt; [exact Hb|].
    specialize (Hstep Hge). unfold wp in Hstep |- *. cbn [wr_all] in Hstep.
    unfold mbind, M_bind in Hstep |- *. replace (length done + 1)%nat with (S (length done)) by lia.
    replace (length done + 2)%nat with (S (S (length done))) by lia.
    destruct (wr_dst (length done) 37 dest) as [[[] d1]|]; [|done].
    destruct (wr_dst (S (length done)) a d1) as [[[] d2]|]; [|done].
    by destruct (wr_dst (S (S (length done))) b d2) as [[[] d3]|].
  - destruct (safe_spec ch Eu) as (Ep & _ & _). rw Ep /= in Hfull. rw Ep /= in Hstep.
    destruct (Nat.ltb_spec dlen (length done + 1)) as [Hlt|Hge]; [by apply wp_ret, Hfull|].
    specialize (Hstep Hge). unfold wp in Hstep |- *. cbn [wr_all] in Hstep.
    unfold mbind, M_bind in Hstep |- *. by destruct (wr_dst (length done) ch dest) as [[[] d1]|].
Qed.
End encoding.

(** ** The properties *)
(** decoding.  On a NUL-terminated text the decoder returns and writes, with
    its terminator, the decoded text if that fits [dstlen]; it returns 0 if it
    does not fit, and URL_DECODE_ERR (or 0, when the room ran out before) if the
    text is not correctly encoded.  It never touches the bytes past
    [dest[dstlen]]. *)
Theorem url_decode s rest srclen dstlen (dest : list Z) :
  Forall char_ok s -> (length s <= srclen)%nat -> (dstlen < length dest)%nat ->
  (unescape s = None -> rest <> []) ->
  wp (UrlDecode (s ++ 0 :: rest) srclen dstlen) dest (fun r dest' =>
    length dest' = length dest /\ drop (S dstlen) dest' = drop (S dstlen) dest /\
    match unescape s with
    | Some d => if (length d <=? dstlen)%nat
                then r = Z.of_nat (length d) /\ take (S (length d)) dest' = d ++ [0]
                else r = 0
    | None => r = URL_DECODE_ERR \/ r = 0
    end).
Proof.
  intros Hs Hl Hd Hr. unfold UrlDecode. eapply wp_mono.
  - apply (decode_loop_spec _ _ srclen dstlen [] s 0 rest []); try done; [by left|auto| |simpl; lia].
    rw length_app. simpl. lia.
  - intros r dest' [[H1 H2] H3]. by split_and!.
Qed.

Definition a_slash : list Z := [97; 37; 50; 70; 43].

Lemma url_decode_witness :
  wp (UrlDecode (a_slash ++ 0 :: []) 5 4) (replicate 5 9) (fun r dest' =>
    length dest' = length (replicate 5 9) /\ drop 5 dest' = drop 5 (replicate 5 9) /\
    match unescape a_slash with
    | Some d => if (length d <=? 4)%nat
                then r = Z.of_nat (length d) /\ take (S (length d)) dest' = d ++ [0]
                else r = 0
    | None => r = URL_DECODE_ERR \/ r = 0
    end).
Proof.
  apply (url_decode a_slash [] 5 4 (replicate 5 9)).
  - repeat (apply Forall_cons; split; [unfold char_ok; lia|]). apply Forall_nil_2.
  - cbn; lia.
  - cbn; lia.
  - intros E. vm_compute in E. discriminate E.
Defined.

(** C40: round trip.  A text is encoded into a buffer with room for it, the
    encoder returns the length of what it wrote, and decoding that many bytes
    of the buffer gives the text back; too small a buffer gives 0. *)
Theorem url_roundtrip s rest srclen dlen (dst dest : list Z) :
  Forall char_ok s -> (length s <= srclen)%nat -> (dlen < length dst)%nat -> (length s < length dest)%nat ->
  wp (UrlEncode (s ++ 0 :: rest) srclen dlen) dst (fun r dst' =>
    if (length (escape s) <=? dlen)%nat
    then r = Z.of_nat (length (escape s)) /\
         wp (UrlDecode dst' (Z.to_nat r) (length s)) dest (fun r' dest' =>
           r' = Z.of_nat (length s) /\ take (S (length s)) dest' = s ++ [0])
    else r = 0).
Proof.
  intros Hs Hl Hd Hd2. unfold UrlEncode. eapply wp_mono.
  - apply (encode_loop_spec _ _ srclen dlen [] s rest []); try done; [|simpl; lia].
    rw length_app. simpl. lia.
  - intros r dst' [_ H]. cbn [app] in H. destruct (length (escape s) <=? dlen)%nat; [|done].
    destruct H as [-> Ht]. split; [done|].
    assert (dst' = escape s ++ 0 :: drop (S (length (escape s))) dst') as E.
    { rw -{1}(take_drop (S (length (escape s))) dst') Ht -app_assoc. done. }
    rw Nat2Z.id. unfold UrlDecode. eapply wp_mono.
    + apply (decode_loop_spec _ dst' _ (length s) [] (escape s) 0 (drop (S (length (escape s))) dst') []); try done.
      * by apply escape_ok.
      * by left.
      * by rw unescape_escape.
      * rw E length_app /=. lia.
      * simpl. lia.
    + intros r' dest' [_ Hp]. rw unescape_escape in Hp. cbn [app] in Hp. by rw Nat.leb_refl in Hp.
Qed.

Definition a_space_b : list Z := [97; 32; 98].

Lemma url_roundtrip_witness :
  wp (UrlEncode (a_space_b ++ 0 :: []) 3 8) (replicate 9 7) (fun r dst' =>
    if (length (escape a_space_b) <=? 8)%nat
    then r = Z.of_nat (length (escape a_space_b)) /\
         wp (UrlDecode dst' (Z.to_nat r) (length a_space_b)) (replicate 4 7) (fun r' dest' =>
           r' = Z.of_nat (length a_space_b) /\ take (S (length a_space_b)) dest' = a_space_b ++ [0])
    else r = 0).
Proof.
  apply (url_roundtrip a_space_b [] 3 8 (replicate 9 7) (replicate 4 7)).
  - repeat (apply Forall_cons; split; [unfold char_ok; lia|]). apply Forall_nil_2.
  - cbn; lia.
  - cbn; lia.
  - cbn; lia.
Defined.

(** where the decoder leaves its buffers.  A text of exactly [dstlen]
    characters writes the terminator at [dest[dstlen]], one past a buffer of
    [dstlen] bytes; a percent sign before the terminator reads the byte after
    it; and an escape cut off by [srclen] is completed with bytes that follow. *)
Example url_decode_bounds :
  UrlDecode [97; 98; 0] 2 2 [9; 9] = None /\
  UrlDecode [37; 0] 1 2 [9; 9; 9] = None /\
  UrlDecode [37; 52; 49; 0] 1 2 [9; 9; 9] = Some (1, [65; 0; 9]).
Proof. vm_compute. split_and!; reflexivity. Qed.
