(* ===== verification/HttpParse.v ===== *)
(** * Scanners of the HTTP server connection
    (io/libnet/http_server_connection.cpp: [parse_request_line],
    [parse_var_line], the variable loop of [parse_url] and
    [req_parse_content], [get_rc_text], [req_method])

    A scanner runs over the bytes readable from a pointer; positions are
    offsets from it, [None] is NULL for a field pointer.  All counters stay
    below the size of the buffer, so they are [nat] here. *)
From S2P Require Import Prelude Str.
Set Default Goal Selector "!".

Definition SP : Z := 32.
Definition CR : Z := 13.
Definition LF : Z := 10.
Definition COLON : Z := 58.
Definition EQUALS : Z := 61.
Definition AMP : Z := 38.

(** ** The request line *)
Record req_line := mkRL {
  rl_i : nat; rl_n : nat; rl_c : Z;
  rl_fld : list (option nat);   (* _str_t fld[4] *)
  rl_sz : list nat              (* _u32 fld_sz[4] *)
}.

Definition rl_init : req_line := mkRL 0 0 0 [Some 0%nat; None; None; None] [0; 0; 0; 0]%nat.

Definition rl_step (c : Z) (r : nat) (s : req_line) : req_line :=
  if c =? SP then
    if negb (c =? rl_c s) then mkRL (rl_i s) 0 c (rl_fld s) (<[rl_i s := rl_n s]> (rl_sz s))
    else mkRL (rl_i s) (rl_n s) c (rl_fld s) (rl_sz s)
  else if c =? CR then mkRL (rl_i s) 0 c (rl_fld s) (<[rl_i s := rl_n s]> (rl_sz s))
  else if c =? LF then mkRL (if rl_c s =? CR then 3%nat else rl_i s) (rl_n s) c (rl_fld s) (rl_sz s)
  else if rl_c s =? SP then mkRL (S (rl_i s)) 1 c (<[S (rl_i s) := Some r]> (rl_fld s)) (rl_sz s)
  else mkRL (rl_i s) (S (rl_n s)) c (rl_fld s) (rl_sz s).

(** [k = sz_max - r] iterations remain. *)
Fixpoint rl_loop (k : nat) (req : list Z) (r : nat) (s : req_line) : option (nat * req_line) :=
  match k with
  | O => Some (r, s)
  | S k =>
      if (rl_i s <? 3)%nat then
        c ← req !! r;
        rl_loop k req (S r) (rl_step c r s)
      else Some (r, s)
  end.

(** The fields of a scan that [parse_request_line] stores, by index. *)
Definition rl_field (sz_max i : nat) (s : req_line) : option (nat * nat) :=
  match rl_fld s !! i, rl_sz s !! i with
  | Some (Some off), Some sz => if (sz =? 0)%nat || negb (sz <? sz_max)%nat then None else Some (off, sz)
  | _, _ => None
  end.

(** ** A header line *)
Record var_line := mkVL {
  vl_i : nat; vl_n : nat; vl_c : Z; vl_val : bool;
  vl_fld : list (option nat);   (* fld[3] *)
  vl_sz : list nat
}.

Definition vl_init : var_line := mkVL 0 0 0 false [Some 0%nat; None; None] [0; 0; 0]%nat.

Definition vl_step (c : Z) (r : nat) (s : var_line) : var_line :=
  if c =? SP then
    mkVL (vl_i s) (if negb (vl_c s =? COLON) && negb (vl_i s =? 0)%nat then S (vl_n s) else vl_n s)
      c (vl_val s) (vl_fld s) (vl_sz s)
  else if c =? COLON then
    if (vl_i s =? 0)%nat then mkVL 1 0 c (vl_val s) (vl_fld s) (<[vl_i s := vl_n s]> (vl_sz s))
    else mkVL (vl_i s) (S (vl_n s)) c (vl_val s) (vl_fld s) (vl_sz s)
  else if c =? CR then
    mkVL (vl_i s) (vl_n s) c (vl_val s) (vl_fld s)
      (if negb (vl_i s =? 0)%nat then <[vl_i s := vl_n s]> (vl_sz s) else vl_sz s)
  else if c =? LF then mkVL (if vl_c s =? CR then 2%nat else vl_i s) (vl_n s) c (vl_val s) (vl_fld s) (vl_sz s)
  else if negb (vl_val s) && negb (vl_i s =? 0)%nat && (vl_c s =? SP) then
    mkVL (vl_i s) 1 c true (<[vl_i s := Some r]> (vl_fld s)) (vl_sz s)
  else mkVL (vl_i s) (S (vl_n s)) c (vl_val s) (vl_fld s) (vl_sz s).

Fixpoint vl_loop (k : nat) (var : list Z) (r : nat) (s : var_line) : option (nat * var_line) :=
  match k with
  | O => Some (r, s)
  | S k =>
      if (vl_i s <? 2)%nat then
        c ← var !! r;
        vl_loop k var (S r) (vl_step c r s)
      else Some (r, s)
  end.

(** The name and the value that [parse_var_line] adds. *)
Definition vl_pair (sz_max : nat) (s : var_line) : option (nat * nat * (nat * nat)) :=
  match vl_fld s, vl_sz s with
  | Some o0 :: Some o1 :: _, n0 :: n1 :: _ =>
      if negb (n0 =? 0)%nat && negb (n1 =? 0)%nat && (n0 <? sz_max)%nat && (n1 <? sz_max)%nat
      then Some ((o0, n0), (o1, n1)) else None
  | _, _ => None
  end.

(** ** Variables of a query *)
Record query := mkQ {
  q_name : option nat; q_value : option nat; q_sz_name : nat; q_sz_value : nat;
  q_out : list (nat * nat * (nat * nat))    (* the pairs added so far *)
}.

Definition q_init : query := mkQ None None 0 0 [].

(** [if(name && sz_name && value && sz_value) add] *)
Definition q_emit (q : query) : list (nat * nat * (nat * nat)) :=
  match q_name q, q_value q with
  | Some n, Some v =>
      if (q_sz_name q =? 0)%nat || (q_sz_value q =? 0)%nat then q_out q
      else q_out q ++ [((n, q_sz_name q), (v, q_sz_value q))]
  | _, _ => q_out q
  end.

Definition q_step (c : Z) (i : nat) (q : query) : query :=
  if c =? EQUALS then mkQ (q_name q) (Some (S i)) (q_sz_name q) (q_sz_value q) (q_out q)
  else if c =? AMP then mkQ None None 0 0 (q_emit q)
  else match q_value q, q_name q with
       | Some _, _ => mkQ (q_name q) (q_value q) (q_sz_name q) (S (q_sz_value q)) (q_out q)
       | None, Some _ => mkQ (q_name q) (q_value q) (S (q_sz_name q)) (q_sz_value q) (q_out q)
       | None, None => mkQ (Some i) (q_value q) 1 (q_sz_value q) (q_out q)
       end.

(** [for(; i < sz_decoded; i++)]: [k] bytes remain. *)
Fixpoint q_loop (k : nat) (decoded : list Z) (i : nat) (q : query) : option query :=
  match k with
  | O => Some q
  | S k => c ← decoded !! i; q_loop k decoded (S i) (q_step c i q)
  end.

Definition scan_query (decoded : list Z) (i sz_decoded : nat) : option (list (nat * nat * (nat * nat))) :=
  q_emit <$> q_loop (sz_decoded - i) decoded i q_init.

(** ** Tables *)
Definition http_resp_text : list (Z * list Z) :=
  [(100, str "Continue"); (101, str "Switching Protocols"); (200, str "OK"); (201, str "Created");
   (202, str "Accepted"); (203, str "Non-Authoritative Information"); (204, str "No Content");
   (205, str "Reset Content"); (206, str "Partial Content"); (300, str "Multiple Choices");
   (301, str "Moved Permanently"); (302, str "Found"); (303, str "See Other"); (304, str "Not Modified");
   (305, str "Use proxy"); (307, str "Temporary redirect"); (400, str "Bad Request");
   (401, str "Unauthorized"); (402, str "Payment Required"); (403, str "Forbidden"); (404, str "Not Found");
   (405, str "Method Not Allowed"); (406, str "Not Acceptable"); (407, str "Proxy Authentication Required");
   (408, str "Request Time-out"); (409, str "Conflict"); (410, str "Gone"); (411, str "Length Required");
   (412, str "Precondition Failed"); (413, str "Request Entity Too Large");
   (414, str "Request-URI Too Large"); (415, str "Unsupported Media Type"); (417, str "Expectation Failed");
   (500, str "Internal Server Error"); (501, str "Not Implemented"); (502, str "Bad Gateway");
   (503, str "Service Unavailable"); (504, str "Gateway Time-out"); (505, str "HTTP Version not supported")].

Fixpoint assoc_Z {A} (k : Z) (l : list (Z * A)) : option A :=
  match l with [] => None | (k', a) :: l => if k =? k' then Some a else assoc_Z k l end.

Definition get_rc_text (rc : Z) : list Z := default (str "...") (assoc_Z rc http_resp_text).

Definition http_method_map : list (Z * list Z) :=
  [(1, str "GET"); (2, str "HEAD"); (3, str "POST"); (4, str "PUT"); (5, str "DELETE");
   (6, str "CONNECT"); (7, str "OPTIONS"); (8, str "TRACE")].

(** The method number of a name, 0 for none. *)
Definition method_of (sm : list Z) : Z :=
  match list_find (fun e => e.2 = sm) http_method_map with Some (_, e) => e.1 | None => 0 end.

(** ** Round trips *)
Definition token (s : list Z) : Prop :=
  s <> [] /\ Forall (fun c => c <> SP /\ c <> CR /\ c <> LF) s.

Section request_line.
Implicit Types (s : req_line) (t : list Z).

(** The rest of a token: the counter grows by its length. *)
Lemma rl_token k req pre t post i n c fld sz :
  req = pre ++ t ++ post -> Forall (fun c => c <> SP /\ c <> CR /\ c <> LF) t ->
  (i < 3)%nat -> c <> SP ->
  rl_loop (length t + k) req (length pre) (mkRL i n c fld sz) =
  rl_loop k req (length (pre ++ t)) (mkRL i (n + length t) (default c (last t)) fld sz).
Proof.
  revert pre n c. induction t as [|x t IH]; intros pre n c Hreq Ht Hi Hc.
  { by rw app_nil_r /= Nat.add_0_r. }
  apply Forall_cons in Ht as [(H1 & H2 & H3) Ht]. cbn [length Nat.add rl_loop rl_i].
  destruct (Nat.ltb_spec i 3); [|lia]. rw Hreq list_lookup_middle // /=.
  unfold rl_step. apply Z.eqb_neq in H1 as E1, H2 as E2, H3 as E3, Hc as E4. rw E1 E2 E3 /= E4.
  replace (S (length pre)) with (length (pre ++ [x])) by (rw length_app /=; lia).
  rw -Hreq (IH (pre ++ [x])); [|by rw Hreq -app_assoc|done|done|done].
  rw -app_assoc last_cons. f_equal. f_equal; [lia|]. by destruct (last t).
Qed.

Lemma last_token t c : token t -> default c (last t) <> SP.
Proof.
  intros [Hne Ht]. destruct (last t) as [x|] eqn:E; [|by apply last_None in E]. cbn.
  apply last_Some in E as [l ->]. apply Forall_app in Ht as [_ Ht]. by apply Forall_singleton in Ht as [? _].
Qed.

(** A token after a space: field [S i] starts at it. *)
Lemma rl_field_start k req pre x t post i n fld sz :
  req = pre ++ (x :: t) ++ post -> token (x :: t) -> (i < 2)%nat ->
  rl_loop (length (x :: t) + k) req (length pre) (mkRL i n SP fld sz) =
  rl_loop k req (length (pre ++ x :: t)) (mkRL (S i) (length (x :: t)) (default x (last t))
    (<[S i := Some (length pre)]> fld) sz).
Proof.
  intros Hreq [_ Ht] Hi. apply Forall_cons in Ht as [(H1 & H2 & H3) Ht].
  cbn [length Nat.add rl_loop rl_i]. destruct (Nat.ltb_spec i 3); [|lia]. rw Hreq list_lookup_middle // /=.
  unfold rl_step. apply Z.eqb_neq in H1 as E1, H2 as E2, H3 as E3. rw E1 E2 E3 /=.
  replace (S (length pre)) with (length (pre ++ [x])) by (rw length_app /=; lia).
  rw -Hreq (rl_token k req (pre ++ [x]) t post); [|by rw Hreq -app_assoc|done|lia|done].
  rw -app_assoc. f_equal.
Qed.

Lemma rl_space k req pre post i n c fld sz :
  req = pre ++ SP :: post -> (i < 3)%nat -> c <> SP ->
  rl_loop (S k) req (length pre) (mkRL i n c fld sz) =
  rl_loop k req (length (pre ++ [SP])) (mkRL i 0 SP fld (<[i := n]> sz)).
Proof.
  intros Hreq Hi Hc. cbn [rl_loop rl_i]. destruct (Nat.ltb_spec i 3); [|lia].
  rw Hreq list_lookup_middle // /=. unfold rl_step. rw Z.eqb_refl. cbn [rl_c rl_i rl_n rl_fld rl_sz].
  destruct (Z.eqb_spec SP c) as [E|_]; [by subst c|]. cbn [negb]. by rw length_app /= Nat.add_1_r.
Qed.

Lemma rl_crlf k req pre post i n c fld sz :
  req = pre ++ CR :: LF :: post -> (i < 3)%nat ->
  rl_loop (S (S k)) req (length pre) (mkRL i n c fld sz) =
  Some (length (pre ++ [CR; LF]), mkRL 3 0 LF fld (<[i := n]> sz)).
Proof.
  intros Hreq Hi. assert (req !! length pre = Some CR) as E1 by by rw Hreq list_lookup_middle.
  assert (req !! S (length pre) = Some LF) as E2.
  { rw Hreq (assoc_L _ pre [CR]) list_lookup_middle //. rw length_app /=. lia. }
  destruct (Nat.ltb_spec i 3) as [_|]; [|lia]. cbn [rl_loop rl_i]. destruct (Nat.ltb_spec i 3); [|lia].
  rw E1. cbn [mbind option_bind]. unfold rl_step at 2. cbn [Z.eqb Pos.eqb CR SP LF rl_i rl_n rl_c rl_fld rl_sz].
  destruct (Nat.ltb_spec i 3); [|lia]. rw E2. cbn [mbind option_bind].
  rw length_app /=. replace (length pre + 2)%nat with (S (S (length pre))) by lia.
  destruct (Nat.ltb_spec i 3); [by destruct k|lia].
Qed.

(** The fields of the line: method SP url SP protocol CR LF. *)
Lemma request_line_fields req m u p rest sz_max :
  req = m ++ SP :: u ++ SP :: p ++ CR :: LF :: rest -> token m -> token u -> token p ->
  (length m + length u + length p + 4 <= sz_max)%nat ->
  exists s, rl_loop sz_max req 0 rl_init = Some ((length m + length u + length p + 4)%nat, s) /\
    rl_field sz_max 0 s = Some (0%nat, length m) /\
    rl_field sz_max 1 s = Some ((length m + 1)%nat, length u) /\
    rl_field sz_max 2 s = Some ((length m + length u + 2)%nat, length p).
Proof.
  intros Hreq Hm Hu Hp Hsz. pose proof Hm as [Hm0 Hm']. pose proof Hu as [Hu0 Hu']. pose proof Hp as [Hp0 Hp'].
  assert (forall t : list Z, t <> [] -> (0 < length t)%nat) as Hlen by (intros [|? ?] ?; simpl; [done|lia]).
  pose proof (Hlen m Hm0). pose proof (Hlen u Hu0). pose proof (Hlen p Hp0).
  assert (exists k, sz_max = (length m + S (length u + S (length p + S (S k))))%nat) as [k ->].
  { exists (sz_max - (length m + length u + length p + 4))%nat. lia. }
  unfold rl_init. pose proof (rl_token (S (length u + S (length p + S (S k)))) req [] m
    (SP :: u ++ SP :: p ++ CR :: LF :: rest) 0 0 0 [Some 0%nat; None; None; None] [0; 0; 0; 0]%nat Hreq Hm' ltac:(lia) ltac:(done)) as E1.
  cbn [length app Nat.add] in E1. rw E1.
  rw (rl_space _ req m (u ++ SP :: p ++ CR :: LF :: rest)); [|done|lia|by apply last_token].
  destruct u as [|x u]; [done|]. rw (rl_field_start _ req (m ++ [SP]) x u (SP :: p ++ CR :: LF :: rest)); [|by rw Hreq -!app_assoc|done|lia].
  rw (rl_space _ req ((m ++ [SP]) ++ x :: u) (p ++ CR :: LF :: rest)); [|by rw Hreq -!app_assoc|lia|].
  2:{ pose proof (last_token (x :: u) x Hu) as Hl. rw last_cons in Hl. by destruct (last u). }
  destruct p as [|y p]; [done|].
  rw (rl_field_start _ req (((m ++ [SP]) ++ x :: u) ++ [SP]) y p (CR :: LF :: rest)); [|by rw Hreq -!app_assoc|done|lia].
  rw (rl_crlf _ req ((((m ++ [SP]) ++ x :: u) ++ [SP]) ++ y :: p) rest); [|by rw Hreq -!app_assoc|lia].
  eexists. split; [f_equal; f_equal; rw !length_app /=; lia|].
  unfold rl_field. cbn [rl_fld rl_sz list_lookup list_insert lookup insert list_insert list_lookup].
  rw !length_app. cbn [length] in *.
  split_and!.
  - destruct (Nat.eqb_spec (length m) 0); [lia|]. destruct (Nat.ltb_spec (length m) (length m + S (S (length u) + S (S (length p) + S (S k))))); [done|lia].
  - destruct (Nat.ltb_spec (S (length u)) (length m + S (S (length u) + S (S (length p) + S (S k))))); [done|lia].
  - destruct (Nat.ltb_spec (S (length p)) (length m + S (S (length u) + S (S (length p) + S (S k))))); [|lia]. cbn. do 2 f_equal. lia.
Qed.
End request_line.

(** ** Header lines round trip *)
Definition header_name (s : list Z) : Prop :=
  s <> [] /\ Forall (fun c => c <> SP /\ c <> COLON /\ c <> CR /\ c <> LF) s.

(** No line break, and no space right after a colon; [c] comes before. *)
Fixpoint value_tail (c : Z) (t : list Z) : Prop :=
  match t with
  | [] => True
  | x :: t => x <> CR /\ x <> LF /\ (x = SP -> c <> COLON) /\ value_tail x t
  end.

Definition header_value (v : list Z) : Prop :=
  match v with
  | [] => False
  | x :: t => x <> SP /\ x <> COLON /\ x <> CR /\ x <> LF /\ value_tail x t
  end.

Section var_line.
Implicit Types (t : list Z).

Lemma vl_name k var pre t post n c val fld sz :
  var = pre ++ t ++ post -> Forall (fun c => c <> SP /\ c <> COLON /\ c <> CR /\ c <> LF) t ->
  vl_loop (length t + k) var (length pre) (mkVL 0 n c val fld sz) =
  vl_loop k var (length (pre ++ t)) (mkVL 0 (n + length t) (default c (last t)) val fld sz).
Proof.
  revert pre n c. induction t as [|x t IH]; intros pre n c Hv Ht.
  { by rw app_nil_r /= Nat.add_0_r. }
  apply Forall_cons in Ht as [(H1 & H2 & H3 & H4) Ht].
  assert (var !! length pre = Some x) as E by by rw Hv list_lookup_middle.
  cbn [length Nat.add vl_loop vl_i]. rw E. change (0 <? 2)%nat with true. cbn [mbind option_bind].
  unfold vl_step. apply Z.eqb_neq in H1, H2, H3, H4. rw H1 H2 H3 H4 /= andb_false_r /=.
  replace (S (length pre)) with (length (pre ++ [x])) by (rw length_app /=; lia).
  rw (IH (pre ++ [x])); [|by rw Hv -app_assoc|done]. rw -app_assoc last_cons.
  f_equal. f_equal; [lia|]. by destruct (last t).
Qed.

Lemma vl_value k var pre t post n c fld sz :
  var = pre ++ t ++ post -> value_tail c t ->
  vl_loop (length t + k) var (length pre) (mkVL 1 n c true fld sz) =
  vl_loop k var (length (pre ++ t)) (mkVL 1 (n + length t) (default c (last t)) true fld sz).
Proof.
  revert pre n c. induction t as [|x t IH]; intros pre n c Hv Ht.
  { by rw app_nil_r /= Nat.add_0_r. }
  destruct Ht as (H1 & H2 & H3 & Ht).
  assert (var !! length pre = Some x) as E by by rw Hv list_lookup_middle.
  assert (vl_step x (length pre) (mkVL 1 n c true fld sz) = mkVL 1 (S n) x true fld sz) as Es.
  { unfold vl_step. cbn [vl_i vl_n vl_c vl_val vl_fld vl_sz]. apply Z.eqb_neq in H1, H2. rw H1 H2.
    destruct (Z.eqb_spec x SP) as [->|]; [|by destruct (x =? COLON)].
    destruct (Z.eqb_spec c COLON) as [->|]; [by destruct H3|done]. }
  cbn [length Nat.add vl_loop vl_i]. rw E. change (1 <? 2)%nat with true. cbn [mbind option_bind]. rw Es.
  replace (S (length pre)) with (length (pre ++ [x])) by (rw length_app /=; lia).
  rw (IH (pre ++ [x])); [|by rw Hv -app_assoc|done]. rw -app_assoc last_cons.
  f_equal. f_equal; [lia|]. by destruct (last t).
Qed.

(** One byte, by computation of the step. *)
Lemma vl_one k var pre x post s s' :
  var = pre ++ x :: post -> (vl_i s < 2)%nat -> vl_step x (length pre) s = s' ->
  vl_loop (S k) var (length pre) s = vl_loop k var (length (pre ++ [x])) s'.
Proof.
  intros Hv Hi <-. cbn [vl_loop]. destruct (Nat.ltb_spec (vl_i s) 2); [|lia].
  rw Hv list_lookup_middle // /=. by rw length_app /= Nat.add_1_r.
Qed.

Lemma vl_done k var r s : vl_i s = 2%nat -> vl_loop k var r s = Some (r, s).
Proof. intros E. destruct k; [done|]. cbn [vl_loop]. by rw E. Qed.

(** The pair of the line: name, colon, space, value, CR LF. *)
Lemma var_line_pair var nm v rest sz_max :
  var = nm ++ COLON :: SP :: v ++ CR :: LF :: rest -> header_name nm -> header_value v ->
  (length nm + length v + 4 <= sz_max)%nat ->
  exists s, vl_loop sz_max var 0 vl_init = Some ((length nm + length v + 4)%nat, s) /\
    vl_pair sz_max s = Some ((0%nat, length nm), ((length nm + 2)%nat, length v)).
Proof.
  intros Hv [Hn0 Hn] Hval Hsz. destruct v as [|x t]; [done|]. destruct Hval as (H1 & H2 & H3 & H4 & Ht).
  assert (0 < length nm)%nat as Hpos by (destruct nm; simpl; [done|lia]).
  assert (exists k, sz_max = (length nm + S (S (S (length t + S (S k)))))%nat) as [k ->].
  { exists (sz_max - (length nm + length (x :: t) + 4))%nat. simpl in *. lia. }
  pose proof (vl_name (S (S (S (length t + S (S k))))) var [] nm (COLON :: SP :: (x :: t) ++ CR :: LF :: rest) 0 0 false
    [Some 0%nat; None; None] [0; 0; 0]%nat Hv Hn) as E. cbn [length app Nat.add] in E. unfold vl_init. rw E.
  rw (vl_one _ var nm COLON (SP :: (x :: t) ++ CR :: LF :: rest) _ (mkVL 1 0 COLON false [Some 0%nat; None; None] [length nm; 0; 0]%nat));
    [|done|simpl; lia|done].
  rw (vl_one _ var (nm ++ [COLON]) SP ((x :: t) ++ CR :: LF :: rest) _ (mkVL 1 0 SP false [Some 0%nat; None; None] [length nm; 0; 0]%nat));
    [|by rw Hv -app_assoc|simpl; lia|done].
  rw (vl_one _ var ((nm ++ [COLON]) ++ [SP]) x (t ++ CR :: LF :: rest) _
    (mkVL 1 1 x true [Some 0%nat; Some (length ((nm ++ [COLON]) ++ [SP])); None] [length nm; 0; 0]%nat));
    [|by rw Hv -!app_assoc|simpl; lia|].
  2:{ unfold vl_step. apply Z.eqb_neq in H1, H2, H3, H4. by rw H1 H2 H3 H4. }
  rw (vl_value _ var (((nm ++ [COLON]) ++ [SP]) ++ [x]) t (CR :: LF :: rest)); [|by rw Hv -!app_assoc|done].
  rw (vl_one _ var ((((nm ++ [COLON]) ++ [SP]) ++ [x]) ++ t) CR (LF :: rest) _
    (mkVL 1 (1 + length t) CR true [Some 0%nat; Some (length ((nm ++ [COLON]) ++ [SP])); None] [length nm; 1 + length t; 0]%nat));
    [|by rw Hv -!app_assoc|simpl; lia|done].
  rw (vl_one _ var (((((nm ++ [COLON]) ++ [SP]) ++ [x]) ++ t) ++ [CR]) LF rest _
    (mkVL 2 (1 + length t) LF true [Some 0%nat; Some (length ((nm ++ [COLON]) ++ [SP])); None] [length nm; 1 + length t; 0]%nat));
    [|by rw Hv -!app_assoc|simpl; lia|done].
  rw vl_done //. eexists. split; [f_equal; f_equal; rw !length_app /=; lia|].
  unfold vl_pair. cbn [vl_fld vl_sz]. rw !length_app. cbn [length Nat.add].
  destruct (Nat.eqb_spec (length nm) 0); [lia|].
  destruct (Nat.ltb_spec (length nm) (length nm + S (S (S (length t + S (S k)))))); [|lia].
  destruct (Nat.ltb_spec (S (length t)) (length nm + S (S (S (length t + S (S k)))))); [|lia].
  cbn. do 3 f_equal. lia.
Qed.

(** The empty line that ends a header. *)
Lemma var_line_empty var rest sz_max :
  var = CR :: LF :: rest -> (2 <= sz_max)%nat ->
  exists s, vl_loop sz_max var 0 vl_init = Some (2%nat, s) /\ vl_pair sz_max s = None.
Proof.
  intros Hv Hsz. destruct sz_max as [|[|k]]; [lia|lia|]. rw Hv.
  exists (mkVL 2 0 LF false [Some 0%nat; None; None] [0; 0; 0]%nat). split; [|done]. cbn. by destruct k.
Qed.
End var_line.

(** ** Queries round trip *)
Definition query_char (c : Z) : Prop := c <> EQUALS /\ c <> AMP.

(** name=value pairs joined by ampersands. *)
Fixpoint render_query (l : list (list Z * list Z)) : list Z :=
  match l with
  | [] => []
  | [(n, v)] => n ++ EQUALS :: v
  | (n, v) :: l => n ++ EQUALS :: v ++ AMP :: render_query l
  end.

Definition pair_ok (p : list Z * list Z) : Prop :=
  p.1 <> [] /\ p.2 <> [] /\ Forall query_char p.1 /\ Forall query_char p.2.

(** The bytes of a field; past the end they are read out of bounds. *)
Definition bytes_at (m : list Z) (off n : nat) : option (list Z) :=
  if (off + n <=? length m)%nat then Some (take n (drop off m)) else None.

Section queries.
Implicit Types (t : list Z) (q : query).

Lemma q_name_run k d pre t post n o :
  d = pre ++ t ++ post -> Forall query_char t ->
  forall nm, q_loop (length t + k) d (length pre) (mkQ (Some nm) None n 0 o) =
    q_loop k d (length (pre ++ t)) (mkQ (Some nm) None (n + length t) 0 o).
Proof.
  revert pre n. induction t as [|x t IH]; intros pre n Hd Ht nm.
  { by rw app_nil_r /= Nat.add_0_r. }
  apply Forall_cons in Ht as [[H1 H2] Ht]. assert (d !! length pre = Some x) as E by by rw Hd list_lookup_middle.
  cbn [length Nat.add q_loop]. rw E. cbn [mbind option_bind]. unfold q_step. apply Z.eqb_neq in H1, H2. rw H1 H2 /=.
  replace (S (length pre)) with (length (pre ++ [x])) by (rw length_app /=; lia).
  rw (IH (pre ++ [x])); [|by rw Hd -app_assoc|done]. rw -app_assoc. f_equal. f_equal. lia.
Qed.

Lemma q_value_run k d pre t post n sv o nm v :
  d = pre ++ t ++ post -> Forall query_char t ->
  q_loop (length t + k) d (length pre) (mkQ nm (Some v) n sv o) =
  q_loop k d (length (pre ++ t)) (mkQ nm (Some v) n (sv + length t) o).
Proof.
  revert pre sv. induction t as [|x t IH]; intros pre sv Hd Ht.
  { by rw app_nil_r /= Nat.add_0_r. }
  apply Forall_cons in Ht as [[H1 H2] Ht]. assert (d !! length pre = Some x) as E by by rw Hd list_lookup_middle.
  cbn [length Nat.add q_loop]. rw E. cbn [mbind option_bind]. unfold q_step. apply Z.eqb_neq in H1, H2. rw H1 H2 /=.
  replace (S (length pre)) with (length (pre ++ [x])) by (rw length_app /=; lia).
  rw (IH (pre ++ [x])); [|by rw Hd -app_assoc|done]. rw -app_assoc. f_equal. f_equal. lia.
Qed.

Lemma q_one k d pre x post q :
  d = pre ++ x :: post -> q_loop (S k) d (length pre) q = q_loop k d (length (pre ++ [x])) (q_step x (length pre) q).
Proof. intros Hd. cbn [q_loop]. rw Hd list_lookup_middle // /=. by rw length_app /= Nat.add_1_r. Qed.

(** One pair: the scanner stands behind it with both fields set. *)
Lemma q_pair_run k d pre n v post o :
  d = pre ++ n ++ EQUALS :: v ++ post -> pair_ok (n, v) ->
  q_loop (length n + S (length v + k)) d (length pre) (mkQ None None 0 0 o) =
  q_loop k d (length (pre ++ n ++ EQUALS :: v))
    (mkQ (Some (length pre)) (Some (length (pre ++ n ++ [EQUALS]))) (length n) (length v) o).
Proof.
  intros Hd (Hn & Hv & Hnc & Hvc). cbn [fst snd] in *. destruct n as [|x n]; [done|].
  apply Forall_cons in Hnc as [[H1 H2] Hnc]. cbn [length Nat.add].
  rw (q_one _ d pre x (n ++ EQUALS :: v ++ post)); [|by rw Hd]. unfold q_step at 1. apply Z.eqb_neq in H1, H2. rw H1 H2 /=.
  rw (q_name_run _ d (pre ++ [x]) n (EQUALS :: v ++ post)); [|by rw Hd -app_assoc|done].
  rw (q_one _ d ((pre ++ [x]) ++ n) EQUALS (v ++ post)); [|by rw Hd -!app_assoc]. unfold q_step at 1. rw Z.eqb_refl. cbn [q_name q_value q_sz_name q_sz_value q_out].
  rw (q_value_run _ d (((pre ++ [x]) ++ n) ++ [EQUALS]) v post); [|by rw Hd -!app_assoc|done].
  rw -!app_assoc. cbn [app]. f_equal. f_equal. f_equal. rw !length_app /= !length_app /=. lia.
Qed.

Definition pair_bytes (d : list Z) (p : nat * nat * (nat * nat)) : option (list Z * list Z) :=
  n ← bytes_at d p.1.1 p.1.2; v ← bytes_at d p.2.1 p.2.2; Some (n, v).

Lemma bytes_middle (a b c : list Z) : bytes_at (a ++ b ++ c) (length a) (length b) = Some b.
Proof.
  unfold bytes_at. destruct (Nat.leb_spec (length a + length b) (length (a ++ b ++ c))) as [_|H]; [|rw !length_app in H; lia].
  by rw drop_app_length take_app_length.
Qed.

Lemma pair_bytes_at pre n v post :
  pair_bytes (pre ++ n ++ EQUALS :: v ++ post) ((length pre, length n), (length (pre ++ n ++ [EQUALS]), length v)) = Some (n, v).
Proof.
  unfold pair_bytes. cbn [fst snd]. rw bytes_middle. cbn [mbind option_bind].
  by rw (assoc_L _ pre n) (assoc_L _ (pre ++ n) [EQUALS]) -(assoc_L _ pre n [EQUALS]) bytes_middle.
Qed.

Lemma q_emit_pair nm v sn sv o : (0 < sn)%nat -> (0 < sv)%nat ->
  q_emit (mkQ (Some nm) (Some v) sn sv o) = o ++ [((nm, sn), (v, sv))].
Proof. intros. unfold q_emit. cbn. destruct (Nat.eqb_spec sn 0), (Nat.eqb_spec sv 0); try lia. done. Qed.

Lemma render_query_cons n v l : l <> [] -> render_query ((n, v) :: l) = n ++ EQUALS :: v ++ AMP :: render_query l.
Proof. by destruct l. Qed.

(** The scanner finds the pairs of a rendered query. *)
Lemma scan_pairs l d pre post o :
  Forall pair_ok l -> l <> [] -> d = pre ++ render_query l ++ post ->
  exists q fs, q_loop (length (render_query l)) d (length pre) (mkQ None None 0 0 o) = Some q /\
    q_emit q = o ++ fs /\ mapM (pair_bytes d) fs = Some l.
Proof.
  revert pre o. induction l as [|[n v] l IH]; intros pre o Hl Hne Hd; [done|].
  apply Forall_cons in Hl as [Hp Hl]. pose proof Hp as (Hn & Hv & _). cbn [fst snd] in *.
  assert (0 < length n)%nat by (destruct n; simpl; [done|lia]).
  assert (0 < length v)%nat by (destruct v; simpl; [done|lia]).
  destruct (decide (l = [])) as [->|Hl0].
  - cbn [render_query] in *.
    assert (d = pre ++ n ++ EQUALS :: v ++ post) as Hd' by by rw Hd -!app_assoc.
    replace (length (n ++ EQUALS :: v)) with (length n + S (length v + 0))%nat by (rw length_app /=; lia).
    rw (q_pair_run _ d pre n v post); [|done|done]. eexists _, _. split; [reflexivity|].
    split; [by rw q_emit_pair|]. cbn [mapM]. by rw Hd' pair_bytes_at.
  - rw render_query_cons // in Hd. rw render_query_cons //.
    assert (d = pre ++ n ++ EQUALS :: v ++ (AMP :: render_query l ++ post)) as Hd'.
    { rw Hd -?app_assoc /= -?app_assoc. done. }
    replace (length (n ++ EQUALS :: v ++ AMP :: render_query l)) with (length n + S (length v + S (length (render_query l))))%nat
      by (rw !length_app /= !length_app /=; lia).
    rw (q_pair_run _ d pre n v (AMP :: render_query l ++ post)); [|done|done].
    rw (q_one _ d (pre ++ n ++ EQUALS :: v) AMP (render_query l ++ post)); [|by rw Hd' -?app_assoc /= -?app_assoc].
    unfold q_step at 1. cbn [Z.eqb Pos.eqb EQUALS AMP]. rw q_emit_pair //.
    destruct (IH ((pre ++ n ++ EQUALS :: v) ++ [AMP]) (o ++ [((length pre, length n), (length (pre ++ n ++ [EQUALS]), length v))]) Hl Hl0)
      as (q & fs & -> & Hq & Hfs).
    { rw Hd' -?app_assoc /= -?app_assoc. done. }
    eexists _, _. split; [reflexivity|]. split; [rw Hq -app_assoc; reflexivity|]. cbn [app mapM]. rw Hfs.
    by rw Hd' pair_bytes_at.
Qed.
End queries.

(** The name and the value of a header line. *)
Lemma pair_bytes_line nm v rest :
  pair_bytes (nm ++ COLON :: SP :: v ++ CR :: LF :: rest) ((0%nat, length nm), ((length nm + 2)%nat, length v)) = Some (nm, v).
Proof.
  unfold pair_bytes. cbn [fst snd]. rw (bytes_middle [] nm). cbn [mbind option_bind].
  assert (nm ++ COLON :: SP :: v ++ CR :: LF :: rest = (nm ++ [COLON; SP]) ++ v ++ CR :: LF :: rest) as -> by by rw -app_assoc.
  replace (length nm + 2)%nat with (length (nm ++ [COLON; SP])) by (rw length_app /=; lia). by rw bytes_middle.
Qed.

(** ** The properties *)
(** round trip of a query: from a rendered list of name=value pairs joined
    by ampersands the variable loop of [parse_url] and [req_parse_content] finds
    exactly those pairs, in order, whatever bytes surround them. *)
Theorem query_roundtrip l pre post :
  Forall pair_ok l -> l <> [] ->
  let d := pre ++ render_query l ++ post in
  exists fs, scan_query d (length pre) (length pre + length (render_query l)) = Some fs /\
    mapM (pair_bytes d) fs = Some l.
Proof.
  intros Hl Hne d. destruct (scan_pairs l d pre post [] Hl Hne eq_refl) as (q & fs & Hq & He & Hfs).
  exists fs. split; [|done]. unfold scan_query, q_init.
  replace (length pre + length (render_query l) - length pre)%nat with (length (render_query l)) by lia.
  by rw Hq /= He.
Qed.

Definition demo_query : list (list Z * list Z) := [(str "a", str "1"); (str "name", str "x y")].

Lemma query_roundtrip_witness :
  let d := str "/p?" ++ render_query demo_query ++ [0] in
  exists fs, scan_query d 3 (3 + length (render_query demo_query)) = Some fs /\ mapM (pair_bytes d) fs = Some demo_query.
Proof.
  apply (query_roundtrip demo_query (str "/p?") [0]); [|discriminate].
  repeat constructor; cbn; (congruence || done).
Defined.

(** a header line [name: value CR LF] gives back its name and its value, and
    the scanner stops behind the line break. *)
Theorem header_line_roundtrip nm v rest :
  header_name nm -> header_value v ->
  let line := nm ++ COLON :: SP :: v ++ CR :: LF :: rest in
  exists s f, vl_loop (length line) line 0 vl_init = Some ((length nm + length v + 4)%nat, s) /\
    vl_pair (length line) s = Some f /\ pair_bytes line f = Some (nm, v).
Proof.
  intros Hn Hv line. destruct (var_line_pair line nm v rest (length line)) as (s & Hl & Hp); [done|done|done| |].
  { unfold line. rw !length_app /= !length_app /=. lia. }
  exists s, ((0%nat, length nm), ((length nm + 2)%nat, length v)). split_and!; [done|done|].
  by apply pair_bytes_line.
Qed.

Lemma header_line_roundtrip_witness :
  let line := str "Host" ++ COLON :: SP :: str "a b:80" ++ CR :: LF :: [CR; LF] in
  exists s f, vl_loop (length line) line 0 vl_init = Some (14%nat, s) /\
    vl_pair (length line) s = Some f /\ pair_bytes line f = Some (str "Host", str "a b:80").
Proof.
  apply (header_line_roundtrip (str "Host") (str "a b:80") [CR; LF]).
  - split; [discriminate|]. apply (bool_decide_unpack _). vm_compute. exact I.
  - vm_compute. repeat split; intros; discriminate.
Defined.

(** what the scanners get wrong.  A second equals sign restarts the value
    but not its length, so the pair reaches past the end of the query; a space
    after a colon inside a header value is not counted, so the value loses its
    last byte; a header without a space after the colon is dropped. *)
Example scanner_defects :
  (scan_query (str "a=b=c") 0 5 = Some [((0, 1), (4, 2))]%nat) /\
  (exists s, vl_loop 9 (str "A: b: c" ++ [CR; LF]) 0 vl_init = Some (9%nat, s) /\
     vl_pair 9 s = Some ((0, 1), (3, 3))%nat) /\
  (exists s, vl_loop 5 (str "A:b" ++ [CR; LF]) 0 vl_init = Some (5%nat, s) /\ vl_pair 5 s = None).
Proof. split_and!; [|eexists; split|eexists; split]; vm_compute; reflexivity. Qed.
