(* ===== verification/Socket.v ===== *)
(** * Sockets (io/libnet/socket.cpp [cSocketIO])

    The calls of the operating system and of the TLS library are parameters,
    gathered in [SockOs]; [SockOsLaws] is what their manuals promise: a call
    returns at most what it was asked for.  [os_sent] names the bytes the peer
    gets, so that the clients can say what was sent. *)
From S2P Require Import Prelude.
Set Default Goal Selector "!".

Definition SOCKET_IO_UDP : Z := 1.
Definition SOCKET_IO_TCP : Z := 2.
Definition SOCKET_IO_SSL_SERVER : Z := 3.
Definition SOCKET_IO_SSL_CLIENT : Z := 4.
Definition SSL_ERROR_SSL : Z := 1.
Definition SSL_ERROR_SYSCALL : Z := 5.
Definition SSL_ERROR_ZERO_RETURN : Z := 6.

(** [os_read]/[os_write]: [::read]/[recvfrom] and [send]/[sendto];
    [ssl_read]/[ssl_write] and the error of the last call. *)
Class SockOs (O : Type) := {
  os_read : O -> Z -> Z * list Z * O;
  os_write : O -> list Z -> Z * O;
  ssl_read : O -> Z -> Z * list Z * O;
  ssl_write : O -> list Z -> Z * O;
  ssl_error : O -> Z;
  os_set_blocking : O -> bool -> O;
  os_shutdown : O -> O;     (* the peer is drained, TLS and the socket are closed *)
  os_sent : O -> list Z
}.

Class SockOsLaws (O : Type) `{SockOs O} := {
  os_read_law o n : 0 <= n ->
    (os_read o n).1.1 <= n /\ Z.of_nat (length (os_read o n).1.2) = Z.max 0 (os_read o n).1.1 /\
    os_sent (os_read o n).2 = os_sent o;
  os_write_law o d :
    (os_write o d).1 <= Z.of_nat (length d) /\
    os_sent (os_write o d).2 = os_sent o ++ take (Z.to_nat (os_write o d).1) d;
  ssl_read_law o n : 0 <= n ->
    (ssl_read o n).1.1 <= n /\ Z.of_nat (length (ssl_read o n).1.2) = Z.max 0 (ssl_read o n).1.1 /\
    os_sent (ssl_read o n).2 = os_sent o;
  ssl_write_law o d :
    (ssl_write o d).1 <= Z.of_nat (length d) /\
    os_sent (ssl_write o d).2 = os_sent o ++ take (Z.to_nat (ssl_write o d).1) d;
  os_blocking_law o b : os_sent (os_set_blocking o b) = os_sent o;
  os_shutdown_law o : os_sent (os_shutdown o) = os_sent o
}.

Record sock {O : Type} := mkSock { m_socket : Z; m_mode : Z; m_alive : bool; s_os : O }.
Arguments sock : clear implicits.

Section socket.
Context {O : Type} `{SockOs O}.
Abbreviation SM := (M (sock O)).

Definition set_os (o : O) (s : sock O) : sock O := mkSock O (m_socket s) (m_mode s) (m_alive s) o.
Definition set_alive (b : bool) (s : sock O) : sock O := mkSock O (m_socket s) (m_mode s) b (s_os s).

Definition ssl_broken (e : Z) : bool :=
  (e =? SSL_ERROR_ZERO_RETURN) || (e =? SSL_ERROR_SYSCALL) || (e =? SSL_ERROR_SSL).

(** The bytes stored at [data]; their number is the value returned. *)
Definition read (size : Z) : SM (list Z) := fun s =>
  if negb (m_socket s =? 0) && m_alive s && negb (size =? 0) then
    if (m_mode s =? SOCKET_IO_UDP) || (m_mode s =? SOCKET_IO_TCP) then
      let '(r, d, o) := os_read (s_os s) size in
      if 0 <? r then Some (d, set_os o s)
      else Some ([], set_alive (if r =? 0 then false else m_alive s) (set_os o s))
    else if (m_mode s =? SOCKET_IO_SSL_SERVER) || (m_mode s =? SOCKET_IO_SSL_CLIENT) then
      let '(r, d, o) := ssl_read (s_os s) size in
      if 0 <? r then Some (d, set_os o s)
      else Some ([], set_alive (if ssl_broken (ssl_error o) then false else m_alive s) (set_os o s))
    else Some ([], s)
  else Some ([], s).

Definition write (data : list Z) : SM Z := fun s =>
  if negb (m_socket s =? 0) && m_alive s && negb (Z.of_nat (length data) =? 0) then
    if (m_mode s =? SOCKET_IO_UDP) || (m_mode s =? SOCKET_IO_TCP) then
      let '(r, o) := os_write (s_os s) data in
      if 0 <? r then Some (r, set_os o s) else Some (0, set_alive false (set_os o s))
    else if (m_mode s =? SOCKET_IO_SSL_SERVER) || (m_mode s =? SOCKET_IO_SSL_CLIENT) then
      let '(r, o) := ssl_write (s_os s) data in
      if 0 <? r then Some (r, set_os o s)
      else Some (0, set_alive (if ssl_broken (ssl_error o) then false else m_alive s) (set_os o s))
    else Some (0, s)
  else Some (0, s).

Definition blocking (mode : bool) : SM unit := fun s =>
  Some (tt, if negb (m_socket s =? 0) then set_os (os_set_blocking (s_os s) mode) s else s).

Definition alive : SM bool := gets m_alive.

Definition _close : SM unit := fun s =>
  Some (tt, if negb (m_socket s =? 0)
            then mkSock O 0 (m_mode s) (m_alive s) (os_shutdown (os_set_blocking (s_os s) false)) else s).
End socket.

(** What the clients rely on. *)
Section laws.
Context {O : Type} `{SL : SockOsLaws O}.

Definition sent (s : sock O) : list Z := os_sent (s_os s).

Lemma read_spec size s : 0 <= size ->
  wp (read size) s (fun d s' => Z.of_nat (length d) <= size /\ sent s' = sent s /\
    (m_alive s = false -> d = [] /\ s' = s)).
Proof.
  intros Hs. unfold wp, read, sent.
  destruct (negb (m_socket s =? 0) && m_alive s && negb (size =? 0)) eqn:Eg.
  - assert (m_alive s = true) as Ea by (destruct (m_alive s); [done|by rw andb_false_r in Eg]). rw Ea.
    destruct ((m_mode s =? SOCKET_IO_UDP) || (m_mode s =? SOCKET_IO_TCP)).
    + destruct (os_read_law (s_os s) size Hs) as (H1 & H2 & H3).
      destruct (os_read (s_os s) size) as [[r d] o]. cbn in *.
      destruct (Z.ltb_spec 0 r); cbn; (split_and!; [lia|done|done]).
    + destruct ((m_mode s =? SOCKET_IO_SSL_SERVER) || (m_mode s =? SOCKET_IO_SSL_CLIENT)); [|by split_and!; cbn; [lia|..]].
      destruct (ssl_read_law (s_os s) size Hs) as (H1 & H2 & H3).
      destruct (ssl_read (s_os s) size) as [[r d] o]. cbn in *.
      destruct (Z.ltb_spec 0 r); cbn; (split_and!; [lia|done|done]).
  - cbn. split_and!; [lia|done|done].
Qed.

Lemma write_spec data s :
  wp (write data) s (fun r s' => 0 <= r <= Z.of_nat (length data) /\
    sent s' = sent s ++ take (Z.to_nat r) data /\ (m_alive s = false -> r = 0 /\ s' = s) /\
    m_socket s' = m_socket s /\ m_mode s' = m_mode s).
Proof.
  unfold wp, write, sent.
  assert (forall r o, r <= 0 -> os_sent o = os_sent (s_os s) ++ take (Z.to_nat r) data -> os_sent o = os_sent (s_os s) ++ take 0 data) as Hz.
  { intros r o Hr ->. by replace (Z.to_nat r) with 0%nat by lia. }
  destruct (negb (m_socket s =? 0) && m_alive s && negb (Z.of_nat (length data) =? 0)) eqn:Eg.
  - assert (m_alive s = true) as Ea by (destruct (m_alive s); [done|by rw andb_false_r in Eg]). rw Ea.
    destruct ((m_mode s =? SOCKET_IO_UDP) || (m_mode s =? SOCKET_IO_TCP)).
    + destruct (os_write_law (s_os s) data) as (H1 & H2). destruct (os_write (s_os s) data) as [r o]. cbn in *.
      destruct (Z.ltb_spec 0 r); cbn; (split_and!; try done; try lia). by eapply Hz.
    + destruct ((m_mode s =? SOCKET_IO_SSL_SERVER) || (m_mode s =? SOCKET_IO_SSL_CLIENT));
        [|cbn; by rw app_nil_r; split_and!; [lia|lia|..]].
      destruct (ssl_write_law (s_os s) data) as (H1 & H2). destruct (ssl_write (s_os s) data) as [r o]. cbn in *.
      destruct (Z.ltb_spec 0 r); cbn; (split_and!; try done; try lia). by eapply Hz.
  - cbn. rw app_nil_r. by split_and!; [lia|lia|..].
Qed.

Lemma blocking_spec b s :
  wp (blocking b) s (fun _ s' => sent s' = sent s /\ m_alive s' = m_alive s /\ m_socket s' = m_socket s /\ m_mode s' = m_mode s).
Proof. unfold wp, blocking, sent. destruct (m_socket s =? 0); cbn; [done|]. by rw os_blocking_law. Qed.

Lemma close_spec s :
  wp _close s (fun _ s' => sent s' = sent s /\ m_socket s' = 0).
Proof.
  unfold wp, _close, sent. destruct (Z.eqb_spec (m_socket s) 0); cbn; [done|].
  by rw os_shutdown_law os_blocking_law.
Qed.
End laws.

(** ** A scripted peer, for the examples *)
(** Reads deliver the next chunk of the script ([None]: nothing yet); an empty
    script is a closed connection.  Writes take at most [w] bytes each. *)
Record script := mkScript { sc_in : list (option (list Z)); sc_w : Z; sc_out : list Z }.

Definition script_read (o : script) (n : Z) : Z * list Z * script :=
  match sc_in o with
  | Some d :: l =>
      let d1 := take (Z.to_nat n) d in
      let d2 := drop (Z.to_nat n) d in
      (Z.of_nat (length d1), d1, mkScript (if bool_decide (d2 = []) then l else Some d2 :: l) (sc_w o) (sc_out o))
  | None :: l => (-1, [], mkScript l (sc_w o) (sc_out o))
  | [] => (0, [], o)
  end.

Definition script_write (o : script) (d : list Z) : Z * script :=
  let d' := take (Z.to_nat (sc_w o)) d in
  (Z.of_nat (length d'), mkScript (sc_in o) (sc_w o) (sc_out o ++ d')).

#[global] Instance script_os : SockOs script := {
  os_read := script_read; os_write := script_write; ssl_read := script_read; ssl_write := script_write;
  ssl_error _ := 2; os_set_blocking o _ := o; os_shutdown o := o; os_sent := sc_out
}.

Lemma script_read_law o n : 0 <= n ->
  (script_read o n).1.1 <= n /\ Z.of_nat (length (script_read o n).1.2) = Z.max 0 (script_read o n).1.1 /\
  sc_out (script_read o n).2 = sc_out o.
Proof.
  intros Hn. unfold script_read. destruct (sc_in o) as [|[d|] l]; cbn; rw ?length_take; split_and!; (done || lia).
Qed.

Lemma script_write_law o d :
  (script_write o d).1 <= Z.of_nat (length d) /\
  sc_out (script_write o d).2 = sc_out o ++ take (Z.to_nat (script_write o d).1) d.
Proof.
  unfold script_write. cbn. rw length_take. split; [lia|]. f_equal. rw Nat2Z.id.
  destruct (Nat.le_gt_cases (Z.to_nat (sc_w o)) (length d)).
  - by rw Nat.min_l.
  - rw Nat.min_r; [|lia]. by rw !take_ge; [|lia|lia].
Qed.

#[global] Instance script_laws : SockOsLaws script.
Proof. split; [exact script_read_law|exact script_write_law|exact script_read_law|exact script_write_law|done|done]. Qed.
