(* ===== verification/BufferPool.v ===== *)
(** * Buffers of a server (io/libnet/http.cpp [buffer_io] over core/mem/bmap.cpp)

    [BufferPool] is the part of [iBufferMap] that the connections use, with the
    contents of the buffers; [BufferPoolLaws] is what they rely on.  The
    instance runs the buffer map of BufferMap.v and feeds the events of its
    callback to [buffer_io], which clears a buffer when it is handed out. *)
From S2P Require Import Prelude Memory Mutex LinkedList LinkedListSpec LinkedListEdit ColumnList ListClient BufferMap.
Set Default Goal Selector "!".

(** [bp_load]/[bp_store] access all the bytes at [ptr(h)]. *)
Class BufferPool (B : Type) := {
  bp_size : B -> Z;
  bp_alloc : M B Z;
  bp_free : Z -> M B unit;
  bp_load : Z -> M B (list Z);
  bp_store : Z -> list Z -> M B unit
}.

(** [bp_rep b n m]: buffers of [n] bytes, [m] those in use, by handle. *)
Class BufferPoolLaws (B : Type) `{BufferPool B} := {
  bp_rep : B -> Z -> gmap Z (list Z) -> Prop;
  bp_rep_size b n m : bp_rep b n m -> bp_size b = n /\ 0 < n < 2 ^ 32;
  bp_rep_handle b n m h d : bp_rep b n m -> m !! h = Some d -> 0 < h /\ Z.of_nat (length d) = n;
  bp_alloc_law b n m : bp_rep b n m -> Z.of_nat (base.size m) + 1 < 2 ^ 32 ->
    wp bp_alloc b (fun r b' => (r = 0 /\ bp_rep b' n m) \/
      (0 < r /\ m !! r = None /\ bp_rep b' n (<[r := replicate (Z.to_nat n) 0]> m)));
  bp_free_law b n m h : bp_rep b n m -> is_Some (m !! h) ->
    wp (bp_free h) b (fun _ b' => bp_rep b' n (delete h m));
  bp_load_law b n m h d : bp_rep b n m -> m !! h = Some d ->
    wp (bp_load h) b (fun r b' => r = d /\ b' = b);
  bp_store_law b n m h d : bp_rep b n m -> is_Some (m !! h) -> Z.of_nat (length d) = n ->
    wp (bp_store h d) b (fun _ b' => bp_rep b' n (<[h := d]> m))
}.

(** ** The buffer map with its contents *)
(** One event of the callback: the operation, the buffer, its size, user data. *)
Definition buffer_io (mem : gmap Z (list Z)) (e : Z * Z * Z * Z) : gmap Z (list Z) :=
  let '(op, p, size, _) := e in
  if op =? BIO_INIT then <[p := replicate (Z.to_nat size) 0]> mem else mem.

Definition bpool (C : Type) : Type := (C * bmap) * gmap Z (list Z).

Section pool.
Context {C : Type} `{ColumnList C buffer}.
Context (stack : list Z).

(** A call on the buffer map; the callback runs inside it. *)
Definition with_io {R} (m : M (C * bmap) R) : M (bpool C) R := fun s =>
  match m s.1 with
  | Some (r, s') => Some (r, (s', foldl buffer_io s.2 (drop (length (io s.1.2)) (io s'.2))))
  | None => None
  end.

(** The bytes at an address. *)
Definition contents (p : Z) : M (bpool C) (list Z) := fun s => (fun d => (d, s)) <$> s.2 !! p.

#[global] Instance buffer_map_pool : BufferPool (bpool C) := {
  bp_size s := m_bsize s.1.2;
  bp_alloc := with_io (alloc stack 0);
  bp_free h := with_io (free h);
  bp_load h := p ← with_io (ptr h); contents p;
  bp_store h d := p ← with_io (ptr h); modify (fun s : bpool C => (s.1, <[p := d]> s.2))
}.
End pool.

Section laws.
Context {C : Type} `{CL : ColumnListLaws C buffer}.
Context (stack : list Z).
Abbreviation BS := (C * bmap)%type.
Implicit Types (m : gmap Z (list Z)).

(** The busy descriptor [p] and its bytes. *)
Definition in_use (bs : list Z) (dat : gmap Z (Z * buffer)) (mem : gmap Z (list Z)) (n p : Z) (d : list Z) : Prop :=
  p ∈ bs /\ Z.of_nat (length d) = n /\
  exists v, dat !! p = Some (BUFFER_SIZE, v) /\ mem !! b_ptr v = Some d.

Definition pool_rep (s : bpool C) (n : Z) m : Prop :=
  exists blk fr bs dat, bmap_ok s.1 blk [fr; bs; []] dat /\ m_bsize s.1.2 = n /\ m_pcb_bio s.1.2 = true /\
    (forall p, p ∈ bs -> is_Some (m !! (p + HDR))) /\
    (forall h d, m !! h = Some d -> exists p, h = p + HDR /\ in_use bs dat s.2 n p d).

Lemma wp_with_io {R} (f : M BS R) s (Q : R -> bpool C -> Prop) :
  wp f s.1 (fun r s' => Q r (s', foldl buffer_io s.2 (drop (length (io s.1.2)) (io s'.2)))) ->
  wp (with_io f) s Q.
Proof. unfold wp, with_io. by destruct (f s.1) as [[r s']|]. Qed.

Lemma io_log x l mem : foldl buffer_io mem (drop (length (io x)) (io (log_io x l))) = foldl buffer_io mem l.
Proof. unfold log_io. cbn. by rw drop_app_length. Qed.

Lemma columns_of (s : BS) blk cols dat : bmap_ok s blk cols dat ->
  (forall j l, cols !! j = Some l -> NoDup l /\ (forall p, p ∈ l -> 0 < p /\ is_Some (dat !! p))) /\
  (forall p, is_Some (dat !! p) -> exists j l, cols !! j = Some l /\ p ∈ l) /\
  (forall i j li lj p, cols !! i = Some li -> cols !! j = Some lj -> p ∈ li -> p ∈ lj -> i = j).
Proof.
  intros ((a & Hr & _ & <- & <-) & _).
  destruct (cl_wf _ _ _ Hr) as (Hc & Hdat & Hdis & _ & _ & _ & Hpos). split_and!.
  - intros j l (ac & Hj & <-)%els_lookup_inv. destruct (Hc _ _ Hj) as (Hnd & _ & _).
    split; [done|]. intros p Hp. assert (is_Some (a_data a !! p)) as [v Hv] by (apply Hdat; eauto).
    split; [by eapply Hpos|]. by eexists.
  - intros p (j & ac & Hj & Hp)%Hdat. exists j, (elems ac). split; [by apply els_lookup|done].
  - intros i j li lj p (ai & Hi & <-)%els_lookup_inv (aj & Hj & <-)%els_lookup_inv. by apply Hdis.
Qed.

(** With no free descriptor there are as many as buffers in use. *)
Lemma descriptors_in_use (s : BS) blk bs dat m : bmap_ok s blk [[]; bs; []] dat ->
  (forall p, p ∈ bs -> is_Some (m !! (p + HDR))) -> (base.size dat <= base.size m)%nat.
Proof.
  intros Hok Hm. destruct (columns_of _ _ _ _ Hok) as (Hc & Hdom & _).
  destruct (Hc 1%nat bs eq_refl) as [Hnd _].
  trans (length bs).
  - rw -size_dom. etrans; [apply (subseteq_size _ (list_to_set bs : gset Z))|].
    + intros p Hp. apply elem_of_dom in Hp. destruct (Hdom p Hp) as (j & l & Hj & Hl).
      destruct j as [|[|[|j]]]; cbn in Hj; [injection Hj as <-..|done]; try by apply not_elem_of_nil in Hl.
      by apply elem_of_list_to_set.
    + by rw size_list_to_set.
  - assert (NoDup ((fun p => p + HDR) <$> bs)) as Hnd2 by (apply NoDup_fmap_2; [|done]; intros ? ? ?; lia).
    rw -(length_fmap (fun p => p + HDR) bs) -(size_list_to_set (C := gset Z) _ Hnd2) -size_dom.
    apply subseteq_size. intros h Hh. apply elem_of_list_to_set, list_elem_of_fmap in Hh as (p & -> & Hp).
    apply elem_of_dom. by apply Hm.
Qed.

Lemma in_use_block (s : BS) blk fr bs dt dat mem n p d q b :
  bmap_ok s blk [fr; bs; dt] dat -> in_use bs dat mem n p d ->
  (forall v, dat !! p = Some (BUFFER_SIZE, v) -> b_ptr v <> q) -> in_use bs dat (<[q := b]> mem) n p d.
Proof.
  intros Hok (Hp & Hl & v & Hv & Hm) Hq. split; [done|]. split; [done|]. exists v. split; [done|].
  rw lookup_insert_ne //. intros E. by eapply Hq.
Qed.

Lemma pool_handle s n m h d : pool_rep s n m -> m !! h = Some d -> 0 < h /\ Z.of_nat (length d) = n.
Proof.
  intros (blk & fr & bs & dat & Hok & _ & _ & _ & Hm) Hh. apply Hm in Hh as (p & -> & Hp & Hl & _).
  split; [|done]. destruct (columns_of _ _ _ _ Hok) as (Hc & _). destruct (Hc 1%nat bs eq_refl) as [_ Hps].
  destruct (Hps p Hp) as [? _]. unfold HDR. lia.
Qed.

(** The other buffers in use keep their bytes while [q] is rewritten. *)
Lemma in_use_other (s : BS) blk fr bs dt dat mem n p p' v d b :
  bmap_ok s blk [fr; bs; dt] dat -> dat !! p = Some (BUFFER_SIZE, v) -> p' <> p ->
  in_use bs dat mem n p' d -> in_use bs dat (<[b_ptr v := b]> mem) n p' d.
Proof.
  intros Hok Hv Hne (Hp & Hl & v' & Hv' & Hm). split; [done|]. split; [done|]. exists v'. split; [done|].
  rw lookup_insert_ne //. intros E. apply Hne. destruct Hok as (_ & _ & _ & _ & Hinj).
  symmetry. by apply (Hinj p p' (BUFFER_SIZE, v) (BUFFER_SIZE, v')).
Qed.

Lemma wp_ptr_of s n m h d (Q : Z -> bpool C -> Prop) : pool_rep s n m -> m !! h = Some d ->
  (forall p, s.2 !! p = Some d ->
    (forall d', Z.of_nat (length d') = n -> pool_rep (s.1, <[p := d']> s.2) n (<[h := d']> m)) -> Q p s) ->
  wp (with_io (ptr h)) s Q.
Proof.
  intros (blk & fr & bs & dat & Hok & Hn & Hcb & Hbs & Hm) Hh HQ.
  destruct (Hm h d Hh) as (p & -> & Hp & Hl & v & Hv & Hd). destruct s as [[c x] mem]. cbn [fst snd] in *.
  apply wp_with_io. cbn [fst snd]. unfold ptr. rw (rec_ok _ _ _ _ _ _ _ Hok Hv). cbn [negb].
  apply wp_bind. pose proof Hok as ((a & Hr & _ & _ & Ea) & _). rw -Ea in Hv.
  eapply wp_read; [by eapply cl_read_law|]. apply wp_ret. cbn [snd]. rw drop_all. cbn [foldl]. rw Ea in Hv.
  apply HQ; [done|]. intros d' Hl'. exists blk, fr, bs, dat. split_and!; try done.
  - intros p' Hp'. rw lookup_insert. case_decide; [by eexists|]. by apply Hbs.
  - intros h' b. rw lookup_insert. case_decide as E.
    + subst h'. intros [= ->]. exists p. split; [done|]. split; [done|]. split; [done|]. exists v.
      cbn [snd]. by rw lookup_insert_eq.
    + intros (p' & -> & Hu)%Hm. exists p'. split; [done|]. cbn [snd].
      eapply in_use_other; try done. congruence.
Qed.

(** A buffer handed out: [p] joins the busy ones with a cleared block [q]. *)
Lemma pool_handed (s : BS) blk fr bs dat dat' mem n m p q v :
  bmap_ok s blk [fr; bs ++ [p]; []] dat' -> m_bsize s.2 = n -> m_pcb_bio s.2 = true -> 0 < n ->
  dat' !! p = Some (BUFFER_SIZE, v) -> b_ptr v = q -> p ∉ bs ->
  (forall p', p' ∈ bs -> dat' !! p' = dat !! p') ->
  (forall p, p ∈ bs -> is_Some (m !! (p + HDR))) ->
  (forall h d, m !! h = Some d -> exists p, h = p + HDR /\ in_use bs dat mem n p d) ->
  0 < p + HDR /\ m !! (p + HDR) = None /\
  pool_rep (s, <[q := replicate (Z.to_nat n) 0]> mem) n (<[p + HDR := replicate (Z.to_nat n) 0]> m).
Proof.
  intros Hok Hn Hcb Hn0 Hv Hq Hp Hdat Hbs Hm. split_and!.
  - destruct (columns_of _ _ _ _ Hok) as (Hc & _). destruct (Hc 1%nat _ eq_refl) as [_ Hps].
    destruct (Hps p) as [? _]; [apply elem_of_app; right; by left|]. unfold HDR. lia.
  - destruct (m !! (p + HDR)) as [d|] eqn:E; [|done]. apply Hm in E as (p' & E & Hu & _).
    assert (p' = p) as -> by lia. done.
  - exists blk, fr, (bs ++ [p]), dat'. split_and!; try done.
    + intros p' [Hp'|Hp'%list_elem_of_singleton]%elem_of_app; [|subst p'; by rw lookup_insert_eq].
      rw lookup_insert. case_decide; [by eexists|]. by apply Hbs.
    + intros h d. rw lookup_insert. case_decide as E.
      * intros [= <-]. exists p. split; [done|]. split; [apply elem_of_app; right; by left|].
        split; [rw length_replicate; lia|]. exists v. split; [done|]. cbn [snd]. by rw Hq lookup_insert_eq.
      * intros (p' & -> & Hu)%Hm. exists p'. split; [done|]. rw -Hq. cbn [snd].
        apply (in_use_other s blk fr (bs ++ [p]) [] dat' mem n p p' v); try done; [congruence|].
        destruct Hu as (Hb & Hl & v' & Hv' & Hmem). split; [apply elem_of_app; by left|]. split; [done|].
        exists v'. by rw Hdat.
Qed.

Lemma bio_init x v : m_pcb_bio x = true -> bio_event x BIO_INIT v = [(BIO_INIT, b_ptr v, m_bsize x, b_udata v)].
Proof. unfold bio_event. by intros ->. Qed.

(** A new block leaves the buffers in use alone. *)
Lemma in_use_fresh (s : BS) blk fr bs dt dat mem n p d q b :
  bmap_ok s blk [fr; bs; dt] dat -> blk !! q = None -> in_use bs dat mem n p d ->
  in_use bs dat (<[q := b]> mem) n p d.
Proof.
  intros Hok Hq Hu. eapply in_use_block; [done|done|]. intros v Hv E. destruct Hu as (Hp & _).
  destruct Hok as (_ & _ & _ & Hb). destruct (bufs_data _ _ _ _ 1 bs p Hb) as (v' & Hv' & _ & Hblk); [done|done|].
  rw Hv in Hv'. injection Hv' as <-. by rw E Hq in Hblk.
Qed.

Lemma pool_alloc_law s n m : pool_rep s n m -> Z.of_nat (base.size m) + 1 < 2 ^ 32 ->
  wp (with_io (alloc stack 0)) s (fun r s' => (r = 0 /\ pool_rep s' n m) \/
    (0 < r /\ m !! r = None /\ pool_rep s' n (<[r := replicate (Z.to_nat n) 0]> m))).
Proof.
  intros (blk & fr & bs & dat & Hok & Hn & Hcb & Hbs & Hm) Hsz. destruct s as [[c x] mem]. cbn [fst snd] in *.
  pose proof (columns_of _ _ _ _ Hok) as (Hc & _ & Hdis). pose proof Hok as (_ & _ & Hn0 & _). cbn [snd] in Hn0.
  apply wp_with_io. cbn [fst snd]. eapply wp_mono; [apply alloc_spec; [done|]|].
  { intros ->. pose proof (descriptors_in_use _ _ _ _ _ Hok Hbs). lia. }
  intros r s' Hpost. destruct fr as [|p fr'].
  - destruct Hpost as [(-> & Hok' & E)|[(-> & q & Hq & Hok' & E)|(p & q & -> & Hp0 & Hp & Hq & Hok' & E)]]; rw E.
    + left. split; [done|]. rw drop_all. exists blk, [], bs, dat. by rw E.
    + left. split; [done|]. rw io_log bio_init //. cbn [foldl buffer_io]. eexists _, [], bs, dat.
      split_and!; [done|by rw E|by rw E|done|]. intros h d (p & -> & Hu)%Hm. exists p. split; [done|].
      cbn [snd]. eapply in_use_fresh; [exact Hok|done|done].
    + right. rw io_log bio_init //. cbn [foldl buffer_io b_ptr]. rw Hn.
      eapply (pool_handed s' _ [] bs dat); try done; [by rw E|by rw E|lia|by rw lookup_insert_eq|done| |].
      * intros Hin. destruct (Hc 1%nat bs eq_refl) as [_ Hps]. destruct (Hps p Hin) as [_ [? ?]]. congruence.
      * intros p' Hp'. rw lookup_insert_ne //. intros <-.
        destruct (Hc 1%nat bs eq_refl) as [_ Hps]. destruct (Hps p Hp') as [_ [? ?]]. congruence.
  - destruct Hpost as (-> & Hok' & v & Hv & E). right. rw E io_log bio_init //. cbn [foldl buffer_io]. rw Hn.
    assert (p ∉ bs) as Hpb. { intros Hin. by assert (0 = 1)%nat by (eapply Hdis; try done; by left). }
    eapply (pool_handed s' _ fr' bs dat); try done; [by rw E|by rw E|lia| |].
    + unfold map_buffer. by rw lookup_alter_eq Hv.
    + intros p' Hp'. unfold map_buffer. rw lookup_alter_ne //. congruence.
Qed.

Lemma pool_free_law s n m h : pool_rep s n m -> is_Some (m !! h) ->
  wp (with_io (free h)) s (fun _ s' => pool_rep s' n (delete h m)).
Proof.
  intros (blk & fr & bs & dat & Hok & Hn & Hcb & Hbs & Hm) [d Hh]. destruct s as [[c x] mem]. cbn [fst snd] in *.
  destruct (Hm h d Hh) as (p & -> & Hp & Hl & v & Hv & Hd).
  apply wp_with_io. cbn [fst snd]. eapply wp_mono; [by eapply (free_spec _ _ _ _ _ 1 bs)|].
  intros _ s' [Hok' E]. rw E io_log. case_decide as E0; [done|]. clear E0. unfold bio_event. rw Hcb. cbn [app foldl buffer_io BIO_UNINIT BIO_INIT Z.eqb Pos.eqb].
  unfold sent, sent_data in Hok'. case_decide as E0; [done|]. clear E0.
  pose proof (columns_of _ _ _ _ Hok) as (Hc & _). destruct (Hc 1%nat bs eq_refl) as [Hnd _].
  exists blk, (fr ++ [p]), (without p bs), (map_buffer (set_state BFREE) p dat).
  split_and!; [exact Hok'|by rw E|by rw E| |].
  - intros p' [Hne Hp']%list_elem_of_filter. rw lookup_delete_ne; [|unfold HDR; lia]. by apply Hbs.
  - intros h' d' [Hne Hh']%lookup_delete_Some. apply Hm in Hh' as (p' & -> & Hp' & Hl' & v' & Hv' & Hd').
    assert (p' <> p) by congruence. exists p'. split; [done|]. split; [by apply list_elem_of_filter|].
    split; [done|]. exists v'. unfold map_buffer. by rw lookup_alter_ne.
Qed.

#[global] Instance buffer_map_pool_laws : @BufferPoolLaws (bpool C) (buffer_map_pool stack).
Proof.
  refine {| bp_rep := pool_rep |}.
  - intros s n m (blk & fr & bs & dat & Hok & Hn & _). split; [done|]. destruct Hok as (_ & _ & ? & _). lia.
  - by apply pool_handle.
  - by apply pool_alloc_law.
  - by apply pool_free_law.
  - intros s n m h d Hr Hh. cbn. apply wp_bind. eapply wp_ptr_of; [done|done|]. intros p Hp _.
    unfold wp, contents. rw Hp. done.
  - intros s n m h d Hr [d0 Hh] Hl. cbn. apply wp_bind. eapply wp_ptr_of; [done|done|]. intros p Hp Hst.
    apply wp_modify. by apply Hst.
Defined.
End laws.

(** ** A pool on the bump allocator, for the examples *)
Definition demo_pool (n : Z) (budget : nat) : bpool (ll_context Bump.t buffer) :=
  ((Demo.made 3 budget, mkBmap n true []), ∅).

#[global] Instance demo_buffers : BufferPool (bpool (ll_context Bump.t buffer)) := buffer_map_pool [].
#[global] Instance demo_buffers_laws : @BufferPoolLaws _ demo_buffers := buffer_map_pool_laws [].

Lemma demo_pool_rep n budget : (0 < budget)%nat -> 0 < n < 2 ^ 32 -> bp_rep (demo_pool n budget) n ∅.
Proof.
  intros Hb Hn. change (pool_rep (demo_pool n budget) n ∅). exists ∅, [], [], ∅. split_and!; [|done|done| |].
  - pose proof (Demo.made_rep (V := buffer) 3 budget ltac:(lia) Hb) as [Hr Hf].
    split; [by exists (a_init 3)|]. split; [done|]. split; [done|]. split.
    + intros k l p Hk Hp. destruct k as [|[|[|k]]]; cbn in Hk; [injection Hk as <-..|done];
        by apply not_elem_of_nil in Hp.
    + intros p q v w. by rw lookup_empty.
  - intros p Hp. by apply not_elem_of_nil in Hp.
  - intros h d. by rw lookup_empty.
Qed.
