(* ===== verification/VarMap.v ===== *)
(** * Variables in a map

    What a client sees of a [cMap] (core/mem/map.cpp): data by the digest of the
    key it was stored under, without addresses.  [v_heap] holds the heap's answers
    to the next record allocations (granted when the list has run out), so that a
    refused allocation is a behaviour like any other.  [vars_simulate] shows that
    every run of the pointer map is a run of this one, with no more refused
    records than the heap has refused requests. *)
From S2P Require Import Prelude Memory Mutex Sha1 HashMap HashMapProof MapObject MapRefusal.
Set Default Goal Selector "!".

Record vars := mkVars { v_map : gmap (list Z) (list Z); v_heap : list bool }.

Definition no_vars : vars := mkVars ∅ [].

Definition vm_find (v : vars) (k : list Z) : option (list Z) := v_map v !! sha1_spec k.

(** [map_get]: the record's data; a key of size 0 is refused. *)
Definition vm_get (v : vars) (k : list Z) : option (list Z) :=
  if (length k =? 0)%nat then None else vm_find v k.

(** A record allocation and, if granted, the new record. *)
Definition vm_store (v : vars) (k d : list Z) : bool * vars :=
  let ok := default true (head (v_heap v)) in
  (ok, mkVars (if ok then <[sha1_spec k := d]> (v_map v) else v_map v) (tail (v_heap v))).

Definition vm_add (v : vars) (k d : list Z) : bool * vars :=
  match vm_find v k with Some _ => (true, v) | None => vm_store v k d end.
Definition vm_del (v : vars) (k : list Z) : vars := mkVars (delete (sha1_spec k) (v_map v)) (v_heap v).
Definition vm_set (v : vars) (k d : list Z) : bool * vars := vm_store (vm_del v k) k d.
Definition vm_clr (v : vars) : vars := mkVars ∅ (v_heap v).

(** ** Agreement with the pointer map *)
Inductive vm_ans := VOk (ok : bool) | VData (d : option (list Z)) | VNone | VCnt (n : Z).

Definition vm_call (v : vars) (cmd : map_cmd) : vm_ans * vars :=
  match cmd with
  | CAdd k d => let '(ok, v) := vm_add v k d in (VOk ok, v)
  | CSet k d => let '(ok, v) := vm_set v k d in (VOk ok, v)
  | CGet k => (VData (vm_get v k), v)
  | CDel k => (VNone, vm_del v k)
  | CClr => (VNone, vm_clr v)
  | CCnt => (VCnt (Z.of_nat (size (v_map v))), v)
  end.

Fixpoint vm_run (v : vars) (cmds : list map_cmd) : list vm_ans * vars :=
  match cmds with
  | [] => ([], v)
  | cmd :: cmds => let '(a, v) := vm_call v cmd in let '(l, v) := vm_run v cmds in (a :: l, v)
  end.

(** The record at an address is found by [vm_get] of its key. *)
Definition same_ans (a : map_ans) (b : vm_ans) : Prop :=
  match a, b with
  | AnsPtr p, VOk ok => ok = negb (p =? 0)
  | AnsData p sz, VData d => sz = Z.of_nat ∘ length <$> d /\ (d = None <-> p = 0)
  | AnsNone, VNone => True
  | AnsCnt n, VCnt n' => n = n'
  | _, _ => False
  end.

Definition data_of (m : gmap (list Z) (Z * list Z)) : gmap (list Z) (list Z) := snd <$> m.
Definition placed (m : gmap (list Z) (Z * list Z)) : Prop := forall k p d, m !! k = Some (p, d) -> 0 < p.

Section simulation.
Implicit Types (m : gmap (list Z) (Z * list Z)).

Lemma data_of_delete k m : data_of (delete k m) = delete k (data_of m).
Proof. apply fmap_delete. Qed.

Lemma placed_delete k m : placed m -> placed (delete k m).
Proof. intros Hp q p d [_ Hq]%lookup_delete_Some. by eapply Hp. Qed.

(** A store that the pointer map made, with the answer of its heap. *)
Lemma store_simulates m k d r m' h : placed m -> data_of m !! sha1_spec k = None ->
  add_post m (sha1_spec k) d r m' -> exists ok,
    vm_store (mkVars (data_of m) (ok :: h)) k d = (negb (r =? 0), mkVars (data_of m') h) /\ placed m'.
Proof.
  intros Hp Hk Ha. unfold data_of in Hk. rw lookup_fmap fmap_None in Hk. unfold add_post in Ha. rw Hk in Ha.
  destruct Ha as [[-> ->]|(p & Hp0 & _ & -> & ->)].
  - by exists false.
  - exists true. destruct (Z.eqb_spec (p + REC_HDR) 0); [unfold REC_HDR in *; lia|]. split.
    + unfold vm_store, data_of. cbn. by rw fmap_insert.
    + intros q p' d'. rw lookup_insert. case_decide; [by intros [= <- _]|]. apply Hp.
Qed.

Lemma call_simulates m cmd ans m' h : placed m -> cmd_ok cmd -> map_step m cmd ans m' ->
  exists l a, vm_call (mkVars (data_of m) (l ++ h)) cmd = (a, mkVars (data_of m') h) /\
    same_ans ans a /\ placed m'.
Proof.
  intros Hp Hok Hs.
  destruct cmd as [k d|k d|k|k| |]; cbn [map_step vm_call] in *.
  - destruct Hs as (r & -> & Ha). unfold vm_add, vm_find.
    destruct (data_of m !! sha1_spec k) as [d'|] eqn:E.
    + exists [], (VOk true). cbn [v_map app]. rw E. unfold data_of in E.
      rw lookup_fmap in E. apply fmap_Some in E as ([p d0] & E & ->).
      unfold add_post in Ha. rw E in Ha. destruct Ha as [-> ->]. split_and!; try done. cbn.
      apply Hp in E. destruct (Z.eqb_spec (p + REC_HDR) 0); [unfold REC_HDR in *; lia|done].
    + destruct (store_simulates m k d r m' h Hp E Ha) as (ok & Est & Hp').
      exists [ok], (VOk (negb (r =? 0))). cbn [v_map app]. rw E Est. split_and!; try done.
  - destruct Hs as (r & -> & Ha). unfold vm_set, vm_del.
    destruct (store_simulates (delete (sha1_spec k) m) k d r m' h) as (ok & Est & Hp');
      [by apply placed_delete|by rw data_of_delete lookup_delete_eq|done|].
    exists [ok], (VOk (negb (r =? 0))). cbn [v_map v_heap app]. rw data_of_delete in Est. rw Est. done.
  - destruct Hs as [-> ->]. exists [], (VData (vm_get (mkVars (data_of m) h) k)). split; [done|]. split; [|done].
    unfold vm_get, vm_find. cbn [v_map]. destruct Hok as [_ Hne].
    destruct k as [|x k]; [done|]. cbn [length Nat.eqb]. unfold data_of. rw lookup_fmap.
    destruct (m !! sha1_spec (x :: k)) as [[p d]|] eqn:E; cbn; [|done]. split; [done|]. split; [done|].
    apply Hp in E. unfold REC_HDR. lia.
  - destruct Hs as [-> ->]. exists [], VNone. unfold vm_del. cbn [v_map v_heap app]. rw data_of_delete.
    split_and!; [done|done|by apply placed_delete].
  - destruct Hs as [-> ->]. exists [], VNone. split_and!; [|done|].
    + unfold vm_clr, data_of. cbn. by rw fmap_empty.
    + intros k p d. by rw lookup_empty.
  - destruct Hs as [-> ->]. eexists [], _. split; [done|]. split; [|done]. cbn. unfold data_of. by rw map_size_fmap.
Qed.

Lemma run_simulates m cmds l m' : placed m -> Forall cmd_ok cmds -> map_steps m cmds l m' ->
  exists h as_, vm_run (mkVars (data_of m) h) cmds = (as_, mkVars (data_of m') []) /\
    Forall2 same_ans l as_.
Proof.
  intros Hp Hok Hs. induction Hs as [m|m cmd ans m1 cmds l m2 H1 H2 IH].
  { exists [], []. done. }
  apply Forall_cons in Hok as [Hc Hok].
  assert (placed m1) as Hp1. { by destruct (call_simulates _ _ _ _ [] Hp Hc H1) as (? & ? & _ & _ & ?). }
  destruct (IH Hp1 Hok) as (h & as_ & E & Ha).
  destruct (call_simulates _ _ _ _ h Hp Hc H1) as (l1 & a & E1 & Hs1 & _).
  exists (l1 ++ h), (a :: as_). cbn [vm_run]. rw E1 E. split; [done|]. by constructor.
Qed.
End simulation.

(** The records that were not stored. *)
Fixpoint failures (l : list vm_ans) : Z :=
  match l with
  | [] => 0
  | VOk false :: l => 1 + failures l
  | _ :: l => failures l
  end.
Lemma failures_refusals l as_ : Forall2 same_ans l as_ -> failures as_ = refusals_in l.
Proof.
  induction 1 as [|a b l as_ Hab _ IH]; [done|]. cbn [failures refusals_in]. rw -IH. destruct a, b; cbn in *; try done. unfold no_room. subst. by destruct (p =? 0).
Qed.

Section theorem.
Context {A : Type} `{AL : AllocatorLaws A}.

(** C29: a client that keeps its variables in a [cMap] sees the finite map of
    this file.  [init] fails only if the heap refuses it memory.  Otherwise any
    program of [add], [set], [get], [del], [clr] and [cnt] calls with keys that
    are not empty returns, there are answers of the heap for which this map gives
    the same answers, and the records that the code then has in its store are
    those of this map.  A record that was not stored is a request the heap
    refused: a heap that refuses nothing makes [add] and [set] succeed. *)
Theorem vars_simulate cap cmds h mu (x : cMap.t (tracked A)) :
  a_ok (mem (cMap.map_cxt x)) -> sha_ok (udata (cMap.map_cxt x)) -> may_lock (Some mu) h ->
  0 < cap -> Forall cmd_ok cmds -> cap + Z.of_nat (length cmds) < MAX_RECORDS ->
  wp (cMap.init cap) (mu, x) (fun ok s =>
    (ok = false -> refused_by x < refused_by s.2) /\
    (ok = true -> wp (cmap_run cmds h) s (fun l s' => exists hp as_ m,
      vm_run (mkVars ∅ hp) cmds = (as_, mkVars (data_of m) []) /\ Forall2 same_ans l as_ /\
      holds (recs (cMap.map_cxt s'.2)) m /\
      refused_by s.2 + failures as_ <= refused_by s'.2))).
Proof.
  intros Ho Hu Hl Hcap Hok Hn. eapply wp_mono.
  { apply wp_wlp_and; [apply (cmap_init_spec (fun _ => True) cap mu x); [by split_and!|lia]|apply cmap_init_refused; lia]. }
  intros ok [mu' x'] [[E Hi] Hno]. cbn [fst snd] in *. subst mu'. split; [exact Hno|]. intros ->.
  eapply wp_mono; [apply (cmap_run_refused (fun _ => True) cmds h mu x' ∅ cap); [by apply Hi|done|done|lia|done]|].
  intros l s (m & n & Hs & [_ (_ & Hm & _)] & Hle).
  destruct (run_simulates ∅ cmds l m) as (hp & as_ & Er & Ha); [by intros k p d; rw lookup_empty|done|done|].
  exists hp, as_, m. unfold data_of in Er at 1. rw fmap_empty in Er. split_and!; [done|done|done|]. by rw (failures_refusals l as_ Ha).
Qed.
End theorem.

(** A heap of [b] grants, and what it has refused so far. *)
Definition tracked_map (b : nat) : cMap.t (tracked Bump.t) :=
  cMap.mk (tracked Bump.t) false (fresh_cxt 0 (mkTracked (Bump.empty 65536 b) 0) zero_context).
Definition demo_vars (b : nat) (cap : Z) : option (bool * list map_ans * Z) :=
  '(ok, s) ← cMap.init cap (demo_mutex, tracked_map b);
  '(l, s') ← cmap_run demo_cmds 0 s; Some (ok, l, refused_by s'.2).

(** With two grants, for the table and one record, the second record is refused;
    with eight none is. *)
Lemma vars_simulate_witness :
  demo_vars 2 127 ≫= (fun r => Some (r.1.1, refusals_in r.1.2, r.2)) = Some (true, 1, 1) /\
  demo_vars 8 127 ≫= (fun r => Some (r.1.1, refusals_in r.1.2, r.2)) = Some (true, 0, 0) /\
  wp (cMap.init 127) (demo_mutex, tracked_map 2) (fun ok s =>
    (ok = false -> refused_by (tracked_map 2) < refused_by s.2) /\
    (ok = true -> wp (cmap_run demo_cmds 0) s (fun l s' => exists hp as_ m,
      vm_run (mkVars ∅ hp) demo_cmds = (as_, mkVars (data_of m) []) /\ Forall2 same_ans l as_ /\
      holds (recs (cMap.map_cxt s'.2)) m /\
      refused_by s.2 + failures as_ <= refused_by s'.2))).
Proof.
  split; [vm_compute; reflexivity|]. split; [vm_compute; reflexivity|].
  apply (vars_simulate 127 demo_cmds 0 demo_mutex (tracked_map 2));
    [apply (MapObject.demo_heap 2)|reflexivity|exact demo_lock|lia|exact demo_cmds_ok|reflexivity].
Defined.
