(* ===== verification/HttpConnection.v ===== *)
(** * HTTP server connection
    (io/libnet/http_server_connection.cpp, [cHttpServerConnection])

    The members of the object are the state.  The numeric and boolean members
    are one function of [member], a handle or a flag being 0 when it is not set.
    The two maps are [vars], the socket and the buffer map are the interfaces
    of Socket.v and BufferPool.v.  [now] is what [time(NULL)] returns during a
    call.  A C string is the list of its bytes without the terminator; the
    memory behind a pointer is the list of the bytes readable from it. *)
From S2P Require Import Prelude Str UrlCodec HttpParse Socket BufferPool VarMap.
Set Default Goal Selector "!".

Inductive member :=
| m_ibuffer | m_oheader | m_obuffer
| m_ibuffer_offset | m_oheader_offset | m_obuffer_offset | m_oheader_sent | m_obuffer_sent
| m_header_len | m_res_content_len | m_req_content_len | m_req_content_rcv | m_content_sent
| m_error_code | m_response_code | m_state | m_stime | m_timeout
| m_req_data | m_res_hdr_prepared.

Definition idx (x : member) : nat :=
  match x with
  | m_ibuffer => 0 | m_oheader => 1 | m_obuffer => 2
  | m_ibuffer_offset => 3 | m_oheader_offset => 4 | m_obuffer_offset => 5 | m_oheader_sent => 6 | m_obuffer_sent => 7
  | m_header_len => 8 | m_res_content_len => 9 | m_req_content_len => 10 | m_req_content_rcv => 11
  | m_content_sent => 12 | m_error_code => 13 | m_response_code => 14 | m_state => 15 | m_stime => 16
  | m_timeout => 17 | m_req_data => 18 | m_res_hdr_prepared => 19
  end.
Definition upd (x : member) (v : Z) (f : member -> Z) (y : member) : Z := if (idx y =? idx x)%nat then v else f y.

(** ** Constants *)
Definition HTTPC_RECEIVE_HEADER : Z := 1.
Definition HTTPC_COMPLETE_HEADER : Z := 2.
Definition HTTPC_PARSE_HEADER : Z := 3.
Definition HTTPC_RECEIVE_CONTENT : Z := 4.
Definition HTTPC_SEND_HEADER : Z := 5.
Definition HTTPC_SEND_CONTENT : Z := 6.
Definition HTTPC_CLOSE : Z := 7.

Definition HTTP_ON_OPEN : Z := 1.
Definition HTTP_ON_REQUEST : Z := 2.
Definition HTTP_ON_REQUEST_DATA : Z := 3.
Definition HTTP_ON_RESPONSE_DATA : Z := 4.
Definition HTTP_ON_ERROR : Z := 5.
Definition HTTP_ON_CLOSE_DOCUMENT : Z := 6.
Definition HTTP_ON_CLOSE : Z := 7.

Definition HTTPRC_BAD_REQUEST : Z := 400.
Definition HTTPRC_REQUEST_TIMEOUT : Z := 408.

Definition VAR_REQ_METHOD : list Z := Eval cbv in str "req-Method".
Definition VAR_REQ_HEADER : list Z := Eval cbv in str "req-Header".
Definition VAR_REQ_URI : list Z := Eval cbv in str "req-URI".
Definition VAR_REQ_URL : list Z := Eval cbv in str "req-URL".
Definition VAR_REQ_URN : list Z := Eval cbv in str "req-URN".
Definition VAR_REQ_PROTOCOL : list Z := Eval cbv in str "req-Protocol".
Definition CRLFCRLF : list Z := [13; 10; 13; 10].
Definition QUESTION : Z := 63.

(** ** C strings and numbers *)
(** The string at a pointer; a region without a NUL is read past its end. *)
Fixpoint cstr (m : list Z) : option (list Z) :=
  match m with [] => None | c :: m => if c =? 0 then Some [] else cons c <$> cstr m end.

Definition strncpy (n : nat) (s : list Z) : list Z := take n s ++ replicate (n - length s) 0.

(** [%u] and [%lu]. *)
Definition decimal (n : Z) : list Z := default [] (ulltoa n 10).

Definition lower (c : Z) : Z := if (65 <=? c) && (c <=? 90) then c + 32 else c.
Definition strcasecmp_eq (a b : list Z) : bool := bool_decide (lower <$> a = lower <$> b).

(** Storing at offset [off]. *)
Definition put_bytes (m : list Z) (off : nat) (d : list Z) : option (list Z) :=
  if (off + length d <=? length m)%nat then Some (take off m ++ d ++ drop (off + length d) m) else None.

(** ** The object *)
Record conn {O B : Type} := mkConn {
  mp_sio : option (sock O);
  c_closed : list (sock O);             (* sockets given back to the repository *)
  mpi_bmap : B;
  mpi_req_map : vars;
  mpi_res_map : vars;
  mpi_cookie_list : list (list Z);      (* the records, terminator included *)
  c_cookie_heap : list bool;            (* the answers of the heap to the list, as in [vars] *)
  m_ : member -> Z;
  m_res_protocol : list Z;
  m_content_type : option (list Z);
  mp_doc : option (list Z)              (* the bytes readable at the document *)
}.
Arguments conn : clear implicits.

Section connection.
Context {O B : Type} `{SockOs O} `{BufferPool B}.
(** The order in which the map of the response variables enumerates its records. *)
Context (order : gmap (list Z) (list Z) -> list (list Z)).
(** The last bytes of the two arrays of an uninitialised [_http_res_var_t]. *)
Context (stack1 stack2 : Z).
Abbreviation CN := (conn O B).
Abbreviation CM := (M CN).

Definition with_regs (f : (member -> Z) -> member -> Z) (c : CN) : CN :=
  mkConn O B (mp_sio c) (c_closed c) (mpi_bmap c) (mpi_req_map c) (mpi_res_map c) (mpi_cookie_list c) (c_cookie_heap c)
    (f (m_ c)) (m_res_protocol c) (m_content_type c) (mp_doc c).
Definition with_sio (s : option (sock O)) (l : list (sock O)) (c : CN) : CN :=
  mkConn O B s l (mpi_bmap c) (mpi_req_map c) (mpi_res_map c) (mpi_cookie_list c) (c_cookie_heap c)
    (m_ c) (m_res_protocol c) (m_content_type c) (mp_doc c).
Definition with_bmap (b : B) (c : CN) : CN :=
  mkConn O B (mp_sio c) (c_closed c) b (mpi_req_map c) (mpi_res_map c) (mpi_cookie_list c) (c_cookie_heap c)
    (m_ c) (m_res_protocol c) (m_content_type c) (mp_doc c).
Definition with_req (v : vars) (c : CN) : CN :=
  mkConn O B (mp_sio c) (c_closed c) (mpi_bmap c) v (mpi_res_map c) (mpi_cookie_list c) (c_cookie_heap c)
    (m_ c) (m_res_protocol c) (m_content_type c) (mp_doc c).
Definition with_res (v : vars) (c : CN) : CN :=
  mkConn O B (mp_sio c) (c_closed c) (mpi_bmap c) (mpi_req_map c) v (mpi_cookie_list c) (c_cookie_heap c)
    (m_ c) (m_res_protocol c) (m_content_type c) (mp_doc c).
Definition with_cookies (l : list (list Z)) (h : list bool) (c : CN) : CN :=
  mkConn O B (mp_sio c) (c_closed c) (mpi_bmap c) (mpi_req_map c) (mpi_res_map c) l h
    (m_ c) (m_res_protocol c) (m_content_type c) (mp_doc c).
Definition with_doc (p : list Z) (t : option (list Z)) (d : option (list Z)) (c : CN) : CN :=
  mkConn O B (mp_sio c) (c_closed c) (mpi_bmap c) (mpi_req_map c) (mpi_res_map c) (mpi_cookie_list c) (c_cookie_heap c)
    (m_ c) p t d.

Definition get (x : member) : CM Z := gets (fun c => m_ c x).
Definition set (x : member) (v : Z) : CM unit :=
  modify (with_regs (upd x v)).

(** A call through [mp_sio] (NULL is undefined), through [mpi_bmap]. *)
Definition sio {A} (m : M (sock O) A) : CM A := fun c =>
  match mp_sio c with
  | Some s => match m s with Some (a, s') => Some (a, with_sio (Some s') (c_closed c) c) | None => None end
  | None => None
  end.
Definition bmp {A} (m : M B A) : CM A := fun c =>
  match m (mpi_bmap c) with Some (a, b) => Some (a, with_bmap b c) | None => None end.
Definition bsize : CM Z := gets (fun c => bp_size (mpi_bmap c)).
(** The memory behind [ptr(h)], NULL for no handle. *)
Definition ptr (h : Z) : CM (option (list Z)) := 
  if h =? 0 then mret None else mem ← bmp (bp_load h); mret (Some mem).

Definition conn_alive : CM bool := fun c =>
  Some (match mp_sio c with Some s => m_alive s | None => false end, c).

(** ** Request variables *)
(** [add_req_variable]: [mem] is the memory at [value]. *)
Definition req_add (k d : list Z) : CM unit := modify (fun c => with_req (vm_add (mpi_req_map c) k d).2 c).
Definition add_req_variable (name mem : list Z) (sz_value : nat) : CM unit :=
  n ← (if negb (sz_value =? 0)%nat then mret sz_value else n ← lift_opt (str_len mem); mret (Z.to_nat n));
  v ← lift_opt (bytes_at mem 0 n);
  req_add name v.

Definition req_var (name : list Z) : CM (option (list Z)) := fun c =>
  match vm_get (mpi_req_map c) name with
  | None => Some (None, c)
  | Some d => s ← cstr (d ++ [0]); Some (Some s, c)
  end.

Definition req_method : CM Z := sm ← req_var VAR_REQ_METHOD; mret (match sm with Some sm => method_of sm | None => 0 end).
Definition req_header : CM (option (list Z)) := req_var VAR_REQ_HEADER.
Definition req_uri : CM (option (list Z)) := req_var VAR_REQ_URI.
Definition req_url : CM (option (list Z)) := req_var VAR_REQ_URL.
Definition req_urn : CM (option (list Z)) := req_var VAR_REQ_URN.
Definition req_protocol : CM (option (list Z)) := req_var VAR_REQ_PROTOCOL.

(** The pairs a scan found, added in order. *)
Definition add_field (mem : list Z) (f : nat * nat * (nat * nat)) : CM unit :=
  k ← lift_opt (bytes_at mem f.1.1 f.1.2);
  d ← lift_opt (bytes_at mem f.2.1 f.2.2);
  req_add k d.
Fixpoint add_fields (mem : list Z) (l : list (nat * nat * (nat * nat))) : CM unit :=
  match l with [] => mret tt | f :: l => add_field mem f;; add_fields mem l end.

(** [for(; i < sz_decoded; i++) if '?' break]: [k] bytes remain. *)
Fixpoint url_end (k : nat) (decoded : list Z) (i : nat) : option nat :=
  match k with
  | 0%nat => Some i
  | S k => c ← decoded !! i; if c =? QUESTION then Some i else url_end k decoded (S i)
  end.

(** The decoder writes into a buffer of its own. *)
Definition decode_into (h : Z) (src : list Z) (srclen : nat) : CM (list Z * nat) :=
  dest ← bmp (bp_load h);
  n ← bsize;
  '(r, decoded) ← lift_opt (UrlDecode src srclen (Z.to_nat n) dest);
  bmp (bp_store h decoded);;
  mret (decoded, Z.to_nat (u32 r)).

Definition parse_url (url : list Z) (sz_max : nat) : CM unit :=
  hburl ← bmp bp_alloc;
  if negb (hburl =? 0) then
    '(decoded, sz_decoded) ← decode_into hburl url sz_max;
    add_req_variable VAR_REQ_URI decoded sz_decoded;;
    sz ← lift_opt (url_end sz_decoded decoded 0);
    add_req_variable VAR_REQ_URL decoded sz;;
    (if (sz <? sz_decoded)%nat then
       add_req_variable VAR_REQ_URN (drop (S sz) decoded) (sz_decoded - S sz);;
       l ← lift_opt (scan_query decoded (S sz) sz_decoded);
       add_fields decoded l
     else mret tt);;
    bmp (bp_free hburl)
  else mret tt.

Definition parse_request_line (req : list Z) (sz_max : nat) : CM nat :=
  '(r, s) ← lift_opt (rl_loop sz_max req 0 rl_init);
  match rl_field sz_max 0 s with Some (off, sz) => add_req_variable VAR_REQ_METHOD (drop off req) sz | None => mret tt end;;
  match rl_field sz_max 1 s with Some (off, sz) => parse_url (drop off req) sz | None => mret tt end;;
  match rl_field sz_max 2 s with Some (off, sz) => add_req_variable VAR_REQ_PROTOCOL (drop off req) sz | None => mret tt end;;
  mret r.

Definition parse_var_line (var : list Z) (sz_max : nat) : CM nat :=
  '(r, s) ← lift_opt (vl_loop sz_max var 0 vl_init);
  match vl_pair sz_max s with Some f => add_field var f | None => mret tt end;;
  mret r.

(** [while(offset && offset < m_header_len)]; every line takes at least a byte. *)
Fixpoint var_lines (fuel : nat) (hdr : list Z) (header_len offset : nat) : CM nat :=
  match fuel with
  | 0%nat => undefined
  | S fuel =>
      if negb (offset =? 0)%nat && (offset <? header_len)%nat then
        n ← parse_var_line (drop offset hdr) (header_len - offset);
        var_lines fuel hdr header_len (if negb (n =? 0)%nat then (offset + n)%nat else 0%nat)
      else mret offset
  end.

(** ** Input *)
Definition receive : CM Z :=
  a ← conn_alive;
  if (a : bool) then
    h ← get m_ibuffer;
    (if h =? 0 then h ← bmp bp_alloc; set m_ibuffer h else mret tt);;
    h ← get m_ibuffer;
    if negb (h =? 0) then
      mem ← bmp (bp_load h);
      sz ← bsize;
      off ← get m_ibuffer_offset;
      d ← sio (read (u32 (sz - off)));
      mem ← lift_opt (put_bytes mem (Z.to_nat off) d);
      bmp (bp_store h mem);;
      let r := Z.of_nat (length d) in
      set m_ibuffer_offset (u32 (off + r));;
      mret r
    else mret 0
  else mret 0.

Definition complete_req_header : CM bool :=
  off ← get m_ibuffer_offset;
  if negb (off =? 0) then
    sz ← bsize;
    h ← get m_ibuffer;
    p ← ptr h;
    match p with
    | Some mem =>
        hl ← lift_opt (nfind_string mem (Z.to_nat sz) CRLFCRLF);
        if negb (hl =? -1) then
          add_req_variable VAR_REQ_HEADER mem (Z.to_nat hl);;
          set m_header_len (u32 (hl + 4));;
          mret true
        else set m_header_len 0;; mret false
    | None => mret false
    end
  else mret false.

Definition parse_req_header : CM bool :=
  h ← get m_ibuffer;
  ioff ← get m_ibuffer_offset;
  if negb (h =? 0) && negb (ioff =? 0) then
    hdr ← bmp (bp_load h);
    hl ← get m_header_len;
    r ← parse_request_line hdr (Z.to_nat hl);
    offset ← var_lines (S (Z.to_nat hl)) hdr (Z.to_nat hl) r;
    if Z.of_nat offset =? hl then
      (if hl <? ioff then
         hdr ← lift_opt (mem_cpy hdr 0 (Z.to_nat hl) (Z.to_nat (u32 (ioff - hl))));
         hdr ← lift_opt (put_bytes hdr (Z.to_nat (u32 (ioff - hl))) [0]);
         bmp (bp_store h hdr);;
         set m_ibuffer_offset (u32 (ioff - hl));;
         set m_req_data 1
       else
         set m_ibuffer_offset 0;;
         set m_req_data 0);;
      set m_header_len 0;;
      cl ← req_var (str "Content-Length");
      match cl with
      | Some cl => n ← lift_opt (atoi cl); set m_req_content_len (u32 n)
      | None => mret tt
      end;;
      off ← get m_ibuffer_offset;
      set m_req_content_rcv off;;
      mret true
    else mret false
  else mret false.

(** The data and its size; NULL leaves the size as it was. *)
Definition req_data : CM (option (list Z * Z)) :=
  h ← get m_ibuffer;
  rd ← get m_req_data;
  if negb (h =? 0) && negb (rd =? 0) then
    mem ← bmp (bp_load h);
    off ← get m_ibuffer_offset;
    mret (Some (mem, off))
  else mret None.

Definition req_parse_content : CM bool :=
  rd ← req_data;
  match rd with
  | Some (data, sz) =>
      if negb (sz =? 0) then
        hbcontent ← bmp bp_alloc;
        if negb (hbcontent =? 0) then
          '(decoded, sz_decoded) ← decode_into hbcontent data (Z.to_nat sz);
          l ← lift_opt (scan_query decoded 0 sz_decoded);
          add_fields decoded l;;
          bmp (bp_free hbcontent);;
          mret true
        else mret false
      else mret false
  | None => mret false
  end.

Definition clear_ibuffer : CM unit :=
  h ← get m_ibuffer;
  if negb (h =? 0) then
    sz ← bsize;
    bmp (bp_store h (replicate (Z.to_nat sz) 0));;
    set m_ibuffer_offset 0
  else mret tt.

Definition receive_content : CM Z :=
  r ← receive;
  n ← get m_req_content_rcv;
  set m_req_content_rcv (u32 (n + r));;
  mret r.

(** ** Response *)
(** The bytes of the local [_http_res_var_t]. *)
Definition http_res_var (name value : list Z) : list Z :=
  strncpy 127 name ++ [stack1] ++ strncpy 383 value ++ [stack2].

Definition res_var (name value : list Z) : CM bool := fun c =>
  let '(ok, v) := vm_set (mpi_res_map c) name (http_res_var name value) in Some (ok, with_res v c).

Definition res_protocol (protocol : list Z) : CM unit :=
  modify (fun c => with_doc (take 15 protocol) (m_content_type c) (mp_doc c) c).
Definition res_code (httprc : Z) : CM unit := set m_response_code (u16 httprc);; set m_error_code (u16 httprc).
Definition res_content_len (content_len : Z) : CM bool := set m_res_content_len (u64 content_len);; mret true.
Definition res_content_type (ctype : option (list Z)) : CM unit :=
  modify (fun c => with_doc (m_res_protocol c) ctype (mp_doc c) c).
Definition res_content (doc : option (list Z)) (sz_doc : Z) : CM unit :=
  modify (fun c => with_doc (m_res_protocol c) (m_content_type c) doc c);;
  set m_res_content_len (u64 sz_doc).

Definition res_remainder : CM Z :=
  sent ← get m_content_sent;
  len ← get m_res_content_len;
  mret (if sent <? len then u32 (len - sent) else 0).

(** [n += snprintf(val + n, sizeof(val) - n, ...)] on [_char_t val[4096]]: [w]
    is the untruncated text, whose length is [n]; the size wraps beyond 4096. *)
Definition cookie_put (t w : list Z) : option (list Z) := if (length w <=? 4096)%nat then Some (w ++ t) else None.
Definition cookie_opt (b : bool) (t w : list Z) : option (list Z) := if b then cookie_put t w else Some w.
Definition cookie_attr (name : list Z) (a : option (list Z)) (w : list Z) : option (list Z) :=
  match a with Some v => cookie_put (str "; " ++ name ++ str "=" ++ v) w | None => Some w end.
Definition cookie_text (name value : list Z) (flags : Z) (expires max_age path domain : option (list Z)) :
    option (list Z) :=
  w ← cookie_put (name ++ str "=" ++ value) [];
  w ← cookie_opt (Z.testbit flags 0) (str "; Secure") w;
  w ← cookie_opt (Z.testbit flags 1) (str "; HttpOnly") w;
  w ← cookie_opt (Z.testbit flags 2) (str "; SameSite=Strict") w;
  w ← cookie_opt (Z.testbit flags 3) (str "; SameSite=Lax") w;
  w ← cookie_attr (str "Expires") expires w;
  w ← cookie_attr (str "Max-Age") max_age w;
  w ← cookie_attr (str "Path") path w;
  cookie_attr (str "Domain") domain w.
(** [add(val, n + 1)] reads the array. *)
Definition res_cookie (name value : list Z) (flags : Z) (expires max_age path domain : option (list Z)) : CM unit :=
  w ← lift_opt (cookie_text name value flags expires max_age path domain);
  if (length w + 1 <=? 4096)%nat then
    modify (fun c => with_cookies
      (if default true (head (c_cookie_heap c)) then mpi_cookie_list c ++ [w ++ [0]] else mpi_cookie_list c)
      (tail (c_cookie_heap c)) c)
  else undefined.

Definition res_write (data : list Z) : CM Z :=
  h ← get m_obuffer;
  (if h =? 0 then h ← bmp bp_alloc; set m_obuffer h else mret tt);;
  h ← get m_obuffer;
  if negb (h =? 0) then
    mem ← bmp (bp_load h);
    bsz ← bsize;
    off ← get m_obuffer_offset;
    let brem := u32 (bsz - off) in
    let size := u32 (Z.of_nat (length data)) in
    let r := if size <? brem then size else brem in
    if negb (r =? 0) then
      d ← lift_opt (bytes_at data 0 (Z.to_nat r));
      mem ← lift_opt (put_bytes mem (Z.to_nat off) d);
      bmp (bp_store h mem);;
      set m_obuffer_offset (u32 (off + r));;
      mret r
    else mret 0
  else mret 0.

Fixpoint cookie_vars (l : list (list Z)) : CM unit :=
  match l with
  | [] => mret tt
  | ck :: l => v ← lift_opt (cstr ck); res_var (str "Set-Cookie") v;; cookie_vars l
  end.

(** One record in the callback of [enumerate]: [name: value CR LF], if there is
    room for it and the terminator. *)
Definition header_text (data : list Z) : option (list Z) :=
  var ← cstr (data ++ [0]);
  val ← cstr (drop 128 data ++ [0]);
  Some (var ++ str ": " ++ val ++ [CR; LF]).
Definition put_header (data : list Z) : CM unit :=
  h ← get m_oheader;
  p ← ptr h;
  match p with
  | Some mem =>
      sz ← bsize;
      text ← lift_opt (header_text data);
      off ← get m_oheader_offset;
      let rem := if off <? sz then sz - off else 0 in
      if Z.of_nat (length text) <? rem then
        mem ← lift_opt (put_bytes mem (Z.to_nat off) (text ++ [0]));
        bmp (bp_store h mem);;
        set m_oheader_offset (u32 (off + Z.of_nat (length text)))
      else mret tt
  | None => mret tt
  end.
Fixpoint put_headers (l : list (list Z)) : CM unit :=
  match l with [] => mret tt | d :: l => put_header d;; put_headers l end.

Definition prepare_res_header : CM unit :=
  ct ← gets m_content_type;
  match ct with Some ct => res_var (str "Content-Type") ct;; mret tt | None => mret tt end;;
  len ← get m_res_content_len;
  when (negb (len =? 0)) (res_var (str "Content-Length") (decimal len);; mret tt);;
  cks ← gets mpi_cookie_list;
  when (negb (length cks =? 0)%nat)
    (cookie_vars cks;; modify (fun c => with_cookies [] (c_cookie_heap c) c));;
  h ← get m_oheader;
  (if h =? 0 then h ← bmp bp_alloc; set m_oheader h else mret tt);;
  h ← get m_oheader;
  when (negb (h =? 0))
    (l ← gets (fun c => order (v_map (mpi_res_map c)));
     put_headers l;;
     set m_res_hdr_prepared 1).

(** [_char_t rs[128]]; the text always fits. *)
Definition status_line (protocol : list Z) (code : Z) : list Z :=
  protocol ++ [SP] ++ decimal code ++ [SP] ++ get_rc_text code ++ [CR; LF].
Definition send_status : CM unit :=
  p ← gets m_res_protocol;
  code ← get m_response_code;
  if (length (status_line p code) <? 128)%nat then sio (write (status_line p code));; mret tt else undefined.

Definition send_header : CM Z :=
  code ← get m_response_code;
  if negb (code =? 0) then
    prep ← get m_res_hdr_prepared;
    when (prep =? 0) prepare_res_header;;
    sio (blocking true);;
    sent ← get m_oheader_sent;
    when (sent =? 0) send_status;;
    off ← get m_oheader_offset;
    h ← get m_oheader;
    r ← (if negb (off =? 0) then
           p ← ptr h;
           match p with
           | Some mem =>
               d ← lift_opt (bytes_at mem (Z.to_nat sent) (Z.to_nat (u32 (off - sent))));
               r ← sio (write d);
               set m_oheader_sent (u32 (sent + r));;
               mret r
           | None => mret 0
           end
         else mret 0);
    sent ← get m_oheader_sent;
    when (sent =? off)
      (sio (write [CR; LF]);;
       set m_oheader_sent r;;
       set m_res_hdr_prepared 0);;
    sio (blocking false);;
    mret r
  else mret 0.

Definition send_content : CM Z :=
  len ← get m_res_content_len;
  sent ← get m_content_sent;
  if negb (len =? 0) && (sent <? len) then
    doc ← gets mp_doc;
    match doc with
    | Some doc =>
        d ← lift_opt (bytes_at doc (Z.to_nat sent) (Z.to_nat (u32 (len - sent))));
        sio (blocking true);;
        r ← sio (write d);
        set m_content_sent (u64 (sent + r));;
        sio (blocking false);;
        mret r
    | None =>
        h ← get m_obuffer;
        p ← ptr h;
        off ← get m_obuffer_offset;
        match p with
        | Some mem =>
            if negb (off =? 0) then
              bsent ← get m_obuffer_sent;
              sio (blocking true);;
              d ← lift_opt (bytes_at mem (Z.to_nat bsent) (Z.to_nat (u32 (off - bsent))));
              r ← sio (write d);
              set m_obuffer_sent (u32 (bsent + r));;
              set m_content_sent (u64 (sent + r));;
              sio (blocking false);;
              mret r
            else mret 0
        | None => mret 0
        end
    end
  else mret 0.

(** ** Life cycle *)
Definition release_buffer (x : member) : CM unit :=
  h ← get x;
  when (negb (h =? 0)) (bmp (bp_free h);; set x 0).
Definition release_buffers : CM unit :=
  release_buffer m_ibuffer;; release_buffer m_oheader;; release_buffer m_obuffer.

Fixpoint set_all (l : list member) : CM unit :=
  match l with [] => mret tt | x :: l => set x 0;; set_all l end.

Definition clean_members (now : Z) : CM unit :=
  set m_state 0;;
  release_buffers;;
  set_all [m_ibuffer_offset; m_oheader_offset; m_obuffer_offset; m_response_code; m_error_code;
           m_res_content_len; m_req_content_len; m_req_content_rcv; m_oheader_sent; m_obuffer_sent;
           m_content_sent; m_header_len; m_req_data; m_res_hdr_prepared];;
  set m_stime now;;
  modify (fun c => with_doc (str "HTTP/1.1") None None c);;
  modify (fun c => with_req (vm_clr (mpi_req_map c)) c);;
  modify (fun c => with_res (vm_clr (mpi_res_map c)) c);;
  modify (fun c => with_cookies [] (c_cookie_heap c) c).

(** The object has a buffer map from the start; another one may be passed. *)
Definition _init (s : sock O) (bmap : B) (timeout now : Z) : CM bool :=
  has ← gets mp_sio;
  match has with
  | Some _ => mret false
  | None =>
      if m_alive s then
        clean_members now;;
        modify (with_bmap bmap);;
        modify (fun c => with_sio (Some s) (c_closed c) c);;
        set m_timeout (u32 timeout);;
        sio (blocking false);;
        mret true
      else mret false
  end.

(** Releasing the socket object closes it ([OCTL_UNINIT] of cSocketIO). *)
Definition close : CM unit :=
  has ← gets mp_sio;
  match has with
  | Some _ => sio _close;; modify (fun c => with_sio None (option_list (mp_sio c) ++ c_closed c) c)
  | None => mret tt
  end;;
  release_buffers.

(** ** One step of the state machine *)
Definition process (now : Z) : CM Z :=
  st ← get m_state;
  if st =? 0 then
    set m_state HTTPC_RECEIVE_HEADER;; mret HTTP_ON_OPEN
  else if st =? HTTPC_RECEIVE_HEADER then
    r ← receive;
    (if r =? 0 then
       a ← conn_alive;
       set m_state (if (a : bool) then HTTPC_COMPLETE_HEADER else HTTPC_CLOSE)
     else mret tt);;
    mret 0
  else if st =? HTTPC_COMPLETE_HEADER then
    ok ← complete_req_header;
    if (ok : bool) then set m_state HTTPC_PARSE_HEADER;; mret 0
    else
      stime ← get m_stime;
      timeout ← get m_timeout;
      if timeout <? now - stime then
        set m_state HTTPC_SEND_HEADER;;
        set m_error_code HTTPRC_REQUEST_TIMEOUT;;
        mret HTTP_ON_ERROR
      else set m_state HTTPC_RECEIVE_HEADER;; mret 0
  else if st =? HTTPC_PARSE_HEADER then
    ok ← parse_req_header;
    good ← (if (ok : bool) then
              url ← req_url;
              match url with
              | Some _ => n ← req_method; mret (negb (n =? 0))
              | None => mret false
              end
            else mret false);
    if (good : bool) then set m_state HTTPC_RECEIVE_CONTENT;; mret HTTP_ON_REQUEST
    else
      set m_error_code HTTPRC_BAD_REQUEST;;
      set m_state HTTPC_SEND_HEADER;;
      mret HTTP_ON_ERROR
  else if st =? HTTPC_RECEIVE_CONTENT then
    clear_ibuffer;;
    n ← receive_content;
    if negb (n =? 0) then set m_req_data 1;; mret HTTP_ON_REQUEST_DATA
    else
      a ← conn_alive;
      (if (a : bool) then
         rcv ← get m_req_content_rcv;
         len ← get m_req_content_len;
         when (len <=? rcv) (set m_state HTTPC_SEND_HEADER)
       else set m_state HTTPC_CLOSE);;
      set m_req_data 0;;
      mret 0
  else if st =? HTTPC_SEND_HEADER then
    clear_ibuffer;;
    n ← receive_content;
    if n =? 0 then
      a ← conn_alive;
      code ← get m_response_code;
      (if a && negb (code =? 0) then
         send_header;;
         sent ← get m_oheader_sent;
         off ← get m_oheader_offset;
         when (sent =? off) (set m_state HTTPC_SEND_CONTENT)
       else set m_state HTTPC_CLOSE);;
      set m_req_data 0;;
      mret 0
    else set m_req_data 1;; mret HTTP_ON_REQUEST_DATA
  else if st =? HTTPC_SEND_CONTENT then
    clear_ibuffer;;
    n ← receive_content;
    if negb (n =? 0) then set m_req_data 1;; mret HTTP_ON_REQUEST_DATA
    else
      a ← conn_alive;
      r ← (if (a : bool) then
             send_content;;
             sent ← get m_content_sent;
             len ← get m_res_content_len;
             if sent <? len then
               doc ← gets mp_doc;
               match doc with
               | None =>
                   bsent ← get m_obuffer_sent;
                   boff ← get m_obuffer_offset;
                   if boff <=? bsent then
                     set m_obuffer_offset 0;; set m_obuffer_sent 0;; mret HTTP_ON_RESPONSE_DATA
                   else mret 0
               | Some _ => mret 0
               end
             else
               ctype ← req_var (str "Connection");
               match ctype with
               | Some ct =>
                   if strcasecmp_eq ct (str "keep-alive") then
                     clean_members now;;
                     set m_state HTTPC_RECEIVE_HEADER;;
                     mret HTTP_ON_CLOSE_DOCUMENT
                   else set m_state HTTPC_CLOSE;; mret 0
               | None => set m_state HTTPC_CLOSE;; mret 0
               end
           else set m_state HTTPC_CLOSE;; mret 0);
      set m_req_data 0;;
      mret r
  else if st =? HTTPC_CLOSE then close;; mret 0
  else mret 0.
End connection.
