(* ===== verification/HttpConnSpec.v ===== *)
(** * The connection's buffers and counters: rules and invariant

    [crep c n own oth]: the buffer map holds the connection's buffers [own], one
    for each of its handles that is set and no other, next to the buffers [oth]
    of everybody else. *)
From S2P Require Import Prelude Str UrlCodec HttpParse Socket BufferPool VarMap HttpConnection.
Set Default Goal Selector "!".

Lemma size_list_to_set_le (l : list Z) : (size (list_to_set l : gset Z) <= length l)%nat.
Proof.
  induction l as [|x l IH]; cbn; [by rw size_empty|]. rw size_union_alt size_singleton.
  assert (size ((list_to_set l : gset Z) ∖ {[x]}) <= size (list_to_set l : gset Z))%nat by (apply subseteq_size; intros y [? _]%elem_of_difference; done).
  lia.
Qed.

Definition handles : list member := [m_ibuffer; m_oheader; m_obuffer].
Lemma ibuffer_handle : m_ibuffer ∈ handles. Proof. unfold handles. set_solver. Qed.
Lemma oheader_handle : m_oheader ∈ handles. Proof. unfold handles. set_solver. Qed.
Lemma obuffer_handle : m_obuffer ∈ handles. Proof. unfold handles. set_solver. Qed.
Lemma no_handle x : (3 <= idx x)%nat -> x ∉ handles.
Proof. intros Hx Hin. unfold handles in Hin. set_unfold in Hin. destruct Hin as [-> |[-> |[-> |[]]]]; cbn in Hx; lia. Qed.
#[export] Hint Resolve ibuffer_handle oheader_handle obuffer_handle : core.

(** Symbolic execution of the connection's code. *)
Ltac cn_step :=
  cbv beta zeta;
  lazymatch goal with
  | |- wp (mbind _ _) _ _ => apply wp_bind
  | |- wp (mret _) _ _ => apply wp_ret
  | |- wp (gets _) _ _ => apply wp_gets
  | |- wp (modify _) _ _ => apply wp_modify
  | |- wp (get _) _ _ => apply wp_gets
  | |- wp (set _ _) _ _ => apply wp_modify
  end.
(** The members of an explicit state. *)
Ltac cn_simpl := cbn [m_ mp_sio c_closed mpi_bmap mpi_req_map mpi_res_map mpi_cookie_list c_cookie_heap
  m_res_protocol m_content_type mp_doc with_regs with_sio with_bmap with_req with_res with_cookies with_doc
  upd idx Nat.eqb] in *.
Ltac cn_steps := repeat (cn_step; cn_simpl).

Section rep.
Context {O B : Type} `{SockOs O} `{BPL : BufferPoolLaws B}.
Abbreviation CN := (conn O B).
Implicit Types (c : CN) (own oth : gmap Z (list Z)).

Definition crep c (n : Z) own oth : Prop :=
  bp_rep (mpi_bmap c) n (own ∪ oth) /\ own ##ₘ oth /\ Z.of_nat (size oth) + 8 < 2 ^ 32 /\
  (forall x, x ∈ handles -> m_ c x <> 0 -> is_Some (own !! m_ c x)) /\
  (forall h, is_Some (own !! h) -> exists x, x ∈ handles /\ m_ c x = h) /\
  (forall x y, x ∈ handles -> y ∈ handles -> x <> y -> m_ c x = m_ c y -> m_ c x = 0).

Lemma crep_own_size c n own oth : crep c n own oth -> (size own <= 3)%nat.
Proof.
  intros (_ & _ & _ & _ & H1 & _). rw -size_dom.
  etrans; [apply (subseteq_size _ (list_to_set (m_ c <$> handles) : gset Z))|].
  - intros h Hh. apply elem_of_dom in Hh. apply H1 in Hh as (x & Hx & <-). apply elem_of_list_to_set.
    by apply list_elem_of_fmap_2.
  - etrans; [apply size_list_to_set_le|]. done.
Qed.

Lemma crep_length c n own oth h d : crep c n own oth -> own !! h = Some d -> 0 < h /\ length d = Z.to_nat n.
Proof.
  intros (Hb & _) Hh. destruct (bp_rep_handle _ _ _ h d Hb) as [? <-]; [by apply lookup_union_Some_l|]. lia.
Qed.

Lemma crep_size c n own oth : crep c n own oth -> bp_size (mpi_bmap c) = n /\ 0 < n < 2 ^ 32.
Proof. intros (Hb & _). by eapply bp_rep_size. Qed.

Lemma crep_handle c n own oth x : crep c n own oth -> x ∈ handles -> m_ c x <> 0 ->
  exists d, own !! m_ c x = Some d /\ length d = Z.to_nat n.
Proof.
  intros Hr Hx Hne. pose proof Hr as (_ & _ & _ & H1 & _). destruct (H1 x Hx Hne) as [d Hd].
  exists d. split; [done|]. by eapply crep_length.
Qed.

(** Members that are no handles, and the other fields. *)
Lemma crep_ext c c' n own oth : crep c n own oth -> mpi_bmap c' = mpi_bmap c ->
  (forall x, x ∈ handles -> m_ c' x = m_ c x) -> crep c' n own oth.
Proof.
  intros (H1 & H2 & H3 & H4 & H5 & H6) Eb Em. split_and!; try done.
  - by rw Eb.
  - intros x Hx. rw Em //. by apply H4.
  - intros h (x & Hx & <-)%H5. exists x. by rw Em.
  - intros x y Hx Hy. rw !Em //. by apply H6.
Qed.

Lemma crep_set c n own oth x v : crep c n own oth -> x ∉ handles -> crep (with_regs (upd x v) c) n own oth.
Proof.
  intros Hr Hx. apply (crep_ext c); [done..|]. intros y Hy. cbn. unfold upd.
  destruct (Nat.eqb_spec (idx y) (idx x)) as [E|]; [|done]. destruct Hx. by destruct x, y.
Qed.

Lemma wp_bmp {A} (m : M B A) c (Q : A -> CN -> Prop) :
  wp m (mpi_bmap c) (fun a b => Q a (with_bmap b c)) -> wp (bmp m) c Q.
Proof. unfold wp, bmp. by destruct (m (mpi_bmap c)) as [[a b]|]. Qed.

Lemma wp_get x c (Q : Z -> CN -> Prop) : Q (m_ c x) c -> wp (get x) c Q.
Proof. done. Qed.
Lemma wp_set x v c (Q : unit -> CN -> Prop) : Q tt (with_regs (upd x v) c) -> wp (set x v) c Q.
Proof. done. Qed.

Lemma wp_buf_alloc c n own oth (Q : Z -> CN -> Prop) : crep c n own oth ->
  (forall b, crep (with_bmap b c) n own oth -> Q 0 (with_bmap b c)) ->
  (forall b h, 0 < h -> own !! h = None -> oth !! h = None ->
     bp_rep b n (<[h := replicate (Z.to_nat n) 0]> (own ∪ oth)) -> Q h (with_bmap b c)) ->
  wp (bmp bp_alloc) c Q.
Proof.
  intros Hr HQ0 HQ. pose proof (crep_own_size _ _ _ _ Hr) as Hs.
  pose proof Hr as (Hb & Hd & Hsz & H4 & H5 & H6). apply wp_bmp. eapply wp_mono; [eapply bp_alloc_law; [done|]|].
  - rw map_size_disj_union //. lia.
  - intros r b [[-> Hb']|(Hr0 & Hn & Hb')].
    + by apply HQ0.
    + apply lookup_union_None in Hn as [Hn1 Hn2]. by apply HQ.
Qed.

(** A buffer taken for a while, outside the connection's handles; one more
    than [crep] lets be. *)
Lemma crep_temp c b n own oth h d : crep c n own oth -> own !! h = None -> oth !! h = None ->
  Z.of_nat (size oth) + 9 < 2 ^ 32 ->
  bp_rep b n (<[h := d]> (own ∪ oth)) -> crep (with_bmap b c) n own (<[h := d]> oth).
Proof.
  intros (Hb & Hd & Hsz & H4 & H5 & H6) H1 H2 Hs Hb'. split_and!; try done.
  - cbn. by rw insert_union_r in Hb'.
  - by apply map_disjoint_insert_r.
  - rw map_size_insert_None //. lia.
Qed.

Lemma idx_inj x y : idx x = idx y -> x = y.
Proof. by destruct x, y. Qed.

Lemma m_upd x v (c : CN) y : m_ (with_regs (upd x v) c) y = if decide (idx y = idx x) then v else m_ c y.
Proof. cbn. unfold upd. destruct (Nat.eqb_spec (idx y) (idx x)); by [rw decide_True|rw decide_False]. Qed.

Lemma crep_zero c n own oth : crep c n own oth -> own !! 0 = None.
Proof.
  intros Hr. destruct (own !! 0) as [d|] eqn:E; [|done]. apply (crep_length _ _ _ _ _ _ Hr) in E. lia.
Qed.

(** A buffer that becomes one of the handles. *)
Lemma crep_adopt c b n own oth x h d : crep c n own oth -> x ∈ handles -> m_ c x = 0 -> h <> 0 ->
  own !! h = None -> oth !! h = None -> bp_rep b n (<[h := d]> (own ∪ oth)) ->
  crep (with_regs (upd x h) (with_bmap b c)) n (<[h := d]> own) oth.
Proof.
  intros Hr Hx Hx0 Hh H1 H2 Hb'. pose proof (crep_zero _ _ _ _ Hr) as H0'. destruct Hr as (Hb & Hd & Hsz & H4 & H5 & H6).
  split_and!; try done.
  - cbn. by rw insert_union_l in Hb'.
  - by apply map_disjoint_insert_l.
  - intros y Hy. rw m_upd. case_decide as E; [rw lookup_insert_eq; by eexists|]. intros Hy0.
    destruct (H4 y Hy Hy0) as [e He]. rw lookup_insert. case_decide; by eexists.
  - intros h'. rw lookup_insert_is_Some. intros [<-|[Hne' Hs]]; [exists x; rw m_upd decide_True //|].
    destruct (H5 h' Hs) as (y & Hy & Ey). exists y. rw m_upd decide_False //. intros ->%idx_inj.
    rw Hx0 in Ey. subst h'. rw H0' in Hs. by destruct Hs.
  - intros y z Hy Hz Hyz. rw !m_upd. cbn [m_ with_bmap]. repeat case_decide; try done.
    + intros _. exfalso. apply Hyz, idx_inj. congruence.
    + intros Ez. destruct (decide (m_ c z = 0)) as [|Hz0]; [congruence|].
      destruct (H4 z Hz Hz0) as [e He]. congruence.
    + intros Ey. destruct (decide (m_ c y = 0)) as [|Hy0]; [congruence|].
      destruct (H4 y Hy Hy0) as [e He]. congruence.
    + by apply H6.
Qed.

Lemma with_bmap_id (c : CN) : with_bmap (mpi_bmap c) c = c.
Proof. by destruct c. Qed.

Lemma wp_load_same c n own oth h d (Q : list Z -> CN -> Prop) : crep c n own oth -> (own ∪ oth) !! h = Some d ->
  Q d c -> wp (bmp (bp_load h)) c Q.
Proof.
  intros (Hb & Hr) Hh HQ. apply wp_bmp. eapply wp_mono; [by eapply bp_load_law|]. intros r b [-> ->].
  by rw with_bmap_id.
Qed.

Lemma wp_buf_load c n own oth h d (Q : list Z -> CN -> Prop) : crep c n own oth -> (own ∪ oth) !! h = Some d ->
  (forall b, crep (with_bmap b c) n own oth -> Q d (with_bmap b c)) -> wp (bmp (bp_load h)) c Q.
Proof.
  intros Hr Hh HQ. eapply wp_load_same; [done..|]. specialize (HQ (mpi_bmap c)). rw with_bmap_id in HQ. by apply HQ.
Qed.

Lemma wp_load_own c n own oth h d (Q : list Z -> CN -> Prop) : crep c n own oth -> own !! h = Some d ->
  (forall b, crep (with_bmap b c) n own oth -> Q d (with_bmap b c)) -> wp (bmp (bp_load h)) c Q.
Proof. intros Hr Hh. eapply wp_buf_load; [done|]. by apply lookup_union_Some_l. Qed.

Lemma wp_store_own c n own oth h d (Q : unit -> CN -> Prop) : crep c n own oth -> is_Some (own !! h) ->
  length d = Z.to_nat n ->
  (forall b, crep (with_bmap b c) n (<[h := d]> own) oth -> Q tt (with_bmap b c)) -> wp (bmp (bp_store h d)) c Q.
Proof.
  intros Hr Hh Hl HQ. pose proof (crep_size _ _ _ _ Hr) as [_ Hn]. destruct Hr as (Hb & Hd & Hsz & H4 & H5 & H6).
  apply wp_bmp. eapply wp_mono.
  { apply (bp_store_law _ _ _ h d Hb); [|lia]. destruct Hh as [e He]. exists e. by apply lookup_union_Some_l. }
  intros [] b Hb'. apply HQ. split_and!; try done.
  - by rw insert_union_l in Hb'.
  - apply map_disjoint_insert_l_2; [|done]. destruct Hh as [e He]. by eapply map_disjoint_Some_l.
  - intros x Hx Hx0. rw lookup_insert_is_Some'. right. by apply H4.
  - intros h'. rw lookup_insert_is_Some'. intros [<-|?]; by apply H5.
Qed.

Lemma wp_store_oth c n own oth h d (Q : unit -> CN -> Prop) : crep c n own oth -> is_Some (oth !! h) ->
  length d = Z.to_nat n ->
  (forall b, crep (with_bmap b c) n own (<[h := d]> oth) -> Q tt (with_bmap b c)) -> wp (bmp (bp_store h d)) c Q.
Proof.
  intros Hr Hh Hl HQ. pose proof (crep_size _ _ _ _ Hr) as [_ Hn]. destruct Hr as (Hb & Hd & Hsz & H4 & H5 & H6).
  destruct Hh as [e He]. assert (own !! h = None) as Hno by by eapply map_disjoint_Some_r.
  apply wp_bmp. eapply wp_mono.
  { apply (bp_store_law _ _ _ h d Hb); [|lia]. exists e. by apply lookup_union_Some_r. }
  intros [] b Hb'. apply HQ. split_and!; try done.
  - by rw insert_union_r in Hb'.
  - by apply map_disjoint_insert_r_2.
  - rw map_size_insert He. done.
Qed.

(** Giving a borrowed buffer back. *)
Lemma wp_free_oth c n own oth h (Q : unit -> CN -> Prop) : crep c n own oth -> is_Some (oth !! h) ->
  (forall b, crep (with_bmap b c) n own (delete h oth) -> Q tt (with_bmap b c)) -> wp (bmp (bp_free h)) c Q.
Proof.
  intros (Hb & Hd & Hsz & H4 & H5 & H6) [e He] HQ. assert (own !! h = None) as Hno by by eapply map_disjoint_Some_r.
  apply wp_bmp. eapply wp_mono.
  { apply (bp_free_law _ _ _ h Hb). exists e. by apply lookup_union_Some_r. }
  intros [] b Hb'. apply HQ. split_and!; try done.
  - rw delete_union (delete_id own) // in Hb'.
  - by apply map_disjoint_delete_r.
  - rw map_size_delete He. lia.
Qed.

Lemma wp_release_buffer c n own oth x (Q : unit -> CN -> Prop) : crep c n own oth -> x ∈ handles ->
  (m_ c x = 0 -> Q tt c) ->
  (forall b, m_ c x <> 0 -> crep (with_regs (upd x 0) (with_bmap b c)) n (delete (m_ c x) own) oth ->
    Q tt (with_regs (upd x 0) (with_bmap b c))) -> wp (release_buffer x) c Q.
Proof.
  intros Hr Hx HQ0 HQ. unfold release_buffer. cn_steps. apply wp_when; intros E; [|by apply HQ0, Z.eqb_eq, negb_false_iff].
  apply negb_true_iff, Z.eqb_neq in E. pose proof (crep_zero _ _ _ _ Hr) as H0'. destruct Hr as (Hb & Hd & Hsz & H4 & H5 & H6).
  destruct (H4 x Hx E) as [e He].
  wp_step. apply wp_bmp. eapply wp_mono.
  { apply (bp_free_law _ _ _ _ Hb). exists e. by apply lookup_union_Some_l. }
  intros [] b Hb'. cn_step. apply HQ; [done|]. split_and!; try done.
  - cbn. rw delete_union (delete_id oth) // in Hb'. by eapply map_disjoint_Some_l.
  - by apply map_disjoint_delete_l.
  - intros y Hy. rw m_upd. case_decide as Ey; [done|]. intros Hy0. destruct (H4 y Hy Hy0) as [e' He'].
    exists e'. rw lookup_delete_ne //. intros E'. apply E, (H6 x y); try done. by intros ->.
  - intros h [Hh (y & Hy & <-)%H5]%lookup_delete_is_Some. exists y. rw m_upd decide_False //.
    intros ->%idx_inj. done.
  - intros y z Hy Hz Hyz. rw !m_upd. cbn [m_ with_bmap]. repeat case_decide; try done. by apply H6.
Qed.
(** [if(!x) x = alloc();] *)
Lemma wp_ensure c n own oth x (Q : unit -> CN -> Prop) : crep c n own oth -> x ∈ handles ->
  (m_ c x <> 0 -> Q tt c) ->
  (forall b h own', m_ c x = 0 -> crep (with_regs (upd x h) (with_bmap b c)) n own' oth ->
    (h = 0 /\ own' = own \/ h <> 0 /\ own' = <[h := replicate (Z.to_nat n) 0]> own) ->
    Q tt (with_regs (upd x h) (with_bmap b c))) ->
  wp (if m_ c x =? 0 then h ← bmp bp_alloc; set x h else mret tt) c Q.
Proof.
  intros Hr Hx HQ1 HQ2. destruct (Z.eqb_spec (m_ c x) 0) as [E|E]; [|by apply wp_ret, HQ1].
  cn_step. eapply wp_buf_alloc; [done|..].
  - intros b Hr'. cn_step. eapply HQ2; [done| |by left]. destruct Hr' as (H1 & H2 & H3 & H4 & H5 & H6).
    assert (forall y, m_ (with_regs (upd x 0) (with_bmap b c)) y = m_ c y) as Em.
    { intros y. rw m_upd. case_decide as Ey; [|done]. apply idx_inj in Ey as ->. done. }
    split_and!; try done.
    + intros y Hy. rw Em. by apply H4.
    + intros h' Hh. destruct (H5 h' Hh) as (y & ? & ?). exists y. by rw Em.
    + intros y z Hy Hz Hyz. rw !Em. by apply H6.
  - intros b h Hh Ho1 Ho2 Hb. cn_step. eapply HQ2; [done|eapply crep_adopt; try done; lia|]. right. split; [lia|done].
Qed.
End rep.

Lemma put_bytes_some m off d : (off + length d <= length m)%nat ->
  put_bytes m off d = Some (take off m ++ d ++ drop (off + length d) m).
Proof. intros Hl. unfold put_bytes. by destruct (Nat.leb_spec (off + length d) (length m)); [|lia]. Qed.

Lemma put_bytes_length m off d m' : put_bytes m off d = Some m' -> length m' = length m.
Proof.
  unfold put_bytes. destruct (Nat.leb_spec (off + length d) (length m)); [|done]. intros [= <-].
  rw !length_app length_take length_drop. lia.
Qed.

Lemma bytes_at_some m off n : (off + n <= length m)%nat -> bytes_at m off n = Some (take n (drop off m)).
Proof. intros Hl. unfold bytes_at. by destruct (Nat.leb_spec (off + n) (length m)); [|lia]. Qed.

Lemma cstr_app m m' s : cstr m = Some s -> cstr (m ++ m') = Some s.
Proof.
  revert s. induction m as [|x m IH]; intros s; cbn; [done|]. destruct (x =? 0); [done|].
  destruct (cstr m) as [s'|]; [|done]. cbn. intros [= <-]. by rw (IH s').
Qed.

Lemma cstr_term m : is_Some (cstr (m ++ [0])).
Proof.
  induction m as [|x m [s IH]]; cbn; [by eexists|]. destruct (x =? 0); [by eexists|]. rw IH. by eexists.
Qed.

Lemma cstr_clean s m : Forall (fun c => c <> 0) s -> cstr (s ++ 0 :: m) = Some s.
Proof.
  induction s as [|x s IH]; cbn; [done|]. intros [Hx Hs]%Forall_cons. apply Z.eqb_neq in Hx. rw Hx.
  by rw IH.
Qed.

(** ** The invariant *)
Section invariant.
Context {O B : Type} `{SL : SockOsLaws O} `{BPL : BufferPoolLaws B}.
Context (order : gmap (list Z) (list Z) -> list (list Z)) (stack1 stack2 : Z).
Abbreviation CN := (conn O B).
Implicit Types (c : CN) (own oth : gmap Z (list Z)).

Definition counters (f : member -> Z) (n : Z) : Prop :=
  0 <= f m_ibuffer_offset <= n /\ 0 <= f m_oheader_sent <= f m_oheader_offset /\ f m_oheader_offset <= n /\
  0 <= f m_obuffer_sent <= f m_obuffer_offset /\ f m_obuffer_offset <= n /\ 0 <= f m_header_len <= n /\
  0 <= f m_content_sent < 2 ^ 64 /\ 0 <= f m_res_content_len < 2 ^ 64 /\ 0 <= f m_response_code < 2 ^ 16 /\
  0 <= f m_state <= 7.

(** The document the handler handed over has the length it was said to have. *)
Definition doc_ok c : Prop :=
  match mp_doc c with Some d => m_ c m_res_content_len <= Z.of_nat (length d) | None => True end.

Record conn_ok c (n : Z) oth : Prop := {
  ok_own : exists own, crep c n own oth;
  ok_counters : counters (m_ c) n;
  ok_protocol : (length (m_res_protocol c) <= 15)%nat;
  ok_doc : doc_ok c;
  ok_cookies : Forall (fun ck => is_Some (cstr ck)) (mpi_cookie_list c)
}.

(** An operation that stays in the state of the machine and keeps the socket. *)
Definition same c c' : Prop :=
  m_ c' m_state = m_ c m_state /\ (is_Some (mp_sio c) -> is_Some (mp_sio c')).

Definition post {A} c n oth (_ : A) c' : Prop := conn_ok c' n oth /\ same c c'.

Lemma same_refl c : same c c.
Proof. done. Qed.
Lemma same_trans c1 c2 c3 : same c1 c2 -> same c2 c3 -> same c1 c3.
Proof. intros [E1 H1] [E2 H2]. split; [congruence|auto]. Qed.

Lemma wp_alive c (Q : bool -> CN -> Prop) :
  Q (match mp_sio c with Some s => m_alive s | None => false end) c -> wp conn_alive c Q.
Proof. done. Qed.

Lemma wp_sio {A} (m : M (sock O) A) s c (Q : A -> CN -> Prop) : mp_sio c = Some s ->
  wp m s (fun a s' => Q a (with_sio (Some s') (c_closed c) c)) -> wp (sio m) c Q.
Proof. intros E. unfold wp, sio. rw E. by destruct (m s) as [[a s']|]. Qed.

Lemma post_refl {A} c n oth (a : A) : conn_ok c n oth -> post c n oth a c.
Proof. by split. Qed.

(** Changes of the buffers only. *)
Lemma conn_ok_mem c c' n own' oth : conn_ok c n oth -> crep c' n own' oth ->
  (forall y, (3 <= idx y)%nat -> m_ c' y = m_ c y) ->
  m_res_protocol c' = m_res_protocol c -> mp_doc c' = mp_doc c -> mpi_cookie_list c' = mpi_cookie_list c ->
  conn_ok c' n oth.
Proof.
  intros [_ Hc Hp Hd Hck] Hr Hm E1 E2 E3. split.
  - by eexists.
  - unfold counters in *. rw !Hm //; cbn; lia.
  - by rw E1.
  - unfold doc_ok in *. rw E2 Hm //. cbn. lia.
  - by rw E3.
Qed.

Lemma conn_ok_bmap c b n own' oth : conn_ok c n oth -> crep (with_bmap b c) n own' oth -> conn_ok (with_bmap b c) n oth.
Proof. intros Hok Hr. by eapply conn_ok_mem. Qed.

(** Setting a counter within its bounds. *)
Lemma conn_ok_set c n oth x v : conn_ok c n oth -> (3 <= idx x)%nat -> counters (upd x v (m_ c)) n ->
  (x = m_res_content_len -> doc_ok (with_regs (upd x v) c)) -> conn_ok (with_regs (upd x v) c) n oth.
Proof.
  intros [[own Hr] Hc Hp Hd Hck] Hx Hc' Hd'. split; [exists own|done|done| |done].
  - apply crep_set; [done|by apply no_handle].
  - unfold doc_ok in *. rw m_upd. case_decide as E; [|done]. apply idx_inj in E. subst x. by apply Hd'.
Qed.

Lemma ensure_ok c n oth x : conn_ok c n oth -> x ∈ handles ->
  wp (if m_ c x =? 0 then h ← bmp bp_alloc; set x h else mret tt) c (fun _ c' =>
    conn_ok c' n oth /\ mp_sio c' = mp_sio c /\ forall y, (3 <= idx y)%nat -> m_ c' y = m_ c y).
Proof.
  intros Hok Hx. pose proof Hok as [[own Hr] _ _ _ _]. eapply wp_ensure; [done|done|done|].
  intros b h own' Hx0 Hr' _.
  assert (forall y, (3 <= idx y)%nat -> m_ (with_regs (upd x h) (with_bmap b c)) y = m_ c y) as Hm.
  { intros y Hy. rw m_upd decide_False //. intros ->%idx_inj. by apply (no_handle x). }
  split; [|done]. by eapply conn_ok_mem.
Qed.

Lemma load_ok c n oth x h (Q : list Z -> CN -> Prop) : conn_ok c n oth -> x ∈ handles -> m_ c x = h -> h <> 0 ->
  (forall b d, length d = Z.to_nat n -> conn_ok (with_bmap b c) n oth -> Q d (with_bmap b c)) ->
  wp (bmp (bp_load h)) c Q.
Proof.
  intros Hok Hx <- Hx0 HQ. pose proof Hok as [[own Hr] _ _ _ _].
  destruct (crep_handle _ _ _ _ x Hr) as (d & Hd & Hl); [done|done|].
  eapply wp_load_own; [done|done|]. intros b Hr'. apply HQ; [done|]. by eapply conn_ok_bmap.
Qed.

Lemma store_ok c n oth x h d (Q : unit -> CN -> Prop) : conn_ok c n oth -> x ∈ handles -> m_ c x = h -> h <> 0 ->
  length d = Z.to_nat n -> (forall b, conn_ok (with_bmap b c) n oth -> Q tt (with_bmap b c)) ->
  wp (bmp (bp_store h d)) c Q.
Proof.
  intros Hok Hx <- Hx0 Hl HQ. pose proof Hok as [[own Hr] _ _ _ _].
  destruct (crep_handle _ _ _ _ x Hr) as (d' & Hd & _); [done|done|].
  eapply wp_store_own; [done|by eexists|done|]. intros b Hr'. apply HQ. by eapply conn_ok_bmap.
Qed.

Lemma ptr_ok c n oth x h (Q : option (list Z) -> CN -> Prop) : conn_ok c n oth -> x ∈ handles -> m_ c x = h ->
  (h = 0 -> Q None c) ->
  (forall b d, h <> 0 -> length d = Z.to_nat n -> conn_ok (with_bmap b c) n oth -> Q (Some d) (with_bmap b c)) ->
  wp (ptr h) c Q.
Proof.
  intros Hok Hx Eh HQ1 HQ2. unfold ptr. destruct (Z.eqb_spec h 0) as [E|E]; [by apply wp_ret, HQ1|].
  cn_step. eapply load_ok; [done|exact Hx|done|done|]. intros b d Hl Hok'. cn_step. by apply HQ2.
Qed.

Lemma bsize_ok c n oth : conn_ok c n oth -> bp_size (mpi_bmap c) = n /\ 0 < n < 2 ^ 32.
Proof. intros [[own Hr] _ _ _ _]. by eapply crep_size. Qed.

Lemma wp_bsize c n oth (Q : Z -> CN -> Prop) : conn_ok c n oth -> (0 < n < 2 ^ 32 -> Q n c) -> wp bsize c Q.
Proof. intros Hok HQ. destruct (bsize_ok _ _ _ Hok) as [E Hn]. apply wp_gets. rw E. by apply HQ. Qed.

(** Using the socket. *)
Lemma sio_ok {A} (m : M (sock O) A) c n oth s (Q : A -> CN -> Prop) : conn_ok c n oth -> mp_sio c = Some s ->
  wp m s (fun a s' => conn_ok (with_sio (Some s') (c_closed c) c) n oth -> Q a (with_sio (Some s') (c_closed c) c)) ->
  wp (sio m) c Q.
Proof.
  intros Hok Es Hm. eapply wp_sio; [done|]. eapply wp_mono; [exact Hm|]. intros a s' HQ. apply HQ.
  by destruct Hok.
Qed.

Lemma receive_ok c n oth : conn_ok c n oth -> wp receive c (post c n oth).
Proof.
  intros Hok. unfold receive. cn_step. apply wp_alive.
  destruct (mp_sio c) as [s|] eqn:Es; [|by apply wp_ret, post_refl].
  destruct (m_alive s); [|by apply wp_ret, post_refl].
  cn_step. cn_step. cn_step. eapply wp_mono; [by apply ensure_ok|]. intros [] c1 (Hok1 & Es1 & Em1).
  assert (same c c1) as Hs1 by (split; [apply Em1; cbn; lia|by rw Es1]). clear Hok. rw Es in Es1.
  cn_step. cn_step. destruct (Z.eqb_spec (m_ c1 m_ibuffer) 0) as [E|E]; cbn [negb]; [by apply wp_ret|].
  cn_step. eapply (load_ok _ _ _ m_ibuffer); [done|done|done|done|]. intros b mem Hl Hok2.
  cn_step. eapply wp_bsize; [done|]. intros Hn. cn_step. cn_step.
  pose proof (ok_counters _ _ _ Hok2) as Hc. unfold counters in Hc. cn_simpl.
  rw u32_small; [|lia]. cn_step. eapply sio_ok; [exact Hok2|exact Es1|].
  eapply wp_mono; [apply read_spec; lia|]. intros d s' (Hd & _) Hok3.
  cn_step. eapply wp_lift_opt; [apply put_bytes_some; lia|].
  cn_step. eapply (store_ok _ n oth m_ibuffer); [exact Hok3|done|done|done| |].
  { rw !length_app length_take length_drop. lia. }
  intros b2 Hok4. cn_step. cn_step. cn_step. rw u32_small; [|lia]. split.
  - apply conn_ok_set; [done|cbn; lia| |done]. pose proof (ok_counters _ _ _ Hok4) as Hc4. unfold counters in *.
    cn_simpl. lia.
  - destruct Hs1. split; [done|]. done.
Qed.
(** The next call of an operation with a [post]. *)
Lemma wp_op {A} (m : M CN A) c n oth (Q : A -> CN -> Prop) : wp m c (post c n oth) ->
  (forall a c', conn_ok c' n oth -> same c c' -> Q a c') -> wp m c Q.
Proof. intros Hm HQ. eapply wp_mono; [exact Hm|]. intros a c' [? ?]. by apply HQ. Qed.

Lemma post_trans {A D} c c1 n oth (m : M CN A) (_ : D) : same c c1 -> wp m c1 (post c1 n oth) -> wp m c1 (post c n oth).
Proof. intros Hs Hm. eapply wp_op; [done|]. intros a c' Hok Hs'. split; [done|]. by eapply same_trans. Qed.

Lemma counters_of c n oth : conn_ok c n oth -> counters (m_ c) n.
Proof. by intros []. Qed.
End invariant.

Ltac counters_lia :=
  repeat match goal with
  | H : conn_ok ?c _ _ |- _ => lazymatch goal with
      | _ : counters (m_ c) _ |- _ => fail
      | _ => pose proof (counters_of _ _ _ H)
      end
  end; unfold counters in *; cn_simpl; lia.
Ltac ok_set := apply conn_ok_set; [eassumption|cbn; lia|counters_lia|done].

Section operations.
Context {O B : Type} `{SL : SockOsLaws O} `{BPL : BufferPoolLaws B}.
Context (order : gmap (list Z) (list Z) -> list (list Z)) (stack1 stack2 : Z).
Abbreviation CN := (conn O B).
Implicit Types (c : CN) (oth : gmap Z (list Z)).

Lemma clear_ibuffer_ok c n oth : conn_ok c n oth -> wp clear_ibuffer c (post c n oth).
Proof.
  intros Hok. unfold clear_ibuffer. cn_step. cn_step.
  destruct (Z.eqb_spec (m_ c m_ibuffer) 0) as [E|E]; cbn [negb]; [by apply wp_ret, post_refl|].
  cn_step. eapply wp_bsize; [done|]. intros Hn. cn_step.
  eapply (store_ok _ n oth m_ibuffer); [done..|by rw length_replicate|]. intros b Hok1.
  cn_step. split; [ok_set|done].
Qed.

Lemma receive_content_ok c n oth : conn_ok c n oth -> wp receive_content c (post c n oth).
Proof.
  intros Hok. unfold receive_content. cn_step. eapply wp_op; [by apply receive_ok|]. intros r c1 Hok1 Hs1.
  cn_steps. split; [ok_set|done].
Qed.

Lemma res_var_ok name value c n oth : conn_ok c n oth -> wp (res_var stack1 stack2 name value) c (post c n oth).
Proof.
  intros Hok. unfold wp, res_var. destruct (vm_set _ _ _) as [ok v]. split; [|done]. by destruct Hok.
Qed.

Lemma cookie_vars_ok l c n oth : Forall (fun ck => is_Some (cstr ck)) l -> conn_ok c n oth ->
  wp (cookie_vars stack1 stack2 l) c (post c n oth).
Proof.
  intros Hl. revert c. induction Hl as [|ck l [v Hv] Hl IH]; intros c Hok; cbn [cookie_vars]; [by apply wp_ret, post_refl|].
  cn_step. eapply wp_lift_opt; [done|]. cn_step. eapply wp_op; [by apply res_var_ok|]. intros ok c1 Hok1 Hs1.
  eapply wp_op; [by apply IH|]. intros [] c2 Hok2 Hs2. split; [done|]. by eapply same_trans.
Qed.

Lemma header_text_some d : exists t, header_text d = Some t.
Proof.
  unfold header_text. destruct (cstr_term d) as [var ->]. destruct (cstr_term (drop 128 d)) as [val ->]. cbn. by eexists.
Qed.

Lemma put_header_ok d c n oth : conn_ok c n oth -> wp (put_header d) c (post c n oth).
Proof.
  intros Hok. unfold put_header. cn_step. cn_step. cn_step.
  eapply (ptr_ok _ n oth m_oheader); [done..|by intros; apply wp_ret, post_refl|].
  intros b mem Hh Hl Hok1. cn_step. eapply wp_bsize; [done|]. intros Hn.
  destruct (header_text_some d) as [t Et]. cn_step. eapply wp_lift_opt; [done|]. cn_step. cn_step.
  destruct (Z.ltb_spec (Z.of_nat (length t)) (if m_ (with_bmap b c) m_oheader_offset <? n then n - m_ (with_bmap b c) m_oheader_offset else 0)) as [Hlt|];
    [|by apply wp_ret].
  pose proof (counters_of _ _ _ Hok1) as Hc. unfold counters in Hc. cn_simpl.
  destruct (Z.ltb_spec (m_ c m_oheader_offset) n); [|lia].
  cn_step. eapply wp_lift_opt; [apply put_bytes_some; rw length_app; cbn [length]; lia|].
  cn_step. eapply (store_ok _ n oth m_oheader); [exact Hok1|done..| |].
  { rw !length_app length_take length_drop. cbn [length]. lia. }
  intros b2 Hok2. cn_step. rw u32_small; [|lia]. split; [|done]. ok_set.
Qed.

Lemma put_headers_ok l c n oth : conn_ok c n oth -> wp (put_headers l) c (post c n oth).
Proof.
  revert c. induction l as [|d l IH]; intros c Hok; cbn [put_headers]; [by apply wp_ret, post_refl|].
  cn_step. eapply wp_op; [by apply put_header_ok|]. intros [] c1 Hok1 Hs1.
  eapply wp_op; [by apply IH|]. intros [] c2 Hok2 Hs2. split; [done|]. by eapply same_trans.
Qed.

Lemma conn_ok_cookies c l h n oth : conn_ok c n oth -> Forall (fun ck => is_Some (cstr ck)) l ->
  conn_ok (with_cookies l h c) n oth.
Proof. by intros [] Hl. Qed.

Lemma prepare_res_header_ok c n oth : conn_ok c n oth ->
  wp (prepare_res_header order stack1 stack2) c (post c n oth).
Proof.
  intros Hok. unfold prepare_res_header. cn_step. cn_step. cn_step.
  eapply wp_op; [destruct (m_content_type c); [|by apply wp_ret, post_refl]|].
  { cn_step. eapply wp_op; [by apply res_var_ok|]. intros ? ? ? ?. by apply wp_ret. }
  intros [] c1 Hok1 Hs1. cn_step. cn_step. cn_step.
  eapply wp_op; [apply wp_when; intros _; [|by apply post_refl]|].
  { cn_step. eapply wp_op; [by apply res_var_ok|]. intros ? ? ? ?. by apply wp_ret. }
  intros [] c2 Hok2 Hs2. cn_step. cn_step. cn_step.
  eapply wp_op; [apply wp_when; intros _; [|by apply post_refl]|].
  { cn_step. eapply wp_op; [apply cookie_vars_ok; [by destruct Hok2|done]|]. intros [] c3 Hok3 Hs3.
    cn_step. split; [by apply conn_ok_cookies|done]. }
  intros [] c3 Hok3 Hs3. cn_step. cn_step. cn_step.
  eapply wp_mono; [by apply ensure_ok|]. intros [] c4 (Hok4 & Es4 & Em4).
  assert (same c c4) as Hs4.
  { eapply same_trans; [eapply same_trans; [eapply same_trans; [done|done]|done]|]. split; [apply Em4; cbn; lia|by rw Es4]. }
  cn_step. cn_step. apply wp_when; intros _; [|done]. cn_step. cn_step. cn_step.
  eapply wp_op; [by apply put_headers_ok|]. intros [] c5 Hok5 Hs5. cn_step. split; [ok_set|].
  by eapply same_trans.
Qed.

(** *** Lengths of the status line *)
Lemma itoa_length fuel b k : 1 < b -> forall z acc l, 0 <= z < b ^ Z.of_nat (S k) ->
  itoa_loop fuel b z acc = Some l -> (length l <= length acc + S k)%nat.
Proof.
  intros Hb. revert k. induction fuel as [|fuel IH]; intros k z acc l Hz; cbn [itoa_loop]; [done|].
  destruct (digits !! Z.to_nat (z mod b)) as [d|]; [|done]. cbn [mbind option_bind].
  destruct (Z.ltb_spec 0 (z / b)) as [Hd|Hd].
  - destruct k as [|k].
    + rw Z.pow_1_r in Hz. rw Z.div_small in Hd; lia.
    + intros E. apply (IH k) in E; [simpl in E; lia|]. split; [lia|]. apply Z.div_lt_upper_bound; [lia|].
      by rw -Z.pow_succ_r; [|lia]; replace (Z.succ (Z.of_nat (S k))) with (Z.of_nat (S (S k))) by lia; destruct Hz.
  - intros [= <-]. simpl. lia.
Qed.

Lemma decimal_length z : 0 <= z < 2 ^ 16 -> (length (decimal z) <= 5)%nat.
Proof.
  intros Hz. unfold decimal, ulltoa. rw u64_small; [|lia].
  destruct (itoa_loop 64 10 z []) as [l|] eqn:E; cbn [default]; [|simpl; lia].
  apply (itoa_length 64 10 4) in E; [done|lia|lia].
Qed.

Lemma assoc_Z_length (l : list (Z * list Z)) k v m : Forall (fun e => (length e.2 <= m)%nat) l ->
  assoc_Z k l = Some v -> (length v <= m)%nat.
Proof.
  induction l as [|[k' w] l IH]; intros Hl; cbn; [done|]. apply Forall_cons in Hl as [H1 H2].
  destruct (k =? k'); [by intros [= <-]|by apply IH].
Qed.

Lemma rc_text_length rc : (length (get_rc_text rc) <= 29)%nat.
Proof.
  unfold get_rc_text. destruct (assoc_Z rc http_resp_text) as [v|] eqn:E; cbn [default]; [|vm_compute; lia].
  eapply assoc_Z_length; [|exact E]. apply (bool_decide_unpack _). vm_compute. exact I.
Qed.

Lemma status_line_length p code : (length p <= 15)%nat -> 0 <= code < 2 ^ 16 -> (length (status_line p code) < 128)%nat.
Proof.
  intros Hp Hc. unfold status_line. rw !length_app. cbn [length].
  pose proof (decimal_length code Hc). pose proof (rc_text_length code). lia.
Qed.

(** *** Sending *)
(** After a call on the socket: the members are as before. *)
Definition netted c n oth {A} (_ : A) c' : Prop :=
  conn_ok c' n oth /\ is_Some (mp_sio c') /\ m_ c' = m_ c.

Lemma send_status_ok c n oth : conn_ok c n oth -> is_Some (mp_sio c) -> wp send_status c (netted c n oth).
Proof.
  intros Hok [s Hs]. unfold send_status. cn_step. cn_step. cn_step. cn_step.
  pose proof (counters_of _ _ _ Hok) as Hc. unfold counters in Hc.
  destruct (Nat.ltb_spec (length (status_line (m_res_protocol c) (m_ c m_response_code))) 128) as [_|Hge].
  - cn_step. eapply sio_ok; [done|done|]. eapply wp_mono; [apply write_spec|]. intros r s' _ Hok1.
    cn_step. split_and!; [done|by eexists|done].
  - pose proof (status_line_length (m_res_protocol c) (m_ c m_response_code) (ok_protocol _ _ _ Hok)). lia.
Qed.

Lemma blocking_ok b c n oth : conn_ok c n oth -> is_Some (mp_sio c) -> wp (sio (blocking b)) c (netted c n oth).
Proof.
  intros Hok [s Hs]. eapply sio_ok; [done|done|]. eapply wp_mono; [apply blocking_spec|]. intros [] s' _ Hok1.
  split_and!; [done|by eexists|done].
Qed.

Lemma write_ok d c n oth : conn_ok c n oth -> is_Some (mp_sio c) ->
  wp (sio (write d)) c (fun r c' => netted c n oth r c' /\ 0 <= r <= Z.of_nat (length d)).
Proof.
  intros Hok [s Hs]. eapply sio_ok; [done|done|]. eapply wp_mono; [apply write_spec|].
  intros r s' (Hr & _) Hok1. split; [|done]. split_and!; [done|by eexists|done].
Qed.

Lemma send_header_ok c n oth : conn_ok c n oth -> is_Some (mp_sio c) ->
  wp (send_header order stack1 stack2) c (post c n oth).
Proof.
  intros Hok Hsio. unfold send_header. cn_step. cn_step.
  destruct (negb (m_ c m_response_code =? 0)); [|by apply wp_ret, post_refl]. cn_step. cn_step. cn_step.
  eapply wp_op; [apply wp_when; intros _; [by apply prepare_res_header_ok|by apply post_refl]|].
  intros [] c1 Hok1 Hs1. cn_step. eapply wp_mono; [apply blocking_ok; [done|by apply Hs1]|].
  intros [] c2 (Hok2 & Hsio2 & Em2). cn_step. cn_step. cn_step.
  eapply (wp_mono _ _ (netted c2 n oth)).
  { apply wp_when; intros _; [by apply send_status_ok|done]. }
  intros [] c3 (Hok3 & Hsio3 & Em3). cn_step. cn_step. cn_step. cn_step. cn_step. 
  assert (m_ c3 m_state = m_ c m_state) as Est by (rw Em3 Em2; apply Hs1).
  rw -Em3. clear Em2 c2 Hok2 Hsio2 Em3.
  pose proof (counters_of _ _ _ Hok3) as Hc. unfold counters in Hc.
  eapply (wp_mono _ _ (fun r c' => conn_ok c' n oth /\ is_Some (mp_sio c') /\ m_ c' m_state = m_ c3 m_state /\
    m_ c' m_oheader_offset = m_ c3 m_oheader_offset /\ 0 <= r <= m_ c3 m_oheader_offset)).
  { destruct (Z.eqb_spec (m_ c3 m_oheader_offset) 0) as [E|E]; cbn [negb].
    { apply wp_ret. split_and!; done || lia. }
    cn_step. eapply (ptr_ok _ n oth m_oheader); [done..|intros _; apply wp_ret; split_and!; done || lia|].
    intros b mem Hh Hl Hok4. destruct (bsize_ok _ _ _ Hok4) as [_ Hn]. rw u32_small; [|lia].
    cn_step. eapply wp_lift_opt; [apply bytes_at_some; lia|].
    cn_step. eapply wp_mono; [by apply write_ok|]. intros r c5 ((Hok5 & Hsio5 & Em5) & Hr).
    rw length_take length_drop in Hr. cn_step. cn_step. cn_step. cn_simpl. rw u32_small; [|lia].
    rw Em5. split_and!; [|done|done|done|lia|lia]. apply conn_ok_set; [done|cbn; lia| |done].
    unfold counters. rw Em5. cn_simpl. lia. }
  intros r c4 (Hok4 & Hsio4 & Est4 & Eoff4 & Hr). cn_step. cn_step. cn_step.
  eapply (wp_mono _ _ (fun _ c' => conn_ok c' n oth /\ is_Some (mp_sio c') /\ m_ c' m_state = m_ c4 m_state)).
  { apply wp_when; intros _; [|done]. cn_step. eapply wp_mono; [by apply write_ok|].
    intros r' c5 ((Hok5 & Hsio5 & Em5) & _). cn_step. cn_step. cn_step.
    rw -Em5 in Eoff4. pose proof (counters_of _ _ _ Hok5) as Hc5. unfold counters in Hc5.
    assert (conn_ok (with_regs (upd m_oheader_sent r) c5) n oth) as Hok6 by ok_set.
    split_and!; [ok_set|done|by rw -Em5]. }
  intros [] c5 (Hok5 & Hsio5 & Est5). cn_step. eapply wp_mono; [by apply blocking_ok|].
  intros [] c6 (Hok6 & Hsio6 & Em6). cn_step. split; [done|]. split; [|done]. by rw Em6 Est5 Est4.
Qed.

Lemma netted_same c c' n oth (r : Z) : netted c n oth r c' -> conn_ok c' n oth /\ same c c'.
Proof. intros (Hok & Hs & Em). split; [done|]. split; [by rw Em|done]. Qed.

Lemma send_content_ok c n oth : conn_ok c n oth -> is_Some (mp_sio c) -> wp send_content c (post c n oth).
Proof.
  intros Hok Hsio. unfold send_content. cn_step. cn_step. cn_step. cn_step.
  pose proof (counters_of _ _ _ Hok) as Hc. unfold counters in Hc.
  destruct (Z.eqb_spec (m_ c m_res_content_len) 0) as [|_]; cbn [negb andb]; [by apply wp_ret, post_refl|].
  destruct (Z.ltb_spec (m_ c m_content_sent) (m_ c m_res_content_len)) as [Hlt|]; [|by apply wp_ret, post_refl].
  cn_step. cn_step. pose proof (ok_doc _ _ _ Hok) as Hdoc. unfold doc_ok in Hdoc.
  assert (0 <= u32 (m_ c m_res_content_len - m_ c m_content_sent) <= m_ c m_res_content_len - m_ c m_content_sent) as Hu.
  { pose proof (Z.mod_le (m_ c m_res_content_len - m_ c m_content_sent) (2 ^ 32) ltac:(lia) ltac:(lia)).
    pose proof (u32_range (m_ c m_res_content_len - m_ c m_content_sent)). unfold is_u32, u32 in *. lia. }
  destruct (mp_doc c) as [doc|].
  - cn_step. eapply wp_lift_opt; [apply bytes_at_some; lia|].
    cn_step. eapply wp_mono; [by apply blocking_ok|]. intros [] c1 (Hok1 & Hsio1 & Em1).
    cn_step. eapply wp_mono; [by apply write_ok|]. intros r c2 ((Hok2 & Hsio2 & Em2) & Hr).
    rw length_take length_drop in Hr. cn_step. cn_step.
    rw u64_small; [|lia].
    assert (conn_ok (with_regs (upd m_content_sent (m_ c m_content_sent + r)) c2) n oth) as Hok3.
    { apply conn_ok_set; [done|cbn; lia| |done]. unfold counters. rw Em2 Em1. cn_simpl. lia. }
    cn_step. eapply wp_mono; [by apply blocking_ok|]. intros [] c4 (Hok4 & Hsio4 & Em4).
    cn_step. split; [done|]. split; [|done]. rw Em4. cn_simpl. by rw Em2 Em1.
  - cn_step. cn_step. cn_step. eapply (ptr_ok _ n oth m_obuffer); [done..|intros _; cn_step; cn_step; by apply wp_ret, post_refl|].
    intros b mem Hh Hl Hok1. cn_step. cn_step. cn_simpl.
    destruct (Z.eqb_spec (m_ c m_obuffer_offset) 0) as [|Hoff]; cbn [negb]; [by apply wp_ret|].
    cn_step. cn_step. cn_step. eapply wp_mono; [by apply blocking_ok|]. intros [] c1 (Hok2 & Hsio2 & Em2). cn_simpl.
    destruct (bsize_ok _ _ _ Hok1) as [_ Hn]. rw (u32_small (m_ c m_obuffer_offset - m_ c m_obuffer_sent)); [|lia].
    cn_step. eapply wp_lift_opt; [apply bytes_at_some; lia|].
    cn_step. eapply wp_mono; [by apply write_ok|]. intros r c2 ((Hok3 & Hsio3 & Em3) & Hr).
    rw length_take length_drop in Hr. cn_step. cn_step. cn_step. cn_step. rw u32_small; [|lia].
    assert (conn_ok (with_regs (upd m_obuffer_sent (m_ c m_obuffer_sent + r)) c2) n oth) as Hok4.
    { apply conn_ok_set; [done|cbn; lia| |done]. unfold counters. rw Em3 Em2. cn_simpl. lia. }
    assert (conn_ok (with_regs (upd m_content_sent (u64 (m_ c m_content_sent + r)))
      (with_regs (upd m_obuffer_sent (m_ c m_obuffer_sent + r)) c2)) n oth) as Hok5.
    { apply conn_ok_set; [done|cbn; lia| |done]. unfold counters. cn_simpl. rw Em3 Em2.
      assert (0 <= u64 (m_ c m_content_sent + r) < 2 ^ 64) by (apply Z.mod_pos_bound; lia). lia. }
    cn_step. eapply wp_mono; [by apply blocking_ok|]. intros [] c4 (Hok6 & Hsio6 & Em6).
    cn_step. split; [done|]. split; [|done]. rw Em6. cn_simpl. by rw Em3 Em2.
Qed.

(** Afterwards the buffers [xs] are given back. *)
Definition released (xs : list member) c n oth (_ : unit) c' : Prop :=
  conn_ok c' n oth /\ mp_sio c' = mp_sio c /\ c_closed c' = c_closed c /\
  (forall y, (3 <= idx y)%nat -> m_ c' y = m_ c y) /\
  (forall x, x ∈ handles -> (x ∈ xs \/ m_ c x = 0) -> m_ c' x = 0).

Lemma release_buffer_ok c n oth x : conn_ok c n oth -> x ∈ handles ->
  wp (release_buffer x) c (released [x] c n oth).
Proof.
  intros Hok Hx. pose proof Hok as [[own Hr] _ _ _ _]. eapply wp_release_buffer; [done|done|..].
  { intros Hx0. split_and!; try done. by intros y _ [->%list_elem_of_singleton|?]. }
  intros b Hx0 Hr'.
  assert (forall y, (3 <= idx y)%nat -> m_ (with_regs (upd x 0) (with_bmap b c)) y = m_ c y) as Hm.
  { intros y Hy. rw m_upd decide_False //. intros ->%idx_inj. by apply (no_handle x). }
  split; [by eapply conn_ok_mem|]. split_and!; try done. intros y _ Hy. rw m_upd. case_decide as E; [done|].
  destruct Hy as [->%list_elem_of_singleton|?]; [done|done].
Qed.

Lemma released_trans xs ys c1 c2 n oth (m : M CN unit) : released xs c1 n oth tt c2 ->
  wp m c2 (released ys c2 n oth) -> wp m c2 (released (xs ++ ys) c1 n oth).
Proof.
  intros (_ & Es1 & Ec1 & Em1 & Hz1) Hm. eapply wp_mono; [exact Hm|]. intros [] c3 (Hok & Es & Ec & Em & Hz).
  split_and!; [done|congruence|congruence|intros y Hy; by rw Em // Em1|].
  intros x Hx Hor. apply Hz; [done|]. rw elem_of_app in Hor. destruct Hor as [[Hin|Hin]|H0']; [right; by apply Hz1; [|left]|by left|right].
  apply Hz1; [done|by right].
Qed.

Lemma release_buffers_ok c n oth : conn_ok c n oth -> wp release_buffers c (released handles c n oth).
Proof.
  intros Hok. unfold release_buffers. cn_step. eapply wp_mono; [by apply release_buffer_ok|]. intros [] c1 H1.
  apply (released_trans [m_ibuffer] [m_oheader; m_obuffer]); [done|].
  cn_step. eapply wp_mono; [apply release_buffer_ok; [by destruct H1|done]|]. intros [] c2 H2.
  apply (released_trans [m_oheader] [m_obuffer]); [done|]. apply release_buffer_ok; [by destruct H2|done].
Qed.

Lemma set_all_spec l c (Q : unit -> CN -> Prop) : Q tt (foldl (fun c x => with_regs (upd x 0) c) c l) -> wp (set_all l) c Q.
Proof. revert c. induction l as [|x l IH]; intros c HQ; cbn [set_all]; [done|]. cn_step. cn_step. by apply IH. Qed.

Lemma clean_members_ok now c n oth : conn_ok c n oth ->
  wp (clean_members now) c (fun _ c' => conn_ok c' n oth /\ mp_sio c' = mp_sio c /\ m_ c' m_state = 0).
Proof.
  intros Hok. unfold clean_members. cn_step. cn_step.
  assert (conn_ok (with_regs (upd m_state 0) c) n oth) as Hok0 by ok_set.
  cn_step. eapply wp_mono; [by apply release_buffers_ok|]. intros [] c1 (Hok1 & Es1 & _ & Em1 & _).
  cn_step. apply set_all_spec. cbn [foldl].
  match goal with |- wp _ ?s _ => set (c2 := s) end.
  assert (conn_ok c2 n oth) as Hok2.
  { pose proof Hok1 as [[own Hr] Hc Hp _ Hck]. split.
    - exists own. unfold c2. repeat (apply crep_set; [|apply no_handle; cbn; lia]). done.
    - unfold counters in *. unfold c2. cn_simpl. pose proof (bsize_ok _ _ _ Hok1). lia.
    - done.
    - unfold doc_ok. unfold c2. cbn. destruct (mp_doc c1); [lia|done].
    - done. }
  assert (m_ c2 m_state = 0) as Est by (unfold c2; cn_simpl; rw Em1 //; cbn; lia).
  assert (mp_sio c2 = mp_sio c) as Es2 by done. clearbody c2.
  cn_step. cn_step. assert (conn_ok (with_regs (upd m_stime now) c2) n oth) as Hok3 by ok_set.
  cn_step. cn_step. cn_step. cn_step. cn_step. cn_step. cn_step. split; [|done].
  apply conn_ok_cookies; [|done]. destruct Hok3. split; try done. cbn. lia.
Qed.

Lemma close_ok c n oth : conn_ok c n oth -> wp close c (fun _ c' => conn_ok c' n oth /\ mp_sio c' = None /\
  (forall y, (3 <= idx y)%nat -> m_ c' y = m_ c y) /\ (forall x, x ∈ handles -> m_ c' x = 0) /\
  length (c_closed c') = (length (c_closed c) + match mp_sio c with Some _ => 1 | None => 0 end)%nat).
Proof.
  intros Hok. unfold close. cn_step. cn_step. cn_step.
  destruct (mp_sio c) as [s|] eqn:Es.
  - cn_step. eapply sio_ok; [done|done|]. eapply wp_mono; [apply close_spec|]. intros [] s' _ Hok1.
    cn_step. eapply wp_mono; [apply release_buffers_ok; by destruct Hok1|].
    intros [] c2 (Hok2 & Es2 & Ec2 & Em2 & Hz). split_and!; [done|done|done|intros x Hx; apply Hz; by [|left]|]. rw Ec2. cbn. lia.
  - cn_step. eapply wp_mono; [by apply release_buffers_ok|].
    intros [] c2 (Hok2 & Es2 & Ec2 & Em2 & Hz). split_and!; [done|congruence|done|intros x Hx; apply Hz; by [|left]|]. rw Ec2. lia.
Qed.

Lemma res_write_ok d c n oth : conn_ok c n oth -> wp (res_write d) c (post c n oth).
Proof.
  intros Hok. unfold res_write. cn_step. cn_step. cn_step. eapply wp_mono; [by apply ensure_ok|].
  intros [] c1 (Hok1 & Es1 & Em1).
  assert (same c c1) as Hs1 by (split; [apply Em1; cbn; lia|by rw Es1]).
  cn_step. cn_step. destruct (Z.eqb_spec (m_ c1 m_obuffer) 0) as [E|E]; cbn [negb]; [by apply wp_ret|].
  cn_step. eapply (load_ok _ n oth m_obuffer); [done..|]. intros b mem Hl Hok2.
  cn_step. eapply wp_bsize; [done|]. intros Hn. cn_step. cn_step. cn_simpl.
  pose proof (counters_of _ _ _ Hok2) as Hc. unfold counters in Hc. cn_simpl.
  rw (u32_small (n - m_ c1 m_obuffer_offset)); [|lia].
  set (r := if u32 (Z.of_nat (length d)) <? n - m_ c1 m_obuffer_offset then u32 (Z.of_nat (length d)) else n - m_ c1 m_obuffer_offset).
  assert (0 <= r <= n - m_ c1 m_obuffer_offset /\ r <= Z.of_nat (length d)) as Hr.
  { unfold r. pose proof (u32_range (Z.of_nat (length d))). pose proof (Z.mod_le (Z.of_nat (length d)) (2 ^ 32)).
    unfold is_u32, u32 in *. destruct (Z.ltb_spec (Z.of_nat (length d) mod 2 ^ 32) (n - m_ c1 m_obuffer_offset)); lia. }
  destruct (Z.eqb_spec r 0); cbn [negb]; [by apply wp_ret|].
  cn_step. eapply wp_lift_opt; [apply bytes_at_some; lia|].
  cn_step. eapply wp_lift_opt; [apply put_bytes_some; rw length_take length_drop; lia|].
  cn_step. eapply (store_ok _ n oth m_obuffer); [exact Hok2|done..| |].
  { rw !length_app !length_take !length_drop. lia. }
  intros b2 Hok3. cn_step. cn_step. cn_step. rw u32_small; [|lia]. split; [ok_set|]. by eapply same_trans.
Qed.

(** *** Parsing, when it is defined *)
(** Only variables were added. *)
Definition inert c n oth {A} (_ : A) c' : Prop := conn_ok c' n oth /\ mp_sio c' = mp_sio c /\ m_ c' = m_ c.

Lemma inert_refl {A} c n oth (a : A) : conn_ok c n oth -> inert c n oth a c.
Proof. done. Qed.
Lemma inert_post {A D} c c' n oth (a : A) (d : D) : inert c n oth a c' -> post c n oth d c'.
Proof. intros (Hok & Es & Em). split; [done|]. split; [by rw Em|by rw Es]. Qed.

Lemma wlp_inert {A} (m : M CN A) c n oth (Q : A -> CN -> Prop) : wlp m c (inert c n oth) ->
  (forall a c', conn_ok c' n oth -> mp_sio c' = mp_sio c -> m_ c' = m_ c -> Q a c') -> wlp m c Q.
Proof. intros Hm HQ. eapply wlp_mono; [exact Hm|]. intros a c' (? & ? & ?). by apply HQ. Qed.

Lemma req_add_ok k d c n oth : conn_ok c n oth -> inert c n oth tt (with_req (vm_add (mpi_req_map c) k d).2 c).
Proof. intros Hok. split; [|done]. by destruct Hok. Qed.

Lemma add_req_variable_ok name mem sz c n oth : conn_ok c n oth ->
  wlp (add_req_variable name mem sz) c (inert c n oth).
Proof.
  intros Hok. unfold add_req_variable. apply wlp_bind. destruct (negb (sz =? 0)%nat).
  - apply wlp_ret, wlp_bind, wlp_lift_opt. intros v _. by apply req_add_ok.
  - apply wlp_bind, wlp_lift_opt. intros k _. apply wlp_ret, wlp_bind, wlp_lift_opt. intros v _. by apply req_add_ok.
Qed.

Lemma add_fields_ok mem l c n oth : conn_ok c n oth -> wlp (add_fields mem l) c (inert c n oth).
Proof.
  revert c. induction l as [|f l IH]; intros c Hok; cbn [add_fields]; [by apply wlp_ret|].
  apply wlp_bind. unfold add_field. apply wlp_bind, wlp_lift_opt. intros k _. apply wlp_bind, wlp_lift_opt. intros d _.
  destruct (req_add_ok k d c n oth Hok) as (Hok1 & Es1 & Em1).
  change (wlp (add_fields mem l) (with_req (vm_add (mpi_req_map c) k d).2 c) (inert c n oth)).
  eapply wlp_inert; [by apply IH|]. intros [] c2 Hok2 Es2 Em2. done.
Qed.

(** A buffer borrowed for the decoder. *)
Definition borrowed c n oth (h : Z) : Prop :=
  oth !! h = None /\ exists d, length d = Z.to_nat n /\ conn_ok c n (<[h := d]> oth).

Lemma alloc_temp c n oth (Q : Z -> CN -> Prop) : conn_ok c n oth -> Z.of_nat (size oth) + 9 < 2 ^ 32 ->
  (forall b, conn_ok (with_bmap b c) n oth -> Q 0 (with_bmap b c)) ->
  (forall b h, 0 < h -> borrowed (with_bmap b c) n oth h -> Q h (with_bmap b c)) -> wp (bmp bp_alloc) c Q.
Proof.
  intros Hok Hsz HQ0 HQ. pose proof Hok as [[own Hr] _ _ _ _]. eapply wp_buf_alloc; [done|..].
  - intros b Hr'. apply HQ0. by eapply conn_ok_bmap.
  - intros b h Hh H1 H2 Hb. apply HQ; [done|]. split; [done|]. exists (replicate (Z.to_nat n) 0). split; [by rw length_replicate|].
    destruct Hok as [_ Hc Hp Hd Hck]. split; [|done..]. exists own. by apply crep_temp.
Qed.

Lemma free_temp c n oth h (Q : unit -> CN -> Prop) : borrowed c n oth h ->
  (forall b, conn_ok (with_bmap b c) n oth -> Q tt (with_bmap b c)) -> wp (bmp (bp_free h)) c Q.
Proof.
  intros (Hh & d & Hl & Hok) HQ. pose proof Hok as [[own Hr] Hc Hp Hd Hck].
  eapply wp_free_oth; [done|by rw lookup_insert_eq|]. intros b Hr'. apply HQ. rw delete_insert_id // in Hr'.
  split; [by exists own|done..].
Qed.

Lemma decode_into_ok h src srclen c n oth : borrowed c n oth h ->
  wlp (decode_into h src srclen) c (fun _ c' => borrowed c' n oth h /\ mp_sio c' = mp_sio c /\ m_ c' = m_ c).
Proof.
  intros (Hh & d & Hl & Hok). unfold decode_into. pose proof Hok as [[own Hr] _ _ _ _].
  apply wlp_bind, wp_wlp. eapply wp_buf_load; [done| |].
  { apply lookup_union_Some_r; [by destruct Hr as (_ & ? & _)|by rw lookup_insert_eq]. }
  intros b Hr1. pose proof (conn_ok_bmap _ _ _ _ _ Hok Hr1) as Hok1.
  apply wlp_bind, wp_wlp. eapply wp_bsize; [done|]. intros Hn.
  apply wlp_bind, wlp_lift_opt. intros [r decoded] E. apply decode_loop_length in E.
  apply wlp_bind, wp_wlp. eapply wp_store_oth; [exact Hr1|by rw lookup_insert_eq|by rw E|]. intros b2 Hr2.
  rw insert_insert_eq in Hr2. split; [|done]. split; [done|]. exists decoded. split; [by rw E|].
  destruct Hok as [_ Hc Hp Hd Hck]. split; [by exists own|done..].
Qed.

(** Adding variables while a buffer is borrowed. *)
Lemma borrowed_inert {A} (m : M CN A) c n oth h (Q : A -> CN -> Prop) : borrowed c n oth h ->
  (forall oth', conn_ok c n oth' -> wlp m c (inert c n oth')) ->
  (forall a c', borrowed c' n oth h -> mp_sio c' = mp_sio c -> m_ c' = m_ c -> Q a c') -> wlp m c Q.
Proof.
  intros (Hh & d & Hl & Hok) Hm HQ. eapply wlp_inert; [by eapply Hm|]. intros a c' Hok' Es Em. apply HQ; [|done..].
  split; [done|]. by exists d.
Qed.

Lemma parse_url_ok url sz c n oth : conn_ok c n oth -> Z.of_nat (size oth) + 9 < 2 ^ 32 ->
  wlp (parse_url url sz) c (inert c n oth).
Proof.
  intros Hok Hsz. unfold parse_url. apply wlp_bind, wp_wlp. eapply alloc_temp; [done|done|..].
  { intros b Hok1. cbn [Z.eqb negb]. by apply wp_wlp, wp_ret. }
  intros b h Hh Hbor. destruct (Z.eqb_spec h 0); [lia|]. cbn [negb].
  apply wlp_bind. eapply wlp_mono; [by apply decode_into_ok|]. intros [decoded k] c1 (Hb1 & Es1 & Em1).
  apply wlp_bind. eapply borrowed_inert; [done|intros; by apply add_req_variable_ok|]. intros [] c2 Hb2 Es2 Em2.
  apply wlp_bind, wlp_lift_opt. intros sz' _.
  apply wlp_bind. eapply borrowed_inert; [done|intros; by apply add_req_variable_ok|]. intros [] c3 Hb3 Es3 Em3.
  apply wlp_bind. eapply (wlp_mono _ _ (fun _ c' => borrowed c' n oth h /\ mp_sio c' = mp_sio c3 /\ m_ c' = m_ c3)).
  { destruct (sz' <? k)%nat; [|by apply wlp_ret].
    apply wlp_bind. eapply borrowed_inert; [done|intros; by apply add_req_variable_ok|]. intros [] c4 Hb4 Es4 Em4.
    apply wlp_bind, wlp_lift_opt. intros l _.
    eapply borrowed_inert; [done|intros; by apply add_fields_ok|]. intros [] c5 Hb5 Es5 Em5.
    split_and!; [done|congruence|congruence]. }
  intros [] c4 (Hb4 & Es4 & Em4). apply wp_wlp. eapply free_temp; [done|]. intros b' Hok'.
  split; [done|]. cbn. split; [rw Es4 Es3 Es2 Es1 //|rw Em4 Em3 Em2 Em1 //].
Qed.

Lemma parse_request_line_ok req sz c n oth : conn_ok c n oth -> Z.of_nat (size oth) + 9 < 2 ^ 32 ->
  wlp (parse_request_line req sz) c (inert c n oth).
Proof.
  intros Hok Hsz. unfold parse_request_line. apply wlp_bind, wlp_lift_opt. intros [r s] _.
  apply wlp_bind. eapply wlp_inert; [destruct (rl_field sz 0 s) as [[off k]|]; [by apply add_req_variable_ok|by apply wlp_ret]|].
  intros [] c1 Hok1 Es1 Em1.
  apply wlp_bind. eapply wlp_inert; [destruct (rl_field sz 1 s) as [[off k]|]; [by apply parse_url_ok|by apply wlp_ret]|].
  intros [] c2 Hok2 Es2 Em2.
  apply wlp_bind. eapply wlp_inert; [destruct (rl_field sz 2 s) as [[off k]|]; [by apply add_req_variable_ok|by apply wlp_ret]|].
  intros [] c3 Hok3 Es3 Em3. apply wlp_ret. split_and!; [done|congruence|congruence].
Qed.

Lemma var_lines_ok fuel hdr hl off c n oth : conn_ok c n oth -> wlp (var_lines fuel hdr hl off) c (inert c n oth).
Proof.
  revert off c. induction fuel as [|fuel IH]; intros off c Hok; cbn [var_lines]; [done|].
  destruct (negb (off =? 0)%nat && (off <? hl)%nat); [|by apply wlp_ret].
  apply wlp_bind. unfold parse_var_line. apply wlp_bind, wlp_lift_opt. intros [r s] _.
  apply wlp_bind. eapply wlp_inert.
  { destruct (vl_pair (hl - off) s) as [f|]; [|by apply wlp_ret]. pose proof (add_fields_ok (drop off hdr) [f] c n oth Hok) as Hf.
    cbn [add_fields] in Hf. unfold wlp, mbind, M_bind in Hf |- *. by destruct (add_field _ f c) as [[[] c1]|]. }
  intros [] c1 Hok1 Es1 Em1. apply wlp_ret. eapply wlp_inert; [by apply IH|]. intros k c2 Hok2 Es2 Em2.
  split_and!; [done|congruence|congruence].
Qed.

Lemma req_var_inert name c n oth : conn_ok c n oth ->
  wp (req_var name) c (fun _ c' => c' = c).
Proof.
  intros Hok. unfold wp, req_var. destruct (vm_get (mpi_req_map c) name) as [d|]; [|done].
  destruct (cstr_term d) as [s ->]. done.
Qed.

Lemma complete_req_header_ok c n oth : conn_ok c n oth -> wlp complete_req_header c (post c n oth).
Proof.
  intros Hok. unfold complete_req_header. apply wlp_bind, wp_wlp, wp_gets.
  destruct (negb (m_ c m_ibuffer_offset =? 0)); [|by apply wlp_ret].
  apply wlp_bind, wp_wlp. eapply wp_bsize; [done|]. intros Hn. apply wlp_bind, wp_wlp, wp_gets.
  apply wlp_bind, wp_wlp. eapply (ptr_ok _ n oth m_ibuffer); [done..|intros _; by apply wp_ret|].
  intros b mem Hh Hl Hok1. rw -Hl. apply wlp_bind, wlp_lift_opt. intros hl Ehl.
  destruct (nfind_string_spec mem (length mem) CRLFCRLF) as (r & Er & Hr); [done|].
  rw Er in Ehl. injection Ehl as <-.
  destruct (Z.eqb_spec r (-1)) as [->|Hr1]; cbn [negb].
  { apply wlp_bind, wp_wlp. cn_step. apply wlp_ret. split; [ok_set|done]. }
  destruct Hr as [[-> _]|(j & -> & Hj & _)]; [done|]. cbn [length CRLFCRLF] in Hj.
  apply wlp_bind. eapply wlp_inert; [by apply add_req_variable_ok|]. intros [] c1 Hok2 Es2 Em2.
  apply wlp_bind, wp_wlp. cn_step. apply wlp_ret. rw u32_small; [|lia]. split.
  - apply conn_ok_set; [done|cbn; lia| |done]. unfold counters. rw Em2.
    pose proof (counters_of _ _ _ Hok1) as Hc. unfold counters in Hc. cn_simpl. lia.
  - split; [cn_simpl; by rw Em2|]. cbn. by rw Es2.
Qed.

Lemma parse_req_header_ok c n oth : conn_ok c n oth -> Z.of_nat (size oth) + 9 < 2 ^ 32 ->
  wlp parse_req_header c (post c n oth).
Proof.
  intros Hok Hsz. unfold parse_req_header. apply wlp_bind, wp_wlp, wp_gets. apply wlp_bind, wp_wlp, wp_gets.
  destruct (Z.eqb_spec (m_ c m_ibuffer) 0) as [|Hh]; cbn [negb andb]; [by apply wlp_ret|].
  destruct (Z.eqb_spec (m_ c m_ibuffer_offset) 0) as [|Hoff]; cbn [negb andb]; [by apply wlp_ret|].
  apply wlp_bind, wp_wlp. eapply (load_ok _ n oth m_ibuffer); [done..|]. intros b mem Hl Hok1.
  apply wlp_bind, wp_wlp, wp_gets. apply wlp_bind. eapply wlp_inert; [by apply parse_request_line_ok|].
  intros r c2 Hok2 Es2 Em2. apply wlp_bind. eapply wlp_inert; [by apply var_lines_ok|].
  intros off c3 Hok3 Es3 Em3. assert (m_ c3 = m_ c) as Em by (by rw Em3 Em2). assert (mp_sio c3 = mp_sio c) as Es by (by rw Es3 Es2).
  clear c2 Hok2 Es2 Em2 Es3 Em3. cbn [m_ with_bmap].
  destruct (Z.of_nat off =? m_ c m_header_len); [|by apply wlp_ret; split; [|split; [rw Em|rw Es]]].
  pose proof (counters_of _ _ _ Hok) as Hc. unfold counters in Hc.
  apply wlp_bind. eapply (wlp_mono _ _ (fun _ c' => conn_ok c' n oth /\ same c c')).
  { destruct (Z.ltb_spec (m_ c m_header_len) (m_ c m_ibuffer_offset)).
    - apply wlp_bind, wlp_lift_opt. intros m1 E1. apply wlp_bind, wlp_lift_opt. intros m2 E2.
      apply put_bytes_length in E2. pose proof (bsize_ok _ _ _ Hok) as [_ Hn].
      rw u32_small in E1; [|lia]. rw mem_cpy_spec in E1; [injection E1 as <-|lia|lia].
      rw memmove_length in E2; [|lia|lia].
      apply wlp_bind, wp_wlp. eapply (store_ok _ n oth m_ibuffer); [done|done|by rw Em|done|by rw E2|]. intros b2 Hok4.
      apply wlp_bind, wp_wlp. cn_step. rw u32_small; [|lia]. apply wp_wlp. cn_step.
      split; [|split; [cn_simpl; by rw Em|cbn; by rw Es]].
      apply conn_ok_set; [|cbn; lia| |done].
      + apply conn_ok_set; [done|cbn; lia| |done]. unfold counters. cn_simpl. rw Em. lia.
      + unfold counters. cn_simpl. rw Em. lia.
    - apply wlp_bind, wp_wlp. cn_step. apply wp_wlp. cn_step.
      split; [|split; [cn_simpl; by rw Em|cbn; by rw Es]].
      pose proof (bsize_ok _ _ _ Hok) as [_ Hn].
      apply conn_ok_set; [|cbn; lia| |done].
      + apply conn_ok_set; [done|cbn; lia| |done]. unfold counters. cn_simpl. rw Em. lia.
      + unfold counters. cn_simpl. rw Em. lia. }
  intros [] c4 [Hok4 Hs4]. apply wlp_bind, wp_wlp. cn_step.
  pose proof (bsize_ok _ _ _ Hok4) as [_ Hn4].
  assert (conn_ok (with_regs (upd m_header_len 0) c4) n oth) as Hok5 by ok_set.
  apply wlp_bind, wp_wlp. eapply wp_mono; [by eapply req_var_inert|]. intros cl c5 ->.
  apply wlp_bind. eapply (wlp_mono _ _ (fun _ c' => conn_ok c' n oth /\ same c c')).
  { destruct cl as [cl|]; [|by apply wlp_ret]. apply wlp_bind, wlp_lift_opt. intros k _.
    apply wp_wlp. cn_step. split; [ok_set|done]. }
  intros [] c6 [Hok6 Hs6]. apply wlp_bind, wp_wlp. cn_step. apply wlp_bind, wp_wlp. cn_step. apply wlp_ret.
  split; [ok_set|done].
Qed.
End operations.
