(* ===== verification/HttpMachine.v ===== *)
(** * The state machine of the connection

    [transition s e s'] is the machine that [process] implements: from state
    [s] it reports the event [e] (0 for none) and goes to [s'].  The theorems
    show that every call takes such a step, that the events a handler sees come
    in the order of the protocol, and that a dead or silent peer ends the
    connection. *)
From S2P Require Import Prelude Str UrlCodec HttpParse Socket BufferPool VarMap HttpConnection HttpConnSpec.
Set Default Goal Selector "!".

Inductive transition : Z -> Z -> Z -> Prop :=
| t_open : transition 0 HTTP_ON_OPEN HTTPC_RECEIVE_HEADER
| t_receive s : s ∈ [HTTPC_RECEIVE_HEADER; HTTPC_COMPLETE_HEADER; HTTPC_CLOSE] -> transition HTTPC_RECEIVE_HEADER 0 s
| t_more : transition HTTPC_COMPLETE_HEADER 0 HTTPC_RECEIVE_HEADER
| t_complete : transition HTTPC_COMPLETE_HEADER 0 HTTPC_PARSE_HEADER
| t_timeout : transition HTTPC_COMPLETE_HEADER HTTP_ON_ERROR HTTPC_SEND_HEADER
| t_request : transition HTTPC_PARSE_HEADER HTTP_ON_REQUEST HTTPC_RECEIVE_CONTENT
| t_bad_request : transition HTTPC_PARSE_HEADER HTTP_ON_ERROR HTTPC_SEND_HEADER
| t_data s : s ∈ [HTTPC_RECEIVE_CONTENT; HTTPC_SEND_HEADER; HTTPC_SEND_CONTENT] -> transition s HTTP_ON_REQUEST_DATA s
| t_content s : s ∈ [HTTPC_RECEIVE_CONTENT; HTTPC_SEND_HEADER; HTTPC_CLOSE] -> transition HTTPC_RECEIVE_CONTENT 0 s
| t_header s : s ∈ [HTTPC_SEND_HEADER; HTTPC_SEND_CONTENT; HTTPC_CLOSE] -> transition HTTPC_SEND_HEADER 0 s
| t_sent s : s ∈ [HTTPC_SEND_CONTENT; HTTPC_CLOSE] -> transition HTTPC_SEND_CONTENT 0 s
| t_want : transition HTTPC_SEND_CONTENT HTTP_ON_RESPONSE_DATA HTTPC_SEND_CONTENT
| t_next : transition HTTPC_SEND_CONTENT HTTP_ON_CLOSE_DOCUMENT HTTPC_RECEIVE_HEADER
| t_closed : transition HTTPC_CLOSE 0 HTTPC_CLOSE.

Section machine.
Context {O B : Type} `{SL : SockOsLaws O} `{BPL : BufferPoolLaws B}.
Context (order : gmap (list Z) (list Z) -> list (list Z)) (stack1 stack2 : Z).
Abbreviation CN := (conn O B).
Implicit Types (c : CN) (oth : gmap Z (list Z)).

Definition stepped c n oth (e : Z) c' : Prop := conn_ok c' n oth /\ transition (m_ c m_state) e (m_ c' m_state).

Lemma alive_sio c : match mp_sio c with Some s => m_alive s | None => false end = true -> is_Some (mp_sio c).
Proof. destruct (mp_sio c); [by eexists|done]. Qed.

Lemma set_state_ok c n oth s : conn_ok c n oth -> 0 <= s <= 7 -> conn_ok (with_regs (upd m_state s) c) n oth.
Proof. intros Hok Hs. ok_set. Qed.

Lemma set_data_ok c n oth v : conn_ok c n oth -> conn_ok (with_regs (upd m_req_data v) c) n oth.
Proof. intros Hok. ok_set. Qed.

Lemma process_open now c n oth : conn_ok c n oth -> m_ c m_state = 0 ->
  wp (process order stack1 stack2 now) c (stepped c n oth).
Proof.
  intros Hok E. unfold process. cn_step. cn_step. rw E. cbn [Z.eqb]. cn_step. cn_step. cn_step.
  split; [by apply set_state_ok|]. cn_simpl. rw E. constructor.
Qed.

Lemma process_receive now c n oth : conn_ok c n oth -> m_ c m_state = HTTPC_RECEIVE_HEADER ->
  wp (process order stack1 stack2 now) c (stepped c n oth).
Proof.
  intros Hok E. unfold process. cn_step. cn_step. rw E. cbn [Z.eqb Pos.eqb HTTPC_RECEIVE_HEADER].
  cn_step. eapply wp_op; [by apply receive_ok|]. intros r c1 Hok1 [Est1 _].
  cn_step. destruct (r =? 0).
  - cn_step. apply wp_alive. cn_step. cn_step. split; [apply set_state_ok; [done|]; by case_match|].
    cn_simpl. rw E. constructor. case_match; set_solver.
  - cn_step. cn_step. split; [done|]. rw Est1 E. constructor. set_solver.
Qed.

Lemma process_complete now c n oth : conn_ok c n oth -> m_ c m_state = HTTPC_COMPLETE_HEADER ->
  wlp (process order stack1 stack2 now) c (stepped c n oth).
Proof.
  intros Hok E. unfold process. apply wlp_bind, wp_wlp. cn_step. rw E. cbn [Z.eqb Pos.eqb HTTPC_RECEIVE_HEADER HTTPC_COMPLETE_HEADER].
  apply wlp_bind. eapply wlp_mono; [by apply complete_req_header_ok|]. intros ok c1 [Hok1 [Est1 _]]. apply wp_wlp.
  destruct ok.
  - cn_step. cn_step. cn_step. split; [by apply set_state_ok|]. cn_simpl. rw E. constructor.
  - cn_step. cn_step. cn_step. cn_step. destruct (m_ c1 m_timeout <? now - m_ c1 m_stime).
    + cn_step. cn_step. cn_step. cn_step. cn_step. split; [|cn_simpl; rw E; constructor].
      pose proof (set_state_ok c1 n oth HTTPC_SEND_HEADER Hok1 ltac:(done)) as Hok2. ok_set.
    + cn_step. cn_step. cn_step. split; [by apply set_state_ok|]. cn_simpl. rw E. constructor.
Qed.

Lemma process_parse now c n oth : conn_ok c n oth -> Z.of_nat (size oth) + 9 < 2 ^ 32 ->
  m_ c m_state = HTTPC_PARSE_HEADER -> wlp (process order stack1 stack2 now) c (stepped c n oth).
Proof.
  intros Hok Hsz E. unfold process. apply wlp_bind, wp_wlp. cn_step. rw E.
  cbn [Z.eqb Pos.eqb HTTPC_RECEIVE_HEADER HTTPC_COMPLETE_HEADER HTTPC_PARSE_HEADER].
  apply wlp_bind. eapply wlp_mono; [by apply parse_req_header_ok|]. intros ok c1 [Hok1 [Est1 _]]. apply wp_wlp.
  cn_step. eapply (wp_mono _ _ (fun _ c' => c' = c1)).
  { destruct ok; [|by apply wp_ret]. cn_step. eapply wp_mono; [by eapply req_var_inert|]. intros url c2 ->.
    destruct url; [|by apply wp_ret]. cn_step. unfold req_method. cn_step.
    eapply wp_mono; [by eapply req_var_inert|]. intros sm c2 ->. by apply wp_ret, wp_ret. }
  intros good c2 ->. destruct good.
  - cn_step. cn_step. cn_step. split; [by apply set_state_ok|]. cn_simpl. rw E. constructor.
  - cn_step. cn_step. cn_step. cn_step. cn_step. split; [|cn_simpl; rw E; constructor].
    apply set_state_ok; [|done]. ok_set.
Qed.

(** What [RECEIVE_CONTENT], [SEND_HEADER] and [SEND_CONTENT] start with. *)
Lemma input_ok c n oth (Q : Z -> CN -> Prop) : conn_ok c n oth ->
  (forall r c', conn_ok c' n oth -> m_ c' m_state = m_ c m_state -> Q r c') ->
  wp (clear_ibuffer;; receive_content) c Q.
Proof.
  intros Hok HQ. cn_step. eapply wp_op; [by apply clear_ibuffer_ok|]. intros [] c1 Hok1 [E1 _].
  eapply wp_op; [by apply receive_content_ok|]. intros r c2 Hok2 [E2 _]. apply HQ; [done|congruence].
Qed.

Lemma process_content now c n oth : conn_ok c n oth -> m_ c m_state = HTTPC_RECEIVE_CONTENT ->
  wp (process order stack1 stack2 now) c (stepped c n oth).
Proof.
  intros Hok E. unfold process. cn_step. cn_step. rw E.
  cbn [Z.eqb Pos.eqb HTTPC_RECEIVE_HEADER HTTPC_COMPLETE_HEADER HTTPC_PARSE_HEADER HTTPC_RECEIVE_CONTENT].
  cn_step. eapply wp_op; [by apply clear_ibuffer_ok|]. intros [] c1 Hok1 [E1 _].
  cn_step. eapply wp_op; [by apply receive_content_ok|]. intros r c2 Hok2 [E2 _].
  assert (m_ c2 m_state = HTTPC_RECEIVE_CONTENT) as Est by congruence.
  destruct (negb (r =? 0)).
  - cn_step. cn_step. cn_step. split; [by apply set_data_ok|]. cn_simpl. rw E Est. constructor. set_solver.
  - cn_step. apply wp_alive. cn_step.
    eapply (wp_mono _ _ (fun _ c' => conn_ok c' n oth /\ m_ c' m_state ∈ [HTTPC_RECEIVE_CONTENT; HTTPC_SEND_HEADER; HTTPC_CLOSE])).
    { destruct (mp_sio c2) as [s|]; [destruct (m_alive s)|].
      - cn_step. cn_step. cn_step. cn_step. apply wp_when; intros _; [|split; [done|rw Est; set_solver]].
        cn_step. split; [by apply set_state_ok|]. cn_simpl. set_solver.
      - cn_step. split; [by apply set_state_ok|]. cn_simpl. set_solver.
      - cn_step. split; [by apply set_state_ok|]. cn_simpl. set_solver. }
    intros [] c3 [Hok3 Hst]. cn_step. cn_step. cn_step. split; [by apply set_data_ok|].
    cn_simpl. rw E. by constructor.
Qed.

Lemma process_header now c n oth : conn_ok c n oth -> m_ c m_state = HTTPC_SEND_HEADER ->
  wp (process order stack1 stack2 now) c (stepped c n oth).
Proof.
  intros Hok E. unfold process. cn_step. cn_step. rw E.
  cbn [Z.eqb Pos.eqb HTTPC_RECEIVE_HEADER HTTPC_COMPLETE_HEADER HTTPC_PARSE_HEADER HTTPC_RECEIVE_CONTENT HTTPC_SEND_HEADER].
  cn_step. eapply wp_op; [by apply clear_ibuffer_ok|]. intros [] c1 Hok1 [E1 _].
  cn_step. eapply wp_op; [by apply receive_content_ok|]. intros r c2 Hok2 [E2 _].
  assert (m_ c2 m_state = HTTPC_SEND_HEADER) as Est by congruence.
  destruct (r =? 0).
  - cn_step. apply wp_alive. cn_step. cn_step. cn_step.
    eapply (wp_mono _ _ (fun _ c' => conn_ok c' n oth /\ m_ c' m_state ∈ [HTTPC_SEND_HEADER; HTTPC_SEND_CONTENT; HTTPC_CLOSE])).
    { pose proof (alive_sio c2) as Ha. destruct (match mp_sio c2 with Some s => m_alive s | None => false end); cbn [andb].
      - specialize (Ha eq_refl). destruct (negb (m_ c2 m_response_code =? 0)).
        + cn_step. eapply wp_op; [by apply send_header_ok|]. intros k c3 Hok3 [E3 _].
          cn_step. cn_step. cn_step. cn_step. apply wp_when; intros _; [|split; [done|rw E3 Est; set_solver]].
          cn_step. split; [by apply set_state_ok|]. cn_simpl. set_solver.
        + cn_step. split; [by apply set_state_ok|]. cn_simpl. set_solver.
      - cn_step. split; [by apply set_state_ok|]. cn_simpl. set_solver. }
    intros [] c3 [Hok3 Hst]. cn_step. cn_step. cn_step. split; [by apply set_data_ok|].
    cn_simpl. rw E. by constructor.
  - cn_step. cn_step. cn_step. split; [by apply set_data_ok|]. cn_simpl. rw E Est. constructor. set_solver.
Qed.

Lemma process_send now c n oth : conn_ok c n oth -> m_ c m_state = HTTPC_SEND_CONTENT ->
  wp (process order stack1 stack2 now) c (stepped c n oth).
Proof.
  intros Hok E. unfold process. cn_step. cn_step. rw E.
  cbn [Z.eqb Pos.eqb HTTPC_RECEIVE_HEADER HTTPC_COMPLETE_HEADER HTTPC_PARSE_HEADER HTTPC_RECEIVE_CONTENT HTTPC_SEND_HEADER HTTPC_SEND_CONTENT].
  cn_step. eapply wp_op; [by apply clear_ibuffer_ok|]. intros [] c1 Hok1 [E1 _].
  cn_step. eapply wp_op; [by apply receive_content_ok|]. intros r c2 Hok2 [E2 _].
  assert (m_ c2 m_state = HTTPC_SEND_CONTENT) as Est by congruence.
  destruct (negb (r =? 0)).
  - cn_step. cn_step. cn_step. split; [by apply set_data_ok|]. cn_simpl. rw E Est. constructor. set_solver.
  - cn_step. apply wp_alive. cn_step.
    eapply (wp_mono _ _ (fun e c' => conn_ok c' n oth /\ transition HTTPC_SEND_CONTENT e (m_ c' m_state))).
    { pose proof (alive_sio c2) as Ha. destruct (match mp_sio c2 with Some s => m_alive s | None => false end).
      2:{ cn_step. cn_step. cn_step. split; [by apply set_state_ok|]. cn_simpl. constructor. set_solver. }
      specialize (Ha eq_refl). cn_step. eapply wp_op; [by apply send_content_ok|]. intros k c3 Hok3 [E3 _].
      rw Est in E3. assert (transition HTTPC_SEND_CONTENT 0 (m_ c3 m_state)) as Ht0 by (rw E3; constructor; set_solver).
      cn_step. cn_step. cn_step. cn_step. destruct (m_ c3 m_content_sent <? m_ c3 m_res_content_len).
      - cn_step. cn_step. destruct (mp_doc c3); [by cn_step|]. cn_step. cn_step. cn_step. cn_step.
        destruct (m_ c3 m_obuffer_offset <=? m_ c3 m_obuffer_sent); [|by cn_step].
        cn_step. cn_step. cn_step. cn_step. cn_step. split; [|cn_simpl; rw E3; constructor].
        pose proof (counters_of _ _ _ Hok3) as Hc. unfold counters in Hc. pose proof (bsize_ok _ _ _ Hok3) as [_ Hn].
        destruct Hok3 as [[own Hr] _ Hp Hd Hck]. split; [|unfold counters; cn_simpl; lia|done..].
        exists own. by repeat (apply crep_set; [|apply no_handle; cbn; lia]).
      - cn_step. eapply wp_mono; [by eapply req_var_inert|]. intros ct c4 ->.
        destruct ct as [ct|]; [destruct (strcasecmp_eq ct (str "keep-alive"))|].
        + cn_step. eapply wp_mono; [by apply clean_members_ok|]. intros [] c5 (Hok5 & _ & _).
          cn_step. cn_step. cn_step. split; [by apply set_state_ok|]. cn_simpl. constructor.
        + cn_step. cn_step. cn_step. split; [by apply set_state_ok|]. cn_simpl. constructor. set_solver.
        + cn_step. cn_step. cn_step. split; [by apply set_state_ok|]. cn_simpl. constructor. set_solver. }
    intros e c3 [Hok3 Hst]. cn_step. cn_step. cn_step. split; [by apply set_data_ok|].
    cn_simpl. by rw E.
Qed.

Lemma process_close now c n oth : conn_ok c n oth -> m_ c m_state = HTTPC_CLOSE ->
  wp (process order stack1 stack2 now) c (stepped c n oth).
Proof.
  intros Hok E. unfold process. cn_step. cn_step. rw E.
  cbn [Z.eqb Pos.eqb HTTPC_RECEIVE_HEADER HTTPC_COMPLETE_HEADER HTTPC_PARSE_HEADER HTTPC_RECEIVE_CONTENT HTTPC_SEND_HEADER HTTPC_SEND_CONTENT HTTPC_CLOSE].
  cn_step. eapply wp_mono; [by apply close_ok|]. intros [] c1 (Hok1 & _ & Em & _). cn_step. split; [done|].
  rw Em; [|cbn; lia]. rw E. constructor.
Qed.

Lemma process_ok now c n oth : conn_ok c n oth -> Z.of_nat (size oth) + 9 < 2 ^ 32 ->
  wlp (process order stack1 stack2 now) c (stepped c n oth) /\
  (m_ c m_state <> HTTPC_COMPLETE_HEADER -> m_ c m_state <> HTTPC_PARSE_HEADER ->
   wp (process order stack1 stack2 now) c (stepped c n oth)).
Proof.
  intros Hok Hsz. pose proof (counters_of _ _ _ Hok) as Hc. unfold counters in Hc.
  assert (m_ c m_state = 0 \/ m_ c m_state = 1 \/ m_ c m_state = 2 \/ m_ c m_state = 3 \/
    m_ c m_state = 4 \/ m_ c m_state = 5 \/ m_ c m_state = 6 \/ m_ c m_state = 7) as Hst by lia.
  assert (wp (process order stack1 stack2 now) c (stepped c n oth) ->
    wlp (process order stack1 stack2 now) c (stepped c n oth) /\
    (m_ c m_state <> HTTPC_COMPLETE_HEADER -> m_ c m_state <> HTTPC_PARSE_HEADER ->
     wp (process order stack1 stack2 now) c (stepped c n oth))) as Hwp by (intros; split; [by apply wp_wlp|done]).
  destruct Hst as [E|[E|[E|[E|[E|[E|[E|E]]]]]]].
  - by apply Hwp, process_open.
  - by apply Hwp, process_receive.
  - split; [by apply process_complete|done].
  - split; [by apply process_parse|done].
  - by apply Hwp, process_content.
  - by apply Hwp, process_header.
  - by apply Hwp, process_send.
  - by apply Hwp, process_close.
Qed.

(** ** Handlers *)
(** The calls a handler makes to answer a request. *)
Inductive action :=
| AVar (name value : list Z) | AWrite (data : list Z) | ACode (rc : Z) | AProtocol (p : list Z)
| ALen (len : Z) | AType (ct : option (list Z)) | AContent (doc : option (list Z)) (sz : Z)
| ACookie (name value : list Z) (flags : Z) (expires max_age path domain : option (list Z))
| AParse.

Definition act (a : action) : M CN unit :=
  match a with
  | AVar name value => res_var stack1 stack2 name value;; mret tt
  | AWrite data => res_write data;; mret tt
  | ACode rc => res_code rc
  | AProtocol p => res_protocol p
  | ALen len => res_content_len len;; mret tt
  | AType ct => res_content_type ct
  | AContent doc sz => res_content doc sz
  | ACookie name value flags expires max_age path domain => res_cookie name value flags expires max_age path domain
  | AParse => req_parse_content;; mret tt
  end.

(** A document is as long as the handler says. *)
Definition fits (a : action) c : Prop :=
  match a with
  | ALen len => match mp_doc c with Some d => u64 len <= Z.of_nat (length d) | None => True end
  | AContent (Some d) sz => u64 sz <= Z.of_nat (length d)
  | _ => True
  end.

Lemma conn_ok_doc p ct d c n oth : conn_ok c n oth -> (length p <= 15)%nat ->
  match d with Some d => m_ c m_res_content_len <= Z.of_nat (length d) | None => True end ->
  conn_ok (with_doc p ct d c) n oth.
Proof. intros [Ho Hc _ _ Hck] Hp Hd. by split. Qed.

Lemma req_data_ok c n oth : conn_ok c n oth -> wp req_data c (inert c n oth).
Proof.
  intros Hok. unfold req_data. cn_step. cn_step. cn_step. cn_step.
  destruct (Z.eqb_spec (m_ c m_ibuffer) 0) as [|Hh]; cbn [negb andb]; [by apply wp_ret|].
  destruct (negb (m_ c m_req_data =? 0)); [|by apply wp_ret].
  cn_step. eapply (load_ok _ n oth m_ibuffer); [done..|]. intros b mem Hl Hok1. cn_step. cn_step. by cn_step.
Qed.

Lemma req_parse_content_ok c n oth : conn_ok c n oth -> Z.of_nat (size oth) + 9 < 2 ^ 32 ->
  wlp req_parse_content c (inert c n oth).
Proof.
  intros Hok Hsz. unfold req_parse_content. apply wlp_bind. eapply wlp_inert; [by apply wp_wlp, req_data_ok|].
  intros rd c1 Hok1 Es1 Em1. destruct rd as [[data k]|]; [|by apply wlp_ret]. destruct (negb (k =? 0)); [|by apply wlp_ret].
  apply wlp_bind, wp_wlp. eapply alloc_temp; [done|done|..].
  { intros b Hok2. by apply wp_ret. }
  intros b h Hh Hb. destruct (Z.eqb_spec h 0); [lia|]. cbn [negb].
  apply wlp_bind. eapply wlp_mono; [by apply decode_into_ok|]. intros [decoded sz] c2 (Hb2 & Es2 & Em2).
  apply wlp_bind, wlp_lift_opt. intros l _.
  apply wlp_bind. eapply borrowed_inert; [done|intros; by apply add_fields_ok|]. intros [] c3 Hb3 Es3 Em3.
  apply wlp_bind, wp_wlp. eapply free_temp; [done|]. intros b' Hok'. apply wlp_ret. split; [done|]. cbn.
  split; [rw Es3 Es2; cbn; done|rw Em3 Em2; cbn; done].
Qed.

Lemma act_ok a c n oth : conn_ok c n oth -> Z.of_nat (size oth) + 9 < 2 ^ 32 -> fits a c ->
  wlp (act a) c (post c n oth).
Proof.
  intros Hok Hsz Hf. pose proof (counters_of _ _ _ Hok) as Hc. unfold counters in Hc.
  pose proof (ok_doc _ _ _ Hok) as Hd. unfold doc_ok in Hd.
  assert (forall z, 0 <= u64 z < 2 ^ 64) as Hu by (intros z; apply Z.mod_pos_bound; lia).
  assert (forall z, 0 <= u16 z < 2 ^ 16) as Hu16 by (intros z; apply Z.mod_pos_bound; lia).
  destruct a; cbn [act fits] in *.
  - apply wlp_bind, wp_wlp. eapply wp_op; [by apply res_var_ok|]. intros ok c1 Hok1 Hs1. by apply wp_ret.
  - apply wlp_bind, wp_wlp. eapply wp_op; [by apply res_write_ok|]. intros r c1 Hok1 Hs1. by apply wp_ret.
  - apply wp_wlp. unfold res_code. cn_step. cn_step. cn_step.
    assert (conn_ok (with_regs (upd m_response_code (u16 rc)) c) n oth) as Hok1.
    { apply conn_ok_set; [done|cbn; lia| |done]. unfold counters. cn_simpl. pose proof (Hu16 rc). lia. }
    split; [ok_set|done].
  - apply wp_wlp, wp_modify. split; [|done]. apply conn_ok_doc; [done|rw length_take; lia|done].
  - apply wp_wlp. unfold res_content_len. cn_step. cn_step. cn_step. cn_step. cn_step. split; [|done].
    apply conn_ok_set; [done|cbn; lia| |].
    + unfold counters. cn_simpl. pose proof (Hu len). lia.
    + intros _. unfold doc_ok. cbn. by destruct (mp_doc c).
  - apply wp_wlp, wp_modify. split; [|done]. apply conn_ok_doc; [done|by apply Hok|done].
  - apply wp_wlp. unfold res_content. cn_step. cn_step. cn_step. split; [|done].
    destruct Hok as [[own Hr] _ Hp _ Hck]. split; [|unfold counters; cn_simpl; pose proof (Hu sz); lia|done| |done].
    + exists own. apply crep_set; [done|apply no_handle; cbn; lia].
    + unfold doc_ok. cbn. destruct doc; [done|done].
  - unfold res_cookie. apply wlp_bind, wlp_lift_opt. intros w _. destruct (length w + 1 <=? 4096)%nat; [|done].
    apply wp_wlp, wp_modify. split; [|done]. apply conn_ok_cookies; [done|]. pose proof (ok_cookies _ _ _ Hok) as Hck.
    destruct (default true (head (c_cookie_heap c))); [|done]. apply Forall_app. split; [done|].
    apply Forall_singleton, cstr_term.
  - apply wlp_bind. eapply wlp_inert; [by apply req_parse_content_ok|]. intros ok c1 Hok1 Es Em. apply wlp_ret.
    split; [done|]. split; [by rw Em|by rw Es].
Qed.

(** ** Sessions *)
(** Calls of [process] with their events, and calls of the handlers between. *)
Inductive session : CN -> list Z -> CN -> Prop :=
| ses_end c : session c [] c
| ses_process c now e c1 l c2 :
    process order stack1 stack2 now c = Some (e, c1) -> session c1 l c2 -> session c (e :: l) c2
| ses_act c a c1 l c2 : fits a c -> act a c = Some (tt, c1) -> session c1 l c2 -> session c l c2.

(** The order of the events: [None] before [HTTP_ON_OPEN], [Some false]
    between documents, [Some true] in one. *)
Fixpoint in_order (d : option bool) (l : list Z) : Prop :=
  match l with
  | [] => True
  | e :: l =>
      if e =? 0 then in_order d l else
      match d with
      | None => e = HTTP_ON_OPEN /\ in_order (Some false) l
      | Some false => (e = HTTP_ON_REQUEST \/ e = HTTP_ON_ERROR) /\ in_order (Some true) l
      | Some true =>
          (e = HTTP_ON_REQUEST_DATA \/ e = HTTP_ON_RESPONSE_DATA) /\ in_order (Some true) l \/
          e = HTTP_ON_CLOSE_DOCUMENT /\ in_order (Some false) l
      end
  end.

(** Where a state of the machine is in that order; a closed connection is
    anywhere. *)
Definition phase (s : Z) (d : option bool) : Prop :=
  if s =? 0 then d = None else if s <? HTTPC_RECEIVE_CONTENT then d = Some false
  else if s <? HTTPC_CLOSE then d = Some true else True.

Lemma transition_phase s e s' d : transition s e s' -> phase s d ->
  (e = 0 /\ phase s' d) \/
  (e <> 0 /\ exists d', phase s' d' /\ forall l, in_order d' l -> in_order d (e :: l)).
Proof.
  intros Ht Hp. destruct Ht; cbn in Hp.
  all: repeat match goal with Hin : _ ∈ _ :: _ |- _ => apply elem_of_cons in Hin as [->|Hin] end.
  all: try match goal with Hin : _ ∈ [] |- _ => by apply not_elem_of_nil in Hin end.
  all: cbn in Hp |- *; try subst d; try (left; split; [done|done]).
  all: right; split; [done|].
  all: try (exists (Some true); split; [done|]; intros l Hl; cbn; tauto).
  all: exists (Some false); split; [done|]; intros l Hl; cbn; tauto.
Qed.

Lemma session_ok c l c' n oth d : session c l c' -> conn_ok c n oth -> Z.of_nat (size oth) + 9 < 2 ^ 32 ->
  phase (m_ c m_state) d -> conn_ok c' n oth /\ in_order d l.
Proof.
  intros Hs. revert d. induction Hs as [c|c now e c1 l c2 Hp _ IH|c a c1 l c2 Hf Ha _ IH]; intros d Hok Hsz Hd.
  - done.
  - destruct (process_ok now c n oth Hok Hsz) as [Hw _]. unfold wlp in Hw. rw Hp in Hw. destruct Hw as [Hok1 Ht].
    destruct (transition_phase _ _ _ _ Ht Hd) as [[-> Hd1]|(He & d' & Hd1 & Hl)].
    + by apply IH.
    + destruct (IH d') as [? ?]; [done..|]. split; [done|]. by apply Hl.
  - pose proof (act_ok a c n oth Hok Hsz Hf) as Hw. unfold wlp in Hw. rw Ha in Hw. destruct Hw as [Hok1 [Est _]].
    apply IH; [done|done|by rw Est].
Qed.

(** ** Dead and silent peers *)
Definition dead c : Prop := match mp_sio c with Some s => m_alive s = false | None => True end.
(** Closed: the socket is given back, and so are all buffers. *)
Definition closed c n oth : Prop :=
  conn_ok c n oth /\ m_ c m_state = HTTPC_CLOSE /\ mp_sio c = None /\ bp_rep (mpi_bmap c) n oth.

Lemma no_buffers c n oth : conn_ok c n oth -> (forall x, x ∈ handles -> m_ c x = 0) -> bp_rep (mpi_bmap c) n oth.
Proof.
  intros [[own Hr] _ _ _ _] Hz. pose proof (crep_zero _ _ _ _ Hr) as H0'. destruct Hr as (Hb & _ & _ & _ & H5 & _).
  assert (own = ∅) as ->; [|by rw map_empty_union in Hb].
  apply map_eq. intros h. rw lookup_empty. destruct (own !! h) as [d|] eqn:E; [|done].
  destruct (H5 h) as (x & Hx & <-); [by eexists|]. rw Hz // in E. congruence.
Qed.

Lemma receive_dead c : dead c -> receive c = Some (0, c).
Proof.
  unfold dead, receive, mbind, M_bind, conn_alive. destruct (mp_sio c) as [s|]; [by intros ->|done].
Qed.

Lemma clear_dead c n oth : conn_ok c n oth -> dead c ->
  wp clear_ibuffer c (fun _ c' => conn_ok c' n oth /\ dead c').
Proof.
  intros Hok Hd. unfold clear_ibuffer. cn_step. cn_step.
  destruct (Z.eqb_spec (m_ c m_ibuffer) 0) as [E|E]; cbn [negb]; [by apply wp_ret|].
  cn_step. eapply wp_bsize; [done|]. intros Hn. cn_step.
  eapply (store_ok _ n oth m_ibuffer); [done..|by rw length_replicate|]. intros b Hok1.
  cn_step. split; [ok_set|done].
Qed.

Lemma receive_content_dead c n oth : conn_ok c n oth -> dead c ->
  wp receive_content c (fun r c' => r = 0 /\ conn_ok c' n oth /\ dead c').
Proof.
  intros Hok Hd. unfold receive_content. cn_step. eapply wp_intro; [by apply receive_dead|].
  cn_step. cn_step. cn_step. cn_step. cn_step. split; [done|]. split; [ok_set|done].
Qed.

Lemma dead_alive c : dead c -> match mp_sio c with Some s => m_alive s | None => false end = false.
Proof. unfold dead. by destruct (mp_sio c). Qed.

(** With a dead peer the machine goes to [HTTPC_CLOSE]. *)
Lemma process_dead now c n oth : conn_ok c n oth -> dead c ->
  m_ c m_state ∈ [HTTPC_RECEIVE_HEADER; HTTPC_RECEIVE_CONTENT; HTTPC_SEND_HEADER; HTTPC_SEND_CONTENT] ->
  wp (process order stack1 stack2 now) c (fun _ c' => conn_ok c' n oth /\ m_ c' m_state = HTTPC_CLOSE).
Proof.
  intros Hok Hd Hst.
  assert (forall c', conn_ok c' n oth -> conn_ok (with_regs (upd m_req_data 0) (with_regs (upd m_state HTTPC_CLOSE) c')) n oth) as Hend.
  { intros c' Hok'. by apply set_data_ok, set_state_ok. }
  unfold process. cn_step. cn_step.
  apply elem_of_cons in Hst as [E|Hst]; [|apply elem_of_cons in Hst as [E|Hst]; [|apply elem_of_cons in Hst as [E|Hst%list_elem_of_singleton]]];
    [rw E|rw E|rw E|rw Hst];
    cbn [Z.eqb Pos.eqb HTTPC_RECEIVE_HEADER HTTPC_COMPLETE_HEADER HTTPC_PARSE_HEADER HTTPC_RECEIVE_CONTENT HTTPC_SEND_HEADER HTTPC_SEND_CONTENT].
  { cn_step. eapply wp_intro; [by apply receive_dead|]. cn_step. cbn [Z.eqb]. cn_step. apply wp_alive.
    rw dead_alive //. cn_step. cn_step. split; [by apply set_state_ok|done]. }
  all: cn_step; eapply wp_mono; [by apply clear_dead|]; intros [] c1 [Hok1 Hd1].
  all: cn_step; eapply wp_mono; [by apply receive_content_dead|]; intros r c2 (-> & Hok2 & Hd2).
  all: cbn [Z.eqb negb]; cn_step; apply wp_alive; rw dead_alive //; cbn [andb].
  all: repeat cn_step; split; [by apply Hend|done].
Qed.

Lemma process_closed now c n oth : conn_ok c n oth -> m_ c m_state = HTTPC_CLOSE ->
  wp (process order stack1 stack2 now) c (fun _ c' => closed c' n oth).
Proof.
  intros Hok E. unfold process. cn_step. cn_step. rw E.
  cbn [Z.eqb Pos.eqb HTTPC_RECEIVE_HEADER HTTPC_COMPLETE_HEADER HTTPC_PARSE_HEADER HTTPC_RECEIVE_CONTENT HTTPC_SEND_HEADER HTTPC_SEND_CONTENT HTTPC_CLOSE].
  cn_step. eapply wp_mono; [by apply close_ok|]. intros [] c1 (Hok1 & Es1 & Em & Hz & _). cn_step.
  split_and!; [done|rw Em; [done|cbn; lia]|done|by eapply no_buffers].
Qed.

(** *** A peer that stays connected and sends nothing *)
(** The next [k] reads return nothing and leave the socket alive. *)
Fixpoint silent (k : nat) (s : sock O) : Prop :=
  m_alive s = true /\
  match k with
  | 0%nat => True
  | S k => forall size, match read size s with Some (d, s') => d = [] /\ silent k s' | None => False end
  end.

Lemma silent_alive k s : silent k s -> m_alive s = true.
Proof. by destruct k; intros [? _]. Qed.

Lemma silent_S k s : silent (S k) s -> silent k s.
Proof.
  revert s. induction k as [|k IH]; intros s [Ha Hs]; split; try done. intros size. specialize (Hs size).
  destruct (read size s) as [[d s']|]; [|done]. destruct Hs as [-> Hs']. split; [done|]. by apply IH.
Qed.

Lemma receive_silent k s c n oth : conn_ok c n oth -> mp_sio c = Some s -> silent (S k) s ->
  wp receive c (fun r c' => r = 0 /\ conn_ok c' n oth /\ (exists s', mp_sio c' = Some s' /\ silent k s') /\
    forall y, (3 <= idx y)%nat -> m_ c' y = m_ c y).
Proof.
  intros Hok Es Hs. pose proof (silent_alive _ _ Hs) as Ha. pose proof (silent_S _ _ Hs) as Hsk. destruct Hs as [_ Hs].
  unfold receive. cn_step. apply wp_alive. rw Es Ha.
  cn_step. cn_step. cn_step. eapply wp_mono; [by apply ensure_ok|]. intros [] c1 (Hok1 & Es1 & Em1).
  rw Es in Es1. cn_step. cn_step. destruct (Z.eqb_spec (m_ c1 m_ibuffer) 0) as [E|E]; cbn [negb].
  { apply wp_ret. split_and!; [done|done|by exists s|done]. }
  cn_step. eapply (load_ok _ _ _ m_ibuffer); [done|done|done|done|]. intros b mem Hl Hok2.
  cn_step. eapply wp_bsize; [done|]. intros Hn. cn_step. cn_step.
  pose proof (counters_of _ _ _ Hok2) as Hc. unfold counters in Hc. cn_simpl.
  cn_step. eapply sio_ok; [exact Hok2|exact Es1|]. specialize (Hs (u32 (n - m_ c1 m_ibuffer_offset))).
  unfold wp at 1. destruct (read _ s) as [[d s']|]; [|done]. destruct Hs as [-> Hs']. intros Hok3.
  cn_step. eapply wp_lift_opt; [apply put_bytes_some; cbn [length]; lia|].
  cn_step. eapply (store_ok _ n oth m_ibuffer); [exact Hok3|done|done|done| |].
  { rw !length_app length_take length_drop. cbn [length]. lia. }
  intros b2 Hok4. cn_step. cn_step. cn_step. cbn [length]. rw Z.add_0_r u32_small; [|lia].
  split_and!; [done|ok_set|by exists s'|]. intros y Hy. rw m_upd. case_decide as Ey; [apply idx_inj in Ey as ->; cn_simpl|cn_simpl]; by rw Em1.
Qed.

(** The call in state [RECEIVE_HEADER] that finds nothing. *)
Lemma process_receive_silent now k s c n oth : conn_ok c n oth -> mp_sio c = Some s -> silent (S k) s ->
  m_ c m_state = HTTPC_RECEIVE_HEADER ->
  wp (process order stack1 stack2 now) c (fun e c' => e = 0 /\ conn_ok c' n oth /\
    (exists s', mp_sio c' = Some s' /\ silent k s') /\ m_ c' m_state = HTTPC_COMPLETE_HEADER /\
    forall y, (3 <= idx y)%nat -> y <> m_state -> m_ c' y = m_ c y).
Proof.
  intros Hok Es Hs E. unfold process. cn_step. cn_step. rw E. cbn [Z.eqb Pos.eqb HTTPC_RECEIVE_HEADER].
  cn_step. eapply wp_mono; [by eapply receive_silent|]. intros r c1 (-> & Hok1 & (s' & Es1 & Hs1) & Em).
  cn_step. cbn [Z.eqb]. cn_step. apply wp_alive. rw Es1 (silent_alive _ _ Hs1). cn_step. cn_step.
  split_and!; [done|by apply set_state_ok|by exists s'|done|]. intros y Hy Hne. rw m_upd decide_False; [by apply Em|].
  by intros ?%idx_inj.
Qed.

Lemma process_silent_timeout now c n oth : conn_ok c n oth ->
  m_ c m_state = HTTPC_COMPLETE_HEADER -> m_ c m_ibuffer_offset = 0 -> m_ c m_timeout < now - m_ c m_stime ->
  wp (process order stack1 stack2 now) c (fun e c' => e = HTTP_ON_ERROR /\ conn_ok c' n oth /\
    mp_sio c' = mp_sio c /\ m_ c' m_state = HTTPC_SEND_HEADER /\ m_ c' m_error_code = HTTPRC_REQUEST_TIMEOUT /\
    m_ c' m_response_code = m_ c m_response_code).
Proof.
  intros Hok E Hoff Ht. unfold process. cn_step. cn_step. rw E. cbn [Z.eqb Pos.eqb HTTPC_RECEIVE_HEADER HTTPC_COMPLETE_HEADER].
  cn_step. unfold complete_req_header. cn_step. cn_step. rw Hoff. cbn [Z.eqb negb]. cn_step. cn_step. cn_step. cn_step. cn_step.
  destruct (Z.ltb_spec (m_ c m_timeout) (now - m_ c m_stime)); [|lia]. repeat cn_step.
  split_and!; [done| |done|done|done|done].
  pose proof (set_state_ok c n oth HTTPC_SEND_HEADER Hok ltac:(done)) as Hok2. ok_set.
Qed.

(** No response: the connection is closed. *)
Lemma process_header_silent now k s c n oth : conn_ok c n oth -> mp_sio c = Some s -> silent (S k) s ->
  m_ c m_state = HTTPC_SEND_HEADER -> m_ c m_response_code = 0 ->
  wp (process order stack1 stack2 now) c (fun e c' => e = 0 /\ conn_ok c' n oth /\ m_ c' m_state = HTTPC_CLOSE /\
    m_ c' m_error_code = m_ c m_error_code).
Proof.
  intros Hok Es Hs E Hrc. unfold process. cn_step. cn_step. rw E.
  cbn [Z.eqb Pos.eqb HTTPC_RECEIVE_HEADER HTTPC_COMPLETE_HEADER HTTPC_PARSE_HEADER HTTPC_RECEIVE_CONTENT HTTPC_SEND_HEADER].
  cn_step. eapply (wp_mono _ _ (fun _ c' => conn_ok c' n oth /\ mp_sio c' = Some s /\ m_ c' m_response_code = 0 /\
    m_ c' m_error_code = m_ c m_error_code)).
  { unfold clear_ibuffer. cn_step. cn_step. destruct (Z.eqb_spec (m_ c m_ibuffer) 0) as [E0|E0]; cbn [negb]; [by apply wp_ret|].
    cn_step. eapply wp_bsize; [done|]. intros Hn. cn_step.
    eapply (store_ok _ n oth m_ibuffer); [done..|by rw length_replicate|]. intros b Hok1.
    cn_step. split; [ok_set|done]. }
  intros [] c1 (Hok1 & Es1 & Hrc1 & Eec1). cn_step. unfold receive_content. cn_step.
  eapply wp_mono; [by eapply receive_silent|]. intros r c2 (-> & Hok2 & (s' & Es2 & Hs2) & Em). repeat cn_step.
  cbn [Z.eqb]. cn_step. apply wp_alive. cbn [mp_sio with_regs]. rw Es2 (silent_alive _ _ Hs2). cn_step. cn_step.
  cn_simpl. rw (Em m_response_code); [|cbn; lia]. rw Hrc1. cbn [Z.eqb negb andb]. repeat cn_step.
  split_and!; [done| |done|cn_simpl; rw (Em m_error_code); [done|cbn; lia]].
  apply set_data_ok, set_state_ok; [|done]. ok_set.
Qed.

(** [k] calls at time [now]. *)
Fixpoint serve (now : Z) (k : nat) : M CN (list Z) :=
  match k with
  | 0%nat => mret []
  | S k => e ← process order stack1 stack2 now; l ← serve now k; mret (e :: l)
  end.

Lemma serve_session now k c l c' : serve now k c = Some (l, c') -> session c l c'.
Proof.
  revert c l. induction k as [|k IH]; intros c l; cbn [serve]; unfold mbind, M_bind, mret, M_ret.
  { intros [= <- <-]. constructor. }
  destruct (process order stack1 stack2 now c) as [[e c1]|] eqn:E; [|done].
  destruct (serve now k c1) as [[l' c2]|] eqn:E2; [|done]. intros [= <- <-]. econstructor; [exact E|by apply IH].
Qed.
End machine.

(** ** The properties *)
Section theorems.
Context {O B : Type} `{SL : SockOsLaws O} `{BPL : BufferPoolLaws B}.
Context (order : gmap (list Z) (list Z) -> list (list Z)) (stack1 stack2 : Z).
Implicit Types (c : conn O B) (oth : gmap Z (list Z)).

(** C3: every call of [process] is a step of the machine.  From a state that
    satisfies the invariant (every offset inside its buffer, one live buffer for
    each handle) the call is defined and returns, except while a request header
    is searched and parsed; whenever it returns, event and new state are those
    of a transition, the invariant holds again, and the buffers of the other
    connections are untouched. *)
Theorem process_step now c n oth :
  conn_ok c n oth -> Z.of_nat (size oth) + 9 < 2 ^ 32 ->
  match process order stack1 stack2 now c with
  | Some (e, c') => conn_ok c' n oth /\ transition (m_ c m_state) e (m_ c' m_state)
  | None => m_ c m_state = HTTPC_COMPLETE_HEADER \/ m_ c m_state = HTTPC_PARSE_HEADER
  end.
Proof.
  intros Hok Hsz. destruct (process_ok order stack1 stack2 now c n oth Hok Hsz) as [Hw Ht].
  unfold wlp, wp in *. destruct (process order stack1 stack2 now c) as [[e c']|]; [exact Hw|].
  destruct (decide (m_ c m_state = HTTPC_COMPLETE_HEADER)); [by left|].
  destruct (decide (m_ c m_state = HTTPC_PARSE_HEADER)); [by right|]. by destruct Ht.
Qed.

(** C5: the order of events.  Whatever the peer sends and whatever calls the
    handlers make between the calls of [process], as long as a document is as
    long as it is said to be, the events of a connection are: one
    [HTTP_ON_OPEN], and then, for each document, a request or an error, its data
    events, and [HTTP_ON_CLOSE_DOCUMENT] before the next. *)
Theorem event_order c l c' n oth :
  session order stack1 stack2 c l c' -> conn_ok c n oth -> Z.of_nat (size oth) + 9 < 2 ^ 32 ->
  m_ c m_state = 0 -> in_order None l /\ conn_ok c' n oth.
Proof.
  intros Hs Hok Hsz E. destruct (session_ok order stack1 stack2 c l c' n oth None Hs Hok Hsz) as [? ?]; [|done].
  by rw E.
Qed.

(** C10: a connection whose peer is gone is closed: within three calls the socket
    is given back and every buffer returned, from every state but the two that
    parse a header. *)
Theorem dead_peer_closes t1 t2 t3 c n oth :
  conn_ok c n oth -> dead c -> m_ c m_state <> HTTPC_COMPLETE_HEADER -> m_ c m_state <> HTTPC_PARSE_HEADER ->
  wp (process order stack1 stack2 t1;; process order stack1 stack2 t2;; process order stack1 stack2 t3) c
    (fun _ c' => closed c' n oth).
Proof.
  intros Hok Hd H2 H3. pose proof (counters_of _ _ _ Hok) as Hc. unfold counters in Hc.
  assert (forall c, conn_ok c n oth -> m_ c m_state = HTTPC_CLOSE ->
    wp (process order stack1 stack2 t2;; process order stack1 stack2 t3) c (fun _ c' => closed c' n oth)) as Hclose.
  { intros c1 Hok1 E1. cn_step. eapply wp_mono; [by apply process_closed|]. intros e c2 (Hok2 & E2 & _).
    by apply process_closed. }
  cn_step. destruct (decide (m_ c m_state = 0)) as [E0|H0'].
  - unfold process at 1. cn_step. cn_step. rw E0. cbn [Z.eqb]. repeat cn_step.
    eapply wp_mono; [apply process_dead; [by apply set_state_ok|done|by left]|]. intros e c2 [Hok2 E2].
    by apply process_closed.
  - destruct (decide (m_ c m_state = HTTPC_CLOSE)) as [E7|H7].
    + eapply wp_mono; [by apply process_closed|]. intros e c1 (Hok1 & E1 & _). by apply Hclose.
    + eapply wp_mono; [apply process_dead; [done|done|]|intros e c1 [Hok1 E1]; by apply Hclose].
      unfold HTTPC_COMPLETE_HEADER, HTTPC_PARSE_HEADER, HTTPC_CLOSE in *.
      assert (m_ c m_state = 1 \/ m_ c m_state = 4 \/ m_ c m_state = 5 \/ m_ c m_state = 6) as Hst by lia.
      rw !elem_of_cons. tauto.
Qed.

(** C9: a peer that stays connected and sends nothing is given up.  Once the
    timeout has passed, the search for a header reports [HTTP_ON_ERROR] with code
    408, and if no handler answers the connection is closed. *)
Theorem silent_peer_times_out t1 t2 t3 s c n oth :
  conn_ok c n oth -> mp_sio c = Some s -> silent 2 s -> m_ c m_state = HTTPC_RECEIVE_HEADER ->
  m_ c m_ibuffer_offset = 0 -> m_ c m_response_code = 0 -> m_ c m_timeout < t2 - m_ c m_stime ->
  wp (e1 ← process order stack1 stack2 t1; e2 ← process order stack1 stack2 t2;
      e3 ← process order stack1 stack2 t3; mret [e1; e2; e3]) c
    (fun l c' => l = [0; HTTP_ON_ERROR; 0] /\ m_ c' m_error_code = HTTPRC_REQUEST_TIMEOUT /\
      m_ c' m_state = HTTPC_CLOSE).
Proof.
  intros Hok Es Hs E Hoff Hrc Ht. cn_step. eapply wp_mono; [by eapply process_receive_silent|].
  intros e1 c1 (-> & Hok1 & (s1 & Es1 & Hs1) & E1 & Em1).
  cn_step. eapply wp_mono; [apply process_silent_timeout; [done|done|..]|].
  { rw Em1; [done|cbn; lia|done]. }
  { rw !Em1; [done|cbn; lia|done|cbn; lia|done]. }
  intros e2 c2 (-> & Hok2 & Es2 & E2 & Eec2 & Erc2). rw Es1 in Es2.
  cn_step. eapply wp_mono; [eapply process_header_silent; [done|done|done|done|]|].
  { rw Erc2 Em1; [done|cbn; lia|done]. }
  intros e3 c3 (-> & _ & E3 & Eec3). cn_step. split_and!; [done|congruence|done].
Qed.
End theorems.

(** ** Witnesses *)
Definition records (m : gmap (list Z) (list Z)) : list (list Z) := (map_to_list m).*2.

Definition demo_sock (alive : bool) (l : list (option (list Z))) : sock script :=
  mkSock script 5 SOCKET_IO_TCP alive (mkScript l 65536 []).
(** A connection in state [st] over 256-byte buffers. *)
Definition demo_conn (st : Z) (s : sock script) :=
  mkConn script _ (Some s) [] (demo_pool 256 40) no_vars no_vars [] [] (upd m_state st (fun _ => 0)) (str "HTTP/1.1") None None.

Lemma demo_rep {O} (c : conn O _) : mpi_bmap c = demo_pool 256 40 -> (forall x, x ∈ handles -> m_ c x = 0) -> crep c 256 ∅ ∅.
Proof.
  intros Eb Hz. split_and!.
  - rw (left_id_L ∅ (∪)) Eb. apply demo_pool_rep; lia.
  - apply map_disjoint_empty_l.
  - done.
  - intros x Hx Hne. destruct Hne. by apply Hz.
  - intros h [d Hd]. by rw lookup_empty in Hd.
  - intros x y Hx _ _ _. by apply Hz.
Qed.

Lemma demo_conn_rep st s : crep (demo_conn st s) 256 ∅ ∅.
Proof.
  apply demo_rep; [done|]. intros x Hx. unfold handles in Hx. rw !elem_of_cons in Hx.
  destruct Hx as [->|[->|[->|Hx]]]; [done..|by apply not_elem_of_nil in Hx].
Qed.

Lemma demo_conn_ok st s : 0 <= st <= 7 -> conn_ok (demo_conn st s) 256 ∅.
Proof.
  intros Hst. split; [|unfold counters; cbn; lia|cbn; lia|done|done].
  exists ∅. apply demo_conn_rep.
Qed.

Definition demo_request : list Z := str "GET /a?x=1 HTTP/1.1" ++ [CR; LF] ++ str "Host: h:80" ++ [CR; LF; CR; LF].

Lemma process_step_witness :
  match process records 0 0 0 (demo_conn 0 (demo_sock true [Some demo_request])) with
  | Some (e, c') => conn_ok c' 256 ∅ /\ transition 0 e (m_ c' m_state)
  | None => (0 = HTTPC_COMPLETE_HEADER) \/ (0 = HTTPC_PARSE_HEADER)
  end.
Proof. apply (process_step records 0 0 0 (demo_conn 0 (demo_sock true [Some demo_request])) 256 ∅); [by apply demo_conn_ok|done]. Defined.

Lemma demo_events :
  fst <$> serve records 0 0 5 6 (demo_conn 0 (demo_sock true [Some demo_request; None; None])) = Some [1; 0; 0; 0; 2; 0].
Proof. vm_compute. reflexivity. Qed.

Lemma event_order_witness : exists l c', l = [1; 0; 0; 0; 2; 0] /\ in_order None l /\ conn_ok c' 256 ∅ /\
  session records 0 0 (demo_conn 0 (demo_sock true [Some demo_request; None; None])) l c'.
Proof.
  pose proof demo_events as E. destruct (serve _ _ _ _ _ _) as [[l c']|] eqn:Es; [|discriminate E].
  injection E as ->. exists [1; 0; 0; 0; 2; 0], c'. apply serve_session in Es.
  destruct (event_order records 0 0 _ _ _ 256 ∅ Es (demo_conn_ok 0 _ ltac:(lia)) ltac:(done) eq_refl) as [H1 H2].
  split; [reflexivity|]. split; [exact H1|]. split; [exact H2|exact Es].
Defined.

Lemma dead_peer_closes_witness :
  let c := demo_conn 4 (demo_sock false []) in
  wp (process records 0 0 1;; process records 0 0 2;; process records 0 0 3) c (fun _ c' => closed c' 256 ∅).
Proof.
  apply (dead_peer_closes records 0 0 1 2 3 (demo_conn 4 (demo_sock false [])) 256 ∅);
    [by apply demo_conn_ok|reflexivity|discriminate|discriminate].
Defined.

Lemma demo_silent k m : (k <= m)%nat -> silent k (demo_sock true (replicate m None)).
Proof.
  revert m. induction k as [|k IH]; intros m Hm; (split; [done|]); [done|]. intros size. unfold read. cbn.
  destruct (size =? 0); cbn; [split; [done|]; apply IH; lia|].
  destruct m as [|m]; [lia|]. cbn. split; [done|]. apply (IH m). lia.
Qed.

Lemma silent_peer_times_out_witness :
  let c := demo_conn 1 (demo_sock true [None; None]) in
  wp (e1 ← process records 0 0 1; e2 ← process records 0 0 2; e3 ← process records 0 0 3; mret [e1; e2; e3]) c
    (fun l c' => l = [0; HTTP_ON_ERROR; 0] /\ m_ c' m_error_code = HTTPRC_REQUEST_TIMEOUT /\ m_ c' m_state = HTTPC_CLOSE).
Proof.
  apply (silent_peer_times_out records 0 0 1 2 3 (demo_sock true [None; None]) (demo_conn 1 (demo_sock true [None; None])) 256 ∅);
    [by apply demo_conn_ok|reflexivity|apply (demo_silent 2 2); reflexivity|reflexivity..].
Defined.
