(* ===== verification/HttpRequest.v ===== *)
(** * Requests through the connection

    A request is rendered by [request] as clients write it; the theorem shows
    that the connection reads back its method, its decoded URI, the parts of the
    URI, the variables of the query, the protocol and the header fields. *)
From S2P Require Import Prelude Sha1 Str UrlCodec HttpParse Socket BufferPool VarMap HttpConnection HttpConnSpec HttpMachine.
Set Default Goal Selector "!".
(** The digests are never computed by the proofs' automation. *)
#[local] Opaque sha1_spec.

Definition lines (ls : list (list Z)) : list Z := concat ((fun l => l ++ [CR; LF]) <$> ls).
Definition header_line (h : list Z * list Z) : list Z := h.1 ++ COLON :: SP :: h.2.
Definition request_line (m u p : list Z) : list Z := m ++ SP :: u ++ SP :: p.
Definition header (m u p : list Z) (hs : list (list Z * list Z)) : list Z :=
  lines (request_line m u p :: (header_line <$> hs)).
Definition request (m u p : list Z) (hs : list (list Z * list Z)) : list Z := header m u p hs ++ [CR; LF].

(** ** The variables of a request *)
(** The decoded URI: a path, and a query after a question mark. *)
Definition uri_of (path : list Z) (q : option (list (list Z * list Z))) : list Z :=
  path ++ match q with Some l => QUESTION :: render_query l | None => [] end.
Definition url_vars (path : list Z) (q : option (list (list Z * list Z))) : list (list Z * list Z) :=
  [(VAR_REQ_URI, uri_of path q); (VAR_REQ_URL, path)] ++
  match q with Some l => (VAR_REQ_URN, render_query l) :: l | None => [] end.
Definition request_vars (hdr m p : list Z) (url hs : list (list Z * list Z)) : list (list Z * list Z) :=
  (VAR_REQ_HEADER, hdr) :: (VAR_REQ_METHOD, m) :: url ++ (VAR_REQ_PROTOCOL, p) :: hs.

Definition vm_adds (v : vars) (l : list (list Z * list Z)) : vars := foldl (fun v kd => (vm_add v kd.1 kd.2).2) v l.

(** The first of the variables with the key's digest. *)
Fixpoint first_var (l : list (list Z * list Z)) (k : list Z) : option (list Z) :=
  match l with
  | [] => None
  | kd :: l => if bool_decide (sha1_spec kd.1 = sha1_spec k) then Some kd.2 else first_var l k
  end.

Lemma vm_adds_find v l k : v_heap v = [] ->
  vm_find (vm_adds v l) k = match vm_find v k with Some d => Some d | None => first_var l k end.
Proof.
  revert v. induction l as [|[k1 d1] l IH]; intros v Hh; cbn [vm_adds foldl first_var fst snd].
  { by destruct (vm_find v k). }
  fold (vm_adds (vm_add v k1 d1).2 l). unfold vm_add.
  destruct (vm_find v k1) as [d|] eqn:E.
  - cbn [snd]. rw IH; [|done]. destruct (vm_find v k) eqn:Ek; [done|]. rw bool_decide_eq_false_2 //. intros Hd.
    unfold vm_find in *. congruence.
  - unfold vm_store. rw Hh. cbn [head default tail from_option id snd]. rw IH; [|done].
    unfold vm_find. cbn [v_map]. rw lookup_insert. unfold vm_find in E. case_decide as Hd.
    + rw -Hd E bool_decide_eq_true_2 //.
    + destruct (v_map v !! sha1_spec k); [done|]. by rw bool_decide_eq_false_2.
Qed.

Lemma nonempty_length {A} (l : list A) : l <> [] -> (0 < length l)%nat.
Proof. destruct l; simpl; [done|lia]. Qed.

(** ** The end of the header *)
Definition line_ok (l : list Z) : Prop := l <> [] /\ Forall (fun c => c <> CR) l.

Lemma lines_cons l ls : lines (l :: ls) = l ++ CR :: LF :: lines ls.
Proof. unfold lines. cbn. by rw -app_assoc. Qed.

Lemma occurs_head text j : occurs text CRLFCRLF j -> text !! j = Some CR /\ text !! (j + 2)%nat = Some CR.
Proof.
  unfold occurs. cbn [length CRLFCRLF]. intros E.
  assert (forall i c, (i < 4)%nat -> CRLFCRLF !! i = Some c -> text !! (j + i)%nat = Some c) as H.
  { intros i c Hi Hc. apply (f_equal (fun l => l !! i)) in E. rw Hc lookup_take_lt in E; [|exact Hi]. rw lookup_drop in E. exact E. }
  split. { pose proof (H 0%nat CR ltac:(lia) eq_refl) as H0. rw Nat.add_0_r in H0. exact H0. }
  apply (H 2%nat); [lia|done].
Qed.

Lemma no_blank_line ls rest j : Forall line_ok ls -> (j + 2 < length (lines ls))%nat ->
  ~ occurs (lines ls ++ CR :: LF :: rest) CRLFCRLF j.
Proof.
  revert j. induction ls as [|l ls IH]; intros j Hls Hj; [simpl in Hj; lia|].
  apply Forall_cons in Hls as [[Hne Hl] Hls]. rw lines_cons in Hj |- *. rw length_app in Hj. simpl in Hj.
  intros Ho. pose proof (occurs_head _ _ Ho) as [H0 H2]. rw -app_assoc in H0, H2. cbn [app] in H0, H2.
  destruct (Nat.lt_ge_cases j (length l)) as [Hlt|Hge].
  - rw lookup_app_l // in H0. rw Forall_lookup in Hl. by apply (Hl j CR).
  - destruct (decide (j = length l)) as [->|Hne1].
    + rw lookup_app_r in H2; [|lia]. replace (length l + 2 - length l)%nat with 2%nat in H2 by lia. cbn in H2.
      destruct ls as [|l2 ls]; [simpl in Hj; lia|]. apply Forall_cons in Hls as [[Hn2 Hl2] _]. destruct l2 as [|x l2]; [done|].
      rw lines_cons in H2. cbn in H2. injection H2 as ->. by apply Forall_cons in Hl2 as [? _].
    + destruct (decide (j = S (length l))) as [->|Hne2].
      * rw lookup_app_r in H0; [|lia]. by replace (S (length l) - length l)%nat with 1%nat in H0 by lia.
      * apply (IH (j - (length l + 2))%nat Hls); [lia|]. unfold occurs in Ho |- *.
        rw -app_assoc in Ho. cbn [app] in Ho. rw (drop_app_ge l) in Ho; [|lia].
        replace (j - length l)%nat with (S (S (j - (length l + 2)))) in Ho by lia. exact Ho.
Qed.

Lemma blank_line ls rest : ls <> [] -> exists j, (j + 2 = length (lines ls))%nat /\
  occurs (lines ls ++ CR :: LF :: rest) CRLFCRLF j.
Proof.
  destruct ls as [|l ls] using rev_ind; [done|]. intros _.
  assert (lines (ls ++ [l]) = (lines ls ++ l) ++ [CR; LF]) as E.
  { unfold lines. rw fmap_app concat_app. cbn. by rw app_nil_r app_assoc. }
  exists (length (lines ls ++ l)). split; [rw E !length_app /=; lia|]. unfold occurs. rw E -app_assoc.
  by rw drop_app_length.
Qed.

(** ** Running the parser *)
(** A state after variables were added. *)
Definition added {O B} (l : list (list Z * list Z)) (c : conn O B) : conn O B := with_req (vm_adds (mpi_req_map c) l) c.

Section runs.
Context {O B : Type} `{SL : SockOsLaws O} `{BPL : BufferPoolLaws B}.
Context (order : gmap (list Z) (list Z) -> list (list Z)) (stack1 stack2 : Z).
Abbreviation CN := (conn O B).
Implicit Types (c : CN) (own oth : gmap Z (list Z)).

Lemma added_nil c : added [] c = c.
Proof. by destruct c. Qed.

Lemma added_app l1 l2 c : added l2 (added l1 c) = added (l1 ++ l2) c.
Proof. unfold added, vm_adds. cbn. by rw foldl_app. Qed.

Lemma crep_added l c n own oth : crep c n own oth -> crep (added l c) n own oth.
Proof. intros Hr. by apply (crep_ext c). Qed.

Lemma add_variable_run name mem v c : (0 < length v)%nat -> take (length v) mem = v ->
  add_req_variable name mem (length v) c = Some (tt, added [(name, v)] c).
Proof.
  intros Hv Hm. unfold add_req_variable. destruct (Nat.eqb_spec (length v) 0); [lia|]. cbn [negb].
  assert (length v <= length mem)%nat by (rw -Hm length_take; lia).
  unfold mbind, M_bind, mret, M_ret. rw /lift_opt bytes_at_some //. rw drop_0 Hm. done.
Qed.

Lemma add_fields_run mem fs l c : mapM (pair_bytes mem) fs = Some l ->
  add_fields mem fs c = Some (tt, added l c).
Proof.
  revert l c. induction fs as [|f fs IH]; intros l c; cbn [mapM add_fields].
  { intros [= <-]. by rw added_nil. }
  destruct (pair_bytes mem f) as [[k d]|] eqn:Ep; [|discriminate]. cbn [mbind option_bind].
  destruct (mapM (pair_bytes mem) fs) as [l'|]; [|discriminate]. intros [= <-]. unfold pair_bytes in Ep.
  destruct (bytes_at mem f.1.1 f.1.2) as [k'|] eqn:E1; [|discriminate]. cbn [mbind option_bind] in Ep.
  destruct (bytes_at mem f.2.1 f.2.2) as [d'|] eqn:E2; [|discriminate]. injection Ep as -> ->.
  unfold add_field, mbind, M_bind, lift_opt. rw E1 E2. cbn. by rw (IH l' _ eq_refl).
Qed.

(** The line loop over the header fields and the empty line. *)
Lemma var_lines_run hs pre rest hdr hl fuel c :
  hdr = pre ++ lines (header_line <$> hs) ++ CR :: LF :: rest -> pre <> [] ->
  Forall (fun h => header_name h.1 /\ header_value h.2) hs ->
  hl = (length pre + length (lines (header_line <$> hs)) + 2)%nat -> (length hs + 2 <= fuel)%nat ->
  var_lines fuel hdr hl (length pre) c = Some (hl, added hs c).
Proof.
  revert pre fuel c. induction hs as [|[nm v] hs IH]; intros pre fuel c Hhdr Hpre Hhs Hhl Hf.
  all: destruct fuel as [|fuel]; [simpl in Hf; lia|]; assert (0 < length pre)%nat by (destruct pre; simpl; [done|lia]).
  - cbn [fmap list_fmap] in *. change (lines []) with (@nil Z) in *. cbn [length app var_lines] in *.
    destruct (Nat.eqb_spec (length pre) 0); [lia|]. destruct (Nat.ltb_spec (length pre) hl); [|lia].
    cbn [negb andb]. destruct (var_line_empty (drop (length pre) hdr) rest (hl - length pre)) as (s & El & Ep).
    { by rw Hhdr drop_app_length. }
    { lia. }
    unfold parse_var_line, mbind, M_bind, lift_opt. rw El. cbn. rw Ep. cbn.
    destruct fuel as [|fuel]; [lia|]. cbn [var_lines]. replace (length pre + 2)%nat with hl by lia.
    rw Nat.ltb_irrefl andb_false_r. by rw added_nil.
  - apply Forall_cons in Hhs as [[Hn Hv] Hhs]. cbn [fst snd] in Hn, Hv.
    rw fmap_cons lines_cons in Hhdr. rw fmap_cons lines_cons in Hhl. unfold header_line at 1 in Hhdr. cbn [fst snd] in Hhdr.
    assert (length (header_line (nm, v)) = length nm + length v + 2)%nat as Elen by (unfold header_line; cbn; rw length_app /=; lia).
    rw (length_app (header_line (nm, v))) Elen in Hhl. cbn [length var_lines] in Hhl |- *.
    destruct (Nat.eqb_spec (length pre) 0); [lia|].
    destruct (Nat.ltb_spec (length pre) hl); [|lia].
    cbn [negb andb]. set (post := lines (header_line <$> hs) ++ CR :: LF :: rest) in *.
    assert (hdr = pre ++ nm ++ COLON :: SP :: v ++ CR :: LF :: post) as Hh.
    { rw Hhdr. unfold post. by rw -?app_assoc /= -?app_assoc /= -?app_assoc. }
    destruct (var_line_pair (drop (length pre) hdr) nm v post
      (hl - length pre)) as (s & El & Ep);
      [by rw Hh drop_app_length|done|done|lia|].
    pose proof (pair_bytes_line nm v post) as Epb.
    rw -(drop_app_length pre (nm ++ _)) in Epb. rw -Hh in Epb.
    pose proof (add_fields_run (drop (length pre) hdr) [((0%nat, length nm), ((length nm + 2)%nat, length v))] [(nm, v)] c) as Ea.
    cbn [mapM] in Ea. rw Epb in Ea. specialize (Ea eq_refl). cbn [add_fields] in Ea.
    unfold parse_var_line, mbind, M_bind, lift_opt in Ea |- *. rw El. cbn [fmap option_fmap option_map]. rw Ep.
    destruct (add_field _ _ c) as [[[] c1]|] eqn:E1; [|done]. cbn in Ea. injection Ea as ->. cbn [mret M_ret].
    destruct (Nat.eqb_spec (length nm + length v + 4) 0); [lia|]. cbn [negb].
    replace (length pre + (length nm + length v + 4))%nat with (length (pre ++ header_line (nm, v) ++ [CR; LF]))
      by (rw !(length_app pre) (length_app (header_line (nm, v))) Elen /=; lia).
    rw (IH (pre ++ header_line (nm, v) ++ [CR; LF]) fuel).
    + by rw added_app.
    + rw Hh. unfold post, header_line. cbn [fst snd]. by rw -?app_assoc /= -?app_assoc.
    + by destruct pre.
    + done.
    + rw !(length_app pre) (length_app (header_line (nm, v))) Elen /=. lia.
    + simpl in Hf. lia.
Qed.

(** The end of the path. *)
Lemma url_end_path pre path post k d : d = pre ++ path ++ post -> Forall (fun x => x <> QUESTION) path ->
  url_end (length path + k) d (length pre) = url_end k d (length (pre ++ path)).
Proof.
  revert pre. induction path as [|x path IH]; intros pre Hd Hp; [by rw app_nil_r|].
  apply Forall_cons in Hp as [Hx Hp]. cbn [length Nat.add url_end]. rw Hd list_lookup_middle //. cbn [mbind option_bind].
  destruct (Z.eqb_spec x QUESTION); [done|]. replace (S (length pre)) with (length (pre ++ [x])) by (rw length_app /=; lia).
  rw -Hd (IH (pre ++ [x])); [by rw -app_assoc|by rw Hd -app_assoc|done].
Qed.

(** An encoded URI of a path and an optional query. *)
Definition uri_ok (u path : list Z) (q : option (list (list Z * list Z))) : Prop :=
  token u /\ Forall char_ok u /\ unescape u = Some (uri_of path q) /\
  path <> [] /\ Forall (fun x => x <> QUESTION) path /\
  match q with Some l => l <> [] /\ Forall pair_ok l | None => True end.

(** The buffer the decoder borrows. *)
Lemma alloc_granted c n own oth (Q : Z -> CN -> Prop) : crep c n own oth -> Z.of_nat (size oth) + 9 < 2 ^ 32 ->
  wp bp_alloc (mpi_bmap c) (fun h _ => h <> 0) ->
  (forall b h, h <> 0 -> oth !! h = None -> crep (with_bmap b c) n own (<[h := replicate (Z.to_nat n) 0]> oth) ->
    Q h (with_bmap b c)) -> wp (bmp bp_alloc) c Q.
Proof.
  intros Hr Hs Ha HQ. eapply (wp_mono _ _ (fun h c' => h <> 0 /\ (h <> 0 -> Q h c'))).
  - apply wp_and.
    + apply wp_bmp. exact Ha.
    + eapply wp_buf_alloc; [done|by intros|]. intros b h Hh H1 H2 Hb _. apply HQ; [lia|done|]. by apply crep_temp.
  - intros h c' [H1 H2]. by apply H2.
Qed.

Lemma decode_into_run h u x rest d c n own oth : crep c n own oth ->
  oth !! h = Some (replicate (Z.to_nat n) 0) -> Forall char_ok u -> unescape u = Some d -> d <> [] ->
  Z.of_nat (length u) < n ->
  wp (decode_into h (u ++ x :: rest) (length u)) c (fun r c' => exists dec b,
    r = (dec, length d) /\ c' = with_bmap b c /\ crep c' n own (<[h := dec]> oth) /\ take (S (length d)) dec = d ++ [0]).
Proof.
  intros Hr Hh Hu Hd Hd0 Hl. pose proof (crep_size _ _ _ _ Hr) as [Hbs Hn].
  pose proof (unescape_length _ u d (le_n _) Hd) as Hdl. unfold decode_into.
  destruct (UrlDecode_text u d x rest (replicate (Z.to_nat n) 0)) as (dec & E & El & Et); [done|done|done|rw length_replicate; lia|].
  rw length_replicate in E. rw length_replicate in El.
  cn_step. eapply wp_load_same; [done| |].
  { apply lookup_union_Some_r; [by destruct Hr as (_ & ? & _)|done]. }
  cn_step. apply wp_gets. rw Hbs. wp_step. eapply wp_lift_opt; [exact E|]. cbv beta iota.
  cn_step. eapply wp_store_oth; [done|by eexists|done|]. intros b Hr'. cn_step.
  exists dec, b. split_and!; [|done|done|done]. rw u32_small; [|lia]. by rw Nat2Z.id.
Qed.

Lemma added_bmap l b c : added l (with_bmap b c) = with_bmap b (added l c).
Proof. by destruct c. Qed.
Lemma with_bmap_twice b1 b2 c : with_bmap b1 (with_bmap b2 c) = with_bmap b1 c.
Proof. by destruct c. Qed.

(** The query of a decoded URI. *)
Lemma query_run dec path l tl c : l <> [] -> Forall pair_ok l ->
  dec = (path ++ [QUESTION]) ++ render_query l ++ tl ->
  exists fs, scan_query dec (S (length path)) (length (uri_of path (Some l))) = Some fs /\
    add_fields dec fs c = Some (tt, added l c).
Proof.
  intros Hl Hp Hd. destruct (scan_pairs l dec (path ++ [QUESTION]) tl [] Hp Hl Hd) as (s & fs & Hs & He & Hfs).
  exists fs. split; [|by apply add_fields_run]. unfold scan_query, uri_of, q_init.
  rw length_app in Hs. rw length_app. cbn [length] in *.
  replace (length path + S (length (render_query l)) - S (length path))%nat with (length (render_query l)) by lia.
  replace (S (length path)) with (length path + 1)%nat by lia. by rw Hs /= He.
Qed.

Lemma render_nonempty l : l <> [] -> (0 < length (render_query l))%nat.
Proof. destruct l as [|[nm v] [|p l]]; [done|..]; intros _; cbn; rw length_app /=; lia. Qed.

(** [parse_url]: the URI, its path, its query and the variables of the query. *)
Lemma parse_url_run u path q x rest c n own oth : crep c n own oth -> Z.of_nat (size oth) + 9 < 2 ^ 32 ->
  wp bp_alloc (mpi_bmap c) (fun h _ => h <> 0) -> uri_ok u path q -> Z.of_nat (length u) < n ->
  wp (parse_url (u ++ x :: rest) (length u)) c (fun _ c' =>
    exists b, c' = with_bmap b (added (url_vars path q) c) /\ crep c' n own oth).
Proof.
  intros Hr Hs Ha (_ & Hu & Hd & Hp0 & Hpath & Hq) Hl.
  pose proof (nonempty_length path Hp0) as Hpl.
  assert (uri_of path q <> []) as Hd0 by by (unfold uri_of; destruct path).
  unfold parse_url. cn_step. eapply alloc_granted; [done|done|done|]. intros b h Hh0 Hho Hr1.
  destruct (Z.eqb_spec h 0); [done|]. cbn [negb]. cn_step.
  eapply wp_mono; [eapply decode_into_run; [exact Hr1|by rw lookup_insert_eq|done..]|].
  intros r c1 (dec & b1 & -> & -> & Hr2 & Ht). rw insert_insert_eq in Hr2. rw with_bmap_twice in Hr2 |- *.
  assert (take (length (uri_of path q)) dec = uri_of path q) as Ht1.
  { replace (length (uri_of path q)) with (length (uri_of path q) `min` S (length (uri_of path q)))%nat by lia.
    rw -take_take Ht take_app_length. done. }
  assert (exists tl, dec = uri_of path q ++ tl) as [tl Hdec].
  { exists (drop (length (uri_of path q)) dec). by rw -{1}Ht1 take_drop. }
  cbv beta iota. cn_step. eapply wp_intro; [eapply add_variable_run; [by apply nonempty_length|done]|].
  assert (url_end (length (uri_of path q)) dec 0 = Some (length path)) as Hend.
  { assert (dec = path ++ drop (length path) dec) as Ed by (rw Hdec /uri_of -app_assoc drop_app_length; done).
    destruct q as [l|].
    - unfold uri_of at 1. rw length_app. pose proof (fun k => url_end_path [] path _ k dec Ed Hpath) as E.
      cbn [app length] in E |- *. rw E. cbn [url_end].
      rw Hdec /uri_of -app_assoc list_lookup_middle //.
    - unfold uri_of at 1. rw app_nil_r. pose proof (url_end_path [] path _ 0 dec Ed Hpath) as E.
      by rw Nat.add_0_r in E. }
  cn_step. eapply wp_lift_opt; [exact Hend|]. cn_step.
  eapply wp_intro; [eapply add_variable_run; [done|]|].
  { rw Hdec /uri_of -app_assoc take_app_length. done. }
  rw !added_app. cn_step.
  eapply (wp_mono _ _ (fun _ c' => c' = added (url_vars path q) (with_bmap b1 c))).
  - destruct q as [l|].
    + destruct Hq as [Hl0 Hlok]. pose proof (render_nonempty l Hl0) as Hrl.
      assert (length (uri_of path (Some l)) = length path + S (length (render_query l)))%nat as El by (unfold uri_of; by rw length_app).
      assert (dec = (path ++ [QUESTION]) ++ render_query l ++ tl) as Ed by by rw Hdec /uri_of -!app_assoc.
      destruct (Nat.ltb_spec (length path) (length (uri_of path (Some l)))); [|lia].
      destruct (query_run dec path l tl (added [(VAR_REQ_URI, uri_of path (Some l)); (VAR_REQ_URL, path); (VAR_REQ_URN, render_query l)] (with_bmap b1 c)))
        as (fs & Hsc & Haf); [done|done|done|].
      replace (length (uri_of path (Some l)) - S (length path))%nat with (length (render_query l)) by lia.
      cn_step. eapply wp_intro; [eapply add_variable_run; [done|]|].
      { replace (S (length path)) with (length (path ++ [QUESTION])) by (rw length_app /=; lia).
        by rw Ed drop_app_length take_app_length. }
      cn_step. eapply wp_lift_opt; [exact Hsc|]. rw added_app. eapply wp_intro; [exact Haf|]. by rw added_app.
    + unfold uri_of at 1. rw app_nil_r Nat.ltb_irrefl. by apply wp_ret.
  - intros [] c2 ->. eapply wp_free_oth; [by apply crep_added|by rw lookup_insert_eq|].
    intros b2 Hr3. rw delete_insert_id // in Hr3. exists b2. by rw added_bmap with_bmap_twice in Hr3 |- *.
Qed.

Lemma parse_request_line_run m u p path q rest sz_max c n own oth : crep c n own oth -> Z.of_nat (size oth) + 9 < 2 ^ 32 ->
  wp bp_alloc (mpi_bmap c) (fun h _ => h <> 0) -> token m -> uri_ok u path q -> token p -> Z.of_nat (length u) < n ->
  (length (request_line m u p) + 2 <= sz_max)%nat ->
  wp (parse_request_line (request_line m u p ++ CR :: LF :: rest) sz_max) c (fun r c' =>
    r = (length (request_line m u p) + 2)%nat /\ exists b,
    c' = with_bmap b (added ((VAR_REQ_METHOD, m) :: url_vars path q ++ [(VAR_REQ_PROTOCOL, p)]) c) /\ crep c' n own oth).
Proof.
  intros Hr Hs Ha Hm Hu Hp Hl Hsz. set (req := request_line m u p ++ CR :: LF :: rest).
  assert (length (request_line m u p) = length m + length u + length p + 2)%nat as Elen.
  { unfold request_line. rw length_app /= length_app /=. lia. }
  destruct (request_line_fields req m u p rest sz_max) as (s & El & E0 & E1 & E2); [|done|by destruct Hu|done|lia|].
  { unfold req, request_line. by rw -?app_assoc /= -?app_assoc. }
  unfold parse_request_line. cn_step. eapply wp_lift_opt; [exact El|]. cbv beta iota. rw E0 E1 E2. cn_step.
  eapply wp_intro; [eapply add_variable_run; [apply nonempty_length; by destruct Hm|]|].
  { unfold req, request_line. rw drop_0 -?app_assoc take_app_length. done. }
  assert (drop (length m + 1) req = u ++ SP :: p ++ CR :: LF :: rest) as Ed1.
  { replace (length m + 1)%nat with (length (m ++ [SP])) by (rw length_app /=; lia).
    assert (req = (m ++ [SP]) ++ u ++ SP :: p ++ CR :: LF :: rest) as ->; [|apply drop_app_length].
    unfold req, request_line. by rw -?app_assoc /= -?app_assoc. }
  assert (take (length p) (drop (length m + length u + 2) req) = p) as Ed2.
  { replace (length m + length u + 2)%nat with (length (m ++ SP :: u ++ [SP])) by (rw length_app /= length_app /=; lia).
    assert (req = (m ++ SP :: u ++ [SP]) ++ p ++ CR :: LF :: rest) as ->; [|by rw drop_app_length take_app_length].
    unfold req, request_line. by rw -?app_assoc /= -?app_assoc /= -?app_assoc. }
  cn_step. rw Ed1. eapply wp_mono; [eapply parse_url_run; [by apply crep_added|done..]|].
  intros [] c1 (b & -> & Hr1). rw -added_bmap in Hr1 |- *. cn_step.
  eapply wp_intro; [eapply add_variable_run; [apply nonempty_length; by destruct Hp|exact Ed2]|].
  cn_step. split; [lia|]. exists b. rw !added_app added_bmap /=. split; [done|].
  rw -added_bmap. apply crep_added. apply (crep_ext _ _ _ _ _ Hr1); done.
Qed.

(** ** The lines of a request *)
Definition header_ok (h : list Z * list Z) : Prop := header_name h.1 /\ header_value h.2.

Lemma token_no_cr t : token t -> Forall (fun x => x <> CR) t.
Proof. intros [_ Ht]. eapply Forall_impl; [done|]. by intros x (_ & ? & _). Qed.

Lemma value_tail_no_cr x t : value_tail x t -> Forall (fun x => x <> CR) t.
Proof. revert x. induction t as [|y t IH]; intros x; [done|]. intros (H1 & _ & _ & Ht). constructor; [done|by eapply IH]. Qed.

Lemma request_line_ok m u p : token m -> token u -> token p -> line_ok (request_line m u p).
Proof.
  intros Hm Hu Hp. split; [by destruct m|]. unfold request_line.
  rw !Forall_app !Forall_cons !Forall_app !Forall_cons. split_and!; by [apply token_no_cr|].
Qed.

Lemma header_line_ok h : header_ok h -> line_ok (header_line h).
Proof.
  intros [[Hn0 Hn] Hv]. split; [by destruct h as [[|? ?] ?]|]. unfold header_line.
  rw Forall_app !Forall_cons. split_and!; try done.
  - eapply Forall_impl; [exact Hn|]. by intros x (_ & _ & ? & _).
  - destruct h.2 as [|y t]; [done|]. destruct Hv as (_ & _ & H1 & _ & Ht). constructor; [done|by eapply value_tail_no_cr].
Qed.

(** The header text that the connection keeps: without the empty line and the
    line break before it. *)
Definition header_text_of m u p hs : list Z := take (length (header m u p hs) - 2) (header m u p hs).

Lemma complete_run ls rest mem c n own oth : crep c n own oth ->
  ls <> [] -> Forall line_ok ls -> mem = lines ls ++ CR :: LF :: rest ->
  m_ c m_ibuffer <> 0 -> own !! m_ c m_ibuffer = Some mem -> m_ c m_ibuffer_offset <> 0 ->
  Z.of_nat (length (lines ls)) + 2 < n ->
  wp complete_req_header c (fun r c' => r = true /\
    c' = with_regs (upd m_header_len (Z.of_nat (length (lines ls) + 2)))
           (added [(VAR_REQ_HEADER, take (length (lines ls) - 2) (lines ls))] c)).
Proof.
  intros Hr Hne Hls Hmem Hh Hown Hoff Hl. pose proof (crep_size _ _ _ _ Hr) as [Hbs Hn].
  destruct (crep_length _ _ _ _ _ _ Hr Hown) as [_ Hlen].
  unfold complete_req_header. cn_step. apply wp_get. destruct (Z.eqb_spec (m_ c m_ibuffer_offset) 0); [done|]. cbn [negb].
  cn_step. apply wp_gets. rw Hbs. cn_step. apply wp_get. cn_step. unfold ptr.
  destruct (Z.eqb_spec (m_ c m_ibuffer) 0); [done|]. cn_step.
  eapply wp_load_same; [done|by apply lookup_union_Some_l|]. cn_step. cbv beta iota.
  destruct (blank_line ls rest Hne) as (j & Hj & Ho). rw -Hmem in Ho.
  destruct (nfind_string_spec mem (Z.to_nat n) CRLFCRLF) as (r & Er & Hres); [lia|].
  assert (r = Z.of_nat j) as ->.
  { destruct Hres as [[-> Hno]|(k & -> & Hk & Hok & Hfirst)].
    - destruct (Hno j); [cbn; lia|done].
    - f_equal. destruct (Nat.lt_trichotomy k j) as [Hlt|[?|Hgt]]; [|done|by destruct (Hfirst j Hgt)].
      destruct (no_blank_line ls rest k Hls); [lia|by rw -Hmem]. }
  cn_step. eapply wp_lift_opt; [exact Er|]. destruct (Z.eqb_spec (Z.of_nat j) (-1)); [lia|]. cbn [negb]. rw Nat2Z.id.
  assert (take j mem = take j (lines ls)) as Et by (rw Hmem take_app_le //; lia).
  assert (length (take j (lines ls)) = j) as Elj by (rw length_take; lia).
  assert (0 < j)%nat as Hj0.
  { destruct ls as [|l ls]; [done|]. apply Forall_cons in Hls as [[Hl0 _] _]. apply nonempty_length in Hl0.
    rw lines_cons in Hj. rw length_app /= in Hj. lia. }
  pose proof (add_variable_run VAR_REQ_HEADER mem (take j (lines ls)) c) as Ha. rw Elj in Ha.
  cn_step. eapply wp_intro; [by apply Ha|]. cn_step. apply wp_set. cn_step. split; [done|].
  replace (length (lines ls) - 2)%nat with j by lia. rw u32_small; [|lia].
  replace (Z.of_nat j + 4) with (Z.of_nat (length (lines ls) + 2)) by lia. done.
Qed.

(** ** The state after the header *)
Definition content_length (vs : list (list Z * list Z)) (old : Z) : option Z :=
  match first_var vs (str "Content-Length") with
  | Some d => s ← cstr (d ++ [0]); n ← atoi s; Some (u32 n)
  | None => Some old
  end.

Lemma req_var_run name d s c : name <> [] -> vm_find (mpi_req_map c) name = Some d -> cstr (d ++ [0]) = Some s ->
  req_var name c = Some (Some s, c).
Proof.
  intros Hn Hd Hs. unfold req_var, vm_get. apply nonempty_length in Hn. destruct (Nat.eqb_spec (length name) 0); [lia|].
  by rw Hd Hs.
Qed.

Lemma req_var_none name c : vm_find (mpi_req_map c) name = None -> req_var name c = Some (None, c).
Proof. intros Hd. unfold req_var, vm_get. rw Hd. by destruct (length name =? 0)%nat. Qed.

(** The part of [parse_req_header] after the buffer was moved. *)
Definition parsed_tail : M CN bool :=
  set m_header_len 0;;
  cl ← req_var (str "Content-Length");
  match cl with
  | Some cl => n ← lift_opt (atoi cl); set m_req_content_len (u32 n)
  | None => mret tt
  end;;
  off ← get m_ibuffer_offset;
  set m_req_content_rcv off;;
  mret true.

Lemma parsed_tail_run vs c len (Q : bool -> CN -> Prop) :
  (forall k, vm_find (mpi_req_map c) k = first_var vs k) -> content_length vs (m_ c m_req_content_len) = Some len ->
  (forall f, f m_req_content_len = len -> f m_req_content_rcv = m_ c m_ibuffer_offset ->
    (forall x, idx x ≠ idx m_req_content_len -> idx x ≠ idx m_req_content_rcv -> idx x ≠ idx m_header_len -> f x = m_ c x) ->
    Q true (with_regs (fun _ => f) c)) ->
  wp parsed_tail c Q.
Proof.
  intros Hv Hc HQ. unfold parsed_tail, content_length in *. cn_step. apply wp_set.
  assert (forall f g (c0 : CN), with_regs f (with_regs g c0) = with_regs (fun h => f (g h)) c0) as Hrr by done.
  destruct (first_var vs (str "Content-Length")) as [d|] eqn:E.
  - destruct (cstr (d ++ [0])) as [s|] eqn:Es; [|done]. cbn [mbind option_bind] in Hc.
    destruct (atoi s) as [k|] eqn:Ek; [|done]. cbn [mbind option_bind] in Hc. injection Hc as <-.
    cn_step. eapply wp_intro; [eapply req_var_run; [done|by rw Hv|exact Es]|]. cbv beta iota.
    cn_step. cn_step. eapply wp_lift_opt; [exact Ek|]. apply wp_set. cn_step. apply wp_get. cn_step. apply wp_set. cn_step.
    rw !Hrr. apply (HQ (fun x => _)); [done|done|]. intros x H1 H2 H3. cbn. unfold upd.
    repeat match goal with |- context [(?a =? ?b)%nat] => destruct (Nat.eqb_spec a b); [done|] end. done.
  - injection Hc as <-. cn_step. eapply wp_intro; [apply req_var_none; by rw Hv|]. cbv beta iota.
    cn_step. cn_step. cn_step. apply wp_get. cn_step. apply wp_set. cn_step.
    rw !Hrr. apply (HQ (fun x => _)); [done|done|]. intros x H1 H2 H3. cbn. unfold upd.
    repeat match goal with |- context [(?a =? ?b)%nat] => destruct (Nat.eqb_spec a b); [done|] end. done.
Qed.

(** Digests of the names that [process] looks up. *)
Lemma first_var_method h m p path q hs : first_var (request_vars h m p (url_vars path q) hs) VAR_REQ_METHOD = Some m.
Proof.
  cbn [request_vars first_var fst snd].
  assert (bool_decide (sha1_spec VAR_REQ_HEADER = sha1_spec VAR_REQ_METHOD) = false) as -> by (vm_compute; reflexivity).
  by rw bool_decide_eq_true_2.
Qed.

Lemma first_var_url h m p path q hs : first_var (request_vars h m p (url_vars path q) hs) VAR_REQ_URL = Some path.
Proof.
  cbn [request_vars url_vars app first_var fst snd].
  assert (bool_decide (sha1_spec VAR_REQ_HEADER = sha1_spec VAR_REQ_URL) = false) as -> by (vm_compute; reflexivity).
  assert (bool_decide (sha1_spec VAR_REQ_METHOD = sha1_spec VAR_REQ_URL) = false) as -> by (vm_compute; reflexivity).
  assert (bool_decide (sha1_spec VAR_REQ_URI = sha1_spec VAR_REQ_URL) = false) as -> by (vm_compute; reflexivity).
  by rw bool_decide_eq_true_2.
Qed.

Lemma method_cstr m : method_of m <> 0 -> cstr (m ++ [0]) = Some m.
Proof.
  unfold method_of. destruct (list_find _ http_method_map) as [[i e]|] eqn:E; [|done]. intros _.
  apply list_find_Some in E as (Hi & <- & _). apply cstr_clean.
  assert (Forall (fun e => Forall (fun x => x <> 0) e.2) http_method_map) as Ht.
  { apply (bool_decide_unpack _). vm_compute. exact I. }
  rw Forall_lookup in Ht. by apply (Ht i).
Qed.

Lemma lines_length hs : (length hs <= length (lines (header_line <$> hs)))%nat.
Proof. induction hs as [|h hs IH]; [done|]. rw fmap_cons lines_cons length_app. cbn [length]. lia. Qed.

Lemma handle_idx x : x ∈ handles -> (idx x < 3)%nat.
Proof. unfold handles. rw !elem_of_cons. intros [->|[->|[->|Hx]]]; cbn; [lia..|by apply not_elem_of_nil in Hx]. Qed.

(** The connection holds [body] at the start of its input buffer. *)
Definition holds_body c (n : Z) oth (body : list Z) : Prop := exists own d,
  crep c n own oth /\ m_ c m_ibuffer <> 0 /\ own !! m_ c m_ibuffer = Some d /\ take (length body) d = body /\
  m_ c m_ibuffer_offset = Z.of_nat (length body) /\ m_ c m_req_data = (if decide (body = []) then 0 else 1).

Lemma holds_body_regs f c n oth body : holds_body c n oth body ->
  (forall x, x ∈ handles -> f x = m_ c x) -> f m_ibuffer_offset = m_ c m_ibuffer_offset -> f m_req_data = m_ c m_req_data ->
  holds_body (with_regs (fun _ => f) c) n oth body.
Proof.
  intros (own & d & Hr & Hh & Hd & Ht & Ho & Hrd) H1 H2 H3. exists own, d. cbn [m_ with_regs].
  rw H2 H3 (H1 m_ibuffer) //. split_and!; try done. apply (crep_ext c); try done.
Qed.

Lemma vm_adds_heap v l : v_heap v = [] -> v_heap (vm_adds v l) = [].
Proof.
  revert v. induction l as [|[k d] l IH]; intros v Hv; [done|]. cbn [vm_adds foldl fst snd]. apply IH.
  unfold vm_add, vm_store. destruct (vm_find v k); [done|]. cbn. by rw Hv.
Qed.

(** The part of [parse_req_header] that moves what follows the header to the
    front of the buffer [h]. *)
Definition move_body (h : Z) (hdr : list Z) (hl : nat) (ioff : Z) : M CN unit :=
  if Z.of_nat hl <? ioff then
    hdr ← lift_opt (mem_cpy hdr 0 hl (Z.to_nat (u32 (ioff - Z.of_nat hl))));
    hdr ← lift_opt (put_bytes hdr (Z.to_nat (u32 (ioff - Z.of_nat hl))) [0]);
    bmp (bp_store h hdr);;
    set m_ibuffer_offset (u32 (ioff - Z.of_nat hl));;
    set m_req_data 1
  else
    set m_ibuffer_offset 0;;
    set m_req_data 0.

Lemma move_body_run hdr body tl c d n own oth : crep c n own oth ->
  m_ c m_ibuffer <> 0 -> own !! m_ c m_ibuffer = Some d -> length d = length (hdr ++ body ++ tl) ->
  Z.of_nat (length hdr + length body) < n ->
  wp (move_body (m_ c m_ibuffer) (hdr ++ body ++ tl) (length hdr) (Z.of_nat (length hdr + length body))) c
    (fun _ c' => holds_body c' n oth body /\ mpi_req_map c' = mpi_req_map c /\
      m_ c' m_req_content_len = m_ c m_req_content_len).
Proof.
  intros Hr Hh Hown El Hn. destruct (crep_length _ _ _ _ _ _ Hr Hown) as [_ Hd]. rw Hd !length_app in El.
  pose proof (crep_size _ _ _ _ Hr) as [_ Hn2]. unfold move_body.
  replace (Z.of_nat (length hdr + length body) - Z.of_nat (length hdr)) with (Z.of_nat (length body)) by lia.
  rw u32_small; [|lia]. rw !Nat2Z.id.
  destruct (Z.ltb_spec (Z.of_nat (length hdr)) (Z.of_nat (length hdr + length body))) as [Hlt|Hge].
  - assert (body <> []) as Hb0 by (intros ->; simpl in *; lia).
    cn_step. eapply wp_lift_opt; [apply mem_cpy_spec; rw !length_app; lia|].
    unfold memmove. rw drop_app_length take_app_length. cbn [take app Nat.add].
    cn_step. eapply wp_lift_opt; [apply put_bytes_some; rw !length_app length_drop !length_app /=; lia|].
    rw take_app_length. cbn [length].
    cn_step. eapply wp_store_own; [exact Hr|by eexists|rw !length_app !length_drop /= !length_app !length_drop !length_app; lia|].
    intros b3 Hr3. cn_step. apply wp_set. apply wp_set. split; [|done].
    eexists _, _. split; [do 2 (apply crep_set; [|by apply no_handle; cbn; lia]); exact Hr3|].
    split_and!; [done|by apply lookup_insert_eq|by rw take_app_length|done|by rw decide_False].
  - assert (body = []) as -> by (destruct body; [done|simpl in *; lia]). cn_step. apply wp_set. apply wp_set.
    split; [|done]. exists own, d. split_and!; try done.
    by do 2 (apply crep_set; [|by apply no_handle; cbn; lia]).
Qed.

Lemma parse_req_header_run m u p path q hs body tl vs0 len c n own oth :
  crep c n own oth -> Z.of_nat (size oth) + 9 < 2 ^ 32 ->
  wp bp_alloc (mpi_bmap c) (fun h _ => h <> 0) ->
  token m -> uri_ok u path q -> token p -> Forall header_ok hs ->
  m_ c m_ibuffer <> 0 -> own !! m_ c m_ibuffer = Some (request m u p hs ++ body ++ tl) ->
  m_ c m_header_len = Z.of_nat (length (request m u p hs)) ->
  m_ c m_ibuffer_offset = Z.of_nat (length (request m u p hs ++ body)) -> m_ c m_ibuffer_offset < n ->
  mpi_req_map c = vm_adds no_vars vs0 ->
  let vs := vs0 ++ (VAR_REQ_METHOD, m) :: url_vars path q ++ (VAR_REQ_PROTOCOL, p) :: hs in
  content_length vs (m_ c m_req_content_len) = Some len ->
  wp parse_req_header c (fun r c' => r = true /\ (forall k, vm_find (mpi_req_map c') k = first_var vs k) /\
    m_ c' m_req_content_len = len /\ m_ c' m_req_content_rcv = Z.of_nat (length body) /\ holds_body c' n oth body).
Proof.
  intros Hr Hs Ha Hm Hu Hp Hhs Hh Hown Hhl Hoff Hn Hmap vs Hlen.
  destruct (crep_length _ _ _ _ _ _ Hr Hown) as [_ Hmem].
  rw (length_app (request m u p hs)) length_app in Hmem. rw (length_app (request m u p hs)) in Hoff.
  assert (exists r1, request m u p hs ++ body ++ tl = request_line m u p ++ CR :: LF :: r1 /\
    r1 = lines (header_line <$> hs) ++ CR :: LF :: body ++ tl) as (r1 & Er1 & Er1').
  { eexists. split; [|done]. unfold request, header. by rw lines_cons -?app_assoc /= -?app_assoc. }
  assert (length (request m u p hs) = length (request_line m u p) + 2 + length (lines (header_line <$> hs)) + 2)%nat as Ereq.
  { unfold request, header. rw lines_cons !(length_app (request_line m u p ++ _)) !(length_app (request_line m u p)) /=. lia. }
  assert (length u <= length (request_line m u p))%nat as Hul by (unfold request_line; rw length_app /= length_app; lia).
  unfold parse_req_header. cn_step. apply wp_get. cn_step. apply wp_get.
  destruct (Z.eqb_spec (m_ c m_ibuffer) 0); [done|]. destruct (Z.eqb_spec (m_ c m_ibuffer_offset) 0); [lia|]. cbn [negb andb].
  cn_step. eapply wp_load_same; [done|by apply lookup_union_Some_l|]. cn_step. apply wp_get. rw Hhl Nat2Z.id.
  cn_step. rw {1}Er1. eapply wp_mono; [eapply parse_request_line_run; try done; lia|].
  intros r c1 (-> & b & -> & Hr1). cn_step.
  replace (length (request_line m u p) + 2)%nat with (length (request_line m u p ++ [CR; LF]))
    by (rw (length_app (request_line m u p)) /=; lia).
  eapply wp_intro; [eapply (var_lines_run hs (request_line m u p ++ [CR; LF]) (body ++ tl)); try done|].
  { rw Er1 Er1' -app_assoc. done. }
  { by destruct (request_line m u p). }
  { rw (length_app (request_line m u p)) /=. lia. }
  { pose proof (lines_length hs). lia. }
  rw Z.eqb_refl added_bmap added_app. set (c2 := added (((VAR_REQ_METHOD, m) :: url_vars path q ++ [(VAR_REQ_PROTOCOL, p)]) ++ hs) c).
  assert (crep (with_bmap b c2) n own oth) as Hr2 by (apply (crep_ext _ _ _ _ _ Hr1); done).
  assert (forall k, vm_find (mpi_req_map c2) k = first_var vs k) as Hv.
  { intros k. unfold c2, added. cbn [mpi_req_map with_req]. rw Hmap /vm_adds -foldl_app -/(vm_adds no_vars _) vm_adds_find //.
    unfold vs. cbn [app]. by rw -!app_assoc. }
  change (wp (move_body (m_ (with_bmap b c2) m_ibuffer) (request m u p hs ++ body ++ tl) (length (request m u p hs))
    (m_ c m_ibuffer_offset);; parsed_tail) (with_bmap b c2) (fun r c' =>
      r = true /\ (forall k, vm_find (mpi_req_map c') k = first_var vs k) /\
      m_ c' m_req_content_len = len /\ m_ c' m_req_content_rcv = Z.of_nat (length body) /\ holds_body c' n oth body)).
  rw Hoff in Hn |- *. cn_step. eapply wp_mono; [eapply (move_body_run (request m u p hs) body tl (with_bmap b c2)); done|].
  intros [] c3 ((own3 & d & Hr3 & Hb3) & Hm3 & Hl3).
  apply (parsed_tail_run vs _ len); [by rw Hm3|by rw Hl3|]. intros f H1 H2 H3.
  split_and!; [done|by cbn; rw Hm3|done|cbn; rw H2; by destruct Hb3 as (_ & _ & _ & -> & _)|].
  apply holds_body_regs; [by exists own3, d|..].
  - intros x Hx%handle_idx. apply H3; cbn; lia.
  - by apply H3.
  - by apply H3.
Qed.

(** What a handler sees of the body. *)
Definition body_seen c (body : list Z) : Prop :=
  wp req_data c (fun r _ => match r with
    | Some (mem, sz) => body <> [] /\ sz = Z.of_nat (length body) /\ take (length body) mem = body
    | None => body = []
    end).

Lemma holds_body_seen c n oth body : holds_body c n oth body -> body_seen c body.
Proof.
  intros (own & d & Hr & Hh & Hd & Ht & Ho & Hrd). unfold body_seen, req_data. cn_step. apply wp_get. cn_step. apply wp_get.
  destruct (Z.eqb_spec (m_ c m_ibuffer) 0); [done|]. rw Hrd. cbn [negb andb]. case_decide as Hb; [by apply wp_ret|].
  cbn [Z.eqb negb]. cn_step. eapply wp_load_same; [done|by apply lookup_union_Some_l|]. cn_step. apply wp_get. by cn_step.
Qed.

(** The two calls of [process] that take a complete header apart. *)
Lemma complete_header_step now m u p path q hs rest c n own oth : crep c n own oth ->
  m_ c m_state = HTTPC_COMPLETE_HEADER -> m_ c m_ibuffer <> 0 ->
  own !! m_ c m_ibuffer = Some (request m u p hs ++ rest) -> m_ c m_ibuffer_offset <> 0 ->
  Z.of_nat (length (request m u p hs)) < n -> token m -> uri_ok u path q -> token p -> Forall header_ok hs ->
  process order stack1 stack2 now c = Some (0, with_regs (upd m_state HTTPC_PARSE_HEADER)
    (with_regs (upd m_header_len (Z.of_nat (length (request m u p hs))))
      (added [(VAR_REQ_HEADER, header_text_of m u p hs)] c))).
Proof.
  intros Hr Hst Hh Hown Hoff Hn Hm Hu Hp Hhs.
  assert (Z.of_nat (length (request m u p hs)) = Z.of_nat (length (header m u p hs) + 2)) as El.
  { unfold request. rw (length_app (header m u p hs)). done. }
  pose proof (complete_run (request_line m u p :: (header_line <$> hs)) rest (request m u p hs ++ rest) c n own oth Hr) as Hc.
  apply wp_run in Hc as (r & c' & E & -> & ->); try done.
  - unfold process, mbind, M_bind. cbn [get gets]. rw Hst. cbn [Z.eqb Pos.eqb HTTPC_COMPLETE_HEADER HTTPC_RECEIVE_HEADER].
    unfold mbind, M_bind. rw E. cbn [set modify mret M_ret]. by rw El.
  - constructor; [apply request_line_ok; [done|by destruct Hu|done]|]. apply Forall_fmap.
    eapply Forall_impl; [exact Hhs|]. intros h. apply header_line_ok.
  - unfold request, header. by rw -app_assoc.
  - unfold header in El. lia.
Qed.

(** C4: a request is read as it was written.  When the input buffer holds a
    well-formed request (request line, header fields, empty line) and the first
    part of its body, a known method, at most one query, and a buffer for the
    decoder, two calls of [process] report the request: every variable that the
    handler asks for is the first one the request defines under that name (the
    header text, method, decoded URI, path, query, the variables of the query,
    protocol, header fields), the content length is the announced one, and the
    body received so far is at the start of the buffer. *)
Theorem request_parsed t1 t2 m u p path q hs body tl len c n own oth :
  crep c n own oth -> Z.of_nat (size oth) + 9 < 2 ^ 32 -> wp bp_alloc (mpi_bmap c) (fun h _ => h <> 0) ->
  m_ c m_state = HTTPC_COMPLETE_HEADER -> m_ c m_ibuffer <> 0 ->
  own !! m_ c m_ibuffer = Some (request m u p hs ++ body ++ tl) ->
  m_ c m_ibuffer_offset = Z.of_nat (length (request m u p hs ++ body)) -> m_ c m_ibuffer_offset < n ->
  mpi_req_map c = no_vars ->
  token m -> method_of m <> 0 -> uri_ok u path q -> token p -> Forall header_ok hs ->
  let vs := request_vars (header_text_of m u p hs) m p (url_vars path q) hs in
  content_length vs (m_ c m_req_content_len) = Some len ->
  wp (e1 ← process order stack1 stack2 t1; e2 ← process order stack1 stack2 t2; mret (e1, e2)) c (fun r c' =>
    r = (0, HTTP_ON_REQUEST) /\ m_ c' m_state = HTTPC_RECEIVE_CONTENT /\
    (forall k, vm_find (mpi_req_map c') k = first_var vs k) /\ wp req_method c' (fun r _ => r = method_of m) /\
    m_ c' m_req_content_len = len /\ m_ c' m_req_content_rcv = Z.of_nat (length body) /\ body_seen c' body).
Proof.
  intros Hr Hs Ha Hst Hh Hown Hoff Hn Hmap Hm Hmeth Hu Hp Hhs vs Hlen.
  assert (0 < length (request m u p hs))%nat as Hr0.
  { unfold request. rw (length_app (header m u p hs)) /=. lia. }
  rw (length_app (request m u p hs)) in Hoff.
  cn_step. eapply wp_intro; [apply (complete_header_step t1 m u p path q hs (body ++ tl) c n own oth); first [assumption|lia]|].
  cn_step. set (c1 := with_regs _ _). unfold process. cn_step. apply wp_get.
  change (m_ c1 m_state) with HTTPC_PARSE_HEADER. cbn [Z.eqb Pos.eqb HTTPC_COMPLETE_HEADER HTTPC_RECEIVE_HEADER HTTPC_PARSE_HEADER].
  cn_step. eapply wp_mono; [eapply (parse_req_header_run m u p path q hs body tl [(VAR_REQ_HEADER, header_text_of m u p hs)] len c1 n own oth); try assumption|].
  - unfold c1. do 2 (apply crep_set; [|by apply no_handle; cbn; lia]). by apply crep_added.
  - reflexivity.
  - by rw (length_app (request m u p hs)).
  - unfold c1, added. cbn [mpi_req_map with_regs with_req]. by rw Hmap.
  - intros r c2 (-> & Hv & Hl & Hrcv & Hb). cbn [app] in Hv. fold (request_vars (header_text_of m u p hs) m p (url_vars path q) hs) in Hv.
    change (forall k, vm_find (mpi_req_map c2) k = first_var vs k) in Hv.
    destruct (cstr_term path) as [sp Hsp].
    assert (forall c3, mpi_req_map c3 = mpi_req_map c2 -> req_method c3 = Some (method_of m, c3)) as Hme.
    { intros c3 E3. assert (req_var VAR_REQ_METHOD c3 = Some (Some m, c3)) as Em.
      { apply (req_var_run _ m); [discriminate|rw E3 Hv; unfold vs; exact (first_var_method (header_text_of m u p hs) m p path q hs)|by apply method_cstr]. }
      unfold req_method, mbind, M_bind. by rw Em. }
    assert (req_url c2 = Some (Some sp, c2)) as Eu.
    { apply (req_var_run VAR_REQ_URL path); [discriminate|rw Hv; unfold vs; exact (first_var_url (header_text_of m u p hs) m p path q hs)|exact Hsp]. }
    cn_step. cn_step. eapply wp_intro; [exact Eu|]. cbv beta iota.
    cn_step. eapply wp_intro; [by apply Hme|]. cn_step. apply Z.eqb_neq in Hmeth. rw Hmeth. cbn [negb].
    cn_step. apply wp_set. cn_step. cn_step. split_and!; [reflexivity|reflexivity|exact Hv| |exact Hl|exact Hrcv|].
    + eapply wp_intro; [by apply Hme|reflexivity].
    + eapply holds_body_seen, holds_body_regs; [exact Hb|..]; [|reflexivity..].
      intros x Hx%handle_idx. unfold upd. destruct (Nat.eqb_spec (idx x) (idx m_state)) as [E|]; [cbn in E; lia|reflexivity].
Qed.
End runs.

(** A connection whose buffer holds [text]. *)
Definition demo_text : list Z := Eval vm_compute in
  request (str "POST") (str "/p%2F?a=1&b=x%20y") (str "HTTP/1.1") [(str "Host", str "h:80"); (str "Content-Length", str "7")] ++ str "abc".

Section setup.
Context {O B : Type} `{BPL : BufferPoolLaws B}.

Definition fill_buffer (text : list Z) (off : Z) : M (conn O B) unit :=
  h ← bmp bp_alloc;
  if h =? 0 then mret tt else set m_ibuffer h;; bmp (bp_store h text);; set m_ibuffer_offset off.

Lemma fill_buffer_rep text off (c : conn O B) n oth : crep c n ∅ oth -> m_ c m_ibuffer = 0 -> length text = Z.to_nat n ->
  wp (fill_buffer text off) c (fun _ c' => m_ c' m_ibuffer <> 0 ->
    exists own, crep c' n own oth /\ own !! m_ c' m_ibuffer = Some text).
Proof.
  intros Hr Hm Hl. unfold fill_buffer. cn_step. eapply wp_buf_alloc; [exact Hr|..].
  - intros b _. by apply wp_ret.
  - intros b h Hh H1 H2 Hb. destruct (Z.eqb_spec h 0); [lia|]. cn_step. apply wp_set.
    cn_step. eapply wp_store_own; [eapply (crep_adopt c b n ∅ oth m_ibuffer); try done|by rw lookup_insert_eq|done|].
    intros b' Hr'. apply wp_set. intros _. eexists. split; [apply crep_set; [exact Hr'|by apply no_handle; cbn; lia]|].
    cbn. by rw lookup_insert_eq.
Qed.
End setup.

Lemma wp_result {S A} (m : M S A) s d (Q : A -> S -> Prop) : wp m s Q ->
  exists a, Q a (match m s with Some (_, s') => s' | None => d end).
Proof. unfold wp. destruct (m s) as [[a s']|]; [eauto|done]. Qed.

Definition demo_start := demo_conn 2 (demo_sock true []).
Definition demo_memory : list Z := Eval vm_compute in demo_text ++ replicate (256 - length demo_text) 0.
Definition demo_ready :=
  match fill_buffer demo_memory (Z.of_nat (length demo_text)) demo_start with Some (_, c) => c | None => demo_start end.

Lemma demo_ready_rep : exists own, crep demo_ready 256 own ∅ /\ own !! m_ demo_ready m_ibuffer = Some demo_memory.
Proof.
  assert (m_ demo_ready m_ibuffer <> 0) as Hne by (vm_compute; discriminate). revert Hne. unfold demo_ready.
  destruct (wp_result _ _ demo_start _ (fill_buffer_rep demo_memory (Z.of_nat (length demo_text)) demo_start 256 ∅
    (demo_conn_rep 2 _) eq_refl eq_refl)) as [[] H]. exact H.
Qed.

Definition demo_pairs : list (list Z * list Z) := [(str "a", str "1"); (str "b", str "x y")].
Definition demo_fields : list (list Z * list Z) := [(str "Host", str "h:80"); (str "Content-Length", str "7")].
Definition demo_uri : list Z := str "/p%2F?a=1&b=x%20y".

Lemma demo_token s : bool_decide (s <> [] /\ Forall (fun x => x <> SP /\ x <> CR /\ x <> LF) s) = true -> token s.
Proof. intros H. by apply bool_decide_eq_true in H. Qed.

Lemma demo_uri_ok : uri_ok demo_uri (str "/p/") (Some demo_pairs).
Proof.
  split_and!; [by apply demo_token; vm_compute| |by vm_compute|done| |done|]; apply (bool_decide_unpack _); vm_compute; exact I.
Qed.

Lemma demo_fields_ok : Forall header_ok demo_fields.
Proof.
  repeat constructor; try (vm_compute; intros; discriminate).
Qed.

Lemma demo_length : content_length (request_vars (header_text_of (str "POST") demo_uri (str "HTTP/1.1") demo_fields)
  (str "POST") (str "HTTP/1.1") (url_vars (str "/p/") (Some demo_pairs)) demo_fields) 0 = Some 7.
Proof. vm_compute. reflexivity. Qed.

Lemma request_parsed_witness :
  wp (e1 ← process records 0 0 1; e2 ← process records 0 0 2; mret (e1, e2)) demo_ready (fun r c' =>
    r = (0, HTTP_ON_REQUEST) /\ vm_find (mpi_req_map c') (str "b") = Some (str "x y") /\
    wp req_method c' (fun r _ => r = 3) /\ m_ c' m_req_content_len = 7 /\ body_seen c' (str "abc")).
Proof.
  destruct demo_ready_rep as (own & Hr & Hown).
  eapply wp_mono; [apply (request_parsed records 0 0 1 2 (str "POST") demo_uri (str "HTTP/1.1") (str "/p/") (Some demo_pairs) demo_fields
    (str "abc") (replicate 187 0) 7 demo_ready 256 own ∅ Hr)|].
  - reflexivity.
  - vm_compute. discriminate.
  - vm_compute. reflexivity.
  - vm_compute. discriminate.
  - rw Hown. vm_compute. reflexivity.
  - vm_compute. reflexivity.
  - vm_compute. reflexivity.
  - vm_compute. reflexivity.
  - apply demo_token. vm_compute. reflexivity.
  - vm_compute. discriminate.
  - exact demo_uri_ok.
  - apply demo_token. vm_compute. reflexivity.
  - exact demo_fields_ok.
  - exact demo_length.
  - intros r c' (H1 & _ & H3 & H4 & H5 & _ & H7). split; [exact H1|]. split; [rw H3; vm_compute; reflexivity|].
    split; [exact H4|]. split; [exact H5|exact H7].
Defined.
