(* ===== verification/HttpResponse.v ===== *)
(** * What a response puts on the wire

    [rest] is the part of the document that is still to be sent.  The theorems
    follow the bytes: none is lost, repeated or reordered whatever the peer does
    with the writes, and a peer that goes on reading gets the whole document. *)
From S2P Require Import Prelude Str UrlCodec HttpParse Socket BufferPool VarMap HttpConnection HttpConnSpec HttpMachine.
Set Default Goal Selector "!".

Section wire.
Context {O B : Type} `{SL : SockOsLaws O} `{BPL : BufferPoolLaws B}.
Context (order : gmap (list Z) (list Z) -> list (list Z)) (stack1 stack2 : Z).
Abbreviation CN := (conn O B).
Implicit Types (c : CN) (oth : gmap Z (list Z)) (s : sock O).

(** ** What input leaves alone *)
Definition outside c := (mp_doc c, m_res_protocol c, m_content_type c, mpi_req_map c, mpi_res_map c, mpi_cookie_list c).
Definition keeps c c' : Prop := outside c' = outside c /\
  forall y, (3 <= idx y)%nat -> y <> m_ibuffer_offset -> y <> m_req_content_rcv -> m_ c' y = m_ c y.

Lemma outside_doc c c' : outside c' = outside c -> mp_doc c' = mp_doc c.
Proof. unfold outside. congruence. Qed.
Lemma outside_protocol c c' : outside c' = outside c -> m_res_protocol c' = m_res_protocol c.
Proof. unfold outside. congruence. Qed.
Lemma outside_res c c' : outside c' = outside c -> mpi_res_map c' = mpi_res_map c.
Proof. unfold outside. congruence. Qed.

Lemma keeps_refl c : keeps c c.
Proof. done. Qed.
Lemma keeps_trans c1 c2 c3 : keeps c1 c2 -> keeps c2 c3 -> keeps c1 c3.
Proof. intros [E1 H1] [E2 H2]. split; [congruence|]. intros y ? ? ?. by rw H2 // H1. Qed.

Lemma keeps_set x v c : (idx x < 3)%nat \/ x = m_ibuffer_offset \/ x = m_req_content_rcv -> keeps c (with_regs (upd x v) c).
Proof. intros Hx. split; [done|]. intros y H1 H2 H3. rw m_upd decide_False //. intros ->%idx_inj. destruct Hx as [?|[?|?]]; [lia|done|done]. Qed.

Lemma wlp_bmp {A} (m : M B A) c (Q : A -> CN -> Prop) : (forall a b, Q a (with_bmap b c)) -> wlp (bmp m) c Q.
Proof. intros HQ. unfold wlp, bmp. destruct (m (mpi_bmap c)) as [[a b]|]; [apply HQ|done]. Qed.

Lemma wlp_sio {A} (m : M (sock O) A) c (Q : A -> CN -> Prop) :
  (forall a s l, Q a (with_sio (Some s) l c)) -> wlp (sio m) c Q.
Proof. intros HQ. unfold wlp, sio. destruct (mp_sio c) as [s|]; [|done]. destruct (m s) as [[a s']|]; [apply HQ|done]. Qed.

Ltac wl_step :=
  cbv beta zeta;
  lazymatch goal with
  | |- wlp (mbind _ _) _ _ => apply wlp_bind
  | |- wlp (mret _) _ _ => apply wlp_ret
  | |- wlp (get _) _ _ => apply wp_wlp, wp_get
  | |- wlp (set _ _) _ _ => apply wp_wlp, wp_set
  | |- wlp (gets _) _ _ => apply wp_wlp, wp_gets
  | |- wlp bsize _ _ => apply wp_wlp, wp_gets
  | |- wlp (modify _) _ _ => apply wp_wlp, wp_modify
  | |- wlp conn_alive _ _ => apply wp_wlp, wp_alive
  | |- wlp (bmp _) _ _ => apply wlp_bmp; intros
  | |- wlp (sio _) _ _ => apply wlp_sio; intros
  | |- wlp (lift_opt _) _ _ => apply wlp_lift_opt; intros
  | |- wlp (if ?b then _ else _) _ _ => destruct b
  end.
Ltac keeps_done :=
  split; [reflexivity|]; intros y ? ? ?; cbn [m_ with_regs with_bmap with_sio]; unfold upd;
  repeat match goal with
  | |- context [(idx y =? idx ?x)%nat] =>
      let E := fresh in destruct (Nat.eqb_spec (idx y) (idx x)) as [E|_];
        [exfalso; first [cbn in E; lia | apply idx_inj in E; contradiction]|]
  end; reflexivity.

Lemma receive_keeps c : wlp receive c (fun _ c' => keeps c c').
Proof. unfold receive. repeat wl_step; keeps_done. Qed.

Lemma clear_ibuffer_keeps c : wlp clear_ibuffer c (fun _ c' => keeps c c' /\ mp_sio c' = mp_sio c).
Proof. unfold clear_ibuffer. repeat wl_step; (split; [keeps_done|reflexivity]). Qed.

Lemma receive_content_keeps c : wlp receive_content c (fun _ c' => keeps c c').
Proof.
  unfold receive_content. wl_step. eapply wlp_mono; [apply receive_keeps|]. intros r c1 Hk. repeat wl_step.
  eapply keeps_trans; [exact Hk|]. apply keeps_set. by right; right.
Qed.

(** ** Peers *)
(** What is known of the socket: [J k s], with at most [k] more reads.  When [q]
    is set the peer stays, sends nothing, and takes some of every write. *)
Record peer (q : bool) (J : nat -> sock O -> Prop) : Prop := {
  peer_weak k s : J (S k) s -> J k s;
  peer_alive k s : J k s -> q = true -> m_alive s = true;
  peer_read k s size : J (S k) s -> 0 <= size ->
    wp (read size) s (fun d s' => J k s' /\ sent s' = sent s /\ (q = true -> d = []) /\ Z.of_nat (length d) <= size);
  peer_write k s d : J k s ->
    wp (write d) s (fun r s' => J k s' /\ 0 <= r <= Z.of_nat (length d) /\ sent s' = sent s ++ take (Z.to_nat r) d /\
      (q = true -> d <> [] -> 0 < r));
  peer_blocking k s b : J k s -> wp (blocking b) s (fun _ s' => J k s' /\ sent s' = sent s)
}.

Lemma any_peer : peer false (fun _ _ => True).
Proof.
  split; try done.
  - intros k s size _ Hs. eapply wp_mono; [by apply read_spec|]. by intros d s' (? & ? & _).
  - intros k s d _. eapply wp_mono; [apply write_spec|]. by intros r s' (? & ? & _).
  - intros k s b _. eapply wp_mono; [apply blocking_spec|]. by intros _ s' (? & _).
Qed.

Section peers.
Context (q : bool) (J : nat -> sock O -> Prop) (HJ : peer q J).

(** The socket, and what the peer was sent so far. *)
Definition sock_at (k : nat) c (w : list Z) : Prop := exists s, mp_sio c = Some s /\ J k s /\ sent s = w.

Lemma sock_weak k c w : sock_at (S k) c w -> sock_at k c w.
Proof using HJ. intros (s & Es & Hs & Hw). exists s. split; [done|]. split; [by eapply peer_weak|done]. Qed.

Lemma blocking_peer b k c w n oth : conn_ok c n oth -> sock_at k c w ->
  wp (sio (blocking b)) c (fun _ c' => conn_ok c' n oth /\ sock_at k c' w /\ keeps c c').
Proof using HJ.
  intros Hok (s & Es & Hs & Hw). eapply sio_ok; [done|done|]. eapply wp_mono; [by eapply peer_blocking|].
  intros [] s' [Hs' Ew] Hok'. split; [done|]. split; [|done]. exists s'. by rw Ew.
Qed.

Lemma write_peer d k c w n oth : conn_ok c n oth -> sock_at k c w ->
  wp (sio (write d)) c (fun r c' => conn_ok c' n oth /\ sock_at k c' (w ++ take (Z.to_nat r) d) /\ keeps c c' /\
    0 <= r <= Z.of_nat (length d) /\ (q = true -> d <> [] -> 0 < r)).
Proof using HJ.
  intros Hok (s & Es & Hs & Hw). eapply sio_ok; [done|done|]. eapply wp_mono; [by eapply peer_write|].
  intros r s' (Hs' & Hr & Ew & Hq) Hok'. split; [done|]. split; [exists s'; by rw Ew Hw|done].
Qed.

Lemma receive_peer k c w n oth : conn_ok c n oth -> sock_at (S k) c w ->
  wp receive c (fun r c' => (conn_ok c' n oth /\ sock_at k c' w /\ (q = true -> r = 0)) /\ keeps c c').
Proof using HJ.
  intros Hok Hs. apply wp_wlp_and; [|apply receive_keeps]. pose proof (sock_weak _ _ _ Hs) as Hs0.
  destruct Hs as (s & Es & Hs & Hw). unfold receive. cn_step. apply wp_alive. rw Es.
  destruct (m_alive s); [|by apply wp_ret].
  cn_step. cn_step. cn_step. eapply wp_mono; [by apply ensure_ok|]. intros [] c1 (Hok1 & Es1 & Em1).
  rw Es in Es1. cn_step. cn_step. destruct (Z.eqb_spec (m_ c1 m_ibuffer) 0) as [E|E]; cbn [negb].
  { apply wp_ret. split; [done|]. split; [exists s; split_and!; [done|by eapply peer_weak|done]|done]. }
  cn_step. eapply (load_ok _ _ _ m_ibuffer); [done|done|done|done|]. intros b mem Hl Hok2.
  cn_step. eapply wp_bsize; [done|]. intros Hn. cn_step. cn_step.
  pose proof (counters_of _ _ _ Hok2) as Hc. unfold counters in Hc. cn_simpl. rw u32_small; [|lia].
  cn_step. eapply sio_ok; [exact Hok2|exact Es1|]. eapply wp_mono; [eapply (peer_read _ _ HJ); [exact Hs|lia]|].
  intros d s' (Hs' & Ew & Hq & Hd) Hok3.
  cn_step. eapply wp_lift_opt; [apply put_bytes_some; lia|].
  cn_step. eapply (store_ok _ n oth m_ibuffer); [exact Hok3|done|done|done| |].
  { rw !length_app length_take length_drop. lia. }
  intros b2 Hok4. cn_step. cn_step. cn_step. rw u32_small; [|lia].
  split; [ok_set|]. split; [exists s'; by rw Ew|]. intros Hqt. by rw (Hq Hqt).
Qed.

(** ** The document *)
(** The bytes still to be sent. *)
Definition rest c : list Z :=
  match mp_doc c with
  | Some doc => drop (Z.to_nat (m_ c m_content_sent)) (take (Z.to_nat (m_ c m_res_content_len)) doc)
  | None => []
  end.

Lemma rest_keeps c c' : keeps c c' -> rest c' = rest c /\ mp_doc c' = mp_doc c /\ m_ c' m_state = m_ c m_state.
Proof. intros [Eo Em]. unfold outside in Eo. injection Eo as Ed _ _ _ _ _. unfold rest. rw Ed !Em //; cbn; lia. Qed.

Lemma rest_length c n oth : conn_ok c n oth -> is_Some (mp_doc c) ->
  Z.of_nat (length (rest c)) = Z.max 0 (m_ c m_res_content_len - m_ c m_content_sent).
Proof.
  intros Hok [doc Ed]. pose proof (ok_doc _ _ _ Hok) as Hd. pose proof (counters_of _ _ _ Hok) as Hc.
  unfold counters in Hc. unfold doc_ok in Hd. unfold rest. rw Ed in Hd |- *. rw length_drop length_take. lia.
Qed.

Lemma send_content_document k c w doc n oth : conn_ok c n oth -> sock_at k c w -> mp_doc c = Some doc ->
  wp send_content c (fun _ c' => exists part, conn_ok c' n oth /\ sock_at k c' (w ++ part) /\
    rest c = part ++ rest c' /\ mp_doc c' = Some doc /\ m_ c' m_state = m_ c m_state /\
    (q = true -> Z.of_nat (length (rest c)) < 2 ^ 32 -> rest c <> [] -> part <> [])).
Proof using HJ.
  intros Hok Hs Ed. pose proof (counters_of _ _ _ Hok) as Hc. unfold counters in Hc.
  pose proof (ok_doc _ _ _ Hok) as Hdoc. unfold doc_ok in Hdoc. rw Ed in Hdoc.
  pose proof (rest_length _ _ _ Hok ltac:(by rw Ed)) as Hrl.
  assert (rest c = [] -> wp (mret 0 : M CN Z) c (fun _ c' => exists part, conn_ok c' n oth /\ sock_at k c' (w ++ part) /\
    rest c = part ++ rest c' /\ mp_doc c' = Some doc /\ m_ c' m_state = m_ c m_state /\
    (q = true -> Z.of_nat (length (rest c)) < 2 ^ 32 -> rest c <> [] -> part <> []))) as Hnil.
  { intros E. apply wp_ret. exists []. rw app_nil_r. by split_and!. }
  unfold send_content. cn_step. cn_step. cn_step. cn_step.
  destruct (Z.eqb_spec (m_ c m_res_content_len) 0) as [|_]; cbn [negb andb].
  { apply Hnil, nil_length_inv. lia. }
  destruct (Z.ltb_spec (m_ c m_content_sent) (m_ c m_res_content_len)) as [Hlt|]; [|apply Hnil, nil_length_inv; lia].
  cn_step. cn_step. rw Ed. set (len := m_ c m_res_content_len) in *. set (off := m_ c m_content_sent) in *.
  assert (0 <= u32 (len - off) <= len - off) as Hu.
  { pose proof (Z.mod_le (len - off) (2 ^ 32) ltac:(lia) ltac:(lia)).
    pose proof (u32_range (len - off)). unfold is_u32, u32 in *. lia. }
  assert (forall r, 0 <= r <= u32 (len - off) -> rest c = take (Z.to_nat r) (drop (Z.to_nat off) doc) ++
    drop (Z.to_nat (off + r)) (take (Z.to_nat len) doc)) as Hsplit.
  { intros r Hr. unfold rest. rw Ed -/len -/off. rw -(take_drop (Z.to_nat r) (drop (Z.to_nat off) (take _ doc))). f_equal.
    - rw !take_drop_commute take_take. by rw Nat.min_l; [|lia].
    - rw drop_drop. do 2 f_equal. lia. }
  cn_step. eapply wp_lift_opt; [apply bytes_at_some; lia|].
  cn_step. eapply wp_mono; [by eapply blocking_peer|]. intros [] c1 (Hok1 & Hs1 & Hk1).
  cn_step. eapply wp_mono; [by eapply write_peer|]. intros r c2 (Hok2 & Hs2 & Hk2 & Hr & Hq).
  rw length_take length_drop in Hr. pose proof (keeps_trans _ _ _ Hk1 Hk2) as [Eo Em]. clear Hk1 Hk2.
  assert (m_ c2 m_content_sent = off /\ m_ c2 m_res_content_len = len) as [Eoff Elen] by (split; (apply Em; [cbn; lia|done|done])).
  cn_step. cn_step. rw u64_small; [|lia].
  assert (conn_ok (with_regs (upd m_content_sent (off + r)) c2) n oth) as Hok3.
  { apply conn_ok_set; [done|cbn; lia| |done]. unfold counters.
    pose proof (counters_of _ _ _ Hok2) as Hc2. unfold counters in Hc2. cn_simpl. lia. }
  cn_step. eapply wp_mono; [eapply (blocking_peer _ k _ (w ++ _)); [exact Hok3|exact Hs2]|]. intros [] c3 (Hok4 & Hs4 & Hk4).
  cn_step. rw take_take Nat.min_l in Hs4; [|lia]. exists (take (Z.to_nat r) (drop (Z.to_nat off) doc)).
  destruct (rest_keeps _ _ Hk4) as (-> & -> & ->).
  assert (mp_doc c2 = Some doc) as Ed2 by (unfold outside in Eo; injection Eo as -> _ _ _ _ _; done).
  split_and!; [done|done| |done| |].
  - unfold rest at 2. cbn [mp_doc with_regs]. rw Ed2. cn_simpl. rw Elen. apply Hsplit. lia.
  - cn_simpl. apply Em; [cbn; lia|done|done].
  - intros Hqt Hlt32 _. assert (u32 (len - off) = len - off) as Eu by (apply u32_small; lia). rw Eu in Hq. rw Eu in Hr. assert (0 < r) as Hr0.
    { apply Hq; [done|]. intros E. apply (f_equal length) in E. rw length_take length_drop in E. simpl in E. lia. }
    intros E. apply (f_equal length) in E. rw length_take length_drop in E. simpl in E. lia.
Qed.

(** One call in state [SEND_CONTENT]: [part] was sent and [rem] is left. *)
Definition delivered (k : nat) c (w doc : list Z) n oth c' : Prop := exists part rem,
  conn_ok c' n oth /\ sock_at k c' (w ++ part) /\ rest c = part ++ rem /\
  (m_ c' m_state = HTTPC_SEND_CONTENT -> mp_doc c' = Some doc /\ rest c' = rem /\
    (q = true -> Z.of_nat (length (rest c)) < 2 ^ 32 -> part <> [])) /\
  (m_ c' m_state <> HTTPC_SEND_CONTENT -> rem = [] \/
    (q = false /\ exists s, mp_sio c' = Some s /\ m_alive s = false)).

Lemma delivered_set k c w doc n oth c' v : delivered k c w doc n oth c' ->
  delivered k c w doc n oth (with_regs (upd m_req_data v) c').
Proof.
  intros (part & rem & Hok & Hrest). exists part, rem. split; [by apply set_data_ok|exact Hrest].
Qed.

(** The document is complete: a next request or the end. *)
Lemma document_end now k c c1 w part doc n oth : conn_ok c1 n oth -> sock_at k c1 (w ++ part) -> rest c = part ->
  wp (ctype ← req_var (str "Connection");
      match ctype with
      | Some ct =>
          if strcasecmp_eq ct (str "keep-alive") then
            clean_members now;; set m_state HTTPC_RECEIVE_HEADER;; mret HTTP_ON_CLOSE_DOCUMENT
          else set m_state HTTPC_CLOSE;; mret 0
      | None => set m_state HTTPC_CLOSE;; mret 0
      end) c1 (fun _ c' => delivered k c w doc n oth c').
Proof.
  intros Hok Hs Er.
  assert (forall c2 v, conn_ok c2 n oth -> sock_at k c2 (w ++ part) -> v <> HTTPC_SEND_CONTENT -> 0 <= v <= 7 ->
    delivered k c w doc n oth (with_regs (upd m_state v) c2)) as Hend.
  { intros c2 v Hok2 Hs2 Hv Hv7. exists part, []. rw app_nil_r. split_and!; [by apply set_state_ok|done|done|done|by left]. }
  cn_step. eapply wp_mono; [by eapply req_var_inert|]. intros ct c2 ->.
  destruct ct as [ct|]; [destruct (strcasecmp_eq ct (str "keep-alive"))|]; [|cn_steps; by apply Hend..].
  cn_step. eapply wp_mono; [by apply clean_members_ok|]. intros [] c3 (Hok3 & Es3 & _). cn_steps.
  apply Hend; [done| |done|done]. destruct Hs as (s & Es & Hs). exists s. by rw Es3.
Qed.

Lemma process_document now k c w doc n oth : conn_ok c n oth -> m_ c m_state = HTTPC_SEND_CONTENT ->
  mp_doc c = Some doc -> sock_at (S k) c w ->
  wp (process order stack1 stack2 now) c (fun _ c' => delivered k c w doc n oth c').
Proof using HJ.
  intros Hok E Ed Hs. unfold process. cn_step. cn_step. rw E.
  cbn [Z.eqb Pos.eqb HTTPC_RECEIVE_HEADER HTTPC_COMPLETE_HEADER HTTPC_PARSE_HEADER HTTPC_RECEIVE_CONTENT HTTPC_SEND_HEADER HTTPC_SEND_CONTENT].
  cn_step. eapply wp_mono; [apply wp_wlp_and; [by apply clear_ibuffer_ok|apply clear_ibuffer_keeps]|].
  intros [] c1 [[Hok1 _] [Hk1 Es1]]. unfold receive_content. cn_step. cn_step.
  assert (sock_at (S k) c1 w) as Hs1 by (destruct Hs as (s & Es & Hs); exists s; by rw Es1).
  eapply wp_mono; [by eapply receive_peer|]. intros r c2 ((Hok2 & Hs2 & Hr) & Hk2).
  cn_step. cn_step. cn_step. cn_step. cn_step. set (c3 := with_regs _ c2).
  assert (keeps c c3) as Hk3 by (eapply keeps_trans; [exact Hk1|eapply keeps_trans; [exact Hk2|apply keeps_set; by right; right]]).
  assert (conn_ok c3 n oth) as Hok3 by (unfold c3; ok_set).
  assert (sock_at k c3 w) as Hs3 by exact Hs2. clearbody c3. clear c1 c2 Hok1 Hok2 Hs1 Hs2 Hk1 Hk2 Es1.
  destruct (rest_keeps _ _ Hk3) as (Erest & Ed3 & Est). rw Ed in Ed3. rw E in Est.
  destruct (Z.eqb_spec r 0) as [->|Hr0]; cbn [negb].
  2:{ cn_steps. exists [], (rest c). rw app_nil_r.
      split_and!; [by apply set_data_ok|done|done|intros _; split; [done|]; split; [exact Erest|]; intros Hq; by destruct Hr0; apply Hr|by cn_simpl]. }
  cn_step. apply wp_alive. cn_step. pose proof Hs3 as (s & Es & Hs' & Hw). rw Es.
  eapply (wp_mono _ _ (fun _ c' => delivered k c w doc n oth c')).
  2:{ intros e c4 Hd. cn_steps. by apply delivered_set. }
  destruct (m_alive s) eqn:Ea.
  2:{ cn_steps. exists [], (rest c). rw app_nil_r. split_and!; [by apply set_state_ok|done|done|done|]. intros _. right.
      split; [|by exists s]. destruct q eqn:Eq; [|done]. by rw (peer_alive _ _ HJ _ _ Hs') in Ea. }
  cn_step. eapply wp_mono; [by eapply send_content_document|]. intros _ c4 (part & Hok4 & Hs4 & Er4 & Ed4 & Est4 & Hq).
  rw Erest in Er4 Hq. cn_step. cn_step. cn_step. cn_step.
  pose proof (rest_length _ _ _ Hok4 ltac:(by rw Ed4)) as Hl4.
  destruct (Z.ltb_spec (m_ c4 m_content_sent) (m_ c4 m_res_content_len)) as [Hlt|Hge].
  - cn_step. cn_step. rw Ed4. cn_step. exists part, (rest c4). split_and!; [done|done|done| |congruence].
    intros _. split; [done|]. split; [done|]. intros Hqt Hlt32. apply Hq; [done|done|]. intros E0.
    rw Er4 in E0. apply app_nil in E0 as [_ E0]. rw E0 in Hl4. simpl in Hl4. lia.
  - eapply (document_end now k c c4 w part); [done|done|]. rw Er4.
    assert (rest c4 = []) as -> by (apply nil_length_inv; lia). by rw app_nil_r.
Qed.

(** Calls at the times [nows], as long as the document lasts. *)
Fixpoint deliver (nows : list Z) : M CN unit :=
  match nows with
  | [] => mret tt
  | now :: nows =>
      st ← get m_state;
      if st =? HTTPC_SEND_CONTENT then process order stack1 stack2 now;; deliver nows else mret tt
  end.

Lemma deliver_document nows c w doc n oth : conn_ok c n oth -> m_ c m_state = HTTPC_SEND_CONTENT ->
  mp_doc c = Some doc -> sock_at (length nows) c w ->
  wp (deliver nows) c (fun _ c' => exists part rem, conn_ok c' n oth /\ sock_at 0 c' (w ++ part) /\ rest c = part ++ rem /\
    (m_ c' m_state = HTTPC_SEND_CONTENT -> mp_doc c' = Some doc /\ rest c' = rem /\
      (q = true -> Z.of_nat (length (rest c)) < 2 ^ 32 -> (length nows <= length part)%nat)) /\
    (m_ c' m_state <> HTTPC_SEND_CONTENT -> rem = [] \/
      (q = false /\ exists s, mp_sio c' = Some s /\ m_alive s = false))).
Proof using HJ.
  revert c w. induction nows as [|now nows IH]; intros c w Hok E Ed Hs; cbn [deliver].
  { apply wp_ret. exists [], (rest c). rw app_nil_r. split_and!; done. }
  cn_step. cn_step. rw E Z.eqb_refl. cn_step. eapply wp_mono; [by eapply (process_document now (length nows))|].
  intros _ c1 (part & rem & Hok1 & Hs1 & Er & Hin & Hout). cbn beta.
  destruct (decide (m_ c1 m_state = HTTPC_SEND_CONTENT)) as [E1|E1].
  - destruct (Hin E1) as (Ed1 & Er1 & Hp). eapply wp_mono; [by eapply IH|].
    intros _ c2 (part2 & rem2 & Hok2 & Hs2 & Er2 & Hin2 & Hout2). exists (part ++ part2), rem2.
    rw app_assoc. split_and!; [done|done|by rw Er -Er1 Er2 app_assoc| |done]. intros E2.
    destruct (Hin2 E2) as (Ed2 & Er2' & Hp2). split; [done|]. split; [done|]. intros Hq Hl. specialize (Hp Hq Hl).
    rw length_app. assert (length (rest c) = length part + length (rest c1))%nat as El by (rw Er Er1 length_app; done).
    specialize (Hp2 Hq ltac:(lia)). simpl. destruct part; [done|]. simpl. lia.
  - eapply (wp_mono _ _ (fun _ c' => c' = c1)).
    { destruct nows; cbn [deliver]; [by apply wp_ret|]. cn_step. cn_step.
      destruct (Z.eqb_spec (m_ c1 m_state) HTTPC_SEND_CONTENT); [done|by apply wp_ret]. }
    intros _ c2 ->. exists part, rem. split_and!; try done. destruct Hs1 as (s & Es & Hs1 & Hw). exists s.
    split; [done|]. split; [|done]. clear -Hs1 HJ. induction (length nows) as [|k IHk]; [done|].
    by apply IHk, (peer_weak _ _ HJ).
Qed.

(** ** The header *)
(** The variables of the response: those the handler set, then the type, the
    length and the cookies. *)
Definition set_var (v : vars) (kd : list Z * list Z) : vars := (vm_set v kd.1 (http_res_var stack1 stack2 kd.1 kd.2)).2.
Definition own_headers c : list (list Z * list Z) :=
  match m_content_type c with Some t => [(str "Content-Type", t)] | None => [] end ++
  (if m_ c m_res_content_len =? 0 then [] else [(str "Content-Length", decimal (m_ c m_res_content_len))]) ++
  ((fun ck => (str "Set-Cookie", default [] (cstr ck))) <$> mpi_cookie_list c).
Definition response_vars c : vars := foldl set_var (mpi_res_map c) (own_headers c).

(** A record is written if it fits into the buffer. *)
Definition add_text (n : Z) (acc d : list Z) : list Z :=
  match header_text d with
  | Some t => if Z.of_nat (length acc) + Z.of_nat (length t) <? n then acc ++ t else acc
  | None => acc
  end.
Definition header_bytes (n : Z) (l : list (list Z)) : list Z := foldl (add_text n) [] l.

Lemma cookie_vars_run l c : Forall (fun ck => is_Some (cstr ck)) l ->
  cookie_vars stack1 stack2 l c =
    Some (tt, with_res (foldl set_var (mpi_res_map c) ((fun ck => (str "Set-Cookie", default [] (cstr ck))) <$> l)) c).
Proof.
  revert c. induction l as [|ck l IH]; intros c; cbn [cookie_vars fmap list_fmap foldl]; [by destruct c|].
  intros [[v Ev] Hl]%Forall_cons. unfold mbind, M_bind, lift_opt. rw Ev. cbn [fmap option_fmap option_map default].
  unfold res_var at 1. unfold set_var at 2. cbn [fst snd].
  destruct (vm_set (mpi_res_map c) _ _) as [ok v']. cbn [snd]. by rw IH.
Qed.

(** The header records, written into the buffer one after the other. *)
Lemma put_headers_run l acc mem c n own oth : crep c n own oth -> m_ c m_oheader <> 0 ->
  own !! m_ c m_oheader = Some mem -> m_ c m_oheader_offset = Z.of_nat (length acc) ->
  take (length acc) mem = acc -> Z.of_nat (length acc) <= n ->
  wp (put_headers l) c (fun _ c' => exists own' mem', crep c' n own' oth /\ own' !! m_ c' m_oheader = Some mem' /\
    m_ c' m_oheader = m_ c m_oheader /\
    m_ c' m_oheader_offset = Z.of_nat (length (foldl (add_text n) acc l)) /\
    take (length (foldl (add_text n) acc l)) mem' = foldl (add_text n) acc l /\
    Z.of_nat (length (foldl (add_text n) acc l)) <= n /\ outside c' = outside c /\ mp_sio c' = mp_sio c /\
    forall y, (3 <= idx y)%nat -> y <> m_oheader_offset -> m_ c' y = m_ c y).
Proof.
  revert acc mem c own. induction l as [|d l IH]; intros acc mem c own Hr Hh Hm Hoff Hacc Hn; cbn [put_headers foldl].
  { apply wp_ret. exists own, mem. by split_and!. }
  destruct (crep_length _ _ _ _ _ _ Hr Hm) as [_ Hl]. destruct (crep_size _ _ _ _ Hr) as [Hbs Hn2].
  destruct (header_text_some d) as [t Et].
  cn_step. unfold put_header. cn_step. apply wp_get. cn_step. unfold ptr. destruct (Z.eqb_spec (m_ c m_oheader) 0); [done|].
  cn_step. eapply wp_load_same; [done|by apply lookup_union_Some_l|]. cn_step. cbv beta iota.
  cn_step. apply wp_gets. rw Hbs. cn_step. eapply wp_lift_opt; [exact Et|]. cn_step. apply wp_get. rw Hoff. cbv zeta.
  unfold add_text at 2 4 6 8. rw Et.
  replace (Z.of_nat (length t) <? (if Z.of_nat (length acc) <? n then n - Z.of_nat (length acc) else 0))
    with (Z.of_nat (length acc) + Z.of_nat (length t) <? n).
  2:{ destruct (Z.ltb_spec (Z.of_nat (length acc)) n), (Z.ltb_spec (Z.of_nat (length acc) + Z.of_nat (length t)) n);
        symmetry; first [apply Z.ltb_lt; lia|apply Z.ltb_ge; lia]. }
  destruct (Z.ltb_spec (Z.of_nat (length acc) + Z.of_nat (length t)) n) as [Hfit|Hno].
  2:{ apply wp_ret. by eapply IH. }
  rw Nat2Z.id. cn_step. eapply wp_lift_opt; [apply put_bytes_some; rw length_app /=; lia|].
  cn_step. eapply wp_store_own; [exact Hr|by eexists| |].
  { rw !length_app length_take length_drop /=. lia. }
  intros b Hr'. cn_step. cbn beta. rw u32_small; [|lia].
  eapply wp_mono.
  { eapply (IH (acc ++ t)); [apply crep_set; [exact Hr'|by apply no_handle; cbn; lia]|done|by apply lookup_insert_eq| | |].
    - cn_simpl. rw length_app. lia.
    - rw Hacc -!app_assoc app_assoc take_app_length. done.
    - rw length_app. lia. }
  intros _ c' (own' & mem' & H1 & H2 & H3 & H4 & H5 & H6 & H7 & H8 & H9). exists own', mem'.
  split_and!; try done. intros y Hy Hne. rw H9 // m_upd decide_False //. by intros ?%idx_inj.
Qed.

(** The output header has a buffer, or gets one. *)
Lemma oheader_ready c n own oth (Q : unit -> CN -> Prop) : crep c n own oth ->
  (m_ c m_oheader = 0 -> wp bp_alloc (mpi_bmap c) (fun h _ => h <> 0)) ->
  (forall c' own' mem, crep c' n own' oth -> m_ c' m_oheader <> 0 -> own' !! m_ c' m_oheader = Some mem ->
    mp_sio c' = mp_sio c -> outside c' = outside c -> (forall y, (3 <= idx y)%nat -> m_ c' y = m_ c y) -> Q tt c') ->
  wp (if m_ c m_oheader =? 0 then h ← bmp bp_alloc; set m_oheader h else mret tt) c Q.
Proof.
  intros Hr Ha HQ. destruct (Z.eqb_spec (m_ c m_oheader) 0) as [E|E].
  - cn_step. eapply (wp_mono _ _ (fun h c' => h <> 0 /\ (h <> 0 -> Q tt (with_regs (upd m_oheader h) c')))).
    2:{ intros h c' [H1 H2]. by apply wp_set, H2. }
    apply wp_and; [by apply wp_bmp, Ha|]. eapply wp_buf_alloc; [done|by intros|]. intros b h Hh H1 H2 Hb _.
    eapply HQ; [eapply (crep_adopt c b n own oth m_oheader); try done; lia|cbn; lia|by apply lookup_insert_eq|done|done|].
    intros y Hy. rw m_upd decide_False //. intros ->%idx_inj. cbn in Hy. lia.
  - apply wp_ret. destruct (crep_handle _ _ _ _ m_oheader Hr) as (mem & Hm & _); [done|done|]. by eapply HQ.
Qed.

Lemma res_var_run name v c : res_var stack1 stack2 name v c =
  Some ((vm_set (mpi_res_map c) name (http_res_var stack1 stack2 name v)).1, with_res (set_var (mpi_res_map c) (name, v)) c).
Proof. unfold res_var, set_var. cbn [fst snd]. by destruct (vm_set _ _ _). Qed.

Lemma prepare_run c n own oth : crep c n own oth -> Forall (fun ck => is_Some (cstr ck)) (mpi_cookie_list c) ->
  (m_ c m_oheader = 0 -> wp bp_alloc (mpi_bmap c) (fun h _ => h <> 0)) -> m_ c m_oheader_offset = 0 ->
  wp (prepare_res_header order stack1 stack2) c (fun _ c' => exists own' mem',
    let hb := header_bytes n (order (v_map (response_vars c))) in
    crep c' n own' oth /\ m_ c' m_oheader <> 0 /\ own' !! m_ c' m_oheader = Some mem' /\
    m_ c' m_oheader_offset = Z.of_nat (length hb) /\ take (length hb) mem' = hb /\
    mp_sio c' = mp_sio c /\ m_res_protocol c' = m_res_protocol c /\
    forall y, (3 <= idx y)%nat -> y <> m_oheader_offset -> y <> m_res_hdr_prepared -> m_ c' y = m_ c y).
Proof.
  intros Hr Hck Ha Hoff. pose proof (crep_size _ _ _ _ Hr) as [_ Hn]. unfold prepare_res_header. cn_step. cn_step.
  set (l1 := match m_content_type c with Some t => [(str "Content-Type", t)] | None => [] end).
  set (l2 := if m_ c m_res_content_len =? 0 then [] else [(str "Content-Length", decimal (m_ c m_res_content_len))]).
  cn_step. eapply (wp_mono _ _ (fun _ c' => c' = with_res (foldl set_var (mpi_res_map c) l1) c)).
  { unfold l1. destruct (m_content_type c); [|apply wp_ret; by destruct c]. cn_step.
    eapply wp_intro; [apply res_var_run|]. by apply wp_ret. }
  intros _ c1 ->. cn_step. apply wp_get. cn_step.
  eapply (wp_mono _ _ (fun _ c' => c' = with_res (foldl set_var (mpi_res_map c) (l1 ++ l2)) c)).
  { unfold l2. apply wp_when; cn_simpl; intros E; [apply negb_true_iff in E|apply negb_false_iff in E]; rw E.
    - cn_step. eapply wp_intro; [apply res_var_run|]. apply wp_ret. by rw foldl_app.
    - by rw app_nil_r. }
  intros _ c1 ->. cn_step. cn_step. cn_step.
  eapply (wp_mono _ _ (fun _ c' => c' = with_cookies [] (c_cookie_heap c) (with_res (response_vars c) c))).
  { apply wp_when; cn_simpl; intros E.
    - cn_step. eapply wp_intro; [by apply cookie_vars_run|]. apply wp_modify. unfold response_vars, own_headers.
      rw -/l1 -/l2 app_assoc (foldl_app _ (l1 ++ l2)). done.
    - apply negb_false_iff, Nat.eqb_eq, nil_length_inv in E. unfold response_vars, own_headers. rw E -/l1 -/l2 app_nil_r.
      by destruct c; cbn in *; subst. }
  intros _ c1 ->. set (c1 := with_cookies _ _ _). cn_step. apply wp_get. cn_step.
  assert (crep c1 n own oth) as Hr1 by (by apply (crep_ext c)).
  eapply oheader_ready; [exact Hr1|exact Ha|]. intros c2 own2 mem Hr2 Hh2 Hm2 Es2 Eo2 Em2.
  cn_step. apply wp_get. apply wp_when; intros E; [|by apply negb_false_iff, Z.eqb_eq in E].
  cn_step. apply wp_gets. assert (mpi_res_map c2 = response_vars c) as -> by by rw (outside_res _ _ Eo2).
  cn_step. eapply wp_mono; [apply (put_headers_run _ [] mem _ n own2 oth Hr2 Hh2 Hm2); [|done|cbn; lia]|].
  { rw Em2; [exact Hoff|cbn; lia]. }
  intros _ c3 (own3 & mem3 & H1 & H2 & H3 & H4 & H5 & H6 & H7 & H8 & H9). apply wp_set. exists own3, mem3.
  split_and!; [apply crep_set; [exact H1|apply no_handle; cbn; lia]|by cn_simpl; rw H3|done|done|done|by cbn; rw H8 Es2| |].
  - cbn. by rw (outside_protocol _ _ H7) (outside_protocol _ _ Eo2).
  - intros y Hy1 Hy2 Hy3. rw m_upd decide_False; [by rw H9 // Em2|by intros ?%idx_inj].
Qed.

(** A peer that takes whatever it is sent. *)
Context (Hfull : forall k s d, J k s -> wp (write d) s (fun r _ => r = Z.of_nat (length d))).

Lemma sio_crep {A} (m : M (sock O) A) k c w n own oth (P : A -> list Z -> Prop) : crep c n own oth -> sock_at k c w ->
  (forall s, J k s -> sent s = w -> wp m s (fun a s' => J k s' /\ P a (sent s'))) ->
  wp (sio m) c (fun a c' => exists w', crep c' n own oth /\ sock_at k c' w' /\ P a w' /\ m_ c' = m_ c /\ outside c' = outside c).
Proof.
  intros Hr (s & Es & Hs & Hw) Hm. eapply wp_sio; [done|]. eapply wp_mono; [by apply Hm|]. intros a s' [Hs' HP].
  exists (sent s'). split_and!; [by apply (crep_ext c)|by exists s'|done..].
Qed.

Lemma write_full d k c w n own oth : crep c n own oth -> sock_at k c w ->
  wp (sio (write d)) c (fun r c' => exists w', crep c' n own oth /\ sock_at k c' w' /\
    (r = Z.of_nat (length d) /\ w' = w ++ d) /\ m_ c' = m_ c /\ outside c' = outside c).
Proof using HJ Hfull.
  intros Hr Hs. apply (sio_crep (write d) k c w n own oth (fun r w' => r = Z.of_nat (length d) /\ w' = w ++ d) Hr Hs).
  intros s Hs' Hw. eapply wp_mono; [apply wp_and; [by eapply (peer_write _ _ HJ)|by eapply Hfull]|].
  intros r s' [(Hs2 & _ & Ew & _) ->]. split; [done|]. split; [done|]. by rw Ew Hw Nat2Z.id firstn_all.
Qed.

Lemma blocking_full b k c w n own oth : crep c n own oth -> sock_at k c w ->
  wp (sio (blocking b)) c (fun _ c' => exists w', crep c' n own oth /\ sock_at k c' w' /\ w' = w /\ m_ c' = m_ c /\ outside c' = outside c).
Proof using HJ.
  intros Hr Hs. apply (sio_crep (blocking b) k c w n own oth (fun _ w' => w' = w) Hr Hs).
  intros s Hs' Hw. eapply wp_mono; [by eapply (peer_blocking _ _ HJ)|]. intros _ s' [Hs2 Ew]. split; [done|]. by rw Ew.
Qed.

Lemma send_header_run k c w n oth : conn_ok c n oth -> sock_at k c w ->
  m_ c m_response_code <> 0 -> m_ c m_res_hdr_prepared = 0 -> m_ c m_oheader_sent = 0 -> m_ c m_oheader_offset = 0 ->
  (m_ c m_oheader = 0 -> wp bp_alloc (mpi_bmap c) (fun h _ => h <> 0)) ->
  wp (send_header order stack1 stack2) c (fun _ c' =>
    sock_at k c' (w ++ status_line (m_res_protocol c) (m_ c m_response_code) ++
      header_bytes n (order (v_map (response_vars c))) ++ [CR; LF]) /\
    m_ c' m_oheader_sent = m_ c' m_oheader_offset).
Proof using HJ Hfull.
  intros Hok Hs Hcode Hprep Hsent Hoff Ha. pose proof Hok as [[own Hr] Hcnt Hp _ Hck]. unfold counters in Hcnt.
  unfold send_header. cn_step. apply wp_get. destruct (Z.eqb_spec (m_ c m_response_code) 0); [done|]. cbn [negb].
  cn_step. apply wp_get. cn_step. rw Hprep. cbn [Z.eqb when].
  eapply wp_mono; [by eapply prepare_run|]. set (hb := header_bytes n _).
  intros _ c1 (own1 & mem & Hr1 & Hh1 & Hm1 & Hoff1 & Ht1 & Es1 & Ep1 & Em1).
  assert (sock_at k c1 w) as Hs1 by (destruct Hs as (s & Es & ?); exists s; by rw Es1).
  destruct (crep_length _ _ _ _ _ _ Hr1 Hm1) as [_ Hl1]. pose proof (crep_size _ _ _ _ Hr1) as [_ Hn].
  assert (length hb <= length mem)%nat as Hlb by (rw -Ht1 length_take; lia).
  assert (m_ c1 m_oheader_sent = 0 /\ m_ c1 m_response_code = m_ c m_response_code) as [Esent1 Ecode1].
  { split; [rw Em1 //|apply Em1; [|done|done]]; cbn; lia. }
  cn_step. eapply wp_mono; [by eapply blocking_full|]. intros _ c2 (w2 & Hr2 & Hs2 & -> & Em2 & Eo2).
  cn_step. apply wp_get. rw Em2 Esent1. cn_step. cbn [Z.eqb when]. unfold send_status.
  cn_step. apply wp_gets. cn_step. apply wp_get. rw (outside_protocol _ _ Eo2) Ep1 Em2 Ecode1.
  destruct (Nat.ltb_spec (length (status_line (m_res_protocol c) (m_ c m_response_code))) 128) as [_|Hge].
  2:{ pose proof (status_line_length (m_res_protocol c) (m_ c m_response_code)). lia. }
  cn_step. eapply wp_mono; [by eapply write_full|]. intros _ c3 (w3 & Hr3 & Hs3 & [_ ->] & Em3 & _). cn_step.
  cn_step. apply wp_get. cn_step. apply wp_get. rw Em3 Em2 Hoff1. cn_step.
  set (wh := w ++ status_line _ _) in *. set (len := Z.of_nat (length hb)).
  eapply (wp_mono _ _ (fun r c' => exists own4, crep c' n own4 oth /\ sock_at k c' (wh ++ hb) /\ r = len /\
    m_ c' m_oheader_sent = len /\ m_ c' m_oheader_offset = len)).
  { unfold len. destruct (Z.eqb_spec (Z.of_nat (length hb)) 0) as [E|E]; cbn [negb].
    - apply wp_ret. exists own1. assert (hb = []) as E0 by (apply nil_length_inv; lia). rw E0 app_nil_r Em3 Em2 Esent1 Hoff1 E0.
      by split_and!.
    - cn_step. unfold ptr. destruct (Z.eqb_spec (m_ c1 m_oheader) 0); [done|].
      cn_step. eapply wp_load_same; [done|by apply lookup_union_Some_l|]. cn_step. cbv beta iota.
      rw Z.sub_0_r u32_small; [|lia]. rw Nat2Z.id.
      cn_step. eapply wp_lift_opt; [apply bytes_at_some; cbn; lia|]. cbn [Z.to_nat]. rw drop_0 Ht1.
      cn_step. eapply wp_mono; [by eapply write_full|]. intros r c4 (w4 & Hr4 & Hs4 & [-> ->] & Em4 & _).
      cn_step. apply wp_set. cn_step. exists own1. rw Z.add_0_l u32_small; [|lia].
      split_and!; [apply crep_set; [done|apply no_handle; cbn; lia]|done|done|done|]. cn_simpl. by rw Em4 Em3 Em2. }
  intros r c4 (own4 & Hr4 & Hs4 & -> & Esent4 & Eoff4). cn_step. apply wp_get. rw Esent4.
  cn_step. rw Z.eqb_refl. cbn [when].
  cn_step. eapply wp_mono; [by eapply write_full|]. intros r c5 (w5 & Hr5 & Hs5 & [-> ->] & Em5 & _).
  cn_step. apply wp_set. apply wp_set.
  cn_step. eapply wp_mono; [eapply blocking_full; [|exact Hs5]|].
  { do 2 (apply crep_set; [|apply no_handle; cbn; lia]). exact Hr5. }
  intros _ c6 (w6 & _ & Hs6 & -> & Em6 & _). cn_step.
  assert (forall a b d e : list Z, a ++ b ++ d ++ e = ((a ++ b) ++ d) ++ e) as -> by (intros; by rw -!app_assoc).
  split; [exact Hs6|].
  rw Em6. cn_simpl. by rw Em5.
Qed.
End peers.
End wire.

(** ** The text of a response variable *)
Lemma cstr_strncpy k s rest : (length s < k)%nat -> Forall (fun x => x <> 0) s -> cstr (strncpy k s ++ rest) = Some s.
Proof.
  intros Hl Hs. unfold strncpy. rw take_ge; [|lia]. replace (k - length s)%nat with (S (k - length s - 1)) by lia.
  cbn [replicate]. rw -app_assoc. by apply cstr_clean.
Qed.

Lemma http_res_var_text stack1 stack2 name value : (length name < 127)%nat -> (length value < 383)%nat ->
  Forall (fun x => x <> 0) name -> Forall (fun x => x <> 0) value ->
  header_text (http_res_var stack1 stack2 name value) = Some (name ++ str ": " ++ value ++ [CR; LF]).
Proof.
  intros Hn Hv H1 H2. unfold header_text, http_res_var. rw -app_assoc cstr_strncpy; [|done|done]. cbn [mbind option_bind].
  assert (length (strncpy 127 name ++ [stack1]) = 128%nat) as El.
  { unfold strncpy. rw !length_app length_take length_replicate. cbn [length]. lia. }
  rw (assoc_L (++) (strncpy 127 name)) -El drop_app_length -app_assoc cstr_strncpy; [|lia|done]. reflexivity.
Qed.

(** ** The properties *)
Section theorems.
Context {O B : Type} `{SL : SockOsLaws O} `{BPL : BufferPoolLaws B}.
Context (order : gmap (list Z) (list Z) -> list (list Z)) (stack1 stack2 : Z).
Implicit Types (c : conn O B) (oth : gmap Z (list Z)).

(** C6: no byte of a document is lost, repeated or reordered.  Whatever the peer
    takes of each write, and however many calls of [process] are made, what went
    out is a prefix of what was left of the document; while the connection stays
    in [SEND_CONTENT] the rest is what it still holds, and it only leaves that
    state when nothing is left or the peer is gone. *)
Theorem document_sent nows s c n oth :
  conn_ok c n oth -> m_ c m_state = HTTPC_SEND_CONTENT -> is_Some (mp_doc c) -> mp_sio c = Some s ->
  wp (deliver order stack1 stack2 nows) c (fun _ c' => exists s' part rem,
    conn_ok c' n oth /\ mp_sio c' = Some s' /\ sent s' = sent s ++ part /\ rest c = part ++ rem /\
    (m_ c' m_state = HTTPC_SEND_CONTENT -> rest c' = rem) /\
    (m_ c' m_state <> HTTPC_SEND_CONTENT -> rem = [] \/ m_alive s' = false)).
Proof.
  intros Hok E [doc Ed] Es.
  eapply wp_mono; [eapply (deliver_document order stack1 stack2 false _ any_peer nows c (sent s)); try done; by exists s|].
  intros _ c' (part & rem & Hok' & (s' & Es' & _ & Hw) & Hr & Hin & Hout). exists s', part, rem. split_and!; try done.
  - intros E'. by destruct (Hin E') as (_ & ? & _).
  - intros E'. destruct (Hout E') as [?|[_ (s2 & Es2 & Ha)]]; [by left|right; congruence].
Qed.

(** C8: a peer that stays and takes some of every write gets the whole document,
    within one call of [process] for each byte and one more. *)
Theorem document_delivered nows J s c n oth : peer true J -> J (length nows) s ->
  conn_ok c n oth -> m_ c m_state = HTTPC_SEND_CONTENT -> is_Some (mp_doc c) -> mp_sio c = Some s ->
  Z.of_nat (length (rest c)) < 2 ^ 32 -> (length (rest c) < length nows)%nat ->
  wp (deliver order stack1 stack2 nows) c (fun _ c' => exists s',
    m_ c' m_state <> HTTPC_SEND_CONTENT /\ mp_sio c' = Some s' /\ sent s' = sent s ++ rest c).
Proof.
  intros HJ Hs Hok E [doc Ed] Es H32 Hlen.
  eapply wp_mono; [eapply (deliver_document order stack1 stack2 true J HJ nows c (sent s)); try done; by exists s|].
  intros _ c' (part & rem & Hok' & (s' & Es' & _ & Hw) & Hr & Hin & Hout).
  assert (m_ c' m_state <> HTTPC_SEND_CONTENT) as Hne.
  { intros E'. destruct (Hin E') as (_ & _ & Hp). specialize (Hp eq_refl H32).
    apply (f_equal length) in Hr. rw length_app in Hr. lia. }
  exists s'. split_and!; [done|done|]. destruct (Hout Hne) as [->|[? _]]; [|done]. by rw Hr app_nil_r.
Qed.

(** C7: the header goes out as it is specified: the status line, the variables of
    the response in the order of the map, each as a line if it fits into the
    buffer, and an empty line; afterwards the header counts as sent. *)
Theorem header_sent q J k s c n oth : peer q J ->
  (forall k s d, J k s -> wp (write d) s (fun r _ => r = Z.of_nat (length d))) ->
  conn_ok c n oth -> mp_sio c = Some s -> J k s ->
  m_ c m_response_code <> 0 -> m_ c m_res_hdr_prepared = 0 -> m_ c m_oheader_sent = 0 -> m_ c m_oheader_offset = 0 ->
  (m_ c m_oheader = 0 -> wp bp_alloc (mpi_bmap c) (fun h _ => h <> 0)) ->
  wp (send_header order stack1 stack2) c (fun _ c' => exists s', mp_sio c' = Some s' /\
    sent s' = sent s ++ status_line (m_res_protocol c) (m_ c m_response_code) ++
      header_bytes n (order (v_map (response_vars stack1 stack2 c))) ++ [CR; LF] /\
    m_ c' m_oheader_sent = m_ c' m_oheader_offset).
Proof.
  intros HJ Hfull Hok Es Hs H1 H2 H3 H4 Ha.
  eapply wp_mono; [eapply (send_header_run order stack1 stack2 q J HJ Hfull k c (sent s)); try done; by exists s|].
  intros _ c' [(s' & Es' & _ & Hw) E]. by exists s'.
Qed.
End theorems.

(** ** A peer that takes everything and sends nothing, for the examples *)
Record sink := mkSink { sink_out : list Z }.
#[global] Instance sink_os : SockOs sink := {
  os_read o _ := (-1, [], o); os_write o d := (Z.of_nat (length d), mkSink (sink_out o ++ d));
  ssl_read o _ := (-1, [], o); ssl_write o d := (Z.of_nat (length d), mkSink (sink_out o ++ d));
  ssl_error _ := 2; os_set_blocking o _ := o; os_shutdown o := o; os_sent := sink_out
}.
#[global] Instance sink_laws : SockOsLaws sink.
Proof.
  assert (forall (o : sink) (d : list Z), Z.of_nat (length d) <= Z.of_nat (length d) /\
    sink_out o ++ d = sink_out o ++ take (Z.to_nat (Z.of_nat (length d))) d) as Hw.
  { intros. rw Nat2Z.id firstn_all. split; [lia|done]. }
  split; [intros o n Hn; cbn; split_and!; (done || lia)|exact Hw|intros o n Hn; cbn; split_and!; (done || lia)|exact Hw|done|done].
Qed.

Definition sinking (_ : nat) (s : sock sink) : Prop := m_socket s <> 0 /\ m_mode s = SOCKET_IO_TCP /\ m_alive s = true.

Lemma sinking_write k s d : sinking k s ->
  wp (write d) s (fun r s' => r = Z.of_nat (length d) /\ sinking k s' /\ sent s' = sent s ++ d).
Proof.
  intros (Hs & Hm & Ha). unfold wp, write. apply Z.eqb_neq in Hs as E. rw E Ha Hm. cbn [negb andb].
  destruct (Z.eqb_spec (Z.of_nat (length d)) 0) as [E0|E0]; cbn [negb].
  - split; [done|]. split; [done|]. assert (d = []) as -> by (apply nil_length_inv; lia). by rw app_nil_r.
  - cbn. destruct (Z.ltb_spec 0 (Z.of_nat (length d))); [|lia]. done.
Qed.

Lemma sink_peer : peer true sinking.
Proof.
  split; try done.
  - by intros k s (_ & _ & ?) _.
  - intros k s size (Hs & Hm & Ha) Hsz. unfold wp, read. apply Z.eqb_neq in Hs as E. rw E Ha Hm. cbn [negb andb].
    destruct (size =? 0); cbn [negb]; (split_and!; [done|done|done|cbn; lia]).
  - intros k s d Hs. eapply wp_mono; [by apply (sinking_write k)|]. intros r s' (-> & Hs' & Ew).
    split_and!; [done|lia|lia|by rw Ew Nat2Z.id firstn_all|]. intros _. destruct d; [done|]. simpl. lia.
  - intros k s b (Hs & Hm & Ha). unfold wp, blocking. by destruct (m_socket s =? 0).
Qed.

(** A connection about to send [doc]. *)
Definition demo_sending {O} (s : sock O) (doc : list Z) :=
  with_regs (upd m_res_content_len (Z.of_nat (length doc))) (with_doc (str "HTTP/1.1") (Some (str "text/plain")) (Some doc)
    (mkConn O _ (Some s) [] (demo_pool 256 40) no_vars no_vars [] [] (upd m_state HTTPC_SEND_CONTENT (upd m_response_code 200 (fun _ => 0)))
      (str "HTTP/1.1") None None)).

Lemma demo_sending_ok {O} (s : sock O) doc : Z.of_nat (length doc) < 2 ^ 64 -> conn_ok (demo_sending s doc) 256 ∅.
Proof.
  intros Hd. split; [|unfold counters, demo_sending, HTTPC_SEND_CONTENT; cn_simpl; lia|cbn; lia|unfold doc_ok, demo_sending; cn_simpl; lia|done].
  exists ∅. apply demo_rep; [done|]. intros x Hx. unfold handles in Hx. rw !elem_of_cons in Hx.
  destruct Hx as [->|[->|[->|Hx]]]; [done..|by apply not_elem_of_nil in Hx].
Qed.

Definition demo_doc : list Z := str "hello world".
(** The peer takes four bytes of each write. *)
Definition demo_slow : sock script := mkSock script 5 SOCKET_IO_TCP true (mkScript (replicate 9 None) 4 []).
Definition demo_sink : sock sink := mkSock sink 5 SOCKET_IO_TCP true (mkSink []).

Lemma document_sent_witness :
  wp (deliver records 0 0 [1; 2]) (demo_sending demo_slow demo_doc) (fun _ c' => exists s' part rem,
    conn_ok c' 256 ∅ /\ mp_sio c' = Some s' /\ sent s' = part /\ demo_doc = part ++ rem /\
    (m_ c' m_state = HTTPC_SEND_CONTENT -> rest c' = rem) /\
    (m_ c' m_state <> HTTPC_SEND_CONTENT -> rem = [] \/ m_alive s' = false)).
Proof.
  eapply wp_mono; [apply (document_sent records 0 0 [1; 2] demo_slow (demo_sending demo_slow demo_doc) 256 ∅)|].
  - by apply demo_sending_ok.
  - reflexivity.
  - by eexists.
  - reflexivity.
  - intros _ c' (s' & part & rem & H1 & H2 & H3 & H4 & H5). exists s', part, rem.
    split; [exact H1|]. split; [exact H2|]. split; [exact H3|]. split; [exact H4|exact H5].
Defined.

Lemma document_delivered_witness :
  wp (deliver records 0 0 [1; 2; 3; 4; 5; 6; 7; 8; 9; 10; 11; 12]) (demo_sending demo_sink demo_doc) (fun _ c' => exists s',
    m_ c' m_state <> HTTPC_SEND_CONTENT /\ mp_sio c' = Some s' /\ sent s' = demo_doc).
Proof.
  eapply wp_mono; [apply (document_delivered records 0 0 [1; 2; 3; 4; 5; 6; 7; 8; 9; 10; 11; 12] sinking demo_sink
    (demo_sending demo_sink demo_doc) 256 ∅ sink_peer)|].
  - done.
  - by apply demo_sending_ok.
  - reflexivity.
  - by eexists.
  - reflexivity.
  - vm_compute. reflexivity.
  - vm_compute. lia.
  - intros _ c' (s' & H1 & H2 & H3). exists s'. split; [exact H1|]. split; [exact H2|]. rw H3. vm_compute. reflexivity.
Defined.

Lemma header_sent_witness :
  wp (send_header records 0 0) (demo_sending demo_sink demo_doc) (fun _ c' => exists s', mp_sio c' = Some s' /\
    sent s' = str "HTTP/1.1 200 OK" ++ [CR; LF] ++ str "Content-Length: 11" ++ [CR; LF] ++
      str "Content-Type: text/plain" ++ [CR; LF; CR; LF]).
Proof.
  eapply wp_mono; [apply (header_sent records 0 0 true sinking 0 demo_sink (demo_sending demo_sink demo_doc) 256 ∅ sink_peer)|].
  - intros k s d Hs. eapply wp_mono; [by eapply (sinking_write k)|]. by intros r s' (-> & _).
  - by apply demo_sending_ok.
  - reflexivity.
  - done.
  - vm_compute. discriminate.
  - reflexivity.
  - reflexivity.
  - reflexivity.
  - intros _. vm_compute. discriminate.
  - intros _ c' (s' & Es & Ew & _). exists s'. split; [exact Es|]. rw Ew. vm_compute. reflexivity.
Defined.

(** ** What goes wrong *)
Definition on_wire {O B} `{SockOs O} (m : M (conn O B) Z) (c : conn O B) : option (list Z * Z * Z) :=
  match m c with
  | Some (_, c') => (fun s => (sent s, m_ c' m_oheader_sent, m_ c' m_oheader_offset)) <$> mp_sio c'
  | None => None
  end.
Definition demo_peer (w : Z) : sock script := mkSock script 5 SOCKET_IO_TCP true (mkScript [] w []).
Definition demo_header : list Z := str "HTTP/1.1 200 OK" ++ [CR; LF] ++ str "Content-Length: 11" ++ [CR; LF] ++
  str "Content-Type: text/plain" ++ [CR; LF; CR; LF].

(** defects of the response header.  When the header needs two writes it is
    complete on the wire but counts as unsent, and the next call sends text of
    the header again, into the document; of two cookies only the last is sent. *)
Example response_defects :
  on_wire (send_header records 0 0;; send_header records 0 0) (demo_sending (demo_peer 30) demo_doc) =
    Some (demo_header, 16, 46) /\
  on_wire (send_header records 0 0;; send_header records 0 0;; send_header records 0 0) (demo_sending (demo_peer 30) demo_doc) =
    Some (demo_header ++ str "11" ++ [CR; LF] ++ str "Content-Type: text/plain" ++ [CR; LF], 46, 92) /\
  on_wire (res_cookie (str "a") (str "1") 0 None None None None;; res_cookie (str "b") (str "2") 0 None None None None;;
           send_header records 0 0) (demo_sending (demo_peer 1000) demo_doc) =
    Some (str "HTTP/1.1 200 OK" ++ [CR; LF] ++ str "Set-Cookie: b=2" ++ [CR; LF] ++ str "Content-Length: 11" ++ [CR; LF] ++
      str "Content-Type: text/plain" ++ [CR; LF; CR; LF], 63, 63).
Proof. split_and!; vm_compute; reflexivity. Qed.
