(* ===== verification/HttpServer.v ===== *)
(** * HTTP server (io/libnet/http.cpp, [cHttpServer])

    The connections are records of a three-column list: unused, pending and
    busy ones.  The server thread adds connections, the workers take pending
    ones, serve them and put them back.  The list is the interface of
    ColumnList.v, the connections are those of HttpConnection.v, and they share
    one buffer map.  The repository (which makes connection objects), the task
    maker and the handlers are parameters: their answers are part of the state. *)
From S2P Require Import Prelude Memory Mutex LinkedList LinkedListSpec ColumnList ListClient.
From S2P Require Import Str Socket BufferPool VarMap HttpConnection.
Set Default Goal Selector "!".

Definition CFREE : Z := 0.
Definition CPENDING : Z := 1.
Definition CBUSY : Z := 2.
Definition HTTP_MAX_EVENTS : Z := 10.

Record http_connection := mkRec { p_httpc : Z; r_state : Z }.
Definition CONNECTION_SIZE : Z := 16.
Definition set_rstate (st : Z) (r : http_connection) : http_connection := mkRec (p_httpc r) st.

Record http_server {O B : Type} := mkServer {
  m_is_init : bool;
  m_num_workers : Z;
  m_active_workers : Z;
  m_max_workers : Z;
  m_max_connections : Z;
  m_connection_timeout : Z;
  m_num_connections : Z;
  m_event : Z -> option Z;               (* the user data of the handlers that are set *)
  s_bmap : B;                            (* the buffer map the connections share *)
  s_objs : gmap Z (conn O B);            (* the connection objects, by address *)
  s_next : Z;                            (* the address of the next one *)
  s_repo : list (option (list bool * list bool * list bool)); (* the repository's answers, with those of the object's heaps *)
  s_tasks : list bool;                   (* the answers of the task maker *)
  s_refused : list (sock O)              (* sockets closed without a connection *)
}.
Arguments http_server : clear implicits.

Section server.
Context {O B C : Type} `{SockOs O} `{BufferPool B} `{ColumnList C http_connection}.
Context (order : gmap (list Z) (list Z) -> list (list Z)) (stack1 stack2 : Z).
(** What a handler does with the connection: event and user data. *)
Context (handler : Z -> Z -> M (conn O B) unit).
Abbreviation HS := (http_server O B).
Abbreviation SM := (M (C * HS)).

Definition srv {A} (f : HS -> A) : SM A := gets (fun s => f s.2).
Definition upd_srv (f : HS -> HS) : SM unit := modify (fun s => (s.1, f s.2)).

Definition set_counts (w a n : Z) (x : HS) : HS :=
  mkServer O B (m_is_init x) w a (m_max_workers x) (m_max_connections x) (m_connection_timeout x) n (m_event x)
    (s_bmap x) (s_objs x) (s_next x) (s_repo x) (s_tasks x) (s_refused x).
Definition set_objs (b : B) (objs : gmap Z (conn O B)) (next : Z) (x : HS) : HS :=
  mkServer O B (m_is_init x) (m_num_workers x) (m_active_workers x) (m_max_workers x) (m_max_connections x)
    (m_connection_timeout x) (m_num_connections x) (m_event x) b objs next (s_repo x) (s_tasks x) (s_refused x).
Definition set_answers repo tasks refused (x : HS) : HS :=
  mkServer O B (m_is_init x) (m_num_workers x) (m_active_workers x) (m_max_workers x) (m_max_connections x)
    (m_connection_timeout x) (m_num_connections x) (m_event x) (s_bmap x) (s_objs x) (s_next x) repo tasks refused.
Definition set_event (e : Z) (u : option Z) (x : HS) : HS :=
  mkServer O B (m_is_init x) (m_num_workers x) (m_active_workers x) (m_max_workers x) (m_max_connections x)
    (m_connection_timeout x) (m_num_connections x) (fun i => if i =? e then u else m_event x i)
    (s_bmap x) (s_objs x) (s_next x) (s_repo x) (s_tasks x) (s_refused x).

(** A call on a connection object; it sees the buffer map as it is now. *)
Definition obj {A} (p : Z) (m : M (conn O B) A) : SM A := fun s =>
  match s_objs s.2 !! p with
  | Some c =>
      match m (with_bmap (s_bmap s.2) c) with
      | Some (a, c') => Some (a, (s.1, set_objs (mpi_bmap c') (<[p := c']> (s_objs s.2)) (s_next s.2) s.2))
      | None => None
      end
  | None => None
  end.

(** ** The repository *)
(** [object_by_handle(m_hconnection, RF_CLONE)]: a new object after [OCTL_INIT]. *)
Definition new_connection (now : Z) (b : B) (seeds : list bool * list bool * list bool) : conn O B :=
  mkConn O B None [] b (mkVars ∅ seeds.1.1) (mkVars ∅ seeds.1.2) [] seeds.2 (upd m_stime now (fun _ => 0))
    (str "HTTP/1.1") None None.
Definition object_by_handle (now : Z) : SM Z :=
  l ← srv s_repo;
  tasks ← srv s_tasks;
  refused ← srv s_refused;
  upd_srv (set_answers (tail l) tasks refused);;
  match l with
  | Some seeds :: _ =>
      p ← srv s_next;
      upd_srv (fun x => set_objs (s_bmap x) (<[p := new_connection now (s_bmap x) seeds]> (s_objs x)) (p + 1) x);;
      mret p
  | _ => mret 0
  end.
(** [OCTL_UNINIT] closes the connection. *)
Definition object_release (p : Z) : SM unit :=
  obj p HttpConnection.close;;
  upd_srv (fun x => set_objs (s_bmap x) (delete p (s_objs x)) (s_next x) x).

(** ** Events *)
Definition on_event (evt : Z) (udata : option Z) : SM unit :=
  when (evt <? HTTP_MAX_EVENTS) (upd_srv (set_event evt udata)).
Definition call_event_handler (evt p : Z) : SM bool :=
  if negb (evt =? 0) && (evt <? HTTP_MAX_EVENTS) && negb (p =? 0) then
    h ← srv (fun x => m_event x evt);
    match h with
    | Some udata => obj p (handler evt udata);; mret true
    | None => mret false
    end
  else mret false.

(** ** Workers *)
(** The prologue of [_http_worker_thread]. *)
Definition worker_begin : SM Z :=
  num ← srv m_active_workers;
  upd_srv (fun x => set_counts (u32 (m_num_workers x + 1)) (u32 (m_active_workers x + 1)) (m_num_connections x) x);;
  mret num.
Definition worker_end : SM unit :=
  upd_srv (fun x => set_counts (if negb (m_num_workers x =? 0) then m_num_workers x - 1 else m_num_workers x)
    (m_active_workers x) (m_num_connections x) x).
(** After [TO_IDLE] rounds without a connection. *)
Definition worker_idle : SM unit :=
  upd_srv (fun x => set_counts (m_num_workers x)
    (if negb (m_active_workers x =? 0) then m_active_workers x - 1 else m_active_workers x) (m_num_connections x) x).
Definition start_worker : SM bool :=
  repo ← srv s_repo;
  l ← srv s_tasks;
  refused ← srv s_refused;
  upd_srv (set_answers repo (tail l) refused);;
  mret (default false (head l)).

(** ** Connections *)
Definition alloc_connection (now hlock : Z) : SM Z :=
  lst (cl_col CFREE hlock);;
  '(r, _) ← lst (cl_first hlock);
  if negb (r =? 0) then
    lst (cl_write r (set_rstate CPENDING));;
    lst (cl_mov r CPENDING hlock);;
    mret r
  else
    p ← object_by_handle now;
    if negb (p =? 0) then
      lst (cl_col CPENDING hlock);;
      lst (cl_add (mkRec p CPENDING) CONNECTION_SIZE hlock)
    else mret 0.

Definition release_connection (rec : Z) : SM unit :=
  hm ← lst (cl_lock 0);
  rd ← lst (cl_read rec);
  lst (cl_col (r_state rd) hm);;
  ok ← lst (cl_sel rec hm);
  when (negb (ok =? 0))
    (when (negb (p_httpc rd =? 0)) (obj (p_httpc rd) HttpConnection.close);;
     lst (cl_mov rec CFREE hm);;
     mret tt);;
  lst (cl_unlock hm).

(** The wait for a new worker ends when it has counted itself; if the task could
    not be started it never ends. *)
Definition add_worker (nphttpc nbhttpc : Z) : SM unit :=
  nw ← srv m_num_workers;
  mw ← srv m_max_workers;
  when ((nw =? 0) || ((u32 (nw - nbhttpc) <? nphttpc) && (nw <? mw)))
    (ok ← start_worker;
     if (ok : bool) then worker_begin;; mret tt else undefined).

(** [p_sio] is what [listen] returned. *)
Definition add_connection (now : Z) (p_sio : option (sock O)) : SM Z :=
  match p_sio with
  | Some s =>
      hm ← lst (cl_lock 0);
      r ← alloc_connection now hm;
      (if negb (r =? 0) then
         rd ← lst (cl_read r);
         b ← srv s_bmap;
         timeout ← srv m_connection_timeout;
         ok ← obj (p_httpc rd) (_init s b timeout now);
         if (ok : bool) then
           lst (cl_col CPENDING hm);;
           np ← lst (cl_cnt hm);
           upd_srv (fun x => set_counts (m_num_workers x) (m_active_workers x) np x);;
           lst (cl_col CBUSY hm);;
           nb ← lst (cl_cnt hm);
           add_worker np nb
         else release_connection r
       else upd_srv (fun x => set_answers (s_repo x) (s_tasks x) (s :: s_refused x) x));;
      lst (cl_unlock hm);;
      mret r
  | None => mret 0
  end.

(** One round of [http_server_thread]. *)
Definition server_round (now : Z) (p_sio : option (sock O)) : SM bool :=
  init ← srv m_is_init;
  n ← srv m_num_connections;
  mx ← srv m_max_connections;
  if init && (n <? mx) then r ← add_connection now p_sio; mret (negb (r =? 0)) else mret false.

Definition get_connection : SM Z :=
  hm ← lst (cl_lock 0);
  lst (cl_col CPENDING hm);;
  '(rec, _) ← lst (cl_first hm);
  when (negb (rec =? 0))
    (ok ← lst (cl_mov rec CBUSY hm);
     when (negb (ok =? 0)) (lst (cl_write rec (set_rstate CBUSY))));;
  lst (cl_unlock hm);;
  mret rec.

Definition pending_connection (rec : Z) : SM unit :=
  hm ← lst (cl_lock 0);
  rd ← lst (cl_read rec);
  when (r_state rd =? CBUSY)
    (ok ← lst (cl_mov rec CPENDING hm);
     when (negb (ok =? 0)) (lst (cl_write rec (set_rstate CPENDING))));;
  lst (cl_unlock hm).

(** What a worker does with the connection it took: whether it is to be kept. *)
Definition serve_connection (now rec : Z) : SM bool :=
  rd ← lst (cl_read rec);
  if negb (p_httpc rd =? 0) then
    a ← obj (p_httpc rd) conn_alive;
    if (a : bool) then
      evt ← obj (p_httpc rd) (process order stack1 stack2 now);
      call_event_handler evt (p_httpc rd);;
      mret true
    else call_event_handler HTTP_ON_CLOSE (p_httpc rd);; mret false
  else mret false.
Definition put_connection (keep : bool) (rec : Z) : SM unit :=
  if keep then pending_connection rec else release_connection rec.

(** One round of the loop of [_http_worker_thread]: whether there was a connection. *)
Definition worker_round (now : Z) : SM bool :=
  rec ← get_connection;
  if negb (rec =? 0) then
    keep ← serve_connection now rec;
    put_connection keep rec;;
    mret true
  else mret false.

(** ** Shutting down *)
(** [while((rec = first))]; every round deletes a record. *)
Fixpoint clear_column_loop (fuel : nat) (col hlock : Z) : SM unit :=
  match fuel with
  | 0%nat => undefined
  | S fuel =>
      '(rec, _) ← lst (cl_first hlock);
      if negb (rec =? 0) then
        rd ← lst (cl_read rec);
        when (negb (p_httpc rd =? 0))
          (when ((col =? CBUSY) || (col =? CPENDING)) (call_event_handler HTTP_ON_CLOSE (p_httpc rd);; mret tt);;
           object_release (p_httpc rd));;
        lst (cl_del hlock);;
        clear_column_loop fuel col hlock
      else mret tt
  end.
Definition clear_column (fuel : nat) (col hlock : Z) : SM unit :=
  lst (cl_col col hlock);;
  clear_column_loop fuel col hlock.
Definition remove_all_connections (fuel : nat) : SM unit :=
  hm ← lst (cl_lock 0);
  clear_column fuel CFREE hm;;
  clear_column fuel CBUSY hm;;
  clear_column fuel CPENDING hm;;
  lst (cl_unlock hm).
End server.
