(* ===== verification/HttpServerProof.v ===== *)
(** * The HTTP server: workers and connections (io/libnet/http.cpp)

    The server thread and the workers run operations of HttpServer.v in any
    order; each of them is atomic, as it holds the list's lock, or works on the
    one connection that the worker took.  [server_inv] is the invariant of
    these interleavings: the records of the three columns, the connection
    objects behind them, and the buffers of the shared map, each of which
    belongs to one object. *)
From S2P Require Import Prelude Memory Mutex LinkedList LinkedListSpec LinkedListEdit ColumnList ListClient.
From S2P Require Import Str Socket BufferPool VarMap HttpConnection HttpConnSpec HttpMachine HttpServer.
Set Default Goal Selector "!".

(** ** The connection objects and the shared buffer map *)
Section objects.
Context {O B : Type} `{SL : SockOsLaws O} `{BPL : BufferPoolLaws B}.
Abbreviation CN := (conn O B).
Implicit Types (c d : CN) (b : B) (n : Z) (objs : gmap Z CN) (m own oth : gmap Z (list Z)).

(** What [conn_ok] says of the members other than the buffers. *)
Definition loose c n : Prop :=
  counters (m_ c) n /\ (length (m_res_protocol c) <= 15)%nat /\ doc_ok c /\
  Forall (fun ck => is_Some (cstr ck)) (mpi_cookie_list c).

(** Every buffer in use is a handle of exactly one object. *)
Definition handles_in c m : Prop :=
  (forall x, x ∈ handles -> m_ c x <> 0 -> is_Some (m !! m_ c x)) /\
  (forall x y, x ∈ handles -> y ∈ handles -> x <> y -> m_ c x = m_ c y -> m_ c x = 0).
Definition apart c d : Prop :=
  forall x y, x ∈ handles -> y ∈ handles -> m_ c x = m_ d y -> m_ c x = 0.
Definition owned objs m : Prop :=
  forall h, is_Some (m !! h) -> exists p c x, objs !! p = Some c /\ x ∈ handles /\ m_ c x = h.

Definition objs_ok n b objs : Prop := exists m,
  bp_rep b n m /\
  (forall p c, objs !! p = Some c -> loose c n /\ handles_in c m) /\
  (forall p q c d, p <> q -> objs !! p = Some c -> objs !! q = Some d -> apart c d) /\
  owned objs m.

(** Closed: no socket, no buffers. *)
Definition idle c : Prop := mp_sio c = None /\ forall x, x ∈ handles -> m_ c x = 0.

Definition mine c m : gmap Z (list Z) := filter (fun kv => kv.1 ∈ m_ c <$> handles) m.
Definition rest c m : gmap Z (list Z) := filter (fun kv => kv.1 ∉ m_ c <$> handles) m.

Lemma mine_rest c m : mine c m ∪ rest c m = m.
Proof. apply map_filter_union_complement. Qed.

Lemma lookup_mine c m h : is_Some (mine c m !! h) <-> is_Some (m !! h) /\ exists x, x ∈ handles /\ m_ c x = h.
Proof.
  split.
  - intros [v [Hm Hin]%map_lookup_filter_Some]. apply list_elem_of_fmap in Hin as (x & Ex & Hx). split; [by eexists|].
    by exists x.
  - intros [[v Hv] (x & Hx & <-)]. exists v. apply map_lookup_filter_Some. split; [done|]. by apply (list_elem_of_fmap_2 (m_ c)).
Qed.

Lemma lookup_rest c m h : is_Some (m !! h) -> (forall x, x ∈ handles -> m_ c x <> h) -> is_Some (rest c m !! h).
Proof.
  intros [v Hv] Hn. exists v. apply map_lookup_filter_Some. split; [done|].
  intros (x & Ex & Hx)%list_elem_of_fmap. by apply (Hn x).
Qed.

Lemma rest_other c m h : is_Some (rest c m !! h) -> is_Some (m !! h) /\ forall x, x ∈ handles -> m_ c x <> h.
Proof.
  intros [v [Hv Hn]%map_lookup_filter_Some]. split; [by eexists|]. intros x Hx <-. by apply Hn, (list_elem_of_fmap_2 (m_ c)).
Qed.

Lemma owned_size objs m : owned objs m -> (size m <= 3 * size objs)%nat.
Proof.
  intros Ho. rw -size_dom. etrans; [apply (subseteq_size _ (list_to_set (mjoin ((fun kv => m_ kv.2 <$> handles) <$> map_to_list objs)) : gset Z))|].
  - intros h Hh. apply elem_of_dom, Ho in Hh as (p & c & x & Hp & Hx & <-). apply elem_of_list_to_set, list_elem_of_join.
    exists (m_ c <$> handles). split; [by apply list_elem_of_fmap_2|]. apply list_elem_of_fmap. exists (p, c).
    split; [done|]. by apply elem_of_map_to_list.
  - etrans; [apply size_list_to_set_le|]. rw -length_map_to_list. induction (map_to_list objs) as [|e l IH]; [done|].
    rw fmap_cons. cbn [mjoin list_join].
    rw length_app length_fmap. cbn [length handles].
    etrans; [apply Nat.add_le_mono_l, IH|lia].
Qed.

(** One object and everybody else's buffers. *)
Lemma focus n b objs p c : objs_ok n b objs -> objs !! p = Some c -> Z.of_nat (size objs) < 2 ^ 29 ->
  exists oth, conn_ok (with_bmap b c) n oth /\ Z.of_nat (size oth) + 9 < 2 ^ 32 /\
    forall c', conn_ok c' n oth -> objs_ok n (mpi_bmap c') (<[p := c']> objs).
Proof.
  intros (m & Hb & Hc & Hap & Ho) Hp Hsz. destruct (Hc _ _ Hp) as [(H1 & H2 & H3 & H4) [Hh Hi]].
  assert (size (rest c m) <= 3 * size objs)%nat as Hm.
  { etrans; [|by apply owned_size]. rw -!size_dom. apply subseteq_size, dom_filter_subseteq. }
  exists (rest c m). split; [split; try done|split; [lia|]].
  - exists (mine c m). split_and!.
    + by rw mine_rest.
    + apply map_disjoint_filter_complement.
    + lia.
    + intros x Hx Hne. apply lookup_mine. split; [by apply Hh|by exists x].
    + by intros h [_ ?]%lookup_mine.
    + done.
  - intros c' Hok. pose proof Hok as [[own' Hr] G1 G2 G3 G4]. destruct Hr as (Hb' & Hd & _ & K1 & K2 & K3).
    assert (forall q d, p <> q -> objs !! q = Some d -> forall y, y ∈ handles -> m_ d y <> 0 -> is_Some (rest c m !! m_ d y)) as Hoth.
    { intros q d Hpq Hq y Hy Hne. destruct (Hc _ _ Hq) as [_ [Hhd _]]. apply lookup_rest; [by apply Hhd|].
      intros x Hx Ex. apply Hne. rw -Ex. by apply (Hap _ _ _ _ Hpq Hp Hq x y). }
    assert (forall h, is_Some (own' !! h) -> is_Some (rest c m !! h) -> False) as Hdj.
    { intros h [u Hu] [v Hv]. by eapply map_disjoint_spec. }
    exists (own' ∪ rest c m). split; [done|split_and!].
    + intros q d. rw lookup_insert. case_decide as E.
      * intros [= <-]. split; [done|]. split; [|done]. intros x Hx Hne. destruct (K1 x Hx Hne) as [v Hv]. exists v.
        by apply lookup_union_Some_l.
      * intros Hq. destruct (Hc _ _ Hq) as [HL [Hhd Hid]]. split; [done|]. split; [|done]. intros y Hy Hne.
        destruct (Hoth q d E Hq y Hy Hne) as [v Hv]. exists v. by apply lookup_union_Some_r.
    + intros q1 q2 d1 d2 Hne. rw !lookup_insert. repeat case_decide; subst; try done.
      * intros [= <-] Hq x y Hx Hy E. destruct (decide (m_ c' x = 0)) as [|Hn]; [done|]. exfalso. apply (Hdj (m_ c' x)); [by apply K1|].
        rw E. rw E in Hn. by eapply (Hoth q2 d2).
      * intros Hq [= <-] x y Hx Hy E. destruct (decide (m_ d1 x = 0)) as [|Hn]; [done|]. exfalso. apply (Hdj (m_ c' y)).
        { apply K1; [done|]. by rw -E. }
        rw -E. by eapply (Hoth q1 d1).
      * by apply Hap.
    + intros h [v [Hv|[_ Hv]]%lookup_union_Some_raw].
      * destruct (K2 h) as (x & Hx & Ex); [by eexists|]. exists p, c', x. by rw lookup_insert_eq.
      * destruct (rest_other c m h) as [Hmh Hnot]; [by eexists|]. destruct (Ho h Hmh) as (q & d & x & Hq & Hx & Ex).
        exists q, d, x. rw lookup_insert_ne; [done|]. intros <-. rw Hp in Hq. injection Hq as <-. by apply (Hnot x).
Qed.

(** A new object, and the end of a closed one. *)
Lemma objs_new n b objs p c : objs_ok n b objs -> objs !! p = None -> loose c n -> idle c -> objs_ok n b (<[p := c]> objs).
Proof.
  intros (m & Hb & Hc & Hap & Ho) Hp HL [_ Hz]. exists m. split; [done|]. split_and!.
  - intros q d. rw lookup_insert. case_decide; [|by apply Hc]. intros [= <-]. split; [done|]. split.
    + intros x Hx Hne. by rw Hz in Hne.
    + intros x y Hx _ _ _. by apply Hz.
  - intros q1 q2 d1 d2 Hne. rw !lookup_insert. repeat case_decide; subst; try done.
    + intros [= <-] Hq x y Hx Hy _. by apply Hz.
    + intros Hq [= <-] x y Hx Hy E. by rw E Hz.
    + by apply Hap.
  - intros h (q & d & x & Hq & Hx & Ex)%Ho. exists q, d, x. rw lookup_insert_ne; [done|]. intros <-. by rw Hp in Hq.
Qed.

Lemma objs_gone n b objs p c : objs_ok n b objs -> objs !! p = Some c -> idle c -> objs_ok n b (delete p objs).
Proof.
  intros (m & Hb & Hc & Hap & Ho) Hp [_ Hz]. exists m. split; [done|]. split_and!.
  - intros q d [_ Hq]%lookup_delete_Some. by apply (Hc q).
  - intros q1 q2 d1 d2 Hne [_ H1]%lookup_delete_Some [_ H2]%lookup_delete_Some. by apply (Hap q1 q2).
  - intros h Hh. pose proof (Ho h Hh) as (q & d & x & Hq & Hx & Ex). exists q, d, x. rw lookup_delete_ne; [done|].
    intros <-. rw Hp in Hq. injection Hq as <-. rw Hz // in Ex. subst h. destruct Hh as [v Hv].
    destruct (bp_rep_handle _ _ _ _ _ Hb Hv). lia.
Qed.

(** When every object is closed, every buffer is back. *)
Lemma objs_idle n b objs : objs_ok n b objs -> (forall p c, objs !! p = Some c -> idle c) -> bp_rep b n ∅.
Proof.
  intros (m & Hb & _ & _ & Ho) Hi. replace ∅ with m; [done|]. apply map_empty. intros h.
  destruct (m !! h) as [v|] eqn:E; [|done]. destruct (Ho h) as (p & c & x & Hp & Hx & Ex); [by eexists|].
  destruct (Hi _ _ Hp) as [_ Hz]. rw Hz // in Ex. subst h. destruct (bp_rep_handle _ _ _ _ _ Hb E). lia.
Qed.

(** A new connection for an idle object. *)
Lemma release_nothing c : (forall x, x ∈ handles -> m_ c x = 0) -> release_buffers c = Some (tt, c).
Proof.
  intros Hz. assert (forall x, x ∈ handles -> release_buffer x c = Some (tt, c)) as Hr.
  { intros x Hx. unfold release_buffer, mbind, M_bind, get, gets. by rw (Hz x Hx). }
  unfold release_buffers, mbind, M_bind. by rw !Hr.
Qed.

Lemma clean_members_bmap now c (Q : unit -> CN -> Prop) : (forall x, x ∈ handles -> m_ c x = 0) ->
  (forall c', mpi_bmap c' = mpi_bmap c -> (forall x, x ∈ handles -> m_ c' x = 0) -> Q tt c') -> wp (clean_members now) c Q.
Proof.
  intros Hz HQ. unfold clean_members. cn_step. cn_step. cn_step.
  set (c0 := with_regs (upd m_state 0) c).
  assert (forall x, x ∈ handles -> m_ c0 x = 0) as Hz0.
  { intros x Hx. unfold c0. rw m_upd. case_decide as E; [done|]. by apply Hz. }
  eapply wp_intro; [by apply release_nothing|]. cn_step. apply set_all_spec. cbn [foldl].
  match goal with |- wp _ ?s _ => set (c2 := s) end.
  assert (mpi_bmap c2 = mpi_bmap c) as Eb by done.
  assert (forall x, x ∈ handles -> m_ c2 x = 0) as Hz2.
  { intros x Hx. unfold c2. rw !m_upd. repeat (case_decide; [done|]). by apply Hz. }
  clearbody c2. repeat cn_step. apply HQ; [done|]. intros x Hx. cbn -[upd]. unfold upd. cbn.
  destruct (Nat.eqb_spec (idx x) 16) as [E|]; [|by apply Hz2].
  exfalso. assert (x = m_stime) as -> by by apply idx_inj. by apply (no_handle m_stime); [cbn; lia|].
Qed.

(** A connection that was just given its socket. *)
Definition opened (s : sock O) (timeout : Z) c : Prop :=
  (exists s', blocking false s = Some (tt, s') /\ mp_sio c = Some s') /\ m_ c m_state = 0 /\ m_ c m_timeout = u32 timeout.
Lemma init_ok s b timeout now c n oth : conn_ok c n oth -> idle c -> mpi_bmap c = b -> m_alive s = true ->
  wp (_init s b timeout now) c (fun ok c' => (ok = true /\ opened s timeout c') /\ conn_ok c' n oth).
Proof.
  intros Hok [Es Hz] Eb Ha. unfold _init. cn_step. cn_step. rw Es. rw Ha. cn_step.
  eapply wp_mono; [apply wp_and; [by apply clean_members_ok|by apply (clean_members_bmap now c (fun _ c' => mpi_bmap c' = mpi_bmap c))]|].
  intros [] c1 ((Hok1 & _ & Est) & Eb1). cn_step. cn_step. rw -Eb -Eb1 with_bmap_id. cn_step. cn_step.
  assert (conn_ok (with_sio (Some s) (c_closed c1) c1) n oth) as Hok2 by (destruct Hok1; by split).
  cn_step. cn_step. cn_step.
  match goal with |- wp _ ?st _ => assert (conn_ok st n oth) as Hok3; [|assert (m_ st m_state = 0 /\ m_ st m_timeout = u32 timeout) as Hst] end.
  { apply conn_ok_set; [done|cbn; lia| |done]. pose proof (counters_of _ _ _ Hok2) as Hc. unfold counters in *. by cn_simpl. }
  { by cn_simpl. }
  eapply sio_ok; [exact Hok3|done|]. eapply wp_intro; [reflexivity|]. intros Hok4. cn_step. split; [split; [done|]|done]. split; [by eexists|]. exact Hst.
Qed.
End objects.

(** ** The invariant *)
Section server.
Context {O B C : Type} `{SL : SockOsLaws O} `{BPL : BufferPoolLaws B} `{CL : ColumnListLaws C http_connection}.
Abbreviation CN := (conn O B).
Abbreviation ST := (C * http_server O B)%type.
Implicit Types (x : ST) (fr pe bu : list Z) (dat : gmap Z (Z * http_connection)) (objs : gmap Z CN) (n : Z).

(** Pending and busy records say so; every record has an object of its own; an
    object whose record is neither pending nor busy is closed. *)
Record recs_ok fr pe bu dat objs : Prop := {
  rk_pending p sz v : p ∈ pe -> dat !! p = Some (sz, v) -> r_state v = CPENDING;
  rk_busy p sz v : p ∈ bu -> dat !! p = Some (sz, v) -> r_state v = CBUSY;
  rk_object p sz v : dat !! p = Some (sz, v) -> 0 < p_httpc v /\ is_Some (objs !! p_httpc v);
  rk_own p q sz sz' v v' : dat !! p = Some (sz, v) -> dat !! q = Some (sz', v') -> p_httpc v = p_httpc v' -> p = q;
  rk_idle q c : objs !! q = Some c -> idle c \/
    exists p sz v, p ∈ pe ++ bu /\ dat !! p = Some (sz, v) /\ p_httpc v = q
}.

Definition room dat (y : http_server O B) : Prop :=
  Z.of_nat (size (s_objs y)) + Z.of_nat (length (s_repo y)) < 2 ^ 29 /\
  Z.of_nat (size dat) + Z.of_nat (length (s_repo y)) < 2 ^ 29 /\
  0 < s_next y /\ (forall p, is_Some (s_objs y !! p) -> p < s_next y).

Definition server_inv n x fr pe bu dat : Prop :=
  outside x.1 ∅ [fr; pe; bu] dat /\ recs_ok fr pe bu dat (s_objs x.2) /\
  objs_ok n (s_bmap x.2) (s_objs x.2) /\ room dat x.2.

(** Inside the lock. *)
Definition core n (y : http_server O B) fr pe bu dat : Prop :=
  recs_ok fr pe bu dat (s_objs y) /\ objs_ok n (s_bmap y) (s_objs y) /\ room dat y.

Lemma wp_srv {A} (f : http_server O B -> A) x (Q : A -> ST -> Prop) : Q (f x.2) x -> wp (srv f) x Q.
Proof. done. Qed.
Lemma wp_upd_srv f x (Q : unit -> ST -> Prop) : Q tt (x.1, f x.2) -> wp (upd_srv f) x Q.
Proof. done. Qed.

(** Only the fields that [core] mentions matter. *)
Lemma core_ext n y y' fr pe bu dat : core n y fr pe bu dat -> s_objs y' = s_objs y -> s_bmap y' = s_bmap y ->
  s_next y' = s_next y -> (length (s_repo y') <= length (s_repo y))%nat -> core n y' fr pe bu dat.
Proof. intros (K1 & K2 & K3) E1 E2 E3 E4. split_and!; rw ?E1 ?E2 //. destruct K3 as (R1 & R2 & R3 & R4).
  unfold room. rw E1 E3. split_and!; [lia|lia|done|done].
Qed.

(** Where the records are. *)
Definition places fr pe bu dat : Prop :=
  NoDup (fr ++ pe ++ bu) /\ (forall p, is_Some (dat !! p) <-> p ∈ fr ++ pe ++ bu) /\ (forall p, is_Some (dat !! p) -> 0 < p).

Lemma places_of c b a fr pe bu dat : cl_rep c a b -> els a = [fr; pe; bu] -> a_data a = dat -> places fr pe bu dat.
Proof.
  intros Hr He <-. destruct (cl_wf _ _ _ Hr) as (Hc & Hd & Hj & _ & _ & _ & Hpos).
  assert (forall k l, [fr; pe; bu] !! k = Some l -> NoDup l) as Hnd.
  { intros k l Hk. rw -He in Hk. apply els_lookup_inv in Hk as (ac & Hk & <-). by apply (Hc k). }
  assert (forall i j li lj p, [fr; pe; bu] !! i = Some li -> [fr; pe; bu] !! j = Some lj -> p ∈ li -> p ∈ lj -> i = j) as Hdis.
  { intros i j li lj p. rw -He. intros (ai & Hi & <-)%els_lookup_inv (aj & Hjj & <-)%els_lookup_inv. by apply Hj. }
  split_and!.
  - apply NoDup_app. split; [by apply (Hnd 0%nat)|]. split.
    + intros p Hp [Hp'|Hp']%elem_of_app; [by discriminate (Hdis 0%nat 1%nat fr pe p)|by discriminate (Hdis 0%nat 2%nat fr bu p)].
    + apply NoDup_app. split; [by apply (Hnd 1%nat)|]. split; [|by apply (Hnd 2%nat)].
      intros p Hp Hp'. by discriminate (Hdis 1%nat 2%nat pe bu p).
  - intros p. rw Hd. split.
    + intros (k & ac & Hk & Hp). apply els_lookup in Hk. rw He in Hk.
      destruct k as [|[|[|]]]; cbn in Hk; [injection Hk as E..|done]; rw -E in Hp; rw !elem_of_app; tauto.
    + intros Hp. assert (exists k l, [fr; pe; bu] !! k = Some l /\ p ∈ l) as (k & l & Hk & Hpl).
      { rw !elem_of_app in Hp. destruct Hp as [Hp|[Hp|Hp]]; [by exists 0%nat, fr|by exists 1%nat, pe|by exists 2%nat, bu]. }
      rw -He in Hk. apply els_lookup_inv in Hk as (ac & Hk & <-). by exists k, ac.
  - intros p [v Hv]. by eapply Hpos.
Qed.

Lemma inside_places c h d a b k fr pe bu dat : inside c h d a b k [fr; pe; bu] dat -> places fr pe bu dat.
Proof. intros (Hr & _ & _ & He & Hd). by eapply places_of. Qed.
Lemma outside_places c b fr pe bu dat : outside c b [fr; pe; bu] dat -> places fr pe bu dat.
Proof. intros (a & Hr & _ & He & Hd). by eapply places_of. Qed.

(** ** Moving a record *)
Abbreviation at_state st p dat := (alter (fun y : Z * http_connection => (y.1, set_rstate st y.2)) p dat).

Lemma at_state_lookup st p dat q sz v : at_state st p dat !! q = Some (sz, v) ->
  exists v', dat !! q = Some (sz, v') /\ p_httpc v = p_httpc v' /\ (q = p -> r_state v = st) /\ (q <> p -> v = v').
Proof.
  intros [(-> & [sz' v'] & Hd & [= -> ->])|[Hne Hd]]%lookup_alter_Some.
  - exists v'. by split_and!.
  - exists v. by split_and!; [| |intros ->|].
Qed.

Lemma at_state_same st p dat q sz v : dat !! q = Some (sz, v) ->
  exists v', at_state st p dat !! q = Some (sz, v') /\ p_httpc v' = p_httpc v.
Proof.
  intros Hd. destruct (decide (q = p)) as [->|Hne].
  - exists (set_rstate st v). by rw lookup_alter_eq Hd.
  - exists v. by rw lookup_alter_ne.
Qed.

(** What a change of columns and states has to respect. *)
Lemma recs_moved st p fr pe bu fr' pe' bu' dat objs : recs_ok fr pe bu dat objs ->
  (forall q, q ∈ pe' -> q = p /\ st = CPENDING \/ q <> p /\ q ∈ pe) ->
  (forall q, q ∈ bu' -> q = p /\ st = CBUSY \/ q <> p /\ q ∈ bu) ->
  (forall q, q ∈ pe ++ bu -> q ∈ pe' ++ bu') ->
  recs_ok fr' pe' bu' (at_state st p dat) objs.
Proof.
  intros [K1 K2 K3 K4 K5] Hpe Hbu Hall. split.
  - intros q sz v Hq (v' & Hd & Ep & Est & Ev)%at_state_lookup. destruct (Hpe q Hq) as [[-> ->]|[Hne Hq']]; [by apply Est|].
    rw (Ev Hne). by eapply K1.
  - intros q sz v Hq (v' & Hd & Ep & Est & Ev)%at_state_lookup. destruct (Hbu q Hq) as [[-> ->]|[Hne Hq']]; [by apply Est|].
    rw (Ev Hne). by eapply K2.
  - intros q sz v (v' & Hd & -> & _)%at_state_lookup. by eapply K3.
  - intros q q' sz sz' v v' (w & Hd & -> & _)%at_state_lookup (w' & Hd' & -> & _)%at_state_lookup. by eapply K4.
  - intros q c Hq. destruct (K5 q c Hq) as [?|(r & sz & v & Hr & Hd & <-)]; [by left|right].
    destruct (at_state_same st p dat r sz v Hd) as (v' & Hd' & E). exists r, sz, v'. split; [by apply Hall|done].
Qed.

Lemma room_at_state st p dat y : room dat y -> room (at_state st p dat) y.
Proof. unfold room. by rw -!size_dom dom_alter_L. Qed.

Lemma wp_shift c y h a k cols dat j l i p (Post : unit -> ST -> Prop) :
  inside c h 1 a ∅ k cols dat -> cols !! j = Some l -> p ∈ l -> j <> i -> (i < length cols)%nat ->
  (forall c' a', inside c' h 1 a' ∅ k (alter (fun l => l ++ [p]) i (alter (without p) j cols)) (at_state (Z.of_nat i) p dat) ->
    Post tt (c', y)) ->
  wp (ok ← lst (cl_mov (p + HDR) (Z.of_nat i) h);
      when (negb (ok =? 0)) (lst (cl_write (p + HDR) (set_rstate (Z.of_nat i))))) (c, y) Post.
Proof.
  intros Hin Hj Hp Hji Hi HP. destruct (inside_wf _ _ _ _ _ _ _ _ Hin) as (Hw & _). destruct (Hw _ _ Hj) as [_ Hps].
  apply wp_bind. eapply wp_mov_to; [exact Hin|done..|]. intros c1 a1 Hin1 _. cbn [Z.eqb negb when].
  eapply wp_write_of; [exact Hin1|by apply Hps|]. intros c2 a2 Hin2 _. by eapply HP.
Qed.

Lemma outside_enter c b fr pe bu dat y (Post : Z -> ST -> Prop) : outside c b [fr; pe; bu] dat ->
  (forall h c' a k, inside c' h 1 a b k [fr; pe; bu] dat -> places fr pe bu dat -> Post h (c', y)) ->
  wp (lst (cl_lock 0)) (c, y) Post.
Proof. intros Ho HP. eapply wp_enter; [exact Ho|]. intros h c' a k Hin. eapply HP; [exact Hin|by eapply inside_places]. Qed.

Lemma rec_not_null p : 0 < p -> (p + HDR =? 0) = false.
Proof. intros Hp. apply Z.eqb_neq. unfold HDR. lia. Qed.

(** [get_connection]: the first pending connection becomes busy. *)
Lemma get_spec n x fr pe bu dat : server_inv n x fr pe bu dat ->
  wp get_connection x (fun r x' => x'.2 = x.2 /\
    match pe with
    | [] => r = 0 /\ server_inv n x' fr pe bu dat
    | p :: pe' => r = p + HDR /\ server_inv n x' fr pe' (bu ++ [p]) (at_state CBUSY p dat)
    end).
Proof.
  destruct x as [c y]. intros (Ho & Hc). cbn [fst snd] in *. unfold get_connection.
  apply wp_bind. eapply outside_enter; [exact Ho|]. intros h c1 a1 k1 Hin Hpl.
  apply wp_bind. eapply (wp_select 1); [exact Hin|cbn; lia|]. intros c2 a2 Hin2.
  apply wp_bind. eapply wp_first_of; [exact Hin2|done|..].
  - intros -> c3 Hin3. apply wp_bind, wp_ret. apply wp_bind. eapply wp_leave; [exact Hin3|]. intros c4 Ho4.
    apply wp_ret. split; [done|]. split; [done|]. by split.
  - intros p pe' -> Hp Hs c3 a3 Hin3 _. cbv beta iota. rw rec_not_null; [|done]. cbn [negb when].
    destruct Hpl as (Hnd & _). apply NoDup_app in Hnd as (_ & _ & Hnd). change ((p :: pe') ++ bu) with (p :: (pe' ++ bu)) in Hnd.
    apply NoDup_cons in Hnd as [Hni Hnd]. rw elem_of_app in Hni.
    apply wp_bind. change CBUSY with (Z.of_nat 2) at 1 2. eapply (wp_shift _ _ _ _ _ _ _ 1 (p :: pe') 2); [exact Hin3|done|by left|done|cbn; lia|].
    intros c4 a4 Hin4. change (alter _ 2%nat _) with [fr; without p (p :: pe'); bu ++ [p]] in Hin4.
    rw without_head in Hin4; [|apply NoDup_cons; split; [tauto|by apply NoDup_app in Hnd as [? _]]].
    apply wp_bind. eapply wp_leave; [exact Hin4|]. intros c5 Ho5. apply wp_ret. split; [done|]. split; [done|].
    destruct Hc as (Hr & Hob & Hrm). split_and!; [exact Ho5| |done|by apply room_at_state].
    cbn [snd]. eapply recs_moved; [exact Hr|..].
    + intros q Hq. right. split; [|by right]. intros ->. tauto.
    + intros q [Hq|Hq%list_elem_of_singleton]%elem_of_app; [right|by left]. split; [|done]. intros ->. tauto.
    + intros q Hq. rw !elem_of_app elem_of_cons list_elem_of_singleton in Hq |- *. tauto.
Qed.

(** [pending_connection]: a busy connection goes to the end of the queue. *)
Lemma pending_spec n x fr pe bu dat p : server_inv n x fr pe bu dat -> p ∈ bu ->
  wp (pending_connection (p + HDR)) x (fun _ x' => x'.2 = x.2 /\
    server_inv n x' fr (pe ++ [p]) (without p bu) (at_state CPENDING p dat)).
Proof.
  destruct x as [c y]. intros (Ho & Hc) Hp. cbn [fst snd] in *. unfold pending_connection.
  apply wp_bind. eapply outside_enter; [exact Ho|]. intros h c1 a1 k1 Hin (Hnd & Hdom & Hpos).
  assert (exists sz v, dat !! p = Some (sz, v)) as (sz & v & Hv).
  { destruct (proj2 (Hdom p)) as [[sz v] Hv]; [rw !elem_of_app; tauto|]. by exists sz, v. }
  apply wp_bind. eapply wp_read_of; [exact Hin|done|]. intros c2 Hin2.
  pose proof Hc as (Hr & Hob & Hrm). rw (rk_busy _ _ _ _ _ Hr p sz v Hp Hv). cbn [Z.eqb CBUSY Pos.eqb when].
  apply NoDup_app in Hnd as (_ & _ & Hnd). pose proof Hnd as (Hnp & Hdj & Hnb)%NoDup_app.
  assert (p ∉ pe) as Hni by (intros Hpe; by apply (Hdj p)).
  apply wp_bind. change CPENDING with (Z.of_nat 1) at 1 2.
  eapply (wp_shift _ _ _ _ _ _ _ 2 bu 1); [exact Hin2|done|done|done|cbn; lia|].
  intros c3 a3 Hin3. change (alter _ 1%nat _) with [fr; pe ++ [p]; without p bu] in Hin3.
  eapply wp_leave; [exact Hin3|]. intros c4 Ho4. split; [done|].
  split; [exact Ho4|]. split; [|split; [done|by apply room_at_state]].
  cbn [snd]. eapply recs_moved; [exact Hr|..].
  - intros q [Hq|Hq%list_elem_of_singleton]%elem_of_app; [right|by left]. split; [|done]. by intros ->.
  - intros q Hq. right. unfold without in Hq. by apply list_elem_of_filter in Hq as [? ?].
  - intros q Hq. rw !elem_of_app list_elem_of_singleton in Hq |- *. unfold without. rw list_elem_of_filter.
    destruct (decide (q = p)); tauto.
Qed.

(** ** Calls on the objects *)
Definition upd_obj (q : Z) (c' : CN) (y : http_server O B) : http_server O B :=
  set_objs (mpi_bmap c') (<[q := c']> (s_objs y)) (s_next y) y.

Lemma obj_call {A} q (m : M CN A) x n c : objs_ok n (s_bmap x.2) (s_objs x.2) -> s_objs x.2 !! q = Some c ->
  Z.of_nat (size (s_objs x.2)) < 2 ^ 29 ->
  exists oth, conn_ok (with_bmap (s_bmap x.2) c) n oth /\ Z.of_nat (size oth) + 9 < 2 ^ 32 /\
    forall (P : A -> CN -> Prop) (Q : A -> ST -> Prop),
    (forall a c', P a c' -> objs_ok n (mpi_bmap c') (<[q := c']> (s_objs x.2)) -> Q a (x.1, upd_obj q c' x.2)) ->
    (wlp m (with_bmap (s_bmap x.2) c) (fun a c' => conn_ok c' n oth /\ P a c') -> wlp (obj q m) x Q) /\
    (wp m (with_bmap (s_bmap x.2) c) (fun a c' => conn_ok c' n oth /\ P a c') -> wp (obj q m) x Q).
Proof.
  intros Hob Hq Hsz. destruct (focus _ _ _ _ _ Hob Hq Hsz) as (oth & Hok & Hoth & Hback). exists oth.
  split; [done|]. split; [done|]. intros P Q HQ. unfold wlp, wp, obj. rw Hq.
  destruct (m _) as [[a c']|]; [|done]. split; intros [Hok' HP]; apply HQ; auto.
Qed.

Lemma wlp_obj {A} q (m : M CN A) x n c (P : A -> CN -> Prop) (Q : A -> ST -> Prop) :
  objs_ok n (s_bmap x.2) (s_objs x.2) -> s_objs x.2 !! q = Some c -> Z.of_nat (size (s_objs x.2)) < 2 ^ 29 ->
  (forall oth, conn_ok (with_bmap (s_bmap x.2) c) n oth -> Z.of_nat (size oth) + 9 < 2 ^ 32 ->
    wlp m (with_bmap (s_bmap x.2) c) (fun a c' => conn_ok c' n oth /\ P a c')) ->
  (forall a c', P a c' -> objs_ok n (mpi_bmap c') (<[q := c']> (s_objs x.2)) -> Q a (x.1, upd_obj q c' x.2)) ->
  wlp (obj q m) x Q.
Proof.
  intros Hob Hq Hsz Hm HQ. destruct (obj_call (A := A) q m x n c Hob Hq Hsz) as (oth & H1' & H2' & Hc).
  apply (Hc P Q HQ). by apply Hm.
Qed.

Lemma wp_obj {A} q (m : M CN A) x n c (P : A -> CN -> Prop) (Q : A -> ST -> Prop) :
  objs_ok n (s_bmap x.2) (s_objs x.2) -> s_objs x.2 !! q = Some c -> Z.of_nat (size (s_objs x.2)) < 2 ^ 29 ->
  (forall oth, conn_ok (with_bmap (s_bmap x.2) c) n oth -> Z.of_nat (size oth) + 9 < 2 ^ 32 ->
    wp m (with_bmap (s_bmap x.2) c) (fun a c' => conn_ok c' n oth /\ P a c')) ->
  (forall a c', P a c' -> objs_ok n (mpi_bmap c') (<[q := c']> (s_objs x.2)) -> Q a (x.1, upd_obj q c' x.2)) ->
  wp (obj q m) x Q.
Proof.
  intros Hob Hq Hsz Hm HQ. destruct (obj_call (A := A) q m x n c Hob Hq Hsz) as (oth & H1' & H2' & Hc).
  apply (Hc P Q HQ). by apply Hm.
Qed.

Lemma room_upd dat y q c' : room dat y -> is_Some (s_objs y !! q) -> room dat (upd_obj q c' y).
Proof.
  intros (R1 & R2 & R3 & R4) [c Hq]. split_and!; cbn.
  - by rw map_size_insert_Some.
  - done.
  - done.
  - intros p [Hp|Hp]%lookup_insert_is_Some'; [|by apply R4]. subst. apply R4. by eexists.
Qed.

(** The object of an open connection changes. *)
Lemma core_upd n y fr pe bu dat p sz v c' : core n y fr pe bu dat -> p ∈ pe ++ bu -> dat !! p = Some (sz, v) ->
  objs_ok n (mpi_bmap c') (<[p_httpc v := c']> (s_objs y)) -> core n (upd_obj (p_httpc v) c' y) fr pe bu dat.
Proof.
  intros (Hr & _ & Hrm) Hp Hv Hob. destruct (rk_object _ _ _ _ _ Hr p sz v Hv) as [Hpos Hs]. split_and!.
  - destruct Hr as [K1 K2 K3 K4 K5]. split; cbn; [done|done| |done|].
    + intros q sz' v' Hq. destruct (K3 q sz' v' Hq) as [? ?]. split; [done|]. by apply lookup_insert_is_Some'; right.
    + intros q c Hq. destruct (decide (q = p_httpc v)) as [->|Hne]; [right; by exists p, sz, v|].
      rw lookup_insert_ne // in Hq. by apply K5.
  - done.
  - by apply room_upd.
Qed.

(** A connection was closed: its record is free. *)
Lemma core_closed n y fr pe bu dat p sz v c' : core n y fr pe bu dat -> places fr pe bu dat ->
  p ∈ bu -> dat !! p = Some (sz, v) -> idle c' ->
  objs_ok n (mpi_bmap c') (<[p_httpc v := c']> (s_objs y)) -> core n (upd_obj (p_httpc v) c' y) (fr ++ [p]) pe (without p bu) dat.
Proof.
  intros Hc (Hnd & _) Hp Hv Hi Hob. pose proof (core_upd n y fr pe bu dat p sz v c' Hc ltac:(set_solver) Hv Hob) as (Hr & Hob' & Hrm).
  apply NoDup_app in Hnd as (_ & _ & (_ & Hdj & _)%NoDup_app).
  split_and!; [|done|done]. destruct Hr as [K1 K2 K3 K4 K5]. split; [done| |done|done|].
  - intros q sz' v' Hq. unfold without in Hq. apply list_elem_of_filter in Hq as [_ Hq]. by apply K2.
  - intros q c Hq. destruct (decide (q = p_httpc v)) as [->|Hne].
    + cbn in Hq. rw lookup_insert_eq in Hq. injection Hq as <-. by left.
    + destruct (K5 q c Hq) as [?|(r & sz' & v' & Hr & Hd & <-)]; [by left|right]. exists r, sz', v'. split; [|done].
      rw !elem_of_app in Hr |- *. destruct Hr as [|Hr]; [by left|right]. unfold without. apply list_elem_of_filter.
      split; [|done]. intros ->. rw Hv in Hd. by injection Hd as <- <-.
Qed.

Lemma wp_sel_of c y h d a b k cols dat l p (Post : Z -> ST -> Prop) :
  inside c h d a b k cols dat -> cols !! k = Some l -> p ∈ l ->
  (forall c' a', inside c' h d a' b k cols dat -> Post 1 (c', y)) ->
  wp (lst (cl_sel (p + HDR) h)) (c, y) Post.
Proof.
  intros Hin Hl Hp HP. pose proof (inside_sel _ _ _ _ _ _ _ _ _ Hin Hl) as Hel.
  destruct (inside_wf _ _ _ _ _ _ _ _ Hin) as (Hw & _). destruct (Hw _ _ Hl) as [_ Hps]. destruct (Hps p Hp) as [_ Hs].
  destruct Hin as (Hr & Hh & Hk & He & Hd). rw -Hd in Hs. eapply wp_lst; [by apply cl_sel_law|done|done|].
  intros r a' b' c' (-> & -> & ->) Hr' Hh'.
  assert ((a_selrec p a).1 = 1) as -> by (unfold a_selrec; rw (els_sel _ _ Hel); by rw decide_True).
  eapply HP. split_and!; [done|done|by rw sel_selrec|by rw els_selrec|by rw data_selrec].
Qed.

(** [release_connection]: a busy connection is closed, its buffers are given back. *)
Lemma release_spec n x fr pe bu dat p : server_inv n x fr pe bu dat -> p ∈ bu ->
  wp (release_connection (p + HDR)) x (fun _ x' => server_inv n x' (fr ++ [p]) pe (without p bu) dat).
Proof.
  destruct x as [c y]. intros (Ho & Hc) Hp. cbn [fst snd] in *. unfold release_connection.
  apply wp_bind. eapply outside_enter; [exact Ho|]. intros h c1 a1 k1 Hin Hpl. pose proof Hpl as (Hnd & Hdom & Hpos).
  assert (exists sz v, dat !! p = Some (sz, v)) as (sz & v & Hv).
  { destruct (proj2 (Hdom p)) as [[sz v] Hv]; [rw !elem_of_app; tauto|]. by exists sz, v. }
  apply wp_bind. eapply wp_read_of; [exact Hin|done|]. intros c2 Hin2.
  pose proof Hc as (Hr & Hob & Hrm). rw (rk_busy _ _ _ _ _ Hr p sz v Hp Hv).
  destruct (rk_object _ _ _ _ _ Hr p sz v Hv) as [Hq [co Hco]].
  apply wp_bind. eapply (wp_select 2); [exact Hin2|cbn; lia|]. intros c3 a3 Hin3.
  apply wp_bind. eapply wp_sel_of; [exact Hin3|done|done|]. intros c4 a4 Hin4. cbn [Z.eqb negb when].
  apply wp_bind, wp_bind. destruct (Z.eqb_spec (p_httpc v) 0) as [|_]; [lia|]. cbn [negb when].
  eapply (wp_obj _ _ _ n co (fun _ c' => idle c')); [done|done|cbn; destruct Hrm; lia|..].
  { intros oth Hok _. eapply wp_mono; [by apply close_ok|]. by intros [] c' (? & ? & _ & ? & _). }
  intros [] c' Hi Hob'. cbn [fst snd] in *.
  assert (p ∉ fr) as Hnf by (apply NoDup_app in Hnd as (_ & Hdj & _); intros Hpf; apply (Hdj p Hpf), elem_of_app; by right).
  apply wp_bind. change CFREE with (Z.of_nat 0). eapply (wp_mov_to _ _ _ _ _ _ _ _ _ 2 bu 0); [exact Hin4|done|done|done|cbn; lia|].
  intros c5 a5 Hin5 _. change (alter _ 0%nat _) with [fr ++ [p]; pe; without p bu] in Hin5. apply wp_ret.
  eapply wp_leave; [exact Hin5|]. intros c6 Ho6. split; [exact Ho6|]. by eapply core_closed.
Qed.

(** ** New connections *)
Lemma new_connection_ok now (b : B) seeds n : 0 < n < 2 ^ 32 ->
  loose (new_connection (O := O) now b seeds) n /\ idle (new_connection (O := O) now b seeds).
Proof.
  intros Hn. split; [|split; [done|]].
  - split_and!; [unfold counters; cbn; lia|cbn; lia|done|constructor].
  - intros x Hx. unfold handles in Hx. rw !elem_of_cons in Hx. destruct Hx as [->|[->|[->|Hx]]]; [done..|by apply not_elem_of_nil in Hx].
Qed.

Lemma objs_size n b objs : objs_ok n b objs -> 0 < n < 2 ^ 32.
Proof. intros (m & Hb & _). by apply (bp_rep_size _ _ _ Hb). Qed.

Lemma room_fresh dat y : room dat y -> s_objs y !! s_next y = None.
Proof. intros (_ & _ & _ & R4). apply eq_None_not_Some. intros Hs. specialize (R4 _ Hs). lia. Qed.

(** A new object, or none, with the columns as they were. *)
Lemma object_spec now n x fr pe bu dat : core n x.2 fr pe bu dat ->
  wp (object_by_handle now) x (fun r x' => x'.1 = x.1 /\ s_bmap x'.2 = s_bmap x.2 /\ core n x'.2 fr pe bu dat /\
    s_tasks x'.2 = s_tasks x.2 /\
    (r = 0 \/ 0 < r /\ (exists c, s_objs x'.2 !! r = Some c /\ idle c) /\ (forall p sz v, dat !! p = Some (sz, v) -> p_httpc v <> r) /\
     Z.of_nat (size dat) + 1 + Z.of_nat (length (s_repo x'.2)) < 2 ^ 29)).
Proof.
  destruct x as [c y]. intros Hc. cbn [snd fst] in *. pose proof Hc as (Hr & Hob & Hrm). unfold object_by_handle.
  apply wp_bind, wp_srv, wp_bind, wp_srv, wp_bind, wp_srv, wp_bind, wp_upd_srv. cbn [snd fst].
  destruct (s_repo y) as [|[seeds|] l] eqn:El.
  - apply wp_ret. split_and!; [done|done| |done|by left]. eapply core_ext; [exact Hc|done..|]. rw El. cbn. lia.
  - apply wp_bind, wp_srv, wp_bind, wp_upd_srv, wp_ret. cbn [snd fst].
    destruct (new_connection_ok now (s_bmap y) seeds n) as [HL Hi]; [by eapply objs_size|].
    pose proof (room_fresh _ _ Hrm) as Hfr. destruct Hrm as (R1 & R2 & R3 & R4). rw El in R1 R2. cbn [length] in R1, R2.
    split_and!; [done|done| |done|right; split_and!; [done| | |cbn; lia]].
    + split_and!.
      * destruct Hr as [K1 K2 K3 K4 K5]. split; cbn; [done|done| |done|].
        -- intros p sz v Hp. destruct (K3 p sz v Hp). split; [done|]. by apply lookup_insert_is_Some'; right.
        -- intros q c' [[<- <-]|[_ Hq]]%lookup_insert_Some; [by left|by apply K5].
      * by apply objs_new.
      * assert (size (<[s_next y := new_connection now (s_bmap y) seeds]> (s_objs y)) = S (size (s_objs y))) as Es
          by (by apply map_size_insert_None).
        unfold room. cbn [s_objs s_repo s_next set_objs set_answers tail].
        rw Es. split_and!; [lia|lia|lia|]. intros p [<-|Hp]%lookup_insert_is_Some'; [lia|]. specialize (R4 _ Hp). lia.
    + cbn. eexists. split; [apply lookup_insert_eq|done].
    + intros p sz v Hp E. destruct (rk_object _ _ _ _ _ Hr p sz v Hp) as [_ [c' Hs]]. cbn in E. by rw E Hfr in Hs.
  - apply wp_ret. split_and!; [done|done| |done|by left]. eapply core_ext; [exact Hc|done..|]. rw El. cbn. lia.
Qed.

(** Total or partial correctness: the server thread hangs when a worker it
    needs cannot be started. *)
Definition wq {A} (total : bool) (m : M ST A) x (Q : A -> ST -> Prop) : Prop := if total then wp m x Q else wlp m x Q.
Lemma wq_wp {A} t (m : M ST A) x (Q : A -> ST -> Prop) : wp m x Q -> wq t m x Q.
Proof. destruct t; [done|]. by apply wp_wlp. Qed.
Lemma wq_bind {A D} t (m : M ST A) (f : A -> M ST D) x (Q : D -> ST -> Prop) :
  wq t m x (fun a x' => wq t (f a) x' Q) -> wq t (m ≫= f) x Q.
Proof. destruct t; cbn; [apply wp_bind|apply wlp_bind]. Qed.
Lemma wq_mono {A} t (m : M ST A) x (Q Q' : A -> ST -> Prop) : wq t m x Q -> (forall a x', Q a x' -> Q' a x') -> wq t m x Q'.
Proof. destruct t; cbn; [apply wp_mono|apply wlp_mono]. Qed.

(** The record that the server thread has taken for a new connection. *)
Definition allocated n x h p v fr pe bu dat : Prop :=
  (exists a k, inside x.1 h 1 a ∅ k [fr; pe ++ [p]; bu] dat) /\ core n x.2 fr (pe ++ [p]) bu dat /\
  (exists sz, dat !! p = Some (sz, v)) /\ 0 < p /\ exists c, s_objs x.2 !! p_httpc v = Some c /\ idle c.

Lemma free_is_idle p sz v fr pe bu dat objs c : recs_ok fr pe bu dat objs -> NoDup (fr ++ pe ++ bu) -> p ∈ fr ->
  dat !! p = Some (sz, v) -> objs !! p_httpc v = Some c -> idle c.
Proof.
  intros Hr Hnd Hp Hv Hc. destruct (rk_idle _ _ _ _ _ Hr _ _ Hc) as [|(q & sz' & v' & Hq & Hd & E)]; [done|].
  apply NoDup_app in Hnd as (_ & Hdj & _). destruct (Hdj p Hp).
  by rw (rk_own _ _ _ _ _ Hr p q _ _ _ _ Hv Hd (eq_sym E)).
Qed.

Lemma core_new n y fr pe bu dat p r c : core n y fr pe bu dat -> dat !! p = None -> p ∉ bu -> 0 < r ->
  s_objs y !! r = Some c -> (forall q sz v, dat !! q = Some (sz, v) -> p_httpc v <> r) ->
  Z.of_nat (size dat) + 1 + Z.of_nat (length (s_repo y)) < 2 ^ 29 ->
  core n y fr (pe ++ [p]) bu (<[p := (CONNECTION_SIZE, mkRec r CPENDING)]> dat).
Proof.
  intros (Hr & Hob & (R1 & R2 & R3 & R4)) Hp Hnb Hr0 Hc Hne Hsz. split_and!; [|done|].
  - destruct Hr as [K1 K2 K3 K4 K5]. split.
    + intros q sz v Hq [[<- [= _ <-]]|[Hpq Hd]]%lookup_insert_Some; [done|].
      apply elem_of_app in Hq as [Hq|Hq%list_elem_of_singleton]; [by eapply K1|by subst].
    + intros q sz v Hq [[<- [= _ <-]]|[Hpq Hd]]%lookup_insert_Some; [done|by eapply K2].
    + intros q sz v [[<- [= _ <-]]|[Hpq Hd]]%lookup_insert_Some; [|by eapply K3]. split; [done|by eexists].
    + intros q q' sz sz' v v' [[<- [= _ <-]]|[Hpq Hd]]%lookup_insert_Some [[<- [= _ <-]]|[Hpq' Hd']]%lookup_insert_Some E; cbn in E; [done| | |by eapply K4].
      * by destruct (Hne q' sz' v').
      * by destruct (Hne q sz v).
    + intros q c' Hq. destruct (K5 q c' Hq) as [?|(q' & sz & v & Hq' & Hd & E)]; [by left|right]. exists q', sz, v.
      split_and!; [|by rw lookup_insert_ne; [|intros <-; rw Hp in Hd]|done]. rw !elem_of_app in Hq' |- *. tauto.
  - assert (size (<[p := (CONNECTION_SIZE, mkRec r CPENDING)]> dat) = S (size dat)) as Es by (by apply map_size_insert_None).
    unfold room. rw Es. split_and!; [lia|lia|done|done].
Qed.

Lemma wp_lst_eq {A} (m : M C A) c y (Q : A -> ST -> Prop) : wp (lst m) (c, y) (fun r x' => m c = Some (r, x'.1) -> Q r x') -> wp (lst m) (c, y) Q.
Proof. unfold wp, lst. cbn. destruct (m c) as [[r c']|]; [|done]. intros HQ. by apply HQ. Qed.
(** The heap of the list refused a new record, under the handle [h]. *)
Definition list_refused h (c : C) : Prop := exists c1 r c2 c3 a b v c4,
  cl_col CFREE h c = Some (tt, c1) /\ cl_first h c1 = Some (r, c2) /\ cl_col CPENDING h c2 = Some (tt, c3) /\
  cl_rep c3 a b /\ cl_add v CONNECTION_SIZE h c3 = Some (0, c4).
(** No free record, and no object for a new one or no record for the object. *)
Definition no_room h (c : C) (y : http_server O B) fr : Prop :=
  fr = [] /\ ((forall seeds, head (s_repo y) <> Some (Some seeds)) \/ list_refused h c).
(** The record [p] is the first free one, or a new one. *)
Definition taken p fr fr' dat : Prop := fr = p :: fr' \/ fr = [] /\ fr' = [] /\ dat !! p = None.
Lemma object_answer now (x : ST) r x' : object_by_handle now x = Some (r, x') ->
  s_refused x'.2 = s_refused x.2 /\ m_connection_timeout x'.2 = m_connection_timeout x.2 /\ (r = 0 -> 0 < s_next x.2 -> forall seeds, head (s_repo x.2) <> Some (Some seeds)).
Proof.
  destruct x as [c y]. unfold object_by_handle, mbind, M_bind, srv, upd_srv, gets, modify, mret, M_ret. cbn.
  destruct (s_repo y) as [|[seeds|] l]; intros [= <- <-]; cbn; split_and!; try done. intros -> ?. lia.
Qed.

Lemma alloc_connection_spec now n c y h a k fr pe bu dat : inside c h 1 a ∅ k [fr; pe; bu] dat -> core n y fr pe bu dat ->
  wp (alloc_connection now h) (c, y) (fun r x' => s_tasks x'.2 = s_tasks y /\ m_connection_timeout x'.2 = m_connection_timeout y /\ s_refused x'.2 = s_refused y /\
    (r = 0 /\ no_room h c y fr /\ (exists a k, inside x'.1 h 1 a ∅ k [fr; pe; bu] dat) /\ core n x'.2 fr pe bu dat \/
     exists p v fr' dat', r = p + HDR /\ taken p fr fr' dat /\ allocated n x' h p v fr' pe bu dat')).
Proof.
  intros Hin Hc. assert (places fr pe bu dat) as (Hnd & Hdom & Hpos) by (by eapply inside_places). pose proof Hc as (Hr & Hob & Hrm).
  unfold alloc_connection.
  apply wp_bind, wp_lst_eq. change CFREE with (Z.of_nat 0) at 1. eapply (wp_select 0); [exact Hin|cbn; lia|]. intros c1 a1 Hin1 R1.
  apply wp_bind, wp_lst_eq. eapply wp_first_of; [exact Hin1|done|..].
  - intros -> c2 Hin2 R2. cbv beta iota. cbn [Z.eqb negb]. apply wp_bind. eapply wp_mono; [apply wp_wlp_and; [by apply (object_spec now n (c2, y))|apply wlp_intro; intros ? ?; by apply object_answer]|].
    intros r [c3 y3] [(E1 & _ & Hc3 & Et & Hr3) (Er & Em & Hno)]. cbn [fst snd] in *. subst c3. destruct Hr3 as [->|(Hr0 & (co & Hco & Hi) & Hne & Hsz)].
    { apply wp_ret. do 3 (split; [done|]). left. split; [done|]. split; [split; [done|left; apply Hno; [done|by destruct Hrm as (_ & _ & ? & _)]]|]. split; [|done]. by exists a1, 0%nat. }
    destruct (Z.eqb_spec r 0) as [|_]; [lia|]. cbn [negb].
    apply wp_bind, wp_lst_eq. change CPENDING with (Z.of_nat 1) at 1. eapply (wp_select 1); [exact Hin2|cbn; lia|]. intros c3 a3 Hin3 R3.
    apply wp_lst_eq. eapply wp_add_of; [exact Hin3|done|done|lia|..].
    + intros c4 Hin4 R4. do 3 (split; [done|]). left. split; [done|]. split; [|split; [|done]; by exists a3, 1%nat].
      split; [done|right]. exists c1, (0, None), c2, c3, a3, ∅. eexists _, c4. split_and!; [done..|by destruct Hin3|done].
    + intros p c4 a4 Hp Hnone _ Hin4 _. do 3 (split; [done|]). right. change (alter _ 1%nat _) with [@nil Z; pe ++ [p]; bu] in Hin4.
      eexists p, _, [], _. split; [done|]. split; [by right|]. split_and!; [by exists a4, 1%nat| |eexists; apply lookup_insert_eq|done|].
      * eapply core_new; [exact Hc3|done| |done|done|done|done]. intros Hb. destruct (proj2 (Hdom p)) as [? Hs]; [|by rw Hnone in Hs].
        rw !elem_of_app. tauto.
      * by exists co.
  - intros p fr' -> Hp Hs c2 a2 Hin2 _ _. cbv beta iota. rw rec_not_null; [|done]. cbn [negb].
    destruct Hs as [[sz v] Hv]. apply wp_bind. eapply wp_write_of; [exact Hin2|by eexists|]. intros c3 a3 Hin3 _.
    change ((p :: fr') ++ pe ++ bu) with (p :: (fr' ++ pe ++ bu)) in Hnd. pose proof Hnd as [Hni Hnd']%NoDup_cons.
    apply wp_bind. change CPENDING with (Z.of_nat 1) at 1. eapply (wp_mov_to _ _ _ _ _ _ _ _ _ 0 (p :: fr') 1); [exact Hin3|done|by left|done|cbn; lia|].
    intros c4 a4 Hin4 _. apply wp_ret. do 3 (split; [done|]). right.
    change (alter _ 1%nat _) with [without p (p :: fr'); pe ++ [p]; bu] in Hin4.
    rw without_head in Hin4; [|apply NoDup_cons; split; [intros ?; apply Hni, elem_of_app; by left|by apply NoDup_app in Hnd' as [? _]]].
    destruct (rk_object _ _ _ _ _ Hr p sz v Hv) as [Hq [co Hco]].
    exists p, (set_rstate CPENDING v), fr', (at_state CPENDING p dat). split; [done|]. split; [by left|]. split_and!; [by exists a4, 0%nat| |exists sz; by rw lookup_alter_eq Hv|done|].
    + split_and!; [|done|by apply room_at_state]. rw !elem_of_app in Hni. eapply recs_moved; [exact Hr|..].
      * intros q [Hq'|Hq'%list_elem_of_singleton]%elem_of_app; [right|by left]. split; [|done]. intros ->. tauto.
      * intros q Hq'. right. split; [|done]. intros ->. tauto.
      * intros q Hq'. rw !elem_of_app in Hq' |- *. tauto.
    + exists co. split; [done|]. eapply (free_is_idle p sz v (p :: fr')); [exact Hr|done|by left|done|done].
Qed.

Definition worker_starts (y : http_server O B) : Prop := head (s_tasks y) = Some true.

Lemma add_worker_spec t n np nb x fr pe bu dat : core n x.2 fr pe bu dat -> (t = true -> worker_starts x.2) ->
  wq t (add_worker np nb) x (fun _ x' => x'.1 = x.1 /\ s_objs x'.2 = s_objs x.2 /\ core n x'.2 fr pe bu dat).
Proof.
  intros Hc Ht. unfold add_worker. apply wq_bind, wq_wp, wp_srv, wq_bind, wq_wp, wp_srv.
  unfold when. destruct (_ || _); [|by apply wq_wp, wp_ret].
  unfold start_worker. apply wq_bind, wq_bind, wq_wp, wp_srv, wq_bind, wq_wp, wp_srv, wq_bind, wq_wp, wp_srv, wq_bind, wq_wp, wp_upd_srv, wq_wp, wp_ret.
  destruct (default false (head (s_tasks x.2))) eqn:Eh.
  - apply wq_wp, wp_bind. unfold worker_begin. apply wp_bind, wp_srv, wp_bind, wp_upd_srv, wp_ret, wp_ret. do 2 (split; [done|]).
    by eapply core_ext.
  - destruct t; [|done]. unfold worker_starts in Ht. by rw Ht in Eh.
Qed.

(** [add_connection]: the new connection is the last of the queue. *)
(** The record [p] is of a connection that has the socket. *)
Definition queued s timeout p dat (y : http_server O B) : Prop :=
  exists sz v co, dat !! p = Some (sz, v) /\ s_objs y !! p_httpc v = Some co /\ opened s timeout co.
Lemma add_connection_spec t now sio n x fr pe bu dat : server_inv n x fr pe bu dat ->
  (forall s, sio = Some s -> m_alive s = true) -> (t = true -> worker_starts x.2) ->
  wq t (add_connection now sio) x (fun r x' => exists fr' pe' dat', server_inv n x' fr' pe' bu dat' /\
    (r = 0 /\ pe' = pe /\ (forall s, sio = Some s -> s_refused x'.2 = s :: s_refused x.2 /\ exists h c, cl_lock 0 x.1 = Some (h, c) /\ no_room h c x.2 fr) \/
     exists p s, r = p + HDR /\ pe' = pe ++ [p] /\ taken p fr fr' dat /\ sio = Some s /\ queued s (m_connection_timeout x.2) p dat' x'.2)).
Proof.
  destruct x as [c y]. intros (Ho & Hc) Hs Ht. cbn [fst snd] in *. unfold add_connection.
  destruct sio as [s|]; [|apply wq_wp, wp_ret; exists fr, pe, dat; split; [by split|by left; split_and!]].
  apply wq_bind, wq_wp, wp_lst_eq. eapply outside_enter; [exact Ho|]. intros h c1 a1 k1 Hin _ R1.
  apply wq_bind, wq_wp. eapply wp_mono; [by eapply alloc_connection_spec|]. intros r [c2 y2] (Et & Em & Er & Hr). cbn [fst snd] in *.
  destruct Hr as [(-> & Hno & (a2 & k2 & Hin2) & Hc2)|(p & v & fr' & dat' & -> & Htk & (a2 & k2 & Hin2) & Hc2 & (sz & Hv) & Hp & (co & Hco & Hi))]; cbn [fst snd] in *.
  - cbn [Z.eqb negb]. apply wq_wp, wp_bind, wp_upd_srv, wp_bind. eapply wp_leave; [exact Hin2|]. intros c3 Ho3. apply wp_ret.
    exists fr, pe, dat. split; [split; [exact Ho3|]; by eapply core_ext|left]. do 2 (split; [done|]).
    intros s2 [= <-]. cbn. rw Er. split; [done|]. by exists h, c1.
  - rw rec_not_null; [|done]. cbn [negb]. apply wq_bind, wq_bind, wq_wp. eapply wp_read_of; [exact Hin2|done|]. intros c3 Hin3.
    apply wq_bind, wq_wp, wp_srv, wq_bind, wq_wp, wp_srv. cbn [snd]. apply wq_bind, wq_wp. pose proof Hc2 as (Hr2 & Hob2 & Hrm2).
    eapply (wp_obj _ _ _ n co (fun ok c' => ok = true /\ opened s (m_connection_timeout y2) c')); [done|done|cbn; destruct Hrm2; lia|..].
    { intros oth Hok _. eapply wp_mono; [apply init_ok; [exact Hok|done|done|by apply Hs]|]. cbn. tauto. }
    intros ok c' [-> Hop] Hob3. cbn [fst snd] in *.
    assert (core n (upd_obj (p_httpc v) c' y2) fr' (pe ++ [p]) bu dat') as Hc3.
    { eapply core_upd; [done| |done|done]. rw !elem_of_app list_elem_of_singleton. tauto. }
    apply wq_bind, wq_wp. change CPENDING with (Z.of_nat 1). eapply (wp_select 1); [exact Hin3|cbn; lia|]. intros c4 a4 Hin4.
    apply wq_bind, wq_wp. eapply wp_cnt_of; [exact Hin4|done|]. intros c5 Hin5.
    apply wq_bind, wq_wp, wp_upd_srv. cbn [fst snd].
    apply wq_bind, wq_wp. change CBUSY with (Z.of_nat 2). eapply (wp_select 2); [exact Hin5|cbn; lia|]. intros c6 a6 Hin6.
    apply wq_bind, wq_wp. eapply wp_cnt_of; [exact Hin6|done|]. intros c7 Hin7.
    eapply wq_mono; [eapply add_worker_spec|].
    { eapply core_ext; [exact Hc3|done..]. }
    { intros E. unfold worker_starts. cbn. rw Et. by apply Ht. }
    cbv beta. intros [] [c8 y8] (E8 & Eo8 & Hc8). cbn [fst snd] in *. subst c8.
    apply wq_bind, wq_wp. eapply wp_leave; [exact Hin7|]. intros c9 Ho9. apply wq_wp, wp_ret.
    exists fr', (pe ++ [p]), dat'. split; [by split|]. right. exists p, s. do 4 (split; [done|]).
    exists sz, v, c'. split; [done|]. rw Eo8 -Em. split; [|exact Hop]. cbn. apply lookup_insert_eq.
Qed.

(** C14: the server thread and a socket that it has accepted.  If the server is
    not running or has its number of connections, nothing changes.  Otherwise the
    socket becomes the last pending connection - in the oldest free record, or in
    a new one when none is free - with the timeout of the server and in the first
    state.  It is closed instead only when no record is free and the repository
    gives no new object or the heap refuses a record; then the queue is as it was.
    The call returns whenever the workers that it starts do start. *)
Theorem connection_accepted {LG : ListGrants C http_connection} now s n x fr pe bu dat :
  server_inv n x fr pe bu dat -> m_alive s = true -> worker_starts x.2 ->
  wp (server_round now (Some s)) x (fun r x' =>
    if m_is_init x.2 && (m_num_connections x.2 <? m_max_connections x.2) then
      exists fr' pe' dat', server_inv n x' fr' pe' bu dat' /\
        (r = true /\ (exists p, pe' = pe ++ [p] /\ taken p fr fr' dat /\ queued s (m_connection_timeout x.2) p dat' x'.2) \/
         r = false /\ pe' = pe /\ s_refused x'.2 = s :: s_refused x.2 /\ fr = [] /\
           ((forall seeds, head (s_repo x.2) <> Some (Some seeds)) \/ ~ cl_grants x.1))
    else r = false /\ x' = x).
Proof.
  intros Hi Ha Hw. unfold server_round. apply wp_bind, wp_srv, wp_bind, wp_srv, wp_bind, wp_srv.
  destruct (_ && _); [|by apply wp_ret].
  apply wp_bind. eapply wp_mono; [eapply (add_connection_spec true); [exact Hi|by intros ? [= <-]|done]|].
  intros r x' (fr' & pe' & dat' & Hi' & Hr). apply wp_ret. exists fr', pe', dat'. split; [done|].
  destruct Hr as [(-> & -> & Hno)|(p & s' & -> & -> & Htk & [= <-] & Hq)]; [right|left].
  - destruct (Hno s eq_refl) as (Er & h & c & El & Efr & Hwhy). do 4 (split; [done|]). destruct Hwhy as [?|Hl]; [by left|right]. intros Hg.
    destruct Hl as (c1 & r & c2 & c3 & a & b & v & c4 & E1 & E2 & E3 & Hrep & E4).
    apply (grants_add c3 a b v CONNECTION_SIZE h 0 c4 Hrep); [done|by vm_compute| |exact E4|done].
    eapply grants_col, grants_first, grants_col, grants_lock, Hg; [exact E3|exact E2|exact E1|exact El].
  - split; [|by exists p]. rw rec_not_null; [done|]. destruct Hi' as (Ho & _). destruct (outside_places _ _ _ _ _ _ Ho) as (_ & Hdom & Hpos).
    apply Hpos, Hdom. rw !elem_of_app list_elem_of_singleton. tauto.
Qed.

End server.

Section serving.
Context {O B C : Type} `{SL : SockOsLaws O} `{BPL : BufferPoolLaws B} `{CL : ColumnListLaws C http_connection}.
Context (order : gmap (list Z) (list Z) -> list (list Z)) (stack1 stack2 : Z).
Context (handler : Z -> Z -> M (conn O B) unit).
Abbreviation CN := (conn O B).
Abbreviation ST := (C * http_server O B)%type.
Implicit Types (x : ST) (fr pe bu : list Z) (dat : gmap Z (Z * http_connection)) (objs : gmap Z CN) (n : Z) (y : http_server O B).

Abbreviation at_state st p dat := (alter (fun y : Z * http_connection => (y.1, set_rstate st y.2)) p dat).

(** ** Serving *)
(** What the handlers may do with a connection: anything that its interface
    lets them do ([act_ok] of HttpMachine.v). *)
Definition handler_ok : Prop := forall evt u c n oth, conn_ok c n oth -> Z.of_nat (size oth) + 9 < 2 ^ 32 ->
  wlp (handler evt u) c (fun _ c' => conn_ok c' n oth).
Definition handler_total : Prop := forall evt u c n oth, conn_ok c n oth -> Z.of_nat (size oth) + 9 < 2 ^ 32 ->
  wp (handler evt u) c (fun _ c' => conn_ok c' n oth).

Lemma wlp_srv {A} (f : http_server O B -> A) x (Q : A -> ST -> Prop) : Q (f x.2) x -> wlp (srv f) x Q.
Proof. done. Qed.

(** The connection of a busy record, as the operations of a worker see it. *)
Definition serving n x fr pe bu dat p v : Prop :=
  core n x.2 fr pe bu dat /\ p ∈ bu /\ (exists sz, dat !! p = Some (sz, v)) /\ is_Some (s_objs x.2 !! p_httpc v).

Lemma wlp_serving {A} (m : M CN A) n x fr pe bu dat p v (Q : A -> ST -> Prop) :
  serving n x fr pe bu dat p v ->
  (forall c oth, conn_ok c n oth -> Z.of_nat (size oth) + 9 < 2 ^ 32 -> wlp m c (fun _ c' => conn_ok c' n oth)) ->
  (forall a x', x'.1 = x.1 -> serving n x' fr pe bu dat p v -> Q a x') -> wlp (obj (p_httpc v) m) x Q.
Proof.
  intros (Hc & Hp & (sz & Hv) & (co & Hco)) Hm HQ. pose proof Hc as (Hr & Hob & Hrm).
  eapply (wlp_obj _ _ _ n co (fun _ _ => True)); [done|done|destruct Hrm; lia|..].
  { intros oth Hok Hoth. eapply wlp_mono; [by apply Hm|]. done. }
  intros a c' _ Hob'. apply HQ; [done|]. split_and!; [|done|by exists sz|].
  - eapply core_upd; [done| |done|done]. apply elem_of_app. by right.
  - exists c'. apply lookup_insert_eq.
Qed.

Lemma call_event_ok n x fr pe bu dat p v evt : handler_ok -> serving n x fr pe bu dat p v ->
  wlp (call_event_handler handler evt (p_httpc v)) x (fun _ x' => x'.1 = x.1 /\ serving n x' fr pe bu dat p v).
Proof.
  intros Hh Hs. unfold call_event_handler. destruct (_ && _ && _); [|by apply wlp_ret].
  apply wlp_bind, wlp_srv. destruct (m_event x.2 evt) as [u|]; [|by apply wlp_ret].
  apply wlp_bind. eapply wlp_serving; [exact Hs|intros; by apply Hh|]. intros [] x' E Hs'. by apply wlp_ret.
Qed.

Lemma serve_spec now n x fr pe bu dat p : handler_ok -> server_inv n x fr pe bu dat -> p ∈ bu ->
  wlp (serve_connection order stack1 stack2 handler now (p + HDR)) x (fun _ x' => server_inv n x' fr pe bu dat).
Proof.
  intros Hh (Ho & Hc) Hp. pose proof Hc as (Hr & Hob & Hrm). unfold serve_connection.
  pose proof (outside_places _ _ _ _ _ _ Ho) as (Hnd & Hdom & Hpos).
  assert (exists sz v, dat !! p = Some (sz, v)) as (sz & v & Hv).
  { destruct (proj2 (Hdom p)) as [[sz v] Hv]; [rw !elem_of_app; tauto|]. by exists sz, v. }
  destruct (rk_object _ _ _ _ _ Hr p sz v Hv) as [Hq [co Hco]].
  apply wlp_bind, wp_wlp. destruct x as [c y]. cbn [fst snd] in *. destruct Ho as (a & Ha & Hf & He & Hd).
  eapply wp_read; [eapply (cl_read_law c a ∅ p sz v Ha); by rw Hd|].
  destruct (Z.eqb_spec (p_httpc v) 0) as [|_]; [lia|]. cbn [negb].
  assert (serving n (c, y) fr pe bu dat p v) as Hs by (split_and!; [done|done|by exists sz|by exists co]).
  assert (forall x' : ST, x'.1 = c -> serving n x' fr pe bu dat p v -> server_inv n x' fr pe bu dat) as Hend.
  { intros x' E (Hc' & _). split; [|done]. rw E. by exists a. }
  apply wlp_bind. eapply wlp_serving; [exact Hs|by intros|]. intros alive x1 E1 Hs1. destruct alive.
  - apply wlp_bind. eapply wlp_serving; [exact Hs1| |].
    { intros c1 oth Hok Hoth. eapply wlp_mono; [by eapply process_ok|]. by intros e c' []. }
    intros evt x2 E2 Hs2. apply wlp_bind. eapply wlp_mono; [by eapply call_event_ok|].
    intros b x3 [E3 Hs3]. apply wlp_ret. apply Hend; [|done]. by rw E3 E2 E1.
  - apply wlp_bind. eapply wlp_mono; [by eapply call_event_ok|].
    intros b x3 [E3 Hs3]. apply wlp_ret. apply Hend; [|done]. by rw E3 E1.
Qed.

(** ** Interleavings *)
(** A worker's hold on a record: taken, or served with the verdict [keep]. *)
Abbreviation hold := (Z * option bool)%type.

Inductive step : ST * list hold -> ST * list hold -> Prop :=
| st_server now sio x r x' l : (forall s, sio = Some s -> m_alive s = true) ->
    server_round now sio x = Some (r, x') -> step (x, l) (x', l)
| st_get x r x' l : get_connection x = Some (r, x') -> step (x, l) (x', if r =? 0 then l else l ++ [(r, None)])
| st_serve now x r keep x' l1 l2 : serve_connection order stack1 stack2 handler now r x = Some (keep, x') ->
    step (x, l1 ++ (r, None) :: l2) (x', l1 ++ (r, Some keep) :: l2)
| st_put x r keep x' l1 l2 : put_connection keep r x = Some (tt, x') ->
    step (x, l1 ++ (r, Some keep) :: l2) (x', l1 ++ l2)
| st_begin x r x' l : worker_begin x = Some (r, x') -> step (x, l) (x', l)
| st_idle x x' l : worker_idle x = Some (tt, x') -> step (x, l) (x', l)
| st_end x x' l : worker_end x = Some (tt, x') -> step (x, l) (x', l)
| st_event e u x x' l : on_event e u x = Some (tt, x') -> step (x, l) (x', l).

(** The busy records are those the workers hold. *)
Definition held_inv n (s : ST * list hold) : Prop :=
  exists fr pe bu dat, server_inv n s.1 fr pe bu dat /\ s.2.*1 ≡ₚ (fun p => p + HDR) <$> bu.

Lemma held_split r o (l1 l2 : list hold) bu : (l1 ++ (r, o) :: l2).*1 ≡ₚ (fun p => p + HDR) <$> bu -> NoDup bu ->
  exists p, r = p + HDR /\ p ∈ bu /\ (l1 ++ l2).*1 ≡ₚ (fun p => p + HDR) <$> without p bu.
Proof.
  rw fmap_app fmap_cons. cbn [fst]. intros Hp Hnd.
  assert (r ∈ (fun p => p + HDR) <$> bu) as Hin by (rw -Hp; apply elem_of_app; right; by left).
  apply list_elem_of_fmap in Hin as (p & -> & Hpb). exists p. split; [done|]. split; [done|].
  apply list_elem_of_split in Hpb as (b1 & b2 & ->). rw without_split; [|done].
  rw !fmap_app fmap_cons in Hp. rw !fmap_app. by apply Permutation_app_inv in Hp.
Qed.

Lemma step_inv n s s' : handler_ok -> step s s' -> held_inv n s -> held_inv n s'.
Proof.
  intros Hh Hst (fr & pe & bu & dat & Hi & Hl).
  assert (NoDup bu) as Hnd.
  { destruct Hi as (Ho & _). destruct (outside_places _ _ _ _ _ _ Ho) as (Hnd & _). apply NoDup_app in Hnd as (_ & _ & Hnd). by apply NoDup_app in Hnd as (_ & _ & ?). }
  destruct Hst as [now sio x r x' l Ha E|x r x' l E|now x r keep x' l1 l2 E|x r keep x' l1 l2 E|x r x' l E|x x' l E|x x' l E|e u x x' l E];
    cbn [fst snd] in *.
  - unfold server_round in E. assert (wlp (server_round now sio) x (fun _ x' => exists fr' pe' dat', server_inv n x' fr' pe' bu dat')) as Hw.
    { unfold server_round. apply wlp_bind, wlp_srv, wlp_bind, wlp_srv, wlp_bind, wlp_srv.
      destruct (_ && _); [|by apply wlp_ret; exists fr, pe, dat]. apply wlp_bind.
      eapply wlp_mono; [by eapply (add_connection_spec false)|]. intros r1 x1 (fr' & pe' & dat' & Hi' & _). apply wlp_ret. by exists fr', pe', dat'. }
    unfold wlp in Hw. unfold server_round in Hw. rw E in Hw. destruct Hw as (fr' & pe' & dat' & Hi'). by exists fr', pe', bu, dat'.
  - destruct (wp_run _ _ _ (get_spec _ _ _ _ _ _ Hi)) as (r1 & x1 & E1 & Ex & Hg). rw E in E1. injection E1 as <- <-.
    destruct pe as [|p pe'].
    + destruct Hg as [-> Hg]. by exists fr, [], bu, dat.
    + destruct Hg as [-> Hg]. exists fr, pe', (bu ++ [p]), (at_state CBUSY p dat). split; [done|]. cbn [fst snd].
      assert (0 < p) as Hp.
      { destruct Hi as (Ho & _). destruct (outside_places _ _ _ _ _ _ Ho) as (_ & Hdom & Hpos). apply Hpos, Hdom.
        rw !elem_of_app. right. left. by left. }
      rw rec_not_null; [|done]. rw !fmap_app. cbn [fmap list_fmap fst]. by rw Hl.
  - destruct (held_split _ _ _ _ _ Hl Hnd) as (p & -> & Hp & _). pose proof (serve_spec now _ _ _ _ _ _ _ Hh Hi Hp) as Hw.
    unfold wlp in Hw. rw E in Hw. exists fr, pe, bu, dat. split; [done|]. by rw !fmap_app !fmap_cons in Hl |- *.
  - destruct (held_split _ _ _ _ _ Hl Hnd) as (p & -> & Hp & Hl'). destruct keep; cbn [put_connection] in E.
    + destruct (wp_run _ _ _ (pending_spec _ _ _ _ _ _ _ Hi Hp)) as ([] & x1 & E1 & Ex & Hg). rw E in E1. injection E1 as <-.
      by eexists _, _, _, _.
    + destruct (wp_run _ _ _ (release_spec _ _ _ _ _ _ _ Hi Hp)) as ([] & x1 & E1 & Hg). rw E in E1. injection E1 as <-.
      by eexists _, _, _, _.
  - injection E as <- <-. exists fr, pe, bu, dat. split; [|done]. destruct Hi as [Ho Hc]. split; [done|]. by eapply core_ext.
  - injection E as <-. exists fr, pe, bu, dat. split; [|done]. destruct Hi as [Ho Hc]. split; [done|]. by eapply core_ext.
  - injection E as <-. exists fr, pe, bu, dat. split; [|done]. destruct Hi as [Ho Hc]. split; [done|]. by eapply core_ext.
  - unfold on_event, when in E. destruct (e <? HTTP_MAX_EVENTS); injection E as <-; exists fr, pe, bu, dat; (split; [|done]); [|done].
    destruct Hi as [Ho Hc]. split; [done|]. by eapply core_ext.
Qed.

Lemma steps_inv n s s' : handler_ok -> rtc step s s' -> held_inv n s -> held_inv n s'.
Proof. intros Hh. induction 1 as [|s1 s2 s3 Hs _ IH]; intros Hi; [done|]. by eapply IH, step_inv. Qed.

(** A server before its first connection. *)
Definition started n x : Prop :=
  outside x.1 ∅ [[]; []; []] ∅ /\ bp_rep (s_bmap x.2) n ∅ /\ s_objs x.2 = ∅ /\
  Z.of_nat (length (s_repo x.2)) < 2 ^ 29 /\ 0 < s_next x.2.

Lemma started_inv n x : started n x -> server_inv n x [] [] [] ∅.
Proof.
  intros (Ho & Hb & Eo & Hl & Hn). split; [done|]. split; [|split].
  - rw Eo. by split.
  - rw Eo. exists ∅. split; [done|]. split_and!; [done..|]. intros h [v Hv]. by rw lookup_empty in Hv.
  - unfold room. rw Eo. split_and!; [done|done|done|]. intros p [c Hp]. by rw lookup_empty in Hp.
Qed.

(** ** Shutting down *)
Definition col_of (k : nat) (cols : list (list Z)) : list Z := default [] (cols !! k).
Definition ccore n y cols dat : Prop := core n y (col_of 0 cols) (col_of 1 cols) (col_of 2 cols) dat.

Lemma core_gone n y fr pe bu fr' pe' bu' dat p sz v c : core n y fr pe bu dat -> dat !! p = Some (sz, v) ->
  (forall q, q ∈ pe' -> q ∈ pe) -> (forall q, q ∈ bu' -> q ∈ bu) -> (forall q, q ∈ pe ++ bu -> q <> p -> q ∈ pe' ++ bu') ->
  s_objs y !! p_httpc v = Some c -> idle c ->
  core n (set_objs (s_bmap y) (delete (p_httpc v) (s_objs y)) (s_next y) y) fr' pe' bu' (delete p dat).
Proof.
  intros (Hr & Hob & (R1 & R2 & R3 & R4)) Hv Hpe Hbu Hall Hc Hi. split_and!.
  - pose proof (rk_own _ _ _ _ _ Hr) as Hown. destruct Hr as [K1 K2 K3 K4 K5]. split; cbn.
    + intros q sz' v' Hq [_ Hd]%lookup_delete_Some. by eapply K1; [apply Hpe|].
    + intros q sz' v' Hq [_ Hd]%lookup_delete_Some. by eapply K2; [apply Hbu|].
    + intros q sz' v' [Hne Hd]%lookup_delete_Some. destruct (K3 q sz' v' Hd) as [? ?]. split; [done|].
      rw lookup_delete_ne; [done|]. intros E. by apply Hne, (Hown p q sz sz' v v').
    + intros q q' sz1 sz2 v1 v2 [_ Hd1]%lookup_delete_Some [_ Hd2]%lookup_delete_Some. by apply (K4 q q' sz1 sz2).
    + intros q c' [Hne Hq]%lookup_delete_Some. destruct (K5 q c' Hq) as [?|(r & sz' & v' & Hr & Hd & E)]; [by left|right].
      assert (r <> p) as Hrp by (intros ->; rw Hv in Hd; injection Hd as <- <-; done).
      exists r, sz', v'. split_and!; [by apply Hall|by rw lookup_delete_ne|done].
  - by eapply objs_gone.
  - unfold room. cbn [s_objs s_repo s_next set_objs].
    assert (size (delete (p_httpc v) (s_objs y)) <= size (s_objs y))%nat by (apply map_subseteq_size, delete_subseteq).
    assert (size (delete p dat) <= size dat)%nat by (apply map_subseteq_size, delete_subseteq).
    split_and!; [lia|lia|done|]. intros q [c' [_ Hq]%lookup_delete_Some]. by apply R4; eexists.
Qed.

(** The handler of [HTTP_ON_CLOSE], if there is one. *)
Lemma close_event_spec n x fr pe bu dat p sz v evt : handler_total -> core n x.2 fr pe bu dat -> p ∈ pe ++ bu ->
  dat !! p = Some (sz, v) ->
  wp (call_event_handler handler evt (p_httpc v)) x (fun _ x' => x'.1 = x.1 /\ core n x'.2 fr pe bu dat).
Proof.
  intros Hh Hc Hp Hv. unfold call_event_handler. destruct (_ && _ && _); [|by apply wp_ret].
  apply wp_bind, wp_srv. destruct (m_event x.2 evt) as [u|]; [|by apply wp_ret]. pose proof Hc as (Hr & Hob & Hrm).
  destruct (rk_object _ _ _ _ _ Hr p sz v Hv) as [_ [c Hco]]. apply wp_bind.
  eapply (wp_obj _ _ _ n c (fun _ _ => True)); [done|done|destruct Hrm; lia|..].
  { intros oth Hok Hoth. eapply wp_mono; [by apply Hh|]. done. }
  intros [] c' _ Hob'. apply wp_ret. split; [done|]. by eapply core_upd.
Qed.

Lemma release_object_spec n x fr pe bu fr' pe' bu' dat p sz v : core n x.2 fr pe bu dat -> dat !! p = Some (sz, v) ->
  (forall q, q ∈ pe' -> q ∈ pe) -> (forall q, q ∈ bu' -> q ∈ bu) -> (forall q, q ∈ pe ++ bu -> q <> p -> q ∈ pe' ++ bu') ->
  wp (object_release (p_httpc v)) x (fun _ x' => x'.1 = x.1 /\ core n x'.2 fr' pe' bu' (delete p dat)).
Proof.
  intros Hc Hv Hpe Hbu Hall. pose proof Hc as (Hr & Hob & Hrm). destruct (rk_object _ _ _ _ _ Hr p sz v Hv) as [_ [c Hco]].
  unfold object_release. apply wp_bind. eapply (wp_obj _ _ _ n c (fun _ c' => idle c')); [done|done|destruct Hrm; lia|..].
  { intros oth Hok _. eapply wp_mono; [by apply close_ok|]. by intros [] c' (? & ? & _ & ? & _). }
  intros [] c' Hi Hob'. apply wp_upd_srv. split; [done|].
  assert (core n (upd_obj (p_httpc v) c' x.2) fr pe bu dat) as Hc'.
  { destruct Hr as [K1 K2 K3 K4 K5]. split_and!; [split; cbn; [done|done| |done|]|done|by apply room_upd].
    - intros q sz' v' Hq. destruct (K3 q sz' v' Hq). split; [done|]. by apply lookup_insert_is_Some'; right.
    - intros q c1 Hq. destruct (decide (q = p_httpc v)) as [->|Hne].
      + rw lookup_insert_eq in Hq. injection Hq as <-. by left.
      + rw lookup_insert_ne // in Hq. by apply K5. }
  eapply (core_gone n (upd_obj (p_httpc v) c' x.2) fr pe bu fr' pe' bu' dat p sz v c'); try done. apply lookup_insert_eq.
Qed.

(** The columns but for [p]. *)
Lemma without_cols p k l cols : length cols = 3%nat -> cols !! k = Some (p :: l) ->
  (forall j q, q ∈ col_of j (<[k := l]> cols) -> q ∈ col_of j cols) /\
  (forall j q, q ∈ col_of j cols -> q <> p -> q ∈ col_of j (<[k := l]> cols)).
Proof.
  intros Hl Hk. unfold col_of. assert (k < length cols)%nat as Hlt by (by eapply lookup_lt_Some).
  split; intros j q; (destruct (decide (j = k)) as [->|Hne]; [rw list_lookup_insert_eq; [|done]; rw Hk; cbn|rw list_lookup_insert_ne; done]).
  - by right.
  - by intros [->|Hq]%elem_of_cons.
Qed.

Lemma cols3 cols : length cols = 3%nat -> cols = [col_of 0 cols; col_of 1 cols; col_of 2 cols].
Proof. by destruct cols as [|? [|? [|? [|]]]]. Qed.

Lemma clear_loop_spec n fuel : handler_total -> forall k l cols c y h a dat,
  inside c h 1 a ∅ k cols dat -> ccore n y cols dat -> length cols = 3%nat -> cols !! k = Some l -> (length l < fuel)%nat ->
  wp (clear_column_loop handler fuel (Z.of_nat k) h) (c, y) (fun _ x' => exists a' dat',
    inside x'.1 h 1 a' ∅ k (<[k := []]> cols) dat' /\ ccore n x'.2 (<[k := []]> cols) dat').
Proof.
  intros Hh. induction fuel as [|fuel IH]; intros k l cols c y h a dat Hin Hc Hl3 Hk Hf; [lia|].
  destruct (inside_wf _ _ _ _ _ _ _ _ Hin) as (Hw & _). cbn [clear_column_loop].
  apply wp_bind. eapply wp_first_of; [exact Hin|exact Hk|..].
  - intros -> c1 Hin1. apply wp_ret. exists a, dat. by rw list_insert_id.
  - intros p l' -> Hp [[sz v] Hv] c1 a1 Hin1 Hcur. cbv beta iota. rw rec_not_null; [|done]. cbn [negb].
    apply wp_bind. eapply wp_read_of; [exact Hin1|exact Hv|]. intros c2 Hin2.
    destruct (without_cols p k l' cols Hl3 Hk) as [Hsub Hkeep].
    destruct Hc as (Hr & Hob & Hrm). destruct (rk_object _ _ _ _ _ Hr p sz v Hv) as [Hq _].
    assert ((p_httpc v =? 0) = false) as -> by lia. cbn [negb when].
    assert (wp (when ((Z.of_nat k =? CBUSY) || (Z.of_nat k =? CPENDING)) (call_event_handler handler HTTP_ON_CLOSE (p_httpc v);; mret tt))
      (c2, y) (fun _ x' => x'.1 = c2 /\ ccore n x'.2 cols dat)) as Hev.
    { apply wp_when; intros E; [|by split]. apply wp_bind. eapply wp_mono; [eapply (close_event_spec n (c2, y)); [done|by split|..|exact Hv]|].
      - unfold CBUSY, CPENDING in E. rw elem_of_app. unfold col_of.
        assert (k = 2%nat \/ k = 1%nat) as [-> | ->] by lia; rw Hk; [right|left]; by left.
      - intros b x' Hx'. by apply wp_ret. }
    apply wp_bind, wp_bind. eapply wp_mono; [exact Hev|]. intros [] [c3 y3] [E3 Hc3]. cbn [fst snd] in *. subst c3.
    eapply wp_mono; [eapply (release_object_spec n (c2, y3) _ _ _ (col_of 0 (<[k := l']> cols)) (col_of 1 (<[k := l']> cols)) (col_of 2 (<[k := l']> cols))); [exact Hc3|exact Hv|apply Hsub|apply Hsub|]|].
    { intros q [Hq'|Hq']%elem_of_app Hne; apply elem_of_app; [left|right]; by apply Hkeep. }
    intros [] [c4 y4] [E4 Hc4]. cbn [fst snd] in *. subst c4.
    apply wp_bind. eapply wp_del_of; [exact Hin2|exact Hk|exact Hcur|lia|]. intros c5 Hin5.
    destruct (Hw _ _ Hk) as [Hnd _]. rw (list_alter_Some _ _ _ _ Hk) without_head // in Hin5.
    assert (k < length cols)%nat as Hlt by (by eapply lookup_lt_Some).
    eapply wp_mono; [eapply (IH k l'); [exact Hin5|exact Hc4|by rw length_insert|by apply list_lookup_insert_eq|cbn in Hf; lia]|].
    intros [] x' (a' & dat' & Hin' & Hc'). rw list_insert_insert_eq in Hin' Hc'. by exists a', dat'.
Qed.

Lemma clear_column_spec n fuel k cols c y h a dat j : handler_total ->
  inside c h 1 a ∅ j cols dat -> ccore n y cols dat -> length cols = 3%nat -> (k < 3)%nat -> (length (col_of k cols) < fuel)%nat ->
  wp (clear_column handler fuel (Z.of_nat k) h) (c, y) (fun _ x' => exists a' dat',
    inside x'.1 h 1 a' ∅ k (<[k := []]> cols) dat' /\ ccore n x'.2 (<[k := []]> cols) dat').
Proof.
  intros Hh Hin Hc Hl3 Hk Hf. unfold clear_column. apply wp_bind. eapply (wp_select k); [exact Hin|lia|]. intros c1 a1 Hin1.
  destruct (lookup_lt_is_Some_2 cols k) as [l Hl]; [lia|]. eapply clear_loop_spec; try done.
  unfold col_of in Hf. by rw Hl in Hf.
Qed.

Lemma remove_all_spec n fuel x fr pe bu dat : handler_total -> server_inv n x fr pe bu dat ->
  (length fr < fuel)%nat -> (length pe < fuel)%nat -> (length bu < fuel)%nat ->
  wp (remove_all_connections handler fuel) x (fun _ x' => server_inv n x' [] [] [] ∅).
Proof.
  destruct x as [c y]. intros Hh (Ho & Hc) Hf Hp Hb. cbn [fst snd] in *. unfold remove_all_connections.
  apply wp_bind. eapply outside_enter; [exact Ho|]. intros h c1 a1 k1 Hin _.
  apply wp_bind. change CFREE with (Z.of_nat 0). eapply wp_mono; [eapply (clear_column_spec n fuel 0 [fr; pe; bu]); [done|exact Hin|exact Hc|done|lia|done]|].
  intros [] [c2 y2] (a2 & d2 & Hin2 & Hc2). cbn [fst snd list_insert insert] in *.
  apply wp_bind. change CBUSY with (Z.of_nat 2). eapply wp_mono; [eapply (clear_column_spec n fuel 2 [[]; pe; bu]); [done|exact Hin2|exact Hc2|done|lia|done]|].
  intros [] [c3 y3] (a3 & d3 & Hin3 & Hc3). cbn [fst snd list_insert insert] in *.
  apply wp_bind. change CPENDING with (Z.of_nat 1). eapply wp_mono; [eapply (clear_column_spec n fuel 1 [[]; pe; []]); [done|exact Hin3|exact Hc3|done|lia|done]|].
  intros [] [c4 y4] (a4 & d4 & Hin4 & Hc4). cbn [fst snd list_insert insert] in *.
  assert (d4 = ∅) as ->.
  { apply map_empty. intros p. destruct (d4 !! p) as [e|] eqn:E; [|done]. destruct (inside_wf _ _ _ _ _ _ _ _ Hin4) as (_ & Hw & _).
    destruct (Hw p) as (j & l & Hj & Hpl); [by eexists|]. destruct j as [|[|[|]]]; cbn in Hj; [injection Hj as <-..|done]; by apply not_elem_of_nil in Hpl. }
  eapply wp_leave; [exact Hin4|]. intros c5 Ho5. by split.
Qed.

(** ** What the server does not notice *)
(** Code that leaves the two counters of connections alone. *)
Definition counts_kept {A} (m : M ST A) : Prop := forall x r x', m x = Some (r, x') ->
  m_num_connections x'.2 = m_num_connections x.2 /\ m_max_connections x'.2 = m_max_connections x.2.

Lemma ck_ret {A} (a : A) : counts_kept (mret a).
Proof. by intros x r x' [= <- <-]. Qed.
Lemma ck_bind {A D} (m : M ST A) (f : A -> M ST D) : counts_kept m -> (forall a, counts_kept (f a)) -> counts_kept (m ≫= f).
Proof.
  intros Hm Hf x r x'. unfold mbind, M_bind. destruct (m x) as [[a x1]|] eqn:E; [|done]. intros E2.
  apply Hm in E as [<- <-]. by eapply Hf.
Qed.
Lemma ck_lst {A} (m : M C A) : counts_kept (lst m).
Proof. intros x r x'. unfold lst. destruct (m x.1) as [[a c]|]; [|done]. by intros [= <- <-]. Qed.
Lemma ck_srv {A} (f : http_server O B -> A) : counts_kept (srv f).
Proof. by intros x r x' [= <- <-]. Qed.
Lemma ck_upd f : (forall y, m_num_connections (f y) = m_num_connections y) -> (forall y, m_max_connections (f y) = m_max_connections y) ->
  counts_kept (upd_srv f).
Proof. intros H1' H2' x r x' [= <- <-]. cbn. by rw H1' H2'. Qed.
Lemma ck_obj {A} q (m : M CN A) : counts_kept (obj q m).
Proof.
  intros x r x'. unfold obj. destruct (s_objs x.2 !! q); [|done]. destruct (m _) as [[a c']|]; [|done]. by intros [= <- <-].
Qed.
Lemma ck_when b (m : M ST unit) : counts_kept m -> counts_kept (when b m).
Proof. destruct b; [done|]. intros _. apply ck_ret. Qed.
Lemma ck_if {A} (b : bool) (m1 m2 : M ST A) : counts_kept m1 -> counts_kept m2 -> counts_kept (if b then m1 else m2).
Proof. by destruct b. Qed.

Ltac ck_tac := repeat first
  [ progress intros | apply ck_ret | apply ck_bind | apply ck_lst | apply ck_srv | apply ck_obj | apply ck_when | apply ck_if
  | apply ck_upd; done | match goal with |- counts_kept (match ?o with _ => _ end) => destruct o end ].

Lemma ck_event evt q : counts_kept (call_event_handler handler evt q).
Proof. unfold call_event_handler. ck_tac. Qed.
Lemma ck_serve now r : counts_kept (serve_connection order stack1 stack2 handler now r).
Proof. unfold serve_connection. ck_tac; apply ck_event. Qed.
Lemma ck_put keep r : counts_kept (put_connection (O := O) (B := B) keep r).
Proof. unfold put_connection, pending_connection, release_connection. ck_tac. Qed.
Lemma ck_get : counts_kept (get_connection (O := O) (B := B)).
Proof. unfold get_connection. ck_tac. Qed.

Definition saturated x : Prop := m_max_connections x.2 <= m_num_connections x.2.

Lemma saturated_round now sio x : saturated x -> server_round now sio x = Some (false, x).
Proof.
  intros Hs. unfold server_round, saturated in *. unfold mbind, M_bind, srv, gets.
  destruct (Z.ltb_spec (m_num_connections x.2) (m_max_connections x.2)); [lia|]. by rw andb_false_r.
Qed.

Lemma step_saturated s s' : step s s' -> saturated s.1 -> saturated s'.1.
Proof.
  intros Hst Hs. unfold saturated in *.
  destruct Hst as [now sio x r x' l Ha E|x r x' l E|now x r keep x' l1 l2 E|x r keep x' l1 l2 E|x r x' l E|x x' l E|x x' l E|e u x x' l E];
    cbn [fst snd] in *.
  - rw saturated_round // in E. by injection E as <- <-.
  - by destruct (ck_get _ _ _ E) as [-> ->].
  - by destruct (ck_serve _ _ _ _ _ E) as [-> ->].
  - by destruct (ck_put _ _ _ _ _ E) as [-> ->].
  - by injection E as <- <-.
  - by injection E as <-.
  - by injection E as <-.
  - unfold on_event, when in E. destruct (e <? HTTP_MAX_EVENTS); by injection E as <-.
Qed.

(** ** The theorems *)
(** C11: in every reachable state of a server, whatever the interleaving of the
    server thread and of any number of workers, the busy records are exactly
    the records that workers hold, no two workers hold the same one, no record
    is in two columns, no two records share a connection object, and every
    connection is consistent with the buffers that it owns in the shared map. *)
Theorem worker_exclusion n x0 x l :
  handler_ok -> started n x0 -> rtc step (x0, []) (x, l) ->
  NoDup l.*1 /\ exists fr pe bu dat, server_inv n x fr pe bu dat /\ NoDup (fr ++ pe ++ bu) /\
    l.*1 ≡ₚ (fun p => p + HDR) <$> bu /\
    (forall p q sz sz' v v', dat !! p = Some (sz, v) -> dat !! q = Some (sz', v') -> p <> q -> p_httpc v <> p_httpc v').
Proof.
  intros Hh Hs Hst. destruct (steps_inv n _ _ Hh Hst) as (fr & pe & bu & dat & Hi & Hl).
  { exists [], [], [], ∅. split; [by apply started_inv|done]. }
  cbn [fst snd] in *. pose proof Hi as (Ho & Hc). destruct (outside_places _ _ _ _ _ _ Ho) as (Hnd & _).
  split; [|exists fr, pe, bu, dat; split; [exact Hi|split; [exact Hnd|split; [exact Hl|]]]].
  - rw Hl. apply NoDup_fmap; [intros a b; unfold HDR; lia|]. apply NoDup_app in Hnd as (_ & _ & Hnd). by apply NoDup_app in Hnd as (_ & _ & ?).
  - intros p q sz sz' v v' Hp Hq Hne E. destruct Hc as (Hr & _). by apply Hne, (rk_own _ _ _ _ _ Hr p q sz sz' v v').
Qed.

(** C12: a worker's round takes the connection that has waited longest, and puts
    it at the end of the queue or closes it; the queue is otherwise unchanged,
    so every pending connection gets its turn. *)
Theorem queue_order now n x fr pe bu dat :
  handler_ok -> server_inv n x fr pe bu dat ->
  wlp (worker_round order stack1 stack2 handler now) x (fun r x' =>
    match pe with
    | [] => r = false /\ server_inv n x' fr [] bu dat
    | p :: pe' => r = true /\ exists dat', server_inv n x' fr (pe' ++ [p]) bu dat' \/ server_inv n x' (fr ++ [p]) pe' bu dat'
    end).
Proof.
  intros Hh Hi. assert (places fr pe bu dat) as (Hnd & Hdom & Hpos) by (eapply outside_places, Hi).
  unfold worker_round. apply wlp_bind, wp_wlp. eapply wp_mono; [by apply get_spec|].
  intros r x1 [_ Hg]. destruct pe as [|p pe'].
  - destruct Hg as [-> Hg]. by apply wlp_ret.
  - destruct Hg as [-> Hg]. rw rec_not_null; [|apply Hpos, Hdom; rw !elem_of_app; right; left; by left]. cbn [negb].
    assert (p ∉ bu) as Hnb.
    { apply NoDup_app in Hnd as (_ & _ & (_ & Hdj & _)%NoDup_app). apply Hdj. by left. }
    assert (without p (bu ++ [p]) = bu) as Ew.
    { unfold without. rw filter_app -/(without p bu) without_id // filter_cons decide_False; [|by intros []]. apply app_nil_r. }
    apply wlp_bind. eapply wlp_mono; [eapply serve_spec; [done|exact Hg|apply elem_of_app; right; by left]|].
    intros keep x2 Hi2. apply wlp_bind. destruct keep; cbn [put_connection]; apply wp_wlp.
    + eapply wp_mono; [eapply pending_spec; [exact Hi2|apply elem_of_app; right; by left]|]. intros [] x3 [_ Hi3].
      apply wp_ret. split; [done|]. rw Ew in Hi3. eexists. by left.
    + eapply wp_mono; [eapply release_spec; [exact Hi2|apply elem_of_app; right; by left]|]. intros [] x3 Hi3.
      apply wp_ret. split; [done|]. rw Ew in Hi3. eexists. by right.
Qed.

(** C13: shutting down closes every connection and gives back every buffer and
    every record, in every state that the server can be in. *)
Theorem server_shutdown fuel n x fr pe bu dat :
  handler_total -> server_inv n x fr pe bu dat -> (length (fr ++ pe ++ bu) < fuel)%nat ->
  wp (remove_all_connections handler fuel) x (fun _ x' =>
    outside x'.1 ∅ [[]; []; []] (∅ : gmap Z (Z * http_connection)) /\ bp_rep (s_bmap x'.2) n ∅ /\
    forall q c, s_objs x'.2 !! q = Some c -> idle c).
Proof.
  intros Hh Hi Hf. rw !length_app in Hf. eapply wp_mono; [eapply remove_all_spec; [done|exact Hi|lia..]|].
  intros [] x' (Ho & Hr & Hob & Hrm).
  assert (forall q c, s_objs x'.2 !! q = Some c -> idle c) as Hid.
  { intros q c Hq. destruct (rk_idle _ _ _ _ _ Hr q c Hq) as [|(p & sz & v & Hp & _)]; [done|]. by apply not_elem_of_nil in Hp. }
  split; [done|]. split; [|done]. by eapply objs_idle.
Qed.

(** C15: [m_num_connections] is only ever written when a connection is added, so
    once it reaches [m_max_connections] the server thread accepts nothing any
    more, even when every connection has been closed. *)
Theorem saturation_is_final x l x' l' now sio :
  m_max_connections x.2 <= m_num_connections x.2 -> rtc step (x, l) (x', l') ->
  server_round now sio x' = Some (false, x').
Proof.
  intros Hs Hst. apply saturated_round. change (saturated (x', l').1). change (saturated (x, l).1) in Hs.
  revert Hst Hs. generalize (x, l) (x', l'). induction 1 as [|s1 s2 s3 H12 _ IH]; [done|]. intros Hs. by eapply IH, step_saturated.
Qed.
End serving.

(** ** Witnesses *)
Abbreviation demo_C := (ll_context Bump.t http_connection).
Abbreviation demo_B := (bpool (ll_context Bump.t BufferMap.buffer)).
Abbreviation demo_state := (demo_C * http_server script demo_B)%type.

Definition demo_server (num mx : Z) : demo_state :=
  (Demo.made 3 20, mkServer script demo_B true 0 0 4 mx 5 num (fun e => if e =? HTTP_ON_REQUEST then Some 0 else None)
     (demo_pool 256 40) ∅ 1 (replicate 3 (Some ([], [], []))) [true; true] []).

(** Answers every request with the code 200. *)
Definition demo_handler (evt udata : Z) : M (conn script demo_B) unit := when (evt =? HTTP_ON_REQUEST) (res_code 200).

Lemma demo_handler_total : handler_total demo_handler.
Proof.
  intros evt u c n oth Hok Hoth. unfold demo_handler. apply wp_when; intros _; [|done].
  pose proof (act_ok 0 0 (ACode 200) c n oth Hok Hoth I) as Hw. unfold wlp in Hw. unfold wp. cbn [act] in Hw.
  destruct (res_code 200 c) as [[[] c']|] eqn:E; [|discriminate E]. by destruct Hw.
Qed.

Lemma demo_handler_ok : handler_ok demo_handler.
Proof. intros evt u c n oth Hok Hoth. by apply wp_wlp, demo_handler_total. Qed.

Lemma demo_started num mx : started 256 (demo_server num mx).
Proof.
  pose proof (Demo.made_rep (V := http_connection) 3 20 ltac:(lia) ltac:(lia)) as [Hr Hf].
  split; [by exists (a_init 3)|]. split; [by apply demo_pool_rep; lia|]. done.
Qed.

Lemma demo_inv num mx : server_inv 256 (demo_server num mx) [] [] [] ∅.
Proof. apply started_inv, demo_started. Qed.

(** A connection is accepted, taken by a worker, and opened. *)
Lemma demo_run :
  fst <$> (a ← server_round 1 (Some (demo_sock true [Some demo_request])); r ← get_connection;
           k ← serve_connection records 0 0 demo_handler 1 r; mret (a, r =? 0, k)) (demo_server 0 10) = Some (true, false, true).
Proof. vm_compute. reflexivity. Qed.

Lemma run_steps (x0 : demo_state) (sio : sock script) : m_alive sio = true ->
  fst <$> (a ← server_round 1 (Some sio); r ← get_connection; k ← serve_connection records 0 0 demo_handler 1 r; mret (a, r =? 0, k)) x0
    = Some (true, false, true) ->
  exists x r, rtc (step records 0 0 demo_handler) (x0, []) (x, [(r, Some true)]).
Proof.
  intros Ha. unfold mbind, M_bind.
  destruct (server_round 1 (Some sio) x0) as [[a x1]|] eqn:E1; [|done].
  destruct (get_connection x1) as [[r x2]|] eqn:E2; [|done].
  destruct (serve_connection records 0 0 demo_handler 1 r x2) as [[k x3]|] eqn:E3; [|done].
  intros E. injection E as -> Er ->. exists x3, r.
  eapply rtc_l; [eapply st_server; [|exact E1]; by intros ? [= <-]|].
  eapply rtc_l; [eapply st_get; exact E2|]. rw Er.
  eapply rtc_l; [apply (st_serve _ _ _ _ 1 x2 r true x3 [] [] E3)|]. apply rtc_refl.
Qed.

Lemma worker_exclusion_witness : exists (x : demo_state) r l, l = [(r, Some true)] /\
  rtc (step records 0 0 demo_handler) (demo_server 0 10, []) (x, l) /\
  NoDup l.*1 /\ exists fr pe bu dat, server_inv 256 x fr pe bu dat /\ NoDup (fr ++ pe ++ bu) /\
    l.*1 ≡ₚ (fun p => p + HDR) <$> bu /\
    (forall p q sz sz' v v', dat !! p = Some (sz, v) -> dat !! q = Some (sz', v') -> p <> q -> p_httpc v <> p_httpc v').
Proof.
  destruct (run_steps (demo_server 0 10) (demo_sock true [Some demo_request]) eq_refl demo_run) as (x & r & Hst).
  exists x, r, [(r, Some true)]. split; [reflexivity|]. split; [exact Hst|].
  apply (worker_exclusion records 0 0 demo_handler 256 (demo_server 0 10) x [(r, Some true)]);
    [exact demo_handler_ok|apply demo_started|exact Hst].
Defined.

Lemma demo_added : ((fun r : Z * demo_state => r.1 =? 0) <$>
  add_connection 1 (Some (demo_sock true [Some demo_request])) (demo_server 0 10)) = Some false.
Proof. vm_compute. reflexivity. Qed.

Lemma added_pending (x0 : demo_state) (sio : sock script) : server_inv 256 x0 [] [] [] ∅ -> m_alive sio = true -> worker_starts x0.2 ->
  ((fun r : Z * demo_state => r.1 =? 0) <$> add_connection 1 (Some sio) x0) = Some false ->
  exists (x : demo_state) fr p dat, server_inv 256 x fr [p] [] dat.
Proof.
  intros Hi Ha Hw E. pose proof (add_connection_spec true 1 (Some sio) 256 x0 [] [] [] ∅ Hi ltac:(by intros ? [= <-]) ltac:(done)) as Hp.
  unfold wq, wp in Hp. destruct (add_connection 1 (Some sio) x0) as [[r x]|]; [|done]. injection E as E.
  destruct Hp as (fr & pe & dat & Hi' & [[-> _]|(p & s & _ & -> & _)]); [done|]. by exists x, fr, p, dat.
Qed.

Lemma demo_pending : exists (x : demo_state) fr p dat, server_inv 256 x fr [p] [] dat.
Proof. apply (added_pending _ (demo_sock true [Some demo_request]) (demo_inv 0 10) eq_refl eq_refl demo_added). Qed.

Lemma queue_order_witness : exists (x : demo_state) fr p dat, server_inv 256 x fr [p] [] dat /\
  wlp (worker_round records 0 0 demo_handler 1) x (fun r x' =>
    r = true /\ exists dat', server_inv 256 x' fr ([] ++ [p]) [] dat' \/ server_inv 256 x' (fr ++ [p]) [] [] dat').
Proof.
  destruct demo_pending as (x & fr & p & dat & Hi). exists x, fr, p, dat. split; [exact Hi|].
  apply (queue_order records 0 0 demo_handler 1 256 x fr [p] [] dat); [exact demo_handler_ok|exact Hi].
Defined.

Lemma connection_accepted_witness :
  let x := demo_server 0 10 in let s := demo_sock true [Some demo_request] in
  fst <$> server_round 1 (Some s) x = Some true /\
  wp (server_round 1 (Some s)) x (fun r x' =>
    if m_is_init x.2 && (m_num_connections x.2 <? m_max_connections x.2) then
      exists fr' pe' dat', server_inv 256 x' fr' pe' [] dat' /\
        (r = true /\ (exists p, pe' = [] ++ [p] /\ taken p [] fr' ∅ /\ queued s (m_connection_timeout x.2) p dat' x'.2) \/
         r = false /\ pe' = [] /\ s_refused x'.2 = s :: s_refused x.2 /\ @nil Z = [] /\
           ((forall seeds, head (s_repo x.2) <> Some (Some seeds)) \/ ~ cl_grants x.1))
    else r = false /\ x' = x).
Proof.
  split; [vm_compute; reflexivity|].
  apply (connection_accepted 1 (demo_sock true [Some demo_request]) 256 (demo_server 0 10) [] [] [] ∅);
    [apply demo_inv|reflexivity|reflexivity].
Defined.

Lemma server_shutdown_witness : exists (x : demo_state) fr p dat, server_inv 256 x fr [p] [] dat /\
  wp (remove_all_connections demo_handler (S (length (fr ++ [p] ++ [])))) x (fun _ x' =>
    outside x'.1 ∅ [[]; []; []] (∅ : gmap Z (Z * http_connection)) /\ bp_rep (s_bmap x'.2) 256 ∅ /\
    forall q c, s_objs x'.2 !! q = Some c -> idle c).
Proof.
  destruct demo_pending as (x & fr & p & dat & Hi). exists x, fr, p, dat. split; [exact Hi|].
  apply (server_shutdown demo_handler (S (length (fr ++ [p] ++ []))) 256 x fr [p] [] dat); [exact demo_handler_total|exact Hi|lia].
Defined.

Lemma saturation_is_final_witness :
  server_round 1 (Some (demo_sock true [])) (demo_server 4 4) = Some (false, demo_server 4 4).
Proof.
  apply (saturation_is_final records 0 0 demo_handler (demo_server 4 4) [] (demo_server 4 4) []); [reflexivity|apply rtc_refl].
Defined.
