(* ===== verification/HtContext.v ===== *)
(** * Hypertext contexts (hypertext/libht/context.c, context.h)

    The document is the list of the bytes that can be read at [p_content]; a
    pointer into it is an offset.  [pf_read] is the read function of an
    encoding.  The machine is little-endian (x86-64): a 16- or 32-bit load
    takes its least significant byte first, and [ht_init_context] finds
    [MACHINE_ORDER_LE].  Reading outside the bytes given is undefined. *)
From S2P Require Import Prelude Memory Str.
Set Default Goal Selector "!".

Definition MACHINE_ORDER_LE : Z := 1.
Definition MACHINE_ORDER_BE : Z := 2.
Definition E_UTF_8 : Z := 0.
Definition E_UTF_16_BE : Z := 1.
Definition E_UTF_16_LE : Z := 2.
Definition E_UTF_32_BE : Z := 3.
Definition E_UTF_32_LE : Z := 4.

Record ht_content := mkHC {
  p_content : list Z;
  sz_content : Z;
  c_pos : Z;
  encoding : Z;
  machine_order : Z
}.
Record ht_context := mkHT {
  htc_content : ht_content;
  pf_read : option Z             (* the encoding whose function it is; NULL after a reset *)
}.

(** ** Loads *)
Definition load8 (m : list Z) (p : Z) : option Z := if p <? 0 then None else m !! Z.to_nat p.
Definition load16 (m : list Z) (p : Z) : option Z :=
  b0 ← load8 m p; b1 ← load8 m (p + 1); Some (Z.lor b0 (Z.shiftl b1 8)).
Definition load32 (m : list Z) (p : Z) : option Z :=
  lo ← load16 m p; hi ← load16 m (p + 2); Some (Z.lor lo (Z.shiftl hi 16)).
Definition bswap16 (z : Z) : Z := Z.lor (Z.shiftl (Z.land z 0xff) 8) (Z.land (Z.shiftr z 8) 0xff).
Definition bswap32 (z : Z) : Z := Z.lor (Z.shiftl (bswap16 (Z.land z 0xffff)) 16) (bswap16 (Z.land (Z.shiftr z 16) 0xffff)).

(** ** Reading a symbol *)
(** A call gives the symbol and the position it starts at. *)
Definition HM := M ht_content.
Definition set_pos (p : Z) (h : ht_content) : ht_content :=
  mkHC (p_content h) (sz_content h) p (encoding h) (machine_order h).

(** The bytes that follow the first one of a symbol: [c] loses its leading bit
    in each round, so that eight rounds are enough. *)
Fixpoint utf8_tail (fuel : nat) (m : list Z) (sz c r cpos : Z) : option (Z * Z) :=
  match fuel with
  | 0%nat => None
  | S fuel =>
      if (Z.land c 0xc0 =? 0xc0) && (cpos <? sz) then
        b ← load8 m cpos;
        utf8_tail fuel m sz (u8 (Z.shiftl c 1)) (Z.lor (u32 (Z.shiftl r 8)) b) (cpos + 1)
      else Some (r, cpos)
  end.
Definition read_utf8 : HM (Z * Z) := fun h =>
  let cpos := c_pos h in
  if cpos <? sz_content h then
    c ← load8 (p_content h) cpos;
    '(r, cpos') ← utf8_tail 9 (p_content h) (sz_content h) c c (cpos + 1);
    Some ((r, cpos), set_pos cpos' h)
  else Some ((0, cpos), h).

(** The other four; [sz_content - n] is computed in 64 bits. *)
Definition read_wide (n : Z) (load : list Z -> Z -> option Z) (swap : Z -> Z) (order : Z) : HM (Z * Z) := fun h =>
  let cpos := c_pos h in
  if cpos <? u64 (sz_content h - n) then
    c ← load (p_content h) cpos;
    Some ((if machine_order h =? order then swap c else c, cpos), set_pos (cpos + n) h)
  else Some ((0, cpos), h).
Definition read_utf16_be : HM (Z * Z) := read_wide 2 load16 bswap16 MACHINE_ORDER_LE.
Definition read_utf16_le : HM (Z * Z) := read_wide 2 load16 bswap16 MACHINE_ORDER_BE.
Definition read_utf32_be : HM (Z * Z) := read_wide 4 load32 bswap32 MACHINE_ORDER_LE.
Definition read_utf32_le : HM (Z * Z) := read_wide 4 load32 bswap32 MACHINE_ORDER_BE.

Definition read_of (e : Z) : HM (Z * Z) :=
  if e =? E_UTF_8 then read_utf8
  else if e =? E_UTF_16_BE then read_utf16_be
  else if e =? E_UTF_16_LE then read_utf16_le
  else if e =? E_UTF_32_BE then read_utf32_be
  else read_utf32_le.

(** ** Contexts *)
(** The byte order marks, tried in this order. *)
Definition bom_table : list (list Z * Z) :=
  [([0xef; 0xbb; 0xbf], E_UTF_8); ([0; 0; 0xfe; 0xff], E_UTF_32_BE); ([0xff; 0xfe; 0; 0], E_UTF_32_LE);
   ([0xfe; 0xff], E_UTF_16_BE); ([0xff; 0xfe], E_UTF_16_LE)].
Fixpoint detect_bom (l : list (list Z * Z)) (m : list Z) : option (list Z * Z) :=
  match l with
  | [] => None
  | (bom, e) :: l => if bool_decide (take (length bom) m = bom) then Some (bom, e) else detect_bom l m
  end.

(** [None] for a NULL document. *)
Definition ht_init_context (content : option (list Z)) (sz : Z) (x : ht_context) : ht_context :=
  let h := htc_content x in
  let m := default [] content in
  match content with
  | Some _ =>
      if 4 <? sz then
        match detect_bom bom_table m with
        | Some (bom, e) => mkHT (mkHC m sz (Z.of_nat (length bom)) e MACHINE_ORDER_LE) (Some e)
        | None => mkHT (mkHC m sz (c_pos h) E_UTF_8 MACHINE_ORDER_LE) (Some E_UTF_8)
        end
      else mkHT (mkHC m sz (c_pos h) E_UTF_8 (machine_order h)) (Some E_UTF_8)
  | None => mkHT (mkHC m sz (c_pos h) E_UTF_8 (machine_order h)) (Some E_UTF_8)
  end.
Definition blank_content : ht_content := mkHC [] 0 0 0 0.
Definition ht_reset_context (x : ht_context) : ht_context := mkHT blank_content None.

Definition ht_position (x : ht_context) : Z := c_pos (htc_content x).
(** An offset into the document. *)
Definition ht_ptr (x : ht_context) : Z := c_pos (htc_content x).

(** ** Pointers and symbols *)
(** Into the document, or to other memory. *)
Inductive pointer := InDoc (off : Z) | Ext (m : list Z).
Definition plus (p : pointer) (n : Z) : pointer :=
  match p with InDoc off => InDoc (off + n) | Ext m => Ext (drop (Z.to_nat n) m) end.
Definition deref (load : list Z -> Z -> option Z) (h : ht_content) (p : pointer) (i : Z) : option Z :=
  match p with InDoc off => load (p_content h) (off + i) | Ext m => load m i end.
Definition belongs (h : ht_content) (p : pointer) : bool :=
  match p with InDoc off => (0 <=? off) && (off <? sz_content h) | Ext _ => false end.
Definition encoding_at (h : ht_content) (p : pointer) : Z := if belongs h p then encoding h else E_UTF_8.

(** The [i]th symbol at a pointer, as [ht_compare] reads it: a 16-bit symbol is
    swapped with the 32-bit instruction. *)
Definition symbol_at (h : ht_content) (e : Z) (p : pointer) (i : Z) : option Z :=
  if e =? E_UTF_8 then deref load8 h p i
  else if e =? E_UTF_16_BE then
    c ← deref load16 h p (2 * i); Some (if machine_order h =? MACHINE_ORDER_LE then bswap32 c else c)
  else if e =? E_UTF_16_LE then
    c ← deref load16 h p (2 * i); Some (if machine_order h =? MACHINE_ORDER_BE then bswap32 c else c)
  else if e =? E_UTF_32_BE then
    c ← deref load32 h p (4 * i); Some (if machine_order h =? MACHINE_ORDER_LE then bswap32 c else c)
  else
    c ← deref load32 h p (4 * i); Some (if machine_order h =? MACHINE_ORDER_BE then bswap32 c else c).

(** [while(i < size)]: [k] symbols remain. *)
Fixpoint compare_loop (k : nat) (h : ht_content) (e1 e2 : Z) (p1 p2 : pointer) (i : Z) : option Z :=
  match k with
  | 0%nat => Some 0
  | S k =>
      c1 ← symbol_at h e1 p1 i;
      c2 ← symbol_at h e2 p2 i;
      let r := s32 (c1 - c2) in
      if negb (r =? 0) then Some r else compare_loop k h e1 e2 p1 p2 (i + 1)
  end.
Definition ht_compare (x : ht_context) (p1 p2 : pointer) (size : Z) : option Z :=
  let h := htc_content x in
  compare_loop (Z.to_nat size) h (encoding_at h p1) (encoding_at h p2) p1 p2 0.

Definition symbol_bytes (e : Z) : Z :=
  if (e =? E_UTF_16_LE) || (e =? E_UTF_16_BE) then 2
  else if (e =? E_UTF_32_LE) || (e =? E_UTF_32_BE) then 4 else 1.
(** Two pointers into the document; anything else counts 0. *)
Definition ht_symbols (x : ht_context) (p1 p2 : Z) : Z :=
  let h := htc_content x in
  if belongs h (InDoc p1) && belongs h (InDoc p2) then
    u32 (if p1 <? p2 then p2 - p1 else p1 - p2) / symbol_bytes (encoding h)
  else 0.
Definition ht_bytes (x : ht_context) (num_symbols : Z) : Z := u32 (num_symbols * symbol_bytes (encoding (htc_content x))).

(** [ht_read]: no bound is known; the symbol and the pointer behind it. *)
Fixpoint read_tail (fuel : nat) (h : ht_content) (p : pointer) (c r i : Z) : option (Z * Z) :=
  match fuel with
  | 0%nat => None
  | S fuel =>
      if Z.land c 0xc0 =? 0xc0 then
        b ← deref load8 h p i;
        read_tail fuel h p (u8 (Z.shiftl c 1)) (Z.lor (u32 (Z.shiftl r 8)) b) (i + 1)
      else Some (r, i)
  end.
Definition ht_read (x : ht_context) (p : pointer) : option (Z * pointer) :=
  let h := htc_content x in
  let e := encoding_at h p in
  if e =? E_UTF_8 then
    c ← deref load8 h p 0;
    '(r, i) ← read_tail 9 h p c c 1;
    Some (r, plus p i)
  else r ← symbol_at h e p 0; Some (r, plus p (symbol_bytes e)).

(** ** Blocks *)
Section blocks.
Context {A : Type} `{Allocator A}.

Definition mem_alloc (n : Z) : M A Z := fun a => Some (a_alloc a n).
(** A block is freed once, with the size it was allocated with. *)
Definition mem_free (p n : Z) : M A unit := fun a =>
  if decide (a_live a !! p = Some n) then Some (tt, a_free a p n) else None.

Definition HT_CONTEXT_SIZE : Z := 64.
(** The context is cleared; its address, 0 when there is no memory. *)
Definition ht_create_context : M A (Z * ht_context) :=
  r ← mem_alloc HT_CONTEXT_SIZE; mret (r, mkHT blank_content None).
Definition ht_destroy_context (p : Z) : M A unit := mem_free p HT_CONTEXT_SIZE.
End blocks.
