(* ===== verification/Json.v ===== *)
(** * JSON parser (hypertext/libht/json.c, json.h)

    Nothing in a parsed document is shared, so the blocks of memory are a tree:
    a slot of an array of pointers is NULL, or points to a block, which is live
    or was freed.  A string is an offset into the document and a size in
    symbols.  Every block comes from the allocator of Memory.v.  The functions
    recurse with fuel; JsonProof.v shows how much is enough. *)
From S2P Require Import Prelude Memory Str HtContext.
Set Default Goal Selector "!".

Definition INITIAL_SIZE : Z := 16.
Definition JSON_OK : Z := 0.
Definition JSON_PARSE_ERROR : Z := -1.
Definition JSON_MEMORY_ERROR : Z := -2.

(** ** Values *)
Record json_string := mkStr { j_size : Z; j_data : option Z }.
Definition no_string : json_string := mkStr 0 None.

Inductive slot (A : Type) := SNull | SFreed (p : Z) | SAt (p : Z) (x : A).
Arguments SNull {A}.
Arguments SFreed {A} p.
Arguments SAt {A} p x.

(** An array of [num] pointers. *)
Record vec (A : Type) := mkVec { v_ptr : Z; v_slots : list (slot A) }.
Arguments mkVec {A}.
Arguments v_ptr {A}.
Arguments v_slots {A}.
Definition num {A} (v : vec A) : Z := Z.of_nat (length (v_slots v)).
Definition no_vec {A} : vec A := mkVec 0 [].

(** [struct json_value]; [VNone] has the type 0. *)
#[warnings="-register-all"]
Inductive json_value :=
| VNone | VString (s : json_string) | VNumber (s : json_string)
| VObject (o : vec (json_string * json_value)) | VArray (a : vec json_value)
| VTrue | VFalse | VNull.
Definition json_pair : Type := json_string * json_value.
Definition json_array : Type := vec json_value.
Definition json_object : Type := vec json_pair.

Definition jvt (v : json_value) : Z :=
  match v with
  | VNone => 0 | VString _ => 1 | VNumber _ => 2 | VObject _ => 3 | VArray _ => 4 | VTrue => 5 | VFalse => 6 | VNull => 7
  end.
Definition JSON_STRING : Z := 1.
Definition JSON_NUMBER : Z := 2.
Definition JSON_OBJECT : Z := 3.
Definition JSON_ARRAY : Z := 4.
Definition JSON_TRUE : Z := 5.
Definition JSON_FALSE : Z := 6.
Definition JSON_NULL : Z := 7.
Definition JSON_VALUE_SIZE : Z := 13.
Definition JSON_PAIR_SIZE : Z := 25.
Definition JSON_CONTEXT_SIZE : Z := 40.
Definition PTR_SIZE : Z := 8.

(** ** Characters *)
Definition QUOTE : Z := 34.
Definition APOS : Z := 39.
Definition is_quote (c : Z) : bool := (c =? QUOTE) || (c =? APOS).
Definition is_ws (c : Z) : bool := (c =? 32) || (c =? 13) || (c =? 10) || (c =? 9).
Definition is_upper (c : Z) : bool := (65 <=? c) && (c <=? 90).
Definition is_lower (c : Z) : bool := (97 <=? c) && (c <=? 122).
Definition COMMA : Z := 44.
Definition COLON : Z := 58.
Definition LBRACK : Z := 91.
Definition RBRACK : Z := 93.
Definition LBRACE : Z := 123.
Definition RBRACE : Z := 125.

(** ** The parser *)
Record pstate {A : Type} := mkP { p_htc : ht_context; err_pos : Z; p_heap : A }.
Arguments pstate : clear implicits.

Section parser.
Context {A : Type} `{Allocator A}.
Abbreviation JM := (M (pstate A)).

(** Calls through the hypertext context: [pf_read] is not NULL while parsing. *)
Definition read : JM (Z * Z) := fun s =>
  match pf_read (p_htc s) with
  | Some e =>
      match read_of e (htc_content (p_htc s)) with
      | Some (r, h) => Some (r, mkP A (mkHT h (pf_read (p_htc s))) (err_pos s) (p_heap s))
      | None => None
      end
  | None => None
  end.
Definition htc : JM ht_context := gets p_htc.
Definition set_err (pos : Z) : JM unit := modify (fun s => mkP A (p_htc s) pos (p_heap s)).
Definition heap_op {R} (m : M A R) : JM R := fun s =>
  match m (p_heap s) with Some (r, a) => Some (r, mkP A (p_htc s) (err_pos s) a) | None => None end.

(** *** Arrays of pointers *)
(** [alloc_array_values], [alloc_object_pairs]; [num] stays what it was when
    there is no memory.  [memset] clears [8 * new_size] bytes, computed in 64 bits. *)
Definition alloc_slots {X} (v : vec X) : JM (Z * vec X) :=
  let new_size := u32 (num v + INITIAL_SIZE) in
  p ← heap_op (mem_alloc (u32 (new_size * PTR_SIZE)));
  if negb (p =? 0) then
    if (new_size * PTR_SIZE <? 2 ^ 32) && (num v <=? new_size) then
      when (negb (v_ptr v =? 0)) (heap_op (mem_free (v_ptr v) (u32 (num v * PTR_SIZE))));;
      mret (JSON_OK, mkVec p (v_slots v ++ replicate (Z.to_nat (new_size - num v)) SNull))
    else undefined
  else mret (JSON_MEMORY_ERROR, v).
Definition alloc_array_values (a : json_array) : JM (Z * json_array) := alloc_slots a.
Definition alloc_object_pairs (o : json_object) : JM (Z * json_object) := alloc_slots o.

Definition is_null {X} (s : slot X) : bool := match s with SNull => true | _ => false end.
Fixpoint first_null {X} (l : list (slot X)) (i : nat) : option nat :=
  match l with [] => None | s :: l => if is_null s then Some i else first_null l (S i) end.

(** Filling the free slot [i]: whether there was memory for it. *)
Definition fill_slot {X} (sz : Z) (v : vec X) (i : nat) (x : X) : JM (bool * vec X) :=
  p ← heap_op (mem_alloc sz);
  if negb (p =? 0) then mret (true, mkVec (v_ptr v) (<[i := SAt p x]> (v_slots v))) else mret (false, v).
(** [add_array_value], [add_object_pair]: [goto] continues behind the old slots. *)
Definition add_slot {X} (alloc : vec X -> JM (Z * vec X)) (sz : Z) (v : vec X) (x : X) : JM (bool * vec X) :=
  match first_null (v_slots v) 0 with
  | Some i => fill_slot sz v i x
  | None =>
      '(r, v') ← alloc v;
      if r =? JSON_OK then fill_slot sz v' (length (v_slots v)) x else mret (false, v')
  end.
Definition add_array_value (a : json_array) (x : json_value) : JM (bool * json_array) :=
  add_slot alloc_array_values JSON_VALUE_SIZE a x.
Definition add_object_pair (o : json_object) (x : json_pair) : JM (bool * json_object) :=
  add_slot alloc_object_pairs JSON_PAIR_SIZE o x.

(** *** Scalars *)
(** The bytes from [data] to the symbol at [pos]. *)
Definition span (data pos : Z) : JM json_string := x ← htc; mret (mkStr (ht_symbols x data pos) (Some data)).

Definition NUM_OCT : Z := 1.
Definition NUM_DEC : Z := 2.
Definition NUM_HEX : Z := 3.
Inductive verdict := Go (t : Z) | Stop | Bad.
Definition num_step (c i nt : Z) : verdict :=
  if is_digit c then Go (if nt =? 0 then NUM_DEC else nt)
  else if ((c =? 120) || (c =? 88)) && (i =? 1) && (nt =? NUM_OCT) then Go NUM_HEX
  else if ((97 <=? c) && (c <=? 102)) || ((65 <=? c) && (c <=? 70)) then (if nt =? NUM_HEX then Go nt else Bad)
  else if is_ws c || (c =? COMMA) || (c =? RBRACK) || (c =? RBRACE) then (if nt =? 0 then Go nt else Stop)
  else if ((c =? 43) || (c =? 45)) && (nt =? 0) then Go nt
  else if (c =? 46) && ((nt =? NUM_DEC) || (nt =? NUM_OCT)) then Go nt
  else Bad.
(** The error, the last symbol and its position. *)
Fixpoint num_loop (fuel : nat) (c i nt pos : Z) : JM (Z * Z * Z) :=
  match fuel with
  | 0%nat => undefined
  | S fuel =>
      match num_step c i nt with
      | Go nt =>
          '(c, pos) ← read;
          if c =? 0 then mret (JSON_OK, c, pos) else num_loop fuel c (u32 (i + 1)) nt pos
      | Stop => mret (JSON_OK, c, pos)
      | Bad => set_err pos;; mret (JSON_PARSE_ERROR, c, pos)
      end
  end.
Definition parse_number (fuel : nat) (c cpos : Z) : JM (Z * json_string * Z) :=
  '(r, c, pos) ← num_loop fuel c 0 (if c =? 48 then NUM_OCT else 0) cpos;
  if r =? JSON_OK then s ← span cpos pos; mret (r, s, c) else mret (r, mkStr 0 (Some cpos), c).

(** Names: quoted, or a word that ends at a colon or a blank. *)
Definition name_step (quotes strophe symbol : bool) (c : Z) : verdict :=
  if is_upper c || is_lower c || (c =? 45) || (c =? 95) then Go 0
  else if c =? APOS then (if strophe then Stop else Bad)
  else if c =? QUOTE then (if quotes then Stop else Bad)
  else if is_digit c then (if symbol then Go 0 else Bad)
  else if (c =? COLON) || is_ws c then (if symbol && negb (quotes || strophe) then Stop else Bad)
  else Bad.
Fixpoint name_loop (fuel : nat) (quotes strophe symbol : bool) (c pos : Z) : JM (Z * Z * Z) :=
  match fuel with
  | 0%nat => undefined
  | S fuel =>
      match name_step quotes strophe symbol c with
      | Go _ =>
          '(c, pos) ← read;
          if c =? 0 then mret (JSON_OK, c, pos) else name_loop fuel quotes strophe true c pos
      | Stop => mret (JSON_OK, c, pos)
      | Bad => set_err pos;; mret (JSON_PARSE_ERROR, c, pos)
      end
  end.
Definition name_end (fuel : nat) (quotes strophe symbol : bool) (c pos : Z) : JM (Z * json_string * Z) :=
  '(r, c, pos') ← name_loop fuel quotes strophe symbol c pos;
  if r =? JSON_OK then s ← span pos pos'; mret (r, s, c) else mret (r, mkStr 0 (Some pos), c).
Definition parse_string_name (fuel : nat) (c cpos : Z) : JM (Z * json_string * Z) :=
  if c =? APOS then '(c, pos) ← read; name_end fuel false true false c pos
  else if c =? QUOTE then '(c, pos) ← read; name_end fuel true false false c pos
  else if is_upper c || is_lower c || (c =? 95) then name_end fuel false false true c cpos
  else set_err cpos;; mret (JSON_PARSE_ERROR, no_string, c).

(** [while((c = read)) if(c == term && _c != '\\') break;] *)
Fixpoint string_loop (fuel : nat) (term prev : Z) : JM (Z * Z) :=
  match fuel with
  | 0%nat => undefined
  | S fuel =>
      '(c, pos) ← read;
      if c =? 0 then mret (c, pos)
      else if (c =? term) && negb (prev =? 92) then mret (c, pos) else string_loop fuel term c
  end.
Definition parse_string_value (fuel : nat) (c : Z) : JM (Z * json_string * Z) :=
  x ← htc;
  if is_quote c then
    let data := ht_ptr x in
    '(c, pos) ← string_loop fuel c c;
    s ← span data pos;
    mret (JSON_OK, s, c)
  else set_err (ht_position x);; mret (JSON_PARSE_ERROR, no_string, c).

(** [sz] letters, the symbol behind them. *)
Fixpoint const_loop (fuel : nat) (c sz : Z) : JM (Z * Z) :=
  match fuel with
  | 0%nat => undefined
  | S fuel =>
      if is_lower c then '(c, _) ← read; const_loop fuel c (u32 (sz + 1)) else mret (c, sz)
  end.
Definition literal (s : list Z) (cpos sz : Z) : JM bool :=
  x ← htc; r ← lift_opt (ht_compare x (Ext (s ++ [0])) (InDoc cpos) sz); mret (r =? 0).
Definition parse_const (fuel : nat) (c cpos : Z) : JM (Z * json_value * Z) :=
  '(c, sz) ← const_loop fuel c 0;
  t ← literal (str "true") cpos sz;
  if (t : bool) then mret (JSON_OK, VTrue, c) else
  f ← literal (str "false") cpos sz;
  if (f : bool) then mret (JSON_OK, VFalse, c) else
  n ← literal (str "null") cpos sz;
  if (n : bool) then mret (JSON_OK, VNull, c) else
  set_err cpos;; mret (JSON_PARSE_ERROR, VNone, c).

(** *** Values, arrays and objects *)
(** What [parse_array] and [parse_object] do with the value they have read and
    the symbol behind it. *)
Inductive after_value := Skip | Add | Last | Finish | Wrong.
Definition is_atom (v : json_value) : bool :=
  match v with VNumber _ | VTrue | VFalse | VNull => true | _ => false end.
Definition after_element (v : json_value) (c : Z) : after_value :=
  if (jvt v =? 0) && ((c =? COMMA) || is_ws c) then Skip
  else if (jvt v =? 0) && (c =? RBRACK) then Finish
  else if (jvt v =? JSON_STRING) && is_quote c then Add
  else if (jvt v =? JSON_ARRAY) && (c =? RBRACK) then Add
  else if (jvt v =? JSON_OBJECT) && (c =? RBRACE) then Add
  else if is_atom v && ((c =? COMMA) || is_ws c) then Add
  else if is_atom v && (c =? RBRACK) then Last
  else Wrong.

(** The state of an object: in front of a name, of a colon, behind the value. *)
Inductive oflags := BeforeName | BeforeColon | AfterValue.
Definition after_member (v : json_value) (c : Z) : after_value * oflags :=
  if (jvt v =? 0) && (c =? COMMA) then (Skip, BeforeName)
  else if (jvt v =? JSON_STRING) && is_quote c then (Add, AfterValue)
  else if (jvt v =? JSON_ARRAY) && (c =? RBRACK) then (Add, AfterValue)
  else if (jvt v =? JSON_OBJECT) && (c =? RBRACE) then (Add, AfterValue)
  else if is_atom v && is_ws c then (Add, AfterValue)
  else if is_atom v && (c =? COMMA) then (Add, BeforeName)
  else if is_atom v && (c =? RBRACE) then (Last, AfterValue)
  else (Wrong, AfterValue).

Definition wrong_here : JM unit := x ← htc; set_err (ht_position x).

Fixpoint parse_value (fuel : nat) (c cpos : Z) {struct fuel} : JM (Z * json_value * Z) :=
  match fuel with
  | 0%nat => undefined
  | S f =>
      if is_quote c then '(r, s, c) ← parse_string_value f c; mret (r, VString s, c)
      else if c =? LBRACK then '(r, a, c) ← array_loop f no_vec; mret (r, VArray a, c)
      else if c =? LBRACE then '(r, o, c) ← object_loop f BeforeName no_string no_vec; mret (r, VObject o, c)
      else if is_digit c || (c =? 45) || (c =? 43) || (c =? 46) then
        '(r, s, c) ← parse_number f c cpos; mret (r, VNumber s, c)
      else if is_lower c then parse_const f c cpos
      else if (c =? COMMA) || (c =? RBRACE) || (c =? RBRACK) then mret (JSON_OK, VNone, c)
      else if is_ws c then
        '(c, pos) ← read;
        if c =? 0 then mret (JSON_OK, VNone, c) else parse_value f c pos
      else set_err cpos;; mret (JSON_PARSE_ERROR, VNone, c)
  end
(** [parse_array] after its check of the bracket. *)
with array_loop (fuel : nat) (a : json_array) {struct fuel} : JM (Z * json_array * Z) :=
  match fuel with
  | 0%nat => undefined
  | S f =>
      '(c, pos) ← read;
      if c =? 0 then mret (JSON_OK, a, c) else
      '(r, v, c) ← parse_value f c pos;
      if r =? JSON_OK then
        match after_element v c with
        | Skip => array_loop f a
        | Finish => mret (JSON_OK, a, c)
        | Add =>
            '(ok, a) ← add_array_value a v;
            if negb ok then mret (JSON_MEMORY_ERROR, a, c)
            else if c =? RBRACK then mret (JSON_OK, a, c) else array_loop f a
        | Last =>
            '(ok, a) ← add_array_value a v;
            mret (if (ok : bool) then JSON_OK else JSON_MEMORY_ERROR, a, c)
        | Wrong => wrong_here;; mret (JSON_PARSE_ERROR, a, c)
        end
      else wrong_here;; mret (r, a, c)
  end
(** [parse_object] after its check of the brace; [name] is [jpair.name]. *)
with object_loop (fuel : nat) (flags : oflags) (name : json_string) (o : json_object) {struct fuel} :
    JM (Z * json_object * Z) :=
  match fuel with
  | 0%nat => undefined
  | S f =>
      '(c, pos) ← read;
      if c =? 0 then mret (JSON_OK, o, c) else
      match flags with
      | BeforeName =>
          if is_quote c then
            '(r, name, c) ← parse_string_name f c pos;
            if negb (r =? JSON_OK) then mret (r, o, c)
            else if is_quote c then object_loop f BeforeColon name o
            else set_err pos;; mret (JSON_PARSE_ERROR, o, c)
          else if is_upper c || is_lower c || (c =? 95) then
            '(r, name, c) ← parse_string_name f c pos;
            if negb (r =? JSON_OK) then mret (r, o, c)
            else if c =? COLON then pair_value f name o
            else object_loop f BeforeColon name o
          else if (c =? COMMA) || (c =? LBRACE) || is_ws c then object_loop f BeforeName name o
          else if c =? RBRACE then mret (JSON_OK, o, c)
          else set_err pos;; mret (JSON_PARSE_ERROR, o, c)
      | BeforeColon =>
          if c =? COLON then pair_value f name o
          else if is_ws c then object_loop f BeforeColon name o
          else set_err pos;; mret (JSON_PARSE_ERROR, o, c)
      | AfterValue =>
          if c =? COMMA then object_loop f BeforeName no_string o
          else if is_ws c then object_loop f AfterValue name o
          else if c =? RBRACE then mret (JSON_OK, o, c)
          else set_err pos;; mret (JSON_PARSE_ERROR, o, c)
      end
  end
(** From the label [_pair_value_] on. *)
with pair_value (fuel : nat) (name : json_string) (o : json_object) {struct fuel} : JM (Z * json_object * Z) :=
  match fuel with
  | 0%nat => undefined
  | S f =>
      '(c, pos) ← read;
      '(r, v, c) ← parse_value f c pos;
      if negb (r =? JSON_OK) then mret (r, o, c) else
      match after_member v c with
      | (Skip, fl) => object_loop f fl no_string o
      | (Finish, _) => mret (JSON_OK, o, c)
      | (Add, fl) =>
          '(ok, o) ← add_object_pair o (name, v);
          if negb ok then mret (JSON_MEMORY_ERROR, o, c) else object_loop f fl no_string o
      | (Last, _) =>
          '(ok, o) ← add_object_pair o (name, v);
          mret (if (ok : bool) then JSON_OK else JSON_MEMORY_ERROR, o, c)
      | (Wrong, _) => wrong_here;; mret (JSON_PARSE_ERROR, o, c)
      end
  end.

Definition parse_array (fuel : nat) (a : json_array) (c : Z) : JM (Z * json_array * Z) :=
  if c =? LBRACK then array_loop fuel a
  else wrong_here;; mret (JSON_PARSE_ERROR, a, c).
(** [C] is NULL for the root: its opening brace is not asked for. *)
Definition parse_object (fuel : nat) (o : json_object) (C : option Z) : JM (Z * json_object * Z) :=
  let c := default LBRACE C in
  if c =? LBRACE then object_loop fuel BeforeName no_string o
  else wrong_here;; mret (JSON_PARSE_ERROR, o, c).
End parser.

(** ** Contexts *)
(** [root] belongs to the block of the context, so its slots outlive what they
    point to. *)
Record json_context := mkJC {
  jc_addr : Z;                  (* the block of the context itself *)
  jc_htc_addr : Z;              (* [p_htc] *)
  jc_htc : ht_context;
  root : json_object;
  jc_err_pos : Z
}.

Section contexts.
Context {A : Type} `{Allocator A}.

(** [destroy_array] and [destroy_object]: the blocks of the values are freed, the
    arrays of pointers are not.  A pointer to a freed block may not be followed. *)
Definition destroy_slots {X} (sz : Z) (D : X -> M A unit) : list (slot X) -> M A unit :=
  fix go (l : list (slot X)) : M A unit :=
    match l with
    | [] => mret tt
    | SNull :: l => go l
    | SFreed _ :: _ => undefined
    | SAt p x :: l => D x;; mem_free p sz;; go l
    end.
Fixpoint destroy_value (v : json_value) : M A unit :=
  match v with
  | VArray a => destroy_slots JSON_VALUE_SIZE destroy_value (v_slots a)
  | VObject o => destroy_slots JSON_PAIR_SIZE (fun p => destroy_value p.2) (v_slots o)
  | _ => mret tt
  end.
Definition destroy_array (a : json_array) : M A unit := destroy_value (VArray a).
Definition destroy_object (o : json_object) : M A unit := destroy_value (VObject o).

Definition freed {X} (s : slot X) : slot X := match s with SAt p _ => SFreed p | s => s end.
Definition freed_root (o : json_object) : json_object := mkVec (v_ptr o) (freed <$> v_slots o).

(** [None] when there is no memory. *)
Definition json_create_context : M A (option json_context) :=
  r ← mem_alloc JSON_CONTEXT_SIZE;
  if negb (r =? 0) then
    '(p, x) ← ht_create_context;
    if negb (p =? 0) then mret (Some (mkJC r p x no_vec 0))
    else mem_free r JSON_CONTEXT_SIZE;; mret None
  else mret None.

Definition json_reset_context (x : json_context) : M A json_context :=
  destroy_object (root x);;
  mret (mkJC (jc_addr x) (jc_htc_addr x) (ht_reset_context (jc_htc x)) (freed_root (root x)) (jc_err_pos x)).

Definition json_destroy_context (x : json_context) : M A unit :=
  destroy_object (root x);;
  mem_free (jc_addr x) JSON_CONTEXT_SIZE;;
  ht_destroy_context (jc_htc_addr x).

(** Two rounds and a call for each symbol are enough. *)
Definition parse_fuel (sz : Z) : nat := (2 * Z.to_nat sz + 4)%nat.
Definition json_parse (x : json_context) (content : list Z) (sz : Z) : M A (Z * json_context) := fun a =>
  match json_reset_context x a with
  | Some (x, a) =>
      let h := ht_init_context (Some content) sz (jc_htc x) in
      match parse_object (parse_fuel sz) (root x) None (mkP A h (jc_err_pos x) a) with
      | Some ((r, o, _), s) => Some ((r, mkJC (jc_addr x) (jc_htc_addr x) (p_htc s) o (err_pos s)), p_heap s)
      | None => None
      end
  | None => None
  end.
End contexts.

(** ** Queries *)
(** A pointer to a value is the value; [None] outside is undefined behaviour. *)
Definition follow {X} (s : slot X) : option (option X) :=
  match s with SNull => Some None | SFreed _ => None | SAt _ x => Some (Some x) end.

Fixpoint pair_by_name (x : ht_context) (l : list (slot json_pair)) (name : list Z) (sz_name : Z) : option (option json_value) :=
  match l with
  | [] => Some None
  | s :: l =>
      p ← follow s;
      match p with
      | Some (n, v) =>
          match j_data n with
          | Some d =>
              if j_size n =? sz_name then
                r ← ht_compare x (InDoc d) (Ext name) sz_name;
                if r =? 0 then Some (Some v) else pair_by_name x l name sz_name
              else pair_by_name x l name sz_name
          | None => pair_by_name x l name sz_name
          end
      | None => pair_by_name x l name sz_name
      end
  end.
Definition object_pair_by_name (x : ht_context) (o : json_object) (name : list Z) (sz_name : Z) : option (option json_value) :=
  pair_by_name x (v_slots o) name sz_name.

(** The pointer in a slot is not followed here. *)
Definition slot_at {X} (v : vec X) (index : Z) : slot X :=
  if index <? num v then default SNull (v_slots v !! Z.to_nat index) else SNull.
Definition json_array_element (a : json_array) (index : Z) : slot json_value := slot_at a index.
Definition json_object_pair (o : json_object) (index : Z) : slot json_pair := slot_at o index.
Definition json_object_value (o : json_object) (index : Z) : option (option json_value) :=
  match follow (json_object_pair o index) with
  | Some (Some (_, v)) => Some (Some v)
  | Some None => Some None
  | None => None
  end.

(** [json_select]: the variables of the scan over the path. *)
Record sel := mkSel {
  sl_r : option json_value;
  sl_tmp : option json_value;
  sl_start : json_object;
  sl_str : option (list Z);     (* the rest of the path from [str] on, NUL included *)
  sl_sz : Z
}.
Definition enter (v : json_value) (start : json_object) : json_object :=
  match v with VObject o => o | _ => start end.

(** What a character does: [inl] goes on, [inr] leaves the loop. *)
Definition sel_separator (x : ht_context) (s : sel) : option (sel + option json_value) :=
  match sl_str s with
  | Some name =>
      t ← object_pair_by_name x (sl_start s) name (sl_sz s);
      match t with
      | Some v => Some (inl (mkSel (sl_r s) (Some v) (enter v (sl_start s)) None 0))
      | None => Some (inr (sl_r s))
      end
  | None => Some (inl (mkSel (sl_r s) (sl_tmp s) (sl_start s) None 0))
  end.
Definition sel_end (x : ht_context) (s : sel) : option (option json_value) :=
  match sl_str s with
  | Some name => object_pair_by_name x (sl_start s) name (sl_sz s)
  | None => Some (match sl_tmp s with Some v => Some v | None => sl_r s end)
  end.
Definition sel_open (x : ht_context) (s : sel) : option (sel + option json_value) :=
  match sl_str s with
  | Some name =>
      t ← object_pair_by_name x (sl_start s) name (sl_sz s);
      match t with
      | Some v =>
          if (jvt v =? JSON_ARRAY) || (jvt v =? JSON_OBJECT)
          then Some (inl (mkSel (sl_r s) (Some v) (sl_start s) None 0)) else Some (inr (sl_r s))
      | None => Some (inr (sl_r s))
      end
  | None => Some (inr (sl_r s))
  end.
(** [tmp] is read without a test. *)
Definition sel_element (s : sel) (aidx : Z) : option (sel + option json_value) :=
  match sl_tmp s with
  | Some (VArray a) =>
      t ← follow (json_array_element a aidx);
      match t with
      | Some (VObject o) => Some (inl (mkSel (sl_r s) (Some (VObject o)) o None 0))
      | Some v => Some (inr (Some v))
      | None => Some (inl (mkSel (sl_r s) None (sl_start s) None 0))
      end
  | Some (VObject o) =>
      t ← json_object_value o aidx;
      match t with
      | Some (VObject o') => Some (inl (mkSel (sl_r s) (Some (VObject o')) o' None 0))
      | Some v => Some (inr (Some v))
      | None => Some (inl (mkSel (sl_r s) (sl_tmp s) (sl_start s) None 0))
      end
  | Some _ => Some (inl (mkSel (sl_r s) (sl_tmp s) (sl_start s) None 0))
  | None => None
  end.
Definition sel_close (s : sel) : option (sel + option json_value) :=
  match sl_str s with
  | Some idx => i ← atoi idx; sel_element s (u32 i)
  | None => Some (inl (mkSel (sl_r s) (sl_tmp s) (sl_start s) None 0))
  end.

(** [char] is signed: every byte from 128 on is below [0x20]. *)
Fixpoint select_loop (x : ht_context) (path : list Z) (s : sel) : option (option json_value) :=
  match path with
  | [] => Some (sl_r s)
  | c :: rest =>
      if c =? 0 then sel_end x s
      else
        o ← (if (c =? 46) || (c =? 47) then sel_separator x s
             else if c =? LBRACK then sel_open x s
             else if c =? RBRACK then sel_close s
             else if s8 c <? 0x20 then Some (inl s)
             else Some (inl (mkSel (sl_r s) (sl_tmp s) (sl_start s)
               (Some (match sl_str s with Some p => p | None => path end)) (u32 (sl_sz s + 1)))));
        match o with inl s => select_loop x rest s | inr r => Some r end
  end.
Definition json_select (x : json_context) (jpath : list Z) (start : option json_object) : option (option json_value) :=
  select_loop (jc_htc x) (jpath ++ [0]) (mkSel None None (default (root x) start) None 0).

(** ** [cJSON] (hypertext/libht/json.cpp) *)
Module cJSON.
Definition create_context {A} `{Allocator A} : M A (option json_context) := json_create_context.
Definition destroy_context {A} `{Allocator A} (x : json_context) : M A unit := json_destroy_context x.
Definition parse {A} `{Allocator A} (x : json_context) (content : list Z) (size : Z) : M A (bool * json_context) :=
  '(r, x) ← json_parse x content size; mret (r =? JSON_OK, x).
Definition compare (x : json_context) (str1 str2 : pointer) (sz : Z) : option Z := ht_compare (jc_htc x) str1 str2 sz.
Definition select (x : json_context) (jpath : list Z) (start : option json_value) : option (option json_value) :=
  json_select x jpath (match start with Some (VObject o) => Some o | _ => None end).
Definition type (v : json_value) : Z := jvt v.
(** The data and its size, for strings and numbers. *)
Definition data (v : json_value) : option json_string :=
  match v with VString s | VNumber s => Some s | _ => None end.
(** A dangling result counts as undefined. *)
Definition by_index (v : json_value) (index : Z) : option (option json_value) :=
  match v with
  | VArray a => follow (json_array_element a index)
  | VObject o => json_object_value o index
  | _ => Some None
  end.
End cJSON.
