(* ===== verification/JsonRefusal.v ===== *)
(** * JSON parser: refused allocations (hypertext/libht/json.c)

    Whatever the document is, the parser answers [JSON_MEMORY_ERROR] exactly when
    the allocator refused it a block, and then after the first refusal: no error
    of the document is taken for one of memory, and no refusal is overlooked.  The
    rules of [tells] go through the parser without looking at the document. *)
From S2P Require Import Prelude Memory Str HtContext Json.
Set Default Goal Selector "!".

Section tells.
Context {A : Type} `{Allocator A}.
Abbreviation TM := (M (pstate (tracked A))).
Definition refused (s : pstate (tracked A)) : Z := refusals (p_heap s).
(** [k]: a block has been refused already; [b]: whether the result says that one
    has.  At most one refusal is counted. *)
Definition tells {R} (k : bool) (b : R -> bool) (m : TM R) : Prop := forall s,
  wlp m s (fun r s' => refused s' + (if k then 1 else 0) = refused s + (if b r then 1 else 0)).
(** Nothing is refused. *)
Definition quiet {R} (m : TM R) : Prop := forall s, wlp m s (fun _ s' => refused s' = refused s).

Lemma tells_ret {R} k (b : R -> bool) r : b r = k -> tells k b (mret r).
Proof. intros <- s. by apply wlp_ret. Qed.
Lemma tells_bind {R T} k b (b' : T -> bool) (m : TM R) (f : R -> TM T) :
  tells k b m -> (forall r, tells (b r) b' (f r)) -> tells k b' (m ≫= f).
Proof.
  intros Hm Hf s. apply wlp_bind. eapply wlp_mono; [apply Hm|]. intros r s1 E1. eapply wlp_mono; [apply Hf|]. cbv beta. intros t s2 E2. destruct k, (b r), (b' t); lia.
Qed.
Lemma tells_quiet {R T} k (b' : T -> bool) (m : TM R) (f : R -> TM T) :
  quiet m -> (forall r, tells k b' (f r)) -> tells k b' (m ≫= f).
Proof.
  intros Hm Hf. apply (tells_bind _ (fun _ => k)); [|done]. intros s. eapply wlp_mono; [apply Hm|]. cbn. intros r s' ->. done.
Qed.
Lemma tells_undefined {R} k (b : R -> bool) : tells k b undefined.
Proof. intros s. apply wlp_undefined. Qed.
Lemma quiet_ret {R} (r : R) : quiet (mret r).
Proof. intros s. by apply wlp_ret. Qed.
Lemma quiet_bind {R T} (m : TM R) (f : R -> TM T) : quiet m -> (forall r, quiet (f r)) -> quiet (m ≫= f).
Proof. intros Hm Hf s. apply wlp_bind. eapply wlp_mono; [apply Hm|]. cbn. intros r s1 E1. eapply wlp_mono; [apply Hf|]. cbn. intros t s2 E2. lia. Qed.
Lemma quiet_undefined {R} : quiet (undefined : TM R).
Proof. intros s. apply wlp_undefined. Qed.
Lemma quiet_when c (m : TM unit) : quiet m -> quiet (when c m).
Proof. intros Hm. destruct c; [done|]. apply quiet_ret. Qed.

(** *** The operations of the parser *)
Lemma quiet_read : quiet read.
Proof. intros s. apply wlp_intro. intros r s'. unfold read. destruct (pf_read (p_htc s)) as [e|]; [|done]. by destruct (read_of e _) as [[r' h]|]; [intros [= <- <-]|]. Qed.
Lemma quiet_htc : quiet htc.
Proof. intros s. by apply wlp_gets. Qed.
Lemma quiet_err p : quiet (set_err p).
Proof. intros s. done. Qed.
Lemma quiet_free p n : quiet (heap_op (mem_free p n)).
Proof. intros s. apply wlp_intro. intros r s'. unfold heap_op, mem_free. case_decide; [|done]. by intros [= <- <-]. Qed.
Lemma tells_alloc n : tells false (fun p => p =? 0) (heap_op (mem_alloc n)).
Proof.
  intros s. apply wlp_intro. intros r s'. unfold heap_op, mem_alloc, refused. cbn. destruct (a_alloc (t_base (p_heap s)) n) as [p b].
  intros [= <- <-]. cbn. lia.
Qed.
Lemma tells_of_quiet {R} k (b : R -> bool) (m : TM R) : (forall s, wlp m s (fun r s' => refused s' = refused s /\ b r = k)) -> tells k b m.
Proof. intros Hm s. eapply wlp_mono; [apply Hm|]. cbn. by intros r s' [-> ->]. Qed.
Lemma tells_after {R T} k (b : R -> bool) (b' : T -> bool) (f : R -> T) (m : TM R) : tells k b m -> (forall r, b' (f r) = b r) -> tells k b' (x ← m; mret (f x)).
Proof. intros Hm Hb. eapply tells_bind; [exact Hm|]. intros r. by apply tells_ret. Qed.
End tells.

Create HintDb quiet discriminated.
#[export] Hint Resolve quiet_ret quiet_undefined quiet_read quiet_htc quiet_err quiet_free : quiet.
(** Syntax-directed: quiet code. *)
Ltac quietly :=
  repeat first
    [ progress intros
    | solve [auto with quiet nocore]
    | apply quiet_bind
    | apply quiet_when
    | match goal with
      | |- quiet (if ?c then _ else _) => destruct c
      | |- quiet (match ?x with _ => _ end) => destruct x
      | |- quiet (let _ := _ in _) => cbv zeta
      end ].

Section json.
Context {A : Type} `{Allocator A}.
Abbreviation TM := (M (pstate (tracked A))).
Lemma quiet_lift {R} (o : option R) : quiet (lift_opt o : TM R).
Proof. intros s. by apply wlp_lift_opt. Qed.
Lemma quiet_span d p : quiet (span d p : TM json_string).
Proof. unfold span. quietly. Qed.
Lemma quiet_wrong : quiet (wrong_here : TM unit).
Proof. unfold wrong_here. quietly. Qed.
Lemma quiet_string_loop fuel : forall term prev, quiet (string_loop fuel term prev : TM _).
Proof. induction fuel as [|fuel IH]; intros term prev; cbn [string_loop]; quietly. Qed.
Lemma quiet_const_loop fuel : forall c sz, quiet (const_loop fuel c sz : TM _).
Proof. induction fuel as [|fuel IH]; intros c sz; cbn [const_loop]; quietly. Qed.
Lemma quiet_literal l p n : quiet (literal l p n : TM bool).
Proof. unfold literal. apply quiet_bind; [quietly|]. intros x. apply quiet_bind; [apply quiet_lift|quietly]. Qed.
Hint Resolve quiet_lift quiet_span quiet_wrong quiet_string_loop quiet_const_loop quiet_literal : quiet.

(** What the result of the parser says. *)
Definition no_memory {X Y} (r : Z * X * Y) : bool := r.1.1 =? JSON_MEMORY_ERROR.
Abbreviation told := (tells false no_memory).
Ltac telling :=
  repeat first
    [ progress intros
    | progress cbn [negb]
    | solve [auto with quiet nocore]
    | solve [apply tells_ret; reflexivity]
    | apply tells_undefined
    | apply tells_quiet; [solve [quietly]|]
    | match goal with
      | |- tells _ _ (if ?c then _ else _) => destruct c
      | |- tells _ _ (match ?x with _ => _ end) => destruct x
      end ].
(** A call of the parser, and what is done with its answer. *)
Lemma told_bind {X Y T} (b' : T -> bool) (m : TM (Z * X * Y)) (f : Z * X * Y -> TM T) : told m ->
  (forall x y, tells true b' (f (JSON_MEMORY_ERROR, x, y))) -> (forall r x y, r <> JSON_MEMORY_ERROR -> tells false b' (f (r, x, y))) ->
  tells false b' (m ≫= f).
Proof.
  intros Hm Ht Hf. eapply tells_bind; [exact Hm|]. intros [[r x] y]. unfold no_memory. cbn [fst].
  destruct (Z.eqb_spec r JSON_MEMORY_ERROR) as [->|Hr]; [apply Ht|by apply Hf].
Qed.
Lemma told_ret {X Y} r (x : X) (y : Y) : r <> JSON_MEMORY_ERROR -> told (mret (r, x, y) : TM _).
Proof. intros Hr. apply tells_ret. by apply Z.eqb_neq. Qed.
Hint Resolve told_ret : quiet.

Lemma told_num_loop fuel : forall c i nt pos, told (num_loop fuel c i nt pos : TM _).
Proof. induction fuel as [|fuel IH]; intros c i nt pos; cbn [num_loop]; telling. Qed.
Lemma told_number fuel c p : told (parse_number fuel c p : TM _).
Proof. unfold parse_number. apply told_bind; [apply told_num_loop|telling..]. Qed.
Lemma told_name_loop fuel : forall q s y c pos, told (name_loop fuel q s y c pos : TM _).
Proof. induction fuel as [|fuel IH]; intros q s y c pos; cbn [name_loop]; telling. Qed.
Lemma told_name_end fuel q s y c pos : told (name_end fuel q s y c pos : TM _).
Proof. unfold name_end. apply told_bind; [apply told_name_loop|telling..]. Qed.
Hint Resolve told_name_end : quiet.
Lemma told_name fuel c p : told (parse_string_name fuel c p : TM _).
Proof. unfold parse_string_name. telling. Qed.
Lemma told_string fuel c : told (parse_string_value fuel c : TM _).
Proof. unfold parse_string_value. telling. Qed.
Lemma told_const fuel c p : told (parse_const fuel c p : TM _).
Proof. unfold parse_const. telling. Qed.

(** *** Arrays of pointers *)
Lemma tells_fill {X} sz (v : vec X) i x : tells false (fun r => negb r.1) (fill_slot sz v i x : TM _).
Proof. unfold fill_slot. eapply tells_bind; [apply tells_alloc|]. intros p. cbv beta. destruct (p =? 0); cbn [negb]; by apply tells_ret. Qed.
Lemma tells_alloc_slots {X} (v : vec X) : tells false (fun r => negb (r.1 =? JSON_OK)) (alloc_slots v : TM _).
Proof.
  unfold alloc_slots. cbv zeta. eapply tells_bind; [apply tells_alloc|]. intros p. cbv beta. destruct (p =? 0); cbn [negb]; [by apply tells_ret|]. telling.
Qed.
Lemma tells_add {X} sz (v : vec X) x : tells false (fun r => negb r.1) (add_slot alloc_slots sz v x : TM _).
Proof.
  unfold add_slot. destruct (first_null (v_slots v) 0); [apply tells_fill|]. eapply tells_bind; [apply tells_alloc_slots|].
  intros [r v']. cbn [fst]. destruct (r =? JSON_OK); cbn [negb]; [apply tells_fill|by apply tells_ret].
Qed.
Lemma add_bind {X T} (b' : T -> bool) sz (v : vec X) x (f : bool * vec X -> TM T) :
  (forall v', tells true b' (f (false, v'))) -> (forall v', tells false b' (f (true, v'))) -> tells false b' (add_slot alloc_slots sz v x ≫= f).
Proof. intros Ht Hf. eapply tells_bind; [apply tells_add|]. intros [[|] v']; [apply Hf|apply Ht]. Qed.

(** *** The whole parser *)
Lemma told_parser fuel :
  (forall c p, told (parse_value fuel c p : TM _)) /\ (forall a, told (array_loop fuel a : TM _)) /\
  (forall fl n o, told (object_loop fuel fl n o : TM _)) /\ (forall n o, told (pair_value fuel n o : TM _)).
Proof.
  induction fuel as [|f (IHv & IHa & IHo & IHp)]; [split_and!; intros; apply tells_undefined|]. split_and!.
  - intros c p. cbn [parse_value]. destruct (is_quote c); [apply told_bind; [apply told_string|telling..]|].
    destruct (c =? LBRACK); [apply told_bind; [apply IHa|telling..]|]. destruct (c =? LBRACE); [apply told_bind; [apply IHo|telling..]|].
    destruct (is_digit c || _ || _ || _); [apply told_bind; [apply told_number|telling..]|].
    destruct (is_lower c); [apply told_const|]. telling.
  - intros a. cbn [array_loop]. apply tells_quiet; [quietly|]. intros [c p]. destruct (c =? 0); [telling|].
    apply told_bind; [apply IHv|telling|]. intros r v c' Hr. destruct (r =? JSON_OK); [|telling].
    destruct (after_element v c'); [apply IHa|unfold add_array_value; apply add_bind; telling..|telling|telling].
  - intros fl n o. cbn [object_loop]. apply tells_quiet; [quietly|]. intros [c p]. destruct (c =? 0); [telling|]. destruct fl; [|telling..].
    destruct (is_quote c); [apply told_bind; [apply told_name|telling..]|].
    destruct (is_upper c || _ || _); [apply told_bind; [apply told_name|telling..]|]. telling.
  - intros n o. cbn [pair_value]. apply tells_quiet; [quietly|]. intros [c p]. apply told_bind; [apply IHv|telling|].
    intros r v c' Hr. destruct (r =? JSON_OK); [|telling]. cbn [negb].
    destruct (after_member v c') as [[] fl]; [apply IHo|unfold add_object_pair; apply add_bind; telling..|telling|telling].
Qed.
Lemma told_object fuel o C : told (parse_object fuel o C : TM _).
Proof. unfold parse_object. cbv zeta. destruct (_ =? LBRACE); [apply told_parser|telling]. Qed.
(** Parsing in a context without a document: what was refused is what the answer says. *)
Lemma json_parse_told x content sz (a : tracked A) r x' a' : root x = no_vec -> json_parse x content sz a = Some ((r, x'), a') ->
  refusals a' = refusals a + (if r =? JSON_MEMORY_ERROR then 1 else 0).
Proof.
  intros Hroot. unfold json_parse, json_reset_context, destroy_object, mbind, M_bind, mret, M_ret. rw Hroot. cbn [destroy_value v_slots no_vec destroy_slots freed_root fmap list_fmap root mret M_ret].
  pose proof (told_object (parse_fuel sz) no_vec None (mkP (tracked A) (ht_init_context (Some content) sz (ht_reset_context (jc_htc x))) (jc_err_pos x) a)) as Hw.
  unfold wlp in Hw. cbn [jc_htc jc_err_pos]. destruct (parse_object _ _ _ _) as [[[[r0 o0] c0] s0]|]; [|done]. intros [= <- <- <-].
  unfold no_memory, refused in Hw. cbn [fst p_heap] in Hw. lia.
Qed.
End json.
