(* ===== verification/JsonScan.v ===== *)
(** * JSON parser: reading and scalars (hypertext/libht/json.c, context.c)

    For every document, in every encoding, a symbol can be read and a scalar be
    scanned; the strings and numbers lie inside the document.  The measure is
    what is left to read. *)
From S2P Require Import Prelude Memory Str HtContext Json.
Set Default Goal Selector "!".

(** ** Reading *)
Definition MAX_DOCUMENT : Z := 2 ^ 28.

Record readable (x : ht_context) : Prop := {
  rd_fn : pf_read x = Some (encoding (htc_content x));
  rd_encoding : 0 <= encoding (htc_content x) <= 4;
  rd_size : sz_content (htc_content x) <= Z.of_nat (length (p_content (htc_content x)));
  rd_bytes : Forall is_byte (p_content (htc_content x));
  rd_pos : 0 <= c_pos (htc_content x) <= sz_content (htc_content x);
  rd_wide : encoding (htc_content x) <> E_UTF_8 -> 4 < sz_content (htc_content x);
  rd_max : sz_content (htc_content x) < MAX_DOCUMENT
}.

(** The same document, read further. *)
Definition further (x x' : ht_context) : Prop :=
  exists p, x' = mkHT (set_pos p (htc_content x)) (pf_read x) /\
    c_pos (htc_content x) <= p <= sz_content (htc_content x).

Lemma further_refl x : readable x -> further x x.
Proof. intros Hr. exists (c_pos (htc_content x)). split; [by destruct x as [[]]|]. pose proof (rd_pos _ Hr). lia. Qed.
Lemma further_trans x y z : further x y -> further y z -> further x z.
Proof. intros (p & -> & Hp) (q & -> & Hq). exists q. split; [done|]. cbn in *. lia. Qed.
Lemma further_readable x x' : readable x -> further x x' -> readable x'.
Proof. intros [H1 H2 H3 H4 H5 H6 H7] (p & -> & Hp). split; cbn; try done. lia. Qed.

Lemma load8_some m p : 0 <= p < Z.of_nat (length m) -> exists b, load8 m p = Some b /\ b ∈ m.
Proof.
  intros Hp. unfold load8. destruct (Z.ltb_spec p 0); [lia|].
  destruct (lookup_lt_is_Some_2 m (Z.to_nat p)) as [b Hb]; [lia|]. exists b. split; [done|]. by eapply list_elem_of_lookup_2.
Qed.
Lemma load8_byte m p : Forall is_byte m -> 0 <= p < Z.of_nat (length m) -> exists b, load8 m p = Some b /\ is_byte b.
Proof. intros Hm Hp. destruct (load8_some m p Hp) as (b & Hb & Hin). exists b. split; [done|]. by eapply Forall_forall. Qed.

Lemma lor_bound a b n : 0 < n -> 0 <= a < 2 ^ n -> 0 <= b < 2 ^ n -> 0 <= Z.lor a b < 2 ^ n.
Proof.
  intros Hn Ha Hb. assert (0 <= Z.lor a b) as H0 by (apply Z.lor_nonneg; lia). split; [done|].
  destruct (Z.eq_dec (Z.lor a b) 0) as [->|Hz]; [lia|].
  assert (forall z, 0 <= z < 2 ^ n -> Z.log2 z < n) as Hl.
  { intros z Hz'. destruct (Z.eq_dec z 0) as [->|]; [done|]. apply Z.log2_lt_pow2; lia. }
  apply Z.log2_lt_pow2; [lia|]. rw Z.log2_lor; [|lia|lia]. apply Z.max_lub_lt; auto.
Qed.

Lemma load16_some m p : Forall is_byte m -> 0 <= p -> p + 1 < Z.of_nat (length m) -> exists z, load16 m p = Some z /\ 0 <= z < 2 ^ 16.
Proof.
  intros Hm H0 Hp. unfold load16. destruct (load8_byte m p Hm) as (b0 & -> & H1); [lia|].
  destruct (load8_byte m (p + 1) Hm) as (b1 & -> & H2); [lia|]. cbn. eexists. split; [done|]. unfold is_byte in *.
  rw Z.shiftl_mul_pow2; [|lia]. apply lor_bound; [done|lia|lia].
Qed.
Lemma load32_some m p : Forall is_byte m -> 0 <= p -> p + 3 < Z.of_nat (length m) -> exists z, load32 m p = Some z /\ 0 <= z < 2 ^ 32.
Proof.
  intros Hm H0 Hp. unfold load32. destruct (load16_some m p Hm) as (z0 & -> & H1); [lia|lia|].
  destruct (load16_some m (p + 2) Hm) as (z1 & -> & H2); [lia|lia|]. cbn. eexists. split; [done|].
  rw Z.shiftl_mul_pow2; [|lia]. apply lor_bound; [done|lia|lia].
Qed.

(** Eight shifts clear a byte. *)
Lemma utf8_tail_some k m sz c r p : Forall is_byte m -> sz <= Z.of_nat (length m) -> 0 <= p <= sz ->
  (k <= 8)%nat -> 0 <= c < 256 -> c mod 2 ^ (8 - Z.of_nat k) = 0 ->
  exists r' p', utf8_tail (S k) m sz c r p = Some (r', p') /\ p <= p' <= sz.
Proof.
  intros Hm Hsz. revert c r p. induction k as [|k IH]; intros c r p Hp Hk Hc Hz; cbn [utf8_tail].
  - assert (c = 0) as -> by (rw Z.mod_small in Hz; [|lia]; done). cbn. exists r, p. split; [done|lia].
  - destruct (_ && (p <? sz)) eqn:Eg; [|exists r, p; split; [done|lia]]. apply andb_true_iff in Eg as [_ Eg%Z.ltb_lt].
    destruct (load8_byte m p Hm) as (b & -> & _); [lia|]. cbn.
    destruct (IH (u8 (Z.shiftl c 1)) (Z.lor (u32 (Z.shiftl r 8)) b) (p + 1)) as (r' & p' & E & Hp'); [lia|lia|apply u8_range| |].
    + unfold u8. rw Z.shiftl_mul_pow2; [|lia]. apply Z.mod_divide; [lia|]. apply Z.mod_divide in Hz as [q ->]; [|lia].
      replace (8 - Z.of_nat k) with (8 - Z.of_nat (S k) + 1) by lia. rw Z.pow_add_r; [|lia|lia].
      rw Z.mod_eq; [|lia]. apply Z.divide_sub_r.
      * exists q. ring.
      * apply Z.divide_mul_l. exists (2 ^ (8 - (8 - Z.of_nat (S k) + 1))). rw -!Z.pow_add_r; [|lia..]. f_equal. lia.
    + exists r', p'. split; [exact E|lia].
Qed.

Lemma set_pos_same h : set_pos (c_pos h) h = h.
Proof. by destruct h. Qed.

Lemma read_utf8_some x : readable x -> let h := htc_content x in
  exists c p, read_utf8 h = Some ((c, c_pos h), set_pos p h) /\ c_pos h <= p <= sz_content h /\ (c <> 0 -> c_pos h < p).
Proof.
  intros Hr h. pose proof (rd_pos _ Hr) as Hp. pose proof (rd_size _ Hr) as Hs. fold h in Hp, Hs. unfold read_utf8.
  destruct (Z.ltb_spec (c_pos h) (sz_content h)) as [Hlt|Hge].
  - destruct (load8_byte (p_content h) (c_pos h) (rd_bytes _ Hr)) as (b & -> & Hb); [lia|]. cbn [mbind option_bind].
    destruct (utf8_tail_some 8 (p_content h) (sz_content h) b b (c_pos h + 1) (rd_bytes _ Hr) Hs) as (r & p & -> & Hpp);
      [lia|lia|exact Hb|by rw Z.mod_1_r|]. cbn [mbind option_bind]. exists r, p. split; [done|lia].
  - exists 0, (c_pos h). rw set_pos_same. split; [done|lia].
Qed.

Lemma read_wide_some n load swap order x : readable x -> encoding (htc_content x) <> E_UTF_8 ->
  0 < n <= 4 -> (forall p, 0 <= p -> p + n <= sz_content (htc_content x) -> is_Some (load (p_content (htc_content x)) p)) ->
  let h := htc_content x in
  exists c p, read_wide n load swap order h = Some ((c, c_pos h), set_pos p h) /\ c_pos h <= p <= sz_content h /\ (c <> 0 -> c_pos h < p).
Proof.
  intros Hr He Hn Hl h. pose proof (rd_pos _ Hr) as Hp. pose proof (rd_max _ Hr) as Hmax. pose proof (rd_wide _ Hr He) as Hw.
  fold h in Hp, Hmax, Hw. unfold MAX_DOCUMENT in Hmax. unfold read_wide. rw u64_small; [|lia].
  destruct (Z.ltb_spec (c_pos h) (sz_content h - n)) as [Hlt|Hge].
  - destruct (Hl (c_pos h)) as [c Hc]; [lia|fold h; lia|]. fold h in Hc. rw Hc. cbn [mbind option_bind].
    eexists _, (c_pos h + n). split; [done|lia].
  - exists 0, (c_pos h). rw set_pos_same. split; [done|lia].
Qed.

Lemma read_of_some x : readable x -> let h := htc_content x in
  exists c p, read_of (encoding h) h = Some ((c, c_pos h), set_pos p h) /\ c_pos h <= p <= sz_content h /\ (c <> 0 -> c_pos h < p).
Proof.
  intros Hr h. unfold read_of. pose proof (rd_size _ Hr) as Hs. fold h in Hs.
  destruct (Z.eqb_spec (encoding h) E_UTF_8) as [|He]; [by apply read_utf8_some|].
  assert (forall p, 0 <= p -> p + 2 <= sz_content h -> is_Some (load16 (p_content h) p)) as H16.
  { intros p H0 Hp. destruct (load16_some (p_content h) p (rd_bytes _ Hr)) as (z & -> & _); [lia|lia|by eexists]. }
  assert (forall p, 0 <= p -> p + 4 <= sz_content h -> is_Some (load32 (p_content h) p)) as H32.
  { intros p H0 Hp. destruct (load32_some (p_content h) p (rd_bytes _ Hr)) as (z & -> & _); [lia|lia|by eexists]. }
  repeat case_match; by apply read_wide_some.
Qed.

(** ** Letters *)
(** [c] was read at [pos], and [h] is the document behind it. *)
Definition saw (h : ht_content) (c pos : Z) : Prop := read_of (encoding h) (set_pos pos h) = Some ((c, pos), h).

Lemma lead_not_lower b : is_byte b -> Z.land b 0xc0 = 0xc0 -> is_lower b = false /\ b <> 0.
Proof.
  unfold is_byte, is_lower. intros Hb E. assert (Z.testbit b 7 = true) as Ht.
  { pose proof (f_equal (fun z => Z.testbit z 7) E) as Ht. cbn beta in Ht. rw Z.land_spec in Ht. by apply andb_true_iff in Ht as [? _]. }
  assert (128 <= b) as Hge; [|split; lia]. destruct (Z.le_gt_cases 128 b); [done|]. exfalso.
  destruct (Z.eq_dec b 0) as [->|]; [done|]. rw Z.bits_above_log2 in Ht; [|lia|apply Z.log2_lt_pow2; lia]. done.
Qed.

Lemma bswap16_zero : bswap16 0 = 0. Proof. done. Qed.
Lemma bswap32_bound z : 0 <= z < 2 ^ 32 -> 0 <= bswap32 z < 2 ^ 32.
Proof.
  intros Hz. assert (forall y, 0 <= bswap16 y < 2 ^ 16) as H16.
  { intros y. unfold bswap16. change 0xff with (Z.ones 8). rw !Z.land_ones; [|lia..]. rw Z.shiftl_mul_pow2; [|lia].
    pose proof (Z.mod_pos_bound y (2 ^ 8) ltac:(lia)). pose proof (Z.mod_pos_bound (Z.shiftr y 8) (2 ^ 8) ltac:(lia)).
    apply lor_bound; lia. }
  unfold bswap32. rw Z.shiftl_mul_pow2; [|lia]. pose proof (H16 (Z.land z 0xffff)). pose proof (H16 (Z.land (Z.shiftr z 16) 0xffff)).
  apply lor_bound; lia.
Qed.
Lemma bswap32_low z : 0 <= z < 2 ^ 16 -> bswap32 z = 0 -> bswap16 z = 0.
Proof.
  intros Hz E. unfold bswap32 in E. apply Z.lor_eq_0_iff in E as [E _].
  rw (Z.land_ones z 16) in E; [|lia]. rw Z.mod_small in E; [|lia]. rw Z.shiftl_mul_pow2 in E; lia.
Qed.

Lemma wide_letter n load swap order x c pos : readable x -> encoding (htc_content x) <> E_UTF_8 -> 0 < n <= 4 ->
  read_wide n load swap order (set_pos pos (htc_content x)) = Some ((c, pos), htc_content x) -> c <> 0 ->
  exists r, load (p_content (htc_content x)) pos = Some r /\ c = (if machine_order (htc_content x) =? order then swap r else r) /\
    c_pos (htc_content x) = pos + n /\ pos < sz_content (htc_content x).
Proof.
  intros Hr He Hn E Hc. pose proof (rd_wide _ Hr He) as Hw. pose proof (rd_max _ Hr) as Hmax. unfold MAX_DOCUMENT in Hmax.
  set (h := htc_content x) in *. unfold read_wide in E. cbn in E. rw u64_small in E; [|lia].
  destruct (Z.ltb_spec pos (sz_content h - n)).
  - destruct (load (p_content h) pos) as [r|] eqn:El; [|done]. cbn in E. injection E as Ec Eh. exists r.
    split; [done|]. split; [done|]. split; [by rw -Eh|lia].
  - injection E as Ec Eh. by rw -Ec in Hc.
Qed.

Lemma load16_bound m p r : Forall is_byte m -> load16 m p = Some r -> 0 <= r < 2 ^ 16.
Proof.
  intros Hm. unfold load16. destruct (load8 m p) as [b0|] eqn:E0; [|done]. destruct (load8 m (p + 1)) as [b1|] eqn:E1; [|done].
  cbn. intros [= <-]. assert (forall q b, load8 m q = Some b -> is_byte b) as Hl.
  { intros q b. unfold load8. destruct (q <? 0); [done|]. by apply Forall_lookup_1. }
  pose proof (Hl _ _ E0). pose proof (Hl _ _ E1). unfold is_byte in *. rw Z.shiftl_mul_pow2; [|lia]. apply lor_bound; lia.
Qed.
Lemma load32_bound m p r : Forall is_byte m -> load32 m p = Some r -> 0 <= r < 2 ^ 32.
Proof.
  intros Hm. unfold load32. destruct (load16 m p) as [b0|] eqn:E0; [|done]. destruct (load16 m (p + 2)) as [b1|] eqn:E1; [|done].
  cbn. intros [= <-]. pose proof (load16_bound _ _ _ Hm E0). pose proof (load16_bound _ _ _ Hm E1).
  rw Z.shiftl_mul_pow2; [|lia]. apply lor_bound; lia.
Qed.

(** The symbol at [pos] as [ht_compare] sees it: not NUL, and no letter unless
    it takes the usual number of bytes. *)
Definition symbol_ok (h : ht_content) (pos : Z) : Prop :=
  exists y, symbol_at h (encoding h) (InDoc pos) 0 = Some y /\ 0 < y < 2 ^ 32 /\
    (c_pos h = pos + symbol_bytes (encoding h) \/ is_lower y = false).

Lemma letter_bounds c : is_lower c = true -> c <> 0 /\ 0 < c < 2 ^ 16.
Proof. unfold is_lower. lia. Qed.

Lemma wide16_letter order x c pos : readable x -> encoding (htc_content x) <> E_UTF_8 ->
  read_wide 2 load16 bswap16 order (set_pos pos (htc_content x)) = Some ((c, pos), htc_content x) -> is_lower c = true ->
  exists r, load16 (p_content (htc_content x)) pos = Some r /\
    0 < (if machine_order (htc_content x) =? order then bswap32 r else r) < 2 ^ 32 /\
    c_pos (htc_content x) = pos + 2 /\ pos < sz_content (htc_content x).
Proof.
  intros Hr He E Hl. destruct (letter_bounds c Hl) as [Hc Hb].
  destruct (wide_letter 2 load16 bswap16 order x c pos Hr He ltac:(lia) E Hc) as (r & El & Ec & Ep & Hp).
  exists r. split; [done|]. split; [|done]. pose proof (load16_bound _ _ _ (rd_bytes _ Hr) El).
  destruct (machine_order (htc_content x) =? order); [|lia]. pose proof (bswap32_bound r ltac:(lia)).
  destruct (Z.eq_dec (bswap32 r) 0) as [Ez|]; [|lia]. exfalso. apply Hc. rw Ec. by apply bswap32_low.
Qed.
Lemma wide32_letter order x c pos : readable x -> encoding (htc_content x) <> E_UTF_8 ->
  read_wide 4 load32 bswap32 order (set_pos pos (htc_content x)) = Some ((c, pos), htc_content x) -> is_lower c = true ->
  exists r, load32 (p_content (htc_content x)) pos = Some r /\
    0 < (if machine_order (htc_content x) =? order then bswap32 r else r) < 2 ^ 32 /\
    c_pos (htc_content x) = pos + 4 /\ pos < sz_content (htc_content x).
Proof.
  intros Hr He E Hl. destruct (letter_bounds c Hl) as [Hc Hb].
  destruct (wide_letter 4 load32 bswap32 order x c pos Hr He ltac:(lia) E Hc) as (r & El & Ec & Ep & Hp).
  exists r. split; [done|]. split; [|done]. rw -Ec. lia.
Qed.

Lemma utf8_letter x c pos : readable x -> 0 <= pos -> read_utf8 (set_pos pos (htc_content x)) = Some ((c, pos), htc_content x) ->
  is_lower c = true -> exists b, load8 (p_content (htc_content x)) pos = Some b /\ 0 < b < 256 /\
    pos < sz_content (htc_content x) /\ (c_pos (htc_content x) = pos + 1 \/ is_lower b = false).
Proof.
  intros Hr Hpos Hs Hl. destruct (letter_bounds c Hl) as [Hc _]. pose proof (rd_size _ Hr) as Hsz. unfold read_utf8 in Hs. cbn in Hs.
  destruct (Z.ltb_spec pos (sz_content (htc_content x))) as [Hlt|]; [|by injection Hs as Hs _; rw -Hs in Hc].
  destruct (load8_byte (p_content (htc_content x)) pos (rd_bytes _ Hr)) as (b & Eb & Hb); [lia|]. rw Eb in Hs.
  cbn [mbind option_bind] in Hs. exists b. split; [done|]. unfold is_byte in Hb. cbn [utf8_tail] in Hs.
  destruct (Z.land b 0xc0 =? 0xc0) eqn:El.
  - apply Z.eqb_eq in El. destruct (lead_not_lower b Hb El) as [? ?]. split; [lia|]. split; [done|by right].
  - cbn [andb mbind option_bind] in Hs. injection Hs as Eb' Eh. subst b. split; [lia|]. split; [done|]. left. by rw -Eh.
Qed.

Lemma saw_letter x c pos : readable x -> 0 <= pos -> saw (htc_content x) c pos -> is_lower c = true ->
  symbol_ok (htc_content x) pos /\ pos < sz_content (htc_content x).
Proof.
  intros Hr Hpos Hs Hl. unfold saw, read_of in Hs. unfold symbol_ok, symbol_at. cbn [deref]. rw !Z.mul_0_r !Z.add_0_r.
  destruct (Z.eqb_spec (encoding (htc_content x)) E_UTF_8) as [Ee|He].
  { destruct (utf8_letter x c pos Hr Hpos Hs Hl) as (b & -> & Hb & Hp & Hq). split; [|done]. exists b. rw Ee. by split_and!; [|lia|lia|]. }
  unfold symbol_bytes. pose proof (rd_encoding _ Hr) as Henc.
  destruct (Z.eqb_spec (encoding (htc_content x)) E_UTF_16_BE) as [Ee|].
  { destruct (wide16_letter _ x c pos Hr He Hs Hl) as (r & -> & Hb & Hp & Hq). split; [|done]. eexists. split; [done|]. split; [done|].
    left. by rw Ee. }
  destruct (Z.eqb_spec (encoding (htc_content x)) E_UTF_16_LE) as [Ee|].
  { destruct (wide16_letter _ x c pos Hr He Hs Hl) as (r & -> & Hb & Hp & Hq). split; [|done]. eexists. split; [done|]. split; [done|].
    left. by rw Ee. }
  destruct (Z.eqb_spec (encoding (htc_content x)) E_UTF_32_BE) as [Ee|].
  { destruct (wide32_letter _ x c pos Hr He Hs Hl) as (r & -> & Hb & Hp & Hq). split; [|done]. eexists. split; [done|]. split; [done|].
    left. by rw Ee. }
  assert (encoding (htc_content x) = E_UTF_32_LE) as Ee by (unfold E_UTF_8, E_UTF_16_BE, E_UTF_16_LE, E_UTF_32_BE, E_UTF_32_LE in *; lia).
  destruct (wide32_letter _ x c pos Hr He Hs Hl) as (r & -> & Hb & Hp & Hq). split; [|done]. eexists. split; [done|]. split; [done|].
  left. by rw Ee.
Qed.

(** Comparing with a literal stops at its NUL at the latest. *)
Definition letters (h : ht_content) (cpos k : Z) : Prop := exists m, 0 <= m <= k /\
  (forall j, 0 <= j < m -> exists y, symbol_at h (encoding h) (InDoc cpos) j = Some y /\ 0 < y < 2 ^ 32) /\
  (m = k \/ exists y, symbol_at h (encoding h) (InDoc cpos) m = Some y /\ 0 < y < 2 ^ 32 /\ is_lower y = false).

Lemma letter_at lit i : Forall (fun c => is_lower c = true) lit -> (i <= length lit)%nat ->
  exists c, symbol_at blank_content E_UTF_8 (Ext (lit ++ [0])) (Z.of_nat i) = Some c /\ 0 <= c < 256 /\
    ((i < length lit)%nat /\ is_lower c = true \/ i = length lit /\ c = 0).
Proof.
  intros Hlit Hi. unfold symbol_at, deref, load8. cbn [Z.eqb E_UTF_8]. destruct (Z.ltb_spec (Z.of_nat i) 0); [lia|]. rw Nat2Z.id.
  destruct (decide (i < length lit)%nat) as [Hlt|].
  - destruct (lookup_lt_is_Some_2 lit i Hlt) as [c Hc]. exists c. rw lookup_app_l //. pose proof (Forall_lookup_1 _ _ _ _ Hlit Hc) as Hl.
    cbn beta in Hl. split; [done|]. split; [unfold is_lower in Hl; lia|by left].
  - assert (i = length lit) as -> by lia. exists 0. rw lookup_app_r // Nat.sub_diag. split; [done|]. split; [lia|by right].
Qed.

Lemma s32_sub_zero a b : 0 <= a < 256 -> 0 < b < 2 ^ 32 -> s32 (a - b) = 0 -> a = b.
Proof.
  intros Ha Hb Ez. unfold s32 in Ez. assert ((a - b + 2 ^ 31) mod 2 ^ 32 = 2 ^ 31) as Em by lia.
  rw (Z.mod_eq (a - b + 2 ^ 31) (2 ^ 32)) in Em; [|lia].
  assert ((a - b + 2 ^ 31) / 2 ^ 32 = 0); [|lia].
  assert (-1 <= (a - b + 2 ^ 31) / 2 ^ 32 < 1) by (split; [apply Z.div_le_lower_bound; lia|apply Z.div_lt_upper_bound; lia]). nia.
Qed.

Lemma compare_letters h lit cpos k m : Forall (fun c => is_lower c = true) lit ->
  (forall j, 0 <= j < m -> exists y, symbol_at h (encoding h) (InDoc cpos) j = Some y /\ 0 < y < 2 ^ 32) ->
  (m = Z.of_nat k \/ exists y, symbol_at h (encoding h) (InDoc cpos) m = Some y /\ 0 < y < 2 ^ 32 /\ is_lower y = false) ->
  forall n i, (n + i = k)%nat -> (i <= length lit)%nat -> Z.of_nat i <= m <= Z.of_nat k ->
  is_Some (compare_loop n h E_UTF_8 (encoding h) (Ext (lit ++ [0])) (InDoc cpos) (Z.of_nat i)).
Proof.
  intros Hlit Hm Hend. induction n as [|n IH]; intros i Hn Hi Him; [by eexists|]. cbn [compare_loop].
  destruct (letter_at lit i Hlit Hi) as (c1 & E1 & Hb1 & Hc1).
  assert (exists y, symbol_at h (encoding h) (InDoc cpos) (Z.of_nat i) = Some y /\ 0 < y < 2 ^ 32 /\ (Z.of_nat i < m \/ is_lower y = false)) as (y & E2 & Hy & Hyl).
  { destruct (decide (Z.of_nat i < m)) as [Hlt|].
    - destruct (Hm (Z.of_nat i)) as (y & ? & ?); [lia|]. exists y. split_and!; [done|lia|lia|by left].
    - assert (Z.of_nat i = m) as -> by lia. destruct Hend as [->|(y & ? & ? & ?)]; [lia|]. exists y. split_and!; [done|lia|lia|by right]. }
  change (symbol_at h E_UTF_8 (Ext (lit ++ [0])) (Z.of_nat i)) with (symbol_at blank_content E_UTF_8 (Ext (lit ++ [0])) (Z.of_nat i)).
  rw E1. cbn [mbind option_bind]. rw E2. cbn [mbind option_bind].
  destruct (Z.eqb_spec (s32 (c1 - y)) 0) as [Ez|]; [|by eexists]. cbn [negb]. apply s32_sub_zero in Ez as ->; [|lia|lia].
  destruct Hc1 as [[Hlt Hl]|[_ ->]]; [|lia]. destruct Hyl as [Hlm|Hyl]; [|by rw Hl in Hyl].
  replace (Z.of_nat i + 1) with (Z.of_nat (S i)) by lia. apply IH; lia.
Qed.

Lemma compare_literal h lit cpos k : Forall (fun c => is_lower c = true) lit -> 0 <= k -> letters h cpos k ->
  is_Some (compare_loop (Z.to_nat k) h E_UTF_8 (encoding h) (Ext (lit ++ [0])) (InDoc cpos) 0).
Proof.
  intros Hlit Hk (m & Hm & Hl & He). apply (compare_letters h lit cpos (Z.to_nat k) m Hlit Hl) with (i := 0%nat); [|lia|lia|lia].
  destruct He as [->|He]; [left; lia|by right].
Qed.

Lemma symbol_offset h pos j : 0 <= encoding h <= 4 -> symbol_at h (encoding h) (InDoc (pos + j * symbol_bytes (encoding h))) 0 = symbol_at h (encoding h) (InDoc pos) j.
Proof.
  intros He. unfold symbol_at, symbol_bytes, deref. rw !Z.mul_0_r !Z.add_0_r.
  destruct (Z.eqb_spec (encoding h) E_UTF_8) as [->|]; [cbn; by rw Z.mul_1_r|].
  destruct (Z.eqb_spec (encoding h) E_UTF_16_BE) as [->|]; [cbn -[Z.mul]; by rw (Z.mul_comm j)|].
  destruct (Z.eqb_spec (encoding h) E_UTF_16_LE) as [->|]; [cbn -[Z.mul]; by rw (Z.mul_comm j)|].
  destruct (Z.eqb_spec (encoding h) E_UTF_32_BE) as [->|]; [cbn -[Z.mul]; by rw (Z.mul_comm j)|].
  assert (encoding h = E_UTF_32_LE) as -> by (unfold E_UTF_8, E_UTF_16_BE, E_UTF_16_LE, E_UTF_32_BE, E_UTF_32_LE in *; lia).
  cbn -[Z.mul]. by rw (Z.mul_comm j).
Qed.

Lemma letters_next h cpos pos k : 0 <= encoding h <= 4 -> 0 <= k -> pos = cpos + k * symbol_bytes (encoding h) ->
  (forall j, 0 <= j < k -> exists y, symbol_at h (encoding h) (InDoc cpos) j = Some y /\ 0 < y < 2 ^ 32) -> symbol_ok h pos ->
  c_pos h = cpos + (k + 1) * symbol_bytes (encoding h) /\
    (forall j, 0 <= j < k + 1 -> exists y, symbol_at h (encoding h) (InDoc cpos) j = Some y /\ 0 < y < 2 ^ 32) \/
  (exists y, symbol_at h (encoding h) (InDoc cpos) k = Some y /\ 0 < y < 2 ^ 32 /\ is_lower y = false).
Proof.
  intros He Hk -> Hl (y & Hy & Hb & Hp). rw symbol_offset // in Hy. destruct Hp as [Hp|Hp]; [left|right; by exists y].
  split; [lia|]. intros j Hj. destruct (Z.eq_dec j k) as [->|]; [by exists y|]. apply Hl. lia.
Qed.

Section reading.
Context {A : Type} `{AllocatorLaws A}.
Abbreviation ST := (pstate A).
Implicit Types (s : ST).

Definition at_pos s : Z := c_pos (htc_content (p_htc s)).
Definition doc_size s : Z := sz_content (htc_content (p_htc s)).
Definition left_over s : nat := Z.to_nat (doc_size s - at_pos s).

(** The document was read further, nothing was allocated. *)
Definition scanned s s' : Prop := further (p_htc s) (p_htc s') /\ p_heap s' = p_heap s.
Lemma scanned_refl s : readable (p_htc s) -> scanned s s.
Proof. intros Hr. split; [by apply further_refl|done]. Qed.
Lemma scanned_trans s1 s2 s3 : scanned s1 s2 -> scanned s2 s3 -> scanned s1 s3.
Proof. intros [H1 E1] [H2 E2]. split; [by eapply further_trans|congruence]. Qed.
Lemma scanned_err s s' e : scanned s s' -> scanned s (mkP A (p_htc s') e (p_heap s')).
Proof. by intros [H1 E1]. Qed.

Lemma further_pos s s' : further (p_htc s) (p_htc s') -> doc_size s' = doc_size s /\ at_pos s <= at_pos s' <= doc_size s.
Proof. unfold doc_size, at_pos. intros (p & -> & Hp). cbn. lia. Qed.

Lemma read_saw s (Q : Z * Z -> ST -> Prop) : readable (p_htc s) ->
  (forall c s', scanned s s' -> readable (p_htc s') -> (c <> 0 -> at_pos s < at_pos s') ->
     saw (htc_content (p_htc s')) c (at_pos s) -> Q (c, at_pos s) s') ->
  wp read s Q.
Proof.
  intros Hr HQ. unfold wp, read. rw (rd_fn _ Hr). destruct (read_of_some _ Hr) as (c & p & E & Hp & Hc). rw E.
  assert (further (p_htc s) (mkHT (set_pos p (htc_content (p_htc s))) (pf_read (p_htc s)))) as Hf by by exists p.
  rw (rd_fn _ Hr) in Hf. apply HQ; [by split|by eapply further_readable|done|].
  unfold saw. cbn. rw -E. f_equal. unfold at_pos. by destruct (htc_content (p_htc s)).
Qed.
Lemma symbol_spec s (Q : Z * Z -> ST -> Prop) : readable (p_htc s) ->
  (forall c s', scanned s s' -> readable (p_htc s') -> (c <> 0 -> at_pos s < at_pos s') -> Q (c, at_pos s) s') ->
  wp read s Q.
Proof. intros Hr HQ. apply read_saw; [done|]. intros. by apply HQ. Qed.

(** ** Scalars *)
Definition span_in (h : ht_content) (t : json_string) : Prop :=
  exists d, j_data t = Some d /\ 0 <= d /\ 0 <= j_size t /\ d + j_size t * symbol_bytes (encoding h) <= sz_content h.
Definition span_ok s (t : json_string) : Prop := span_in (htc_content (p_htc s)) t.

Lemma span_further s s' t : further (p_htc s) (p_htc s') -> span_ok s t -> span_ok s' t.
Proof. unfold span_ok, span_in. intros (p & -> & _). done. Qed.

Lemma symbol_bytes_pos e : 0 < symbol_bytes e.
Proof. unfold symbol_bytes. repeat case_match; lia. Qed.

Lemma wp_span data pos s (Q : json_string -> ST -> Prop) : readable (p_htc s) -> 0 <= data <= pos -> data <= doc_size s ->
  (forall t, span_ok s t -> Q t s) -> wp (span data pos) s Q.
Proof.
  intros Hr Hd Hs HQ. unfold span. apply wp_bind, wp_gets, wp_ret, HQ. exists data. split; [done|]. split; [lia|]. cbn.
  pose proof (rd_max _ Hr) as Hmax. unfold MAX_DOCUMENT, doc_size in *. set (h := htc_content (p_htc s)) in *.
  pose proof (symbol_bytes_pos (encoding h)) as Hb. unfold ht_symbols. fold h.
  destruct (belongs h (InDoc data) && belongs h (InDoc pos)) eqn:Eb; [|lia]. cbn in Eb.
  assert (u32 (if data <? pos then pos - data else data - pos) = pos - data) as ->.
  { destruct (Z.ltb_spec data pos); rw u32_small; lia. }
  assert (0 <= (pos - data) / symbol_bytes (encoding h)) by (apply Z.div_pos; lia).
  pose proof (Z.mul_div_le (pos - data) _ Hb). split; [done|]. nia.
Qed.

Definition scalar_end (pos : Z) s (r pos' : Z) s' : Prop :=
  scanned s s' /\ readable (p_htc s') /\ pos <= pos' <= at_pos s' /\ (r = JSON_OK \/ r = JSON_PARSE_ERROR).

Lemma scalar_step pos s s' r pos' s'' : scanned s s' -> at_pos s <= at_pos s' -> pos <= at_pos s ->
  scalar_end (at_pos s) s' r pos' s'' -> scalar_end pos s r pos' s''.
Proof. intros Hs Hp Hpos (H1 & H2 & H3 & H4). split_and!; [by eapply scanned_trans|done|lia|lia|done]. Qed.
Lemma scalar_stop pos s r : readable (p_htc s) -> pos <= at_pos s -> r = JSON_OK \/ r = JSON_PARSE_ERROR -> scalar_end pos s r pos s.
Proof. intros. split_and!; [by apply scanned_refl|done|lia|lia|done]. Qed.
Lemma scalar_err pos s s' r pos' e : scalar_end pos s r pos' s' -> scalar_end pos s r pos' (mkP A (p_htc s') e (p_heap s')).
Proof. intros (H1 & H2 & H3 & H4). split_and!; [by apply scanned_err|done|apply H3|apply H3|done]. Qed.

(** A loop that stops, fails or reads on. *)
Ltac scan_tac s IH Hr Hpos :=
  lazymatch goal with
  | |- wp (match ?v with _ => _ end) _ _ => destruct v
  end;
  [ apply wp_bind; apply symbol_spec; [exact Hr|]; intros c1 s1 Hs1 Hr1 Hadv; cbv beta iota;
    destruct (further_pos _ _ (proj1 Hs1)) as [Ed Ep];
    destruct (Z.eqb_spec c1 0) as [->|Hc1];
    [ apply wp_ret; eapply scalar_step; [exact Hs1|lia|exact Hpos|]; cbn [fst snd]; apply scalar_stop; [exact Hr1|lia|by left]
    | eapply wp_mono; [apply IH; [exact Hr1|lia|unfold left_over in *; specialize (Hadv Hc1); lia]|];
      intros [[r c2] p2] s2 H2; by eapply scalar_step; [exact Hs1|lia|exact Hpos|] ]
  | apply wp_ret, scalar_stop; [exact Hr|done|by left]
  | apply wp_bind, wp_modify, wp_ret; apply (scalar_err _ s s); apply scalar_stop; [exact Hr|done|by right] ].

Lemma num_loop_spec fuel : forall c i nt pos s, readable (p_htc s) -> pos <= at_pos s -> (left_over s < fuel)%nat ->
  wp (num_loop fuel c i nt pos) s (fun x s' => scalar_end pos s x.1.1 x.2 s').
Proof.
  induction fuel as [|fuel IH]; intros c i nt pos s Hr Hpos Hf; [lia|]. cbn [num_loop]. scan_tac s IH Hr Hpos.
Qed.

Lemma name_loop_spec fuel q t : forall y c pos s, readable (p_htc s) -> pos <= at_pos s -> (left_over s < fuel)%nat ->
  wp (name_loop fuel q t y c pos) s (fun x s' => scalar_end pos s x.1.1 x.2 s').
Proof.
  induction fuel as [|fuel IH]; intros y c pos s Hr Hpos Hf; [lia|]. cbn [name_loop]. scan_tac s IH Hr Hpos.
Qed.

Lemma string_loop_spec fuel term : forall prev s, readable (p_htc s) -> (left_over s < fuel)%nat ->
  wp (string_loop fuel term prev) s (fun x s' => scalar_end (at_pos s) s JSON_OK x.2 s').
Proof.
  induction fuel as [|fuel IH]; intros prev s Hr Hf; [lia|]. cbn [string_loop].
  apply wp_bind, symbol_spec; [exact Hr|]. intros c1 s1 Hs1 Hr1 Hadv. cbv beta iota.
  destruct (further_pos _ _ (proj1 Hs1)) as [Ed Ep].
  assert (scalar_end (at_pos s) s JSON_OK (at_pos s) s1) as Hend by (split_and!; [done|done|lia|lia|by left]).
  destruct (Z.eqb_spec c1 0) as [->|Hc1]; [by apply wp_ret|].
  destruct (_ && _); [by apply wp_ret|].
  eapply wp_mono; [apply IH; [exact Hr1|unfold left_over in *; specialize (Hadv Hc1); lia]|].
  intros [c2 p2] s2 (H1' & H2' & H3' & H4'). split_and!; [by eapply scanned_trans|done|cbn in *; lia|cbn in *; lia|by left].
Qed.

(** What a scalar leaves: an error, or a string of the document. *)
Definition scalar_post s (r : Z) (t : json_string) s' : Prop :=
  scanned s s' /\ readable (p_htc s') /\ (r = JSON_OK /\ span_ok s' t \/ r = JSON_PARSE_ERROR).

Lemma number_spec fuel c pos s : readable (p_htc s) -> 0 <= pos <= at_pos s -> (left_over s < fuel)%nat ->
  wp (parse_number fuel c pos) s (fun x s' => scalar_post s x.1.1 x.1.2 s').
Proof.
  intros Hr Hpos Hf. unfold parse_number. apply wp_bind. eapply wp_mono; [apply num_loop_spec; [exact Hr|lia|done]|].
  intros [[r c1] p1] s1 (Hs & Hr1 & Hp & Hres). cbn [fst snd] in *. destruct (further_pos _ _ (proj1 Hs)) as [Ed Ep].
  destruct Hres as [->| ->]; cbn [Z.eqb JSON_OK JSON_PARSE_ERROR].
  - apply wp_bind, wp_span; [done|lia|rw Ed; lia|]. intros t Ht. apply wp_ret. split_and!; [done|done|by left].
  - apply wp_ret. split_and!; [done|done|by right].
Qed.

Lemma name_end_spec fuel q t y c pos s : readable (p_htc s) -> 0 <= pos <= at_pos s -> (left_over s < fuel)%nat ->
  wp (name_end fuel q t y c pos) s (fun x s' => scalar_post s x.1.1 x.1.2 s').
Proof.
  intros Hr Hpos Hf. unfold name_end. apply wp_bind. eapply wp_mono; [apply name_loop_spec; [exact Hr|lia|done]|].
  intros [[r c1] p1] s1 (Hs & Hr1 & Hp & Hres). cbn [fst snd] in *. destruct (further_pos _ _ (proj1 Hs)) as [Ed Ep].
  destruct Hres as [->| ->]; cbn [Z.eqb JSON_OK JSON_PARSE_ERROR].
  - apply wp_bind, wp_span; [done|lia|rw Ed; lia|]. intros t' Ht. apply wp_ret. split_and!; [done|done|by left].
  - apply wp_ret. split_and!; [done|done|by right].
Qed.

Lemma name_spec fuel c pos s : readable (p_htc s) -> 0 <= pos <= at_pos s -> (left_over s < fuel)%nat ->
  wp (parse_string_name fuel c pos) s (fun x s' => scalar_post s x.1.1 x.1.2 s').
Proof.
  intros Hr Hpos Hf. unfold parse_string_name.
  assert (forall q t, wp ('(c, pos) ← read; name_end fuel q t false c pos) s (fun x s' => scalar_post s x.1.1 x.1.2 s')) as Hq.
  { intros q t. apply wp_bind, symbol_spec; [exact Hr|]. intros c1 s1 Hs1 Hr1 Hadv. cbv beta iota.
    destruct (further_pos _ _ (proj1 Hs1)) as [Ed Ep].
    eapply wp_mono; [apply name_end_spec; [exact Hr1|pose proof (rd_pos _ Hr); unfold at_pos in *; lia|unfold left_over in *; lia]|].
    intros x s2 (H1' & H2' & H3'). split_and!; [by eapply scanned_trans|done|done]. }
  repeat case_match; [apply Hq|apply Hq|by apply name_end_spec|].
  apply wp_bind, wp_modify, wp_ret. split_and!; [|done|by right]. by apply (scanned_err s s), scanned_refl.
Qed.

Lemma string_value_spec fuel c s : readable (p_htc s) -> (left_over s < fuel)%nat ->
  wp (parse_string_value fuel c) s (fun x s' => scalar_post s x.1.1 x.1.2 s').
Proof.
  intros Hr Hf. unfold parse_string_value. apply wp_bind, wp_gets. destruct (is_quote c).
  - apply wp_bind. eapply wp_mono; [by apply string_loop_spec|]. intros [c1 p1] s1 (Hs & Hr1 & Hp & _).
    destruct (further_pos _ _ (proj1 Hs)) as [Ed Ep]. cbn [fst snd] in *. pose proof (rd_pos _ Hr).
    apply wp_bind, wp_span; [done|unfold ht_ptr, at_pos in *; lia|unfold ht_ptr, at_pos in *; lia|].
    intros t Ht. apply wp_ret. split_and!; [done|done|by left].
  - apply wp_bind, wp_modify, wp_ret. split_and!; [|done|by right]. by apply (scanned_err s s), scanned_refl.
Qed.

(** *** Constants *)
(** [k] letters were read from [cpos] on, the next symbol starts at [pos]. *)
Definition spelled (h : ht_content) (cpos pos k : Z) : Prop :=
  pos = cpos + k * symbol_bytes (encoding h) /\
    (forall j, 0 <= j < k -> exists y, symbol_at h (encoding h) (InDoc cpos) j = Some y /\ 0 < y < 2 ^ 32) \/
  (exists m, 0 <= m < k /\
    (forall j, 0 <= j < m -> exists y, symbol_at h (encoding h) (InDoc cpos) j = Some y /\ 0 < y < 2 ^ 32) /\
    exists y, symbol_at h (encoding h) (InDoc cpos) m = Some y /\ 0 < y < 2 ^ 32 /\ is_lower y = false).

Lemma spelled_letters h cpos pos k : 0 <= k -> spelled h cpos pos k -> letters h cpos k.
Proof.
  intros Hk [[_ Hl]|(m & Hm & Hl & He)].
  - exists k. split; [lia|]. split; [done|by left].
  - exists m. split; [lia|]. split; [done|by right].
Qed.
Lemma spelled_further x x' cpos pos k : further x x' -> spelled (htc_content x) cpos pos k -> spelled (htc_content x') cpos pos k.
Proof. intros (p & -> & _). done. Qed.
Lemma spelled_next h cpos pos k : 0 <= encoding h <= 4 -> 0 <= k -> symbol_ok h pos -> spelled h cpos pos k -> spelled h cpos (c_pos h) (k + 1).
Proof.
  intros Hen Hk Hs [[Hp Hl]|(m & Hm & Hl & He)].
  - destruct (letters_next h cpos pos k Hen Hk Hp Hl Hs) as [?|?]; [by left|]. right. exists k. split; [lia|]. by split.
  - right. exists m. split; [lia|]. by split.
Qed.

Definition const_end cpos s (sz : Z) s' : Prop :=
  scanned s s' /\ readable (p_htc s') /\ 0 <= sz /\ letters (htc_content (p_htc s')) cpos sz.

Lemma const_loop_spec fuel cpos : forall c pos sz s, readable (p_htc s) -> saw (htc_content (p_htc s)) c pos ->
  0 <= sz <= pos -> pos <= at_pos s -> (c <> 0 -> pos < at_pos s) -> spelled (htc_content (p_htc s)) cpos pos sz -> (left_over s + 1 < fuel)%nat ->
  wp (const_loop fuel c sz) s (fun x s' => const_end cpos s x.2 s').
Proof.
  induction fuel as [|fuel IH]; intros c pos sz s Hr Hsaw Hsz Hp Hadv Hsp Hf; [lia|]. cbn [const_loop].
  destruct (is_lower c) eqn:El.
  - destruct (saw_letter (p_htc s) c pos Hr ltac:(lia) Hsaw El) as [Hok _]. destruct (letter_bounds c El) as [Hc _].
    apply wp_bind, read_saw; [done|]. intros c1 s1 Hs1 Hr1 Hadv1 Hsaw1. cbv beta iota.
    destruct (further_pos _ _ (proj1 Hs1)) as [Ed Ep]. specialize (Hadv Hc).
    pose proof (rd_pos _ Hr) as Hp0. pose proof (rd_max _ Hr) as Hmx. unfold MAX_DOCUMENT in Hmx.
    rw u32_small; [|unfold at_pos in *; lia].
    destruct (Z.eq_dec c1 0) as [->|Hc1].
    + destruct fuel as [|fuel]; [unfold left_over, doc_size, at_pos in *; lia|]. cbn. split; [done|]. split; [done|]. split; [lia|].
      eapply spelled_letters; [lia|]. eapply spelled_further; [apply Hs1|]. by apply (spelled_next _ _ pos); [apply (rd_encoding _ Hr)|lia| |].
    + eapply wp_mono; [apply (IH c1 (at_pos s)); [done|done|lia|lia|done| |unfold left_over in *; specialize (Hadv1 Hc1); lia]|].
      * eapply spelled_further; [apply Hs1|]. by apply (spelled_next _ _ pos); [apply (rd_encoding _ Hr)|lia| |].
      * intros x s2 (H1' & H2' & H3'). split; [by eapply scanned_trans|]. by split.
  - apply wp_ret. cbn [snd]. split; [by apply scanned_refl|]. split; [done|]. split; [lia|]. by eapply spelled_letters; [lia|].
Qed.

Lemma literal_spec lit cpos sz s (Q : bool -> ST -> Prop) : readable (p_htc s) -> Forall (fun c => is_lower c = true) lit ->
  0 <= cpos < doc_size s -> 0 <= sz -> letters (htc_content (p_htc s)) cpos sz -> (forall b, Q b s) -> wp (literal lit cpos sz) s Q.
Proof.
  intros Hr Hlit Hp Hsz Hl HQ. unfold literal. apply wp_bind, wp_gets, wp_bind. unfold ht_compare.
  assert (encoding_at (htc_content (p_htc s)) (InDoc cpos) = encoding (htc_content (p_htc s))) as ->.
  { unfold encoding_at, belongs. unfold doc_size in Hp. by repeat (case_match; try lia). }
  destruct (compare_literal _ lit cpos sz Hlit Hsz Hl) as [r E]. eapply wp_lift_opt; [exact E|]. by apply wp_ret.
Qed.

Definition const_post s (r : Z) (v : json_value) s' : Prop :=
  scanned s s' /\ readable (p_htc s') /\
  (r = JSON_OK /\ (v = VTrue \/ v = VFalse \/ v = VNull) \/ r = JSON_PARSE_ERROR /\ v = VNone).

Lemma const_spec fuel c cpos s : readable (p_htc s) -> saw (htc_content (p_htc s)) c cpos -> is_lower c = true ->
  0 <= cpos < at_pos s -> (left_over s + 1 < fuel)%nat ->
  wp (parse_const fuel c cpos) s (fun x s' => const_post s x.1.1 x.1.2 s').
Proof.
  intros Hr Hsaw Hl Hp Hf. unfold parse_const. pose proof (rd_pos _ Hr) as Hp0. apply wp_bind.
  eapply wp_mono; [apply (const_loop_spec fuel cpos c cpos); [done|done|lia|lia|lia| |done]|].
  { left. split; [lia|]. intros j Hj. lia. }
  intros [c1 sz] s1 (Hs & Hr1 & Hsz & Hlet). cbn [snd] in *. destruct (further_pos _ _ (proj1 Hs)) as [Ed Ep].
  unfold at_pos in *.
  assert (0 <= cpos < doc_size s1) as Hin by (unfold doc_size in *; lia).
  apply wp_bind, literal_spec; [done|by repeat constructor|done|done|done|]. intros [].
  { apply wp_ret. split; [done|]. split; [done|]. left. by auto. }
  apply wp_bind, literal_spec; [done|by repeat constructor|done|done|done|]. intros [].
  { apply wp_ret. split; [done|]. split; [done|]. left. by auto. }
  apply wp_bind, literal_spec; [done|by repeat constructor|done|done|done|]. intros [].
  { apply wp_ret. split; [done|]. split; [done|]. left. by auto. }
  apply wp_bind, wp_modify, wp_ret. split; [by apply scanned_err|]. split; [done|]. by right.
Qed.
End reading.
