(* ===== verification/JsonMemory.v ===== *)
(** * JSON parser: blocks of memory (hypertext/libht/json.c)

    The blocks of a value, the well-formed values, and adding to an array of
    pointers. *)
From S2P Require Import Prelude Memory Str HtContext Json JsonScan.
Set Default Goal Selector "!".

(** ** The blocks of a value *)
Definition all {X} (P : X -> Prop) : list X -> Prop :=
  fix go (l : list X) : Prop := match l with [] => True | x :: l => P x /\ go l end.
Lemma all_Forall {X} (P : X -> Prop) l : all P l <-> Forall P l.
Proof. induction l as [|x l IH]; cbn; [by split|]. rw IH. by rw Forall_cons. Qed.

(** What destroying frees: the values a slot points to.  The arrays of pointers
    stay. *)
Definition slot_cells {X} (sz : Z) (f : X -> list block) (s : slot X) : list block :=
  match s with SAt p x => (p, sz) :: f x | _ => [] end.
Definition slot_tables {X} (f : X -> list block) (s : slot X) : list block :=
  match s with SAt _ x => f x | _ => [] end.
Definition vec_cells {X} (sz : Z) (f : X -> list block) (v : vec X) : list block :=
  concat (map (slot_cells sz f) (v_slots v)).
Definition table {X} (v : vec X) : list block := if v_ptr v =? 0 then [] else [(v_ptr v, num v * PTR_SIZE)].
Definition vec_tables {X} (f : X -> list block) (v : vec X) : list block :=
  table v ++ concat (map (slot_tables f) (v_slots v)).

Fixpoint v_cells (v : json_value) : list block :=
  match v with
  | VObject o => vec_cells JSON_PAIR_SIZE (fun p => v_cells p.2) o
  | VArray a => vec_cells JSON_VALUE_SIZE v_cells a
  | _ => []
  end.
Fixpoint v_tables (v : json_value) : list block :=
  match v with
  | VObject o => vec_tables (fun p => v_tables p.2) o
  | VArray a => vec_tables v_tables a
  | _ => []
  end.
Definition v_blocks (v : json_value) : list block := v_cells v ++ v_tables v.
(** The blocks of values that nothing points to any more, each one whole. *)
Definition scrap (bl : list block) : Prop := exists vs, bl = concat (map v_blocks vs).
Lemma scrap_nil : scrap [].
Proof. by exists []. Qed.
Lemma scrap_value v : scrap (v_blocks v).
Proof. exists [v]. cbn. by rw app_nil_r. Qed.
Lemma scrap_app l1 l2 : scrap l1 -> scrap l2 -> scrap (l1 ++ l2).
Proof. intros [v1 ->] [v2 ->]. exists (v1 ++ v2). by rw map_app concat_app. Qed.

(** ** Well-formed values *)
(** No pointer is dangling; the free slots are the last ones. *)
Definition packed {X} (v : vec X) (n : nat) : Prop := exists l k,
  v_slots v = l ++ replicate k SNull /\ length l = n /\ (k <= 16)%nat /\ Forall (fun s => is_null s = false) l.
Definition slot_ok {X} (P : X -> Prop) (s : slot X) : Prop :=
  match s with SNull => True | SFreed _ => False | SAt _ x => P x end.
Definition vec_ok {X} (P : X -> Prop) (v : vec X) : Prop :=
  all (slot_ok P) (v_slots v) /\ (exists n, packed v n) /\ (v_ptr v = 0 -> v_slots v = []).
Fixpoint v_ok (T : json_string -> Prop) (v : json_value) : Prop :=
  match v with
  | VString t | VNumber t => T t
  | VObject o => vec_ok (fun p => T p.1 /\ v_ok T p.2) o
  | VArray a => vec_ok (v_ok T) a
  | _ => True
  end.
Definition value_ok (h : ht_content) (v : json_value) : Prop := v_ok (span_in h) v.
Definition pair_ok (h : ht_content) (p : json_pair) : Prop := span_in h p.1 /\ value_ok h p.2.

Lemma packed_no_vec {X} : packed (@no_vec X) 0.
Proof. exists [], 0%nat. by repeat split; [lia|constructor]. Qed.
Lemma vec_ok_no_vec {X} (P : X -> Prop) : vec_ok P no_vec.
Proof. split; [done|]. split; [exists 0%nat; apply packed_no_vec|done]. Qed.
Lemma packed_num {X} (v : vec X) n : packed v n -> Z.of_nat n <= num v <= Z.of_nat n + 16.
Proof. intros (l & k & E & Hl & Hk & _). unfold num. rw E length_app length_replicate. lia. Qed.

Lemma first_null_packed {X} (v : vec X) n i : packed v n ->
  first_null (v_slots v) i = if (length (v_slots v) =? n)%nat then None else Some (i + n)%nat.
Proof.
  intros (l & k & -> & <- & _ & Hl). rw length_app length_replicate. revert i.
  induction l as [|s l IH]; intros i.
  - destruct k; cbn; [done|]. f_equal. lia.
  - inversion Hl as [|? ? Hs Hl']; subst. cbn [app first_null length]. rw Hs. rw (IH Hl').
    cbn [Nat.add Nat.eqb]. destruct (_ =? _)%nat; [done|]. f_equal. lia.
Qed.

Lemma packed_fill {X} (v : vec X) n p (x : X) q : packed v n -> (n < length (v_slots v))%nat ->
  packed (mkVec q (<[n := SAt p x]> (v_slots v))) (S n).
Proof.
  intros (l & k & E & Hl & Hk & Hf) Hn. rw E length_app length_replicate in Hn. destruct k as [|k]; [lia|].
  exists (l ++ [SAt p x]), k. cbn. split_and!; [|rw length_app; cbn; lia|lia|].
  - rw E -Hl. rw -(Nat.add_0_r (length l)) insert_app_r. by rw -app_assoc.
  - apply Forall_app. by split; [|constructor].
Qed.
Lemma packed_grow {X} (v : vec X) n q : packed v n -> length (v_slots v) = n ->
  packed (mkVec q (v_slots v ++ replicate 16 SNull)) n.
Proof.
  intros (l & k & E & Hl & Hk & Hf) Hn. exists l, 16%nat. split_and!; [|done|done|done]. cbn. rw E in Hn |- *.
  rw length_app length_replicate in Hn. destruct k; [|lia]. by rw app_nil_r.
Qed.

Lemma concat_map_fill {X} (f : slot X -> list block) l n s : f SNull = [] -> l !! n = Some SNull ->
  concat (map f (<[n := s]> l)) ≡ₚ f s ++ concat (map f l).
Proof.
  intros Hf. revert n. induction l as [|t l IH]; intros n Hl; [done|]. destruct n as [|n]; cbn in *.
  - injection Hl as ->. by rw Hf.
  - rw (IH n Hl). by rw !app_assoc (Permutation_app_comm (f t)).
Qed.
Lemma concat_map_grow {X} (f : slot X -> list block) l k : f SNull = [] ->
  concat (map f (l ++ replicate k SNull)) = concat (map f l).
Proof.
  intros Hf. rw map_app concat_app. assert (concat (map f (replicate k SNull)) = []) as ->; [|by rw app_nil_r].
  induction k as [|k IH]; [done|]. cbn. by rw Hf IH.
Qed.

Lemma lookup_free {X} (v : vec X) n : packed v n -> (n < length (v_slots v))%nat -> v_slots v !! n = Some SNull.
Proof.
  intros (l & k & E & <- & _ & _) Hn. rw E in Hn |- *. rw length_app length_replicate in Hn.
  rw lookup_app_r // Nat.sub_diag. by apply lookup_replicate_2; lia.
Qed.

(** ** Adding to an array of pointers *)
Section adding.
Context {A : Type} `{AllocatorLaws A} {X : Type}.
Context (a0 : A) (P : X -> Prop) (sz : Z) (fc ft : X -> list block).
Hypothesis sz_pos : 0 < sz.

Definition vec_blocks (v : vec X) : list block := vec_cells sz fc v ++ vec_tables ft v.

Lemma wp_heap_op {R} (m : M A R) (s : pstate A) (Q : R -> pstate A -> Prop) :
  wp m (p_heap s) (fun r a => Q r (mkP A (p_htc s) (err_pos s) a)) -> wp (heap_op m) s Q.
Proof. unfold wp, heap_op. by destruct (m (p_heap s)) as [[r a]|]. Qed.
Lemma wp_mem_alloc n (a : A) bl (Q : Z -> A -> Prop) : grown a0 a bl -> 0 < n ->
  (forall a', grown a0 a' bl -> Q 0 a') -> (forall p a', 0 < p -> grown a0 a' ((p, n) :: bl) -> Q p a') ->
  wp (mem_alloc n) a Q.
Proof.
  intros Hg Hn HQ0 HQ. unfold wp, mem_alloc. destruct (grown_alloc a0 a bl n Hg Hn) as [[E Hg']|[Hpos Hg']];
    destruct (a_alloc a n) as [p a']; cbn in *; [rw E; by apply HQ0|by apply HQ].
Qed.
Lemma wp_mem_free p n (a : A) bl (Q : unit -> A -> Prop) : grown a0 a ((p, n) :: bl) ->
  (forall a', grown a0 a' bl -> Q tt a') -> wp (mem_free p n) a Q.
Proof.
  intros Hg HQ. destruct (grown_free a0 a p n bl Hg) as [Hl Hg']. unfold wp, mem_free. rw decide_True; [by apply HQ|done].
Qed.

(** Only the heap changed. *)
Definition heaped (s s' : pstate A) : Prop := p_htc s' = p_htc s.

Lemma fill_slot_spec v n x s F : vec_ok P v -> packed v n -> (n < length (v_slots v))%nat -> P x ->
  grown a0 (p_heap s) (vec_blocks v ++ fc x ++ ft x ++ F) ->
  wp (fill_slot sz v n x) s (fun r s' => heaped s s' /\ vec_ok P r.2 /\
    if r.1 then packed r.2 (S n) /\ grown a0 (p_heap s') (vec_blocks r.2 ++ F)
    else r.2 = v /\ grown a0 (p_heap s') (vec_blocks v ++ fc x ++ ft x ++ F)).
Proof.
  intros (Hall & _ & Hptr) Hpk Hn Hx Hg. unfold fill_slot. apply wp_bind, wp_heap_op.
  eapply wp_mem_alloc; [exact Hg|done| |].
  - intros a' Hg'. cbn. split; [done|]. split; [|done]. split; [done|]. split; [by exists n|done].
  - intros p a' Hp Hg'. destruct (Z.eqb_spec p 0); [lia|]. cbn. split; [done|].
    pose proof (lookup_free v n Hpk Hn) as Hs. pose proof (packed_fill v n p x (v_ptr v) Hpk Hn) as Hpk'. split; [|split; [done|]].
    + split; [|split; [by eexists|]]; cbn.
      * apply all_Forall. apply Forall_insert; [by apply all_Forall|done].
      * intros Hz. by rw Hptr in Hn; [cbn in Hn; lia|].
    + eapply grown_perm; [|exact Hg']. unfold vec_blocks, vec_cells, vec_tables, table, num. cbn [v_slots v_ptr].
      rw !length_insert !(concat_map_fill _ _ n) //. cbn [slot_cells slot_tables]. solve_Permutation.
Qed.

Lemma alloc_slots_spec v n s F : vec_ok P v -> packed v n -> length (v_slots v) = n -> Z.of_nat n < MAX_DOCUMENT ->
  grown a0 (p_heap s) (vec_blocks v ++ F) ->
  wp (alloc_slots v) s (fun r s' => heaped s s' /\ vec_ok P r.2 /\ packed r.2 n /\ grown a0 (p_heap s') (vec_blocks r.2 ++ F) /\
    (r.1 = JSON_OK /\ length (v_slots r.2) = (n + 16)%nat \/ r.1 = JSON_MEMORY_ERROR /\ r.2 = v)).
Proof.
  intros (Hall & Hex & Hptr) Hpk Hn Hmax Hg. unfold MAX_DOCUMENT in Hmax. unfold alloc_slots.
  assert (num v = Z.of_nat n) as Hnum by (unfold num; by rw Hn). rw Hnum.
  unfold INITIAL_SIZE, PTR_SIZE. rw (u32_small (Z.of_nat n + 16)); [|lia]. rw !u32_small; [|lia|lia].
  apply wp_bind, wp_heap_op. eapply wp_mem_alloc; [exact Hg|lia| |].
  - intros a' Hg'. cbn. split; [done|]. split; [by split|]. split; [done|]. split; [done|by right].
  - intros p a' Hp Hg'. destruct (Z.eqb_spec p 0); [lia|]. cbn [negb].
    destruct (Z.ltb_spec ((Z.of_nat n + 16) * 8) (2 ^ 32)); [|lia]. destruct (Z.leb_spec (Z.of_nat n) (Z.of_nat n + 16)); [|lia].
    cbn [andb]. replace (Z.to_nat (Z.of_nat n + 16 - Z.of_nat n)) with 16%nat by lia.
    set (v' := mkVec p (v_slots v ++ replicate 16 SNull)).
    assert (vec_ok P v') as Hok'.
    { split; [|split; [exists n; by apply packed_grow|cbn; lia]]. cbn [v' v_slots]. apply all_Forall, Forall_app.
      split; [by apply all_Forall|]. by apply Forall_replicate. }
    assert (forall a, grown a0 a ((p, (Z.of_nat n + 16) * 8) :: vec_cells sz fc v ++ concat (map (slot_tables ft) (v_slots v)) ++ F) ->
      grown a0 a (vec_blocks v' ++ F)) as Hgr.
    { intros a Ha. eapply grown_perm; [|exact Ha]. unfold vec_blocks, vec_cells, vec_tables, table. cbn [v' v_slots v_ptr].
      destruct (Z.eqb_spec p 0); [lia|]. rw !concat_map_grow //. unfold num. cbn [v' v_slots].
      rw length_app length_replicate Hn. unfold PTR_SIZE. replace (Z.of_nat (n + 16)) with (Z.of_nat n + 16) by lia. solve_Permutation. }
    assert (forall s', heaped s s' -> grown a0 (p_heap s') (vec_blocks v' ++ F) -> wp (mret (JSON_OK, v')) s' (fun r s' => heaped s s' /\
      vec_ok P r.2 /\ packed r.2 n /\ grown a0 (p_heap s') (vec_blocks r.2 ++ F) /\
      (r.1 = JSON_OK /\ length (v_slots r.2) = (n + 16)%nat \/ r.1 = JSON_MEMORY_ERROR /\ r.2 = v))) as Hend.
    { intros s' Hs' Hg2. apply wp_ret. split; [done|]. split; [done|]. split; [by apply packed_grow|]. split; [done|]. left.
      split; [done|]. cbn [snd v' v_slots]. by rw length_app length_replicate Hn. }
    apply wp_bind, wp_when; destruct (Z.eqb_spec (v_ptr v) 0) as [Ez|Ez]; intros Eb; try done.
    + apply wp_heap_op. eapply wp_mem_free.
      * eapply grown_perm; [|exact Hg']. instantiate (1 := (p, (Z.of_nat n + 16) * 8) :: vec_cells sz fc v ++ concat (map (slot_tables ft) (v_slots v)) ++ F).
        unfold vec_blocks, vec_tables, table. destruct (Z.eqb_spec (v_ptr v) 0); [lia|]. rw Hnum. unfold PTR_SIZE. solve_Permutation.
      * intros a2 Hg2. apply Hend; [done|]. by apply Hgr.
    + apply Hend; [done|]. apply Hgr. eapply grown_perm; [|exact Hg']. unfold vec_blocks, vec_tables, table. rw Ez. cbn. solve_Permutation.
Qed.

Lemma add_slot_spec v n x s F : vec_ok P v -> packed v n -> Z.of_nat n < MAX_DOCUMENT -> P x ->
  grown a0 (p_heap s) (vec_blocks v ++ fc x ++ ft x ++ F) ->
  wp (add_slot alloc_slots sz v x) s (fun r s' => heaped s s' /\ vec_ok P r.2 /\
    if r.1 then packed r.2 (S n) /\ grown a0 (p_heap s') (vec_blocks r.2 ++ F)
    else packed r.2 n /\ grown a0 (p_heap s') (vec_blocks r.2 ++ fc x ++ ft x ++ F)).
Proof.
  intros Hok Hpk Hmax Hx Hg. unfold add_slot. rw (first_null_packed v n 0 Hpk). destruct (Nat.eqb_spec (length (v_slots v)) n) as [En|En].
  - apply wp_bind. eapply wp_mono; [by apply (alloc_slots_spec v n s (fc x ++ ft x ++ F))|].
    intros [r v'] s' (Hh & Hok' & Hpk' & Hg' & Hr). cbn [fst snd] in *. destruct Hr as [[-> Hlen]|[-> ->]]; cbn [Z.eqb JSON_OK JSON_MEMORY_ERROR].
    + rw En. eapply wp_mono; [apply (fill_slot_spec v' n x s' F); [done|done|lia|done|done]|].
      intros [b v2] s2 (Hh2 & Hok2 & Hres). cbn [fst snd] in *. split; [unfold heaped in *; congruence|]. split; [done|].
      destruct b; [done|]. by destruct Hres as [-> ?].
    + apply wp_ret. by split_and!.
  - cbn [Nat.add]. eapply wp_mono; [apply (fill_slot_spec v n x s F); [done|done| |done|done]|].
    + pose proof (packed_num v n Hpk). unfold num in *. lia.
    + intros [b v2] s2 (Hh2 & Hok2 & Hres). cbn [fst snd] in *. split; [done|]. split; [done|]. destruct b; [done|]. by destruct Hres as [-> ?].
Qed.
End adding.
