(* ===== verification/JsonProof.v ===== *)
(** * JSON parser: termination, well-formedness and memory
    (hypertext/libht/json.c)

    For every document, in every encoding, and every allocator the parser
    returns; the strings and numbers of the result lie inside the document, and
    its blocks are exactly the new live ones.  Every round of every loop reads a
    symbol, and only [parse_value] and the loop it starts share one. *)
From S2P Require Import Prelude Memory Str HtContext Json JsonScan JsonMemory.
Set Default Goal Selector "!".

Section parsing.
Context {A : Type} `{AllocatorLaws A}.
Context (a0 : A).
Abbreviation ST := (pstate A).

Definition arr_blocks (a : json_array) : list block := vec_blocks JSON_VALUE_SIZE v_cells v_tables a.
Definition obj_blocks (o : json_object) : list block :=
  vec_blocks JSON_PAIR_SIZE (fun p => v_cells p.2) (fun p => v_tables p.2) o.

(** The document was read further; the blocks [bl] and [F] are new, on success
    no others, and after an error those of the values that were dropped. *)
Definition parsed (s : ST) (F bl : list block) (r : Z) (s' : ST) : Prop :=
  further (p_htc s) (p_htc s') /\ readable (p_htc s') /\
  exists lost, grown a0 (p_heap s') (lost ++ bl ++ F) /\ scrap lost /\ (r = JSON_OK -> lost = []).

Definition value_post (s : ST) (F : list block) (x : Z * json_value * Z) (s' : ST) : Prop :=
  parsed s F (v_blocks x.1.2) x.1.1 s' /\ (x.1.1 = JSON_OK -> value_ok (htc_content (p_htc s')) x.1.2).

(** An array or an object under construction, with no more entries than symbols
    were read. *)
Definition building {X} (P : ht_content -> X -> Prop) (v : vec X) (s : ST) : Prop :=
  vec_ok (P (htc_content (p_htc s))) v /\ exists n, packed v n /\ Z.of_nat n <= at_pos s.
Definition loop_post {X} (P : ht_content -> X -> Prop) (B : vec X -> list block) (s : ST) (F : list block)
    (x : Z * vec X * Z) (s' : ST) : Prop :=
  parsed s F (B x.1.2) x.1.1 s' /\ building P x.1.2 s'.

(** The symbol [c] at [pos] has just been read. *)
Definition current (c pos : Z) (s : ST) : Prop :=
  saw (htc_content (p_htc s)) c pos /\ 0 <= pos <= at_pos s /\ (c <> 0 -> pos < at_pos s).

Definition value_fuel (c : Z) (s : ST) (fuel : nat) : Prop := (2 * left_over s + 3 <= fuel)%nat \/ c = 0 /\ (1 <= fuel)%nat.
Definition loop_fuel (s : ST) (fuel : nat) : Prop := (2 * left_over s + 2 <= fuel)%nat.

(** *** The document *)
Lemma value_ok_further x x' : further x x' -> value_ok (htc_content x') = value_ok (htc_content x).
Proof. by intros (p & -> & _). Qed.
Lemma pair_ok_further x x' : further x x' -> pair_ok (htc_content x') = pair_ok (htc_content x).
Proof. by intros (p & -> & _). Qed.

Lemma building_further {X} (P : ht_content -> X -> Prop) v s s' : further (p_htc s) (p_htc s') ->
  P (htc_content (p_htc s')) = P (htc_content (p_htc s)) -> building P v s -> building P v s'.
Proof.
  intros Hf E [Hv (n & Hn & Hp)]. split; [by rw E|]. exists n. split; [done|]. destruct (further_pos _ _ Hf) as [Ed Ep].
  lia.
Qed.

Lemma current_read c s s' : saw (htc_content (p_htc s')) c (at_pos s) -> scanned s s' -> (c <> 0 -> at_pos s < at_pos s') ->
  readable (p_htc s) -> current c (at_pos s) s'.
Proof.
  intros H1 H2 H3 H4. destruct (further_pos _ _ (proj1 H2)). pose proof (rd_pos _ H4). unfold current, at_pos in *.
  split; [done|]. split; [lia|done].
Qed.

(** Composition. *)
Lemma parsed_step s s1 F bl r s' : scanned s s1 -> parsed s1 F bl r s' -> parsed s F bl r s'.
Proof. intros [Hf _] (H1 & H2 & H3). split; [by eapply further_trans|]. by split. Qed.
Lemma parsed_refl s F bl r : readable (p_htc s) -> grown a0 (p_heap s) (bl ++ F) -> parsed s F bl r s.
Proof. intros Hr Hg. split; [by apply further_refl|]. split; [done|]. exists []. split; [done|]. split; [apply scrap_nil|done]. Qed.
Lemma parsed_scanned s s1 F bl r : scanned s s1 -> readable (p_htc s1) -> grown a0 (p_heap s) (bl ++ F) -> parsed s F bl r s1.
Proof. intros Hs Hr Hg. eapply parsed_step; [done|]. apply parsed_refl; [done|]. destruct Hs as [_ ->]. done. Qed.
Lemma parsed_err s F bl r s' e : parsed s F bl r s' -> parsed s F bl r (mkP A (p_htc s') e (p_heap s')).
Proof. done. Qed.

(** *** Induction hypotheses *)
Definition value_spec (f : nat) : Prop := forall c pos s F, readable (p_htc s) -> current c pos s -> value_fuel c s f ->
  grown a0 (p_heap s) F -> wp (parse_value f c pos) s (value_post s F).
Definition array_spec (f : nat) : Prop := forall a s F, readable (p_htc s) -> building value_ok a s -> loop_fuel s f ->
  grown a0 (p_heap s) (arr_blocks a ++ F) -> wp (array_loop f a) s (loop_post value_ok arr_blocks s F).
Definition object_spec (f : nat) : Prop := forall fl name o s F, readable (p_htc s) -> building pair_ok o s -> loop_fuel s f ->
  (fl = BeforeColon -> span_ok s name) -> grown a0 (p_heap s) (obj_blocks o ++ F) ->
  wp (object_loop f fl name o) s (loop_post pair_ok obj_blocks s F).
Definition pair_spec (f : nat) : Prop := forall name o s0 s F, readable (p_htc s) -> building pair_ok o s0 ->
  further (p_htc s0) (p_htc s) -> at_pos s0 < at_pos s -> (2 * left_over s + 3 <= f)%nat -> span_ok s name ->
  grown a0 (p_heap s) (obj_blocks o ++ F) -> wp (pair_value f name o) s (loop_post pair_ok obj_blocks s0 F).

Lemma left_less c (s s' : ST) : scanned s s' -> (c <> 0 -> at_pos s < at_pos s') -> c <> 0 -> (left_over s' + 1 <= left_over s)%nat.
Proof. intros Hs Ha Hc. specialize (Ha Hc). destruct (further_pos _ _ (proj1 Hs)). unfold left_over in *. lia. Qed.
Lemma left_le (s s' : ST) : further (p_htc s) (p_htc s') -> (left_over s' <= left_over s)%nat.
Proof. intros Hs. destruct (further_pos _ _ Hs). unfold left_over. lia. Qed.

Lemma scalar_value s F r t s' (mk : json_string -> json_value) c : (forall t, v_blocks (mk t) = []) ->
  (forall h t, value_ok h (mk t) = span_in h t) -> grown a0 (p_heap s) F -> scalar_post s r t s' -> value_post s F (r, mk t, c) s'.
Proof.
  intros Hb Hv Hg (Hs & Hr & Hres). split; cbn [fst snd].
  - apply parsed_scanned; [done|done|]. by rw Hb.
  - intros ->. rw Hv. by destruct Hres as [[_ ?]|?].
Qed.

Lemma building_no_vec {X} (P : ht_content -> X -> Prop) s : readable (p_htc s) -> building P no_vec s.
Proof.
  intros Hr. split; [apply vec_ok_no_vec|]. exists 0%nat. split; [apply packed_no_vec|]. pose proof (rd_pos _ Hr). unfold at_pos. lia.
Qed.

Lemma nested_value {X} (P : ht_content -> X -> Prop) (B : vec X -> list block) (mk : vec X -> json_value) s F x s' :
  (forall v, v_blocks (mk v) = B v) -> (forall h v, value_ok h (mk v) = vec_ok (P h) v) ->
  loop_post P B s F x s' -> value_post s F (x.1.1, mk x.1.2, x.2) s'.
Proof. intros Hb Hv [Hp [Hok _]]. split; cbn [fst snd]; [by rw Hb|]. intros _. by rw Hv. Qed.

Lemma value_step f : value_spec f -> array_spec f -> object_spec f -> value_spec (S f).
Proof.
  intros IHv IHa IHo c pos s F Hr Hcur Hf Hg. cbn [parse_value]. pose proof Hcur as (Hsaw & Hp & Hadv).
  assert (c <> 0 -> (2 * left_over s + 2 <= f)%nat) as Hf' by (unfold value_fuel in Hf; lia).
  destruct (is_quote c) eqn:E1.
  { apply wp_bind. eapply wp_mono; [apply string_value_spec; [done|unfold is_quote, QUOTE, APOS in E1; lia]|].
    intros [[r t] c1] s1 Hpost. apply wp_ret. by apply scalar_value. }
  destruct (Z.eqb_spec c LBRACK) as [->|].
  { apply wp_bind. eapply wp_mono; [apply (IHa no_vec s F); [done|by apply building_no_vec|apply Hf'; done|done]|].
    intros [[r v] c1] s1 Hpost. apply wp_ret. by eapply (nested_value _ _ VArray _ _ (r, v, c1)). }
  destruct (Z.eqb_spec c LBRACE) as [->|].
  { apply wp_bind. eapply wp_mono; [apply (IHo BeforeName no_string no_vec s F); [done|by apply building_no_vec|apply Hf'; done|done|done]|].
    intros [[r v] c1] s1 Hpost. apply wp_ret. by eapply (nested_value _ _ VObject _ _ (r, v, c1)). }
  destruct (_ || (c =? 46)) eqn:E2.
  { apply wp_bind. eapply wp_mono; [apply number_spec; [done|done|unfold is_digit in E2; lia]|].
    intros [[r t] c1] s1 Hpost. apply wp_ret. by apply scalar_value. }
  destruct (is_lower c) eqn:E3.
  { assert (c <> 0) as Hc by (unfold is_lower in E3; lia). specialize (Hadv Hc).
    eapply wp_mono; [apply const_spec; [done|done|done|lia|lia]|]. intros [[r v] c1] s1 (Hs & Hr1 & Hres). cbn [fst snd] in *.
    split; cbn [fst snd]; destruct Hres as [[-> [->|[->| ->]]]|[-> ->]]; try done; by apply parsed_scanned. }
  destruct (_ || (c =? RBRACK)) eqn:E4; [apply wp_ret; split; [by apply parsed_refl|done]|].
  destruct (is_ws c) eqn:E5.
  - assert (c <> 0) as Hc by (unfold is_ws in E5; lia). specialize (Hf' Hc).
    apply wp_bind, read_saw; [done|]. intros c1 s1 Hs1 Hr1 Hadv1 Hsaw1. cbv beta iota.
    destruct (Z.eqb_spec c1 0) as [->|Hc1]; [apply wp_ret; split; [by apply parsed_scanned|done]|].
    pose proof (left_less c1 s s1 Hs1 Hadv1 Hc1). eapply wp_mono; [apply (IHv c1 _ s1 F); [done|by apply current_read|left; lia|]|].
    + destruct Hs1 as [_ ->]. done.
    + intros x s2 [H1' H2']. split; [by eapply parsed_step|done].
  - apply wp_bind, wp_modify, wp_ret. split; [|done]. by apply (parsed_err s), parsed_refl.
Qed.

(** *** Loops *)
Lemma parsed_forget s F v B r r' s' : parsed s (B ++ F) (v_blocks v) r s' -> r' <> JSON_OK -> parsed s F B r' s'.
Proof.
  intros (H1 & H2 & lost & Hg & Hs & _) Hr. split; [done|]. split; [done|]. exists (lost ++ v_blocks v). split; [by rw -app_assoc|].
  split; [by apply scrap_app, scrap_value|done].
Qed.
Lemma parsed_none s F B r s' : parsed s (B ++ F) [] r s' -> parsed s F B r s'.
Proof. done. Qed.
Lemma parsed_trans s s1 F F' bl bl' r s' : parsed s F' bl' JSON_OK s1 -> parsed s1 F bl r s' -> parsed s F bl r s'.
Proof. intros (Hf & _) (H1 & H2 & H3). split; [by eapply further_trans|]. by split. Qed.
Lemma parsed_grown s F bl s' : parsed s F bl JSON_OK s' -> grown a0 (p_heap s') (bl ++ F).
Proof. intros (_ & _ & lost & Hg & _ & Hl). by rw Hl in Hg. Qed.

Lemma no_value v : jvt v = 0 -> v_blocks v = [].
Proof. by destruct v. Qed.

Lemma add_spec {X} (P : ht_content -> X -> Prop) sz fc ft (v : vec X) x s s1 F : 0 < sz -> readable (p_htc s1) ->
  further (p_htc s) (p_htc s1) -> P (htc_content (p_htc s1)) = P (htc_content (p_htc s)) -> at_pos s < at_pos s1 ->
  building P v s -> P (htc_content (p_htc s1)) x -> scrap (fc x ++ ft x) -> grown a0 (p_heap s1) ((fc x ++ ft x) ++ vec_blocks sz fc ft v ++ F) ->
  wp (add_slot alloc_slots sz v x) s1 (fun r s' => heaped s1 s' /\ building P r.2 s' /\
    exists lost, grown a0 (p_heap s') (lost ++ vec_blocks sz fc ft r.2 ++ F) /\ scrap lost /\ (r.1 = true -> lost = [])).
Proof.
  intros Hsz Hr Hf E Hadv [Hv (n & Hn & Hpos)] Hx Hsc Hg. pose proof (rd_pos _ Hr) as Hp. pose proof (rd_max _ Hr) as Hm.
  eapply wp_mono; [apply (add_slot_spec a0 (P (htc_content (p_htc s1))) sz fc ft Hsz v n x s1 F); [by rw E|done|unfold at_pos in *; lia|done|]|].
  - eapply grown_perm; [|exact Hg]. solve_Permutation.
  - intros [ok v'] s' (Hh & Hv' & Hres). cbn [fst snd] in *. unfold heaped in Hh. split; [done|].
    destruct ok; destruct Hres as [Hpk Hg']; (split; [split; [by rw Hh|]|]).
    + exists (S n). split; [done|]. unfold at_pos in *. rw Hh. lia.
    + exists []. split; [done|]. split; [apply scrap_nil|done].
    + exists n. split; [done|]. unfold at_pos in *. rw Hh. lia.
    + exists (fc x ++ ft x). split; [|done]. eapply grown_perm; [|exact Hg']. solve_Permutation.
Qed.

Lemma parsed_heaped s s1 s' F bl lost r : further (p_htc s) (p_htc s1) -> readable (p_htc s1) -> heaped s1 s' ->
  grown a0 (p_heap s') (lost ++ bl ++ F) -> scrap lost -> (r = JSON_OK -> lost = []) -> parsed s F bl r s'.
Proof. unfold heaped. intros H1 H2 E Hg Hs Hl. split; [by rw E|]. split; [by rw E|]. by exists lost. Qed.

(** Adding what was parsed; without memory it is forgotten. *)
Lemma add_parsed {X} (P : ht_content -> X -> Prop) sz fc ft (v : vec X) x s s1 F : 0 < sz ->
  parsed s (vec_blocks sz fc ft v ++ F) (fc x ++ ft x) JSON_OK s1 -> P (htc_content (p_htc s1)) = P (htc_content (p_htc s)) ->
  at_pos s < at_pos s1 -> building P v s -> P (htc_content (p_htc s1)) x -> scrap (fc x ++ ft x) ->
  wp (add_slot alloc_slots sz v x) s1 (fun r s' => heaped s1 s' /\ building P r.2 s' /\
    parsed s F (vec_blocks sz fc ft r.2) (if r.1 : bool then JSON_OK else JSON_MEMORY_ERROR) s').
Proof.
  intros Hsz Hp E Hadv Hb Hx Hsc. pose proof Hp as (Hf & Hr & _).
  eapply wp_mono; [apply (add_spec P sz fc ft v x s s1 F); [done|done|done|done|done|done|done|done|by apply (parsed_grown s)]|].
  intros [ok v'] s' (Hh & Hb' & lost & Hg & Hs & Hl). cbn [fst snd] in *. split; [done|]. split; [done|].
  eapply parsed_heaped; [done|done|done|exact Hg|done|]. destruct ok; [by intros _; apply Hl|done].
Qed.

Lemma wrong_here_post {X} (P : ht_content -> X -> Prop) B s F x v r r' c s' :
  parsed s (B v ++ F) (v_blocks x) r s' -> r' <> JSON_OK -> building P v s' ->
  wp (wrong_here;; mret (r', v, c)) s' (loop_post P B s F).
Proof.
  intros Hp Hr Hb. unfold wrong_here. apply wp_bind, wp_bind, wp_gets, wp_modify, wp_ret. split; cbn [fst snd]; [|done].
  apply (parsed_err s), (parsed_forget s F x _ r r' s' Hp Hr).
Qed.

Lemma loop_post_step {X} (P : ht_content -> X -> Prop) B s s1 F x s' : further (p_htc s) (p_htc s1) -> loop_post P B s1 F x s' -> loop_post P B s F x s'.
Proof. intros Hf [(H1 & H2) H3]. split; [|done]. split; [by eapply further_trans|done]. Qed.

Lemma after_element_none v c : after_element v c = Skip \/ after_element v c = Finish -> jvt v = 0.
Proof.
  unfold after_element. destruct (Z.eqb_spec (jvt v) 0) as [|Hz]; [done|]. cbn [andb]. intros Hs.
  repeat (match type of Hs with context [if ?b then _ else _] => destruct b end); by destruct Hs.
Qed.
Lemma after_member_none v c : (after_member v c).1 = Skip \/ (after_member v c).1 = Finish -> jvt v = 0.
Proof.
  unfold after_member. destruct (Z.eqb_spec (jvt v) 0) as [|Hz]; [done|]. cbn [andb]. intros Hs.
  repeat (match type of Hs with context [if ?b then _ else _] => destruct b end); by destruct Hs.
Qed.
Lemma after_member_flags v c : (after_member v c).2 <> BeforeColon.
Proof. unfold after_member. by repeat case_match. Qed.

(** What is left of an array or object when a value adds nothing to it. *)
Lemma nothing_added {X} (P : ht_content -> X -> Prop) B (v : vec X) x s F c s1 : parsed s (B v ++ F) (v_blocks x) JSON_OK s1 ->
  jvt x = 0 -> building P v s1 -> loop_post P B s F (JSON_OK, v, c) s1 /\ grown a0 (p_heap s1) (B v ++ F).
Proof. intros Hp Hz Hb. rw (no_value x Hz) in Hp. split; [by split|by apply parsed_grown in Hp]. Qed.
Lemma nothing_parsed {X} (P : ht_content -> X -> Prop) B (v : vec X) x s F r c s1 : parsed s (B v ++ F) (v_blocks x) r s1 ->
  r <> JSON_OK -> building P v s1 -> loop_post P B s F (r, v, c) s1.
Proof. intros Hp Hr Hb. split; [|done]. by eapply parsed_forget. Qed.

Lemma left_heaped (s s' : ST) : heaped s s' -> left_over s' = left_over s.
Proof. unfold heaped, left_over, doc_size, at_pos. by intros ->. Qed.

Lemma array_step f : value_spec f -> array_spec f -> array_spec (S f).
Proof.
  intros IHv IHa a s F Hr Hb Hf Hg. cbn [array_loop]. unfold loop_fuel in *.
  apply wp_bind, read_saw; [done|]. intros c1 s1 Hs1 Hr1 Hadv1 Hsaw1. cbv beta iota.
  assert (building value_ok a s1) as Hb1 by (eapply building_further; [apply Hs1|apply value_ok_further, Hs1|done]).
  assert (grown a0 (p_heap s1) (arr_blocks a ++ F)) as Hg1 by (destruct Hs1 as [_ ->]; done).
  destruct (Z.eqb_spec c1 0) as [->|Hc1]; [apply wp_ret; split; [by apply parsed_scanned|done]|].
  pose proof (left_less c1 s s1 Hs1 Hadv1 Hc1) as Hl1. specialize (Hadv1 Hc1). apply wp_bind.
  eapply wp_mono; [apply (IHv c1 _ s1 (arr_blocks a ++ F)); [done|by apply current_read|left; lia|done]|].
  intros [[r v] c] s2 [Hp2 Hv2]. cbn [fst snd] in Hp2, Hv2. pose proof Hp2 as (Hf2 & Hr2 & _).
  assert (building value_ok a s2) as Hb2 by (eapply building_further; [exact Hf2|by apply value_ok_further|done]).
  apply (parsed_step s) in Hp2; [|done]. pose proof (left_le _ _ Hf2) as Hl2. destruct (further_pos _ _ Hf2) as [_ Hpos2].
  destruct (Z.eqb_spec r JSON_OK) as [->|Hne]; [|by eapply wrong_here_post]. specialize (Hv2 eq_refl).
  assert (further (p_htc s) (p_htc s2)) as Hf02 by apply Hp2.
  pose proof (add_parsed value_ok JSON_VALUE_SIZE v_cells v_tables a v s s2 F ltac:(done) Hp2 (value_ok_further _ _ Hf02) ltac:(lia) Hb Hv2 (scrap_value v)) as Hadd.
  pose proof (after_element_none v c) as Hnone. destruct (after_element v c).
  - destruct (nothing_added _ _ a v s F c s2 Hp2 (Hnone (or_introl eq_refl)) Hb2) as [_ Hg2].
    eapply wp_mono; [apply (IHa a s2 F); [done|done|unfold loop_fuel; lia|done]|]. intros x s3. by apply loop_post_step.
  - apply wp_bind. eapply wp_mono; [exact Hadd|]. intros [ok a'] s3 (Hh & Hb3 & Hp3). cbn [fst snd] in *. destruct ok; [|by apply wp_ret].
    cbn [negb]. destruct (c =? RBRACK); [by apply wp_ret|]. pose proof (left_heaped _ _ Hh).
    eapply wp_mono; [apply (IHa a' s3 F); [apply Hp3|done|unfold loop_fuel; lia|by apply (parsed_grown s)]|].
    intros x s4. apply loop_post_step, Hp3.
  - apply wp_bind. eapply wp_mono; [exact Hadd|]. intros [ok a'] s3 (Hh & Hb3 & Hp3). by apply wp_ret.
  - apply wp_ret. by apply (nothing_added _ _ a v s F c s2 Hp2 (Hnone (or_intror eq_refl))).
  - by eapply wrong_here_post.
Qed.

Lemma parsed_further s s1 F bl r s' : further (p_htc s) (p_htc s1) -> parsed s1 F bl r s' -> parsed s F bl r s'.
Proof. intros Hf (H1 & H2 & H3). split; [by eapply further_trans|]. by split. Qed.

Lemma pair_step f : value_spec f -> object_spec f -> pair_spec (S f).
Proof.
  intros IHv IHo name o s0 s F Hr Hb Hf0 Hpos Hf Hname Hg. cbn [pair_value].
  apply wp_bind, read_saw; [done|]. intros c1 s1 Hs1 Hr1 Hadv1 Hsaw1. cbv beta iota.
  assert (grown a0 (p_heap s1) (obj_blocks o ++ F)) as Hg1 by (destruct Hs1 as [_ ->]; done).
  assert (value_fuel c1 s1 f) as Hfv.
  { destruct (Z.eq_dec c1 0) as [|Hc1]; [right; lia|]. pose proof (left_less c1 s s1 Hs1 Hadv1 Hc1) as Hl1. left. lia. }
  pose proof (left_le _ _ (proj1 Hs1)) as Hl1. destruct (further_pos _ _ (proj1 Hs1)) as [_ Hpos1]. apply wp_bind.
  eapply wp_mono; [apply (IHv c1 _ s1 (obj_blocks o ++ F)); [done|by apply current_read|done|done]|].
  intros [[r v] c] s2 [Hp2 Hv2]. cbn [fst snd] in Hp2, Hv2. pose proof Hp2 as (Hf2 & Hr2 & _).
  apply (parsed_step s) in Hp2; [|done]. assert (further (p_htc s) (p_htc s2)) as Hf02 by apply Hp2.
  apply (parsed_further s0) in Hp2; [|done]. assert (further (p_htc s0) (p_htc s2)) as Hf00 by apply Hp2.
  assert (building pair_ok o s2) as Hb2 by (eapply building_further; [exact Hf00|by apply pair_ok_further|done]).
  pose proof (left_le _ _ Hf2) as Hl2. destruct (further_pos _ _ Hf2) as [_ Hpos2].
  destruct (Z.eqb_spec r JSON_OK) as [->|Hne]; cbn [negb]; [|apply wp_ret; by eapply nothing_parsed]. specialize (Hv2 eq_refl).
  assert (pair_ok (htc_content (p_htc s2)) (name, v)) as Hpair by (split; [by apply (span_further s)|done]).
  pose proof (add_parsed pair_ok JSON_PAIR_SIZE (fun p => v_cells p.2) (fun p => v_tables p.2) o (name, v) s0 s2 F
    ltac:(done) Hp2 (pair_ok_further _ _ Hf00) ltac:(lia) Hb Hpair (scrap_value v)) as Hadd.
  pose proof (after_member_none v c) as Hnone. pose proof (after_member_flags v c) as Hfl. destruct (after_member v c) as [av fl].
  cbn [fst snd] in Hnone, Hfl. destruct av.
  - destruct (nothing_added _ _ o v s0 F c s2 Hp2 (Hnone (or_introl eq_refl)) Hb2) as [_ Hg2].
    eapply wp_mono; [apply (IHo fl no_string o s2 F); [done|done|unfold loop_fuel; lia|done|done]|]. intros x s3. by apply loop_post_step.
  - apply wp_bind. eapply wp_mono; [exact Hadd|]. intros [ok o'] s3 (Hh & Hb3 & Hp3). cbn [fst snd] in *. destruct ok; [|by apply wp_ret].
    cbn [negb]. pose proof (left_heaped _ _ Hh).
    eapply wp_mono; [apply (IHo fl no_string o' s3 F); [apply Hp3|done|unfold loop_fuel; lia|done|by apply (parsed_grown s0)]|].
    intros x s4. apply loop_post_step, Hp3.
  - apply wp_bind. eapply wp_mono; [exact Hadd|]. intros [ok o'] s3 (Hh & Hb3 & Hp3). by apply wp_ret.
  - apply wp_ret. by apply (nothing_added _ _ o v s0 F c s2 Hp2 (Hnone (or_intror eq_refl))).
  - by eapply wrong_here_post.
Qed.

(** *** Objects *)
Lemma object_err o s F r0 r c s1 e : parsed s F (obj_blocks o) r0 s1 -> r <> JSON_OK -> building pair_ok o s1 ->
  loop_post pair_ok obj_blocks s F (r, o, c) (mkP A (p_htc s1) e (p_heap s1)).
Proof.
  intros (H1 & H2 & lost & Hg & Hs & _) Hr Hb. split; [|done]. split; [done|]. split; [done|]. by exists lost.
Qed.

(** A symbol of an object was read at [s]; its name perhaps as well at [s2]. *)
Record in_object (f : nat) (o : json_object) (s : ST) (F : list block) (s2 : ST) : Prop := {
  io_readable : readable (p_htc s2);
  io_further : further (p_htc s) (p_htc s2);
  io_adv : at_pos s < at_pos s2;
  io_fuel : (2 * left_over s2 + 3 <= f)%nat;
  io_building : building pair_ok o s;
  io_grown : grown a0 (p_heap s2) (obj_blocks o ++ F)
}.
Section in_object.
Context (f : nat) (o : json_object) (s : ST) (F : list block).
Context (IHo : object_spec f) (IHp : pair_spec f).
Abbreviation OPost := (loop_post pair_ok obj_blocks s F).

Lemma io_scanned s1 s2 : in_object f o s F s1 -> scanned s1 s2 -> readable (p_htc s2) -> in_object f o s F s2.
Proof.
  intros [H1 H2 H3 H4 H5 H6] Hs Hr. pose proof (left_le _ _ (proj1 Hs)). destruct (further_pos _ _ (proj1 Hs)).
  split; [done|by eapply further_trans; [|apply Hs]|lia|lia|done|by destruct Hs as [_ ->]].
Qed.
Lemma io_built s1 : in_object f o s F s1 -> building pair_ok o s1.
Proof. intros Hi. eapply building_further; [apply Hi|apply pair_ok_further, Hi|apply Hi]. Qed.
Lemma io_parsed s1 r : in_object f o s F s1 -> parsed s F (obj_blocks o) r s1.
Proof. intros Hi. split; [apply Hi|]. split; [apply Hi|]. exists []. split; [apply Hi|]. split; [apply scrap_nil|done]. Qed.

Lemma io_loop s1 fl name : in_object f o s F s1 -> (fl = BeforeColon -> span_ok s1 name) -> wp (object_loop f fl name o) s1 OPost.
Proof.
  intros Hi Hn. eapply wp_mono; [apply (IHo fl name o s1 F); [apply Hi|by apply io_built|apply io_fuel in Hi; unfold loop_fuel; lia|done|apply Hi]|].
  intros x s2. apply loop_post_step, Hi.
Qed.
Lemma io_pair s1 name : in_object f o s F s1 -> span_ok s1 name -> wp (pair_value f name o) s1 OPost.
Proof. intros Hi Hn. apply (IHp name o s s1 F); try done; apply Hi. Qed.
Lemma io_end s1 c : in_object f o s F s1 -> wp (mret (JSON_OK, o, c)) s1 OPost.
Proof. intros Hi. apply wp_ret. split; [by apply io_parsed|by apply io_built]. Qed.
Lemma io_err s1 c e : in_object f o s F s1 -> wp (set_err e;; mret (JSON_PARSE_ERROR, o, c)) s1 OPost.
Proof. intros Hi. apply wp_bind, wp_modify, wp_ret. apply (object_err o s F JSON_OK); [by apply io_parsed|done|by apply io_built]. Qed.
Lemma io_name s1 c pos (K : json_string -> Z -> M ST (Z * json_object * Z)) : in_object f o s F s1 -> 0 <= pos <= at_pos s1 ->
  (forall t c s2, in_object f o s F s2 -> span_ok s2 t -> wp (K t c) s2 OPost) ->
  wp ('(r, t, c) ← parse_string_name f c pos; if negb (r =? JSON_OK) then mret (r, o, c) else K t c) s1 OPost.
Proof.
  intros Hi Hpos HK. apply wp_bind. eapply wp_mono; [apply name_spec; [apply Hi|done|apply io_fuel in Hi; lia]|].
  intros [[r t] c2] s2 (Hs & Hr & Hres). cbn [fst snd] in *. pose proof (io_scanned s1 s2 Hi Hs Hr) as Hi2.
  destruct Hres as [[-> Ht]| ->]; cbn [Z.eqb negb JSON_OK JSON_PARSE_ERROR]; [by apply HK|].
  apply wp_ret. split; [by apply io_parsed|by apply io_built].
Qed.
End in_object.

Lemma object_step f : object_spec f -> pair_spec f -> object_spec (S f).
Proof.
  intros IHo IHp fl name o s F Hr Hb Hf Hname Hg. cbn [object_loop]. unfold loop_fuel in *.
  apply wp_bind, symbol_spec; [done|]. intros c1 s1 Hs1 Hr1 Hadv1. cbv beta iota. destruct (Z.eqb_spec c1 0) as [->|Hc1].
  { apply wp_ret. split; [by apply parsed_scanned|]. eapply building_further; [apply Hs1|apply pair_ok_further, Hs1|done]. }
  pose proof (left_less c1 s s1 Hs1 Hadv1 Hc1) as Hl1. pose proof (rd_pos _ Hr) as Hp0.
  assert (in_object f o s F s1) as Hi by (split; [done|apply Hs1|by apply Hadv1|lia|done|by destruct Hs1 as [_ ->]]).
  assert (0 <= at_pos s <= at_pos s1) as Hpos by (specialize (Hadv1 Hc1); unfold at_pos in *; lia).
  destruct fl.
  - destruct (is_quote c1).
    { eapply (io_name f o s F s1 c1 (at_pos s) (fun t c => if is_quote c then object_loop f BeforeColon t o else set_err (at_pos s);; mret (JSON_PARSE_ERROR, o, c))); [done|done|].
      intros t c s2 Hi2 Ht. destruct (is_quote c); [by apply io_loop|by eapply io_err]. }
    destruct (is_upper c1 || is_lower c1 || (c1 =? 95)).
    { eapply (io_name f o s F s1 c1 (at_pos s) (fun t c => if c =? COLON then pair_value f t o else object_loop f BeforeColon t o)); [done|done|].
      intros t c s2 Hi2 Ht. destruct (c =? COLON); [by apply io_pair|by apply io_loop]. }
    destruct (_ || is_ws c1); [by apply io_loop|]. destruct (c1 =? RBRACE); [by eapply io_end|by eapply io_err].
  - assert (span_ok s1 name) as Hn1 by (eapply span_further; [apply Hs1|by apply Hname]).
    destruct (c1 =? COLON); [by apply io_pair|]. destruct (is_ws c1); [by apply io_loop|by eapply io_err].
  - destruct (c1 =? COMMA); [by apply io_loop|]. destruct (is_ws c1); [by apply io_loop|].
    destruct (c1 =? RBRACE); [by eapply io_end|by eapply io_err].
Qed.

Lemma parser_specs f : value_spec f /\ array_spec f /\ object_spec f /\ pair_spec f.
Proof.
  induction f as [|f (IHv & IHa & IHo & IHp)].
  - unfold value_spec, array_spec, object_spec, pair_spec, loop_fuel, value_fuel. by split_and!; intros; lia.
  - split_and!; [by apply value_step|by apply array_step|by apply object_step|by apply pair_step].
Qed.
End parsing.
