(* ===== verification/JsonContext.v ===== *)
(** * JSON contexts: creating, parsing, destroying (hypertext/libht/json.c) *)
From S2P Require Import Prelude Memory Str HtContext Json JsonRefusal JsonScan JsonMemory JsonProof.
Set Default Goal Selector "!".

(** ** Induction on values *)
Definition inside {X} (P : X -> Prop) (s : slot X) : Prop := match s with SAt _ x => P x | _ => True end.
Section values.
Context (P : json_value -> Prop).
Context (Hleaf : forall v, (forall o, v <> VObject o) -> (forall a, v <> VArray a) -> P v).
Context (Hobject : forall o, Forall (inside (fun p => P p.2)) (v_slots o) -> P (VObject o)).
Context (Harray : forall a, Forall (inside P) (v_slots a) -> P (VArray a)).

Lemma json_value_all : forall v, P v.
Proof.
  fix IH 1. intros v. destruct v as [ | | |[p l]|[p l]| | | ]; [by apply Hleaf|by apply Hleaf|by apply Hleaf| | |by apply Hleaf..].
  - apply Hobject. cbn. induction l as [|[|q|q [n x]] l IHl]; constructor; try exact IHl; cbn; [done|done|apply IH].
  - apply Harray. cbn. induction l as [|[|q|q x] l IHl]; constructor; try exact IHl; cbn; [done|done|apply IH].
Qed.
End values.

Section contexts.
Context {A : Type} `{AllocatorLaws A}.
Context (a0 : A).

(** ** Destroying *)
Lemma destroy_slots_spec {X} sz (D : X -> M A unit) (C : X -> list block) (P : X -> Prop) l F a :
  Forall (slot_ok P) l ->
  Forall (inside (fun x => forall a F, P x -> grown a0 a (C x ++ F) -> wp (D x) a (fun _ a' => grown a0 a' F))) l ->
  grown a0 a (concat (map (slot_cells sz C) l) ++ F) -> wp (destroy_slots sz D l) a (fun _ a' => grown a0 a' F).
Proof.
  revert a. induction l as [|[|p|p x] l IH]; intros a Hok Hin Hg; cbn [destroy_slots];
    [by apply wp_ret|apply Forall_cons in Hok as [Hs Hok]; apply Forall_cons in Hin as [Hx Hin]; cbn in *..].
  - by apply IH.
  - done.
  - apply wp_bind. eapply wp_mono; [apply (Hx a ((p, sz) :: concat (map (slot_cells sz C) l) ++ F)); [done|]|].
    + eapply grown_perm; [|exact Hg]. cbn. rw -app_assoc. solve_Permutation.
    + intros [] a1 Hg1. cbn beta in Hg1. apply wp_bind. eapply wp_mem_free; [exact Hg1|]. intros a2 Hg2. by apply IH.
Qed.

Lemma destroy_value_spec T v : forall a F, v_ok T v -> grown a0 a (v_cells v ++ F) -> wp (destroy_value v) a (fun _ a' => grown a0 a' F).
Proof.
  induction v as [v Ho Ha|o IH|o IH] using json_value_all; intros a F Hok Hg.
  - destruct v; try (by apply wp_ret); [by destruct (Ho o)|by destruct (Ha a1)].
  - destruct Hok as [Hok _]. apply all_Forall in Hok. cbn [destroy_value].
    eapply (destroy_slots_spec _ _ (fun p => v_cells p.2) (fun p => T p.1 /\ v_ok T p.2)); [done| |done].
    eapply Forall_impl; [exact IH|]. intros [|q|q [n x]] Hx; cbn in *; [done|done|]. intros a1 F1 [_ H1] H2. by apply Hx.
  - destruct Hok as [Hok _]. apply all_Forall in Hok. cbn [destroy_value].
    eapply (destroy_slots_spec _ _ v_cells (v_ok T)); [done| |done].
    eapply Forall_impl; [exact IH|]. intros [|q|q x] Hx; cbn in *; [done|done|]. intros a1 F1 H1 H2. by apply Hx.
Qed.

(** ** Parsing *)
Definition document (content : list Z) (sz : Z) : Prop :=
  Forall is_byte content /\ 0 <= sz <= Z.of_nat (length content) /\ sz < MAX_DOCUMENT.

Lemma detect_bom_some l m bom e : detect_bom l m = Some (bom, e) -> (bom, e) ∈ l.
Proof.
  induction l as [|[b f] l IH]; cbn; [done|]. case_bool_decide; [|intros Hd; right; by apply IH]. intros [= -> ->]. left.
Qed.

Lemma init_readable content sz : document content sz ->
  let x := ht_init_context (Some content) sz (mkHT blank_content None) in
  readable x /\ p_content (htc_content x) = content /\ sz_content (htc_content x) = sz.
Proof.
  intros (Hb & Hsz & Hmax). unfold ht_init_context. change (default [] (Some content)) with content.
  cbn [htc_content]. destruct (Z.ltb_spec 4 sz).
  - destruct (detect_bom bom_table content) as [[bom e]|] eqn:E.
    + apply detect_bom_some in E. split; [|done].
      assert (0 <= Z.of_nat (length bom) <= 4 /\ 0 <= e <= 4) as [Hl He].
      { unfold bom_table in E. rw !elem_of_cons in E. destruct E as [E|[E|[E|[E|[E|E]]]]]; [injection E as -> ->; cbn; unfold E_UTF_8, E_UTF_16_BE, E_UTF_16_LE, E_UTF_32_BE, E_UTF_32_LE; lia..|by apply elem_of_nil in E]. }
      split; cbn; try done; try lia.
    + split; [|done]. split; cbn; try done; lia.
  - split; [|done]. split; cbn; try done; lia.
Qed.

Lemma parse_fuel_enough sz (x : ht_context) : readable x -> sz_content (htc_content x) = sz ->
  forall e (a : A), loop_fuel (mkP A x e a) (parse_fuel sz).
Proof.
  intros Hr E e a. unfold loop_fuel, left_over, doc_size, at_pos, parse_fuel. cbn. rw E. pose proof (rd_pos _ Hr). lia.
Qed.

Definition parse_post (x : json_context) (content : list Z) (sz : Z) (F : list block) (r : Z * json_context) (a : A) : Prop :=
  let h := htc_content (jc_htc r.2) in
  (p_content h = content /\ sz_content h = sz /\ readable (jc_htc r.2)) /\
  (jc_addr r.2 = jc_addr x /\ jc_htc_addr r.2 = jc_htc_addr x) /\
  vec_ok (pair_ok h) (root r.2) /\
  exists lost, grown a0 a (lost ++ obj_blocks (root r.2) ++ F) /\ scrap lost /\ (r.1 = JSON_OK -> lost = []).

(** A context without a document. *)
Lemma json_parse_fresh x content sz a : root x = no_vec -> json_parse x content sz a =
  match parse_object (parse_fuel sz) no_vec None (mkP A (ht_init_context (Some content) sz (mkHT blank_content None)) (jc_err_pos x) a) with
  | Some ((r, o, _), s) => Some ((r, mkJC (jc_addr x) (jc_htc_addr x) (p_htc s) o (err_pos s)), p_heap s)
  | None => None
  end.
Proof.
  intros Hroot. unfold json_parse.
  assert (json_reset_context x a = Some (mkJC (jc_addr x) (jc_htc_addr x) (mkHT blank_content None) no_vec (jc_err_pos x), a)) as ->;
    [unfold json_reset_context, destroy_object; by rw Hroot|done].
Qed.

Lemma json_parse_spec x content sz a F : root x = no_vec -> document content sz -> grown a0 a F ->
  wp (json_parse x content sz) a (parse_post x content sz F).
Proof.
  intros Hroot Hdoc Hg. unfold wp. rw (json_parse_fresh x content sz a Hroot).
  destruct (init_readable content sz Hdoc) as (Hr & Hc & Hs). set (h := ht_init_context (Some content) sz (mkHT blank_content None)) in *.
  destruct (parser_specs a0 (parse_fuel sz)) as (_ & _ & Hobj & _).
  assert (wp (parse_object (parse_fuel sz) no_vec None) (mkP A h (jc_err_pos x) a)
    (loop_post a0 pair_ok obj_blocks (mkP A h (jc_err_pos x) a) F)) as Hwp.
  { unfold parse_object. change (default LBRACE None =? LBRACE) with true. cbv iota.
    apply Hobj; [done|by apply building_no_vec|by apply (parse_fuel_enough sz)|done|done]. }
  unfold wp in Hwp. destruct (parse_object _ _ _ _) as [[[[r o] c] s']|]; [|done]. destruct Hwp as [(Hf & Hr' & Hlost) [Hok _]].
  cbn [fst snd p_htc] in Hlost, Hok, Hf. unfold parse_post. cbn [fst snd jc_htc jc_addr jc_htc_addr root].
  destruct Hf as (p & Hf & _). rw Hf in Hr' Hok |- *. by split_and!.
Qed.

(** ** Creating *)
Lemma json_create_spec a F : grown a0 a F ->
  wp json_create_context a (fun o a' => match o with
    | Some x => root x = no_vec /\ grown a0 a' ((jc_addr x, JSON_CONTEXT_SIZE) :: (jc_htc_addr x, HT_CONTEXT_SIZE) :: F)
    | None => grown a0 a' F end).
Proof.
  intros Hg. unfold json_create_context. apply wp_bind. eapply wp_mem_alloc; [exact Hg|done|by intros|].
  intros p a1 Hp Hg1. destruct (Z.eqb_spec p 0); [lia|]. cbn [negb]. apply wp_bind. unfold ht_create_context. apply wp_bind.
  eapply wp_mem_alloc; [exact Hg1|done| |].
  - intros a2 Hg2. apply wp_ret. cbn. apply wp_bind. eapply wp_mem_free; [exact Hg2|]. intros a3 Hg3. by apply wp_ret.
  - intros q a2 Hq Hg2. apply wp_ret. destruct (Z.eqb_spec q 0); [lia|]. cbn. split; [done|].
    eapply grown_perm; [|exact Hg2]. solve_Permutation.
Qed.

Lemma json_destroy_spec x h F a : vec_ok (pair_ok h) (root x) ->
  grown a0 a (obj_blocks (root x) ++ (jc_addr x, JSON_CONTEXT_SIZE) :: (jc_htc_addr x, HT_CONTEXT_SIZE) :: F) ->
  wp (json_destroy_context x) a (fun _ a' => grown a0 a' (v_tables (VObject (root x)) ++ F)).
Proof.
  intros Hok Hg. unfold json_destroy_context. apply wp_bind. unfold destroy_object.
  eapply wp_mono; [apply (destroy_value_spec (span_in h) (VObject (root x)) a
    (v_tables (VObject (root x)) ++ (jc_addr x, JSON_CONTEXT_SIZE) :: (jc_htc_addr x, HT_CONTEXT_SIZE) :: F)); [done|]|].
  - eapply grown_perm; [|exact Hg]. unfold obj_blocks, vec_blocks. cbn [v_cells v_tables]. by rw !app_assoc.
  - intros [] a1 Hg1. cbn beta in Hg1. apply wp_bind.
    eapply wp_mem_free; [eapply grown_perm; [symmetry; apply Permutation_middle|exact Hg1]|].
    intros a2 Hg2. unfold ht_destroy_context.
    eapply wp_mem_free; [eapply grown_perm; [symmetry; apply Permutation_middle|exact Hg2]|]. done.
Qed.
End contexts.

(** ** The properties *)
Section properties.
Context {A : Type} `{AllocatorLaws A}.

(** C17: [json_parse] in a context that has no document yet returns for every
    document of less than 2^28 bytes, whatever its bytes, its encoding and the
    allocator's answers: no loop of the parser runs forever, no read leaves the
    document, and the fuel is enough.  The document is the one that was given.
    The answer is JSON_MEMORY_ERROR exactly when the allocator refused a block,
    and after one refusal nothing more is asked for.  Nothing that was allocated
    before is touched, and the pointers of the tree lead to blocks that are live,
    new and distinct.  After JSON_OK no other block is new; after an error the
    blocks of the values that were dropped stay, each value whole. *)
Theorem json_parse_total x content sz (a : tracked A) : root x = no_vec -> document content sz -> a_ok a ->
  exists r x' a' lost, json_parse x content sz a = Some ((r, x'), a') /\
    p_content (htc_content (jc_htc x')) = content /\ sz_content (htc_content (jc_htc x')) = sz /\
    refusals a' = refusals a + (if r =? JSON_MEMORY_ERROR then 1 else 0) /\
    grown a a' (lost ++ obj_blocks (root x')) /\ scrap lost /\ (r = JSON_OK -> lost = []).
Proof.
  intros Hroot Hdoc Ha. destruct (wp_run _ _ _ (json_parse_spec a x content sz a [] Hroot Hdoc (grown_nil a Ha)))
    as ([r x'] & a' & E & (Hc & Hs & _) & _ & _ & lost & Hg & Hsc & Hl). exists r, x', a', lost. rw app_nil_r in Hg. split_and!; try done.
  by eapply json_parse_told.
Qed.

(** C18: The tree [json_parse] builds in a context that has no document yet is
    well formed, whatever it returns: every string, number and name lies inside the
    document, no pointer dangles, and the free slots of an array of pointers are
    its last ones. *)
Theorem json_parse_typed x content sz a r x' a' : root x = no_vec -> document content sz -> a_ok a ->
  json_parse x content sz a = Some ((r, x'), a') ->
  value_ok (htc_content (jc_htc x')) (VObject (root x')).
Proof.
  intros Hroot Hdoc Ha E. pose proof (json_parse_spec a x content sz a [] Hroot Hdoc (grown_nil a Ha)) as Hwp.
  unfold wp in Hwp. rw E in Hwp. by destruct Hwp as (_ & _ & Hok & _).
Qed.

(** A context that is created, used once and destroyed. *)
Definition json_session (content : list Z) (sz : Z) : M A (option (Z * json_object)) :=
  o ← json_create_context;
  match o with
  | Some x => '(r, x) ← json_parse x content sz; json_destroy_context x;; mret (Some (r, root x))
  | None => mret None
  end.

(** C19: Creating a context, parsing a document and destroying the context is
    safe: no block is freed twice or with another size, and no pointer to a
    freed block is followed.  Without memory for the context nothing stays
    allocated.  After JSON_OK exactly the arrays of pointers stay. *)
Theorem json_session_safe content sz a : document content sz -> a_ok a ->
  exists o a', json_session content sz a = Some (o, a') /\
    match o with
    | None => a_live a' = a_live a
    | Some (r, o) => exists lost, grown a a' (lost ++ v_tables (VObject o)) /\ (r = JSON_OK -> lost = [])
    end.
Proof.
  intros Hdoc Ha. apply (wp_run (json_session content sz) a). unfold json_session. apply wp_bind.
  eapply wp_mono; [apply (json_create_spec a), grown_nil, Ha|]. intros [x|] a1 Hx.
  - destruct Hx as [Hroot Hg1]. apply wp_bind. eapply wp_mono; [by apply (json_parse_spec a x content sz a1)|].
    intros [r x'] a2 (_ & [E1 E2] & Hok & lost & Hg2 & _ & Hl). cbn [fst snd] in *. apply wp_bind.
    eapply wp_mono; [apply (json_destroy_spec a x' (htc_content (jc_htc x')) lost a2 Hok)|].
    + rw E1 E2. eapply grown_perm; [|exact Hg2]. solve_Permutation.
    + intros [] a3 Hg3. apply wp_ret. exists lost. split; [|done]. eapply grown_perm; [|exact Hg3]. apply Permutation_app_comm.
  - apply wp_ret. destruct Hx as [_ Hl _ _]. by rw Hl list_to_map_nil left_id_L.
Qed.
End properties.

(** ** Witnesses *)
Definition fresh_context : json_context := mkJC 1 2 (mkHT blank_content None) no_vec 0.
(** Cut off inside the array, in UTF-16, little-endian. *)
Definition cut_document : list Z := [0xff; 0xfe] ++ concat (map (fun c => [c; 0]) (str "{'a':[1,tru,'x")).
Lemma cut_document_ok : document cut_document 30 /\ a_ok (Bump.empty 16 100).
Proof.
  split; [split; [|by vm_compute]|].
  - unfold cut_document, is_byte. cbn. repeat (constructor; [lia|]). constructor.
  - split; [done|]. intros p n Hp. by rw lookup_empty in Hp.
Qed.

(** Enough memory, and memory for three blocks only. *)
Lemma json_parse_total_witness : let a0 := mkTracked (Bump.empty 16 3) 0 in
  (fun r : Z * json_context * tracked Bump.t => (r.1.1, refusals r.2)) <$> json_parse fresh_context cut_document 30 (mkTracked (Bump.empty 16 100) 0) = Some (JSON_PARSE_ERROR, 0) /\
  (fun r : Z * json_context * tracked Bump.t => (r.1.1, refusals r.2)) <$> json_parse fresh_context (str "{'a':1, 'b':[2], 'c':3}") 23 a0 = Some (JSON_MEMORY_ERROR, 1) /\
  exists r x' a' lost, json_parse fresh_context (str "{'a':1, 'b':[2], 'c':3}") 23 a0 = Some ((r, x'), a') /\
  p_content (htc_content (jc_htc x')) = str "{'a':1, 'b':[2], 'c':3}" /\ sz_content (htc_content (jc_htc x')) = 23 /\
  refusals a' = refusals a0 + (if r =? JSON_MEMORY_ERROR then 1 else 0) /\
  grown a0 a' (lost ++ obj_blocks (root x')) /\ scrap lost /\ (r = JSON_OK -> lost = []).
Proof.
  split; [by vm_compute|]. split; [by vm_compute|]. apply json_parse_total; [done| |].
  - split; [|by vm_compute]. cbn. unfold is_byte. repeat (constructor; [lia|]). constructor.
  - split; [done|]. intros p n Hp. by rw lookup_empty in Hp.
Defined.

Lemma json_parse_typed_witness : exists r x' a', json_parse fresh_context cut_document 30 (Bump.empty 16 100) = Some ((r, x'), a') /\
  value_ok (htc_content (jc_htc x')) (VObject (root x')).
Proof.
  destruct (wp_run _ _ _ (json_parse_spec (Bump.empty 16 100) fresh_context cut_document 30 _ [] eq_refl (proj1 cut_document_ok)
    (grown_nil _ (proj2 cut_document_ok)))) as ([r x'] & a' & E & _).
  exists r, x', a'. split; [done|]. apply (json_parse_typed fresh_context cut_document 30 (Bump.empty 16 100) r x' a');
    [done|apply cut_document_ok|apply cut_document_ok|done].
Defined.

Lemma json_session_safe_witness : exists o a', json_session cut_document 30 (Bump.empty 16 100) = Some (o, a') /\
  match o with
  | None => a_live a' = a_live (Bump.empty 16 100)
  | Some (r, o) => exists lost, grown (Bump.empty 16 100) a' (lost ++ v_tables (VObject o)) /\ (r = JSON_OK -> lost = [])
  end.
Proof. apply json_session_safe; apply cut_document_ok. Defined.

(** What the parser accepts and what it does not. *)
Definition verdict_of (s : list Z) : option Z :=
  '((r, _), _) ← json_parse fresh_context s (Z.of_nat (length s)) (Bump.empty 16 100); Some r.
Definition twice_destroyed : option unit :=
  match json_create_context (Bump.empty 16 100) with
  | Some (Some x, a) =>
      '((_, x), a) ← json_parse x (str "{'a':1}") 7 a;
      '((_, x), a) ← json_parse x (str "{'b':2}") 7 a;
      '(_, a) ← json_destroy_context x a; Some tt
  | _ => None
  end.

(** Where the parser leaves the JSON grammar: an array inside an array ends
    the outer one, so nested arrays are refused; a document cut off behind a
    comma, a prefix of a constant and elements without a comma are accepted; exponents
    and a string that ends with an escaped backslash are refused or read past
    the quote.  A second document in the same context makes destroying it
    follow pointers to freed blocks. *)
Theorem json_defects :
  verdict_of (str "{'a':[[1],2]}") = Some JSON_PARSE_ERROR /\
  verdict_of (str "{'a':1,") = Some JSON_OK /\
  verdict_of (str "{'a':t}") = Some JSON_OK /\
  verdict_of (str "{'a':['x' 'y']}") = Some JSON_OK /\
  verdict_of (str "{'a':1e5}") = Some JSON_PARSE_ERROR /\
  verdict_of (str "{'a':.5}") = Some JSON_PARSE_ERROR /\
  verdict_of (str "{'a':'x\\','b':1}") = Some JSON_PARSE_ERROR /\
  twice_destroyed = None.
Proof. by vm_compute. Qed.
