(* ===== verification/JsonRoundtrip.v ===== *)
(** * JSON parser: round trip (hypertext/libht/json.c)

    A document written by [render] is parsed into a tree that [decode] reads
    back.  No array is written directly inside an array: the parser does not
    accept one.  [wlp] is partial correctness; that the parser returns is
    [json_parse_total]. *)
From S2P Require Import Prelude Memory Str HtContext Json JsonRefusal JsonScan JsonMemory JsonProof JsonContext.
Set Default Goal Selector "!".

(** ** Documents *)
#[warnings="-register-all"]
Inductive jdoc :=
| DString (s : list Z) | DNumber (s : list Z) | DTrue | DFalse | DNull
| DArray (l : list jdoc) | DObject (l : list (list Z * jdoc)).

Fixpoint render (d : jdoc) : list Z :=
  match d with
  | DString s => QUOTE :: s ++ [QUOTE]
  | DNumber s => s
  | DTrue => str "true"
  | DFalse => str "false"
  | DNull => str "null"
  | DArray l =>
      LBRACK :: (match l with [] => [] | d :: l => render d ++ concat (map (fun d => COMMA :: render d) l) end) ++ [RBRACK]
  | DObject l =>
      LBRACE :: (match l with
        | [] => []
        | p :: l =>
            (QUOTE :: p.1 ++ QUOTE :: COLON :: render p.2) ++
              concat (map (fun p => COMMA :: QUOTE :: p.1 ++ QUOTE :: COLON :: render p.2) l)
        end) ++ [RBRACE]
  end.
Definition elements (l : list jdoc) : list Z :=
  match l with [] => [] | d :: l => render d ++ concat (map (fun d => COMMA :: render d) l) end.
Definition more_elements (l : list jdoc) : list Z := concat (map (fun d => COMMA :: render d) l).
Definition member (p : list Z * jdoc) : list Z := QUOTE :: p.1 ++ QUOTE :: COLON :: render p.2.
Definition members (l : list (list Z * jdoc)) : list Z :=
  match l with [] => [] | p :: l => member p ++ concat (map (fun p => COMMA :: member p) l) end.
Definition more_members (l : list (list Z * jdoc)) : list Z := concat (map (fun p => COMMA :: member p) l).

(** *** What can be written *)
(** One byte, one symbol. *)
Definition plain (c : Z) : bool := (0 <? c) && (c <? 192).
(** A quote stands behind a backslash, and no backslash at the end. *)
Fixpoint quotable (prev : Z) (s : list Z) : bool :=
  match s with
  | [] => negb (prev =? 92)
  | c :: s => plain c && ((prev =? 92) || negb (c =? QUOTE)) && quotable c s
  end.
Definition name_char (c : Z) : bool := is_upper c || is_lower c || (c =? 45) || (c =? 95).
Definition name_text (s : list Z) : bool :=
  match s with [] => true | c :: s => name_char c && forallb (fun c => name_char c || is_digit c) s end.
Definition digits_text (s : list Z) : bool :=
  match s with [] => false | c :: s => is_digit c && forallb (fun c => is_digit c || (c =? 46)) s end.
Definition number_text (s : list Z) : bool :=
  match s with c :: s' => if (c =? 45) || (c =? 43) then digits_text s' else digits_text s | [] => false end.

Definition is_array (d : jdoc) : bool := match d with DArray _ => true | _ => false end.
Fixpoint writable (d : jdoc) : bool :=
  match d with
  | DString s => quotable QUOTE s
  | DNumber s => number_text s
  | DArray l => forallb (fun d => negb (is_array d) && writable d) l
  | DObject l => forallb (fun p => name_text p.1 && writable p.2) l
  | _ => true
  end.

(** ** Reading a tree back *)
Definition text (m : list Z) (t : json_string) : option (list Z) :=
  d ← j_data t; Some (take (Z.to_nat (j_size t)) (drop (Z.to_nat d) m)).
Definition read_slots {X Y} (f : X -> option Y) : list (slot X) -> option (list Y) :=
  fix go (l : list (slot X)) : option (list Y) :=
    match l with
    | [] => Some []
    | SNull :: l => go l
    | SFreed _ :: _ => None
    | SAt _ x :: l => y ← f x; ys ← go l; Some (y :: ys)
    end.
Fixpoint decode (m : list Z) (v : json_value) : option jdoc :=
  match v with
  | VNone => None
  | VString t => DString <$> text m t
  | VNumber t => DNumber <$> text m t
  | VTrue => Some DTrue
  | VFalse => Some DFalse
  | VNull => Some DNull
  | VArray a => DArray <$> read_slots (decode m) (v_slots a)
  | VObject o => DObject <$> read_slots (fun p => n ← text m p.1; d ← decode m p.2; Some (n, d)) (v_slots o)
  end.
Definition decode_pair (m : list Z) (p : json_pair) : option (list Z * jdoc) :=
  n ← text m p.1; d ← decode m p.2; Some (n, d).

(** A document with an escape, a sign, every kind of value and both kinds of nesting. *)
Definition sample : list (list Z * jdoc) :=
  [(str "name", DString (str "a\b" ++ [92; 34] ++ str "c")); (str "n", DNumber (str "-12.5"));
   (str "list", DArray [DTrue; DNumber (str "0"); DString []; DObject []; DNull]);
   (str "empty", DArray []); (str "o-1", DObject [(str "x", DFalse); (str "y", DArray [DObject [(str "z", DNull)]])])].
Example sample_writable : writable (DObject sample) = true.
Proof. reflexivity. Qed.

Lemma all_byte l : forallb (fun c => (0 <=? c) && (c <? 256)) l = true -> Forall is_byte l.
Proof.
  induction l as [|c l IH]; cbn; [by constructor|]. intros [Hc Hl]%andb_true_iff. constructor; [unfold is_byte; lia|by apply IH].
Qed.

(** ** Comparing bytes *)
Lemma load8_nat m i : load8 m (Z.of_nat i) = m !! i.
Proof. unfold load8. destruct (Z.ltb_spec (Z.of_nat i) 0); [lia|]. by rw Nat2Z.id. Qed.

Lemma compare_from h p1 p2 l1 l2 : length l1 = length l2 -> Forall is_byte l1 -> Forall is_byte l2 ->
  (forall i c, l1 !! i = Some c -> deref load8 h p1 (Z.of_nat i) = Some c) ->
  (forall i c, l2 !! i = Some c -> deref load8 h p2 (Z.of_nat i) = Some c) -> forall n i, (i + n = length l1)%nat -> exists r,
  compare_loop n h E_UTF_8 E_UTF_8 p1 p2 (Z.of_nat i) = Some r /\ (r =? 0) = bool_decide (drop i l1 = drop i l2).
Proof.
  intros El Hb1 Hb2 Hl1 Hl2. induction n as [|n IH]; intros i Hi.
  - exists 0. split; [done|]. by rw !drop_ge; [|lia..].
  - cbn [compare_loop]. unfold symbol_at. change (E_UTF_8 =? E_UTF_8) with true. cbv iota.
    destruct (lookup_lt_is_Some_2 l1 i) as [c1 E1]; [lia|]. destruct (lookup_lt_is_Some_2 l2 i) as [c2 E2]; [lia|].
    rw (Hl1 i c1 E1) (Hl2 i c2 E2). cbn [mbind option_bind].
    pose proof (Forall_lookup_1 _ _ _ _ Hb1 E1) as B1. pose proof (Forall_lookup_1 _ _ _ _ Hb2 E2) as B2. unfold is_byte in *.
    assert (s32 (c1 - c2) = c1 - c2) as -> by (unfold s32; rw Z.mod_small; lia).
    rw (drop_S _ _ _ E1) (drop_S _ _ _ E2). destruct (Z.eqb_spec (c1 - c2) 0) as [Ez|Ez]; cbn [negb].
    + assert (c1 = c2) as -> by lia. replace (Z.of_nat i + 1) with (Z.of_nat (S i)) by lia. destruct (IH (S i)) as (r & Er & Hr); [lia|].
      exists r. split; [done|]. rw Hr. apply bool_decide_ext. split; [by intros ->|by intros [= ?]].
    + exists (c1 - c2). split; [done|]. destruct (Z.eqb_spec (c1 - c2) 0); [done|]. rw bool_decide_eq_false_2; [done|]. intros [= ? _]. lia.
Qed.
Lemma compare_lists h p1 p2 l1 l2 : length l1 = length l2 -> Forall is_byte l1 -> Forall is_byte l2 ->
  (forall i c, l1 !! i = Some c -> deref load8 h p1 (Z.of_nat i) = Some c) ->
  (forall i c, l2 !! i = Some c -> deref load8 h p2 (Z.of_nat i) = Some c) -> exists r,
  compare_loop (length l1) h E_UTF_8 E_UTF_8 p1 p2 0 = Some r /\ (r =? 0) = bool_decide (l1 = l2).
Proof.
  intros. destruct (compare_from h p1 p2 l1 l2) with (n := length l1) (i := 0%nat) as (r & Er & Hr); try done.
  exists r. by rw !drop_0 in Hr.
Qed.

(** ** Filling an array of pointers *)
Section slots.
Context {X Y : Type} (f : X -> option Y).

Lemma read_slots_app l1 l2 : read_slots f (l1 ++ l2) = y1 ← read_slots f l1; y2 ← read_slots f l2; Some (y1 ++ y2).
Proof.
  induction l1 as [|[|p|p x] l1 IH]; cbn; [by destruct (read_slots f l2)|done|done|]. destruct (f x) as [y|]; [|done]. cbn.
  fold (read_slots f). rw IH. destruct (read_slots f l1); [|done]. cbn. by destruct (read_slots f l2).
Qed.
Lemma read_slots_null k : read_slots f (replicate k SNull) = Some [].
Proof. by induction k. Qed.
Lemma read_slots_fill v n p x ys y : packed v n -> (n < length (v_slots v))%nat -> read_slots f (v_slots v) = Some ys -> f x = Some y ->
  read_slots f (<[n := SAt p x]> (v_slots v)) = Some (ys ++ [y]).
Proof.
  intros (l & k & E & <- & _ & _) Hn Hys Hx. rw E in Hn Hys |- *. rw length_app length_replicate in Hn. destruct k as [|k]; [lia|].
  rw -(Nat.add_0_r (length l)) insert_app_r. rw !read_slots_app in Hys |- *. destruct (read_slots f l) as [y1|]; [|done].
  cbn in Hys |- *. fold (read_slots f). rw Hx !read_slots_null in Hys |- *. injection Hys as <-. cbn. by rw app_nil_r.
Qed.
End slots.

Section add.
Context {A : Type} `{Allocator A} {X Y : Type} (f : X -> option Y).

(** What an array holds, and that the next entry goes behind it. *)
Definition holds (v : vec X) (ys : list Y) : Prop := read_slots f (v_slots v) = Some ys /\ exists n, packed v n.

Lemma fill_slot_holds sz v n x ys y (s : pstate A) : packed v n -> (n < length (v_slots v))%nat -> read_slots f (v_slots v) = Some ys ->
  f x = Some y -> wlp (fill_slot sz v n x) s (fun r s' => p_htc s' = p_htc s /\ (r.1 = true -> holds r.2 (ys ++ [y]))).
Proof.
  intros Hp Hn Hys Hx. unfold fill_slot. apply wlp_bind, wlp_intro. intros p s' E. unfold heap_op, mem_alloc in E.
  destruct (a_alloc (p_heap s) sz) as [q a]. injection E as <- <-. destruct (negb (q =? 0)); apply wlp_ret; (split; [done|]); [intros _|done].
  split; [by apply read_slots_fill|]. exists (S n). by apply packed_fill.
Qed.

Lemma alloc_slots_holds v n ys (s : pstate A) : packed v n -> length (v_slots v) = n -> read_slots f (v_slots v) = Some ys ->
  wlp (alloc_slots v) s (fun r s' => p_htc s' = p_htc s /\
    (r.1 = JSON_OK -> (n < length (v_slots r.2))%nat /\ packed r.2 n /\ read_slots f (v_slots r.2) = Some ys)).
Proof.
  intros Hp Hn Hys. unfold alloc_slots. apply wlp_bind, wlp_intro. intros p s' E. unfold heap_op, mem_alloc in E.
  destruct (a_alloc (p_heap s) _) as [q a]. injection E as <- <-. destruct (negb (q =? 0)); [|by apply wlp_ret].
  cbn [a_alloc p_heap]. destruct (_ && (num v <=? _)) eqn:Eb; [|apply wlp_undefined]. apply andb_true_iff in Eb as [_ Eb%Z.leb_le].
  assert (u32 (num v + INITIAL_SIZE) = num v + 16) as Eu.
  { assert (0 <= num v) by (unfold num; lia). unfold INITIAL_SIZE in *. pose proof (u32_range (num v + 16)) as Hr. unfold is_u32 in Hr. assert (num v < 2 ^ 32) by lia.
    destruct (Z.lt_ge_cases (num v + 16) (2 ^ 32)); [rw u32_small; [done|lia]|]. exfalso.
    replace (num v + 16) with (num v + 16 - 2 ^ 32 + 1 * 2 ^ 32) in Eb by lia. unfold u32 in Eb. rw Z.mod_add in Eb; [|lia].
    rw Z.mod_small in Eb; lia. }
  rw Eu. replace (Z.to_nat (num v + 16 - num v)) with 16%nat by lia.
  apply wlp_bind, wlp_intro. intros [] s' E. assert (p_htc s' = p_htc s) as Eh.
  { unfold when in E. destruct (negb _) in E; [|by injection E as <-]. unfold heap_op, mem_free in E. cbn in E. case_decide; [|done]. by injection E as <-. }
  apply wlp_ret. split; [done|]. intros _. cbn [snd v_slots]. split; [rw length_app length_replicate; lia|].
  split; [by apply packed_grow|]. rw read_slots_app Hys read_slots_null. cbn. by rw app_nil_r.
Qed.

Lemma add_slot_holds sz v x ys y (s : pstate A) : holds v ys -> f x = Some y ->
  wlp (add_slot alloc_slots sz v x) s (fun r s' => p_htc s' = p_htc s /\ (r.1 = true -> holds r.2 (ys ++ [y]))).
Proof.
  intros [Hys (n & Hp)] Hx. unfold add_slot. rw (first_null_packed v n 0 Hp). destruct (Nat.eqb_spec (length (v_slots v)) n) as [En|En].
  - apply wlp_bind. eapply wlp_mono; [by apply (alloc_slots_holds v n ys)|]. intros [r v'] s' [Eh Hv']. cbn [fst snd] in *.
    destruct (Z.eqb_spec r JSON_OK) as [Er|]; [|by apply wlp_ret]. destruct (Hv' Er) as (Hn & Hp' & Hys'). rw En.
    eapply wlp_mono; [by apply (fill_slot_holds sz v' n x ys y)|]. intros r2 s2 [Eh2 H2]. by rw Eh2.
  - cbn [Nat.add]. apply fill_slot_holds; [done| |done|done]. pose proof (packed_num v n Hp). unfold num in *. lia.
Qed.
Lemma holds_no_vec : holds no_vec [].
Proof. split; [done|]. exists 0%nat. apply packed_no_vec. Qed.
End add.

(** ** Reading a document *)
Section reading.
Context {A : Type} `{Allocator A} (m : list Z).
Context (m_max : Z.of_nat (length m) < MAX_DOCUMENT).
Abbreviation ST := (pstate A).

(** [l] is written at [p]; the parser reads [p] next. *)
Definition txt (p : nat) (l : list Z) : Prop := l `prefix_of` drop p m.
Definition at_ (p : nat) (s : ST) : Prop := exists o,
  p_htc s = mkHT (mkHC m (Z.of_nat (length m)) (Z.of_nat p) E_UTF_8 o) (Some E_UTF_8).

Lemma txt_app p l1 l2 : txt p (l1 ++ l2) <-> txt p l1 /\ txt (p + length l1) l2.
Proof.
  unfold txt. rw -drop_drop. split.
  - intros [k E]. split; [exists (l2 ++ k); by rw E -app_assoc|]. exists k. by rw E -app_assoc drop_app_length.
  - intros [[k E] [k2 E2]]. exists k2. rw E drop_app_length in E2. by rw E E2 app_assoc.
Qed.
Lemma txt_cons p c l : txt p (c :: l) <-> txt p [c] /\ txt (S p) l.
Proof. rw (txt_app p [c] l). cbn. by rw Nat.add_1_r. Qed.
Lemma txt_lookup p c l : txt p (c :: l) -> m !! p = Some c.
Proof. intros [k E]. rw -(Nat.add_0_r p) -lookup_drop E. done. Qed.
Lemma txt_load p c l : txt p (c :: l) -> load8 m (Z.of_nat p) = Some c.
Proof. intros Ht. unfold load8. destruct (Z.ltb_spec (Z.of_nat p) 0); [lia|]. rw Nat2Z.id. by eapply txt_lookup. Qed.
Lemma txt_bound p c l : txt p (c :: l) -> Z.of_nat p < Z.of_nat (length m).
Proof. intros Ht. apply txt_lookup, lookup_lt_Some in Ht. lia. Qed.
Lemma txt_take p l : txt p l -> take (length l) (drop p m) = l.
Proof. intros [k ->]. apply take_app_length. Qed.

Lemma plain_lead c : plain c = true -> (Z.land c 0xc0 =? 0xc0) = false.
Proof.
  intros Hc. unfold plain in Hc. assert (Forall (fun c => (Z.land (Z.of_nat c) 0xc0 =? 0xc0) = false) (seq 0 192)) as Hall
    by (vm_compute; repeat constructor).
  rw -(Z2Nat.id c); [|lia]. apply (proj1 (Forall_forall _ _) Hall), elem_of_seq. lia.
Qed.

Lemma read_char p c l s : at_ p s -> txt p (c :: l) -> plain c = true ->
  wlp read s (fun r s' => r = (c, Z.of_nat p) /\ at_ (S p) s').
Proof.
  intros [o E] Ht Hc. unfold wlp, read. rw E. cbn -[read_utf8]. change (read_of E_UTF_8) with read_utf8. unfold read_utf8. cbn -[utf8_tail].
  pose proof (txt_bound p c l Ht) as Hb. destruct (Z.ltb_spec (Z.of_nat p) (Z.of_nat (length m))); [|lia].
  rw (txt_load p c l Ht). cbn [mbind option_bind]. cbn [utf8_tail]. rw (plain_lead c Hc). cbn [andb mbind option_bind].
  split; [done|]. exists o. cbn. unfold set_pos. cbn. do 2 f_equal. lia.
Qed.

(** The text between two places, the second one inside the document. *)
Lemma wlp_span p l c k s : at_ k s -> txt p (l ++ [c]) ->
  wlp (span (Z.of_nat p) (Z.of_nat (p + length l))) s (fun t s' => text m t = Some l /\ s' = s).
Proof.
  intros [o E] Ht. unfold span. apply wlp_bind, wlp_gets, wlp_ret. split; [|done]. rw E. unfold text. cbn [j_data j_size mbind option_bind].
  apply txt_app in Ht as [Hl Hc]. pose proof (txt_bound _ _ _ Hc) as Hb. unfold MAX_DOCUMENT in m_max.
  unfold ht_symbols, belongs. cbn [htc_content sz_content encoding].
  assert ((0 <=? Z.of_nat p) && (Z.of_nat p <? Z.of_nat (length m)) = true) as -> by (apply andb_true_iff; split; lia).
  assert ((0 <=? Z.of_nat (p + length l)) && (Z.of_nat (p + length l) <? Z.of_nat (length m)) = true) as -> by (apply andb_true_iff; split; [apply Z.leb_le, Nat2Z.is_nonneg|apply Z.ltb_lt, Hb]).
  cbn [andb]. assert (u32 (if Z.of_nat p <? Z.of_nat (p + length l) then Z.of_nat (p + length l) - Z.of_nat p
    else Z.of_nat p - Z.of_nat (p + length l)) = Z.of_nat (length l)) as ->.
  { destruct (Z.ltb_spec (Z.of_nat p) (Z.of_nat (p + length l))); rw u32_small; lia. }
  change (symbol_bytes E_UTF_8) with 1. rw Z.div_1_r !Nat2Z.id. by rw (txt_take p l Hl).
Qed.

(** *** Strings *)
Lemma string_loop_text f l : forall prev p s, at_ p s -> quotable prev l = true -> txt p (l ++ [QUOTE]) ->
  wlp (string_loop f QUOTE prev) s (fun r s' => r = (QUOTE, Z.of_nat (p + length l)) /\ at_ (p + length l + 1) s').
Proof.
  revert f. induction l as [|c l IH]; intros [|f] prev p s Hs Hq Ht; [done| |done|]; cbn [string_loop]; apply wlp_bind; cbn [app] in Ht.
  - eapply wlp_mono; [by eapply read_char|]. intros r s' [-> Hs']. cbn in Hq. rw Hq. cbn. rw Nat.add_0_r Nat.add_1_r. by split.
  - cbn [quotable] in Hq. apply andb_true_iff in Hq as [[Hp Hc]%andb_true_iff Hq]. eapply wlp_mono; [by eapply read_char|].
    intros r s' [-> Hs']. apply txt_cons in Ht as [_ Ht]. assert ((c =? 0) = false) as -> by (unfold plain in Hp; lia).
    assert ((c =? QUOTE) && negb (prev =? 92) = false) as -> by lia.
    eapply wlp_mono; [by apply (IH f c (S p))|]. cbn [length]. by replace (p + S (length l))%nat with (S p + length l)%nat by lia.
Qed.

Lemma string_value_text f l p s : at_ p s -> quotable QUOTE l = true -> txt p (l ++ [QUOTE]) ->
  wlp (parse_string_value f QUOTE) s (fun x s' => x.1.1 = JSON_OK /\ text m x.1.2 = Some l /\ x.2 = QUOTE /\ at_ (p + length l + 1) s').
Proof.
  intros Hs Hq Ht. unfold parse_string_value. apply wlp_bind, wlp_gets. destruct Hs as [o E]. rw E. cbn [is_quote Z.eqb orb].
  change (is_quote QUOTE) with true. cbv iota. apply wlp_bind. eapply wlp_mono; [apply (string_loop_text f l QUOTE p s); [by exists o|done|done]|].
  intros r s' [-> Hs']. apply wlp_bind. eapply wlp_mono; [by apply (wlp_span p l QUOTE (p + length l + 1) s')|].
  intros t s2 [Hl ->]. by apply wlp_ret.
Qed.

(** *** Names *)
Lemma name_char_plain c : name_char c = true -> plain c = true /\ (c =? 0) = false /\ forall q t y, name_step q t y c = Go 0.
Proof.
  unfold name_char, plain. intros Hc. split_and!; [unfold is_upper, is_lower in Hc; lia..|]. intros q t y. unfold name_step. by rw Hc.
Qed.
Lemma digit_plain c : is_digit c = true -> plain c = true /\ (c =? 0) = false.
Proof. unfold is_digit, plain. lia. Qed.
Lemma digit_name c q t : is_digit c = true -> name_step q t true c = Go 0.
Proof.
  intros Hc. unfold name_step. assert (is_upper c || is_lower c || (c =? 45) || (c =? 95) = false) as ->
    by (unfold is_digit, is_upper, is_lower in *; lia).
  unfold is_digit in Hc. assert ((c =? APOS) = false) as -> by (unfold APOS; lia). assert ((c =? QUOTE) = false) as -> by (unfold QUOTE; lia).
  unfold is_digit. by rw Hc.
Qed.

(** From the symbol [c], read at [p], to the quote. *)
Lemma name_loop_text f l : forall (y : bool) c p s, at_ (S p) s -> txt p (l ++ [QUOTE]) -> head (l ++ [QUOTE]) = Some c ->
  (if (y : bool) then forallb (fun c : Z => name_char c || is_digit c) l else name_text l) = true ->
  wlp (name_loop f true false y c (Z.of_nat p)) s (fun r s' => r = (JSON_OK, QUOTE, Z.of_nat (p + length l)) /\ at_ (p + length l + 1) s').
Proof.
  revert f. induction l as [|b l IH]; intros [|f] y c p s Hs Ht Hc Hn; [done| |done|]; cbn [name_loop]; injection Hc as <-.
  - change (name_step true false y QUOTE) with Stop. apply wlp_ret. cbn. by rw Nat.add_0_r Nat.add_1_r.
  - assert (name_step true false y b = Go 0) as ->.
    { destruct y; cbn in Hn; apply andb_true_iff in Hn as [Hb _]; [apply orb_true_iff in Hb as [Hb|Hb]|]; [by apply name_char_plain|by apply digit_name|by apply name_char_plain]. }
    cbn [app] in Ht. apply txt_cons in Ht as [_ Ht]. apply wlp_bind.
    assert (forallb (fun c => name_char c || is_digit c) l = true) as Hl by (destruct y; cbn in Hn; by apply andb_true_iff in Hn as [_ ?]).
    assert (exists (d : Z) (k : list Z), l ++ [QUOTE] = d :: k /\ plain d = true /\ (d =? 0) = false) as (d & k & Ek & Hd & Hd0).
    { destruct l as [|d l]; [by exists QUOTE, []|]. cbn in Hl. apply andb_true_iff in Hl as [[Hl|Hl]%orb_true_iff _]; eexists _, _; (split; [done|]);
        [split; by apply name_char_plain|split; by apply digit_plain]. }
    eapply wlp_mono; [eapply (read_char (S p) d k); [done|by rw -Ek|done]|]. intros r s' [-> Hs']. rw Hd0.
    eapply wlp_mono; [apply (IH f true d (S p)); [done|done|by rw Ek|done]|]. cbn [length].
    by replace (p + S (length l))%nat with (S p + length l)%nat by lia.
Qed.

Lemma name_at_text f l cpos p s : at_ p s -> name_text l = true -> txt p (l ++ [QUOTE]) ->
  wlp (parse_string_name f QUOTE cpos) s (fun x s' => x.1.1 = JSON_OK /\ text m x.1.2 = Some l /\ x.2 = QUOTE /\ at_ (p + length l + 1) s').
Proof.
  intros Hs Hn Ht. unfold parse_string_name. change (QUOTE =? APOS) with false. change (QUOTE =? QUOTE) with true. cbv iota.
  assert (exists (d : Z) (k : list Z), l ++ [QUOTE] = d :: k /\ plain d = true) as (d & k & Ek & Hd).
  { destruct l as [|d l]; [by exists QUOTE, []|]. cbn in Hn. apply andb_true_iff in Hn as [Hn _]. eexists _, _. split; [done|]. by apply name_char_plain. }
  apply wlp_bind. eapply wlp_mono; [eapply (read_char p d k); [done|by rw -Ek|done]|]. intros r s' [-> Hs']. unfold name_end.
  apply wlp_bind. eapply wlp_mono; [apply (name_loop_text f l false d p s' Hs' Ht); [by rw Ek|done]|]. intros r s2 [-> Hs2].
  change (JSON_OK =? JSON_OK) with true. cbv iota. apply wlp_bind. eapply wlp_mono; [by apply (wlp_span p l QUOTE (p + length l + 1) s2)|].
  intros t s3 [Hl ->]. by apply wlp_ret.
Qed.

(** *** Numbers *)
(** What may stand behind a value. *)
Definition closer (t : Z) : Prop := t = COMMA \/ t = RBRACK \/ t = RBRACE.
Lemma closer_plain t : closer t -> plain t = true /\ (t =? 0) = false /\ is_lower t = false /\ is_ws t = false.
Proof. by intros [->|[->| ->]]. Qed.
Lemma closer_stops t i nt : closer t -> (nt = NUM_DEC \/ nt = NUM_OCT) -> num_step t i nt = Stop.
Proof.
  intros Ht Hnt. assert (is_digit t = false /\ (t =? 120) = false /\ (t =? 88) = false /\ ((97 <=? t) && (t <=? 102)) || ((65 <=? t) && (t <=? 70)) = false) as (E1 & E2 & E3 & E4)
    by (by destruct Ht as [->|[->| ->]]).
  unfold num_step. rw E1 E2 E3. cbn [orb andb]. rw E4. assert (is_ws t || (t =? COMMA) || (t =? RBRACK) || (t =? RBRACE) = true) as ->
    by (by destruct Ht as [->|[->| ->]]). by destruct Hnt as [-> | ->].
Qed.
Definition num_char (c : Z) : bool := is_digit c || (c =? 46).
Lemma num_char_plain c : num_char c = true -> plain c = true /\ (c =? 0) = false.
Proof. unfold num_char, is_digit, plain. lia. Qed.
Lemma num_char_goes c i nt : num_char c = true -> (nt = NUM_DEC \/ nt = NUM_OCT) -> num_step c i nt = Go nt.
Proof.
  intros Hc Hnt. unfold num_step. destruct (is_digit c) eqn:Ed; [by destruct Hnt as [-> | ->]|].
  assert (c = 46) as -> by (unfold num_char in Hc; rw Ed in Hc; lia). by destruct Hnt as [-> | ->].
Qed.

(** From the symbol [c], read at [p], to the closer [t]. *)
Lemma num_loop_text f l : forall i nt c t p s, at_ (S p) s -> txt p (l ++ [t]) -> closer t -> head (l ++ [t]) = Some c ->
  forallb num_char l = true -> (nt = NUM_DEC \/ nt = NUM_OCT) ->
  wlp (num_loop f c i nt (Z.of_nat p)) s (fun r s' => r = (JSON_OK, t, Z.of_nat (p + length l)) /\ at_ (p + length l + 1) s').
Proof.
  revert f. induction l as [|b l IH]; intros [|f] i nt c t p s Hs Ht Hcl Hc Hn Hnt; [done| |done|]; cbn [num_loop]; injection Hc as <-.
  - rw closer_stops //. apply wlp_ret. cbn. by rw Nat.add_0_r Nat.add_1_r.
  - cbn in Hn. apply andb_true_iff in Hn as [Hb Hn]. rw num_char_goes //. cbn [app] in Ht. apply txt_cons in Ht as [_ Ht]. apply wlp_bind.
    assert (exists (d : Z) (k : list Z), l ++ [t] = d :: k /\ plain d = true /\ (d =? 0) = false) as (d & k & Ek & Hd & Hd0).
    { destruct l as [|d l]; [exists t, []; split; [done|]; by split; apply closer_plain|]. cbn in Hn. apply andb_true_iff in Hn as [Hn _].
      eexists _, _. split; [done|]. by apply num_char_plain. }
    eapply wlp_mono; [eapply (read_char (S p) d k); [done|by rw -Ek|done]|]. intros r s' [-> Hs']. rw Hd0.
    eapply wlp_mono; [apply (IH f _ nt d t (S p)); [done|done|done|by rw Ek|done|done]|]. cbn [length].
    by replace (p + S (length l))%nat with (S p + length l)%nat by lia.
Qed.

Lemma digits_loop_text f d l i nt t p s : at_ (S p) s -> txt p (d :: l ++ [t]) -> closer t -> is_digit d = true ->
  forallb num_char l = true -> (nt = 0 \/ nt = NUM_OCT) ->
  wlp (num_loop f d i nt (Z.of_nat p)) s (fun r s' => r = (JSON_OK, t, Z.of_nat (p + S (length l))) /\ at_ (p + S (length l) + 1) s').
Proof.
  intros Hs Ht Hcl Hd Hn Hnt. destruct f as [|f]; [done|]. cbn [num_loop]. unfold num_step. rw Hd.
  assert (exists nt', (if nt =? 0 then NUM_DEC else nt) = nt' /\ (nt' = NUM_DEC \/ nt' = NUM_OCT)) as (nt' & -> & Hnt').
  { eexists. split; [done|]. destruct Hnt as [-> | ->]; [by left|by right]. }
  apply txt_cons in Ht as [_ Ht]. apply wlp_bind.
  assert (exists (e : Z) (k : list Z), l ++ [t] = e :: k /\ plain e = true /\ (e =? 0) = false) as (e & k & Ek & He & He0).
  { destruct l as [|e l]; [exists t, []; split; [done|]; by split; apply closer_plain|]. cbn in Hn. apply andb_true_iff in Hn as [Hn _].
    eexists _, _. split; [done|]. by apply num_char_plain. }
  eapply wlp_mono; [eapply (read_char (S p) e k); [done|by rw -Ek|done]|]. intros r s' [-> Hs']. rw He0.
  eapply wlp_mono; [apply (num_loop_text f l _ nt' e t (S p)); [done|done|done|by rw Ek|done|done]|].
  by replace (p + S (length l))%nat with (S p + length l)%nat by lia.
Qed.

Lemma number_at_text f c l t p s : at_ (S p) s -> number_text (c :: l) = true -> txt p (c :: l ++ [t]) -> closer t ->
  wlp (parse_number f c (Z.of_nat p)) s (fun x s' => x.1.1 = JSON_OK /\ text m x.1.2 = Some (c :: l) /\ x.2 = t /\ at_ (p + S (length l) + 1) s').
Proof.
  intros Hs Hn Ht Hcl. unfold parse_number. apply wlp_bind.
  eapply wlp_mono; [instantiate (1 := fun r s' => r = (JSON_OK, t, Z.of_nat (p + S (length l))) /\ at_ (p + S (length l) + 1) s')|].
  - cbn [number_text] in Hn. destruct ((c =? 45) || (c =? 43)) eqn:Ec.
    + destruct l as [|d l]; [done|]. cbn [digits_text] in Hn. apply andb_true_iff in Hn as [Hd Hl].
      assert ((c =? 48) = false) as -> by lia. destruct f as [|f]; [done|]. cbn [num_loop].
      assert (num_step c 0 0 = Go 0) as -> by (apply orb_true_iff in Ec as [->%Z.eqb_eq | ->%Z.eqb_eq]; done).
      cbn [app] in Ht. apply txt_cons in Ht as [_ Ht]. apply wlp_bind. destruct (digit_plain d Hd) as [Hdp Hd0].
      eapply wlp_mono; [by eapply (read_char (S p) d)|]. intros r s' [-> Hs']. rw Hd0.
      eapply wlp_mono; [apply (digits_loop_text f d l _ 0 t (S p)); [done|done|done|done|done|by left]|].
      cbn [length]. by replace (p + S (S (length l)))%nat with (S p + S (length l))%nat by lia.
    + cbn [digits_text] in Hn. apply andb_true_iff in Hn as [Hd Hl].
      apply digits_loop_text; [done|done|done|done|done|]. destruct (c =? 48); [by right|by left].
  - intros r s' [-> Hs']. change (JSON_OK =? JSON_OK) with true. cbv iota. apply wlp_bind.
    eapply wlp_mono; [apply (wlp_span p (c :: l) t _ s' Hs' Ht)|]. intros k s2 [Hk ->]. by apply wlp_ret.
Qed.

(** *** Constants *)
Lemma const_loop_text f l : forall c t p sz s, at_ (S p) s -> txt p (l ++ [t]) -> closer t -> head (l ++ [t]) = Some c ->
  forallb is_lower l = true -> 0 <= sz -> sz + Z.of_nat (length l) < 2 ^ 32 ->
  wlp (const_loop f c sz) s (fun r s' => r = (t, sz + Z.of_nat (length l)) /\ at_ (p + length l + 1) s').
Proof.
  revert f. induction l as [|b l IH]; intros [|f] c t p sz s Hs Ht Hcl Hc Hl Hsz Hlen; [done| |done|]; cbn [const_loop]; injection Hc as <-.
  - destruct (closer_plain t Hcl) as (_ & _ & -> & _). apply wlp_ret. cbn. rw Nat.add_0_r Nat.add_1_r Z.add_0_r. done.
  - cbn in Hl. apply andb_true_iff in Hl as [-> Hl]. cbn [app] in Ht. apply txt_cons in Ht as [_ Ht]. apply wlp_bind.
    assert (exists (d : Z) (k : list Z), l ++ [t] = d :: k /\ plain d = true) as (d & k & Ek & Hd).
    { destruct l as [|d l]; [exists t, []; split; [done|]; by apply closer_plain|]. cbn in Hl. apply andb_true_iff in Hl as [Hl _].
      eexists _, _. split; [done|]. unfold is_lower, plain in *. lia. }
    eapply wlp_mono; [eapply (read_char (S p) d k); [done|by rw -Ek|done]|]. intros r s' [-> Hs'].
    cbn [length] in Hlen. rw u32_small; [|lia].
    eapply wlp_mono; [apply (IH f d t (S p)); [done|done|done|by rw Ek|done|lia|lia]|]. cbn [length]. intros r2 s2 [-> Hs2].
    replace (p + S (length l))%nat with (S p + length l)%nat by lia. split; [f_equal; lia|done].
Qed.

Lemma compare_text h lit w p : p_content h = m -> txt p w -> Forall is_byte lit -> Forall is_byte w -> (length w <= length lit + 1)%nat ->
  exists r, compare_loop (length w) h E_UTF_8 E_UTF_8 (Ext (lit ++ [0])) (InDoc (Z.of_nat p)) 0 = Some r /\
    (r =? 0) = bool_decide (take (length w) (lit ++ [0]) = w).
Proof.
  intros Hh Hw Hlb Hwb Hlen. set (l1 := take (length w) (lit ++ [0])).
  assert (length l1 = length w) as El by (unfold l1; rw length_take length_app; cbn; lia).
  destruct (compare_lists h (Ext (lit ++ [0])) (InDoc (Z.of_nat p)) l1 w El) as (r & Hr); [|done| | |].
  - apply Forall_take, Forall_app. split; [done|by apply all_byte].
  - intros i c Hi. cbn [deref]. rw (load8_nat _ i). unfold l1 in Hi. apply lookup_take_Some in Hi as [Hi _]. done.
  - intros i c Hi. cbn [deref]. rw -Nat2Z.inj_add load8_nat Hh. destruct Hw as [k Ek]. rw -lookup_drop Ek. by apply lookup_app_l_Some.
  - rw El in Hr. by exists r.
Qed.

Lemma literal_text lit w p k s : at_ k s -> txt p w -> (0 < length w)%nat -> Forall is_byte lit -> Forall is_byte w -> (length w <= length lit + 1)%nat ->
  wlp (literal lit (Z.of_nat p) (Z.of_nat (length w))) s (fun b s' => b = bool_decide (take (length w) (lit ++ [0]) = w) /\ s' = s).
Proof.
  intros [o E] Hw Hpos Hl Hwb Hlen. unfold literal. apply wlp_bind, wlp_gets, wlp_bind, wlp_lift_opt. rw E. unfold ht_compare. cbn [htc_content].
  intros r Er. apply wlp_ret. split; [|done]. destruct w as [|c w]; [cbn in Hpos; lia|]. pose proof (txt_bound p c w Hw) as Hb.
  unfold encoding_at, belongs in Er. cbn [sz_content encoding] in Er. replace ((0 <=? Z.of_nat p) && (Z.of_nat p <? Z.of_nat (length m))) with true in Er;
    [|symmetry; apply andb_true_iff; split; [apply Z.leb_le; lia|by apply Z.ltb_lt]].
  rw Nat2Z.id in Er. destruct (compare_text (mkHC m (Z.of_nat (length m)) (Z.of_nat k) E_UTF_8 o) lit (c :: w) p eq_refl Hw Hl Hwb Hlen)
    as (r2 & E2 & Hr2). rw E2 in Er. by injection Er as <-.
Qed.

Definition word (d : jdoc) : option (json_value * list Z) :=
  match d with DTrue => Some (VTrue, str "true") | DFalse => Some (VFalse, str "false") | DNull => Some (VNull, str "null") | _ => None end.
Lemma const_at_text f d v w c t p s : word d = Some (v, w) -> at_ (S p) s -> txt p (w ++ [t]) -> closer t -> head w = Some c ->
  wlp (parse_const f c (Z.of_nat p)) s (fun x s' => x = (JSON_OK, v, t) /\ at_ (p + length w + 1) s').
Proof.
  intros Hd Hs Ht Hcl Hc. unfold parse_const. apply wlp_bind.
  assert (forallb is_lower w = true /\ Forall is_byte w /\ (0 < length w <= 5)%nat /\ head (w ++ [t]) = Some c) as (Hw & Hwb & Hlen & Hc').
  { destruct d; try done; injection Hd as <- <-; cbn in *; (split; [done|]); (split; [by apply all_byte|]); (split; [lia|done]). }
  eapply wlp_mono; [apply (const_loop_text f w c t p 0 s Hs Ht Hcl Hc' Hw); lia|]. intros r s' [-> Hs']. rw Z.add_0_l.
  apply txt_app in Ht as [Ht _].
  assert (forall lit b (K : bool -> M ST (Z * json_value * Z)) Q, forallb (fun c => (0 <=? c) && (c <? 256)) lit = true ->
    (length w <=? length lit + 1)%nat = true -> bool_decide (take (length w) (lit ++ [0]) = w) = b ->
    wlp (K b) s' Q -> wlp (b ← literal lit (Z.of_nat p) (Z.of_nat (length w)); K b) s' Q) as Hlit.
  { intros lit b K Q Hl%all_byte Hlw%Nat.leb_le Hb HK. apply wlp_bind.
    eapply wlp_mono; [apply (literal_text lit w p _ s' Hs' Ht); [lia|done|done|done]|]. by intros b' s2 [-> ->]; rw Hb. }
  destruct d; try done; injection Hd as <- <-.
  - eapply Hlit; [done|done|reflexivity|]. by apply wlp_ret.
  - eapply Hlit; [done|done|reflexivity|]. eapply Hlit; [done|done|reflexivity|]. by apply wlp_ret.
  - eapply Hlit; [done|done|reflexivity|]. eapply Hlit; [done|done|reflexivity|]. eapply Hlit; [done|done|reflexivity|]. by apply wlp_ret.
Qed.

(** ** Values *)
Definition atom (d : jdoc) : bool := match d with DNumber _ | DTrue | DFalse | DNull => true | _ => false end.
(** The last symbol read; behind an atom it is the one that closes it. *)
Definition behind (d : jdoc) (t : Z) : Z :=
  match d with DString _ => QUOTE | DArray _ => RBRACK | DObject _ => RBRACE | _ => t end.
Definition place (d : jdoc) (p : nat) : nat := (p + length (render d) + if atom d then 1 else 0)%nat.

Definition done_or {X} (Q : X -> Z -> ST -> Prop) (x : Z * X * Z) (s : ST) : Prop :=
  x.1.1 = JSON_MEMORY_ERROR \/ x.1.1 = JSON_OK /\ Q x.1.2 x.2 s.
Definition value_text (d : jdoc) (t : Z) (p : nat) : Z * json_value * Z -> ST -> Prop :=
  done_or (fun v c s' => decode m v = Some d /\ c = behind d t /\ at_ (place d p) s').
Definition array_text (ds : list jdoc) (q : nat) : Z * json_array * Z -> ST -> Prop :=
  done_or (fun a c s' => read_slots (decode m) (v_slots a) = Some ds /\ c = RBRACK /\ at_ q s').
Definition object_text (ps : list (list Z * jdoc)) (q : nat) : Z * json_object * Z -> ST -> Prop :=
  done_or (fun o c s' => read_slots (decode_pair m) (v_slots o) = Some ps /\ c = RBRACE /\ at_ q s').

Definition value_rt (f : nat) : Prop := forall d c l t p s, writable d = true -> render d = c :: l -> at_ (S p) s ->
  txt p (render d ++ [t]) -> closer t -> wlp (parse_value f c (Z.of_nat p)) s (value_text d t p).
Definition element_ok (d : jdoc) : bool := negb (is_array d) && writable d.
Definition array_rt (f : nat) : Prop := forall ds a ys p s T, forallb element_ok ds = true -> holds (decode m) a ys -> at_ p s ->
  T = elements ds \/ T = more_elements ds -> txt p (T ++ [RBRACK]) ->
  wlp (array_loop f a) s (array_text (ys ++ ds) (p + length T + 1)).
Definition pair_writable (p : list Z * jdoc) : bool := name_text p.1 && writable p.2.
Definition object_rt (f : nat) : Prop := forall ps o ys p s name fl T, forallb pair_writable ps = true -> holds (decode_pair m) o ys -> at_ p s ->
  fl = BeforeName /\ T = members ps \/ fl = AfterValue /\ T = more_members ps -> txt p (T ++ [RBRACE]) ->
  wlp (object_loop f fl name o) s (object_text (ys ++ ps) (p + length T + 1)).
(** The name was read: in front of the colon, or behind it. *)
Definition pair_rt (f : nat) : Prop := forall n d ps o ys p s name, forallb pair_writable ((n, d) :: ps) = true -> holds (decode_pair m) o ys ->
  text m name = Some n -> at_ p s -> txt p (render d ++ more_members ps ++ [RBRACE]) ->
  wlp (pair_value f name o) s (object_text (ys ++ (n, d) :: ps) (p + length (render d ++ more_members ps) + 1)).
Definition colon_rt (f : nat) : Prop := forall n d ps o ys p s name, forallb pair_writable ((n, d) :: ps) = true -> holds (decode_pair m) o ys ->
  text m name = Some n -> at_ p s -> txt p (COLON :: render d ++ more_members ps ++ [RBRACE]) ->
  wlp (object_loop f BeforeColon name o) s (object_text (ys ++ (n, d) :: ps) (S p + length (render d ++ more_members ps) + 1)).

(** The first symbol tells what follows. *)
Lemma render_first d : writable d = true -> exists c l, render d = c :: l /\ plain c = true /\ (c =? 0) = false.
Proof.
  destruct d as [s|s| | | |ds|ps]; cbn; intros Hw; try (by eexists _, _).
  destruct s as [|c s]; [done|]. exists c, s. split; [done|]. cbn in Hw.
  destruct ((c =? 45) || (c =? 43)) eqn:E; [unfold plain; lia|]. apply andb_true_iff in Hw as [Hw _]. by apply digit_plain.
Qed.
Lemma number_first c s : number_text (c :: s) = true -> is_quote c = false /\ (c =? LBRACK) = false /\ (c =? LBRACE) = false /\
  is_digit c || (c =? 45) || (c =? 43) || (c =? 46) = true.
Proof.
  cbn. unfold is_quote, QUOTE, APOS, LBRACK, LBRACE. destruct ((c =? 45) || (c =? 43)) eqn:E; [intros _; lia|].
  unfold digits_text. intros [Hd _]%andb_true_iff. unfold is_digit in *. lia.
Qed.

Lemma value_rt_step f : array_rt f -> object_rt f -> value_rt (S f).
Proof.
  intros IHa IHo d c l t p s Hw Hc Hs Ht Hcl. cbn [parse_value]. unfold value_text, place.
  destruct d as [z|z| | | |ds|ps]; cbn [atom behind].
  - injection Hc as <- <-. change (is_quote QUOTE) with true. cbv iota. cbn [render app] in Ht.
    apply txt_cons in Ht as [_ Ht]. rw -app_assoc in Ht. apply wlp_bind.
    apply txt_app in Ht as [Hz Ht]. apply txt_cons in Ht as [Hq _].
    eapply wlp_mono; [apply (string_value_text f z (S p) s Hs Hw); by apply txt_app|].
    intros [[r v] k] s' (Hr & Hv & Hk & Hs'). cbn [fst snd] in *. apply wlp_ret. right. cbn [fst snd]. split; [done|]. cbn [decode]. rw Hv.
    split; [done|]. split; [done|]. cbn [render length]. rw length_app. cbn. by replace (p + S (length z + 1) + 0)%nat with (S p + length z + 1)%nat by lia.
  - cbn in Hc. subst z. destruct (number_first c l Hw) as (-> & -> & -> & ->). apply wlp_bind.
    eapply wlp_mono; [by apply (number_at_text f c l t p s)|]. intros [[r v] k] s' (Hr & Hv & Hk & Hs'). cbn [fst snd] in *.
    apply wlp_ret. right. cbn [fst snd]. split; [done|]. cbn [decode]. by rw Hv.
  - injection Hc as <- <-. cbn -[parse_const]. eapply wlp_mono; [by apply (const_at_text f DTrue VTrue (str "true") 116 t p s)|].
    intros x s' [-> Hs']. by right.
  - injection Hc as <- <-. cbn -[parse_const]. eapply wlp_mono; [by apply (const_at_text f DFalse VFalse (str "false") 102 t p s)|].
    intros x s' [-> Hs']. by right.
  - injection Hc as <- <-. cbn -[parse_const]. eapply wlp_mono; [by apply (const_at_text f DNull VNull (str "null") 110 t p s)|].
    intros x s' [-> Hs']. by right.
  - change (render (DArray ds)) with (LBRACK :: elements ds ++ [RBRACK]) in *. injection Hc as <- <-. cbn -[array_loop]. cbn [app] in Ht.
    apply txt_cons in Ht as [_ Ht]. apply txt_app in Ht as [Ht _]. apply wlp_bind.
    eapply wlp_mono; [apply (IHa ds no_vec [] (S p) s (elements ds)); [done|apply holds_no_vec|done|by left|done]|].
    intros [[r a] k] s' Hres. apply wlp_ret. destruct Hres as [Hres|(Hr & Ha & Hk & Hs')]; cbn [fst snd] in *; [by left|right]. cbn [fst snd].
    split; [done|]. cbn [decode]. rw Ha. split; [done|]. split; [done|]. rw length_app. cbn [length].
    by replace (p + S (length (elements ds) + 1) + 0)%nat with (S p + length (elements ds) + 1)%nat by lia.
  - change (render (DObject ps)) with (LBRACE :: members ps ++ [RBRACE]) in *. injection Hc as <- <-. cbn -[object_loop]. cbn [app] in Ht.
    apply txt_cons in Ht as [_ Ht]. apply txt_app in Ht as [Ht _]. apply wlp_bind.
    eapply wlp_mono; [apply (IHo ps no_vec [] (S p) s no_string BeforeName (members ps)); [done|apply holds_no_vec|done|by left|done]|].
    intros [[r a] k] s' Hres. apply wlp_ret. destruct Hres as [Hres|(Hr & Ha & Hk & Hs')]; cbn [fst snd] in *; [by left|right]. cbn [fst snd].
    split; [done|]. cbn [decode]. fold (decode_pair m). rw Ha. split; [done|]. split; [done|]. rw length_app. cbn [length].
    by replace (p + S (length (members ps) + 1) + 0)%nat with (S p + length (members ps) + 1)%nat by lia.
Qed.

(** *** Arrays *)
Lemma after_element_text v d t : decode m v = Some d -> is_array d = false -> t = COMMA \/ t = RBRACK ->
  after_element v (behind d t) = if atom d && (t =? RBRACK) then Last else Add.
Proof.
  intros Hv Ha Ht. destruct v as [ |z|z|o|a| | | ]; cbn in Hv; try done.
  - destruct (text m z); [|done]. by injection Hv as <-.
  - destruct (text m z); [|done]. injection Hv as <-. by destruct Ht as [-> | ->].
  - destruct (read_slots _ _); [|done]. by injection Hv as <-.
  - destruct (read_slots _ _); [|done]. by injection Hv as <-.
  - injection Hv as <-. by destruct Ht as [-> | ->].
  - injection Hv as <-. by destruct Ht as [-> | ->].
  - injection Hv as <-. by destruct Ht as [-> | ->].
Qed.
Lemma at_htc p s s' : p_htc s' = p_htc s -> at_ p s -> at_ p s'.
Proof. unfold at_. by intros ->. Qed.
Lemma behind_not_close d t : is_array d = false -> t = COMMA \/ atom d = false -> (behind d t =? RBRACK) = false.
Proof. intros Ha Ht. destruct d; try done; destruct Ht as [-> | Ht]; done. Qed.

Lemma value_closer f c pos s : c = COMMA \/ c = RBRACK \/ c = RBRACE ->
  wlp (parse_value f c pos) s (fun x s' => x = (JSON_OK, VNone, c) /\ s' = s).
Proof. destruct f as [|f]; [done|]. intros [->|[->| ->]]; cbn; by apply wlp_ret. Qed.

Lemma more_elements_first ds : exists t k, more_elements ds ++ [RBRACK] = t :: k /\ (t = COMMA \/ t = RBRACK).
Proof. destruct ds as [|d ds]; cbn; [by exists RBRACK, []; auto|]. eexists _, _. split; [done|by left]. Qed.

Lemma array_error a (c : Z) s ds q : wlp (wrong_here;; mret (JSON_MEMORY_ERROR, a, c)) s (array_text ds q).
Proof.
  unfold wrong_here. apply wlp_bind, wlp_bind, wlp_gets. unfold set_err, modify. apply wlp_ret. by left.
Qed.

Lemma array_end f a ys p s T : holds (decode m) a ys -> at_ p s -> T = [] -> txt p (T ++ [RBRACK]) ->
  wlp (array_loop f a) s (array_text (ys ++ []) (p + length T + 1)).
Proof.
  intros [Ha _] Hs -> Ht. destruct f as [|f]; [done|]. cbn [array_loop]. apply wlp_bind.
  eapply wlp_mono; [by apply (read_char p RBRACK [] s)|]. intros r s' [-> Hs']. change (RBRACK =? 0) with false. cbv iota.
  apply wlp_bind. eapply wlp_mono; [apply value_closer; auto|]. intros x s2 [-> ->]. cbn. apply wlp_ret. right. cbn. rw app_nil_r.
  split; [done|]. split; [done|]. split; [done|]. by rw Nat.add_0_r Nat.add_1_r.
Qed.

Lemma array_rt_step f : value_rt f -> array_rt f -> array_rt (S f).
Proof.
  intros IHv IHa ds a ys p s T Hds Ha Hs HT Ht.
  destruct ds as [|d ds]; [apply array_end; [done|done|by destruct HT|done]|]. destruct HT as [->| ->].
  - (* an element *)
    cbn [forallb] in Hds. apply andb_true_iff in Hds as [Hd Hds]. unfold element_ok in Hd. apply andb_true_iff in Hd as [Hd%negb_true_iff Hw].
    change (elements (d :: ds)) with (render d ++ more_elements ds) in *. rw -app_assoc in Ht.
    destruct (render_first d Hw) as (c & l & Ec & Hc & Hc0). destruct (more_elements_first ds) as (t & k & Ek & Htt).
    cbn [array_loop]. apply wlp_bind. eapply wlp_mono; [apply (read_char p c (l ++ more_elements ds ++ [RBRACK]) s); [done| |done]|].
    { by rw Ec in Ht. }
    intros r s1 [-> Hs1]. rw Hc0. apply wlp_bind. pose proof Ht as [Htd Htm]%txt_app.
    eapply wlp_mono; [apply (IHv d c l t p s1 Hw Ec Hs1)|].
    { apply txt_app. split; [done|]. rw Ek in Htm. by apply txt_cons in Htm as [? _]. }
    { destruct Htt as [-> | ->]; [by left|by right; left]. }
    intros [[r v] c'] s2 [Hm|(Hr & Hv & Hb & Hs2)]; cbn [fst snd] in *; subst.
    { change (JSON_MEMORY_ERROR =? JSON_OK) with false. cbv iota. by apply array_error. }
    change (JSON_OK =? JSON_OK) with true. cbv iota. rw (after_element_text v d t Hv Hd Htt).
    assert (forall K : bool * json_array -> M ST (Z * json_array * Z), (forall a' s3, p_htc s3 = p_htc s2 -> holds (decode m) a' (ys ++ [d]) ->
      wlp (K (true, a')) s3 (array_text (ys ++ d :: ds) (p + length (render d ++ more_elements ds) + 1))) ->
      (forall a' s3, wlp (K (false, a')) s3 (array_text (ys ++ d :: ds) (p + length (render d ++ more_elements ds) + 1))) ->
      wlp (x ← add_array_value a v; K x) s2 (array_text (ys ++ d :: ds) (p + length (render d ++ more_elements ds) + 1))) as Hadd.
    { intros K HK1 HK0. apply wlp_bind. eapply wlp_mono; [apply (add_slot_holds (decode m) JSON_VALUE_SIZE a v ys d s2 Ha Hv)|].
      intros [[] a'] s3 [E3 H3]; cbn [fst snd] in *; [by apply HK1; [|apply H3]|by apply HK0]. }
    destruct (atom d) eqn:Ea; cbn [andb]; [destruct (Z.eqb_spec t RBRACK) as [->|Hnt]|].
    + (* the last one *)
      destruct ds as [|d' ds]; [|done]. apply Hadd; [|intros a' s3; apply wlp_ret; by left].
      intros a' s3 E3 [H3 _]. apply wlp_ret. right. cbn [fst snd]. split; [done|]. split; [done|].
      split; [by destruct d|]. apply (at_htc _ s2); [done|]. unfold place in Hs2. rw Ea in Hs2. cbn [more_elements map concat]. by rw app_nil_r.
    + (* the comma was read *)
      destruct Htt as [->|]; [|done]. destruct ds as [|d' ds]; [done|]. apply Hadd; [|intros a' s3; apply wlp_ret; by left].
      intros a' s3 E3 H3. cbn [negb]. rw (behind_not_close d COMMA Hd (or_introl eq_refl)).
      change (more_elements (d' :: ds)) with (COMMA :: elements (d' :: ds)) in *. cbn [app] in Htm. apply txt_cons in Htm as [_ Htm].
      unfold place in Hs2. rw Ea Nat.add_1_r in Hs2.
      eapply wlp_mono; [apply (IHa (d' :: ds) a' (ys ++ [d]) (S (p + length (render d))) s3 (elements (d' :: ds))); [done|done|by apply (at_htc _ s2)|by left|done]|].
      rw -app_assoc length_app. cbn [length app].
      by replace (p + (length (render d) + S (length (elements (d' :: ds)))) + 1)%nat with (S (p + length (render d)) + length (elements (d' :: ds)) + 1)%nat by lia.
    + (* a string or an object *)
      apply Hadd; [|intros a' s3; apply wlp_ret; by left].
      intros a' s3 E3 H3. cbn [negb]. rw (behind_not_close d t Hd (or_intror Ea)). unfold place in Hs2. rw Ea Nat.add_0_r in Hs2.
      eapply wlp_mono; [apply (IHa ds a' (ys ++ [d]) (p + length (render d))%nat s3 (more_elements ds)); [done|done|by apply (at_htc _ s2)|by right|done]|].
      rw -app_assoc length_app. cbn [app]. by replace (p + (length (render d) + length (more_elements ds)) + 1)%nat
        with (p + length (render d) + length (more_elements ds) + 1)%nat by lia.
  - (* a comma *)
    change (more_elements (d :: ds)) with (COMMA :: elements (d :: ds)) in *. cbn [app] in Ht. cbn [array_loop]. apply wlp_bind.
    eapply wlp_mono; [by apply (read_char p COMMA _ s Hs Ht)|]. intros r s1 [-> Hs1]. change (COMMA =? 0) with false. cbv iota.
    apply wlp_bind. eapply wlp_mono; [apply value_closer; auto|]. intros x s2 [-> ->]. cbn -[array_loop elements]. apply txt_cons in Ht as [_ Ht].
    eapply wlp_mono; [apply (IHa (d :: ds) a ys (S p) s1 (elements (d :: ds))); [done|done|done|by left|done]|].
    cbn [length]. by replace (p + S (length (elements (d :: ds))) + 1)%nat with (S p + length (elements (d :: ds)) + 1)%nat by lia.
Qed.

(** *** Objects *)
Lemma after_member_text v d t : decode m v = Some d -> t = COMMA \/ t = RBRACE ->
  after_member v (behind d t) = if atom d then (if t =? RBRACE then (Last, AfterValue) else (Add, BeforeName)) else (Add, AfterValue).
Proof.
  intros Hv Ht. destruct v as [ |z|z|o|a| | | ]; cbn in Hv; try done.
  - destruct (text m z); [|done]. by injection Hv as <-.
  - destruct (text m z); [|done]. injection Hv as <-. by destruct Ht as [-> | ->].
  - destruct (read_slots _ _); [|done]. by injection Hv as <-.
  - destruct (read_slots _ _); [|done]. by injection Hv as <-.
  - injection Hv as <-. by destruct Ht as [-> | ->].
  - injection Hv as <-. by destruct Ht as [-> | ->].
  - injection Hv as <-. by destruct Ht as [-> | ->].
Qed.
Lemma more_members_first ps : exists t k, more_members ps ++ [RBRACE] = t :: k /\ (t = COMMA \/ t = RBRACE).
Proof. destruct ps as [|d ds]; cbn; [by exists RBRACE, []; auto|]. eexists _, _. split; [done|by left]. Qed.

Lemma object_end f o ys p s name fl T : holds (decode_pair m) o ys -> at_ p s -> fl = BeforeName \/ fl = AfterValue -> T = [] ->
  txt p (T ++ [RBRACE]) -> wlp (object_loop f fl name o) s (object_text (ys ++ []) (p + length T + 1)).
Proof.
  intros [Ho _] Hs Hfl -> Ht. destruct f as [|f]; [done|]. cbn [object_loop]. apply wlp_bind.
  eapply wlp_mono; [by apply (read_char p RBRACE [] s)|]. intros r s' [-> Hs'].
  destruct Hfl as [-> | ->]; cbn -[object_loop]; apply wlp_ret; right; cbn; rw app_nil_r; (split; [done|]); (split; [done|]); (split; [done|]);
    by rw Nat.add_0_r Nat.add_1_r.
Qed.

Lemma object_rt_step f : object_rt f -> colon_rt f -> object_rt (S f).
Proof.
  intros IHo IHc ps o ys p s name fl T Hps Ho Hs HT Ht.
  destruct ps as [|[n d] ps]; [apply object_end; [done|done|destruct HT as [[-> _]|[-> _]]; auto|by destruct HT as [[_ ->]|[_ ->]]|done]|].
  destruct HT as [[-> ->]|[-> ->]]; cbn [object_loop]; apply wlp_bind.
  - pose proof Hps as [[Hn _]%andb_true_iff _]%andb_true_iff. cbn [fst snd] in Hn.
    assert (members ((n, d) :: ps) ++ [RBRACE] = QUOTE :: (n ++ [QUOTE]) ++ COLON :: render d ++ more_members ps ++ [RBRACE]) as ET.
    { change (members ((n, d) :: ps)) with ((QUOTE :: n ++ QUOTE :: COLON :: render d) ++ more_members ps). cbn [app]. f_equal.
      by rw -!app_assoc. }
    rw ET in Ht. eapply wlp_mono; [by apply (read_char p QUOTE _ s Hs Ht)|]. intros r s1 [-> Hs1]. apply txt_cons in Ht as [_ Ht].
    change (QUOTE =? 0) with false. change (is_quote QUOTE) with true. cbv iota. apply wlp_bind. apply txt_app in Ht as [Htn Htc].
    eapply wlp_mono; [by apply (name_at_text f n _ (S p) s1 Hs1 Hn Htn)|]. intros [[r name'] c] s2 (Hr & Hname & Hc & Hs2). cbn [fst snd] in *. subst.
    change (is_quote QUOTE) with true. cbn [negb]. change (JSON_OK =? JSON_OK) with true. cbn [negb]. rw length_app in Htc. cbn [length] in Htc.
    rw Nat.add_assoc in Htc. eapply wlp_mono; [apply (IHc n d ps o ys (S p + length n + 1)%nat s2 name' Hps Ho Hname Hs2 Htc)|].
    assert (length (members ((n, d) :: ps)) = S (length n + S (S (length (render d ++ more_members ps)))))%nat as ->.
    { change (members ((n, d) :: ps)) with ((QUOTE :: n ++ QUOTE :: COLON :: render d) ++ more_members ps). cbn [app length].
      rw !length_app. cbn [length]. lia. }
    by replace (p + S (length n + S (S (length (render d ++ more_members ps)))) + 1)%nat
      with (S (S p + length n + 1) + length (render d ++ more_members ps) + 1)%nat by lia.
  - change (more_members ((n, d) :: ps)) with (COMMA :: members ((n, d) :: ps)) in *. cbn [app] in Ht.
    eapply wlp_mono; [by apply (read_char p COMMA _ s Hs Ht)|]. intros r s1 [-> Hs1]. apply txt_cons in Ht as [_ Ht]. cbn -[object_loop members].
    eapply wlp_mono; [apply (IHo ((n, d) :: ps) o ys (S p) s1 no_string BeforeName (members ((n, d) :: ps))); [done|done|done|by left|done]|].
    cbn [length]. by replace (p + S (length (members ((n, d) :: ps))) + 1)%nat with (S p + length (members ((n, d) :: ps)) + 1)%nat by lia.
Qed.

Lemma colon_rt_step f : pair_rt f -> colon_rt (S f).
Proof.
  intros IHp n d ps o ys p s name Hps Ho Hname Hs Ht. cbn [object_loop]. apply wlp_bind.
  eapply wlp_mono; [by apply (read_char p COLON _ s Hs Ht)|]. intros r s1 [-> Hs1]. apply txt_cons in Ht as [_ Ht].
  change (COLON =? 0) with false. change (COLON =? COLON) with true. cbv iota. by apply IHp.
Qed.

Lemma pair_rt_step f : value_rt f -> object_rt f -> pair_rt (S f).
Proof.
  intros IHv IHo n d ps o ys p s name Hps Ho Hname Hs Ht. pose proof Hps as [[_ Hw]%andb_true_iff Hps']%andb_true_iff. cbn [fst snd] in Hw.
  destruct (render_first d Hw) as (c & l & Ec & Hc & Hc0). destruct (more_members_first ps) as (t & k & Ek & Htt).
  cbn [pair_value]. apply wlp_bind. eapply wlp_mono; [apply (read_char p c (l ++ more_members ps ++ [RBRACE]) s); [done| |done]|].
  { by rw Ec in Ht. }
  intros r s1 [-> Hs1]. apply wlp_bind. pose proof Ht as [Htd Htm]%txt_app.
  eapply wlp_mono; [apply (IHv d c l t p s1 Hw Ec Hs1)|].
  { apply txt_app. split; [done|]. rw Ek in Htm. by apply txt_cons in Htm as [? _]. }
  { destruct Htt as [-> | ->]; [by left|by right; right]. }
  intros [[r v] c'] s2 [Hm|(Hr & Hv & Hb & Hs2)]; cbn [fst snd] in *; subst; [apply wlp_ret; by left|].
  change (JSON_OK =? JSON_OK) with true. cbn [negb]. rw (after_member_text v d t Hv Htt).
  assert (decode_pair m (name, v) = Some (n, d)) as Hpair by (unfold decode_pair; cbn; by rw Hname; cbn; rw Hv).
  pose proof (add_slot_holds (decode_pair m) JSON_PAIR_SIZE o (name, v) ys (n, d) s2 Ho Hpair) as Hadd.
  change (add_slot alloc_slots JSON_PAIR_SIZE o (name, v)) with (add_object_pair o (name, v)) in Hadd.
  rw length_app. destruct (atom d) eqn:Ea; unfold place in Hs2; rw Ea ?Nat.add_1_r ?Nat.add_0_r in Hs2; [destruct (Z.eqb_spec t RBRACE) as [->|Hnt]|].
  - (* the last one *)
    destruct ps as [|d' ps]; [|done]. apply wlp_bind. eapply wlp_mono; [exact Hadd|]. intros [[] o'] s3 [E3 H3]; cbn [fst snd] in *;
      apply wlp_ret; [right|by left]. destruct (H3 eq_refl) as [Ho' _]. cbn [fst snd]. split; [done|]. split; [done|].
    split; [by destruct d|]. apply (at_htc _ s2); [done|]. cbn [more_members map concat length]. by rw Nat.add_0_r Nat.add_1_r.
  - (* the comma was read *)
    destruct Htt as [->|]; [|done]. destruct ps as [|d' ps]; [done|]. apply wlp_bind. eapply wlp_mono; [exact Hadd|].
    intros [[] o'] s3 [E3 H3]; cbn [fst snd negb] in *; [|apply wlp_ret; by left].
    change (more_members (d' :: ps)) with (COMMA :: members (d' :: ps)) in *. cbn [app] in Htm. apply txt_cons in Htm as [_ Htm].
    eapply wlp_mono; [apply (IHo (d' :: ps) o' (ys ++ [(n, d)]) (S (p + length (render d))) s3 no_string BeforeName (members (d' :: ps)));
      [done|by apply H3|by apply (at_htc _ s2)|by left|done]|].
    rw -app_assoc. cbn [length app].
    by replace (p + (length (render d) + S (length (members (d' :: ps)))) + 1)%nat with (S (p + length (render d)) + length (members (d' :: ps)) + 1)%nat by lia.
  - (* a string, an array or an object *)
    apply wlp_bind. eapply wlp_mono; [exact Hadd|].
    intros [[] o'] s3 [E3 H3]; cbn [fst snd negb] in *; [|apply wlp_ret; by left].
    eapply wlp_mono; [apply (IHo ps o' (ys ++ [(n, d)]) (p + length (render d))%nat s3 no_string AfterValue (more_members ps));
      [done|by apply H3|by apply (at_htc _ s2)|by right|done]|].
    rw -app_assoc. cbn [app]. by rw Nat.add_assoc.
Qed.

Lemma roundtrip_specs f : value_rt f /\ array_rt f /\ object_rt f /\ colon_rt f /\ pair_rt f.
Proof.
  induction f as [|f (IHv & IHa & IHo & IHc & IHp)].
  - unfold value_rt, array_rt, object_rt, colon_rt, pair_rt. by split_and!.
  - split_and!; [by apply value_rt_step|by apply array_rt_step|by apply object_rt_step|by apply colon_rt_step|by apply pair_rt_step].
Qed.
End reading.

(** ** The whole document *)
Section document.
Context {A : Type} `{AllocatorLaws A}.

Lemma init_text l a : Z.of_nat (length (LBRACE :: l)) = a ->
  exists o, ht_init_context (Some (LBRACE :: l)) a (mkHT blank_content None) =
    mkHT (mkHC (LBRACE :: l) (Z.of_nat (length (LBRACE :: l))) 0 E_UTF_8 o) (Some E_UTF_8).
Proof.
  intros <-. unfold ht_init_context. change (default [] (Some (LBRACE :: l))) with (LBRACE :: l).
  assert (detect_bom bom_table (LBRACE :: l) = None) as ->; [|by case_match; eexists].
  unfold bom_table, LBRACE. cbn [detect_bom length]. cbn [take]. repeat (case_bool_decide; [done|]). done.
Qed.

Lemma parse_root_text ps (s : pstate A) f : let m := render (DObject ps) in Z.of_nat (length m) < MAX_DOCUMENT ->
  forallb pair_writable ps = true -> at_ m 0 s ->
  wlp (parse_object (S f) no_vec None) s (object_text m ps (length m)).
Proof.
  intros m Hm Hps Hs. unfold parse_object. change (default LBRACE None =? LBRACE) with true. cbv iota. cbn [object_loop].
  assert (txt m 0 (LBRACE :: members ps ++ [RBRACE])) as Ht by (exists []; by rw app_nil_r drop_0).
  apply wlp_bind. eapply wlp_mono; [by apply (read_char m 0 LBRACE _ s Hs Ht)|]. intros r s1 [-> Hs1]. apply txt_cons in Ht as [_ Ht].
  destruct (roundtrip_specs m Hm f) as (_ & _ & IHo & _). cbn -[object_loop].
  eapply wlp_mono; [apply (IHo ps no_vec [] 1%nat s1 no_string BeforeName (members ps)); [done|apply holds_no_vec|done|by left|done]|].
  intros x s2 Hx. assert (1 + length (members ps) + 1 = length m)%nat as Hlen.
  { change m with (LBRACE :: members ps ++ [RBRACE]). cbn [length]. rw length_app. cbn. lia. }
  by rw Hlen in Hx.
Qed.

Lemma json_parse_text ps x a : let m := render (DObject ps) in root x = no_vec -> a_ok a -> writable (DObject ps) = true ->
  document m (Z.of_nat (length m)) -> exists r x' a', json_parse x m (Z.of_nat (length m)) a = Some ((r, x'), a') /\
    (r = JSON_MEMORY_ERROR \/
     r = JSON_OK /\ decode m (VObject (root x')) = Some (DObject ps) /\ value_ok (htc_content (jc_htc x')) (VObject (root x')) /\
       p_content (htc_content (jc_htc x')) = m /\ sz_content (htc_content (jc_htc x')) = Z.of_nat (length m) /\
       encoding (htc_content (jc_htc x')) = E_UTF_8).
Proof.
  intros m Hroot Ha Hw Hdoc.
  destruct (wp_run _ _ _ (json_parse_spec a x m (Z.of_nat (length m)) a [] Hroot Hdoc (grown_nil a Ha))) as ([r x'] & a' & E & (Hc & Hs & _) & _ & Hok & _).
  exists r, x', a'. split; [done|]. rw (json_parse_fresh x m _ a Hroot) in E.
  destruct (init_text (members ps ++ [RBRACE]) (Z.of_nat (length m)) eq_refl) as [o Ei].
  change (LBRACE :: members ps ++ [RBRACE]) with m in Ei. rw Ei in E. set (s := mkP A _ (jc_err_pos x) a) in E.
  assert (parse_fuel (Z.of_nat (length m)) = S (2 * Z.to_nat (Z.of_nat (length m)) + 3)) as Ef by (unfold parse_fuel; lia). rw Ef in E.
  pose proof (parse_root_text ps s (2 * Z.to_nat (Z.of_nat (length m)) + 3) (proj2 (proj2 Hdoc)) Hw ltac:(by exists o)) as Hr.
  destruct (parse_object _ no_vec None s) as [[[[r0 o0] c0] s0]|] eqn:Ep; [|done]. injection E as <- <- <-.
  pose proof (wlp_run _ _ _ _ _ Hr Ep) as [Hm|(Hk & Hd & _ & [o2 E2])]; cbn [fst snd] in *; [by left|right]. split; [done|]. cbn [decode root].
  fold (decode_pair m). rw Hd. split; [done|]. split; [done|]. split; [done|]. split; [done|]. cbn [jc_htc]. by rw E2.
Qed.

End document.

(** C16: Parsing what was written: for every document [ps] of objects, arrays,
    strings, numbers and constants nested in any way, except an array directly
    inside an array, [json_parse] applied to its text returns.  If the allocator
    grants every block that is asked for, the answer is JSON_OK with a tree that
    reads back as exactly [ps], names and elements in order; if it refuses one, the
    answer is JSON_MEMORY_ERROR.  There is no other answer. *)
Theorem json_parse_render {A} `{AllocatorLaws A} ps x (a : tracked A) : root x = no_vec -> a_ok a -> writable (DObject ps) = true ->
  document (render (DObject ps)) (Z.of_nat (length (render (DObject ps)))) ->
  exists r x' a', json_parse x (render (DObject ps)) (Z.of_nat (length (render (DObject ps)))) a = Some ((r, x'), a') /\
    (r = JSON_OK /\ refusals a' = refusals a /\ decode (render (DObject ps)) (VObject (root x')) = Some (DObject ps) \/
     r = JSON_MEMORY_ERROR /\ refusals a' = refusals a + 1).
Proof.
  intros Hroot Ha Hw Hdoc. destruct (json_parse_text ps x a Hroot Ha Hw Hdoc) as (r & x' & a' & E & Hr). exists r, x', a'. split; [done|].
  pose proof (json_parse_told x _ _ a r x' a' Hroot E) as Ht. destruct Hr as [->|(-> & Hd & _)]; [by right|left].
  split; [done|]. split; [|done]. rewrite Ht. cbn. lia.
Qed.

(** An array of 20 elements grows once; with enough memory the sample is read,
    with memory for 12 blocks it is not. *)
Definition long_sample : list (list Z * jdoc) := (str "many", DArray (replicate 20 (DNumber (str "7")))) :: sample.
Lemma json_parse_render_witness : let m := render (DObject long_sample) in
  (fun r : Z * json_context * tracked Bump.t => (r.1.1, refusals r.2)) <$> json_parse fresh_context m (Z.of_nat (length m)) (mkTracked (Bump.empty 16 12) 0) = Some (JSON_MEMORY_ERROR, 1) /\
  exists x' a', json_parse fresh_context m (Z.of_nat (length m)) (mkTracked (Bump.empty 16 100) 0) = Some ((JSON_OK, x'), a') /\
    refusals a' = 0 /\ decode m (VObject (root x')) = Some (DObject long_sample).
Proof.
  split; [by vm_compute|].
  destruct (json_parse_render long_sample fresh_context (mkTracked (Bump.empty 16 100) 0)) as (r & x' & a' & E & Hr); [done| |by vm_compute|..].
  - split; [done|]. intros p n Hp. by rw lookup_empty in Hp.
  - split; [apply all_byte; by vm_compute|by vm_compute].
  - assert ((fun r : Z * json_context * tracked Bump.t => refusals r.2) <$> json_parse fresh_context (render (DObject long_sample)) (Z.of_nat (length (render (DObject long_sample)))) (mkTracked (Bump.empty 16 100) 0) = Some 0)
      as Hk by (vm_compute; reflexivity).
    rewrite E in Hk. cbn in Hk. injection Hk as Hk. destruct Hr as [(-> & _ & Hd)|(_ & Hn)]; [exists x', a'; exact (conj E (conj Hk Hd))|]. cbn in Hn. lia.
Defined.
