(* ===== verification/JsonSelect.v ===== *)
(** * JSON paths (hypertext/libht/json.c, [json_select])

    Looking a path of names up in a tree is looking the names up, one after the
    other, in the document the tree stands for. *)
From S2P Require Import Prelude Memory Str HtContext Json JsonScan JsonMemory JsonProof JsonContext JsonRoundtrip.
Set Default Goal Selector "!".

(** ** Looking up in a document *)
(** The first member of that name. *)
Fixpoint assoc (ps : list (list Z * jdoc)) (n : list Z) : option jdoc :=
  match ps with [] => None | (n', d) :: ps => if bool_decide (n' = n) then Some d else assoc ps n end.
(** Member by member; only an object has members. *)
Fixpoint doc_lookup (ps : list (list Z * jdoc)) (names : list (list Z)) : option jdoc :=
  match names with
  | [] => None
  | [n] => assoc ps n
  | n :: names => match assoc ps n with Some (DObject ps') => doc_lookup ps' names | _ => None end
  end.
(** A name in front of the last one stands for something that is no object. *)
Fixpoint below_scalar (ps : list (list Z * jdoc)) (names : list (list Z)) : bool :=
  match names with
  | [] | [_] => false
  | n :: names => match assoc ps n with Some (DObject ps') => below_scalar ps' names | Some _ => true | None => false end
  end.

(** The names with a separator in between. *)
Fixpoint path (names : list (list Z)) : list Z :=
  match names with [] => [] | [n] => n | n :: names => n ++ 47 :: path names end.
Definition path_char (c : Z) : bool :=
  (0x20 <=? c) && (c <? 128) && negb ((c =? 46) || (c =? 47) || (c =? LBRACK) || (c =? RBRACK)).
Definition path_name (n : list Z) : bool := negb (bool_decide (n = [])) && forallb path_char n.

Section select.
Context (x : ht_context) (m : list Z).
Context (Hm : p_content (htc_content x) = m) (Hsz : sz_content (htc_content x) = Z.of_nat (length m)).
Context (Henc : encoding (htc_content x) = E_UTF_8) (Hbytes : Forall is_byte m).
Abbreviation h := (htc_content x).

(** What a lookup in the tree gives, read back. *)
Definition agrees (r : option json_value) (d : option jdoc) : Prop :=
  match r, d with Some v, Some d => decode m v = Some d /\ value_ok h v | None, None => True | _, _ => False end.
(** The same for a path, except below something that is no object. *)
Definition finds (r : option json_value) ps names : Prop :=
  agrees r (doc_lookup ps names) \/ doc_lookup ps names = None /\ below_scalar ps names = true.

Lemma compare_name t n k : span_in h t -> Forall is_byte n -> n <> [] -> j_size t = Z.of_nat (length n) -> exists d l r,
  j_data t = Some d /\ text m t = Some l /\ ht_compare x (InDoc d) (Ext (n ++ k)) (j_size t) = Some r /\ (r =? 0) = bool_decide (l = n).
Proof.
  intros (d & Hd & H0 & _ & Hin) Hn Hne Hs. rw Henc Hsz in Hin. change (symbol_bytes E_UTF_8) with 1 in Hin. rw Hs in Hin.
  assert (0 < length n)%nat as Hpos by (destruct n; cbn; [done|lia]).
  set (l := take (length n) (drop (Z.to_nat d) m)). assert (length l = length n) as El by (unfold l; rw length_take length_drop; lia).
  destruct (compare_lists h (InDoc d) (Ext (n ++ k)) l n El) as (r & Hr); [|done| | |].
  - by apply Forall_take, Forall_drop.
  - intros i c Hi. cbn [deref]. replace (d + Z.of_nat i) with (Z.of_nat (Z.to_nat d + i)) by lia. rw load8_nat Hm.
    apply lookup_take_Some in Hi as [Hi _]. by rw lookup_drop in Hi.
  - intros i c Hi. cbn [deref]. rw load8_nat. by apply lookup_app_l_Some.
  - exists d, l, r. unfold text. rw Hd. cbn [mbind option_bind]. rw Hs Nat2Z.id. split; [done|]. split; [done|]. split; [|apply Hr].
    unfold ht_compare, encoding_at, belongs. rw Hsz Henc. rw Nat2Z.id -El.
    assert ((0 <=? d) && (d <? Z.of_nat (length m)) = true) as ->; [apply andb_true_iff; split; [by apply Z.leb_le|apply Z.ltb_lt; lia]|]. apply Hr.
Qed.

Lemma size_differs t n l : text m t = Some l -> span_in h t -> j_size t <> Z.of_nat (length n) -> l <> n.
Proof.
  intros Ht (d & Hd & H0 & Hj & Hin) Hs ->. rw Henc Hsz in Hin. change (symbol_bytes E_UTF_8) with 1 in Hin.
  unfold text in Ht. rw Hd in Ht. cbn in Ht. injection Ht as Ht. apply Hs. rw -Ht length_take length_drop. lia.
Qed.

Lemma pair_lookup l ps n k : read_slots (decode_pair m) l = Some ps -> Forall (slot_ok (pair_ok h)) l -> Forall is_byte n -> n <> [] ->
  exists r, pair_by_name x l (n ++ k) (Z.of_nat (length n)) = Some r /\ agrees r (assoc ps n).
Proof.
  intros Hl Hok Hn Hne. revert ps Hl. induction l as [|[|p|p [t v]] l IH]; intros ps Hl; cbn in Hl; try apply Forall_cons in Hok as [Hs Hok].
  - injection Hl as <-. by exists None.
  - destruct (IH Hok ps Hl) as (r & E & Ha). by exists r.
  - done.
  - destruct Hs as [Ht Hv]. cbn in Ht, Hv. destruct (decode_pair m (t, v)) as [[nd d]|] eqn:Ed; [|done]. cbn in Hl. fold (read_slots (decode_pair m)) in Hl.
    destruct (read_slots (decode_pair m) l) as [ps'|]; [|done]. cbn in Hl. injection Hl as <-. destruct (IH Hok ps' eq_refl) as (r & Er & Ha).
    unfold decode_pair in Ed. cbn in Ed. destruct (text m t) as [l1|] eqn:Et; [|done]. cbn in Ed. destruct (decode m v) as [dv|] eqn:Ev; [|done].
    cbn in Ed. injection Ed as <- <-. cbn [pair_by_name follow mbind option_bind assoc].
    destruct (Z.eqb_spec (j_size t) (Z.of_nat (length n))) as [Es|Es].
    + destruct (compare_name t n k Ht Hn Hne Es) as (d' & l2 & r2 & Hd & Hl2 & Hc & Hr2). rw Hd. rw Et in Hl2. injection Hl2 as <-.
      rw Es in Hc. rw Hc. cbn [mbind option_bind]. rw Hr2. case_bool_decide; [|by exists r]. exists (Some v). by split.
    + rw bool_decide_eq_false_2; [|by eapply size_differs]. exists r. by destruct (j_data t).
Qed.

(** ** Scanning a path *)
Lemma path_char_step c : path_char c = true -> (c =? 0) = false /\ ((c =? 46) || (c =? 47)) = false /\ (c =? LBRACK) = false /\
  (c =? RBRACK) = false /\ (s8 c <? 0x20) = false /\ is_byte c.
Proof.
  unfold path_char, LBRACK, RBRACK, is_byte. intros Hc. split_and!; try lia. unfold s8. rw Z.mod_small; lia.
Qed.
Lemma path_name_bytes n : path_name n = true -> Forall is_byte n /\ n <> [].
Proof.
  unfold path_name. intros [Hne%negb_true_iff%bool_decide_eq_false_1 Hn]%andb_true_iff. split; [|done].
  apply Forall_forall. intros c Hc. rw forallb_forall in Hn. apply path_char_step, Hn. by apply list_elem_of_In.
Qed.

Lemma scan_more n k r tmp start p sz : forallb path_char n = true -> 0 <= sz -> sz + Z.of_nat (length n) < 2 ^ 32 ->
  select_loop x (n ++ k) (mkSel r tmp start (Some p) sz) = select_loop x k (mkSel r tmp start (Some p) (sz + Z.of_nat (length n))).
Proof.
  revert sz. induction n as [|c n IH]; intros sz Hn H0 Hs; [by rw Z.add_0_r|]. cbn in Hn. apply andb_true_iff in Hn as [Hc Hn].
  destruct (path_char_step c Hc) as (E0 & E1 & E2 & E3 & E4 & _). cbn [app select_loop length] in *. rw E0 E1 E2 E3 E4.
  cbn [mbind option_bind sl_str sl_sz sl_r sl_tmp sl_start]. rw u32_small; [|lia]. rw IH; [|done|lia|lia]. do 2 f_equal. lia.
Qed.
Lemma scan_name n k r tmp start : path_name n = true -> Z.of_nat (length n) < 2 ^ 32 ->
  select_loop x (n ++ k) (mkSel r tmp start None 0) = select_loop x k (mkSel r tmp start (Some (n ++ k)) (Z.of_nat (length n))).
Proof.
  unfold path_name. intros [Hne%negb_true_iff%bool_decide_eq_false_1 Hn]%andb_true_iff Hs. destruct n as [|c n]; [done|].
  cbn in Hn. apply andb_true_iff in Hn as [Hc Hn]. destruct (path_char_step c Hc) as (E0 & E1 & E2 & E3 & E4 & _).
  cbn [app select_loop length] in *. rw E0 E1 E2 E3 E4. cbn [mbind option_bind sl_str sl_sz sl_r sl_tmp sl_start].
  rw scan_more; [|done|done|rw u32_small; lia]. do 2 f_equal. rw u32_small; lia.
Qed.

(** A tree that stands for the members [ps]. *)
Definition stands_for (o : json_object) (ps : list (list Z * jdoc)) : Prop :=
  read_slots (decode_pair m) (v_slots o) = Some ps /\ Forall (slot_ok (pair_ok h)) (v_slots o).
Lemma stands_for_value v ps : decode m v = Some (DObject ps) -> value_ok h v -> exists o, v = VObject o /\ stands_for o ps.
Proof.
  destruct v as [ |z|z|o|a| | | ]; cbn; try done; try (by destruct (text m z)); try (by destruct (read_slots _ _)).
  intros Hd [Hok _]. exists o. split; [done|]. split; [|by apply all_Forall].
  change (DObject <$> read_slots (decode_pair m) (v_slots o) = Some (DObject ps)) in Hd.
  destruct (read_slots (decode_pair m) (v_slots o)) as [l|] eqn:E; [|done]. injection Hd as Hd. rw -Hd. exact E.
Qed.
Lemma not_object v d start : decode m v = Some d -> (forall ps, d <> DObject ps) -> enter v start = start.
Proof.
  destruct v as [ |z|z|o|a| | | ]; cbn; try done. intros Hd Hno. change (DObject <$> read_slots (decode_pair m) (v_slots o) = Some d) in Hd.
  destruct (read_slots (decode_pair m) (v_slots o)) as [ps|]; [|done]. injection Hd as <-. by destruct (Hno ps).
Qed.

Lemma select_path names : names <> [] -> forallb path_name names = true -> Z.of_nat (length (path names)) < 2 ^ 32 ->
  forall start ps tmp, stands_for start ps -> exists r,
  select_loop x (path names ++ [0]) (mkSel None tmp start None 0) = Some r /\ finds r ps names.
Proof.
  induction names as [|n names IH]; intros Hne Hn Hlen start ps tmp [Hps Hok]; [done|]. cbn [forallb] in Hn. apply andb_true_iff in Hn as [Hn Hns].
  destruct (path_name_bytes n Hn) as [Hb Hnn]. destruct names as [|n2 names].
  - cbn [path doc_lookup] in *. rw scan_name //. cbn [select_loop Z.eqb sel_end sl_str sl_start sl_sz].
    change (0 =? 0) with true. cbv iota. destruct (pair_lookup (v_slots start) ps n [0] Hps Hok Hb Hnn) as (r & E & Ha). exists r. split; [exact E|by left].
  - change (path (n :: n2 :: names)) with (n ++ 47 :: path (n2 :: names)) in *. rw length_app in Hlen. cbn [length] in Hlen.
    rw -app_assoc. cbn [app]. rw scan_name; [|done|lia]. set (rest := path (n2 :: names) ++ [0]) in *.
    cbn [select_loop]. change (47 =? 0) with false. change ((47 =? 46) || (47 =? 47)) with true. cbv iota.
    unfold sel_separator. cbn [sl_str sl_start sl_sz sl_r]. unfold object_pair_by_name.
    destruct (pair_lookup (v_slots start) ps n (47 :: rest) Hps Hok Hb Hnn) as (r & -> & Hr). cbn [mbind option_bind].
    unfold finds. change (doc_lookup ps (n :: n2 :: names)) with (match assoc ps n with Some (DObject ps') => doc_lookup ps' (n2 :: names) | _ => None end).
    change (below_scalar ps (n :: n2 :: names)) with (match assoc ps n with Some (DObject ps') => below_scalar ps' (n2 :: names) | Some _ => true | None => false end).
    destruct r as [v|]; destruct (assoc ps n) as [d|]; try done; [|by exists None; split; [|left]].
    destruct Hr as [Hd Hv]. cbn [mbind option_bind].
    assert (forall start' ps', stands_for start' ps' -> exists r, select_loop x rest (mkSel None (Some v) start' None 0) = Some r /\ finds r ps' (n2 :: names)) as IH'.
    { intros start' ps' Hs'. apply IH; [done|done|lia|done]. }
    destruct d as [s|s| | | |l|ps']; [rw (not_object v _ start Hd); [destruct (IH' start ps) as (r & Er & _); [done|exists r; split; [exact Er|by right]]|done]..|].
    destruct (stands_for_value v ps' Hd Hv) as (o & -> & Ho). by apply IH'.
Qed.
End select.

Section properties.
Context {A : Type} `{AllocatorLaws A}.

(** C20: [json_select] after [json_parse]: in the tree of a document that was
    parsed, a path of names finds the value that the names lead to in the
    document, member by member, and NULL where they lead to nothing; no dangling
    pointer is followed.  The one exception is a path that goes on below something
    that is no object: it leads to nothing, but may be answered with a value
    ([select_beside] is an example). *)
Theorem json_select_finds ps x a x' a' names : root x = no_vec -> a_ok a -> writable (DObject ps) = true ->
  document (render (DObject ps)) (Z.of_nat (length (render (DObject ps)))) ->
  json_parse x (render (DObject ps)) (Z.of_nat (length (render (DObject ps)))) a = Some ((JSON_OK, x'), a') ->
  names <> [] -> forallb path_name names = true -> Z.of_nat (length (path names)) < 2 ^ 32 ->
  exists r, json_select x' (path names) None = Some r /\
    match doc_lookup ps names, r with
    | Some d, Some v => decode (render (DObject ps)) v = Some d
    | None, None => True
    | None, Some _ => below_scalar ps names = true
    | Some _, None => False
    end.
Proof.
  intros Hroot Ha Hw Hdoc E Hne Hn Hlen. destruct (json_parse_text ps x a Hroot Ha Hw Hdoc) as (r & x2 & a2 & E2 & Hr).
  rw E in E2. injection E2 as <- <- <-. destruct Hr as [?|(_ & Hd & Hv & Hm & Hs & He)]; [done|].
  destruct (stands_for_value (jc_htc x') _ (VObject (root x')) ps Hd Hv) as (o & [= <-] & Ho). unfold json_select. cbn [default].
  destruct (select_path (jc_htc x') _ Hm Hs He (proj1 Hdoc) names Hne Hn Hlen (root x') ps None Ho) as (r & Er & Hag).
  exists r. split; [done|]. destruct Hag as [Hag|[-> Hb]]; [|by destruct r].
  unfold agrees in Hag. destruct r, (doc_lookup ps names); try done. apply Hag.
Qed.
End properties.

(** What [sample] has under a path, and whether its text is the one given. *)
Definition selected (names : list (list Z)) (d : option jdoc) : Prop :=
  let m := render (DObject sample) in exists x' a',
  json_parse fresh_context m (Z.of_nat (length m)) (Bump.empty 16 100) = Some ((JSON_OK, x'), a') /\
  exists r, json_select x' (path names) None = Some r /\ (v ← r; decode m v) = d.
(** [n] is a number; [name] is found beside it, not below it. *)
Theorem select_beside : doc_lookup sample [str "n"; str "name"] = None /\
  selected [str "n"; str "name"] (Some (DString (str "a\b" ++ [92; 34] ++ str "c"))).
Proof. split; [by vm_compute|]. eexists _, _. split; [vm_compute; reflexivity|]. eexists. split; vm_compute; reflexivity. Qed.

(** An object in an object, and a name that it does not have. *)
Lemma json_select_finds_witness : selected [str "o-1"; str "x"] (Some DFalse) /\ selected [str "o-1"; str "name"] None.
Proof.
  assert (document (render (DObject sample)) (Z.of_nat (length (render (DObject sample))))) as Hdoc
    by (split; [apply all_byte; by vm_compute|by vm_compute]).
  assert (forall names d, doc_lookup sample names = d -> below_scalar sample names = false -> names <> [] -> forallb path_name names = true ->
    Z.of_nat (length (path names)) < 2 ^ 32 -> selected names d) as Hsel.
  { intros names d Hd Hb Hne Hn Hl. eexists _, _. split; [vm_compute; reflexivity|].
    edestruct (json_select_finds sample fresh_context (Bump.empty 16 100)) with (names := names) as (r & Er & Hr);
      [reflexivity| |reflexivity|exact Hdoc|vm_compute; reflexivity|exact Hne|exact Hn|exact Hl|].
    - split; [done|]. intros p n Hp. by rw lookup_empty in Hp.
    - exists r. split; [exact Er|]. rewrite Hd Hb in Hr. destruct d as [d|], r as [v|]; [exact Hr|destruct Hr|done|reflexivity]. }
  split; apply Hsel; first [by vm_compute|done].
Defined.
