(* ===== verification/Zone.v ===== *)
(** * Zone allocator
    (core/mem/zone.h, core/mem/zone.c; behind [cZoneHeap] of
    core/mem/zone_heap.cpp and [zalloc] of core/repository-2/zalloc.cpp)

    Objects of one size class share a zone: a chain of zone pages, each of 63
    entries, each of which holds a page of small objects and their bitmap, or
    one object of whole pages.  The zone pages are a store of records by their
    address; what the users put into the data pages is not modelled.  The pages
    come from the allocator of Memory.v ([malloc] in both users), which is asked
    for [num_pages * 4096] bytes.  Both users install a lock that its holder may
    not take again, and [ZONE_DEFAULT_LIMIT], which they ignore. *)
From S2P Require Import Prelude Memory.
Set Default Goal Selector "!".

Definition ZONE_PAGE_SIZE : Z := 4096.
Definition ZONE_MIN_ALLOC : Z := 16.
Definition ZONE_MAX_ENTRIES : nat := 63.
Definition ZONE_BITMAP_UNIT_BITS : Z := 64.
Definition ZONE_MAX_ZONES : Z := 512.

(** [bitmap] is a union with [data_size]: both are eight bytes wide. *)
Record zone_entry := mkEntry { bitmap : list Z; data : Z; e_objects : Z }.
Definition data_size (e : zone_entry) : Z := default 0 (bitmap e !! 0%nat).
Definition set_data_size (n : Z) (e : zone_entry) : zone_entry := mkEntry (<[0%nat := n]> (bitmap e)) (data e) (e_objects e).
Record zone_page := mkPage { next : Z; z_objects : Z; object_size : Z; array : list zone_entry }.

Record zone_context {A : Type} := mkZone {
  zones : Z;                 (* NULL before [zone_init] *)
  table : list Z;            (* what [zones] points to *)
  zpages : gmap Z zone_page;
  z_locked : bool;
  page_heap : A
}.
Arguments zone_context : clear implicits.
Arguments mkZone {A}.

(** ** Sizes *)
(** [while(r && !(r & size)) r >>= 1] from [ZONE_PAGE_SIZE] on. *)
Fixpoint align_loop (fuel : nat) (r size : Z) : Z :=
  match fuel with
  | 0%nat => r
  | S fuel => if negb (r =? 0) && (Z.land r size =? 0) then align_loop fuel (Z.shiftr r 1) size else r
  end.
Definition _align (size : Z) : Z :=
  if negb (size =? 0) && (size <? ZONE_MIN_ALLOC) then ZONE_MIN_ALLOC
  else if ZONE_PAGE_SIZE <? size then
    u32 ((size / ZONE_PAGE_SIZE + (if negb (size mod ZONE_PAGE_SIZE =? 0) then 1 else 0)) * ZONE_PAGE_SIZE)
  else if negb (size =? 0) && (size <? ZONE_PAGE_SIZE) then
    let r := align_loop 14 ZONE_PAGE_SIZE size in
    if negb (Z.land size (Z.lnot r) =? 0) then u32 (Z.shiftl r 1) else r
  else size.

(** [None] for a loop that does not end: from bit 32 on the mask is 0. *)
Fixpoint bit_loop (fuel : nat) (mask_h h2l_pos x : Z) : option Z :=
  match fuel with
  | 0%nat => None
  | S fuel => if Z.land mask_h x =? 0 then bit_loop fuel (Z.shiftr mask_h 1) (h2l_pos + 1) x else Some (32 - h2l_pos)
  end.
Definition _bit_number (x : Z) : option Z := bit_loop 33 (2 ^ 31) 0 x.

Section zone.
Context {A : Type} `{Allocator A}.
Abbreviation ZM := (M (zone_context A)).

Definition set_heap (a : A) (z : zone_context A) : zone_context A := mkZone (zones z) (table z) (zpages z) (z_locked z) a.
Definition set_pages (m : gmap Z zone_page) (z : zone_context A) : zone_context A := mkZone (zones z) (table z) m (z_locked z) (page_heap z).
Definition set_table (t : list Z) (z : zone_context A) : zone_context A := mkZone (zones z) t (zpages z) (z_locked z) (page_heap z).
Definition set_locked (b : bool) (z : zone_context A) : zone_context A := mkZone (zones z) (table z) (zpages z) b (page_heap z).

(** ** Callbacks *)
Definition pf_page_alloc (num_pages : Z) : ZM Z := fun z =>
  let '(p, a) := a_alloc (page_heap z) (num_pages * ZONE_PAGE_SIZE) in Some (p, set_heap a z).
Definition pf_page_free (p num_pages : Z) : ZM unit := fun z =>
  if decide (a_live (page_heap z) !! p = Some (num_pages * ZONE_PAGE_SIZE))
  then Some (tt, set_heap (a_free (page_heap z) p (num_pages * ZONE_PAGE_SIZE)) z) else None.
Definition _lock : ZM unit := fun z => if z_locked z then None else Some (tt, set_locked true z).
Definition _unlock : ZM unit := modify (set_locked false).

(** ** Zone pages *)
Definition get_page (p : Z) : ZM zone_page := fun z => (fun pg => (pg, z)) <$> zpages z !! p.
Definition put_page (p : Z) (pg : zone_page) : ZM unit := fun z =>
  match zpages z !! p with Some _ => Some (tt, set_pages (<[p := pg]> (zpages z)) z) | None => None end.
Definition blank_entry : zone_entry := mkEntry (replicate 4 0) 0 0.
(** [_clear] of a page that was just allocated, and [object_size]. *)
Definition blank_page (size : Z) : zone_page := mkPage 0 0 size (replicate ZONE_MAX_ENTRIES blank_entry).
Definition clear_page (p size : Z) : ZM unit := modify (fun z => set_pages (<[p := blank_page size]> (zpages z)) z).
Definition get_entry (p : Z) (i : nat) : ZM zone_entry := pg ← get_page p; lift_opt (array pg !! i).
Definition put_entry (p : Z) (i : nat) (e : zone_entry) : ZM unit :=
  pg ← get_page p; put_page p (mkPage (next pg) (z_objects pg) (object_size pg) (<[i := e]> (array pg))).
Definition set_data (d : Z) (e : zone_entry) : zone_entry := mkEntry (bitmap e) d (e_objects e).
Definition set_eobjects (n : Z) (e : zone_entry) : zone_entry := mkEntry (bitmap e) (data e) n.
Definition set_zobjects (n : Z) (p : Z) : ZM unit :=
  pg ← get_page p; put_page p (mkPage (next pg) n (object_size pg) (array pg)).
Definition set_next (q : Z) (p : Z) : ZM unit :=
  pg ← get_page p; put_page p (mkPage q (z_objects pg) (object_size pg) (array pg)).

(** The index of the zone and the aligned size; no pointer for an index out of range. *)
Definition _zone_page (size : Z) : ZM (option nat * Z) :=
  let aligned_size := _align size in
  zone_index ← lift_opt (_bit_number aligned_size);
  mret (if negb (zone_index =? 0) && (zone_index <? ZONE_MAX_ZONES) then Some (Z.to_nat zone_index) else None, aligned_size).
Definition read_zone (i : nat) : ZM Z := t ← gets table; lift_opt (t !! i).
Definition write_zone (i : nat) (p : Z) : ZM unit := modify (fun z => set_table (<[i := p]> (table z)) z).

(** Whether there was memory.  The table is cleared where it is: a table that
    was freed is not memory of the context any more. *)
Definition clear_table : ZM unit :=
  t ← gets table; if decide (t = []) then undefined else modify (set_table (replicate (Z.to_nat ZONE_MAX_ZONES) 0)).
Definition zone_init : ZM Z :=
  zs ← gets zones;
  when (zs =? 0) (p ← pf_page_alloc 1; modify (fun z => mkZone p (if p =? 0 then table z else replicate (Z.to_nat ZONE_MAX_ZONES) 0) (zpages z) (z_locked z) (page_heap z)));;
  zs ← gets zones;
  if negb (zs =? 0) then clear_table;; mret 0 else mret (-1).

(** ** Bits *)
Definition mask (unit_bit : Z) : Z := Z.shiftr (2 ^ (ZONE_BITMAP_UNIT_BITS - 1)) unit_bit.
(** The first bit that is not set, with its unit and its place there; [max_bits] when all are. *)
Fixpoint free_bit (fuel : nat) (e : zone_entry) (max_bits bit unit_bit : Z) (unit : nat) : option (Z * Z * nat) :=
  match fuel with
  | 0%nat => None
  | S fuel =>
      if bit <? max_bits then
        let '(unit_bit, unit) := if ZONE_BITMAP_UNIT_BITS <=? unit_bit then (0, S unit) else (unit_bit, unit) in
        match bitmap e !! unit with
        | Some u =>
            if Z.land u (mask unit_bit) =? 0 then Some (bit, unit_bit, unit)
            else free_bit fuel e max_bits (bit + 1) (unit_bit + 1) unit
        | None => None
        end
      else Some (bit, unit_bit, unit)
  end.
(** No unit for a bit out of range; otherwise its number and the bit in it. *)
Definition _bitmap_unit_bit (aligned_size bit : Z) : option (nat * Z) :=
  let max_bits := ZONE_PAGE_SIZE / aligned_size in
  if bit <? max_bits then Some (Z.to_nat (bit / ZONE_BITMAP_UNIT_BITS), bit mod ZONE_BITMAP_UNIT_BITS) else None.
Definition map_unit (f : Z -> Z) (unit : nat) (e : zone_entry) : zone_entry := mkEntry (alter f unit (bitmap e)) (data e) (e_objects e).

(** ** Allocation *)
(** [p_entry->data], with a page allocated for it when there is none; 0 without memory. *)
Definition entry_data (p : Z) (i : nat) (num_pages : Z) : ZM Z :=
  e ← get_entry p i;
  if negb (data e =? 0) then mret (data e)
  else d ← pf_page_alloc num_pages; put_entry p i (set_data d e);; mret d.

Definition _zone_entry_alloc (p : Z) (i : nat) (aligned_size : Z) : ZM Z :=
  e ← get_entry p i;
  if aligned_size <? ZONE_PAGE_SIZE then
    let max_bits := ZONE_PAGE_SIZE / aligned_size in
    '(bit, unit_bit, unit) ← lift_opt (free_bit 257 e max_bits 0 0 0);
    if bit <? max_bits then
      d ← entry_data p i 1;
      if negb (d =? 0) then
        e ← get_entry p i;
        put_entry p i (set_eobjects (u32 (e_objects e + 1)) (map_unit (fun u => Z.lor u (mask unit_bit)) unit e));;
        mret (d + u32 (bit * aligned_size))
      else mret 0
    else mret 0
  else if e_objects e =? 0 then
    d ← entry_data p i (aligned_size / ZONE_PAGE_SIZE);
    if negb (d =? 0) then
      e ← get_entry p i;
      put_entry p i (set_data_size aligned_size (set_eobjects 1 e));;
      mret d
    else mret 0
  else mret 0.

Definition max_objects (aligned_size : Z) : Z :=
  if aligned_size <? ZONE_PAGE_SIZE then Z.of_nat ZONE_MAX_ENTRIES * ZONE_PAGE_SIZE / aligned_size else Z.of_nat ZONE_MAX_ENTRIES.
Definition max_entry_objects (aligned_size : Z) : Z :=
  if aligned_size <? ZONE_PAGE_SIZE then ZONE_PAGE_SIZE / aligned_size else 1.

(** The first page of the chain with room, a new one at its end if there is none. *)
Fixpoint page_with_room (fuel : nat) (p aligned_size : Z) : ZM Z :=
  match fuel with
  | 0%nat => undefined
  | S fuel =>
      if p =? 0 then mret 0 else
      pg ← get_page p;
      if z_objects pg =? max_objects aligned_size then
        when (next pg =? 0)
          (q ← pf_page_alloc 1;
           when (negb (q =? 0)) (clear_page q aligned_size);;
           set_next q p);;
        pg ← get_page p;
        page_with_room fuel (next pg) aligned_size
      else mret p
  end.
Fixpoint first_room (l : list zone_entry) (max : Z) (i : nat) : option nat :=
  match l with [] => None | e :: l => if e_objects e <? max then Some i else first_room l max (S i) end.

(** The chain has at most one page more than there are. *)
Definition chain_fuel : ZM nat := gets (fun z => (size (zpages z) + 2)%nat).
Definition _zone_page_alloc (p aligned_size : Z) : ZM Z :=
  _lock;;
  fuel ← chain_fuel;
  q ← page_with_room fuel p aligned_size;
  r ← (if negb (q =? 0) then
         pg ← get_page q;
         match first_room (array pg) (max_entry_objects aligned_size) 0 with
         | Some i =>
             r ← _zone_entry_alloc q i aligned_size;
             when (negb (r =? 0)) (pg ← get_page q; set_zobjects (u32 (z_objects pg + 1)) q);;
             mret r
         | None => mret 0
         end
       else mret 0);
  _unlock;;
  mret r.

(** The steps of [zone_alloc], between which other threads run: reading the
    zone's pointer, taking a page for it, publishing the page. *)
Definition new_zone (aligned_size : Z) : ZM Z :=
  p ← pf_page_alloc 1; when (negb (p =? 0)) (clear_page p aligned_size);; mret p.
Definition publish_zone (i : nat) (p : Z) : ZM unit := _lock;; write_zone i p;; _unlock.
(** The zone, the aligned size and the pointer that was read. *)
Definition zone_pointer (size : Z) : ZM (option (nat * Z * Z)) :=
  '(pp_zone, aligned_size) ← _zone_page size;
  match pp_zone with Some i => p ← read_zone i; mret (Some (i, aligned_size, p)) | None => mret None end.
Definition zone_alloc_at (i : nat) (aligned_size p : Z) : ZM Z :=
  p ← (if p =? 0 then p ← new_zone aligned_size; when (negb (p =? 0)) (publish_zone i p);; mret p else mret p);
  if negb (p =? 0) then _zone_page_alloc p aligned_size else mret 0.
Definition zone_alloc (size : Z) : ZM Z :=
  x ← zone_pointer size;
  match x with Some (i, aligned_size, p) => zone_alloc_at i aligned_size p | None => mret 0 end.

(** ** Looking up *)
Definition in_entry (ptr : Z) (e : zone_entry) : bool := (data e <=? ptr) && (ptr <? data e + ZONE_PAGE_SIZE).
Fixpoint find_entry (l : list zone_entry) (ptr : Z) (i : nat) : option nat :=
  match l with [] => None | e :: l => if in_entry ptr e then Some i else find_entry l ptr (S i) end.
(** The page and the entry whose first data page [ptr] points into. *)
Fixpoint find_page (fuel : nat) (p ptr : Z) : ZM (option (Z * nat)) :=
  match fuel with
  | 0%nat => undefined
  | S fuel =>
      if p =? 0 then mret None else
      pg ← get_page p;
      match find_entry (array pg) ptr 0 with
      | Some i => mret (Some (p, i))
      | None => find_page fuel (next pg) ptr
      end
  end.

(** [unsigned char bit = (ptr - data) / aligned_size]: the unit and the bit in
    it, when it is set. *)
Definition busy_bit (e : zone_entry) (ptr aligned_size : Z) : option (nat * Z) :=
  match _bitmap_unit_bit aligned_size (u8 ((ptr - data e) / aligned_size)) with
  | Some (unit, bit) =>
      match bitmap e !! unit with
      | Some u => if negb (Z.land u (mask bit) =? 0) then Some (unit, bit) else None
      | None => None
      end
  | None => None
  end.
Definition busy_pages (e : zone_entry) (aligned_size : Z) : bool := negb (e_objects e =? 0) && (data_size e =? aligned_size).

(** 0 for success. *)
Definition zone_free (ptr size : Z) : ZM Z :=
  '(pp_zone, aligned_size) ← _zone_page size;
  match pp_zone with
  | Some i =>
      p ← read_zone i;
      _lock;;
      fuel ← chain_fuel;
      f ← find_page fuel p ptr;
      r ← (match f with
           | Some (p, i) =>
               e ← get_entry p i;
               pg ← get_page p;
               if aligned_size <? ZONE_PAGE_SIZE then
                 match busy_bit e ptr aligned_size with
                 | Some (unit, bit) =>
                     put_entry p i (set_eobjects (u32 (e_objects e - 1)) (map_unit (fun u => Z.land u (Z.lnot (mask bit))) unit e));;
                     set_zobjects (u32 (z_objects pg - 1)) p;;
                     mret 0
                 | None => mret 1
                 end
               else if busy_pages e aligned_size then
                 pf_page_free (data e) (aligned_size / ZONE_PAGE_SIZE);;
                 put_entry p i (set_eobjects 0 (set_data 0 (set_data_size 0 e)));;
                 set_zobjects (u32 (z_objects pg - 1)) p;;
                 mret 0
               else mret 1
           | None => mret 1
           end);
      _unlock;;
      mret r
  | None => mret 1
  end.

Definition zone_verify (ptr size : Z) : ZM Z :=
  '(pp_zone, aligned_size) ← _zone_page size;
  match pp_zone with
  | Some i =>
      p ← read_zone i;
      _lock;;
      fuel ← chain_fuel;
      f ← find_page fuel p ptr;
      r ← (match f with
           | Some (p, i) =>
               e ← get_entry p i;
               mret (if aligned_size <? ZONE_PAGE_SIZE then (match busy_bit e ptr aligned_size with Some _ => 1 | None => 0 end)
                     else if busy_pages e aligned_size then 1 else 0)
           | None => mret 0
           end);
      _unlock;;
      mret r
  | None => mret 0
  end.

(** ** Destruction *)
(** The entries of a page from [idx] on. *)
Fixpoint free_entries (l : list zone_entry) (obj_size : Z) : ZM unit :=
  match l with
  | [] => mret tt
  | e :: l =>
      when (negb (data e =? 0)) (pf_page_free (data e) (if ZONE_PAGE_SIZE <? obj_size then data_size e / ZONE_PAGE_SIZE else 1));;
      free_entries l obj_size
  end.
(** [idx] is not reset: only the entries of the first page are freed. *)
Fixpoint destroy_loop (fuel : nat) (p obj_size : Z) (idx : nat) : ZM unit :=
  match fuel with
  | 0%nat => undefined
  | S fuel =>
      if p =? 0 then mret tt else
      pg ← get_page p;
      free_entries (drop idx (array pg)) obj_size;;
      pf_page_free p 1;;
      modify (fun z => set_pages (delete p (zpages z)) z);;
      destroy_loop fuel (next pg) obj_size ZONE_MAX_ENTRIES
  end.
Definition destroy_zone_page (p : Z) : ZM unit :=
  pg ← get_page p; fuel ← chain_fuel; destroy_loop fuel p (object_size pg) 0.
Fixpoint destroy_zones (l : list Z) : ZM unit :=
  match l with
  | [] => mret tt
  | p :: l => when (negb (p =? 0)) (destroy_zone_page p);; destroy_zones l
  end.
Definition zone_destroy : ZM unit :=
  _lock;;
  zs ← gets zones;
  when (negb (zs =? 0)) (t ← gets table; destroy_zones t;; pf_page_free zs 1;; modify (set_table []));;
  _unlock.
End zone.
