(* ===== verification/ZoneBits.v ===== *)
(** * Zone allocator: sizes and bitmaps (core/mem/zone.c)

    What [_align] and [_bit_number] compute, and the bitmap of an entry as the
    set of its busy objects. *)
From S2P Require Import Prelude Memory Zone.
Set Default Goal Selector "!".

(** ** Sizes *)
(** A size class below a page, or whole pages. *)
Definition small_size (s : Z) : Prop := exists k, 4 <= k <= 11 /\ s = 2 ^ k.
Definition page_size (s : Z) : Prop := exists n, 0 < n < 2 ^ 20 /\ s = n * 4096.
(** The largest request whose size does not wrap. *)
Definition MAX_ALLOC : Z := 2 ^ 32 - 4096.

Definition small_check (n : Z) : bool :=
  let a := _align n in (n <=? a) && ((a =? 4096) || existsb (fun k => a =? 2 ^ k) [4; 5; 6; 7; 8; 9; 10; 11]).
Lemma small_checked : forallb (fun n => small_check (Z.of_nat n)) (seq 1 4095) = true.
Proof. by vm_compute. Qed.
Lemma align_small n : 0 < n < 4096 -> n <= _align n /\ (small_size (_align n) \/ page_size (_align n)).
Proof.
  intros Hn. pose proof (proj1 (forallb_forall _ _) small_checked (Z.to_nat n)) as Hc. rw Z2Nat.id in Hc; [|lia].
  assert (small_check n = true) as Hs by (apply Hc, list_elem_of_In, elem_of_seq; lia). unfold small_check in Hs.
  apply andb_true_iff in Hs as [Hle%Z.leb_le Hs]. split; [done|]. apply orb_true_iff in Hs as [->%Z.eqb_eq|Hs]; [right; by exists 1|left].
  apply existsb_exists in Hs as (k & Hk & ->%Z.eqb_eq). exists k. split; [|done]. cbn in Hk. lia.
Qed.

Lemma align_spec n : 0 < n <= MAX_ALLOC -> n <= _align n /\ (small_size (_align n) \/ page_size (_align n)).
Proof.
  intros Hn. destruct (Z.lt_ge_cases n 4096); [apply align_small; lia|]. unfold MAX_ALLOC in Hn. unfold _align, ZONE_MIN_ALLOC, ZONE_PAGE_SIZE.
  destruct (Z.eqb_spec n 0); [lia|]. destruct (Z.ltb_spec n 16); [lia|]. cbn [negb andb].
  destruct (Z.ltb_spec 4096 n) as [Hlt|].
  - pose proof (Z.div_mod n 4096 ltac:(lia)) as Ed. pose proof (Z.mod_pos_bound n 4096 ltac:(lia)) as Hm.
    set (q := n / 4096 + (if negb (n mod 4096 =? 0) then 1 else 0)).
    assert (n <= q * 4096 /\ 0 < q < 2 ^ 20) as [Hle Hq]; [|rw u32_small; [|lia]; split; [done|right; by exists q]].
    unfold q. destruct (Z.eqb_spec (n mod 4096) 0); cbn [negb]; lia.
  - destruct (Z.ltb_spec n 4096); [lia|]. split; [lia|]. right. exists 1. lia.
Qed.

Lemma bit_loop_spec x k : 0 < x -> Z.log2 x <= Z.of_nat k <= 31 -> bit_loop (S (S k)) (2 ^ Z.of_nat k) (31 - Z.of_nat k) x = Some (Z.log2 x + 1).
Proof.
  intros Hx. induction k as [|k IH]; intros Hk.
  - assert (x = 1) as -> by (pose proof (Z.log2_spec x Hx); pose proof (Z.log2_nonneg x); assert (Z.log2 x = 0) as E by lia; rw E in H; lia). done.
  - cbn [bit_loop]. destruct (Z.eqb_spec (Z.land (2 ^ Z.of_nat (S k)) x) 0) as [E|E].
    + assert (Z.log2 x <> Z.of_nat (S k)) as Hne.
      { intros El. pose proof (Z.bit_log2 x Hx) as Hb. rw El in Hb. assert (Z.testbit (Z.land (2 ^ Z.of_nat (S k)) x) (Z.of_nat (S k)) = true) as Ht
          by (rw Z.land_spec Z.pow2_bits_true; [by rw Hb|lia]). by rw E Z.bits_0 in Ht. }
      rw Z.shiftr_div_pow2; [|lia]. replace (2 ^ Z.of_nat (S k) / 2 ^ 1) with (2 ^ Z.of_nat k).
      * replace (31 - Z.of_nat (S k) + 1) with (31 - Z.of_nat k) by lia. apply IH. lia.
      * replace (Z.of_nat (S k)) with (Z.of_nat k + 1) by lia. rw Z.pow_add_r; [|lia|lia]. by rw Z.div_mul.
    + assert (Z.log2 x = Z.of_nat (S k)) as ->; [|f_equal; lia].
      destruct (Z.eq_dec (Z.log2 x) (Z.of_nat (S k))); [done|]. exfalso. apply E. apply Z.bits_inj'. intros i Hi. rw Z.land_spec Z.bits_0.
      destruct (Z.eq_dec i (Z.of_nat (S k))) as [->|]; [|rw Z.pow2_bits_false; [done|lia]]. rw (Z.bits_above_log2 x); [by rw andb_false_r|lia|lia].
Qed.
Lemma bit_number_spec x : 0 < x < 2 ^ 32 -> _bit_number x = Some (Z.log2 x + 1).
Proof.
  intros Hx. unfold _bit_number. change 33%nat with (S (S 31)). apply (bit_loop_spec x 31); [lia|]. pose proof (Z.log2_nonneg x).
  assert (Z.log2 x < 32) by (apply Z.log2_lt_pow2; lia). lia.
Qed.
(** There is no bit to find in 0. *)
Lemma bit_number_0 : _bit_number 0 = None.
Proof. done. Qed.

(** ** Bitmaps *)
Definition bit_at (e : zone_entry) (b : Z) : bool := Z.testbit (default 0 (bitmap e !! Z.to_nat (b / 64))) (63 - b mod 64).
Definition units_ok (e : zone_entry) : Prop := length (bitmap e) = 4%nat /\ Forall (fun u => 0 <= u) (bitmap e).

Lemma mask_pow2 i : 0 <= i < 64 -> mask i = 2 ^ (63 - i).
Proof.
  intros Hi. unfold mask, ZONE_BITMAP_UNIT_BITS. rw Z.shiftr_div_pow2; [|lia]. replace (64 - 1) with ((63 - i) + i) by lia.
  rw Z.pow_add_r; [|lia|lia]. rw Z.div_mul; [done|]. pose proof (Z.pow_pos_nonneg 2 i). lia.
Qed.
Lemma land_pow2 u i : 0 <= i -> (Z.land u (2 ^ i) =? 0) = negb (Z.testbit u i).
Proof.
  intros Hi. destruct (Z.eqb_spec (Z.land u (2 ^ i)) 0) as [E|E].
  - assert (Z.testbit (Z.land u (2 ^ i)) i = false) as Ht by (by rw E Z.bits_0). rw Z.land_spec Z.pow2_bits_true in Ht; [|done].
    rw andb_true_r in Ht. by rw Ht.
  - destruct (Z.testbit u i) eqn:Et; [done|]. exfalso. apply E. apply Z.bits_inj'. intros n Hn. rw Z.land_spec Z.bits_0.
    destruct (Z.eq_dec n i) as [->|]; [by rw Et|]. rw Z.pow2_bits_false; [by rw andb_false_r|lia].
Qed.
Lemma land_mask u i : 0 <= i < 64 -> (Z.land u (mask i) =? 0) = negb (Z.testbit u (63 - i)).
Proof. intros Hi. rw mask_pow2 // land_pow2; [done|lia]. Qed.

Lemma unit_lookup e b : units_ok e -> 0 <= b < 256 -> exists u, bitmap e !! Z.to_nat (b / 64) = Some u /\ 0 <= u /\ bit_at e b = Z.testbit u (63 - b mod 64).
Proof.
  intros [Hl Hf] Hb. assert (0 <= b / 64 < 4) as Hq by (split; [apply Z.div_pos; lia|apply Z.div_lt_upper_bound; lia]).
  destruct (lookup_lt_is_Some_2 (bitmap e) (Z.to_nat (b / 64))) as [u Hu]; [lia|]. exists u. split; [done|].
  split; [by apply (Forall_lookup_1 _ _ _ _ Hf Hu)|]. unfold bit_at. by rw Hu.
Qed.

(** Changing one bit. *)
Lemma bit_at_alter f e b c : units_ok e -> 0 <= b < 256 -> 0 <= c < 256 ->
  bit_at (map_unit f (Z.to_nat (b / 64)) e) c =
    if c / 64 =? b / 64 then Z.testbit (f (default 0 (bitmap e !! Z.to_nat (c / 64)))) (63 - c mod 64) else bit_at e c.
Proof.
  intros [Hl Hf] Hb Hc. unfold bit_at, map_unit. cbn [bitmap]. assert (0 <= b / 64) by (apply Z.div_pos; lia). assert (0 <= c / 64) by (apply Z.div_pos; lia).
  assert (c / 64 < 4) by (apply Z.div_lt_upper_bound; lia). destruct (Z.eqb_spec (c / 64) (b / 64)) as [E|E].
  - rw -E list_lookup_alter_eq. destruct (lookup_lt_is_Some_2 (bitmap e) (Z.to_nat (c / 64))) as [u ->]; [lia|done].
  - rw list_lookup_alter_ne; [done|lia].
Qed.
Lemma same_bit b c : b / 64 = c / 64 -> b mod 64 = c mod 64 -> b = c.
Proof. intros E1 E2. rw (Z.div_mod b 64) // (Z.div_mod c 64) //. lia. Qed.

Lemma set_bit e b c : units_ok e -> 0 <= b < 256 -> 0 <= c < 256 ->
  bit_at (map_unit (fun u => Z.lor u (mask (b mod 64))) (Z.to_nat (b / 64)) e) c = (c =? b) || bit_at e c.
Proof.
  intros He Hb Hc. rw bit_at_alter //. pose proof (Z.mod_pos_bound b 64 ltac:(lia)). pose proof (Z.mod_pos_bound c 64 ltac:(lia)).
  destruct (Z.eqb_spec (c / 64) (b / 64)) as [E|E].
  - rw Z.lor_spec mask_pow2 // Z.pow2_bits_eqb; [|lia]. unfold bit_at. rw orb_comm. f_equal.
    destruct (Z.eqb_spec (63 - b mod 64) (63 - c mod 64)) as [E2|E2]; symmetry; [apply Z.eqb_eq, same_bit; [done|lia]|apply Z.eqb_neq]. intros ->. lia.
  - destruct (Z.eqb_spec c b) as [->|]; [done|]. done.
Qed.
Lemma clear_bit e b c : units_ok e -> 0 <= b < 256 -> 0 <= c < 256 ->
  bit_at (map_unit (fun u => Z.land u (Z.lnot (mask (b mod 64)))) (Z.to_nat (b / 64)) e) c = negb (c =? b) && bit_at e c.
Proof.
  intros He Hb Hc. rw bit_at_alter //. pose proof (Z.mod_pos_bound b 64 ltac:(lia)). pose proof (Z.mod_pos_bound c 64 ltac:(lia)).
  destruct (Z.eqb_spec (c / 64) (b / 64)) as [E|E].
  - rw Z.land_spec Z.lnot_spec; [|lia]. rw mask_pow2 // Z.pow2_bits_eqb; [|lia]. unfold bit_at. rw andb_comm. do 2 f_equal.
    destruct (Z.eqb_spec (63 - b mod 64) (63 - c mod 64)) as [E2|E2]; symmetry; [apply Z.eqb_eq, same_bit; [done|lia]|apply Z.eqb_neq]. intros ->. lia.
  - destruct (Z.eqb_spec c b) as [->|]; [done|]. done.
Qed.
Lemma units_alter f e i : units_ok e -> (forall u, 0 <= u -> 0 <= f u) -> units_ok (map_unit f i e).
Proof.
  intros [Hl Hf] Hpos. split; cbn; [by rw length_alter|]. apply Forall_alter; [done|]. intros u Hu H0. by apply Hpos.
Qed.

(** ** The busy objects of an entry *)
Definition places (s : Z) : Z := 4096 / s.
Definition busy (e : zone_entry) (s : Z) : list Z := filter (fun b => bit_at e b = true) (seqZ 0 (places s)).

Lemma small_places s : small_size s -> 2 <= places s <= 256 /\ places s * s = 4096 /\ 16 <= s < 4096.
Proof.
  intros (k & Hk & ->). unfold places. assert (k = 4 \/ k = 5 \/ k = 6 \/ k = 7 \/ k = 8 \/ k = 9 \/ k = 10 \/ k = 11) as Hc by lia.
  by repeat destruct Hc as [->|Hc]; [..|subst k]; vm_compute.
Qed.
Lemma elem_of_busy e s b : b ∈ busy e s <-> bit_at e b = true /\ 0 <= b < places s.
Proof. unfold busy. rw list_elem_of_filter elem_of_seqZ. split; intros [? ?]; (split; [done|lia]). Qed.
Lemma NoDup_busy e s : NoDup (busy e s).
Proof. apply NoDup_filter, NoDup_seqZ. Qed.

Lemma busy_set e s b : units_ok e -> small_size s -> 0 <= b < places s -> bit_at e b = false ->
  busy (map_unit (fun u => Z.lor u (mask (b mod 64))) (Z.to_nat (b / 64)) e) s ≡ₚ b :: busy e s.
Proof.
  intros He Hs Hb Hfree. pose proof (small_places s Hs). apply NoDup_Permutation; [apply NoDup_busy| |].
  - constructor; [|apply NoDup_busy]. rw elem_of_busy Hfree. by intros [? _].
  - intros c. rw elem_of_cons !elem_of_busy. split.
    + intros [Hc Hr]. rw set_bit // in Hc; [|lia|lia]. apply orb_true_iff in Hc as [->%Z.eqb_eq|Hc]; [by left|by right].
    + intros Hc. assert (0 <= c < places s) as Hr by (destruct Hc as [->|[_ ?]]; done). split; [|done].
      rw set_bit //; [|lia|lia]. destruct Hc as [->|[-> _]]; [by rw Z.eqb_refl|by rw orb_true_r].
Qed.
Lemma busy_clear e s b : units_ok e -> small_size s -> 0 <= b < places s -> bit_at e b = true ->
  busy e s ≡ₚ b :: busy (map_unit (fun u => Z.land u (Z.lnot (mask (b mod 64)))) (Z.to_nat (b / 64)) e) s.
Proof.
  intros He Hs Hb Hset. pose proof (small_places s Hs). apply NoDup_Permutation; [apply NoDup_busy| |].
  - constructor; [|apply NoDup_busy]. rw elem_of_busy clear_bit //; [|lia|lia]. rw Z.eqb_refl. by intros [? _].
  - intros c. rw elem_of_cons !elem_of_busy. split.
    + intros [Hc Hr]. destruct (Z.eq_dec c b) as [->|Hne]; [by left|right]. split; [|done]. rw clear_bit //; [|lia|lia].
      rw Hc. destruct (Z.eqb_spec c b); done.
    + intros [->|[Hc Hr]]; [done|]. split; [|done]. rw clear_bit // in Hc; [|lia|lia]. by apply andb_true_iff in Hc as [_ ?].
Qed.

(** The place the scan of [_zone_entry_alloc] is at. *)
Definition scan_at (bit unit_bit : Z) (unit : nat) : Prop :=
  bit / 64 = Z.of_nat unit /\ bit mod 64 = unit_bit \/ unit_bit = 64 /\ bit = (Z.of_nat unit + 1) * 64.

Lemma free_bit_spec e max : units_ok e -> 0 <= max <= 256 -> forall fuel bit unit_bit unit, 0 <= bit <= max -> scan_at bit unit_bit unit ->
  max - bit < Z.of_nat fuel -> exists b ub u, free_bit fuel e max bit unit_bit unit = Some (b, ub, u) /\ bit <= b <= max /\
    (forall c, bit <= c < b -> bit_at e c = true) /\ (b < max -> bit_at e b = false /\ ub = b mod 64 /\ u = Z.to_nat (b / 64)).
Proof.
  intros He Hmax. induction fuel as [|fuel IH]; intros bit unit_bit unit Hb Hs Hf; [lia|]. cbn [free_bit].
  destruct (Z.ltb_spec bit max) as [Hlt|]; [|exists bit, unit_bit, unit; split; [done|]; split; [lia|]; split; [lia|lia]].
  assert ((if ZONE_BITMAP_UNIT_BITS <=? unit_bit then (0, S unit) else (unit_bit, unit)) = (bit mod 64, Z.to_nat (bit / 64))) as ->.
  { unfold ZONE_BITMAP_UNIT_BITS. destruct Hs as [[E1 <-]|[-> ->]].
    - pose proof (Z.mod_pos_bound bit 64 ltac:(lia)). destruct (Z.leb_spec 64 (bit mod 64)); [lia|]. by rw E1 Nat2Z.id.
    - rw Z.mod_mul // Z.div_mul //. cbn. f_equal. lia. }
  destruct (unit_lookup e bit He ltac:(lia)) as (u & -> & Hu & Hbit). pose proof (Z.mod_pos_bound bit 64 ltac:(lia)) as Hm.
  rw land_mask // -Hbit. destruct (bit_at e bit) eqn:Et; cbn [negb].
  - destruct (IH (bit + 1) (bit mod 64 + 1) (Z.to_nat (bit / 64))) as (b & ub & u' & E & Hr & Hc & Hend); [lia| |lia|].
    + assert (0 <= bit / 64) by (apply Z.div_pos; lia). unfold scan_at. rw Z2Nat.id //. pose proof (Z.div_mod bit 64 ltac:(lia)) as Ed.
      destruct (Z.eq_dec (bit mod 64) 63) as [E|E]; [right; lia|left].
      split; symmetry; [apply (Z.div_unique _ _ _ (bit mod 64 + 1)); lia|apply (Z.mod_unique _ _ (bit / 64)); lia].
    + exists b, ub, u'. split; [done|]. split; [lia|]. split; [|done]. intros c Hcr. destruct (Z.eq_dec c bit) as [->|]; [done|]. apply Hc. lia.
  - exists bit, (bit mod 64), (Z.to_nat (bit / 64)). split; [done|]. split; [lia|]. split; [lia|done].
Qed.

(** Everything is busy when the scan finds nothing. *)
Lemma busy_full e s : (forall c, 0 <= c < places s -> bit_at e c = true) -> length (busy e s) = Z.to_nat (places s).
Proof.
  intros Hall. unfold busy. assert (forall l, Forall (fun b => bit_at e b = true) l -> filter (fun b => bit_at e b = true) l = l) as Hf.
  { intros l Hl. induction Hl as [|c l Hc _ IH]; [done|]. by rw filter_cons_True // IH. }
  rw Hf; [by rw length_seqZ|]. apply Forall_forall. intros c Hc%elem_of_seqZ. apply Hall. lia.
Qed.
Lemma busy_bound e s : (length (busy e s) <= Z.to_nat (places s))%nat.
Proof. unfold busy. etransitivity; [apply length_filter|]. by rw length_seqZ. Qed.
