(* ===== verification/ZoneRep.v ===== *)
(** * Zone allocator: what a context stands for (core/mem/zone.c)

    A context stands for its chains of pages; the pages for the objects that are
    in use.  [zone_rep] says so, and that the context owns exactly the table, the
    zone pages and the data pages. *)
From S2P Require Import Prelude Memory Zone ZoneBits.
Set Default Goal Selector "!".

(** ** Objects and blocks *)
(** Zones 5 to 12 hold objects below a page. *)
Definition small_zone (i : nat) : bool := (i <=? 12)%nat.
Definition zone_size (i : nat) : Z := 2 ^ (Z.of_nat i - 1).
Definition class (s : Z) : nat := Z.to_nat (Z.log2 s + 1).

Definition entry_objs (i : nat) (e : zone_entry) : list block :=
  if small_zone i then map (fun b => (data e + b * zone_size i, zone_size i)) (busy e (zone_size i))
  else if e_objects e =? 0 then [] else [(data e, data_size e)].
Definition entry_blocks (i : nat) (e : zone_entry) : list block :=
  if data e =? 0 then [] else [(data e, if small_zone i then ZONE_PAGE_SIZE else data_size e)].
Definition page_objs (i : nat) (pg : zone_page) : list block := concat (map (entry_objs i) (array pg)).
Definition page_blocks (i : nat) (p : Z * zone_page) : list block :=
  (p.1, ZONE_PAGE_SIZE) :: concat (map (entry_blocks i) (array p.2)).

Definition chain : Type := list (Z * zone_page).
Definition zobjs (zs : list chain) : list block := concat (imap (fun i c => concat (map (fun p => page_objs i p.2) c)) zs).
Definition zblocks (zs : list chain) : list block := concat (imap (fun i c => concat (map (page_blocks i) c)) zs).

(** ** Well-formed pages *)
(** The sizes of zone [i]. *)
Definition sizes (i : nat) (s : Z) : Prop := (5 <= i <= 32)%nat /\
  (small_zone i = true /\ small_size s /\ zone_size i = s \/ small_zone i = false /\ page_size s /\ class s = i).

Definition entry_ok (i : nat) (e : zone_entry) : Prop :=
  units_ok e /\ 0 <= data e /\ e_objects e = Z.of_nat (length (entry_objs i e)) /\ (data e = 0 -> entry_objs i e = []) /\
  (small_zone i = false -> data e <> 0 -> e_objects e = 1 /\ page_size (data_size e) /\ class (data_size e) = i).
Definition page_ok (i : nat) (pg : zone_page) : Prop :=
  length (array pg) = ZONE_MAX_ENTRIES /\ Forall (entry_ok i) (array pg) /\ z_objects pg = Z.of_nat (length (page_objs i pg)) /\
  sizes i (object_size pg).
Definition head_addr (c : chain) : Z := match c with [] => 0 | p :: _ => p.1 end.
Fixpoint linked (c : chain) : Prop :=
  match c with [] => True | p :: c => next p.2 = head_addr c /\ linked c end.

Lemma class_small k : 4 <= k <= 11 -> class (2 ^ k) = Z.to_nat (k + 1).
Proof. intros Hk. unfold class. by rw Z.log2_pow2; [|lia]. Qed.
Lemma class_page s : page_size s -> (13 <= class s <= 32)%nat.
Proof.
  intros (n & Hn & ->). unfold class. assert (12 <= Z.log2 (n * 4096)) by (apply Z.log2_le_pow2; lia).
  assert (Z.log2 (n * 4096) < 32) by (apply Z.log2_lt_pow2; lia). lia.
Qed.
Lemma align_sizes n : 0 < n <= MAX_ALLOC -> n <= _align n /\ sizes (class (_align n)) (_align n).
Proof.
  intros Hn. destruct (align_spec n Hn) as [Hle [Hs|Hp]]; (split; [done|]).
  - destruct Hs as (k & Hk & ->). rw class_small //. split; [lia|]. left. split; [unfold small_zone; apply Nat.leb_le; lia|].
    split; [by exists k|]. unfold zone_size. f_equal. lia.
  - pose proof (class_page _ Hp). split; [lia|]. right. split; [unfold small_zone; apply Nat.leb_gt; lia|done].
Qed.
Lemma sizes_bounds i s : sizes i s -> 0 < s < 2 ^ 32.
Proof. intros [_ [(_ & Hs & _)|(_ & (n & Hn & ->) & _)]]; [pose proof (small_places s Hs)|]; lia. Qed.

(** ** One part of the whole *)
Lemma concat_focus {X Y} (f : X -> list Y) l i x : l !! i = Some x -> exists l1 l2,
  concat (map f l) = l1 ++ f x ++ l2 /\ forall x', concat (map f (<[i := x']> l)) = l1 ++ f x' ++ l2.
Proof.
  intros Hi. apply list_elem_of_split_length in Hi as (k1 & k2 & -> & ->).
  exists (concat (map f k1)), (concat (map f k2)). split; [by rw map_app concat_app|]. intros x'.
  rw -(Nat.add_0_r (length k1)) insert_app_r map_app concat_app. done.
Qed.
Lemma concat_ifocus {X Y} (f : nat -> X -> list Y) l i x : l !! i = Some x -> exists l1 l2,
  concat (imap f l) = l1 ++ f i x ++ l2 /\ forall x', concat (imap f (<[i := x']> l)) = l1 ++ f i x' ++ l2.
Proof.
  intros Hi. apply list_elem_of_split_length in Hi as (k1 & k2 & -> & ->).
  exists (concat (imap f k1)), (concat (imap (fun n => f (length k1 + S n)%nat) k2)). split.
  - rw imap_app concat_app. cbn. rw Nat.add_0_r. done.
  - intros x'. rw -(Nat.add_0_r (length k1)) insert_app_r imap_app concat_app. cbn. by rw !Nat.add_0_r.
Qed.

(** The chains, with the [j]th page of the [i]th one replaced. *)
Definition put (zs : list chain) (i j : nat) (p : Z * zone_page) : list chain := alter (insert j p) i zs.
Lemma put_alt zs i j c p : zs !! i = Some c -> put zs i j p = <[i := <[j := p]> c]> zs.
Proof. intros Hi. unfold put. by apply list_alter_Some. Qed.

Lemma zone_focus zs i j c p : zs !! i = Some c -> c !! j = Some p -> exists B1 B2 O1 O2,
  zblocks zs = B1 ++ page_blocks i p ++ B2 /\ zobjs zs = O1 ++ page_objs i p.2 ++ O2 /\
  forall p', zblocks (put zs i j p') = B1 ++ page_blocks i p' ++ B2 /\ zobjs (put zs i j p') = O1 ++ page_objs i p'.2 ++ O2.
Proof.
  intros Hi Hj. destruct (concat_ifocus (fun i c => concat (map (page_blocks i) c)) zs i c Hi) as (b1 & b2 & Eb & Hb).
  destruct (concat_ifocus (fun i c => concat (map (fun p => page_objs i p.2) c)) zs i c Hi) as (o1 & o2 & Eo & Ho).
  destruct (concat_focus (page_blocks i) c j p Hj) as (b3 & b4 & Eb2 & Hb2).
  destruct (concat_focus (fun p => page_objs i p.2) c j p Hj) as (o3 & o4 & Eo2 & Ho2).
  exists (b1 ++ b3), (b4 ++ b2), (o1 ++ o3), (o4 ++ o2). unfold zblocks, zobjs. rw Eb Eb2 Eo Eo2 -!app_assoc.
  split; [done|]. split; [done|]. intros p'. rw (put_alt zs i j c) // Hb Hb2 Ho Ho2. by rw -!app_assoc.
Qed.

Section rep.
Context {A : Type} `{AllocatorLaws A}.
Context (a0 : A).
Implicit Types z : zone_context A.

Record zone_rep (z : zone_context A) (zs : list chain) : Prop := {
  zr_zones : zones z <> 0;
  zr_length : length zs = Z.to_nat ZONE_MAX_ZONES;
  zr_table : table z = map head_addr zs;
  zr_pages : zpages z = list_to_map (concat zs);
  zr_linked : Forall linked zs;
  zr_ok : forall i c, zs !! i = Some c -> Forall (fun p => page_ok i p.2) c;
  zr_own : grown a0 (page_heap z) ((zones z, ZONE_PAGE_SIZE) :: zblocks zs)
}.

Lemma chain_nodup zs B : NoDup (B ++ zblocks zs).*1 -> NoDup (concat zs).*1.
Proof.
  rw fmap_app. intros (_ & _ & Hd)%NoDup_app. eapply sublist_NoDup; [exact Hd|]. unfold zblocks. clear Hd.
  assert (forall zs (g : nat -> nat), sublist (concat zs).*1 (concat (imap (fun i c => concat (map (page_blocks (g i)) c)) zs)).*1) as Hsub;
    [|apply (Hsub zs (fun i => i))].
  clear. intros zs. induction zs as [|c zs IH]; intros g; [done|]. cbn. rw !fmap_app. apply sublist_app; [|apply (IH (fun i => g (S i)))].
  induction c as [|[p pg] c IHc]; [done|]. cbn. apply sublist_skip. rw fmap_app. by apply sublist_inserts_l.
Qed.
Lemma rep_nodup z zs : zone_rep z zs -> NoDup (concat zs).*1.
Proof. intros Hr. apply (chain_nodup zs [(zones z, ZONE_PAGE_SIZE)]). apply (gr_nodup _ _ _ (zr_own _ _ Hr)). Qed.
Lemma elem_of_chains {X} (zs : list (list X)) i j c p : zs !! i = Some c -> c !! j = Some p -> p ∈ concat zs.
Proof.
  intros Hi Hj. apply list_elem_of_In, List.in_concat. exists c.
  split; apply list_elem_of_In; by eapply list_elem_of_lookup_2.
Qed.
Lemma rep_lookup z zs i j c p : zone_rep z zs -> zs !! i = Some c -> c !! j = Some p -> zpages z !! p.1 = Some p.2.
Proof.
  intros Hr Hi Hj. rw (zr_pages _ _ Hr). apply elem_of_list_to_map; [by eapply rep_nodup|]. destruct p. by eapply elem_of_chains.
Qed.
(** Addresses of blocks are not NULL. *)
Lemma grown_pos a bl p n : grown a0 a bl -> (p, n) ∈ bl -> 0 < p.
Proof.
  intros Hg Hin. apply (live_pos a p n); [apply Hg|]. rw (gr_live _ _ _ Hg). apply lookup_union_Some_l.
  apply elem_of_list_to_map; [apply Hg|done].
Qed.
Lemma chain_pos z zs i j c p : zone_rep z zs -> zs !! i = Some c -> c !! j = Some p -> 0 < p.1.
Proof.
  intros Hr Hi Hj. destruct (zone_focus zs i j c p Hi Hj) as (B1 & B2 & O1 & O2 & EB & _). eapply (grown_pos _ _ p.1 ZONE_PAGE_SIZE (zr_own _ _ Hr)).
  rw EB. right. apply elem_of_app. right. apply elem_of_app. left. left.
Qed.

(** Replacing a chain. *)
Lemma rep_chain z zs i c c' z' : zone_rep z zs -> zs !! i = Some c -> linked c' -> Forall (fun p => page_ok i p.2) c' ->
  zones z' = zones z -> table z' = <[i := head_addr c']> (table z) -> zpages z' = list_to_map (concat (<[i := c']> zs)) ->
  grown a0 (page_heap z') ((zones z, ZONE_PAGE_SIZE) :: zblocks (<[i := c']> zs)) -> zone_rep z' (<[i := c']> zs).
Proof.
  intros Hr Hi Hl Hok Ez Et Ep Hg. split; [by rw Ez; apply Hr|by rw length_insert; apply Hr| |done| | |by rw Ez].
  - rw Et (zr_table _ _ Hr). symmetry. apply list_fmap_insert.
  - apply Forall_insert; [apply Hr|done].
  - intros k d Hk. destruct (decide (i = k)) as [<-|Hne].
    + rw list_lookup_insert_eq in Hk; [by injection Hk as <-|by eapply lookup_lt_Some].
    + rw list_lookup_insert_ne // in Hk. by eapply zr_ok.
Qed.

Lemma list_to_map_put (l1 l2 : chain) a pg pg' : NoDup (l1 ++ (a, pg) :: l2).*1 ->
  <[a := pg']> (list_to_map (l1 ++ (a, pg) :: l2)) = list_to_map (l1 ++ (a, pg') :: l2) :> gmap Z zone_page.
Proof.
  intros Hd. rw !list_to_map_app !list_to_map_cons. rw fmap_app in Hd. apply NoDup_app in Hd as (_ & Hd & _).
  rw insert_union_r; [by rw insert_insert_eq|]. apply not_elem_of_list_to_map. intros Hin. by destruct (Hd a Hin); left.
Qed.

(** Replacing one page. *)
Lemma linked_put c j p pg' : linked c -> c !! j = Some p -> next pg' = next p.2 -> linked (<[j := (p.1, pg')]> c) /\ head_addr (<[j := (p.1, pg')]> c) = head_addr c.
Proof.
  revert j. induction c as [|q c IH]; intros j Hl Hj Hn; [done|]. destruct j as [|j]; cbn in *.
  - injection Hj as ->. by rw Hn.
  - destruct Hl as [Hq Hl]. destruct (IH j Hl Hj Hn) as [Hl' Hh]. by rw Hh.
Qed.
Lemma rep_put z zs i j c p pg' z' : zone_rep z zs -> zs !! i = Some c -> c !! j = Some p -> page_ok i pg' -> next pg' = next p.2 ->
  zones z' = zones z -> table z' = table z -> zpages z' = <[p.1 := pg']> (zpages z) ->
  grown a0 (page_heap z') ((zones z, ZONE_PAGE_SIZE) :: zblocks (put zs i j (p.1, pg'))) -> zone_rep z' (put zs i j (p.1, pg')).
Proof.
  intros Hr Hi Hj Hok Hn Ez Et Ep Hg. rw (put_alt zs i j c) // in Hg |- *.
  destruct (linked_put c j p pg') as [Hl Hh]; [by eapply (Forall_lookup_1 _ _ _ _ (zr_linked _ _ Hr))|done|done|].
  apply (rep_chain z zs i c); [done|done|done| |done| | |done].
  - apply Forall_insert; [by eapply zr_ok|done].
  - rw Hh Et. symmetry. apply list_insert_id. rw (zr_table _ _ Hr). by rw list_lookup_fmap Hi.
  - rw Ep (zr_pages _ _ Hr). destruct (concat_focus (fun c => c) zs i c Hi) as (x1 & x2 & E1 & E2).
    destruct (concat_focus (fun q => [q]) c j p Hj) as (y1 & y2 & F1 & F2).
    assert (forall l : chain, concat (map (fun q => [q]) l) = l) as Hid by (induction l as [|q l IH]; [done|]; cbn; by rw IH).
    rw !map_id in E1, E2. rw Hid in F1. destruct p as [a pg]. cbn [fst] in *.
    assert (concat zs = (x1 ++ y1) ++ (a, pg) :: y2 ++ x2) as E by (rw E1; rw {1}F1; by rw -!app_assoc).
    assert (concat (<[i := <[j := (a, pg')]> c]> zs) = (x1 ++ y1) ++ (a, pg') :: y2 ++ x2) as E'.
    { specialize (E2 (<[j := (a, pg')]> c)). rw map_id in E2. rw E2. specialize (F2 (a, pg')). rw Hid in F2. rw F2. by rw -!app_assoc. }
    pose proof (rep_nodup _ _ Hr) as Hd. rw E in Hd |- *. rw E'. by apply list_to_map_put.
Qed.
End rep.
