(* ===== verification/ZoneProof.v ===== *)
(** * Zone allocator: the operations (core/mem/zone.c)

    Each operation as a total-correctness triple against the objects in use:
    [zone_alloc] adds one of the aligned size or none, [zone_free] removes the
    one it is given, [zone_verify] recognises exactly the objects of the size
    class. *)
From S2P Require Import Prelude Memory Zone ZoneBits ZoneRep.
Set Default Goal Selector "!".

Section ops.
Context {A : Type} `{AllocatorLaws A}.
Context (a0 : A).
Implicit Types z : zone_context A.

(** Some request for pages was refused. *)
Definition refused : Prop := exists (a : A) n, a_ok a /\ 0 < n /\ (a_alloc a n).1 = 0.

(** ** Steps *)
Lemma wp_get_page p pg z (Q : zone_page -> zone_context A -> Prop) : zpages z !! p = Some pg -> Q pg z -> wp (get_page p) z Q.
Proof. intros Hp HQ. unfold wp, get_page. by rw Hp. Qed.
Lemma wp_put_page p pg pg' z (Q : unit -> zone_context A -> Prop) : zpages z !! p = Some pg ->
  Q tt (set_pages (<[p := pg']> (zpages z)) z) -> wp (put_page p pg') z Q.
Proof. intros Hp HQ. unfold wp, put_page. by rw Hp. Qed.
Lemma wp_page_alloc n z bl (Q : Z -> zone_context A -> Prop) : grown a0 (page_heap z) bl -> 0 < n ->
  (forall a, grown a0 a bl -> refused -> Q 0 (set_heap a z)) ->
  (forall p a, 0 < p -> grown a0 a ((p, n * ZONE_PAGE_SIZE) :: bl) -> Q p (set_heap a z)) -> wp (pf_page_alloc n) z Q.
Proof.
  intros Hg Hn HQ0 HQ. assert (0 < n * ZONE_PAGE_SIZE) as Hn' by (unfold ZONE_PAGE_SIZE; lia). unfold wp, pf_page_alloc.
  destruct (grown_alloc a0 (page_heap z) bl (n * ZONE_PAGE_SIZE) Hg Hn') as [[E Hg']|[Hp Hg']];
    destruct (a_alloc (page_heap z) (n * ZONE_PAGE_SIZE)) as [p a] eqn:Ea; cbn in *; [|by apply HQ].
  subst p. apply HQ0; [done|]. exists (page_heap z), (n * ZONE_PAGE_SIZE). rw Ea. by split; [apply Hg|].
Qed.
Lemma wp_page_free p n z bl (Q : unit -> zone_context A -> Prop) : grown a0 (page_heap z) ((p, n * ZONE_PAGE_SIZE) :: bl) ->
  (forall a, grown a0 a bl -> Q tt (set_heap a z)) -> wp (pf_page_free p n) z Q.
Proof.
  intros Hg HQ. destruct (grown_free a0 _ _ _ _ Hg) as [Hl Hg']. unfold wp, pf_page_free. rw decide_True; [by apply HQ|done].
Qed.

Definition upd_entry (k : nat) (e : zone_entry) (pg : zone_page) : zone_page := mkPage (next pg) (z_objects pg) (object_size pg) (<[k := e]> (array pg)).
(** The context after an entry of the page at [p] was changed. *)
Definition with_entry (p : Z) (k : nat) (e : zone_entry) (pg : zone_page) (a : A) z : zone_context A :=
  mkZone (zones z) (table z) (<[p := upd_entry k e pg]> (zpages z)) (z_locked z) a.
Lemma upd_entry_get k e e1 pg : array pg !! k = Some e -> array (upd_entry k e1 pg) !! k = Some e1.
Proof. intros Hk. cbn. by eapply list_lookup_here. Qed.
Lemma with_entry_twice p k e1 e2 pg a1 a2 z : with_entry p k e2 (upd_entry k e1 pg) a2 (with_entry p k e1 pg a1 z) = with_entry p k e2 pg a2 z.
Proof. unfold with_entry, upd_entry. cbn. by rw list_insert_insert_eq insert_insert_eq. Qed.

Lemma wp_get_entry p k pg e z (Q : zone_entry -> zone_context A -> Prop) : zpages z !! p = Some pg -> array pg !! k = Some e ->
  Q e z -> wp (get_entry p k) z Q.
Proof. intros Hp Hk HQ. unfold get_entry. apply wp_bind, (wp_get_page p pg); [done|]. by eapply wp_lift_opt. Qed.
Lemma wp_put_entry p k pg e z (Q : unit -> zone_context A -> Prop) : zpages z !! p = Some pg ->
  Q tt (with_entry p k e pg (page_heap z) z) -> wp (put_entry p k e) z Q.
Proof. intros Hp HQ. unfold put_entry. apply wp_bind, (wp_get_page p pg); [done|]. by eapply wp_put_page. Qed.

(** ** Entries *)
Lemma entry_objs_small i e : small_zone i = true -> entry_objs i e = map (fun b => (data e + b * zone_size i, zone_size i)) (busy e (zone_size i)).
Proof. intros Hi. unfold entry_objs. by rw Hi. Qed.
Lemma entry_objs_page i e : small_zone i = false -> entry_objs i e = if e_objects e =? 0 then [] else [(data e, data_size e)].
Proof. intros Hi. unfold entry_objs. by rw Hi. Qed.

(** Outcomes of an allocation in an entry. *)
Definition entry_alloc_post (p : Z) (i k : nat) (s : Z) (e : zone_entry) (pg : zone_page) z (F : list block) (r : Z) z' : Prop :=
  exists e' a, z' = with_entry p k e' pg a z /\ entry_ok i e' /\ grown a0 a (entry_blocks i e' ++ F) /\
    (r = 0 /\ refused /\ entry_objs i e' = entry_objs i e \/ 0 < r /\ entry_objs i e' ≡ₚ (r, s) :: entry_objs i e).

(** The data of an entry, allocated when there is none. *)
Lemma entry_data_spec p k n e pg z F (Q : Z -> zone_context A -> Prop) : zpages z !! p = Some pg -> array pg !! k = Some e -> 0 < n ->
  0 <= data e -> grown a0 (page_heap z) ((if data e =? 0 then [] else [(data e, n * ZONE_PAGE_SIZE)]) ++ F) ->
  (forall a, data e = 0 -> refused -> grown a0 a F -> Q 0 (with_entry p k e pg a z)) ->
  (forall d a z', 0 < d -> (data e = 0 \/ d = data e) -> grown a0 a ((d, n * ZONE_PAGE_SIZE) :: F) ->
     z' = with_entry p k (set_data d e) pg a z -> Q d z') ->
  wp (entry_data p k n) z Q.
Proof.
  intros Hp Hk Hn Hd Hg HQ0 HQ. unfold entry_data. apply wp_bind, (wp_get_entry p k pg e); [done|done|].
  destruct (Z.eqb_spec (data e) 0) as [Ez|Ez]; cbn [negb app] in *.
  - apply wp_bind. eapply wp_page_alloc; [exact Hg|done| |].
    + intros a Hg' Hrf. apply wp_bind, (wp_put_entry p k pg); [done|]. apply wp_ret.
      replace (set_data 0 e) with e by (rw -Ez; by destruct e). by apply HQ0.
    + intros d a Hpos Hg'. apply wp_bind, (wp_put_entry p k pg); [done|]. apply wp_ret. eapply HQ; [done|by left|exact Hg'|done].
  - apply wp_ret. eapply (HQ (data e) (page_heap z)); [lia|by right|exact Hg|]. replace (set_data (data e) e) with e by by destruct e.
    unfold with_entry. assert (upd_entry k e pg = pg) as -> by (unfold upd_entry; rw list_insert_id //; by destruct pg).
    rw insert_id //. by destruct z.
Qed.

(** An object below a page. *)
Lemma entry_alloc_small p i k s e pg z F : zpages z !! p = Some pg -> array pg !! k = Some e -> entry_ok i e ->
  small_zone i = true -> small_size s -> zone_size i = s -> e_objects e < places s ->
  grown a0 (page_heap z) (entry_blocks i e ++ F) -> wp (_zone_entry_alloc p k s) z (entry_alloc_post p i k s e pg z F).
Proof.
  intros Hp Hk (Hu & Hd & Ho & Hz & _) Hi Hs <- Hroom Hg. set (s := zone_size i) in *. pose proof (small_places s Hs) as (Hpl & Hmul & Hb).
  rw entry_objs_small // length_map in Ho. fold s in Ho. unfold _zone_entry_alloc. apply wp_bind, (wp_get_entry p k pg e); [done|done|].
  unfold ZONE_PAGE_SIZE at 1 2. destruct (Z.ltb_spec s 4096); [|lia]. fold (places s).
  destruct (free_bit_spec e (places s) Hu ltac:(lia) 257 0 0 0) as (b & ub & u & E & Hbr & Hset & Hend); [lia|by left|lia|].
  apply wp_bind. eapply wp_lift_opt; [exact E|]. cbv beta iota.
  destruct (Z.ltb_spec b (places s)) as [Hlt|Hge].
  2: { exfalso. assert (length (busy e s) = Z.to_nat (places s)) as El by (apply busy_full; intros c Hc; apply Hset; lia). lia. }
  destruct (Hend Hlt) as (Hfree & -> & ->). apply wp_bind.
  unfold entry_blocks in Hg. rw Hi in Hg. eapply (entry_data_spec p k 1 e pg z F); [done|done|done|done|exact Hg| |].
  - intros a Ez Hrf Hg'. cbn [Z.eqb negb]. apply wp_ret. exists e, a. split; [done|]. split.
    { split; [done|]. split; [done|]. rw entry_objs_small // length_map. fold s. split; [done|]. split; [|by rw Hi].
      intros _. rw -entry_objs_small //. by apply Hz. }
    split; [unfold entry_blocks; by rw Ez|]. by left.
  - intros d a z1 Hpos Hde Hg1 Ez1. destruct (Z.eqb_spec d 0); [lia|]. cbn [negb]. set (e1 := set_data d e) in *.
    assert (zpages z1 !! p = Some (upd_entry k e1 pg)) as Hp1 by (subst z1; cbn; by rw lookup_insert_eq).
    apply wp_bind. eapply wp_get_entry; [exact Hp1|by eapply (upd_entry_get k e)|]. apply wp_bind.
    eapply wp_put_entry; [exact Hp1|]. apply wp_ret. subst z1. rw with_entry_twice. cbn [page_heap with_entry].
    set (e2 := set_eobjects _ _). exists e2, a. split; [done|].
    assert (units_ok e1) as Hu1 by done. assert (bit_at e1 b = false) as Hf1 by done.
    assert (busy e2 s ≡ₚ b :: busy e s) as Hbusy by (apply (busy_set e1 s b Hu1 Hs); [lia|done]).
    assert (entry_objs i e2 ≡ₚ (d + b * s, s) :: entry_objs i e) as Hobjs.
    { rw !entry_objs_small //. fold s. cbn [data e2]. rw Hbusy. cbn [map]. apply Permutation_cons; [done|].
      destruct Hde as [Ez| ->]; [|done]. specialize (Hz Ez). rw entry_objs_small // in Hz. fold s in Hz. by destruct (busy e s). }
    assert (u32 (b * s) = b * s) as -> by (rw u32_small; nia).
    split; [|split].
    + split; [apply units_alter; [done|]; intros u Hu'; apply Z.lor_nonneg; split; [done|unfold mask; apply Z.shiftr_nonneg; done]|].
      split; [cbn; lia|]. pose proof (Permutation_length Hobjs) as El. rw El. cbn [length data e2 e_objects set_eobjects]. rw entry_objs_small // length_map. fold s.
      split; [|split; [intros Ez; cbn in Ez; lia|by rw Hi]].
      change (e_objects e1) with (e_objects e). rw u32_small; lia.
    + unfold entry_blocks. rw Hi. cbn [data e2]. destruct (Z.eqb_spec (data e2) 0) as [Ez|]; [cbn in Ez; lia|]. exact Hg1.
    + right. split; [nia|done].
Qed.

(** Whole pages. *)
Lemma page_multiple s : page_size s -> 0 < s / ZONE_PAGE_SIZE /\ s / ZONE_PAGE_SIZE * ZONE_PAGE_SIZE = s /\ (s <? ZONE_PAGE_SIZE) = false.
Proof. intros (n & Hn & ->). unfold ZONE_PAGE_SIZE. rw Z.div_mul //. split; [lia|]. split; [lia|]. apply Z.ltb_ge. lia. Qed.

Lemma entry_alloc_page p i k s e pg z F : zpages z !! p = Some pg -> array pg !! k = Some e -> entry_ok i e ->
  small_zone i = false -> page_size s -> class s = i -> e_objects e < 1 ->
  grown a0 (page_heap z) (entry_blocks i e ++ F) -> wp (_zone_entry_alloc p k s) z (entry_alloc_post p i k s e pg z F).
Proof.
  intros Hp Hk (Hu & Hd & Ho & Hz & Hpg) Hi Hs Hcl Hroom Hg. destruct (page_multiple s Hs) as (Hn & Hmul & Hlt).
  assert (e_objects e = 0) as E0 by lia. assert (data e = 0) as Ed.
  { destruct (Z.eq_dec (data e) 0); [done|]. destruct (Hpg Hi n) as [? _]. lia. }
  unfold _zone_entry_alloc. apply wp_bind, (wp_get_entry p k pg e); [done|done|]. rw Hlt E0. cbn [Z.eqb]. apply wp_bind.
  unfold entry_blocks in Hg. rw Ed in Hg. eapply (entry_data_spec p k (s / ZONE_PAGE_SIZE) e pg z F); [done|done|done|done|by rw Ed| |].
  - intros a _ Hrf Hg'. cbn [Z.eqb negb]. apply wp_ret. exists e, a. split; [done|]. split; [by split_and!|].
    split; [unfold entry_blocks; by rw Ed|]. by left.
  - intros d a z1 Hpos _ Hg1 Ez1. destruct (Z.eqb_spec d 0); [lia|]. cbn [negb]. set (e1 := set_data d e) in *.
    assert (zpages z1 !! p = Some (upd_entry k e1 pg)) as Hp1 by (subst z1; cbn; by rw lookup_insert_eq).
    apply wp_bind. eapply wp_get_entry; [exact Hp1|by eapply (upd_entry_get k e)|]. apply wp_bind.
    eapply wp_put_entry; [exact Hp1|]. apply wp_ret. subst z1. rw with_entry_twice. cbn [page_heap with_entry].
    set (e2 := set_data_size _ _). exists e2, a. split; [done|].
    assert (data_size e2 = s) as Es.
    { unfold data_size, e2, set_data_size. cbn. destruct Hu as [Hl _]. rw list_lookup_insert_eq; [done|lia]. }
    assert (entry_objs i e2 = [(d, s)]) as Hobjs by (rw entry_objs_page //; cbn; by rw Es).
    split; [|split].
    + split; [split; cbn; [rw length_insert; apply Hu|apply Forall_insert; [apply Hu|]; destruct Hs as (m & Hm & ->); lia]|].
      split; [cbn; lia|]. rw Hobjs. split; [done|]. split; [intros Ez; cbn in Ez; lia|]. intros _ _. by rw Es.
    + unfold entry_blocks. rw Hi Es. cbn [data e2 set_data_size set_eobjects e1 set_data]. destruct (Z.eqb_spec d 0); [lia|]. by rw Hmul in Hg1.
    + right. split; [done|]. rw Hobjs. by rw (entry_objs_page i e) // E0.
Qed.

Lemma entry_alloc_spec p i k s e pg z F : zpages z !! p = Some pg -> array pg !! k = Some e -> entry_ok i e ->
  sizes i s -> e_objects e < max_entry_objects s ->
  grown a0 (page_heap z) (entry_blocks i e ++ F) -> wp (_zone_entry_alloc p k s) z (entry_alloc_post p i k s e pg z F).
Proof.
  intros Hp Hk He [_ Hs] Hroom Hg. unfold max_entry_objects in Hroom. destruct Hs as [(Hi & Hs & Ez)|(Hi & Hs & Hc)].
  - pose proof (small_places s Hs) as (_ & _ & Hb). unfold ZONE_PAGE_SIZE in Hroom. destruct (Z.ltb_spec s 4096); [|lia]. by apply entry_alloc_small.
  - destruct (page_multiple s Hs) as (_ & _ & Hlt). rw Hlt in Hroom. by apply entry_alloc_page.
Qed.

(** ** Pages *)
Lemma first_room_spec l max i : match first_room l max i with
  | Some n => exists k e, n = (i + k)%nat /\ l !! k = Some e /\ e_objects e < max
  | None => Forall (fun e => max <= e_objects e) l
  end.
Proof.
  revert i. induction l as [|e l IH]; intros i; cbn [first_room]; [constructor|]. destruct (Z.ltb_spec (e_objects e) max).
  - exists 0%nat, e. by rw Nat.add_0_r.
  - specialize (IH (S i)). destruct (first_room l max (S i)) as [n|].
    + destruct IH as (k & e' & -> & Hk & He). exists (S k), e'. split; [lia|done].
    + by constructor.
Qed.

(** A page without room is full. *)
Lemma max_objects_alt s i : sizes i s -> max_objects s = 63 * max_entry_objects s.
Proof.
  intros [_ Hs]. unfold max_objects, max_entry_objects. change (Z.of_nat ZONE_MAX_ENTRIES) with 63. destruct Hs as [(_ & Hs & _)|(_ & Hs & _)].
  - pose proof (small_places s Hs) as (_ & Hm & Hb). unfold ZONE_PAGE_SIZE. destruct (Z.ltb_spec s 4096); [|lia]. fold (places s).
    replace (63 * 4096) with (63 * places s * s) by lia. by rw Z.div_mul; [|lia].
  - destruct (page_multiple s Hs) as (_ & _ & ->). done.
Qed.
Lemma objs_length_ge i l m : Forall (entry_ok i) l -> Forall (fun e => m <= e_objects e) l ->
  Z.of_nat (length l) * m <= Z.of_nat (length (concat (map (entry_objs i) l))).
Proof.
  intros Hok Hm. induction l as [|e l IH]; [done|]. apply Forall_cons in Hok as [(_ & _ & Ho & _) Hok]. apply Forall_cons in Hm as [He Hm].
  specialize (IH Hok Hm). cbn. rw length_app. lia.
Qed.
Lemma objs_length_le i s l : Forall (entry_ok i) l -> sizes i s ->
  Z.of_nat (length (concat (map (entry_objs i) l))) <= Z.of_nat (length l) * max_entry_objects s.
Proof.
  intros Hok Hs. induction Hok as [|e l He Hok IH]; [done|]. cbn. rw length_app.
  assert (Z.of_nat (length (entry_objs i e)) <= max_entry_objects s); [|lia]. destruct Hs as [_ Hs]. unfold max_entry_objects.
  destruct Hs as [(Hi & Hs & Ez)|(Hi & Hs & _)].
  - pose proof (small_places s Hs) as (Hpl & _ & Hb). unfold ZONE_PAGE_SIZE. destruct (Z.ltb_spec s 4096); [|lia]. fold (places s).
    rw entry_objs_small // length_map Ez. pose proof (busy_bound e s). lia.
  - destruct (page_multiple s Hs) as (_ & _ & ->). rw entry_objs_page //. destruct (e_objects e =? 0); cbn; lia.
Qed.
Lemma page_room i s pg : page_ok i pg -> sizes i s -> z_objects pg <> max_objects s ->
  exists k e, first_room (array pg) (max_entry_objects s) 0 = Some k /\ array pg !! k = Some e /\ e_objects e < max_entry_objects s.
Proof.
  intros (Hl & Hok & Ho & _) Hs Hne. pose proof (first_room_spec (array pg) (max_entry_objects s) 0) as Hf.
  destruct (first_room (array pg) (max_entry_objects s) 0) as [n|]; [destruct Hf as (k & e & -> & Hk & He); by exists k, e|]. exfalso. apply Hne.
  rw Ho (max_objects_alt s i Hs). unfold page_objs. pose proof (objs_length_ge i _ _ Hok Hf). pose proof (objs_length_le i s _ Hok Hs).
  rw Hl in H2, H1. change (Z.of_nat ZONE_MAX_ENTRIES) with 63 in *. lia.
Qed.

(** ** Chains *)
Lemma blank_entry_ok i : entry_ok i blank_entry /\ entry_objs i blank_entry = [] /\ entry_blocks i blank_entry = [].
Proof.
  assert (entry_objs i blank_entry = []) as E.
  { unfold entry_objs. destruct (small_zone i); [|done]. assert (busy blank_entry (zone_size i) = []) as ->; [|done].
    destruct (busy blank_entry (zone_size i)) as [|b l] eqn:Eb; [done|]. exfalso. assert (b ∈ busy blank_entry (zone_size i)) as Hb by (rw Eb; left).
    apply elem_of_busy in Hb as [Hb _]. unfold bit_at in Hb. cbn -[Z.to_nat Z.div] in Hb.
    destruct (Z.to_nat (b / 64)) as [|[|[|[|?]]]]; cbn in Hb; by rw Z.bits_0 in Hb. }
  split; [|done]. split; [split; [done|by repeat constructor]|]. split; [done|]. rw E. by split_and!.
Qed.
Lemma concat_blank {X} (f : zone_entry -> list X) n : f blank_entry = [] -> concat (map f (replicate n blank_entry)) = [].
Proof. intros Hf. induction n as [|n IH]; [done|]. cbn. by rw Hf IH. Qed.
Lemma blank_page_ok i s : sizes i s -> page_ok i (blank_page s) /\ page_objs i (blank_page s) = [].
Proof.
  intros Hs. destruct (blank_entry_ok i) as (He & Ho & Hb). assert (page_objs i (blank_page s) = []) as E by by apply concat_blank.
  split; [|done]. split; [by rw length_replicate|]. split; [by apply Forall_replicate|]. by rw E.
Qed.
Lemma blank_page_blocks i q s : page_blocks i (q, blank_page s) = [(q, ZONE_PAGE_SIZE)].
Proof. unfold page_blocks. cbn [fst snd array blank_page]. by rw concat_blank. Qed.

Definition set_page_next (q : Z) (pg : zone_page) : zone_page := mkPage q (z_objects pg) (object_size pg) (array pg).

Lemma linked_app c1 p c2 : linked (c1 ++ p :: c2) -> next p.2 = head_addr c2 /\ linked c2.
Proof. induction c1 as [|q c1 IH]; cbn; [done|]. intros [_ Hl]. by apply IH. Qed.
Lemma linked_snoc c p q pg : linked (c ++ [p]) -> next pg = 0 -> linked (c ++ [(p.1, set_page_next q p.2); (q, pg)]).
Proof.
  intros Hl Hn. induction c as [|r c IH]; cbn in *; [by rw Hn|]. destruct Hl as [Hr Hl]. split; [|by apply IH]. rw Hr. by destruct c.
Qed.

(** A page behind the last one of a chain. *)
Lemma zrep_append z zs i c p q s z' : zone_rep a0 z zs -> zs !! i = Some (c ++ [p]) -> sizes i s ->
  zones z' = zones z -> table z' = table z -> zpages z' = <[p.1 := set_page_next q p.2]> (<[q := blank_page s]> (zpages z)) ->
  grown a0 (page_heap z') ((q, ZONE_PAGE_SIZE) :: (zones z, ZONE_PAGE_SIZE) :: zblocks zs) ->
  let c' := c ++ [(p.1, set_page_next q p.2); (q, blank_page s)] in
  zone_rep a0 z' (<[i := c']> zs) /\ zobjs (<[i := c']> zs) = zobjs zs.
Proof.
  intros Hr Hi Hs Ez Et Ep Hg c'.
  destruct (concat_ifocus (fun i c => concat (map (page_blocks i) c)) zs i _ Hi) as (b1 & b2 & Eb & Hb).
  destruct (concat_ifocus (fun i c => concat (map (fun p => page_objs i p.2) c)) zs i _ Hi) as (o1 & o2 & Eo & Ho).
  destruct (concat_focus (fun c => c) zs i _ Hi) as (x1 & x2 & Ex & Hx). rw map_id in Ex.
  destruct (blank_page_ok i s Hs) as [Hbo Hbb]. destruct p as [a pg]. cbn [fst snd] in *.
  assert (zblocks (<[i := c']> zs) ≡ₚ (q, ZONE_PAGE_SIZE) :: zblocks zs) as Hblocks.
  { unfold zblocks. rw Hb Eb. unfold c'. rw !map_app !concat_app. cbn [map concat]. rw blank_page_blocks !app_nil_r.
    change (page_blocks i (a, set_page_next q pg)) with (page_blocks i (a, pg)). solve_Permutation. }
  split; [|unfold zobjs; rw Ho Eo; unfold c'; rw !map_app !concat_app; cbn [map concat snd]; rw Hbb; by rw !app_nil_r].
  assert (grown a0 (page_heap z') ((zones z, ZONE_PAGE_SIZE) :: zblocks (<[i := c']> zs))) as Hg'.
  { eapply grown_perm; [|exact Hg]. rw Hblocks. apply Permutation_swap. }
  pose proof (zr_ok _ _ _ Hr i _ Hi) as Hok. apply Forall_app in Hok as [Hok1 Hok2].
  apply (rep_chain a0 z zs i (c ++ [(a, pg)])); [done|done| | |done| | |done].
  - apply (linked_snoc c (a, pg) q (blank_page s)); [|done]. apply (Forall_lookup_1 _ _ _ _ (zr_linked _ _ _ Hr) Hi).
  - apply Forall_app. split; [done|]. constructor; [by inversion Hok2|]. by constructor.
  - rw Et (zr_table _ _ _ Hr). symmetry. apply list_insert_id. rw list_lookup_fmap Hi. cbn. by destruct c.
  - pose proof (chain_nodup (<[i := c']> zs) [(zones z, ZONE_PAGE_SIZE)] (gr_nodup _ _ _ Hg')) as Hnd. specialize (Hx c'). rw map_id in Hx.
    rw Hx in Hnd |- *. rw Ep (zr_pages _ _ _ Hr) Ex. unfold c' in *.
    assert ((x1 ++ (c ++ [(a, set_page_next q pg); (q, blank_page s)]) ++ x2) ≡ₚ (q, blank_page s) :: (x1 ++ c) ++ (a, set_page_next q pg) :: x2) as HP by solve_Permutation.
    assert (NoDup ((q, blank_page s) :: (x1 ++ c) ++ (a, set_page_next q pg) :: x2).*1) as Hnd' by by rw -HP.
    etransitivity; [|symmetry; apply list_to_map_proper; [exact Hnd|exact HP]]. cbn in Hnd'. apply NoDup_cons in Hnd' as [Hq Hnd'].
    rw list_to_map_cons. replace (x1 ++ (c ++ [(a, pg)]) ++ x2) with ((x1 ++ c) ++ (a, pg) :: x2) by by rw -!app_assoc.
    rw -(list_to_map_put (x1 ++ c) x2 a pg (set_page_next q pg)).
    + apply insert_insert_ne. intros ->. apply Hq. rw fmap_app. apply elem_of_app. right. left.
    + rw !fmap_app !fmap_cons in Hnd' |- *. exact Hnd'.
Qed.

(** The context with another allocator. *)
Lemma rep_heap z zs a : zone_rep a0 z zs -> grown a0 a ((zones z, ZONE_PAGE_SIZE) :: zblocks zs) -> zone_rep a0 (set_heap a z) zs.
Proof. intros [E1 E2 E3 E4 E5 E6 E7] Hg. by split. Qed.
Lemma rep_linked z zs i c : zone_rep a0 z zs -> zs !! i = Some c -> linked c.
Proof. intros Hr Hi. apply (Forall_lookup_1 _ _ _ _ (zr_linked _ _ _ Hr) Hi). Qed.
Lemma lookup_middle {X} (c1 : list X) p c2 : (c1 ++ p :: c2) !! length c1 = Some p.
Proof. by apply list_lookup_middle. Qed.

(** What the operations leave alone. *)
Definition kept z z' : Prop := zones z' = zones z /\ z_locked z' = z_locked z.

Definition room_post (i : nat) (s : Z) z zs (q : Z) z' : Prop :=
  kept z z' /\ exists zs', zone_rep a0 z' zs' /\ zobjs zs' = zobjs zs /\
    (q = 0 /\ refused \/ exists c j pg, zs' !! i = Some c /\ c !! j = Some (q, pg) /\ z_objects pg <> max_objects s).

Lemma page_with_room_here fuel z zs i c j q pg s : zone_rep a0 z zs -> zs !! i = Some c -> c !! j = Some (q, pg) -> z_objects pg <> max_objects s ->
  wp (page_with_room (S fuel) q s) z (room_post i s z zs).
Proof.
  intros Hr Hi Hj Hne. pose proof (chain_pos a0 z zs i j c _ Hr Hi Hj) as Hpos. pose proof (rep_lookup a0 z zs i j c _ Hr Hi Hj) as Hq. cbn in Hpos, Hq. cbn [page_with_room].
  destruct (Z.eqb_spec q 0); [lia|]. apply wp_bind. eapply wp_get_page; [exact Hq|]. destruct (Z.eqb_spec (z_objects pg) (max_objects s)); [done|].
  apply wp_ret. split; [done|]. exists zs. split_and!; [done|done|]. right. by exists c, j, pg.
Qed.
Lemma wp_set_next q p pg z (Q : unit -> zone_context A -> Prop) : zpages z !! p = Some pg ->
  Q tt (set_pages (<[p := set_page_next q pg]> (zpages z)) z) -> wp (set_next q p) z Q.
Proof. intros Hp HQ. unfold set_next. apply wp_bind, (wp_get_page p pg); [done|]. by eapply wp_put_page. Qed.

(** The page behind the last one. *)
Lemma new_page_spec z zs i c p pg s : zone_rep a0 z zs -> zs !! i = Some (c ++ [(p, pg)]) -> sizes i s ->
  wp (q ← pf_page_alloc 1; when (negb (q =? 0)) (clear_page q s);; set_next q p) z
     (fun _ z' => kept z z' /\
        (zone_rep a0 z' zs /\ refused \/
         exists q, zone_rep a0 z' (<[i := c ++ [(p, set_page_next q pg); (q, blank_page s)]]> zs) /\
           zobjs (<[i := c ++ [(p, set_page_next q pg); (q, blank_page s)]]> zs) = zobjs zs)).
Proof.
  intros Hr Hi Hs. pose proof (rep_lookup a0 z zs i _ _ _ Hr Hi (lookup_middle c (p, pg) [])) as Hp. cbn [fst snd] in Hp.
  destruct (linked_app c (p, pg) [] (rep_linked z zs i _ Hr Hi)) as [Hn _]. cbn in Hn.
  apply wp_bind. eapply (wp_page_alloc 1); [apply Hr|done| |].
  - intros a Hg Hrf. apply wp_bind. change (when _ _) with (mret tt : M (zone_context A) unit). apply wp_ret. eapply wp_set_next; [exact Hp|]. split; [done|]. left. split; [|done].
    replace (set_pages _ _) with (set_heap a z); [by apply rep_heap|]. unfold set_heap, set_pages. cbn. rw insert_id //. rw Hp. unfold set_page_next. by rw -Hn; destruct pg.
  - intros q a Hpos Hg. destruct (Z.eqb_spec q 0); [lia|]. apply wp_bind, wp_when; [intros _|done]. apply wp_modify.
    assert (q <> p) as Hne.
    { intros ->. pose proof (gr_nodup _ _ _ Hg) as Hnd. cbn in Hnd. apply NoDup_cons in Hnd as [Hnd _]. apply Hnd. right.
      destruct (zone_focus zs i _ _ _ Hi (lookup_middle c (p, pg) [])) as (B1 & B2 & O1 & O2 & EB & _). rw EB. rw fmap_app. apply elem_of_app. right. left. }
    eapply wp_set_next; [cbn; rw lookup_insert_ne //|]. cbn [set_pages set_heap zpages zones]. split; [done|]. right. exists q.
    eapply (zrep_append z zs i c (p, pg)); [done|done|done|done|done|done|exact Hg].
Qed.

Lemma page_with_room_spec fuel z zs i c1 c2 s : zone_rep a0 z zs -> zs !! i = Some (c1 ++ c2) -> c2 <> [] -> sizes i s -> (length c2 + 2 <= fuel)%nat ->
  wp (page_with_room fuel (head_addr c2) s) z (room_post i s z zs).
Proof.
  revert c1 c2. induction fuel as [|fuel IH]; intros c1 c2 Hr Hi Hne Hs Hf; [lia|]. destruct c2 as [|[p pg] c2]; [done|].
  pose proof (lookup_middle c1 (p, pg) c2) as Hj. cbn [head_addr fst].
  destruct (Z.eq_dec (z_objects pg) (max_objects s)) as [Efull|Hroom]; [|by eapply page_with_room_here].
  pose proof (chain_pos a0 z zs i _ _ _ Hr Hi Hj) as Hpos. pose proof (rep_lookup a0 z zs i _ _ _ Hr Hi Hj) as Hp. cbn [fst snd] in Hpos, Hp.
  destruct (linked_app c1 (p, pg) c2 (rep_linked z zs i _ Hr Hi)) as [Hn Hl]. cbn [snd] in Hn.
  cbn [page_with_room]. destruct (Z.eqb_spec p 0); [lia|]. apply wp_bind. eapply wp_get_page; [exact Hp|]. rw Efull Z.eqb_refl.
  destruct c2 as [|[p2 pg2] c2].
  - rw Hn. cbn [head_addr Z.eqb]. apply wp_bind, wp_when; [intros _|done]. eapply wp_mono; [by apply (new_page_spec z zs i c1 p pg s)|].
    intros [] z1 [Hk1 [[Hr1 Hrf]|(q & Hr1 & Ho)]].
    + apply wp_bind. eapply wp_get_page; [apply (rep_lookup a0 z1 zs i _ _ _ Hr1 Hi Hj)|]. cbn [snd]. rw Hn. cbn [head_addr].
      destruct fuel as [|fuel]; [cbn in Hf; lia|]. cbn [page_with_room Z.eqb]. apply wp_ret. split; [done|]. exists zs. split_and!; [done|done|by left].
    + set (c := c1 ++ [(p, set_page_next q pg); (q, blank_page s)]) in *. assert (<[i := c]> zs !! i = Some c) as Hi1 by (eapply list_lookup_here; exact Hi).
      apply wp_bind. eapply wp_get_page; [apply (rep_lookup a0 z1 _ i _ _ _ Hr1 Hi1 (lookup_middle c1 (p, set_page_next q pg) _))|]. cbn [snd set_page_next next].
      destruct fuel as [|fuel]; [cbn in Hf; lia|]. eapply wp_mono; [eapply (page_with_room_here fuel z1 _ i c (S (length c1)) q); [exact Hr1|exact Hi1| |]|].
      * unfold c. rw (app_assoc c1 [(p, set_page_next q pg)] [(q, blank_page s)]). replace (S (length c1)) with (length (c1 ++ [(p, set_page_next q pg)])) by (rw length_app; cbn; lia). apply lookup_middle.
      * cbn. rw (max_objects_alt s i Hs). intros E0. unfold max_entry_objects in E0. destruct Hs as [_ [(_ & Hs & _)|(_ & Hs & _)]].
        -- pose proof (small_places s Hs) as (Hb & _ & Hb2). unfold ZONE_PAGE_SIZE in E0. destruct (Z.ltb_spec s 4096); [|lia]. fold (places s) in E0. lia.
        -- destruct (page_multiple s Hs) as (_ & _ & Elt). rw Elt in E0. lia.
      * intros r z2 ([Hk2 Hk3] & zs2 & Hr2 & Ho2 & Hpost). split; [by destruct Hk1; split; congruence|]. exists zs2. split_and!; [done|congruence|done].
  - pose proof (chain_pos a0 z zs i (S (length c1)) _ (p2, pg2) Hr Hi) as Hpos2. cbn [fst] in Hpos2. rw Hn. cbn [head_addr fst].
    destruct (Z.eqb_spec p2 0) as [E|E].
    { exfalso. specialize (Hpos2 ltac:(rw (app_assoc c1 [(p, pg)] _); replace (S (length c1)) with (length (c1 ++ [(p, pg)])) by (rw length_app; cbn; lia); apply lookup_middle)). lia. }
    apply wp_bind, wp_when; [done|intros _]. apply wp_bind. eapply wp_get_page; [exact Hp|]. rw Hn. apply (IH (c1 ++ [(p, pg)]) ((p2, pg2) :: c2)); [done|by rw -app_assoc|done|done|]. cbn in *. lia.
Qed.

(** ** One entry of one page *)
Definition put_page_entry (k : nat) (e : zone_entry) (n : Z) (pg : zone_page) : zone_page := mkPage (next pg) n (object_size pg) (<[k := e]> (array pg)).

(** The part of the context that the entry does not concern, and the context
    that the entry [e'] in its place gives. *)
Lemma rep_entry z zs i c j q pg k e : zone_rep a0 z zs -> zs !! i = Some c -> c !! j = Some (q, pg) -> array pg !! k = Some e ->
  exists F O, grown a0 (page_heap z) (entry_blocks i e ++ F) /\ zobjs zs ≡ₚ entry_objs i e ++ O /\
    forall e' n z', entry_ok i e' -> grown a0 (page_heap z') (entry_blocks i e' ++ F) -> zones z' = zones z -> table z' = table z ->
      n = z_objects pg + Z.of_nat (length (entry_objs i e')) - Z.of_nat (length (entry_objs i e)) ->
      zpages z' = <[q := put_page_entry k e' n pg]> (zpages z) ->
      exists zs', zone_rep a0 z' zs' /\ zobjs zs' ≡ₚ entry_objs i e' ++ O.
Proof.
  intros Hr Hi Hj Hk. destruct (zone_focus zs i j c _ Hi Hj) as (B1 & B2 & O1 & O2 & EB & EO & Hput).
  pose proof (zr_ok _ _ _ Hr i _ Hi) as Hok. apply (Forall_lookup_1 _ _ _ _ Hok) in Hj as Hpg. destruct Hpg as (Hlen & Hes & Hno & Hsz).
  destruct (concat_focus (entry_blocks i) _ k e Hk) as (b1 & b2 & Eb & Hb). destruct (concat_focus (entry_objs i) _ k e Hk) as (o1 & o2 & Eo & Ho).
  unfold page_blocks in EB. unfold page_objs in EO. cbn [fst snd] in EB, EO, Hno, Hsz. rw Eb in EB. rw Eo in EO.
  exists ((zones z, ZONE_PAGE_SIZE) :: B1 ++ ((q, ZONE_PAGE_SIZE) :: b1 ++ b2) ++ B2), (O1 ++ (o1 ++ o2) ++ O2).
  split; [eapply grown_perm; [|apply Hr]; rw EB; solve_Permutation|]. split; [rw EO; solve_Permutation|].
  intros e' n z' He' Hg Ez Et En Ep. destruct (Hput (q, put_page_entry k e' n pg)) as [EB' EO'].
  unfold page_blocks in EB'. unfold page_objs in EO'. cbn [fst snd put_page_entry array] in EB', EO'. rw Hb in EB'. rw Ho in EO'.
  exists (put zs i j (q, put_page_entry k e' n pg)). split; [|rw EO'; solve_Permutation].
  apply (rep_put a0 z zs i j c (q, pg)); [done|done|done| |done|done|done|done|].
  - unfold page_objs in Hno. rw Eo in Hno. split; [cbn; by rw length_insert|]. split; [by apply Forall_insert|]. split; [|done].
    unfold page_objs. cbn [array put_page_entry z_objects]. rw Ho !length_app En. cbn [snd] in Hno. rw Hno !length_app. lia.
  - eapply grown_perm; [|exact Hg]. rw EB'. solve_Permutation.
Qed.

Lemma z_objects_bound i pg : page_ok i pg -> 0 <= z_objects pg <= 63 * 256.
Proof.
  intros (Hl & Hok & Hn & Hs). pose proof (objs_length_le i _ _ Hok Hs) as Hle. unfold page_objs in Hn. rw Hl in Hle. change (Z.of_nat ZONE_MAX_ENTRIES) with 63 in Hle.
  assert (max_entry_objects (object_size pg) <= 256); [|lia]. unfold max_entry_objects. destruct Hs as [_ [(_ & Hs & _)|(_ & Hs & _)]].
  - pose proof (small_places _ Hs) as (Hb & _ & Hb2). unfold ZONE_PAGE_SIZE. destruct (Z.ltb_spec (object_size pg) 4096); [|lia]. fold (places (object_size pg)). lia.
  - destruct (page_multiple _ Hs) as (_ & _ & ->). lia.
Qed.

Lemma rep_lock b z zs : zone_rep a0 z zs -> zone_rep a0 (set_locked b z) zs.
Proof. intros [E1 E2 E3 E4 E5 E6 E7]. by split. Qed.
Lemma wp_lock z (Q : unit -> zone_context A -> Prop) : z_locked z = false -> Q tt (set_locked true z) -> wp _lock z Q.
Proof. intros E HQ. unfold wp, _lock. by rw E. Qed.
Lemma zchain_length z zs i c : zone_rep a0 z zs -> zs !! i = Some c -> (length c <= size (zpages z))%nat.
Proof.
  intros Hr Hi. rw (zr_pages _ _ _ Hr) map_size_list_to_map; [|by eapply rep_nodup]. apply list_elem_of_split_length in Hi as (l1 & l2 & -> & _).
  rw concat_app length_app. cbn. rw length_app. lia.
Qed.

(** ** [_zone_page_alloc] and [zone_alloc] *)
Definition alloc_post (s : Z) z zs (r : Z) z' : Prop :=
  zones z' = zones z /\ z_locked z' = false /\ exists zs', zone_rep a0 z' zs' /\
    (r = 0 /\ refused /\ zobjs zs' ≡ₚ zobjs zs \/ 0 < r /\ zobjs zs' ≡ₚ (r, s) :: zobjs zs).

(** A page of the chain that has room. *)
Lemma room_alloc z zs i c j q pg k s : zone_rep a0 z zs -> zs !! i = Some c -> c !! j = Some (q, pg) -> sizes i s ->
  array pg !! k <> None -> (forall e, array pg !! k = Some e -> e_objects e < max_entry_objects s) ->
  wp (r ← _zone_entry_alloc q k s;
      when (negb (r =? 0)) (pg ← get_page q; set_zobjects (u32 (z_objects pg + 1)) q);;
      mret r) z
     (fun r z' => kept z z' /\ exists zs', zone_rep a0 z' zs' /\
        (r = 0 /\ refused /\ zobjs zs' ≡ₚ zobjs zs \/ 0 < r /\ zobjs zs' ≡ₚ (r, s) :: zobjs zs)).
Proof.
  intros Hr Hi Hj Hs Hk Hroom. destruct (array pg !! k) as [e|] eqn:Ek; [|done]. specialize (Hroom e eq_refl).
  destruct (rep_entry z zs i c j q pg k e Hr Hi Hj Ek) as (F & O & Hg & HO & Hre).
  pose proof (rep_lookup a0 z zs i j c _ Hr Hi Hj) as Hq. cbn [fst snd] in Hq.
  pose proof (Forall_lookup_1 _ _ _ _ (zr_ok _ _ _ Hr i _ Hi) Hj) as Hpg. cbn [snd] in Hpg. pose proof (z_objects_bound i pg Hpg) as Hb.
  destruct Hpg as (_ & Hes & _ & _). pose proof (Forall_lookup_1 _ _ _ _ Hes Ek) as He.
  apply wp_bind. eapply wp_mono; [apply (entry_alloc_spec q i k s e pg z F Hq Ek He Hs Hroom Hg)|].
  intros r z1 (e' & a & -> & He' & Hg' & Hout). apply wp_bind. destruct Hout as [(-> & Hrf & Eo)|[Hpos Eo]].
  - apply wp_when; [done|intros _]. apply wp_ret. split; [done|].
    destruct (Hre e' (z_objects pg) (with_entry q k e' pg a z) He' Hg' eq_refl eq_refl) as (zs' & Hr' & HO'); [rw Eo; lia|done|].
    exists zs'. split; [done|]. left. split_and!; [done|done|]. rw HO' HO Eo. done.
  - apply wp_when; [intros _|destruct (Z.eqb_spec r 0); [lia|done]].
    apply wp_bind. eapply (wp_get_page q (upd_entry k e' pg)); [cbn; by rw lookup_insert_eq|].
    unfold set_zobjects. apply wp_bind. eapply (wp_get_page q (upd_entry k e' pg)); [cbn; by rw lookup_insert_eq|].
    eapply (wp_put_page q (upd_entry k e' pg)); [cbn; by rw lookup_insert_eq|]. apply wp_ret. split; [done|].
    match goal with |- context [set_pages ?m ?z1] => set (z' := set_pages m z1) end.
    destruct (Hre e' (z_objects pg + 1) z' He' Hg' eq_refl eq_refl) as (zs' & Hr' & HO').
    + rw Eo. cbn [length]. lia.
    + unfold z'. cbn. rw insert_insert_eq. f_equal. unfold put_page_entry. f_equal. apply u32_small. lia.
    + exists zs'. split; [done|]. right. split; [done|]. rw HO' HO Eo. done.
Qed.

Lemma page_alloc_spec z zs i c s : zone_rep a0 z zs -> zs !! i = Some c -> c <> [] -> sizes i s -> z_locked z = false ->
  wp (_zone_page_alloc (head_addr c) s) z (alloc_post s z zs).
Proof.
  intros Hr Hi Hne Hs Hlk. unfold _zone_page_alloc. apply wp_bind, wp_lock; [done|]. apply wp_bind, wp_gets, wp_bind.
  pose proof (rep_lock true z zs Hr) as Hr0. pose proof (zchain_length _ _ _ _ Hr Hi) as Hlen.
  eapply wp_mono; [apply (page_with_room_spec _ (set_locked true z) zs i [] c s Hr0 Hi Hne Hs); cbn; lia|].
  intros q z1 ([Hk1 Hk2] & zs1 & Hr1 & Ho1 & [(-> & Hrf)|(c1 & j & pg & Hi1 & Hj & Hroom)]); apply wp_bind.
  - cbn [Z.eqb negb]. apply wp_ret, wp_bind, wp_modify, wp_ret. split; [done|]. split; [done|]. exists zs1. split; [by apply rep_lock|]. left. by rw Ho1.
  - pose proof (chain_pos a0 _ _ _ _ _ _ Hr1 Hi1 Hj) as Hpos. cbn in Hpos. destruct (Z.eqb_spec q 0); [lia|]. cbn [negb].
    apply wp_bind. eapply wp_get_page; [apply (rep_lookup a0 _ _ _ _ _ _ Hr1 Hi1 Hj)|]. cbn [snd].
    pose proof (Forall_lookup_1 _ _ _ _ (zr_ok _ _ _ Hr1 i _ Hi1) Hj) as Hpg. destruct (page_room i s pg Hpg Hs Hroom) as (k & e & -> & Hk & He).
    eapply wp_mono; [apply (room_alloc z1 zs1 i c1 j q pg k s Hr1 Hi1 Hj Hs); [by rw Hk|intros e'; rw Hk; by intros [= <-]]|].
    intros r z2 ([Hk3 Hk4] & zs2 & Hr2 & Hout). apply wp_bind, wp_modify, wp_ret. split; [cbn; by rw Hk3 Hk1|]. split; [done|].
    exists zs2. split; [by apply rep_lock|]. by rw Ho1 in Hout.
Qed.

Lemma zone_page_spec n z (Q : option nat * Z -> zone_context A -> Prop) : 0 < n <= MAX_ALLOC ->
  Q (Some (class (_align n)), _align n) z -> wp (_zone_page n) z Q.
Proof.
  intros Hn HQ. destruct (align_sizes n Hn) as [Hle Hs]. pose proof (sizes_bounds _ _ Hs) as Hb. unfold _zone_page.
  apply wp_bind. eapply wp_lift_opt; [apply bit_number_spec; lia|]. apply wp_ret. destruct Hs as [Hc _]. unfold class in *.
  destruct (Z.eqb_spec (Z.log2 (_align n) + 1) 0); [lia|]. unfold ZONE_MAX_ZONES. destruct (Z.ltb_spec (Z.log2 (_align n) + 1) 512); [done|lia].
Qed.
Lemma rep_zone z zs i : zone_rep a0 z zs -> (i <= 32)%nat -> exists c, zs !! i = Some c /\ table z !! i = Some (head_addr c).
Proof.
  intros Hr Hi. destruct (lookup_lt_is_Some_2 zs i) as [c Hc]; [rw (zr_length _ _ _ Hr); change (Z.to_nat ZONE_MAX_ZONES) with 512%nat; lia|].
  exists c. split; [done|]. by rw (zr_table _ _ _ Hr) list_lookup_fmap Hc.
Qed.

(** The first page of a zone. *)
Lemma rep_first z zs i q s z' : zone_rep a0 z zs -> zs !! i = Some [] -> sizes i s ->
  zones z' = zones z -> table z' = <[i := q]> (table z) -> zpages z' = <[q := blank_page s]> (zpages z) ->
  grown a0 (page_heap z') ((q, ZONE_PAGE_SIZE) :: (zones z, ZONE_PAGE_SIZE) :: zblocks zs) ->
  zone_rep a0 z' (<[i := [(q, blank_page s)]]> zs) /\ zobjs (<[i := [(q, blank_page s)]]> zs) = zobjs zs.
Proof.
  intros Hr Hi Hs Ez Et Ep Hg. set (c' := [(q, blank_page s)]).
  destruct (concat_ifocus (fun i c => concat (map (page_blocks i) c)) zs i _ Hi) as (b1 & b2 & Eb & Hb).
  destruct (concat_ifocus (fun i c => concat (map (fun p => page_objs i p.2) c)) zs i _ Hi) as (o1 & o2 & Eo & Ho).
  destruct (concat_focus (fun c => c) zs i _ Hi) as (x1 & x2 & Ex & Hx). rw !map_id in Ex.
  destruct (blank_page_ok i s Hs) as [Hbo Hbb].
  assert (zblocks (<[i := c']> zs) ≡ₚ (q, ZONE_PAGE_SIZE) :: zblocks zs) as Hblocks.
  { unfold zblocks. rw Hb Eb. unfold c'. cbn [map concat]. rw blank_page_blocks. solve_Permutation. }
  split; [|unfold zobjs; rw Ho Eo; unfold c'; cbn [map concat snd]; by rw Hbb].
  assert (grown a0 (page_heap z') ((zones z, ZONE_PAGE_SIZE) :: zblocks (<[i := c']> zs))) as Hg'.
  { eapply grown_perm; [|exact Hg]. rw Hblocks. apply Permutation_swap. }
  apply (rep_chain a0 z zs i []); [done|done|done|by constructor|done|done| |done].
  pose proof (chain_nodup (<[i := c']> zs) [(zones z, ZONE_PAGE_SIZE)] (gr_nodup _ _ _ Hg')) as Hnd. specialize (Hx c'). rw map_id in Hx.
  rw Hx in Hnd |- *. rw Ep (zr_pages _ _ _ Hr) Ex. rw -list_to_map_cons. symmetry. apply list_to_map_proper; [exact Hnd|]. unfold c'. solve_Permutation.
Qed.

Lemma zone_alloc_rep n z zs : zone_rep a0 z zs -> z_locked z = false -> 0 < n <= MAX_ALLOC -> wp (zone_alloc n) z (alloc_post (_align n) z zs).
Proof.
  intros Hr Hlk Hn. destruct (align_sizes n Hn) as [_ Hs]. set (s := _align n) in *. set (i := class s) in *. pose proof (proj1 Hs) as Hi.
  destruct (rep_zone z zs i Hr ltac:(lia)) as (c & Hc & Ht). unfold zone_alloc, zone_pointer. apply wp_bind, wp_bind, zone_page_spec; [done|]. fold s. fold i. cbv beta iota.
  unfold read_zone. apply wp_bind, wp_bind, wp_gets. eapply wp_lift_opt; [exact Ht|]. apply wp_ret. unfold zone_alloc_at. apply wp_bind. destruct c as [|[p pg] c].
  - cbn [head_addr Z.eqb]. apply wp_bind. unfold new_zone. apply wp_bind. eapply (wp_page_alloc 1); [apply Hr|done| |].
    + intros a Hg Hrf. apply wp_bind. apply wp_when; [done|intros _]. apply wp_ret.
      apply wp_bind. apply wp_when; [done|intros _]. apply wp_ret. cbn [Z.eqb negb]. apply wp_ret.
      split; [done|]. split; [done|]. exists zs. split; [by apply rep_heap|]. by left.
    + intros q a Hpos Hg. assert ((q =? 0) = false) as Eq by (apply Z.eqb_neq; lia). rw Eq. cbn [negb]. apply wp_bind, wp_modify, wp_ret.
      apply wp_bind. rw Eq. unfold publish_zone. cbn [negb when]. apply wp_bind, wp_lock; [done|]. apply wp_bind, wp_modify, wp_modify, wp_ret. rw Eq. cbn [negb].
      match goal with |- wp _ ?z1 _ => set (z1' := z1) end.
      destruct (rep_first z zs i q s z1' Hr Hc Hs eq_refl eq_refl eq_refl Hg) as [Hr1 Ho1].
      eapply wp_mono; [apply (page_alloc_spec z1' _ i [(q, blank_page s)] s Hr1); [by eapply list_lookup_here|done|done|done]|].
      intros r z2 (Hz & Hl & zs2 & Hr2 & Hout). split; [done|]. split; [done|]. exists zs2. split; [done|]. by rw Ho1 in Hout.
  - pose proof (chain_pos a0 z zs i 0 _ _ Hr Hc eq_refl) as Hpos. cbn in Hpos. cbn [head_addr fst]. assert ((p =? 0) = false) as Ep by (apply Z.eqb_neq; lia). rw Ep.
    apply wp_ret. rw Ep. cbn [negb]. by apply (page_alloc_spec z zs i ((p, pg) :: c)).
Qed.

(** ** [zone_init] *)
Definition blank (a : A) : zone_context A := mkZone 0 [] ∅ false a.
Definition no_zones : list chain := replicate (Z.to_nat ZONE_MAX_ZONES) [].
Lemma no_zones_objs : zobjs no_zones = [] /\ zblocks no_zones = [].
Proof.
  unfold zobjs, zblocks, no_zones. assert (forall X (f : nat -> chain -> list X) n (g : nat -> nat), (forall i, f i [] = []) -> concat (imap (fun i => f (g i)) (replicate n [])) = []) as Hn.
  { intros X f k. induction k as [|k IH]; intros g Hf; [done|]. cbn. rw Hf. cbn. apply (IH (fun i => g (S i)) Hf). }
  split; by apply (Hn _ _ _ (fun i => i)).
Qed.
Lemma zone_init_rep : a_ok a0 ->
  wp zone_init (blank a0) (fun r z => z_locked z = false /\ (r = -1 /\ refused /\ zones z = 0 \/ r = 0 /\ zone_rep a0 z no_zones)).
Proof.
  intros Ha. unfold zone_init. apply wp_bind, wp_gets, wp_bind. cbn [blank zones Z.eqb when]. apply wp_bind.
  eapply (wp_page_alloc 1); [apply (grown_nil a0 Ha)|done| |].
  - intros a Hg Hrf. apply wp_modify, wp_bind, wp_gets. cbn [zones Z.eqb negb]. apply wp_ret. split; [done|]. by left.
  - intros p a Hpos Hg. apply wp_modify, wp_bind, wp_gets. cbn [zones]. assert ((p =? 0) = false) as -> by (apply Z.eqb_neq; lia). cbn [negb].
    unfold clear_table. apply wp_bind, wp_bind, wp_gets. cbn [table]. 
    case_decide; [done|]. apply wp_modify, wp_ret. split; [done|]. right. split; [done|].
    destruct no_zones_objs as [_ Eb]. split.
    + cbn. lia.
    + apply length_replicate.
    + by vm_compute.
    + cbn. symmetry. unfold no_zones. assert (forall k, concat (replicate k ([] : chain)) = []) as -> by (intros k; by induction k). done.
    + by apply Forall_replicate.
    + intros i c Hc. apply lookup_replicate in Hc as [-> _]. constructor.
    + rw Eb. done.
Qed.
End ops.
