(* ===== verification/ZoneFree.v ===== *)
(** * Zone allocator: objects that do not overlap, [zone_free], [zone_verify]
    (core/mem/zone.c)

    When the pages do not overlap, the objects do not either, and a pointer
    belongs to one entry at most: [zone_free] removes the object the pointer
    points into and nothing else, [zone_verify] answers whether there is one.
    Both take any pointer into an object (into its first page, for an object of
    whole pages) for the object. *)
From S2P Require Import Prelude Memory Zone ZoneBits ZoneRep ZoneProof.
Set Default Goal Selector "!".

(** What else [malloc] promises: blocks do not overlap, and none is in the page of NULL. *)
Class SpacedLaws (A : Type) `{AllocatorLaws A} := {
  spaced_law a p n q m : a_ok a -> a_live a !! p = Some n -> a_live a !! q = Some m -> p <> q -> p + n <= q \/ q + m <= p;
  null_page_law a p n : a_ok a -> a_live a !! p = Some n -> ZONE_PAGE_SIZE <= p
}.

Definition apart (o1 o2 : block) : Prop := o1.1 + o1.2 <= o2.1 \/ o2.1 + o2.2 <= o1.1.

(** ** Entries *)
(** All entries, with the numbers of their zones. *)
Definition zents (zs : list chain) : list (nat * zone_entry) :=
  concat (imap (fun i c => concat (map (fun p : Z * zone_page => map (pair i) (array p.2)) c)) zs).

Lemma concat_imap_map {X Y W} (f : Y -> list W) (g : nat -> X -> list Y) l :
  concat (map f (concat (imap g l))) = concat (imap (fun i x => concat (map f (g i x))) l).
Proof. revert g. induction l as [|x l IH]; intros g; [done|]. cbn. rw map_app concat_app. f_equal. apply (IH (fun i => g (S i))). Qed.
Lemma concat_map_map {X Y W} (f : Y -> list W) (g : X -> list Y) l : concat (map f (concat (map g l))) = concat (map (fun x => concat (map f (g x))) l).
Proof. induction l as [|x l IH]; [done|]. cbn. by rw map_app concat_app IH. Qed.

Lemma zobjs_ents zs : zobjs zs = concat (map (fun x => entry_objs x.1 x.2) (zents zs)).
Proof.
  unfold zobjs, zents. rw concat_imap_map. f_equal. apply imap_ext. intros i c _. rw concat_map_map. f_equal. apply map_ext. intros p.
  unfold page_objs. rw map_map. done.
Qed.
Lemma zblocks_ents zs : sublist (concat (map (fun x => entry_blocks x.1 x.2) (zents zs))) (zblocks zs).
Proof.
  unfold zblocks, zents. rw concat_imap_map. assert (forall g : nat -> nat,
    sublist (concat (imap (fun i c => concat (map (fun x => entry_blocks x.1 x.2) (concat (map (fun p : Z * zone_page => map (pair (g i)) (array p.2)) c)))) zs))
            (concat (imap (fun i c => concat (map (page_blocks (g i)) c)) zs))) as Hs; [|apply (Hs (fun i => i))].
  induction zs as [|c zs IH]; intros g; [done|]. cbn. apply sublist_app; [|apply (IH (fun i => g (S i)))]. rw concat_map_map.
  induction c as [|p c IHc]; [done|]. cbn. rw map_map. cbn [fst snd]. by apply sublist_cons, sublist_app.
Qed.

Lemma elem_of_concat {X} (d : X) l : d ∈ concat l <-> exists x, x ∈ l /\ d ∈ x.
Proof. rw list_elem_of_In List.in_concat. split; intros (x & H1 & H2); exists x; by rw ?list_elem_of_In in H1, H2 |- *. Qed.
Lemma elem_of_map {X Y} (f : X -> Y) d l : d ∈ map f l <-> exists x, x ∈ l /\ d = f x.
Proof. rw list_elem_of_In List.in_map_iff. split; intros (x & H1 & H2); exists x; rw ?list_elem_of_In in H1, H2 |- *; done. Qed.
Lemma elem_of_concat_map {X Y} (g : X -> list Y) l d : d ∈ concat (map g l) <-> exists x, x ∈ l /\ d ∈ g x.
Proof.
  rw elem_of_concat. split.
  - intros (k & (x & Hx & ->)%elem_of_map & Hd). by exists x.
  - intros (x & Hx & Hd). exists (g x). split; [|done]. apply elem_of_map. by exists x.
Qed.

Lemma elem_of_ents zs i c j p k e : zs !! i = Some c -> c !! j = Some p -> array p.2 !! k = Some e -> (i, e) ∈ zents zs.
Proof.
  intros Hi Hj Hk. unfold zents. apply elem_of_concat. exists (concat (map (fun p : Z * zone_page => map (pair i) (array p.2)) c)). split.
  - apply elem_of_lookup_imap. by exists i, c.
  - apply elem_of_concat_map. exists p. split; [by eapply list_elem_of_lookup_2|]. apply elem_of_map. exists e. split; [by eapply list_elem_of_lookup_2|done].
Qed.
Lemma ents_elem zs i e : (i, e) ∈ zents zs -> exists c j p k, zs !! i = Some c /\ c !! j = Some p /\ array p.2 !! k = Some e.
Proof.
  unfold zents. intros (l & (i' & c & -> & Hi)%elem_of_lookup_imap & Hl)%elem_of_concat.
  apply elem_of_concat_map in Hl as (p & (j & Hj)%list_elem_of_lookup_1 & (e' & (k & Hk)%list_elem_of_lookup_1 & [= -> ->])%elem_of_map).
  by exists c, j, p, k.
Qed.

(** Lists whose parts share nothing. *)
Lemma concat_inj {X Y} (g : X -> list Y) l x y d : NoDup (concat (map g l)) -> x ∈ l -> y ∈ l -> d ∈ g x -> d ∈ g y -> x = y.
Proof.
  induction l as [|w l IH]; cbn; [by intros _ ?%not_elem_of_nil|]. intros (_ & Hd & Hn)%NoDup_app Hx Hy Hdx Hdy.
  apply elem_of_cons in Hx as [-> |Hx], Hy as [->|Hy]; [done| | |by apply IH].
  - destruct (Hd d Hdx). apply elem_of_concat_map. by exists y.
  - destruct (Hd d Hdy). apply elem_of_concat_map. by exists x.
Qed.

(** ** Objects that do not overlap *)
Lemma small_zone_size i s : sizes i s -> small_zone i = true -> small_size (zone_size i) /\ zone_size i = s.
Proof. intros [_ [(_ & Hs & <-)|(E & _)]] Hi; [done|congruence]. Qed.

(** An object lies in the block of its entry. *)
Lemma obj_block i e o s : entry_ok i e -> sizes i s -> o ∈ entry_objs i e ->
  exists n, entry_blocks i e = [(data e, n)] /\ 0 < data e /\ 16 <= o.2 /\ data e <= o.1 /\ o.1 + o.2 <= data e + n.
Proof.
  intros (Hu & Hd & Ho & Hz & Hp) Hs Hin. assert (data e <> 0) as Hne by (intros E; rw (Hz E) in Hin; by apply not_elem_of_nil in Hin).
  unfold entry_blocks. destruct (Z.eqb_spec (data e) 0) as [|_]; [done|]. unfold entry_objs in Hin. destruct (small_zone i) eqn:Hi.
  - destruct (small_zone_size i s Hs Hi) as [Hss _]. pose proof (small_places _ Hss) as (_ & Hm & Hb).
    apply elem_of_map in Hin as (b & [_ Hb2]%elem_of_busy & ->). exists ZONE_PAGE_SIZE. split; [done|]. cbn [fst snd]. unfold ZONE_PAGE_SIZE. nia.
  - destruct (e_objects e =? 0); [by apply not_elem_of_nil in Hin|]. apply list_elem_of_singleton in Hin as ->. destruct (Hp eq_refl Hne) as (_ & (m & Hm & Em) & _).
    exists (data_size e). split; [done|]. cbn [fst snd]. lia.
Qed.
Lemma objs_apart i e o1 o2 s : entry_ok i e -> sizes i s -> o1 ∈ entry_objs i e -> o2 ∈ entry_objs i e -> o1 <> o2 -> apart o1 o2.
Proof.
  intros _ Hs H1 H2 Hne. unfold entry_objs in H1, H2. destruct (small_zone i) eqn:Hi.
  - destruct (small_zone_size i s Hs Hi) as [Hss _]. pose proof (small_places _ Hss) as (_ & Hm & Hb).
    apply elem_of_map in H1 as (b1 & _ & ->). apply elem_of_map in H2 as (b2 & _ & ->). assert (b1 <> b2) by congruence. unfold apart. cbn [fst snd]. nia.
  - destruct (e_objects e =? 0); [by apply not_elem_of_nil in H1|]. apply list_elem_of_singleton in H1 as ->. by apply list_elem_of_singleton in H2 as ->.
Qed.
Lemma objs_nodup i e s : sizes i s -> NoDup (entry_objs i e).
Proof.
  intros Hs. unfold entry_objs. destruct (small_zone i) eqn:Hi; [|destruct (e_objects e =? 0); [constructor|apply NoDup_singleton]].
  destruct (small_zone_size i s Hs Hi) as [Hss _]. pose proof (small_places _ Hss) as (_ & _ & Hb).
  apply (NoDup_fmap_2_strong (fun b => (data e + b * zone_size i, zone_size i))); [|apply NoDup_busy]. intros b1 b2 _ _ [= E]. nia.
Qed.

Section spaced.
Context {A : Type} `{SpacedLaws A}.
Context (a0 : A).
Implicit Types z : zone_context A.

Lemma grown_spaced a bl b1 b2 : grown a0 a bl -> b1 ∈ bl -> b2 ∈ bl -> b1.1 <> b2.1 -> apart b1 b2.
Proof.
  intros Hg Hx1 Hx2 Hne. assert (forall b, b ∈ bl -> a_live a !! b.1 = Some b.2) as Hl.
  { intros b Hb. rw (gr_live _ _ _ Hg). apply lookup_union_Some_l. apply elem_of_list_to_map; [apply Hg|by destruct b]. }
  by apply (spaced_law a); [apply Hg|apply Hl|apply Hl|].
Qed.
Lemma grown_page0 a bl b : grown a0 a bl -> b ∈ bl -> ZONE_PAGE_SIZE <= b.1.
Proof.
  intros Hg Hb. apply (null_page_law a b.1 b.2); [apply Hg|]. rw (gr_live _ _ _ Hg). apply lookup_union_Some_l.
  apply elem_of_list_to_map; [apply Hg|by destruct b].
Qed.

Lemma ents_ok z zs i e : zone_rep a0 z zs -> (i, e) ∈ zents zs -> entry_ok i e /\ exists s, sizes i s.
Proof.
  intros Hr (c & j & p & k & Hi & Hj & Hk)%ents_elem. pose proof (Forall_lookup_1 _ _ _ _ (zr_ok _ _ _ Hr i c Hi) Hj) as (_ & Hes & _ & Hs).
  split; [apply (Forall_lookup_1 _ _ _ _ Hes Hk)|by eexists].
Qed.
Lemma ents_block zs i e b : (i, e) ∈ zents zs -> b ∈ entry_blocks i e -> b ∈ zblocks zs.
Proof. intros Hin Hb. eapply elem_of_sublist; [|apply zblocks_ents]. apply elem_of_concat_map. by exists (i, e). Qed.
Lemma blocks_nodup z zs : zone_rep a0 z zs -> NoDup (concat (map (fun x => (entry_blocks x.1 x.2).*1) (zents zs))).
Proof.
  intros Hr. pose proof (gr_nodup _ _ _ (zr_own _ _ _ Hr)) as Hd. cbn in Hd. apply NoDup_cons in Hd as [_ Hd].
  eapply sublist_NoDup; [exact Hd|]. etransitivity; [|apply fmap_sublist, zblocks_ents].
  match goal with |- sublist ?x ?y => replace x with y; [done|] end. generalize (zents zs). intros l. induction l as [|x l IH]; [done|]. cbn. by rw fmap_app IH.
Qed.
(** An entry with a block is the only one with it. *)
Lemma ents_same z zs i1 e1 i2 e2 n1 n2 : zone_rep a0 z zs -> (i1, e1) ∈ zents zs -> (i2, e2) ∈ zents zs ->
  entry_blocks i1 e1 = [(data e1, n1)] -> entry_blocks i2 e2 = [(data e2, n2)] -> data e1 = data e2 -> (i1, e1) = (i2, e2).
Proof.
  intros Hr Hx1 Hx2 E1 E2 Ed. apply (concat_inj (fun x => (entry_blocks x.1 x.2).*1) (zents zs) _ _ (data e1)); [by eapply blocks_nodup|done|done| |]; cbn [fst snd].
  - rw E1. left.
  - rw E2 Ed. left.
Qed.

(** Objects in use do not overlap, and lie above the page of NULL. *)
Lemma zobjs_apart z zs o1 o2 : zone_rep a0 z zs -> o1 ∈ zobjs zs -> o2 ∈ zobjs zs -> o1 <> o2 -> apart o1 o2.
Proof.
  intros Hr Hx1 Hx2 Hne. rw zobjs_ents in Hx1, Hx2. apply elem_of_concat_map in Hx1 as ([i1 e1] & Hin1 & Hx1). apply elem_of_concat_map in Hx2 as ([i2 e2] & Hin2 & Hx2).
  cbn [fst snd] in *. destruct (ents_ok z zs i1 e1 Hr Hin1) as [Hok1 [s1 Hs1]]. destruct (ents_ok z zs i2 e2 Hr Hin2) as [Hok2 [s2 Hs2]].
  destruct (obj_block i1 e1 o1 s1 Hok1 Hs1 Hx1) as (n1 & E1 & Hp1 & _ & Hl1 & Hu1). destruct (obj_block i2 e2 o2 s2 Hok2 Hs2 Hx2) as (n2 & E2 & Hp2 & _ & Hl2 & Hu2).
  destruct (Z.eq_dec (data e1) (data e2)) as [Ed|Ed].
  - assert ((i1, e1) = (i2, e2)) as [= <- <-] by by eapply ents_same. by eapply objs_apart.
  - assert (apart (data e1, n1) (data e2, n2)) as Ha.
    { eapply grown_spaced; [apply (zr_own _ _ _ Hr)| | |done]; right.
      - apply (ents_block zs i1 e1); [done|]. rw E1. left.
      - apply (ents_block zs i2 e2); [done|]. rw E2. left. }
    unfold apart in *. cbn [fst snd] in *. lia.
Qed.
Lemma zobjs_bounds z zs o : zone_rep a0 z zs -> o ∈ zobjs zs -> ZONE_PAGE_SIZE <= o.1 /\ 16 <= o.2.
Proof.
  intros Hr Ho. rw zobjs_ents in Ho. apply elem_of_concat_map in Ho as ([i e] & Hin & Ho). cbn [fst snd] in Ho.
  destruct (ents_ok z zs i e Hr Hin) as [Hok [s Hs]]. destruct (obj_block i e o s Hok Hs Ho) as (n & E & Hp & Hs2 & Hl & _). split; [|done].
  pose proof (grown_page0 _ _ (data e, n) (zr_own _ _ _ Hr)) as Hpg. cbn [fst] in Hpg. etransitivity; [apply Hpg|done].
  right. apply (ents_block zs i e); [done|]. rw E. left.
Qed.
Lemma zobjs_nodup z zs : zone_rep a0 z zs -> NoDup (zobjs zs).*1.
Proof.
  intros Hr. assert (NoDup (zobjs zs)) as Hn.
  - rw zobjs_ents. pose proof (blocks_nodup z zs Hr) as Hb. assert (forall x, x ∈ zents zs -> entry_ok x.1 x.2 /\ exists s, sizes x.1 s) as Hok.
    { intros [i e] Hin. by eapply ents_ok. }
    assert (forall x y o, x ∈ zents zs -> y ∈ zents zs -> o ∈ entry_objs x.1 x.2 -> o ∈ entry_objs y.1 y.2 -> x = y) as Hone.
    { intros [i1 e1] [i2 e2] o Hx Hy Ho1 Ho2. destruct (Hok _ Hx) as [Hok1 [s1 Hs1]]. destruct (Hok _ Hy) as [Hok2 [s2 Hs2]].
      destruct (obj_block _ _ o s1 Hok1 Hs1 Ho1) as (n1 & E1 & Hp1 & Hz1 & Hl1 & Hu1). destruct (obj_block _ _ o s2 Hok2 Hs2 Ho2) as (n2 & E2 & Hp2 & _ & Hl2 & Hu2).
      cbn [fst snd] in *. destruct (Z.eq_dec (data e1) (data e2)) as [Ed|Ed]; [by eapply ents_same|]. exfalso.
      assert (apart (data e1, n1) (data e2, n2)) as Ha; [|unfold apart in Ha; cbn [fst snd] in Ha; lia].
      eapply grown_spaced; [apply (zr_own _ _ _ Hr)| | |done]; right.
      - apply (ents_block zs i1 e1); [done|]. rw E1. left.
      - apply (ents_block zs i2 e2); [done|]. rw E2. left. }
    revert Hb Hok Hone. generalize (zents zs). intros l. induction l as [|x l IH]; intros Hb Hok Hone; [constructor|]. cbn in Hb |- *.
    apply NoDup_app in Hb as (_ & Hd & Hb). apply NoDup_app. split_and!.
    + destruct (Hok x) as [_ [s Hs]]; [left|]. by eapply objs_nodup.
    + intros o Ho (y & Hy & Hoy)%elem_of_concat_map. assert (x = y) as <- by (apply (Hone x y o); [left|by right|done|done]).
      destruct (Hok x) as [Hx [s Hs]]; [left|]. destruct (obj_block _ _ o s Hx Hs Ho) as (k & E & _).
      apply (Hd (data x.2)); [rw E; left|]. apply elem_of_concat_map. exists x. split; [done|]. rw E. left.
    + apply IH; [done|intros y Hy; apply Hok; by right|]. intros y1 y2 o H1' H2'. apply Hone; by right.
  - apply NoDup_fmap_2_strong; [|done]. intros o1 o2 H1' H2' E. destruct (decide (o1 = o2)) as [|Hne]; [done|]. exfalso.
    pose proof (zobjs_apart z zs o1 o2 Hr H1' H2' Hne) as Ha. pose proof (zobjs_bounds z zs o1 Hr H1'). pose proof (zobjs_bounds z zs o2 Hr H2'). unfold apart in Ha. lia.
Qed.

(** ** Looking up *)
(** A pointer that [zone_free] and [zone_verify] take for the object [o] of the class [s]. *)
Definition holds (ptr s : Z) (o : block) : Prop := o.2 = s /\ o.1 <= ptr < o.1 + Z.min s ZONE_PAGE_SIZE.

Lemma find_entry_spec l ptr i : match find_entry l ptr i with
  | Some n => exists k e, n = (i + k)%nat /\ l !! k = Some e /\ in_entry ptr e = true
  | None => Forall (fun e => in_entry ptr e = false) l
  end.
Proof.
  revert i. induction l as [|e l IH]; intros i; cbn [find_entry]; [constructor|]. destruct (in_entry ptr e) eqn:E.
  - exists 0%nat, e. by rw Nat.add_0_r.
  - specialize (IH (S i)). destruct (find_entry l ptr (S i)) as [n|].
    + destruct IH as (k & e' & -> & Hk & He). exists (S k), e'. split; [lia|done].
    + by constructor.
Qed.

Lemma find_page_spec fuel z zs i c1 c2 ptr : zone_rep a0 z zs -> zs !! i = Some (c1 ++ c2) -> (length c2 < fuel)%nat ->
  wp (find_page fuel (head_addr c2) ptr) z (fun f z' => z' = z /\ match f with
    | Some (q, k) => exists j pg e, (c1 ++ c2) !! j = Some (q, pg) /\ array pg !! k = Some e /\ in_entry ptr e = true
    | None => Forall (fun p => Forall (fun e => in_entry ptr e = false) (array p.2)) c2
    end).
Proof.
  intros Hr. revert fuel c1. induction c2 as [|[p pg] c2 IH]; intros fuel c1 Hi Hf; (destruct fuel as [|fuel]; [lia|]); cbn [find_page head_addr fst].
  - apply wp_ret. split; [done|constructor].
  - pose proof (chain_pos a0 z zs i _ _ _ Hr Hi (lookup_middle c1 (p, pg) c2)) as Hpos. pose proof (rep_lookup a0 z zs i _ _ _ Hr Hi (lookup_middle c1 (p, pg) c2)) as Hp.
    cbn [fst snd] in Hpos, Hp. destruct (Z.eqb_spec p 0); [lia|]. apply wp_bind. eapply wp_get_page; [exact Hp|].
    destruct (linked_app c1 (p, pg) c2 (rep_linked a0 z zs i _ Hr Hi)) as [Hn _]. cbn [snd] in Hn.
    pose proof (find_entry_spec (array pg) ptr 0) as Hfe. destruct (find_entry (array pg) ptr 0) as [k|].
    + destruct Hfe as (k' & e & -> & Hk & He). apply wp_ret. split; [done|]. exists (length c1), pg, e. split; [apply lookup_middle|done].
    + rw Hn. eapply wp_mono; [apply (IH fuel (c1 ++ [(p, pg)])); [by rw -app_assoc|cbn in Hf; lia]|].
      intros f z' [-> Hpost]. split; [done|]. destruct f as [[q k]|]; [by rw -app_assoc in Hpost|by constructor].
Qed.

(** An entry that holds a pointer above the first page is the only one. *)
Lemma in_entry_unique z zs i1 e1 i2 e2 ptr o : zone_rep a0 z zs -> (i1, e1) ∈ zents zs -> (i2, e2) ∈ zents zs ->
  in_entry ptr e1 = true -> in_entry ptr e2 = true -> o ∈ entry_objs i2 e2 -> (i1, e1) = (i2, e2).
Proof.
  intros Hr Hin1 Hin2 Hp1 Hp2 Ho. unfold in_entry in Hp1, Hp2. apply andb_true_iff in Hp1 as [Hl1%Z.leb_le Hu1%Z.ltb_lt], Hp2 as [Hl2%Z.leb_le Hu2%Z.ltb_lt].
  destruct (ents_ok z zs i1 e1 Hr Hin1) as [Hok1 [s1 Hs1]]. destruct (ents_ok z zs i2 e2 Hr Hin2) as [Hok2 [s2 Hs2]].
  destruct (obj_block i2 e2 o s2 Hok2 Hs2 Ho) as (n2 & E2 & Hd2 & _).
  assert (forall i e k, (i, e) ∈ zents zs -> entry_blocks i e = [(data e, k)] -> (data e, k) ∈ (zones z, ZONE_PAGE_SIZE) :: zblocks zs) as Hblk.
  { intros i e k Hin E. right. apply (ents_block zs i e); [done|]. rw E. left. }
  pose proof (grown_page0 _ _ _ (zr_own _ _ _ Hr) (Hblk _ _ _ Hin2 E2)) as Hpg. cbn [fst] in Hpg.
  assert (exists n1, entry_blocks i1 e1 = [(data e1, n1)] /\ ZONE_PAGE_SIZE <= n1) as (n1 & E1 & Hn1).
  { unfold entry_blocks. destruct (Z.eqb_spec (data e1) 0) as [Ed|Ed]; [lia|]. destruct (small_zone i1) eqn:Hi; eexists; (split; [done|]); [done|].
    destruct Hok1 as (_ & _ & _ & _ & Hpgs). destruct (Hpgs Hi Ed) as (_ & (m & Hm & ->) & _). unfold ZONE_PAGE_SIZE. lia. }
  assert (ZONE_PAGE_SIZE <= n2) as Hn2.
  { unfold entry_blocks in E2. destruct (Z.eqb_spec (data e2) 0) as [Ed|Ed]; [done|]. destruct (small_zone i2) eqn:Hi; injection E2 as <-; [done|].
    destruct Hok2 as (_ & _ & _ & _ & Hpgs). destruct (Hpgs Hi Ed) as (_ & (m & Hm & ->) & _). unfold ZONE_PAGE_SIZE. lia. }
  destruct (Z.eq_dec (data e1) (data e2)) as [Ed|Ed]; [by eapply ents_same|]. exfalso.
  pose proof (grown_spaced _ _ _ _ (zr_own _ _ _ Hr) (Hblk _ _ _ Hin1 E1) (Hblk _ _ _ Hin2 E2) Ed) as Ha. unfold apart in Ha. cbn [fst snd] in Ha. lia.
Qed.

(** ** One entry *)
Lemma busy_bit_spec e s ptr : units_ok e -> small_size s -> in_entry ptr e = true ->
  let b := (ptr - data e) / s in
  0 <= b < places s /\ data e + b * s <= ptr < data e + b * s + s /\
  busy_bit e ptr s = if bit_at e b then Some (Z.to_nat (b / 64), b mod 64) else None.
Proof.
  intros Hu Hs Hp b. pose proof (small_places s Hs) as (Hpl & Hm & Hb). unfold in_entry in Hp. apply andb_true_iff in Hp as [Hl%Z.leb_le Hr%Z.ltb_lt]. unfold ZONE_PAGE_SIZE in Hr.
  pose proof (Z.div_mod (ptr - data e) s ltac:(lia)) as Hd. pose proof (Z.mod_pos_bound (ptr - data e) s ltac:(lia)) as Hmd. fold b in Hd.
  assert (0 <= b < places s) as Hbr by nia. split; [done|]. split; [nia|]. unfold busy_bit. fold b. replace (u8 b) with b by (symmetry; apply Z.mod_small; lia).
  unfold _bitmap_unit_bit, ZONE_PAGE_SIZE, ZONE_BITMAP_UNIT_BITS. fold (places s). destruct (Z.ltb_spec b (places s)); [|lia].
  destruct (unit_lookup e b Hu ltac:(lia)) as (u & -> & _ & ->). rw land_mask; [|apply Z.mod_pos_bound; lia]. by destruct (Z.testbit u (63 - b mod 64)).
Qed.
(** The pointer falls on no object of the entry, or on the one of its bit. *)
Lemma small_holds i e s ptr : entry_ok i e -> sizes i s -> small_zone i = true -> in_entry ptr e = true ->
  match busy_bit e ptr s with
  | Some (unit, bit) => exists b, unit = Z.to_nat (b / 64) /\ bit = b mod 64 /\ 0 <= b < places s /\ bit_at e b = true /\ holds ptr s (data e + b * s, s)
  | None => forall o, o ∈ entry_objs i e -> ~ holds ptr s o
  end.
Proof.
  intros (Hu & _) Hs Hi Hp. destruct (small_zone_size i s Hs Hi) as [Hss E]. rw E in Hss. pose proof (small_places s Hss) as (Hpl & Hm & Hb).
  destruct (busy_bit_spec e s ptr Hu Hss Hp) as (Hbr & Hptr & ->). set (b := (ptr - data e) / s) in *. destruct (bit_at e b) eqn:Eb.
  - exists b. split_and!; [done|done|lia|lia|done|]. unfold holds, ZONE_PAGE_SIZE. cbn [fst snd]. lia.
  - intros o Ho [_ Hh]. rw entry_objs_small // E in Ho. apply elem_of_map in Ho as (c & [Hc1 Hc2]%elem_of_busy & ->). cbn [fst snd] in Hh. unfold ZONE_PAGE_SIZE in Hh.
    assert (c = b) as -> by nia. congruence.
Qed.
Lemma page_holds i e s ptr : entry_ok i e -> small_zone i = false -> page_size s -> in_entry ptr e = true ->
  if busy_pages e s then entry_objs i e = [(data e, s)] /\ data_size e = s /\ holds ptr s (data e, s) else forall o, o ∈ entry_objs i e -> ~ holds ptr s o.
Proof.
  intros _ Hi (k & Hk & ->) Hp. unfold in_entry in Hp. apply andb_true_iff in Hp as [Hl%Z.leb_le Hr%Z.ltb_lt]. unfold busy_pages. rw entry_objs_page //.
  destruct (e_objects e =? 0); cbn [negb andb]; [by intros o Ho%not_elem_of_nil|]. destruct (Z.eqb_spec (data_size e) (k * 4096)) as [E|E].
  - rw E. split; [done|]. split; [done|]. unfold holds. cbn [fst snd]. unfold ZONE_PAGE_SIZE in *. lia.
  - intros o ->%list_elem_of_singleton [Hs _]. by cbn in Hs.
Qed.

Lemma obj_class i e o s : entry_ok i e -> sizes i s -> o ∈ entry_objs i e -> class o.2 = i.
Proof.
  intros (_ & _ & _ & Hz & Hp) Hs Ho. unfold entry_objs in Hz, Ho. destruct (small_zone i) eqn:Hi.
  - apply elem_of_map in Ho as (b & _ & ->). cbn [snd]. destruct Hs as [Hb _]. unfold zone_size. unfold class. rw Z.log2_pow2; lia.
  - destruct (e_objects e =? 0) eqn:E; [by apply not_elem_of_nil in Ho|]. apply list_elem_of_singleton in Ho as ->. cbn [snd].
    destruct (Z.eq_dec (data e) 0) as [Ed|Ed]; [by specialize (Hz Ed)|]. by destruct (Hp eq_refl Ed) as (_ & _ & Hc).
Qed.

(** An object that holds the pointer is in an entry of the class that the search would find. *)
Lemma holder z zs s i c ptr o : zone_rep a0 z zs -> class s = i -> zs !! i = Some c -> o ∈ zobjs zs -> holds ptr s o ->
  exists e, (i, e) ∈ zents zs /\ o ∈ entry_objs i e /\ in_entry ptr e = true /\
    ~ Forall (fun p => Forall (fun e => in_entry ptr e = false) (array p.2)) c.
Proof.
  intros Hr Hc Hi Ho Hh. rw zobjs_ents in Ho. apply elem_of_concat_map in Ho as ([i' e] & Hin & Ho). cbn [fst snd] in Ho.
  destruct (ents_ok z zs i' e Hr Hin) as [Hok [s' Hs]]. pose proof (obj_class _ _ _ _ Hok Hs Ho) as Hcl. destruct Hh as [Es Hb]. rw Es Hc in Hcl. subst i'.
  assert (in_entry ptr e = true) as Hp.
  { unfold in_entry. destruct (obj_block i e o s' Hok Hs Ho) as (k & E & Hpos & _ & Hl & Hu). unfold entry_objs in Ho.
    assert (data e <= ptr /\ ptr < data e + ZONE_PAGE_SIZE) as [Hl1 Hu1]; [|by apply andb_true_iff; rw Z.leb_le Z.ltb_lt].
    unfold entry_blocks in E. destruct (data e =? 0); [done|]. destruct (small_zone i) eqn:Esm; injection E as <-; [lia|].
    destruct (e_objects e =? 0); [by apply not_elem_of_nil in Ho|]. apply list_elem_of_singleton in Ho as ->. cbn [fst snd] in *. lia. }
  exists e. split_and!; [done|done|done|]. intros Hall. destruct (ents_elem zs i e Hin) as (c' & j & p & k & Hi' & Hj & Hk).
  rw Hi in Hi'. injection Hi' as <-. pose proof (Forall_lookup_1 _ _ _ _ Hall Hj) as Hall2. pose proof (Forall_lookup_1 _ _ _ _ Hall2 Hk) as Hf. cbn beta in Hf. congruence.
Qed.

(** ** [zone_free] *)
Definition free_post (ptr s : Z) z zs (r : Z) z' : Prop :=
  zones z' = zones z /\ z_locked z' = false /\ exists zs', zone_rep a0 z' zs' /\
    (r = 0 /\ (exists o, holds ptr s o /\ zobjs zs ≡ₚ o :: zobjs zs') \/
     r = 1 /\ zobjs zs' = zobjs zs /\ forall o, o ∈ zobjs zs -> ~ holds ptr s o).

(** The count of the page after an object of the entry is gone. *)
Lemma count_down i pg k e : page_ok i pg -> array pg !! k = Some e -> entry_objs i e <> [] -> u32 (z_objects pg - 1) = z_objects pg - 1.
Proof.
  intros Hpg Hk Hne. pose proof (z_objects_bound i pg Hpg). apply u32_small. destruct Hpg as (_ & _ & Hn & _). unfold page_objs in Hn.
  destruct (concat_focus (entry_objs i) _ k e Hk) as (o1 & o2 & Eo & _). rw Eo !length_app in Hn. destruct (entry_objs i e); [done|]. cbn in Hn. lia.
Qed.

(** Freeing the object of bit [b]. *)
Lemma free_small z zs i c j q pg k e s b : zone_rep a0 z zs -> zs !! i = Some c -> c !! j = Some (q, pg) -> array pg !! k = Some e ->
  small_zone i = true -> sizes i s -> 0 <= b < places s -> bit_at e b = true ->
  wp (put_entry q k (set_eobjects (u32 (e_objects e - 1)) (map_unit (fun u => Z.land u (Z.lnot (mask (b mod 64)))) (Z.to_nat (b / 64)) e));;
      set_zobjects (u32 (z_objects pg - 1)) q;; mret 0) z
    (fun r z' => kept z z' /\ r = 0 /\ exists zs', zone_rep a0 z' zs' /\ zobjs zs ≡ₚ (data e + b * s, s) :: zobjs zs').
Proof.
  intros Hr Hi Hj Hk Hsm Hs Hb Hset. destruct (small_zone_size i s Hs Hsm) as [Hss E]. rw E in Hss.
  destruct (rep_entry a0 z zs i c j q pg k e Hr Hi Hj Hk) as (F & O & Hg & HO & Hre).
  pose proof (rep_lookup a0 z zs i j c _ Hr Hi Hj) as Hq. cbn [fst snd] in Hq.
  pose proof (Forall_lookup_1 _ _ _ _ (zr_ok _ _ _ Hr i _ Hi) Hj) as Hpg. cbn [snd] in Hpg. pose proof (proj1 (proj2 Hpg)) as Hes.
  destruct (Forall_lookup_1 _ _ _ _ Hes Hk) as (Hu & Hd & Ho & Hz & Hp).
  set (e' := set_eobjects _ _). assert (entry_objs i e ≡ₚ (data e + b * s, s) :: entry_objs i e') as HP.
  { rw !entry_objs_small // E. rw {1}(busy_clear e s b Hu Hss Hb Hset). cbn [map]. done. }
  assert (e_objects e = Z.of_nat (length (entry_objs i e')) + 1) as Ec by (rw Ho (Permutation_length HP); cbn [length]; lia).
  assert (data e <> 0) as Hde by (intros Ez; specialize (Hz Ez); rw Hz in HP; by apply Permutation_nil_cons in HP).
  assert (entry_objs i e <> []) as Hne by (intros En; rw En in HP; by apply Permutation_nil_cons in HP).
  apply wp_bind. eapply wp_put_entry; [exact Hq|]. unfold set_zobjects. apply wp_bind, wp_bind.
  eapply (wp_get_page q (upd_entry k e' pg)); [cbn; by rw lookup_insert_eq|]. eapply (wp_put_page q (upd_entry k e' pg)); [cbn; by rw lookup_insert_eq|].
  apply wp_ret. split; [done|]. split; [done|]. match goal with |- context [set_pages ?m ?z1] => set (z' := set_pages m z1) end.
  destruct (Hre e' (z_objects pg - 1) z') as (zs' & Hr' & HO'); [..|exists zs'; split; [done|]; rw HO HP HO'; done].
  - split; [apply units_alter; [done|]; intros u Hu'; apply Z.land_nonneg; by left|]. split; [done|]. split.
    + cbn [e_objects e' set_eobjects]. rw u32_small; [lia|]. pose proof (objs_length_le i s [e]) as Hle.
      pose proof (busy_bound e s). rw entry_objs_small // length_map E in Ho. pose proof (small_places s Hss). lia.
    + split; [intros Ez; cbn in Ez; lia|by rw Hsm].
  - unfold entry_blocks in Hg |- *. rw Hsm in Hg |- *. exact Hg.
  - done.
  - done.
  - rw (Permutation_length HP). cbn [length]. lia.
  - unfold z'. cbn. rw insert_insert_eq. f_equal. unfold put_page_entry. f_equal. by apply (count_down i pg k e).
Qed.

(** Freeing an object of whole pages. *)
Lemma free_pages z zs i c j q pg k e s : zone_rep a0 z zs -> zs !! i = Some c -> c !! j = Some (q, pg) -> array pg !! k = Some e ->
  small_zone i = false -> page_size s -> entry_objs i e = [(data e, s)] -> data_size e = s ->
  wp (pf_page_free (data e) (s / ZONE_PAGE_SIZE);; put_entry q k (set_eobjects 0 (set_data 0 (set_data_size 0 e)));;
      set_zobjects (u32 (z_objects pg - 1)) q;; mret 0) z
    (fun r z' => kept z z' /\ r = 0 /\ exists zs', zone_rep a0 z' zs' /\ zobjs zs ≡ₚ (data e, s) :: zobjs zs').
Proof.
  intros Hr Hi Hj Hk Hsm Hss Eo Eds. destruct (page_multiple s Hss) as (Hn & Hmul & _).
  destruct (rep_entry a0 z zs i c j q pg k e Hr Hi Hj Hk) as (F & O & Hg & HO & Hre).
  pose proof (rep_lookup a0 z zs i j c _ Hr Hi Hj) as Hq. cbn [fst snd] in Hq.
  pose proof (Forall_lookup_1 _ _ _ _ (zr_ok _ _ _ Hr i _ Hi) Hj) as Hpg. cbn [snd] in Hpg. pose proof (proj1 (proj2 Hpg)) as Hes.
  destruct (Forall_lookup_1 _ _ _ _ Hes Hk) as (Hu & Hd & Ho & Hz & Hp).
  assert (data e <> 0) as Hde by (intros Ez; specialize (Hz Ez); by rw Eo in Hz).
  unfold entry_blocks in Hg. rw Hsm Eds in Hg. destruct (Z.eqb_spec (data e) 0) as [|_]; [done|].
  apply wp_bind. eapply (wp_page_free a0 (data e) (s / ZONE_PAGE_SIZE)); [rw Hmul; exact Hg|]. intros a Hg'.
  set (e' := set_eobjects 0 _). assert (entry_objs i e' = []) as E' by (by rw entry_objs_page).
  apply wp_bind. eapply wp_put_entry; [exact Hq|]. unfold set_zobjects. apply wp_bind, wp_bind.
  eapply (wp_get_page q (upd_entry k e' pg)); [cbn; by rw lookup_insert_eq|]. eapply (wp_put_page q (upd_entry k e' pg)); [cbn; by rw lookup_insert_eq|].
  apply wp_ret. split; [done|]. split; [done|]. match goal with |- context [set_pages ?m ?z1] => set (z' := set_pages m z1) end.
  destruct (Hre e' (z_objects pg - 1) z') as (zs' & Hr' & HO'); [..|exists zs'; split; [done|]; rw HO Eo HO' E'; done].
  - split; [split; cbn; [rw length_insert; apply Hu|apply Forall_insert; [apply Hu|done]]|]. split; [done|]. rw E'. by split_and!.
  - exact Hg'.
  - done.
  - done.
  - rw E' Eo. cbn [length]. lia.
  - unfold z'. cbn. rw insert_insert_eq. f_equal. unfold put_page_entry. f_equal. apply (count_down i pg k e Hpg Hk). by rw Eo.
Qed.

(** Where the search of [zone_free] and [zone_verify] ends. *)
Lemma zone_find n z zs ptr (Q : option (Z * nat) -> zone_context A -> Prop) :
  let s := _align n in let i := class s in
  zone_rep a0 z zs -> 0 < n <= MAX_ALLOC -> z_locked z = true ->
  ((forall o, o ∈ zobjs zs -> ~ holds ptr s o) -> Q None z) ->
  (forall c j q pg k e, zs !! i = Some c -> c !! j = Some (q, pg) -> array pg !! k = Some e -> in_entry ptr e = true ->
     ((forall o, o ∈ entry_objs i e -> ~ holds ptr s o) -> forall o, o ∈ zobjs zs -> ~ holds ptr s o) -> Q (Some (q, k)) z) ->
  forall p, table z !! i = Some p -> wp (find_page (size (zpages z) + 2) p ptr) z Q.
Proof.
  intros s i Hr Hn Hlk HQ0 HQ p Hp. destruct (align_sizes n Hn) as [_ Hs]. fold s i in Hs. destruct (rep_zone a0 z zs i Hr) as (c & Hc & Ht); [apply Hs|].
  assert (p = head_addr c) as -> by congruence. pose proof (zchain_length _ _ _ _ _ Hr Hc) as Hlen.
  eapply wp_mono; [apply (find_page_spec _ z zs i [] c ptr Hr Hc); lia|]. intros f z' [-> Hf]. destruct f as [[q k]|].
  - destruct Hf as (j & pg & e & Hj & Hk & He). apply (HQ c j q pg k e); [done|done|done|done|]. intros Hnone o Ho Hh.
    destruct (holder z zs s i c ptr o Hr eq_refl Hc Ho Hh) as (e2 & Hin2 & Ho2 & He2 & _).
    pose proof (in_entry_unique z zs i e i e2 ptr o Hr (elem_of_ents zs i c j _ k e Hc Hj Hk) Hin2 He He2 Ho2) as [= ->]. by apply (Hnone o).
  - apply HQ0. intros o Ho Hh. by destruct (holder z zs s i c ptr o Hr eq_refl Hc Ho Hh) as (_ & _ & _ & _ & []).
Qed.

Lemma zone_free_rep ptr n z zs : zone_rep a0 z zs -> z_locked z = false -> 0 < n <= MAX_ALLOC ->
  wp (zone_free ptr n) z (free_post ptr (_align n) z zs).
Proof.
  intros Hr Hlk Hn. destruct (align_sizes n Hn) as [_ Hs]. set (s := _align n) in *. set (i := class s) in *.
  unfold zone_free. apply wp_bind, zone_page_spec; [done|]. fold s i. cbv beta iota. destruct (rep_zone a0 z zs i Hr) as (c & Hc & Ht); [apply Hs|].
  unfold read_zone. apply wp_bind, wp_bind, wp_gets. eapply wp_lift_opt; [exact Ht|]. apply wp_bind, wp_lock; [done|].
  pose proof (rep_lock a0 true z zs Hr) as Hr0. set (z0 := set_locked true z) in *. apply wp_bind, wp_gets, wp_bind.
  apply (zone_find n z0 zs ptr); [done|done|done| | |exact Ht].
  - intros Hnone. apply wp_bind, wp_ret, wp_bind, wp_modify, wp_ret. split; [done|]. split; [done|]. exists zs. split; [by apply rep_lock|]. by right.
  - intros c1 j q pg k e Hi Hj Hk He Hnone. fold s i in Hi, Hnone. pose proof (rep_lookup a0 z0 zs i j c1 _ Hr0 Hi Hj) as Hq. cbn [fst snd] in Hq.
    pose proof (Forall_lookup_1 _ _ _ _ (zr_ok _ _ _ Hr0 i _ Hi) Hj) as (_ & Hes & _). pose proof (Forall_lookup_1 _ _ _ _ Hes Hk) as Hok.
    assert (forall m : M (zone_context A) Z, wp m z0 (fun r z' => kept z0 z' /\ (r = 0 /\ (exists o zs', zone_rep a0 z' zs' /\ holds ptr s o /\ zobjs zs ≡ₚ o :: zobjs zs') \/
      r = 1 /\ z' = z0 /\ forall o, o ∈ zobjs zs -> ~ holds ptr s o)) -> wp (r ← m; _unlock;; mret r) z0 (free_post ptr s z zs)) as Hend.
    { intros m Hm. apply wp_bind. eapply wp_mono; [exact Hm|]. intros r z' ([Hk1 Hk2] & Hout). apply wp_bind, wp_modify, wp_ret. split; [by rw -Hk1|]. split; [done|].
      destruct Hout as [(-> & o & zs' & Hr' & Hh & Ho)|(-> & -> & Hno)]; [exists zs'|exists zs]; (split; [by apply rep_lock|]); [left|by right]. split; [done|]. by exists o. }
    apply Hend. clear Hend. apply wp_bind. eapply (wp_get_entry q k pg e); [done|done|]. apply wp_bind. eapply wp_get_page; [exact Hq|].
    destruct Hs as [Hb [(Hsm & Hss & Esz)|(Hsm & Hss & Ecl)]].
    + pose proof (small_places s Hss) as (_ & _ & Hsb). unfold ZONE_PAGE_SIZE at 1. destruct (Z.ltb_spec s 4096); [|lia].
      assert (sizes i s) as Hs by (split; [done|by left]). pose proof (small_holds i e s ptr Hok Hs Hsm He) as Hh. destruct (busy_bit e ptr s) as [[u b]|].
      * destruct Hh as (b' & -> & -> & Hbr & Hset & Hh). eapply wp_mono; [by apply (free_small z0 zs i c1 j q pg k e s b')|].
        intros r z' (Hkp & -> & zs' & Hr' & Ho). split; [done|]. left. split; [done|]. by exists (data e + b' * s, s), zs'.
      * apply wp_ret. split; [done|]. right. split_and!; [done|done|]. by apply Hnone.
    + destruct (page_multiple s Hss) as (_ & _ & ->). pose proof (page_holds i e s ptr Hok Hsm Hss He) as Hh. destruct (busy_pages e s).
      * destruct Hh as (Eo & Eds & Hh). eapply wp_mono; [by apply (free_pages z0 zs i c1 j q pg k e s)|].
        intros r z' (Hkp & -> & zs' & Hr' & Ho). split; [done|]. left. split; [done|]. by exists (data e, s), zs'.
      * apply wp_ret. split; [done|]. right. split_and!; [done|done|]. by apply Hnone.
Qed.

(** ** [zone_verify] *)
Lemma zone_verify_rep ptr n z zs : zone_rep a0 z zs -> z_locked z = false -> 0 < n <= MAX_ALLOC ->
  wp (zone_verify ptr n) z (fun r z' => z' = z /\ (r = 1 /\ (exists o, o ∈ zobjs zs /\ holds ptr (_align n) o) \/
    r = 0 /\ forall o, o ∈ zobjs zs -> ~ holds ptr (_align n) o)).
Proof.
  intros Hr Hlk Hn. destruct (align_sizes n Hn) as [_ Hs]. set (s := _align n) in *. set (i := class s) in *.
  unfold zone_verify. apply wp_bind, zone_page_spec; [done|]. fold s i. cbv beta iota. destruct (rep_zone a0 z zs i Hr) as (c & Hc & Ht); [apply Hs|].
  unfold read_zone. apply wp_bind, wp_bind, wp_gets. eapply wp_lift_opt; [exact Ht|]. apply wp_bind, wp_lock; [done|].
  pose proof (rep_lock a0 true z zs Hr) as Hr0. set (z0 := set_locked true z) in *. apply wp_bind, wp_gets, wp_bind.
  assert (set_locked false z0 = z) as Ez by (unfold z0, set_locked; cbn; rw -Hlk; by destruct z).
  apply (zone_find n z0 zs ptr); [done|done|done| | |exact Ht].
  - intros Hnone. apply wp_bind, wp_ret, wp_bind, wp_modify, wp_ret. split; [done|]. by right.
  - intros c1 j q pg k e Hi Hj Hk He Hnone. fold s i in Hi, Hnone. pose proof (rep_lookup a0 z0 zs i j c1 _ Hr0 Hi Hj) as Hq. cbn [fst snd] in Hq.
    pose proof (Forall_lookup_1 _ _ _ _ (zr_ok _ _ _ Hr0 i _ Hi) Hj) as (_ & Hes & _). pose proof (Forall_lookup_1 _ _ _ _ Hes Hk) as Hok.
    assert (forall o, o ∈ entry_objs i e -> o ∈ zobjs zs) as Hin.
    { intros o Ho. rw zobjs_ents. apply elem_of_concat_map. exists (i, e). split; [by eapply elem_of_ents|done]. }
    apply wp_bind, wp_bind. eapply (wp_get_entry q k pg e); [done|done|]. apply wp_ret, wp_bind, wp_modify, wp_ret. split; [done|].
    destruct Hs as [Hb [(Hsm & Hss & Esz)|(Hsm & Hss & Ecl)]].
    + pose proof (small_places s Hss) as (_ & _ & Hsb). assert ((s <? ZONE_PAGE_SIZE) = true) as -> by (apply Z.ltb_lt; unfold ZONE_PAGE_SIZE; lia).
      assert (sizes i s) as Hs by (split; [done|by left]). pose proof (small_holds i e s ptr Hok Hs Hsm He) as Hh. destruct (busy_bit e ptr s) as [[u b]|]; [|right; split; [done|by apply Hnone]].
      destruct Hh as (b' & _ & _ & Hbr & Hset & Hh). left. split; [done|]. exists (data e + b' * s, s). split; [|done]. apply Hin.
      rw entry_objs_small // Esz. apply elem_of_map. exists b'. split; [by apply elem_of_busy|done].
    + destruct (page_multiple s Hss) as (_ & _ & ->). pose proof (page_holds i e s ptr Hok Hsm Hss He) as Hh. destruct (busy_pages e s); [|right; split; [done|by apply Hnone]].
      destruct Hh as (Eo & _ & Hh). left. split; [done|]. exists (data e, s). split; [|done]. apply Hin. rw Eo. left.
Qed.
End spaced.
