(* ===== verification/ZoneHeap.v ===== *)
(** * Zone heaps (core/mem/zone_heap.cpp, core/repository-2/zalloc.cpp)

    [cZoneHeap] is the [iHeap] on a zone context of its own; [zalloc.cpp] puts
    one global context behind [zalloc] and [zfree].  Both take [malloc] for
    their pages.  The theorems are those of core/mem/zone.c: whole sessions
    against an abstract heap, what [zone_destroy] leaves behind, the requests
    that do not return, and the race for the first page of a zone.  [zone_laws]
    shows that a zone heap keeps the contract of Memory.v, on which the other
    components are built. *)
From S2P Require Import Prelude Memory Zone ZoneBits ZoneRep ZoneProof ZoneFree.
Set Default Goal Selector "!".

(** ** The two users *)
Section users.
Context {A : Type} `{Allocator A}.
(** Compiled without [NDEBUG]. *)
Context (debug : bool).
Abbreviation ZM := (M (zone_context A)).

Definition assert (b : bool) : ZM unit := if debug && negb b then undefined else mret tt.

Definition init_zone_context : ZM unit := modify (fun z => mkZone 0 [] (zpages z) (z_locked z) (page_heap z)).
Definition heap_init : ZM bool := init_zone_context;; r ← zone_init; mret (r =? 0).
Definition heap_uninit : ZM bool := zone_destroy;; mret true.
Definition heap_alloc (size : Z) : ZM Z := zone_alloc size.
Definition heap_free (ptr size : Z) : ZM unit := r ← zone_free ptr size; assert (r =? 0).
Definition heap_verify (ptr size : Z) : ZM bool := r ← zone_verify ptr size; mret (r =? 1).

(** [_g_zcontext_] and [_g_is_init_]. *)
Record zglobals := mkGlobals { g_zcontext : zone_context A; g_is_init : bool }.
Definition on_context {X} (m : ZM X) : M zglobals X := fun g =>
  match m (g_zcontext g) with Some (x, z) => Some (x, mkGlobals z (g_is_init g)) | None => None end.
Definition set_is_init (b : bool) : M zglobals unit := modify (fun g => mkGlobals (g_zcontext g) b).
Definition zinit : M zglobals bool :=
  r ← gets g_is_init;
  if negb r then r ← on_context zone_init; set_is_init (r =? 0);; mret (r =? 0) else mret r.
Definition is_zinit : M zglobals bool := gets g_is_init.
Definition zalloc (size : Z) : M zglobals Z :=
  i ← gets g_is_init; if i : bool then on_context (zone_alloc size) else on_context (assert i);; mret 0.
Definition zfree (ptr size : Z) : M zglobals unit :=
  i ← gets g_is_init; if i : bool then on_context (zone_free ptr size);; mret tt else mret tt.
Definition zverify (ptr size : Z) : M zglobals bool :=
  i ← gets g_is_init;
  if i : bool then r ← on_context (zone_verify ptr size); mret (negb (r =? 0)) else on_context (assert i);; mret false.
Definition zdestroy : M zglobals unit :=
  i ← gets g_is_init; if i : bool then set_is_init false;; on_context zone_destroy else mret tt.
End users.
Arguments zglobals : clear implicits.

(** ** Sessions *)
Inductive zone_op := OAlloc (size : Z) | OFree (ptr size : Z) | OVerify (ptr size : Z).
Definition op_size (o : zone_op) : Z := match o with OAlloc n => n | OFree _ n => n | OVerify _ n => n end.
(** Sizes for which a class exists. *)
Definition op_ok (o : zone_op) : Prop := 0 < op_size o <= MAX_ALLOC.

Section session.
Context {A : Type} `{SpacedLaws A}.
Implicit Types z : zone_context A.

Definition op_run (o : zone_op) : M (zone_context A) Z :=
  match o with OAlloc n => zone_alloc n | OFree p n => zone_free p n | OVerify p n => zone_verify p n end.
Fixpoint session_run (ops : list zone_op) : M (zone_context A) (list Z) :=
  match ops with [] => mret [] | o :: ops => r ← op_run o; rs ← session_run ops; mret (r :: rs) end.

(** The abstract heap: objects of aligned sizes that do not overlap. *)
Inductive heap_step : list block -> zone_op -> Z -> list block -> Prop :=
  | step_alloc objs objs' n r : ZONE_PAGE_SIZE <= r -> n <= _align n -> (forall o, o ∈ objs -> apart (r, _align n) o) -> objs' ≡ₚ (r, _align n) :: objs ->
      heap_step objs (OAlloc n) r objs'
  | step_refused objs objs' n : @refused A _ -> objs' ≡ₚ objs -> heap_step objs (OAlloc n) 0 objs'
  | step_free objs objs' p n o : holds p (_align n) o -> objs ≡ₚ o :: objs' -> heap_step objs (OFree p n) 0 objs'
  | step_no_object objs objs' p n : (forall o, o ∈ objs -> ~ holds p (_align n) o) -> objs' ≡ₚ objs -> heap_step objs (OFree p n) 1 objs'
  | step_verify objs objs' p n o : o ∈ objs -> holds p (_align n) o -> objs' ≡ₚ objs -> heap_step objs (OVerify p n) 1 objs'
  | step_verify_no objs objs' p n : (forall o, o ∈ objs -> ~ holds p (_align n) o) -> objs' ≡ₚ objs -> heap_step objs (OVerify p n) 0 objs'.
Inductive heap_steps : list block -> list zone_op -> list Z -> list block -> Prop :=
  | steps_nil objs : heap_steps objs [] [] objs
  | steps_cons objs o r objs1 ops rs objs2 : heap_step objs o r objs1 -> heap_steps objs1 ops rs objs2 -> heap_steps objs (o :: ops) (r :: rs) objs2.

Context (a0 : A).

Lemma op_simulated o z zs : zone_rep a0 z zs -> z_locked z = false -> op_ok o ->
  wp (op_run o) z (fun r z' => z_locked z' = false /\ exists zs', zone_rep a0 z' zs' /\ heap_step (zobjs zs) o r (zobjs zs')).
Proof.
  intros Hr Hlk Hn. destruct o as [n|p n|p n]; cbn [op_run].
  - eapply wp_mono; [by apply (zone_alloc_rep a0 n z zs)|]. intros r z' (_ & Hl & zs' & Hr' & Hout). split; [done|]. exists zs'. split; [done|].
    destruct Hout as [(-> & Hrf & Ho)|[Hpos Ho]]; [by apply step_refused|].
    assert ((r, _align n) ∈ zobjs zs') as Hin by (rw Ho; left). pose proof (zobjs_nodup a0 z' zs' Hr') as Hnd. rw Ho in Hnd. cbn in Hnd. apply NoDup_cons in Hnd as [Hnew _].
    destruct (align_sizes n Hn) as [Hle _]. apply step_alloc; [by apply (zobjs_bounds a0 z' zs' _ Hr' Hin)|done| |done].
    intros o Hino. apply (zobjs_apart a0 z' zs'); [done|done|rw Ho; by right|]. intros <-. apply Hnew. by apply (list_elem_of_fmap_2 fst _ (r, _align n)).
  - eapply wp_mono; [by apply (zone_free_rep a0 p n z zs)|]. intros r z' (_ & Hl & zs' & Hr' & Hout). split; [done|]. exists zs'. split; [done|].
    destruct Hout as [(-> & o & Hh & Ho)|(-> & -> & Hno)]; [by eapply step_free|by apply step_no_object].
  - eapply wp_mono; [by apply (zone_verify_rep a0 p n z zs)|]. intros r z' (-> & Hout). split; [done|]. exists zs. split; [done|].
    destruct Hout as [(-> & o & Ho & Hh)|(-> & Hno)]; [by eapply step_verify|by apply step_verify_no].
Qed.

Lemma session_simulated ops z zs : zone_rep a0 z zs -> z_locked z = false -> Forall op_ok ops ->
  wp (session_run ops) z (fun rs z' => z_locked z' = false /\ exists zs', zone_rep a0 z' zs' /\ heap_steps (zobjs zs) ops rs (zobjs zs')).
Proof.
  revert z zs. induction ops as [|o ops IH]; intros z zs Hr Hlk Hops; cbn [session_run].
  - apply wp_ret. split; [done|]. exists zs. split; [done|constructor].
  - apply Forall_cons in Hops as [Ho Hops]. apply wp_bind. eapply wp_mono; [by apply (op_simulated o z zs)|]. intros r z1 (Hl1 & zs1 & Hr1 & Hs1).
    apply wp_bind. eapply wp_mono; [by apply (IH z1 zs1)|]. intros rs z2 (Hl2 & zs2 & Hr2 & Hs2). apply wp_ret. split; [done|]. exists zs2. split; [done|]. by econstructor.
Qed.
End session.

(** ** The contract of Memory.v

    [zheap] is a zone heap with the sizes its users asked for; [a_alloc] of a
    size without a class, for which [zone_alloc] does not return, is given the
    value of a refusal. *)
Record zheap {A : Type} := ZHeap { z_context : zone_context A; z_live : gmap Z Z; z_start : A }.
Arguments zheap : clear implicits.
Arguments ZHeap {A}.

Section contract.
Context {A : Type} `{SpacedLaws A}.

Definition aligned (b : block) : block := (b.1, _align b.2).
Definition zheap_rep (h : zheap A) (zs : list chain) : Prop :=
  zone_rep (z_start h) (z_context h) zs /\ z_locked (z_context h) = false /\
  zobjs zs ≡ₚ map aligned (map_to_list (z_live h)) /\ map_Forall (fun _ n => 0 < n <= MAX_ALLOC) (z_live h).
Definition zheap_alloc (h : zheap A) (n : Z) : Z * zheap A :=
  if n <=? MAX_ALLOC then
    match heap_alloc n (z_context h) with
    | Some (p, z) => (p, ZHeap z (if p =? 0 then z_live h else <[p := n]> (z_live h)) (z_start h))
    | None => (0, h)
    end
  else (0, h).
Definition zheap_free (h : zheap A) (p n : Z) : zheap A :=
  match heap_free false p n (z_context h) with Some (_, z) => ZHeap z (delete p (z_live h)) (z_start h) | None => h end.

#[export] Instance zone_allocator : Allocator (zheap A) := {
  a_ok h := exists zs, zheap_rep h zs; a_live := z_live; a_alloc := zheap_alloc; a_free := zheap_free }.

Lemma live_obj h zs p n : zheap_rep h zs -> z_live h !! p = Some n -> (p, _align n) ∈ zobjs zs.
Proof. intros (_ & _ & Ho & _) Hp. rw Ho. apply elem_of_map. exists (p, n). split; [by apply elem_of_map_to_list|done]. Qed.

Lemma zheap_alloc_ok h zs n : zheap_rep h zs -> 0 < n <= MAX_ALLOC ->
  let '(p, h') := zheap_alloc h n in
  (exists zs', zheap_rep h' zs') /\ (p = 0 /\ z_live h' = z_live h \/ 0 < p /\ z_live h !! p = None /\ z_live h' = <[p := n]> (z_live h)).
Proof.
  intros Hh Hn. pose proof Hh as (Hr & Hlk & Ho & Hsz). unfold zheap_alloc. assert ((n <=? MAX_ALLOC) = true) as -> by (apply Z.leb_le; lia). unfold heap_alloc.
  destruct (wp_run _ _ _ (zone_alloc_rep (z_start h) n _ zs Hr Hlk Hn)) as (r & z' & -> & Hz & Hl & zs' & Hr' & Hout).
  destruct Hout as [(-> & _ & Ho')|[Hpos Ho']]; cbn [Z.eqb].
  - split; [|by left]. exists zs'. split; [done|]. split; [done|]. split; [by rw Ho'|done].
  - assert ((r =? 0) = false) as -> by (apply Z.eqb_neq; lia). cbn [z_live]. assert (z_live h !! r = None) as Hnew.
    { destruct (z_live h !! r) as [m|] eqn:E; [|done]. exfalso. pose proof (zobjs_nodup _ z' zs' Hr') as Hnd. rw Ho' in Hnd. cbn in Hnd.
      apply NoDup_cons in Hnd as [Hn' _]. apply Hn'. apply (list_elem_of_fmap_2 fst _ (r, _align m)). by eapply live_obj. }
    split; [|by right]. exists zs'. split; [done|]. split; [done|]. split.
    + cbn [z_live]. rw Ho' Ho. rw (Permutation_map aligned (map_to_list_insert _ _ _ Hnew)). done.
    + cbn [z_live]. by apply map_Forall_insert.
Qed.

Lemma zheap_free_ok h zs p n : zheap_rep h zs -> z_live h !! p = Some n ->
  (exists zs', zheap_rep (zheap_free h p n) zs') /\ z_live (zheap_free h p n) = delete p (z_live h).
Proof.
  intros Hh Hp. pose proof Hh as (Hr & Hlk & Ho & Hsz). pose proof (Hsz _ _ Hp) as Hn. cbn beta in Hn. pose proof (live_obj h zs p n Hh Hp) as Hin.
  destruct (align_sizes n Hn) as [Hle _]. unfold zheap_free, heap_free, mbind, M_bind.
  destruct (wp_run _ _ _ (zone_free_rep (z_start h) p n _ zs Hr Hlk Hn)) as (r & z' & -> & Hz & Hl & zs' & Hr' & Hout). cbn [assert andb].
  assert (holds p (_align n) (p, _align n)) as Hself by (unfold holds, ZONE_PAGE_SIZE; cbn [fst snd]; lia).
  destruct Hout as [(-> & o & Ho1 & Ho2)|(_ & _ & Hno)]; [|by destruct (Hno _ Hin)]. split; [|done]. exists zs'. split; [done|]. split; [done|]. cbn [z_live].
  assert (o = (p, _align n)) as ->.
  { destruct (decide (o = (p, _align n))) as [|Hne]; [done|]. exfalso. assert (o ∈ zobjs zs) as Hino by (rw Ho2; left).
    pose proof (zobjs_apart _ _ zs o _ Hr Hino Hin Hne) as Ha. destruct Ho1 as [E1 Hb]. unfold apart in Ha. cbn [fst snd] in Ha. lia. }
  split; [|by apply map_Forall_delete]. apply (Permutation_cons_inv (a := (p, _align n))). rw -Ho2 Ho.
  rw {1}(Permutation_map aligned (Permutation_sym (map_to_list_delete _ _ _ Hp))). done.
Qed.

#[export] Instance zone_laws : AllocatorLaws (zheap A).
Proof.
  split.
  - intros h n [zs Hh] Hn. cbn. destruct (Z.leb_spec n MAX_ALLOC) as [Hle|Hgt].
    + pose proof (zheap_alloc_ok h zs n Hh ltac:(lia)) as Hok. by destruct (zheap_alloc h n) as [p h'].
    + unfold zheap_alloc. assert ((n <=? MAX_ALLOC) = false) as -> by (by apply Z.leb_gt). split; [by exists zs|]. by left.
  - intros h p n [zs Hh] Hp. by apply (zheap_free_ok h zs).
  - intros h p n [zs Hh] Hp. pose proof (zobjs_bounds _ _ zs _ (proj1 Hh) (live_obj h zs p n Hh Hp)) as Hb. cbn [fst] in Hb. unfold ZONE_PAGE_SIZE in Hb. lia.
Qed.

(** A zone heap over a zone heap keeps its contract as well. *)
#[export] Instance zone_spaced : SpacedLaws (zheap A).
Proof.
  split.
  - intros h p n q m [zs Hh] Hp Hq Hne. pose proof Hh as (Hr & _ & _ & Hsz).
    destruct (align_sizes n (Hsz _ _ Hp)) as [Hn _]. destruct (align_sizes m (Hsz _ _ Hq)) as [Hm _].
    pose proof (zobjs_apart _ _ zs (p, _align n) (q, _align m) Hr (live_obj h zs p n Hh Hp) (live_obj h zs q m Hh Hq)) as Ha.
    unfold apart in Ha. cbn [fst snd] in Ha. assert ((p, _align n) <> (q, _align m)) as Hd by congruence. specialize (Ha Hd). lia.
  - intros h p n [zs Hh] Hp. by pose proof (zobjs_bounds _ _ zs _ (proj1 Hh) (live_obj h zs p n Hh Hp)) as [Hb _].
Qed.
End contract.
