(* ===== verification/ZoneDestroy.v ===== *)
(** * Zone allocator: [zone_destroy] (core/mem/zone.c)

    [destroy_zone_page] walks a chain of pages with one index over their
    entries, which it never sets back: the data pages of the first page of each
    chain are given back, those of the later pages are not. *)
From S2P Require Import Prelude Memory Zone ZoneBits ZoneRep ZoneProof.
Set Default Goal Selector "!".

(** The blocks that stay allocated: those of the entries of later pages. *)
Definition chain_leaks (i : nat) (c : chain) : list block := concat (map (fun p => concat (map (entry_blocks i) (array p.2))) (tail c)).
Definition zleaks (zs : list chain) : list block := concat (imap chain_leaks zs).

Section destroy.
Context {A : Type} `{AllocatorLaws A}.
Context (a0 : A).
Implicit Types z : zone_context A.

Lemma free_entries_spec i s l : sizes i s -> Forall (entry_ok i) l -> forall z F, grown a0 (page_heap z) (concat (map (entry_blocks i) l) ++ F) ->
  wp (free_entries l s) z (fun _ z' => exists a, z' = set_heap a z /\ grown a0 a F).
Proof.
  intros Hs. induction l as [|e l IH]; intros Hok z F Hg; cbn [free_entries].
  - apply wp_ret. exists (page_heap z). split; [by destruct z|done].
  - apply Forall_cons in Hok as [(_ & _ & _ & _ & Hpg) Hok]. cbn in Hg. unfold entry_blocks at 1 in Hg. apply wp_bind. destruct (Z.eqb_spec (data e) 0) as [Ed|Ed].
    + apply wp_when; [done|intros _]. by apply IH.
    + apply wp_when; [intros _|done]. cbn [app] in Hg.
      assert ((if ZONE_PAGE_SIZE <? s then data_size e / ZONE_PAGE_SIZE else 1) * ZONE_PAGE_SIZE = if small_zone i then ZONE_PAGE_SIZE else data_size e) as Hn.
      { destruct Hs as [_ [(-> & Hs & _)|(Hsm & Hs & Hc)]].
        - pose proof (small_places s Hs) as (_ & _ & Hb). unfold ZONE_PAGE_SIZE. destruct (Z.ltb_spec 4096 s); lia.
        - rw Hsm. destruct (Hpg Hsm Ed) as (_ & Hps & Hcl). destruct (page_multiple _ Hps) as (_ & Hm & _).
          unfold ZONE_PAGE_SIZE in *. destruct (Z.ltb_spec 4096 s); [done|]. destruct Hs as (k & Hk & ->), Hps as (m & Hm2 & E). rw E in Hcl |- *.
          assert (k = 1) as -> by lia. assert (m = 1) as ->; [|lia]. destruct (Z.eq_dec m 1) as [|Hne]; [done|]. exfalso.
          assert (2 * 4096 <= m * 4096) as Hle by lia. apply Z.log2_le_mono in Hle. change (Z.log2 (2 * 4096)) with 13 in Hle.
          unfold class in *. change (Z.log2 (1 * 4096)) with 12 in Hc. lia. }
      eapply (wp_page_free a0 (data e)); [rw Hn; exact Hg|]. intros a Hg'. eapply wp_mono; [by apply (IH Hok (set_heap a z) F)|].
      intros [] z' (a' & -> & Hg2). by exists a'.
Qed.

(** The pages of a chain, with the entries of the first one only. *)
Definition gone (z z' : zone_context A) : Prop := zones z' = zones z /\ table z' = table z /\ z_locked z' = z_locked z.

Lemma destroy_page fuel p pg idx rest z F s i : zpages z = list_to_map ((p, pg) :: rest) -> NoDup ((p, pg) :: rest).*1 -> 0 < p ->
  Forall (entry_ok i) (array pg) -> sizes i s ->
  grown a0 (page_heap z) (concat (map (entry_blocks i) (drop idx (array pg))) ++ (p, ZONE_PAGE_SIZE) :: F) -> forall Q : unit -> zone_context A -> Prop,
  (forall z', gone z z' -> zpages z' = list_to_map rest -> grown a0 (page_heap z') F -> wp (destroy_loop fuel (next pg) s ZONE_MAX_ENTRIES) z' Q) ->
  wp (destroy_loop (S fuel) p s idx) z Q.
Proof.
  intros Ep Hnd Hpos Hok Hs Hg Q HQ. cbn [destroy_loop]. destruct (Z.eqb_spec p 0); [lia|]. apply wp_bind.
  eapply (wp_get_page p pg); [rw Ep list_to_map_cons; by rw lookup_insert_eq|]. apply wp_bind.
  eapply wp_mono; [apply (free_entries_spec i s (drop idx (array pg)) Hs (Forall_drop _ _ _ Hok) z _ Hg)|].
  intros [] z1 (a & -> & Hg1). apply wp_bind. eapply (wp_page_free a0 p 1); [exact Hg1|]. intros a' Hg2. apply wp_bind, wp_modify. apply HQ; [done| |done].
  cbn. rw Ep list_to_map_cons. cbn in Hnd. apply NoDup_cons in Hnd as [Hn _]. rw delete_insert_id //. by apply not_elem_of_list_to_map.
Qed.

Lemma destroy_tail i s c : sizes i s -> linked c -> Forall (fun p => page_ok i p.2 /\ 0 < p.1) c -> forall fuel rest z F, zpages z = list_to_map (c ++ rest) -> NoDup (c ++ rest).*1 ->
  grown a0 (page_heap z) (map (fun p => (p.1, ZONE_PAGE_SIZE)) c ++ F) -> (length c < fuel)%nat ->
  wp (destroy_loop fuel (head_addr c) s ZONE_MAX_ENTRIES) z (fun _ z' => gone z z' /\ zpages z' = list_to_map rest /\ grown a0 (page_heap z') F).
Proof.
  intros Hs. induction c as [|[p pg] c IH]; intros Hl Hok fuel rest z F Ep Hnd Hg Hf; (destruct fuel as [|fuel]; [lia|]).
  - cbn [destroy_loop head_addr Z.eqb]. by apply wp_ret.
  - apply Forall_cons in Hok as [[Hpg Hpos] Hok]. destruct Hl as [Hn Hl]. destruct Hpg as (Hlen & Hes & _). cbn [fst snd head_addr] in *.
    apply (destroy_page fuel p pg _ (c ++ rest) z (map (fun p => (p.1, ZONE_PAGE_SIZE)) c ++ F) s i); [done|done|done|done|done| |].
    + rw drop_ge; [done|by rw Hlen].
    + intros z1 [Hg1 [Hg2 Hg3]] Ep1 Hgr1. rw Hn. cbn in Hnd. apply NoDup_cons in Hnd as [_ Hnd].
      eapply wp_mono; [apply (IH Hl Hok fuel rest z1 F Ep1 Hnd Hgr1); cbn in Hf; lia|]. intros [] z2 ([Hk1 [Hk2 Hk3]] & Ep2 & Hgr2).
      split; [split_and!; congruence|done].
Qed.

(** A whole chain. *)
Lemma destroy_chain i c rest z F : c <> [] -> linked c -> Forall (fun p => page_ok i p.2 /\ 0 < p.1) c -> zpages z = list_to_map (c ++ rest) -> NoDup (c ++ rest).*1 ->
  grown a0 (page_heap z) (concat (map (page_blocks i) c) ++ F) ->
  wp (destroy_zone_page (head_addr c)) z (fun _ z' => gone z z' /\ zpages z' = list_to_map rest /\ grown a0 (page_heap z') (chain_leaks i c ++ F)).
Proof.
  intros Hne Hl Hok Ep Hnd Hg. destruct c as [|[p pg] c]; [done|]. apply Forall_cons in Hok as [[Hpg Hpos] Hok]. destruct Hl as [Hn Hl].
  destruct Hpg as (Hlen & Hes & _ & Hs). cbn [fst snd head_addr] in *. unfold destroy_zone_page. apply wp_bind.
  eapply (wp_get_page p pg); [rw Ep; cbn; by rw lookup_insert_eq|]. apply wp_bind, wp_gets.
  assert (size (zpages z) = length ((p, pg) :: c ++ rest)) as -> by (rw Ep; by apply map_size_list_to_map). cbn [length Nat.add].
  assert (forall l, concat (map (page_blocks i) l) ≡ₚ map (fun p => (p.1, ZONE_PAGE_SIZE)) l ++ concat (map (fun p => concat (map (entry_blocks i) (array p.2))) l)) as HP.
  { intros l. induction l as [|q l IHl]; [done|]. cbn. rw IHl. unfold page_blocks. cbn [fst snd app]. solve_Permutation. }
  apply (destroy_page _ p pg 0 (c ++ rest) z (map (fun p => (p.1, ZONE_PAGE_SIZE)) c ++ chain_leaks i ((p, pg) :: c) ++ F) (object_size pg) i); [done|done|done|done|done| |].
  - eapply grown_perm; [|exact Hg]. cbn [map concat drop]. unfold page_blocks at 1. cbn [fst snd]. rw HP. unfold chain_leaks. cbn [tail]. solve_Permutation.
  - intros z1 [Hg1 [Hg2 Hg3]] Ep1 Hgr1. rw Hn. cbn in Hnd. apply NoDup_cons in Hnd as [_ Hnd].
    eapply wp_mono; [apply (destroy_tail i (object_size pg) c Hs Hl Hok _ rest z1 _ Ep1 Hnd Hgr1); rw length_app; lia|].
    intros [] z2 ([Hk1 [Hk2 Hk3]] & Ep2 & Hgr2). split; [split_and!; congruence|done].
Qed.

(** The zones from [k] on. *)
Lemma destroy_zones_spec zs : forall k z F, Forall linked zs -> (forall i c, zs !! i = Some c -> Forall (fun p => page_ok (k + i) p.2 /\ 0 < p.1) c) ->
  zpages z = list_to_map (concat zs) -> NoDup (concat zs).*1 ->
  grown a0 (page_heap z) (concat (imap (fun i c => concat (map (page_blocks (k + i)) c)) zs) ++ F) ->
  wp (destroy_zones (map head_addr zs)) z (fun _ z' => gone z z' /\ zpages z' = ∅ /\ grown a0 (page_heap z') (concat (imap (fun i => chain_leaks (k + i)) zs) ++ F)).
Proof.
  induction zs as [|c zs IH]; intros k z F Hl Hok Ep Hnd Hg; cbn [map destroy_zones].
  - apply wp_ret. split; [done|]. by cbn in *.
  - apply Forall_cons in Hl as [Hl1 Hl]. cbn [concat] in Ep, Hnd. cbn in Hg. rw Nat.add_0_r -app_assoc in Hg.
    assert (forall X (f : nat -> chain -> list X), imap (fun i c => f (k + S i)%nat c) zs = imap (fun i c => f (S k + i)%nat c) zs) as Hsh.
    { intros X f. apply imap_ext. intros i c' _. by rw Nat.add_succ_r. }
    assert (concat (imap ((fun i c => concat (map (page_blocks (k + i)) c)) ∘ S) zs) = concat (imap (fun i c => concat (map (page_blocks (S k + i)) c)) zs)) as E1.
    { f_equal. apply (Hsh _ (fun i c => concat (map (page_blocks i) c))). }
    rw E1 in Hg. clear E1. assert (NoDup (concat zs).*1) as Hnd2 by (rw fmap_app in Hnd; by apply NoDup_app in Hnd as (_ & _ & ?)).
    assert (forall i c, zs !! i = Some c -> Forall (fun p => page_ok (S k + i) p.2 /\ 0 < p.1) c) as Hok2.
    { intros i c' Hc. replace (S k + i)%nat with (k + S i)%nat by lia. by apply Hok. }
    cbn [imap concat]. rw Nat.add_0_r. apply wp_bind.
    assert (forall z1, gone z z1 -> zpages z1 = list_to_map (concat zs) ->
      grown a0 (page_heap z1) (chain_leaks k c ++ concat (imap (fun i c => concat (map (page_blocks (S k + i)) c)) zs) ++ F) ->
      wp (destroy_zones (map head_addr zs)) z1 (fun _ z' => gone z z' /\ zpages z' = ∅ /\
        grown a0 (page_heap z') ((chain_leaks k c ++ concat (imap ((fun i => chain_leaks (k + i)) ∘ S) zs)) ++ F))) as Hrest.
    { intros z1 [Hg1 [Hg2 Hg3]] Ep1 Hgr1. eapply wp_mono; [apply (IH (S k) z1 (chain_leaks k c ++ F) Hl Hok2 Ep1 Hnd2)|].
      - eapply grown_perm; [|exact Hgr1]. solve_Permutation.
      - intros [] z2 ([Hk1 [Hk2 Hk3]] & Ep2 & Hgr2). split; [split_and!; congruence|]. split; [done|]. eapply grown_perm; [|exact Hgr2].
        assert (imap ((fun i => chain_leaks (k + i)) ∘ S) zs = imap (fun i => chain_leaks (S k + i)) zs) as -> by apply (Hsh _ chain_leaks). solve_Permutation. }
    pose proof (Hok 0%nat c eq_refl) as Hok1. rw Nat.add_0_r in Hok1. destruct c as [|[p pg] c].
    + apply wp_when; [done|intros _]. by apply Hrest.
    + pose proof Hok1 as Hok1'. apply Forall_cons in Hok1' as [[_ Hpos] _]. cbn [head_addr fst] in *. apply wp_when; [intros _|destruct (Z.eqb_spec p 0); [lia|done]].
      eapply wp_mono; [by eapply (destroy_chain k ((p, pg) :: c) (concat zs) z)|]. intros [] z1 (Hgo & Ep1 & Hgr1). by apply Hrest.
Qed.

Lemma zone_destroy_rep z zs : zone_rep a0 z zs -> z_locked z = false ->
  wp zone_destroy z (fun _ z' => z_locked z' = false /\ table z' = [] /\ zpages z' = ∅ /\ grown a0 (page_heap z') (zleaks zs)).
Proof.
  intros Hr Hlk. unfold zone_destroy. apply wp_bind, wp_lock; [done|]. apply wp_bind, wp_gets, wp_bind. pose proof (zr_zones _ _ _ Hr) as Hz. cbn [zones set_locked].
  apply wp_when; [intros _|destruct (Z.eqb_spec (zones z) 0); done]. apply wp_bind, wp_gets. cbn [table set_locked]. rw (zr_table _ _ _ Hr). apply wp_bind.
  assert (zones z = zones (set_locked true z)) as Ez by done.
  eapply wp_mono; [apply (destroy_zones_spec zs 0 (set_locked true z) [(zones z, ZONE_PAGE_SIZE)]); [apply (zr_linked _ _ _ Hr)| |apply (zr_pages _ _ _ Hr)|by eapply rep_nodup|]|].
  - intros i c Hi. apply Forall_lookup_2. intros j p Hj. split; [apply (Forall_lookup_1 _ _ _ _ (zr_ok _ _ _ Hr i c Hi) Hj)|by apply (chain_pos a0 z zs i j c)].
  - eapply grown_perm; [|apply (zr_own _ _ _ Hr)]. unfold zblocks. cbn [Nat.add]. solve_Permutation.
  - intros [] z1 ([Hk1 [Hk2 Hk3]] & Ep1 & Hgr1). cbn [Nat.add] in Hgr1. apply wp_bind. eapply (wp_page_free a0 (zones z) 1 z1 (zleaks zs)).
    + eapply grown_perm; [|exact Hgr1]. unfold zleaks. change (1 * ZONE_PAGE_SIZE) with ZONE_PAGE_SIZE. change (imap chain_leaks zs) with (imap (fun i => chain_leaks i) zs). solve_Permutation.
    + intros a Hg. by apply wp_modify, wp_modify.
Qed.
End destroy.
