(* ===== verification/ZoneContract.v ===== *)
(** * Zone allocator: properties (core/mem/zone.c, core/mem/zone_heap.cpp,
    core/repository-2/zalloc.cpp)

    [Pages] is a concrete [malloc] for the witnesses: the bump allocator of
    Memory.v above the first page. *)
From S2P Require Import Prelude Memory Zone ZoneBits ZoneRep ZoneProof ZoneFree ZoneHeap ZoneDestroy.
Set Default Goal Selector "!".

Module Pages.
Record t := mk { heap : Bump.t }.
Definition ok (a : t) : Prop := ZONE_PAGE_SIZE <= Bump.top (heap a) /\
  (forall p n, Bump.live (heap a) !! p = Some n -> ZONE_PAGE_SIZE <= p /\ p + n <= Bump.top (heap a) /\ p < Bump.top (heap a)) /\
  (forall p n q m, Bump.live (heap a) !! p = Some n -> Bump.live (heap a) !! q = Some m -> p <> q -> p + n <= q \/ q + m <= p).
Definition alloc (a : t) (n : Z) : Z * t := let '(p, h) := Bump.alloc (heap a) n in (p, mk h).
Definition free (a : t) (p n : Z) : t := mk (Bump.free (heap a) p n).
Definition empty (b : nat) : t := mk (Bump.empty ZONE_PAGE_SIZE b).
Lemma empty_ok b : ok (empty b).
Proof. split; [done|]. split; intros p n; by intros. Qed.

Lemma pages_alloc_ok a n : ok a -> 0 < n -> ok (alloc a n).2.
Proof.
  intros (Ht & Hl & Hd) Hn. unfold alloc, Bump.alloc. destruct (Bump.budget (heap a)); [done|]. cbn. split; [cbn; lia|]. split; cbn.
  - intros p m. rw lookup_insert. case_decide; [intros [= <-]; lia|]. intros Hp%Hl. lia.
  - intros p m q k. rw !lookup_insert. case_decide; case_decide; intros Hp Hq Hne; simplify_eq.
    + apply Hl in Hq. lia.
    + apply Hl in Hp. lia.
    + by apply (Hd p m q k).
Qed.
End Pages.

#[global] Instance pages_allocator : Allocator Pages.t := {
  a_ok := Pages.ok; a_live a := Bump.live (Pages.heap a); a_alloc := Pages.alloc; a_free := Pages.free }.
#[global] Instance pages_laws : AllocatorLaws Pages.t.
Proof.
  split.
  - intros a n Ha Hn. split; [by apply Pages.pages_alloc_ok|]. destruct Ha as (Ht & Hl & _). unfold ZONE_PAGE_SIZE in Ht. cbn. unfold Pages.alloc, Bump.alloc. destruct (Bump.budget (Pages.heap a)); cbn; [by left|].
    right. split_and!; [lia| |done]. destruct (Bump.live (Pages.heap a) !! Bump.top (Pages.heap a)) eqn:E; [apply Hl in E; lia|done].
  - intros a p n (Ht & Hl & Hd) Hp. split; [|done]. split; [done|]. split; cbn.
    + intros q m [_ Hq]%lookup_delete_Some. by apply Hl.
    + intros q m r k [_ Hq]%lookup_delete_Some [_ Hr]%lookup_delete_Some. by apply Hd.
  - intros a p n (Ht & Hl & _) Hp. apply Hl in Hp. unfold ZONE_PAGE_SIZE in Hp. lia.
Qed.
#[global] Instance pages_spaced : SpacedLaws Pages.t.
Proof.
  split.
  - intros a p n q m (_ & _ & Hd). apply Hd.
  - intros a p n (_ & Hl & _) Hp. by destruct (Hl p n Hp).
Qed.

(** ** Sessions on a zone heap *)
(** [OCTL_INIT], and a session when there was memory for the table. *)
Definition heap_session {A} `{Allocator A} (ops : list zone_op) : M (zone_context A) (option (list Z)) :=
  b ← heap_init; if b : bool then rs ← session_run ops; mret (Some rs) else mret None.

Lemma heap_session_rep {A} `{SpacedLaws A} (a0 : A) (ops : list zone_op) : a_ok a0 -> Forall op_ok ops ->
  wp (heap_session ops) (blank a0) (fun out z => z_locked z = false /\
    match out with
    | Some rs => exists zs, zone_rep a0 z zs /\ heap_steps (A := A) [] ops rs (zobjs zs)
    | None => @refused A _ /\ zones z = 0
    end).
Proof.
  intros Ha Hops. unfold heap_session, heap_init, init_zone_context. apply wp_bind, wp_bind, wp_modify, wp_bind.
  change (mkZone 0 [] _ _ _) with (blank a0). eapply wp_mono; [by apply zone_init_rep|]. intros r z (Hlk & [(-> & Hrf & Hz)|(-> & Hr)]).
  - apply wp_ret. cbn [Z.eqb]. by apply wp_ret.
  - apply wp_ret. cbn [Z.eqb]. apply wp_bind. eapply wp_mono; [by apply (session_simulated a0 ops z no_zones)|].
    intros rs z' (Hlk' & zs & Hr' & Hs). apply wp_ret. split; [done|]. exists zs. by rw (proj1 no_zones_objs) in Hs.
Qed.

(** C23: A zone heap refines the abstract heap.  For any allocator of pages that
    keeps its contract and any sequence of allocations, frees and verifications
    with sizes that have a class - freed pointers need not come from the heap -
    every call returns, and the results are those of the abstract heap: an
    allocation returns a fresh object of the aligned size that overlaps none in
    use, or NULL when a page was refused; a free removes exactly the object the
    pointer points into, or answers 1 and changes nothing; a verification tells
    whether there is such an object.  The context keeps owning exactly its
    table, its zone pages and the data pages of the objects. *)
Theorem zone_heap_refines {A} `{SpacedLaws A} (a0 : A) (ops : list zone_op) : a_ok a0 -> Forall op_ok ops ->
  wp (heap_session ops) (blank a0) (fun out z =>
    z_locked z = false /\
    match out with
    | Some rs => exists zs objs, zone_rep a0 z zs /\ heap_steps (A := A) [] ops rs objs /\ zobjs zs = objs /\
        NoDup objs.*1 /\ (forall o1 o2, o1 ∈ objs -> o2 ∈ objs -> o1 <> o2 -> apart o1 o2)
    | None => @refused A _ /\ zones z = 0
    end).
Proof.
  intros Ha Hops. eapply wp_mono; [by apply heap_session_rep|]. intros [rs|] z (Hlk & Hout); (split; [done|]); [|done].
  destruct Hout as (zs & Hr & Hs). exists zs, (zobjs zs). split_and!; [done|done|done|by eapply zobjs_nodup|]. intros o1 o2. by apply (zobjs_apart a0 z).
Qed.
Definition session_example : list zone_op := [OAlloc 24; OAlloc 20; OAlloc 9000; OVerify 12293 24; OFree 12288 24; OFree 12288 24; OAlloc 32; OFree 9999999 5].
Lemma zone_heap_refines_witness : let rs := [12288; 12320; 20480; 1; 0; 1; 12288; 1] in
  exists z zs objs, heap_session session_example (blank (Pages.empty 10)) = Some (Some rs, z) /\
    zone_rep (Pages.empty 10) z zs /\ heap_steps (A := Pages.t) [] session_example rs objs.
Proof.
  intros rs. assert (Forall op_ok session_example) as Hops by (by repeat constructor).
  pose proof (zone_heap_refines (Pages.empty 10) session_example (Pages.empty_ok 10) Hops) as Hw. unfold wp in Hw.
  assert (exists z, heap_session session_example (blank (Pages.empty 10)) = Some (Some rs, z)) as [z E] by (eexists; by vm_compute).
  rw E in Hw. destruct Hw as (_ & zs & objs & Hr & Hs & _). exists z, zs, objs. exact (conj E (conj Hr Hs)).
Defined.

(** ** Requests that do not return *)
Lemma align_none n : n = 0 \/ MAX_ALLOC < n < 2 ^ 32 -> _align n = 0.
Proof.
  intros [-> |Hn]; [done|]. unfold MAX_ALLOC in Hn. unfold _align, ZONE_MIN_ALLOC, ZONE_PAGE_SIZE. destruct (Z.eqb_spec n 0); [lia|]. destruct (Z.ltb_spec n 16); [lia|].
  cbn [negb andb]. destruct (Z.ltb_spec 4096 n); [|lia]. assert (n / 4096 = 2 ^ 20 - 1) as E by (symmetry; apply (Z.div_unique n 4096 _ (n - (2 ^ 20 - 1) * 4096)); lia).
  pose proof (Z.div_mod n 4096 ltac:(lia)). destruct (Z.eqb_spec (n mod 4096) 0); [lia|]. cbn [negb]. by rw E.
Qed.
Lemma bit_loop_none fuel m h : bit_loop fuel m h 0 = None.
Proof. revert m h. induction fuel as [|fuel IH]; intros m h; [done|]. cbn [bit_loop]. rw Z.land_0_r. apply IH. Qed.

(** C25: No class exists for 0 bytes and for more than 2^32 - 4096: such a
    request aligns to 0, the highest bit of which the loop of [_bit_number]
    looks for without end - whatever the fuel, it finds none - so neither
    [zone_alloc] nor [zone_free] nor [zone_verify] returns, from any context. *)
Theorem zone_diverges {A} `{Allocator A} (z : zone_context A) (n ptr : Z) : n = 0 \/ MAX_ALLOC < n < 2 ^ 32 ->
  (forall fuel, bit_loop fuel (2 ^ 31) 0 (_align n) = None) /\
  zone_alloc n z = None /\ zone_free ptr n z = None /\ zone_verify ptr n z = None.
Proof.
  intros Hn. pose proof (align_none n Hn) as E. split; [intros fuel; rw E; apply bit_loop_none|].
  assert (_zone_page n z = None) as Ez by (unfold _zone_page; by rw E). unfold zone_alloc, zone_pointer, zone_free, zone_verify, mbind, M_bind. by rw Ez.
Qed.
Lemma zone_diverges_witness : zone_alloc 0 (blank (Pages.empty 10)) = None /\ zone_alloc 4294963201 (blank (Pages.empty 10)) = None.
Proof.
  split.
  - exact (proj1 (proj2 (zone_diverges (blank (Pages.empty 10)) 0 0 (or_introl eq_refl)))).
  - exact (proj1 (proj2 (zone_diverges (blank (Pages.empty 10)) 4294963201 0 (or_intror (conj eq_refl eq_refl))))).
Defined.

(** ** Destruction *)
Definition session_destroy {A} `{Allocator A} (ops : list zone_op) : M (zone_context A) (option (list Z)) :=
  out ← heap_session ops; when (if out is Some _ then true else false) (_ ← heap_uninit; mret tt);; mret out.
Lemma zleaks_single zs : (forall i c, zs !! i = Some c -> (length c <= 1)%nat) -> zleaks zs = [].
Proof.
  unfold zleaks. assert (forall g : nat -> nat, (forall i c, zs !! i = Some c -> (length c <= 1)%nat) -> concat (imap (fun i => chain_leaks (g i)) zs) = []) as Hg; [|by apply (Hg (fun i => i))].
  induction zs as [|c zs IH]; intros g Hl; [done|]. cbn. rw (IH (fun i => g (S i))); [|intros i; by apply (Hl (S i))].
  pose proof (Hl 0%nat c eq_refl). destruct c as [|p [|q c]]; [done|done|]. cbn in *. lia.
Qed.

(** C24: [zone_destroy] after any session gives back the table, every zone page
    and the data pages of the first zone page of every chain; exactly the data
    pages of the later zone pages of a chain stay allocated.  When no chain has
    grown beyond one page everything is given back. *)
Theorem zone_destroy_exact {A} `{SpacedLaws A} (a0 : A) (ops : list zone_op) : a_ok a0 -> Forall op_ok ops ->
  wp (session_destroy ops) (blank a0) (fun out z' => match out with
    | Some rs => exists z zs, heap_session ops (blank a0) = Some (out, z) /\ zone_rep a0 z zs /\ grown a0 (page_heap z') (zleaks zs) /\
        ((forall i c, zs !! i = Some c -> (length c <= 1)%nat) -> a_live (page_heap z') = a_live a0)
    | None => zones z' = 0 /\ @refused A _
    end).
Proof.
  intros Ha Hops. unfold session_destroy. apply wp_bind. destruct (wp_run _ _ _ (heap_session_rep a0 ops Ha Hops)) as (out & z & E & Hlk & Hout).
  apply (wp_intro _ _ out z); [done|]. destruct out as [rs|]; apply wp_bind.
  - destruct Hout as (zs & Hr & _). apply wp_when; [intros _|done]. unfold heap_uninit. apply wp_bind, wp_bind.
    eapply wp_mono; [by apply (zone_destroy_rep a0 z zs)|]. intros [] z' (_ & _ & _ & Hg). do 3 apply wp_ret. exists z, zs. split_and!; [done|done|done|].
    intros Hl. rw (zleaks_single zs Hl) in Hg. rw (gr_live _ _ _ Hg). by rw list_to_map_nil left_id_L.
  - apply wp_when; [done|intros _]. apply wp_ret. by destruct Hout.
Qed.
(** 65 pages: the 64th and the 65th are on the second zone page of the chain. *)
Lemma zone_destroy_exact_witness :
  (exists out z, session_destroy (replicate 65 (OAlloc 4096)) (blank (Pages.empty 200)) = Some (Some out, z) /\ size (a_live (page_heap z)) = 2%nat) /\
  (exists z zs z', heap_session (replicate 65 (OAlloc 4096)) (blank (Pages.empty 200)) = Some z /\ zone_rep (Pages.empty 200) z.2 zs /\ grown (Pages.empty 200) z' (zleaks zs)).
Proof.
  assert (exists out z, session_destroy (replicate 65 (OAlloc 4096)) (blank (Pages.empty 200)) = Some (Some out, z) /\ size (a_live (page_heap z)) = 2%nat) as (out & z & E & Es) by (do 2 eexists; split; [by vm_compute|by vm_compute]).
  split; [exact (ex_intro _ out (ex_intro _ z (conj E Es)))|].
  assert (Forall op_ok (replicate 65 (OAlloc 4096))) as Hops by (apply Forall_replicate; by split).
  pose proof (zone_destroy_exact (Pages.empty 200) (replicate 65 (OAlloc 4096)) (Pages.empty_ok 200) Hops) as Hw. unfold wp in Hw. rw E in Hw.
  destruct Hw as (z1 & zs & E1 & Hr & Hg & _). exists (Some out, z1), zs, (page_heap z). exact (conj E1 (conj Hr Hg)).
Defined.

(** ** Threads and globals *)
(** Two threads allocate in a zone without pages: both read its pointer before
    either takes its page. *)
Definition two_threads {A} `{Allocator A} (n : Z) : M (zone_context A) (list Z) :=
  x ← zone_pointer n; y ← zone_pointer n;
  match x, y with
  | Some (i, s, p), Some (j, t, q) =>
      p1 ← zone_alloc_at i s p; p2 ← zone_alloc_at j t q;
      v1 ← zone_verify p1 n; v2 ← zone_verify p2 n; f ← zone_free p1 n; mret [p1; p2; v1; v2; f]
  | _, _ => mret []
  end.
(** The second thread's page replaces the first's: its object is not found any
    more, and cannot be freed.  [zalloc] keeps [zones] after [zdestroy], so that
    the next [zinit] clears a table that was freed. *)
Theorem zone_defects :
  (exists z, (heap_init;; two_threads 32) (blank (Pages.empty 10)) = Some ([12288; 20480; 0; 1; 1], z)) /\
  zinit (mkGlobals (blank (Pages.empty 10)) false) <> None /\
  (zinit;; zdestroy;; zinit) (mkGlobals (blank (Pages.empty 10)) false) = None.
Proof. split; [eexists; by vm_compute|]. by split; vm_compute. Qed.
