(* ===== verification/Repo.v ===== *)
(** * Repository: registry, users, contexts of clones
    (core/repository-2/base_array.cpp, users.cpp, dcs.cpp;
    core/interface/iRepository.h, iBase.h)

    The repository knows objects by the entries of the arrays in which the images
    list them.  A class has its [object_info], its link map - a static table,
    so that all objects of a class share its pointers - and what its
    [object_ctl] asks of the repository; an object is its address and its class.
    The hash maps of the repository are finite maps here (MapObject.v has their
    refinement); [grants] are the answers of the heap to their requests. *)
From S2P Require Import Prelude Memory Str.
Set Default Goal Selector "!".

Definition ST_INITIALIZED : Z := 1.
Definition ST_DISABLED : Z := 2.
Definition ST_PENDING : Z := 4.
Definition RF_CLONE : Z := 1.
Definition RF_ORIGINAL : Z := 2.
Definition RF_TASK : Z := 4.
Definition RF_NOCRITICAL : Z := 16.
Definition RF_KEEP_PENDING : Z := 32.
Definition RF_POST_INIT : Z := 64.
Definition RCTL_LOAD : Z := 10.
Definition RCTL_REF : Z := 11.
Definition RCTL_UNREF : Z := 12.
Definition RCTL_UNLOAD : Z := 13.
Definition MAX_INAME : nat := 64.
Definition MAX_CNAME : nat := 64.
Definition has (flags f : Z) : bool := negb (Z.land flags f =? 0).

(** ** Classes *)
Record object_info := mkInfo { iname : list Z; cname : list Z; osize : Z; version : Z; oflags : Z }.
(** [ppi_base] tells whether there is a pointer; the pointer itself is in the state. *)
Record link_info := mkLink {
  ppi_base : bool; l_iname : option (list Z); l_cname : option (list Z); l_flags : Z; p_ref_ctl : bool; p_info_ctl : bool }.
(** What an [object_ctl] does with the repository: requests into members, which
    have to succeed, and releases of members. *)
Inductive ctl_call := Request (by_cname : bool) (name : list Z) (flags : Z) (member : nat) | Release (member : nat).
Record class := mkClass { c_info : object_info; object_link : list link_info; on_init : list ctl_call; on_uninit : list ctl_call }.

(** ** State *)
Record base_entry := mkBase { pi_base : Z; ref_cnt : Z; bstate : Z }.
Abbreviation base_key := (list Z * list Z * Z)%type (only parsing).
Inductive event :=
| EGet (h : Z) | EInit (p : Z) | EUninit (p : Z) | EStart (p : Z) | EStop (p : Z)
| ERef (cmd c : Z) (i : nat) | EInfo (cmd c : Z) (i : nat) (h : Z).

(** The image of an extension: what [init] returns, and its array, as entry,
    object and class. *)
Record image := mkImage { im_init : option Z; im_array : option (list (Z * Z * Z)) }.
Record extension := mkExt { e_alias : list Z; e_file : list Z; e_image : option image }.

Record repo {A : Type} := mkRepo {
  base_map : gmap base_key Z;        (* [_g_base_map_]: addresses of entries *)
  entries : gmap Z base_entry;       (* the entries of the images that are loaded *)
  objs : gmap Z Z;                   (* the class of every object *)
  slots : gmap (Z * nat) Z;          (* the pointers of the link maps *)
  members : gmap (Z * nat) Z;        (* the pointers of the objects *)
  users_map : gmap Z (gset Z);       (* [_g_users_map_] *)
  clones : gmap Z Z;                 (* [_gl_dcs_]: the state behind each clone *)
  ms_pending : gset Z;
  mpi_tasks : Z;
  core_array : list Z;
  exts : list extension;             (* [_g_ext_map_] *)
  grants : list bool;
  rheap : A;
  trace : list event
}.
Arguments repo : clear implicits.
Arguments mkRepo {A}.

Section repo.
Context {A : Type} `{Allocator A}.
(** The classes of the objects, by number. *)
Context (cls : Z -> class).
Abbreviation RM := (M (repo A)).

Definition set_base_map x (s : repo A) := mkRepo x (entries s) (objs s) (slots s) (members s) (users_map s) (clones s) (ms_pending s) (mpi_tasks s) (core_array s) (exts s) (grants s) (rheap s) (trace s).
Definition set_entries x (s : repo A) := mkRepo (base_map s) x (objs s) (slots s) (members s) (users_map s) (clones s) (ms_pending s) (mpi_tasks s) (core_array s) (exts s) (grants s) (rheap s) (trace s).
Definition set_objs x (s : repo A) := mkRepo (base_map s) (entries s) x (slots s) (members s) (users_map s) (clones s) (ms_pending s) (mpi_tasks s) (core_array s) (exts s) (grants s) (rheap s) (trace s).
Definition set_slots x (s : repo A) := mkRepo (base_map s) (entries s) (objs s) x (members s) (users_map s) (clones s) (ms_pending s) (mpi_tasks s) (core_array s) (exts s) (grants s) (rheap s) (trace s).
Definition set_members x (s : repo A) := mkRepo (base_map s) (entries s) (objs s) (slots s) x (users_map s) (clones s) (ms_pending s) (mpi_tasks s) (core_array s) (exts s) (grants s) (rheap s) (trace s).
Definition set_users x (s : repo A) := mkRepo (base_map s) (entries s) (objs s) (slots s) (members s) x (clones s) (ms_pending s) (mpi_tasks s) (core_array s) (exts s) (grants s) (rheap s) (trace s).
Definition set_clones x (s : repo A) := mkRepo (base_map s) (entries s) (objs s) (slots s) (members s) (users_map s) x (ms_pending s) (mpi_tasks s) (core_array s) (exts s) (grants s) (rheap s) (trace s).
Definition set_pending x (s : repo A) := mkRepo (base_map s) (entries s) (objs s) (slots s) (members s) (users_map s) (clones s) x (mpi_tasks s) (core_array s) (exts s) (grants s) (rheap s) (trace s).
Definition set_tasks x (s : repo A) := mkRepo (base_map s) (entries s) (objs s) (slots s) (members s) (users_map s) (clones s) (ms_pending s) x (core_array s) (exts s) (grants s) (rheap s) (trace s).
Definition set_exts x (s : repo A) := mkRepo (base_map s) (entries s) (objs s) (slots s) (members s) (users_map s) (clones s) (ms_pending s) (mpi_tasks s) (core_array s) x (grants s) (rheap s) (trace s).
Definition set_grants x (s : repo A) := mkRepo (base_map s) (entries s) (objs s) (slots s) (members s) (users_map s) (clones s) (ms_pending s) (mpi_tasks s) (core_array s) (exts s) x (rheap s) (trace s).
Definition set_rheap (x : A) (s : repo A) := mkRepo (base_map s) (entries s) (objs s) (slots s) (members s) (users_map s) (clones s) (ms_pending s) (mpi_tasks s) (core_array s) (exts s) (grants s) x (trace s).
Definition log (e : event) : RM unit := modify (fun s => mkRepo (base_map s) (entries s) (objs s) (slots s) (members s) (users_map s) (clones s) (ms_pending s) (mpi_tasks s) (core_array s) (exts s) (grants s) (rheap s) (trace s ++ [e])).

(** Whether the heap grants the next request of a map; it does when nothing is said. *)
Definition grant : RM bool := fun s =>
  match grants s with [] => Some (true, s) | b :: l => Some (b, set_grants l s) end.

(** ** Objects *)
(** A virtual call on something that is no object is undefined. *)
Definition class_of (p : Z) : RM class := c ← gets objs; c ← lift_opt (c !! p); mret (cls c).
Definition class_id (p : Z) : RM Z := c ← gets objs; lift_opt (c !! p).
Definition info_of (p : Z) : RM object_info := c ← class_of p; mret (c_info c).
Definition entry (h : Z) : RM base_entry := e ← gets entries; lift_opt (e !! h).
Definition put_base (h : Z) (e : base_entry) : RM unit := modify (fun s => set_entries (<[h := e]> (entries s)) s).

(** ** base_array.cpp *)
Definition key_iname (n : list Z) : base_key := (take (MAX_INAME - 1) n, [], 0).
Definition key_cname (n : list Z) : base_key := ([], take (MAX_CNAME - 1) n, 0).
Definition key_pointer (p : Z) : base_key := ([], [], p).

(** [hash_map::add] of a key that is not there; [set] drops the old record
    before it asks for the new one; [del]. *)
Definition map_insert (k : base_key) (h : Z) : RM bool :=
  ok ← grant; when ok (modify (fun s => set_base_map (<[k := h]> (base_map s)) s));; mret ok.
Definition map_replace (k : base_key) (h : Z) : RM bool :=
  modify (fun s => set_base_map (delete k (base_map s)) s);; map_insert k h.
Definition map_erase (k : base_key) : RM unit := modify (fun s => set_base_map (delete k (base_map s)) s).
Definition find_object (k : base_key) : RM (option Z) := m ← gets base_map; mret (m !! k).

Definition add_iname (h : Z) : RM bool :=
  e ← entry h; oi ← info_of (pi_base e);
  let key := key_iname (iname oi) in
  f ← find_object key;
  match f with
  | Some h' =>
      e' ← entry h'; oi' ← info_of (pi_base e');
      if bool_decide (cname oi = cname oi') && (version oi' <? version oi) then map_replace key h else mret false
  | None => map_insert key h
  end.
Definition add_cname (h : Z) : RM bool :=
  e ← entry h; oi ← info_of (pi_base e);
  let key := key_cname (cname oi) in
  f ← find_object key;
  match f with
  | Some h' =>
      e' ← entry h'; oi' ← info_of (pi_base e');
      if (version oi' <? version oi) && bool_decide (iname oi = iname oi') then map_replace key h else mret false
  | None => map_insert key h
  end.
(** [hash_map::add] of a key that is there returns its record. *)
Definition add_pointer (h : Z) : RM bool :=
  e ← entry h;
  f ← find_object (key_pointer (pi_base e));
  match f with Some _ => mret true | None => map_insert (key_pointer (pi_base e)) h end.
Fixpoint add_base_array (l : list Z) : RM unit :=
  match l with
  | [] => mret tt
  | h :: l => _ ← add_iname h; _ ← add_cname h; _ ← add_pointer h; add_base_array l
  end.

(** A name is removed when its entry is of the same object. *)
Definition remove_key (k : base_key) (h : Z) : RM unit :=
  e ← entry h; f ← find_object k;
  match f with
  | Some h' => e' ← entry h'; when (pi_base e' =? pi_base e) (map_erase k)
  | None => mret tt
  end.
Definition remove_iname (h : Z) : RM unit := e ← entry h; oi ← info_of (pi_base e); remove_key (key_iname (iname oi)) h.
Definition remove_cname (h : Z) : RM unit := e ← entry h; oi ← info_of (pi_base e); remove_key (key_cname (cname oi)) h.
Definition remove_pointer (h : Z) : RM unit := e ← entry h; map_erase (key_pointer (pi_base e)).
Fixpoint remove_base_array (l : list Z) : RM unit :=
  match l with
  | [] => mret tt
  | h :: l => remove_iname h;; remove_cname h;; remove_pointer h;; remove_base_array l
  end.

Definition find_object_by_iname (n : list Z) : RM (option Z) := find_object (key_iname n).
Definition find_object_by_cname (n : list Z) : RM (option Z) := find_object (key_cname n).
Definition find_object_by_pointer (p : Z) : RM (option Z) := find_object (key_pointer p).
Definition destroy_base_array_storage : RM unit := modify (set_base_map ∅).

(** ** users.cpp *)
Definition users_add_object (h : Z) : RM unit :=
  m ← gets users_map;
  match m !! h with
  | Some _ => mret tt
  | None => ok ← grant; when ok (modify (fun s => set_users (<[h := ∅]> (users_map s)) s))
  end.
Definition users_remove_object (h : Z) : RM unit := modify (fun s => set_users (delete h (users_map s)) s).
Definition users_add_object_user (h pi_user : Z) : RM unit :=
  users_add_object h;;
  modify (fun s => set_users (alter (fun x => {[pi_user]} ∪ x) h (users_map s)) s).
Definition users_remove_object_user (h pi_user : Z) : RM unit :=
  modify (fun s => set_users (alter (fun x => x ∖ {[pi_user]}) h (users_map s)) s).
Definition get_object_users (h : Z) : RM (option (gset Z)) := m ← gets users_map; mret (m !! h).
Definition destroy_users_storage : RM unit := modify (set_users ∅).

(** ** dcs.cpp *)
(** A copy of the original and a byte of state; 0 without memory. *)
Definition copy_members (src dst : Z) (m : gmap (Z * nat) Z) : gmap (Z * nat) Z :=
  list_to_map (map (fun x => ((dst, x.1.2), x.2)) (filter (fun x => x.1.1 = src) (map_to_list m))) ∪ m.
Definition drop_members (p : Z) (m : gmap (Z * nat) Z) : gmap (Z * nat) Z := filter (fun x => x.1.1 <> p) m.
Definition dcs_add (src c size : Z) : RM Z := fun s =>
  let '(p, a) := a_alloc (rheap s) (u32 (size + 1)) in
  Some (p, if p =? 0 then set_rheap a s
           else set_clones (<[p := 0]> (clones s)) (set_objs (<[p := c]> (objs s)) (set_members (copy_members src p (members s)) (set_rheap a s)))).
Definition dcs_create_context (h flags : Z) : RM Z :=
  e ← entry h; c ← class_id (pi_base e);
  let oi := c_info (cls c) in
  if has (Z.land (oflags oi) flags) RF_CLONE then dcs_add (pi_base e) c (osize oi) else mret 0.
Definition dcs_get_context_state (p : Z) : RM Z := m ← gets clones; lift_opt (m !! p).
Definition dcs_set_context_state (p st : Z) : RM unit :=
  _ ← dcs_get_context_state p; modify (fun s => set_clones (<[p := st]> (clones s)) s).
Definition dcs_remove_context (p : Z) : RM bool := fun s =>
  match clones s !! p, objs s !! p with
  | Some _, Some c =>
      Some (true, set_clones (delete p (clones s)) (set_objs (delete p (objs s)) (set_members (drop_members p (members s))
                    (set_rheap (a_free (rheap s) p (u32 (osize (c_info (cls c)) + 1))) s))))
  | _, _ => Some (false, s)
  end.
Fixpoint dcs_remove_all (l : list Z) : RM unit :=
  match l with [] => mret tt | p :: l => _ ← dcs_remove_context p; dcs_remove_all l end.
Definition dcs_destroy_storage : RM unit := l ← gets (fun s => map fst (map_to_list (clones s))); dcs_remove_all l.
End repo.
