(* ===== verification/LinkMap.v ===== *)
(** * Repository: link maps (core/repository-2/link_map.cpp)

    Each function walks the link map of an object; what it does with a link is
    a callback of the repository.  [&pl[i]] is the class of the map and [i]. *)
From S2P Require Import Prelude Memory Str Repo.
Set Default Goal Selector "!".

Definition PLMR_READY : Z := 1.
Definition PLMR_KEEP_PENDING : Z := 2.
Definition PLMR_FAILED : Z := 4.
Definition PLMR_UNINIT : Z := 8.

Section lm.
Context {A : Type} `{Allocator A}.
Context (cls : Z -> class).
Abbreviation RM := (M (repo A)).

(** [*pl[i].ppi_base] *)
Definition read_slot (c : Z) (i : nat) : RM Z := m ← gets slots; mret (default 0 (m !! (c, i))).
Definition write_slot (c : Z) (i : nat) (p : Z) : RM unit :=
  modify (fun s => set_slots (if p =? 0 then delete (c, i) (slots s) else <[(c, i) := p]> (slots s)) s).
Definition ref_ctl (l : link_info) (cmd c : Z) (i : nat) : RM unit := when (p_ref_ctl l) (log (ERef cmd c i)).
Definition info_ctl (l : link_info) (cmd c : Z) (i : nat) (h : Z) : RM unit := when (p_info_ctl l) (log (EInfo cmd c i h)).

(** The loops over the links: the result, or [None] to leave with [PLMR_FAILED]. *)
Fixpoint walk (f : nat -> link_info -> Z -> RM (option Z)) (l : list link_info) (i : nat) (r : Z) : RM Z :=
  match l with
  | [] => mret r
  | x :: l => o ← f i x r; match o with Some r => walk f l (S i) r | None => mret PLMR_FAILED end
  end.
Definition links_of (p : Z) : RM (Z * list link_info) := c ← class_id p; mret (c, object_link (cls c)).
Definition on_links (p : Z) (f : Z -> nat -> link_info -> Z -> RM (option Z)) : RM Z :=
  '(c, l) ← links_of p; walk (f c) l 0 PLMR_READY.
Definition go (m : RM unit) (r : Z) : RM (option Z) := m;; mret (Some r).

Definition lm_clean (p : Z) : RM unit :=
  _ ← on_links p (fun c i l r => go (when (ppi_base l) (write_slot c i 0)) r); mret tt.

Definition keep (l : link_info) (r : Z) : Z := if has (l_flags l) RF_KEEP_PENDING then Z.lor r PLMR_KEEP_PENDING else r.
(** Asking for the object of an empty pointer; [None] when a critical one is missing. *)
Definition request_slot (pcb : link_info -> RM Z) (c : Z) (i : nat) (l : link_info) (r : Z) : RM (option Z) :=
  p ← pcb l;
  write_slot c i p;;
  if negb (p =? 0) then ref_ctl l RCTL_REF c i;; mret (Some r)
  else if negb (has (l_flags l) RF_NOCRITICAL) then mret None else mret (Some (Z.lor r PLMR_KEEP_PENDING)).
Definition lm_init (p : Z) (pcb : link_info -> RM Z) : RM Z :=
  on_links p (fun c i l r =>
    let r := keep l r in
    v ← read_slot c i;
    if ppi_base l && (v =? 0) && negb (has (l_flags l) RF_POST_INIT) then request_slot pcb c i l r else mret (Some r)).

(** The overload without an entry, which nothing calls. *)
Definition lm_post_init_all (p : Z) (pcb : link_info -> RM Z) : RM Z :=
  on_links p (fun c i l r =>
    v ← read_slot c i;
    o ← (if ppi_base l && (v =? 0) then request_slot pcb c i l r else mret (Some r));
    mret (option_map (keep l) o)).

Definition lm_compare (l : link_info) (oi : object_info) : bool :=
  match l_cname l, l_iname l with
  | Some n, _ => bool_decide (n = cname oi)
  | None, Some n => bool_decide (n = iname oi)
  | None, None => false
  end.
(** The overload for a new entry; a link that keeps pending and has no pointer
    is left alone. *)
Definition lm_post_init (p h : Z) (pcb : Z -> Z -> RM Z) : RM Z :=
  on_links p (fun c i l r =>
    let r := keep l r in
    v ← read_slot c i;
    let create := ppi_base l && (has (l_flags l) RF_KEEP_PENDING || (v =? 0)) in
    e ← entry h; oi ← info_of cls (pi_base e);
    when (negb (ppi_base l) && lm_compare l oi) (info_ctl l RCTL_LOAD c i h);;
    when (create && lm_compare l oi)
      (q ← pcb h (l_flags l); when (negb (q =? 0)) (write_slot c i q;; ref_ctl l RCTL_REF c i));;
    mret (Some r)).

Definition lm_pre_uninit (p : Z) (pcb_release : Z -> RM unit) (pcb_remove_user : Z -> nat -> link_info -> Z -> RM unit) : RM Z :=
  on_links p (fun c i l r =>
    v ← read_slot c i;
    go (when (has (l_flags l) RF_POST_INIT)
          (if ppi_base l then when (negb (v =? 0)) (ref_ctl l RCTL_UNREF c i;; pcb_release v;; write_slot c i 0)
           else pcb_remove_user c i l p)) r).

Definition lm_uninit (p : Z) (pcb : Z -> RM unit) : RM Z :=
  on_links p (fun c i l r =>
    v ← read_slot c i;
    go (when (ppi_base l && negb (v =? 0)) (ref_ctl l RCTL_UNREF c i;; pcb v;; write_slot c i 0)) r).

(** With a [p_ref_ctl] the pointer is set to the original before it is released. *)
Definition lm_remove (p h : Z) (pcb : Z -> RM unit) : RM Z :=
  on_links p (fun c i l r =>
    let r := keep l r in
    v ← read_slot c i;
    e ← entry h; oi ← info_of cls (pi_base e);
    if ppi_base l then
      if negb (v =? 0) && lm_compare l oi then
        let r := if negb (has (l_flags l) RF_NOCRITICAL) then PLMR_UNINIT else r in
        when (p_ref_ctl l) (write_slot c i (pi_base e);; ref_ctl l RCTL_UNREF c i);;
        v ← read_slot c i;
        pcb v;; write_slot c i 0;; mret (Some r)
      else mret (Some r)
    else when (lm_compare l oi) (info_ctl l RCTL_UNLOAD c i h);; mret (Some r)).
End lm.
