(* ===== verification/Repository.v ===== *)
(** * Repository: requests, initialisation, extensions
    (core/repository-2/repository.cpp, extension.cpp)

    A request initialises the object it is for, which requests what its link map
    names, which is initialised in turn: the four functions of a request recurse
    with fuel, and a chain of links that comes back to an object being
    initialised does not end.  [object_ctl] is the script of the class. *)
From S2P Require Import Prelude Memory Str Repo LinkMap.
Set Default Goal Selector "!".

Definition ERR_NONE : Z := 0.
Definition ERR_UNKNOWN : Z := -1.
Definition ERR_MISSING : Z := -2.
Definition ERR_DUPLICATED : Z := -4.
Definition ERR_LOADEXT : Z := -5.
Definition MAX_ALIAS_LEN : nat := 64.
Definition MAX_FILE_PATH : nat := 256.
Definition I_TASK_MAKER : list Z := str "iTaskMaker".
Definition I_HEAP : list Z := str "iHeap".

(** The order in which the hash map of the extensions enumerates them. *)
Class ExtOrder := { ext_order : list extension -> list extension; ext_order_perm l : ext_order l ≡ₚ l }.

Section repository.
Context {A : Type} `{Allocator A} {EO : ExtOrder}.
Context (cls : Z -> class).
(** The order in which a set is enumerated. *)
Context (iter : gset Z -> list Z).
Abbreviation RM := (M (repo A)).

Fixpoint for_each {X} (f : X -> RM unit) (l : list X) : RM unit :=
  match l with [] => mret tt | x :: l => f x;; for_each f l end.

(** ** Entries and states *)
Definition find_object_entry (p : Z) : RM (option Z) :=
  r ← find_object_by_pointer p;
  match r with Some h => mret (Some h) | None => oi ← info_of cls p; find_object_by_cname (cname oi) end.
Definition get_context_state (p : Z) : RM Z :=
  if negb (p =? 0) then
    f ← find_object_by_pointer p;
    match f with Some h => e ← entry h; mret (bstate e) | None => dcs_get_context_state p end
  else mret 0.
Definition set_context_state (p st : Z) : RM unit :=
  when (negb (p =? 0))
    (f ← find_object_by_pointer p;
     match f with Some h => e ← entry h; put_base h (mkBase (pi_base e) (ref_cnt e) st) | None => dcs_set_context_state p st end).
Definition add_ref (h : Z) : RM unit := e ← entry h; put_base h (mkBase (pi_base e) (u32 (ref_cnt e + 1)) (bstate e));; log (EGet h).
Definition drop_ref (h : Z) : RM unit :=
  e ← entry h; when (negb (ref_cnt e =? 0)) (put_base h (mkBase (pi_base e) (ref_cnt e - 1) (bstate e))).

Definition ext_array (x : extension) : list Z :=
  match e_image x with Some i => match im_array i with Some l => map (fun e => e.1.1) l | None => [] end | None => [] end.
(** The array of the core, then those of the extensions. *)
Definition all_entries : RM (list Z) := gets (fun s => core_array s ++ concat (map ext_array (ext_order (exts s)))).
Definition enum_base_array (pcb : Z -> RM unit) : RM unit := l ← all_entries; for_each pcb l.

(** Either name of the link is the object's. *)
Definition named (l : link_info) (oi : object_info) : bool :=
  bool_decide (l_cname l = Some (cname oi)) || bool_decide (l_iname l = Some (iname oi)).
Definition update_users (p : Z) : RM unit :=
  _ ← on_links cls p (fun c i l r => go
    (if ppi_base l then
       v ← read_slot c i;
       when (negb (v =? 0)) (f ← find_object_entry v; match f with Some h => users_add_object_user h p | None => mret tt end)
     else enum_base_array (fun h => e ← entry h; oi ← info_of cls (pi_base e); when (named l oi) (users_add_object_user h p))) r);
  mret tt.
Definition remove_user (c : Z) (i : nat) (l : link_info) (pi_user : Z) : RM unit :=
  enum_base_array (fun h => e ← entry h; oi ← info_of cls (pi_base e);
    when (named l oi) (info_ctl l RCTL_UNLOAD c i h;; users_remove_object_user h pi_user)).

(** ** Requests *)
(** [object_request]: by class name if there is one, else by interface name. *)
Definition object_request (by_handle : option Z -> Z -> RM Z) (cn inm : option (list Z)) (flags : Z) : RM Z :=
  f ← (match cn, inm with
       | Some n, _ => find_object_by_cname n
       | None, Some n => find_object_by_iname n
       | None, None => mret None
       end);
  match f with Some h => by_handle (Some h) flags | None => mret 0 end.
Definition object_by_cname (by_handle : option Z -> Z -> RM Z) (n : list Z) (flags : Z) : RM Z := object_request by_handle (Some n) None flags.
Definition object_by_iname (by_handle : option Z -> Z -> RM Z) (n : list Z) (flags : Z) : RM Z := object_request by_handle None (Some n) flags.
Definition get_task_maker (by_handle : option Z -> Z -> RM Z) : RM Z :=
  t ← gets mpi_tasks;
  when (t =? 0) (t ← object_by_iname by_handle I_TASK_MAKER RF_ORIGINAL; modify (set_tasks t));;
  gets mpi_tasks.

Definition set_member (p : Z) (m : nat) (v : Z) : RM unit :=
  modify (fun s => set_members (if v =? 0 then delete (p, m) (members s) else <[(p, m) := v]> (members s)) s).
(** The object's [object_ctl]. *)
Fixpoint object_ctl (by_handle : option Z -> Z -> RM Z) (release : Z -> RM unit) (p : Z) (l : list ctl_call) : RM bool :=
  match l with
  | [] => mret true
  | Request by_cname n flags m :: l =>
      r ← (if by_cname then object_by_cname by_handle n flags else object_by_iname by_handle n flags);
      set_member p m r;;
      if negb (r =? 0) then object_ctl by_handle release p l else mret false
  | Release m :: l =>
      v ← gets (fun s => default 0 (members s !! (p, m)));
      set_member p m 0;;
      release v;;
      object_ctl by_handle release p l
  end.

(** Another object for the links of an object, from every entry but the excluded ones. *)
Definition scan_base_array (by_handle : option Z -> Z -> RM Z) (p : Z) (exclude : list Z) : RM unit :=
  enum_base_array (fun h =>
    when (negb (bool_decide (h ∈ exclude)))
      (lmr ← lm_post_init cls p h (fun h flags => by_handle (Some h) flags);
       when (has lmr PLMR_READY) (update_users p))).

Fixpoint object_by_handle (fuel : nat) (h : option Z) (flags : Z) : RM Z :=
  match fuel with
  | 0%nat => undefined
  | S fuel =>
      match h with
      | Some h =>
          e ← entry h;
          oi ← info_of cls (pi_base e);
          if has (oflags oi) flags then
            if has (Z.land (oflags oi) flags) RF_CLONE then
              r ← dcs_create_context cls h flags;
              if negb (r =? 0) then
                ok ← init_object fuel r;
                if ok : bool then
                  add_ref h;;
                  st ← dcs_get_context_state r;
                  when (has st ST_PENDING) (scan_base_array (object_by_handle fuel) r []);;
                  mret r
                else _ ← uninit_object fuel r; _ ← dcs_remove_context cls r; mret 0
              else mret 0
            else if has (Z.land (oflags oi) flags) RF_ORIGINAL then
              ok ← init_object fuel (pi_base e);
              if ok : bool then add_ref h;; mret (pi_base e) else mret 0
            else mret 0
          else mret 0
      | None => mret 0
      end
  end
with init_object (fuel : nat) (p : Z) : RM bool :=
  match fuel with
  | 0%nat => undefined
  | S fuel =>
      st ← get_context_state p;
      if has st ST_INITIALIZED then mret true else
      lm_clean cls p;;
      lmr ← lm_init cls p (fun l => object_request (object_by_handle fuel) (l_cname l) (l_iname l) (l_flags l));
      if has lmr PLMR_READY then
        c ← class_of cls p;
        log (EInit p);;
        r ← object_ctl (object_by_handle fuel) (object_release fuel) p (on_init c);
        if r : bool then
          when (has lmr PLMR_KEEP_PENDING) (modify (fun s => set_pending ({[p]} ∪ ms_pending s) s));;
          let st := Z.lor st ST_INITIALIZED in
          set_context_state p (if has lmr PLMR_KEEP_PENDING then Z.lor st ST_PENDING else st);;
          update_users p;;
          when (has (oflags (c_info c)) RF_TASK)
            (t ← get_task_maker (object_by_handle fuel); when (negb (t =? 0)) (log (EStart p)));;
          mret true
        else mret false
      else mret false
  end
with object_release (fuel : nat) (p : Z) : RM unit :=
  match fuel with
  | 0%nat => undefined
  | S fuel =>
      if p =? 0 then mret tt else
      f ← find_object_entry p;
      match f with
      | Some h =>
          e ← entry h;
          unref ← (if negb (pi_base e =? p) then
                     u ← uninit_object fuel p;
                     when u (_ ← dcs_remove_context cls p; mret tt);;
                     mret u
                   else mret true);
          when unref (drop_ref h)
      | None => mret tt
      end
  end
with uninit_object (fuel : nat) (p : Z) : RM bool :=
  match fuel with
  | 0%nat => undefined
  | S fuel =>
      st ← get_context_state p;
      if has st ST_INITIALIZED then
        c ← class_of cls p;
        when (has (oflags (c_info c)) RF_TASK)
          (t ← get_task_maker (object_by_handle fuel); when (negb (t =? 0)) (log (EStop p)));;
        _ ← lm_pre_uninit cls p (object_release fuel) remove_user;
        log (EUninit p);;
        r ← object_ctl (object_by_handle fuel) (object_release fuel) p (on_uninit c);
        if r : bool then
          _ ← lm_uninit cls p (object_release fuel);
          modify (fun s => set_pending (ms_pending s ∖ {[p]}) s);;
          st ← get_context_state p;
          set_context_state p (Z.land st (Z.lnot (Z.lor ST_PENDING ST_INITIALIZED)));;
          mret true
        else mret false
      else mret true
  end.

(** ** Arrays *)
Inductive enum_verdict := EnumContinue | EnumDelete.
(** An enumeration of a set that its callback may change: an object that was
    erased before its turn is passed over; going on from an iterator whose object
    is erased is undefined. *)
Fixpoint enum_set (read : RM (gset Z)) (erase : Z -> RM unit) (pcb : Z -> RM enum_verdict) (l : list Z) : RM unit :=
  match l with
  | [] => mret tt
  | p :: l =>
      x ← read;
      if bool_decide (p ∈ x) then
        v ← pcb p;
        match v with EnumDelete => erase p | EnumContinue => mret tt end;;
        x ← read;
        if bool_decide (p ∈ x) then enum_set read erase pcb l else undefined
      else enum_set read erase pcb l
  end.
Definition erase_pending (p : Z) : RM unit := modify (fun s => set_pending (ms_pending s ∖ {[p]}) s).
Definition enum_pending (pcb : Z -> RM enum_verdict) : RM unit :=
  x ← gets ms_pending; enum_set (gets ms_pending) erase_pending pcb (iter x).
Definition users_enum (h : Z) (pcb : Z -> RM enum_verdict) : RM unit :=
  x ← get_object_users h;
  match x with
  | Some x => enum_set (m ← gets users_map; mret (default ∅ (m !! h))) (users_remove_object_user h) pcb (iter x)
  | None => mret tt
  end.
Definition clear_pending (p : Z) : RM unit := st ← get_context_state p; set_context_state p (Z.land st (Z.lnot ST_PENDING)).

Definition process_pending_list (fuel : nat) (h : Z) : RM unit :=
  enum_pending (fun p =>
    lmr ← lm_post_init cls p h (fun h flags => object_by_handle fuel (Some h) flags);
    if has lmr PLMR_READY then
      let d := negb (has lmr PLMR_KEEP_PENDING) in
      when d (clear_pending p);;
      update_users p;;
      mret (if d then EnumDelete else EnumContinue)
    else mret EnumContinue).
(** The overload without an entry, which nothing calls; it keeps [ST_PENDING] and
    drops the rest of the state. *)
Definition process_pending_list_all (fuel : nat) : RM unit :=
  enum_pending (fun p =>
    lmr ← lm_post_init_all cls p (fun l => object_request (object_by_handle fuel) (l_cname l) (l_iname l) (l_flags l));
    if has lmr PLMR_READY then
      st ← get_context_state p;
      st ← (if negb (has st ST_INITIALIZED) then
              c ← class_of cls p;
              log (EInit p);;
              ok ← object_ctl (object_by_handle fuel) (object_release fuel) p (on_init c);
              if ok : bool then update_users p;; mret (Z.lor st ST_INITIALIZED) else mret st
            else mret st);
      let d := negb (has lmr PLMR_KEEP_PENDING) in
      set_context_state p (if d then Z.land st ST_PENDING else st);;
      update_users p;;
      mret (if d then EnumDelete else EnumContinue)
    else mret EnumContinue).
Definition init_base_array (fuel : nat) (l : list Z) : RM unit :=
  for_each (fun h =>
    e ← entry h;
    oi ← info_of cls (pi_base e);
    post_init ← (if has (oflags oi) RF_ORIGINAL && negb (has (bstate e) ST_INITIALIZED) then
                   ok ← init_object fuel (pi_base e);
                   when ok (scan_base_array (object_by_handle fuel) (pi_base e) l);;
                   mret ok
                 else mret true);
    when post_init (process_pending_list fuel h)) l.
Definition uninit_base_array (fuel : nat) (l : list Z) : RM unit :=
  for_each (fun h =>
    users_enum h (fun p =>
      lmr ← lm_remove cls p h (object_release fuel);
      (if has lmr PLMR_UNINIT then _ ← uninit_object fuel p; mret tt
       else when (negb (has lmr PLMR_KEEP_PENDING)) (erase_pending p;; clear_pending p));;
      mret EnumContinue);;
    e ← entry h;
    when (has (bstate e) ST_INITIALIZED) (_ ← uninit_object fuel (pi_base e); mret tt)) l.
Definition init_array (fuel : nat) (l : list Z) : RM unit := add_base_array cls l;; init_base_array fuel l.

(** ** Extensions *)
(** What the dynamic linker finds. *)
Context (dlopen : list Z -> option image).

Fixpoint basename_loop (s r : list Z) : list Z :=
  match s with [] => r | c :: s => basename_loop s (if c =? 47 then s else r) end.
Definition basename (s : list Z) : list Z := basename_loop s s.
Definition alias_of (file : list Z) (alias : option (list Z)) : list Z :=
  match alias with Some (a :: l) => a :: l | _ => basename file end.
Definition find_extension (alias : list Z) : RM (option extension) :=
  l ← gets exts; mret (list_find (fun x => e_alias x = alias) l ≫= fun x => Some x.2).
(** The constructors of a loaded image register its objects. *)
Definition map_image (i : image) : RM unit :=
  for_each (fun e => modify (fun s => set_objs (<[e.1.2 := e.2]> (objs s)) (set_entries (<[e.1.1 := mkBase e.1.2 0 0]> (entries s)) s))) (default [] (im_array i)).
Definition unmap_image (i : image) : RM unit :=
  for_each (fun e => modify (fun s => set_objs (delete e.1.2 (objs s)) (set_entries (delete e.1.1 (entries s)) s))) (default [] (im_array i)).
(** [extension::load], before the record is stored. *)
Definition extension_open (file alias : list Z) : RM (Z * extension) :=
  let none := mkExt [] [] None in
  match dlopen file with
  | Some i =>
      match im_init i with
      | Some _ => map_image i;; mret (ERR_NONE, mkExt (take (MAX_ALIAS_LEN - 1) alias) (take (MAX_FILE_PATH - 1) file) (Some i))
      | None => mret (ERR_UNKNOWN, none)
      end
  | None => mret (ERR_LOADEXT, none)
  end.
(** The stored record; the one that has the alias already when there is one. *)
Definition load_extension (file : list Z) (alias : option (list Z)) : RM (Z * option extension) :=
  let alias := alias_of file alias in
  l ← gets exts;
  if existsb (fun x => bool_decide (e_file x = file) || bool_decide (e_alias x = alias)) l then mret (ERR_DUPLICATED, None)
  else
    '(r, x) ← extension_open file alias;
    if r =? ERR_NONE then
      f ← find_extension (e_alias x);
      match f with
      | Some x => mret (r, Some x)
      | None =>
          ok ← grant;
          if ok : bool then modify (fun s => set_exts (exts s ++ [x]) s);; mret (r, Some x) else mret (r, None)
      end
    else mret (r, None).
(** [dlclose], of an extension whose record is kept. *)
Definition extension_close (x : extension) : RM Z :=
  match e_image x with
  | Some i =>
      unmap_image i;;
      modify (fun s => set_exts (map (fun y => if decide (e_alias y = e_alias x) then mkExt (e_alias y) (e_file y) None else y) (exts s)) s);;
      mret ERR_NONE
  | None => mret ERR_UNKNOWN
  end.
Definition unload_extension (alias : list Z) : RM Z :=
  f ← find_extension alias;
  match f with
  | Some x =>
      r ← extension_close x;
      when (r =? ERR_NONE) (modify (fun s => set_exts (filter (fun y => e_alias y <> alias) (exts s)) s));;
      mret r
  | None => mret ERR_MISSING
  end.

Definition extension_load (fuel : nat) (m_ext_dir file : list Z) (alias : option (list Z)) : RM Z :=
  let path := m_ext_dir ++ [47] ++ file in
  if 1024 <=? Z.of_nat (length path) then undefined else
  '(r, x) ← load_extension path alias;
  if r =? ERR_NONE then
    match x with
    | Some x =>
        r ← mret (default ERR_UNKNOWN (e_image x ≫= im_init));
        if r =? ERR_NONE then
          match e_image x ≫= im_array with
          | Some _ => add_base_array cls (ext_array x);; init_base_array fuel (ext_array x);; mret r
          | None => _ ← extension_close x; mret ERR_UNKNOWN
          end
        else mret r
    | None => undefined
    end
  else mret r.
Definition extension_unload (fuel : nat) (alias : list Z) : RM Z :=
  f ← find_extension alias;
  match f with
  | Some x =>
      (match e_image x ≫= im_array with
       | Some _ => uninit_base_array fuel (ext_array x);; remove_base_array cls (ext_array x)
       | None => mret tt
       end);;
      unload_extension alias
  | None => mret ERR_UNKNOWN
  end.
Definition destroy (fuel : nat) : RM unit :=
  l ← gets (fun s => ext_order (exts s));
  for_each (fun x => uninit_base_array fuel (ext_array x)) l;;
  h ← object_by_iname (object_by_handle fuel) I_HEAP RF_ORIGINAL;
  when (negb (h =? 0)) (c ← class_of cls h; log (EUninit h);; _ ← object_ctl (object_by_handle fuel) (object_release fuel) h (on_uninit c); mret tt);;
  l ← gets (fun s => ext_order (exts s));
  for_each (fun x => _ ← extension_close x; mret tt) l;;
  modify (set_exts []);;
  destroy_users_storage;; destroy_base_array_storage;; dcs_destroy_storage cls.

(** ** The rest of the interface *)
Definition handle_by_iname (n : list Z) : RM (option Z) := find_object_by_iname n.
Definition handle_by_cname (n : list Z) : RM (option Z) := find_object_by_cname n.
Definition get_object_info (h : option Z) : RM (option object_info) :=
  match h with Some h => e ← entry h; if negb (pi_base e =? 0) then oi ← info_of cls (pi_base e); mret (Some oi) else mret None | None => mret None end.
End repository.
