(* ===== verification/RepoInv.v ===== *)
(** * Repository: who holds what (core/repository-2/repository.cpp)

    The pointers to objects that are held - by the users of the repository, in
    the link maps, in the objects - against the reference counts.  A system is
    [acyclic] when the classes have ranks that decrease along links and requests. *)
From S2P Require Import Prelude Memory Str Repo LinkMap Repository.
Set Default Goal Selector "!".

(** ** The values of a map but those at some keys *)
Section vals.
Context {K : Type} `{Countable K}.
Implicit Types (m : gmap K Z) (X : gset K).
Definition vals X m : list Z := (map_to_list (filter (fun x => x.1 ∉ X) m)).*2.

Lemma vals_delete X m k : vals X (delete k m) ≡ₚ vals ({[k]} ∪ X) (delete k m).
Proof.
  unfold vals. assert (filter (fun x => x.1 ∉ X) (delete k m) = filter (fun x => x.1 ∉ {[k]} ∪ X) (delete k m)) as ->; [|done].
  apply map_filter_ext. intros i x [Hne _]%lookup_delete_Some. cbn. set_solver.
Qed.
Lemma vals_stale X m k m' : (forall i, i <> k -> m' !! i = m !! i) -> k ∈ X -> vals X m' = vals X m.
Proof.
  intros Hm Hk. unfold vals. f_equal. f_equal. apply map_eq. intros i. apply option_eq. intros x. rw !map_lookup_filter_Some. cbn.
  destruct (decide (i = k)) as [->|Hne]; [by split; intros [_ ?]|]. by rw Hm.
Qed.
Lemma vals_insert X m k v : k ∉ X -> vals X (<[k := v]> m) ≡ₚ v :: vals ({[k]} ∪ X) m.
Proof.
  intros Hk. unfold vals. assert (filter (fun x => x.1 ∉ X) (<[k := v]> m) = <[k := v]> (filter (fun x => x.1 ∉ {[k]} ∪ X) m)) as ->.
  - apply map_eq. intros i. apply option_eq. intros x. rw map_lookup_filter_Some !lookup_insert_Some map_lookup_filter_Some. cbn.
    rw not_elem_of_union not_elem_of_singleton. split; [intros [[[-> ->]|[Hne Hx]] Hi]; [by left|right; done]|intros [[-> ->]|(Hne & Hx & Hi & Hi2)]; [by split; [left|]|by split; [right|]]].
  - rw map_to_list_insert; [done|]. apply map_lookup_filter_None. right. intros x _. cbn. set_solver.
Qed.
Lemma vals_take X m k v : k ∉ X -> m !! k = Some v -> vals X m ≡ₚ v :: vals ({[k]} ∪ X) m.
Proof. intros Hk Hv. rw -{1}(insert_id m k v Hv). by apply vals_insert. Qed.
Lemma vals_drop X m k : vals ({[k]} ∪ X) m ⊆+ vals X m.
Proof.
  destruct (decide (k ∈ X)) as [Hk|Hk]; [by replace ({[k]} ∪ X) with X by set_solver|]. destruct (m !! k) as [v|] eqn:E.
  - rw (vals_take X m k v Hk E). by apply submseteq_cons.
  - unfold vals. assert (filter (fun x => x.1 ∉ {[k]} ∪ X) m = filter (fun x => x.1 ∉ X) m) as ->; [|done].
    apply map_filter_ext. intros i x Hi. cbn. assert (i <> k) by congruence. set_solver.
Qed.
Lemma vals_delete_drop X m k : vals X (delete k m) ⊆+ vals X m.
Proof. rw vals_delete. rw (vals_stale ({[k]} ∪ X) m k); [apply vals_drop|intros i Hi; by rw lookup_delete_ne|set_solver]. Qed.
Lemma vals_filter X m (P : K * Z -> Prop) `{!forall x, Decision (P x)} : vals X (filter P m) ⊆+ vals X m.
Proof.
  unfold vals. apply fmap_submseteq. apply NoDup_submseteq; [apply NoDup_map_to_list|]. intros [k v] Hin. apply elem_of_map_to_list in Hin. apply elem_of_map_to_list.
  apply map_lookup_filter_Some in Hin as [Hin Hx]. apply map_lookup_filter_Some in Hin as [Hin _]. by apply map_lookup_filter_Some.
Qed.
End vals.

Section inv.
Context {A : Type} `{AllocatorLaws A}.
Context (cls : Z -> class) (rank : Z -> nat).
(** What no request changes: the registry, the entries, the objects of the images. *)
Context (B : gmap base_key Z) (PB O : gmap Z Z) (CA : list Z) (EX : list extension).
(** The objects that are being released. *)
Context (U : gset Z).
Implicit Types s : repo A.

Definition entry_class (h c : Z) : Prop := exists p, PB !! h = Some p /\ O !! p = Some c.
Definition lookup_name (cn inm : option (list Z)) : option Z :=
  match cn, inm with Some n, _ => B !! key_cname n | None, Some n => B !! key_iname n | None, None => None end.
Definition info (c : Z) : object_info := c_info (cls c).

Record acyclic : Prop := {
  st_entry h p : PB !! h = Some p -> p <> 0 /\ is_Some (O !! p);
  st_ptr h p : p <> 0 -> PB !! h = Some p <-> B !! key_pointer p = Some h;
  st_base k h : B !! k = Some h -> is_Some (PB !! h);
  st_orig p c : O !! p = Some c -> exists h, PB !! h = Some p;
  st_clone h c : entry_class h c -> has (oflags (info c)) RF_CLONE = true -> B !! key_cname (cname (info c)) = Some h;
  st_arrays : Forall (fun h => is_Some (PB !! h)) (CA ++ concat (map ext_array EX));
  st_links c l h c' : l ∈ object_link (cls c) -> ppi_base l = true -> entry_class h c' ->
    lookup_name (l_cname l) (l_iname l) = Some h \/ lm_compare l (info c') = true -> (rank c' < rank c)%nat;
  st_calls c by_cname n fl m h c' : Request by_cname n fl m ∈ on_init (cls c) ++ on_uninit (cls c) ->
    (if by_cname : bool then B !! key_cname n else B !! key_iname n) = Some h -> entry_class h c' -> (rank c' < rank c)%nat;
  st_task c h c' : has (oflags (info c)) RF_TASK = true -> B !! key_iname I_TASK_MAKER = Some h -> entry_class h c' -> (rank c' < rank c)%nat;
  st_both c : has (oflags (info c)) RF_CLONE = true -> has (oflags (info c)) RF_ORIGINAL = true -> on_init (cls c) ++ on_uninit (cls c) = [];
  st_size c : 0 <= osize (info c) < 2 ^ 32 - 1
}.

(** ** Ownership *)
(** The entry that counts a pointer. *)
Definition owner s (v : Z) : option Z :=
  match B !! key_pointer v with Some h => Some h | None => c ← objs s !! v; B !! key_cname (cname (info c)) end.
(** [F] is held by the users, [X] are the link-map pointers that are stale. *)
Definition held (F : list Z) (X : gset (Z * nat)) s : list Z :=
  F ++ vals X (slots s) ++ vals ∅ (members s) ++ (if mpi_tasks s =? 0 then [] else [mpi_tasks s]).

(** The state of the object says that it is initialised. *)
Definition ready s (v : Z) : Prop :=
  (exists st, clones s !! v = Some st /\ has st ST_INITIALIZED = true) \/
  (exists h e, entries s !! h = Some e /\ pi_base e = v /\ has (bstate e) ST_INITIALIZED = true).
Definition steady s s' : Prop := forall v, ready s v -> ready s' v.
(** Every pointer held is one of an object that is initialised, a clone is held
    once, and the counts cover what is held; [R] are clones that nobody counts
    yet.  Less than 2^32 requests were granted. *)
Record own (R H : list Z) s : Prop := {
  o_valid : Forall (fun v => is_Some (objs s !! v)) (R ++ H);
  o_ready : Forall (fun v => v ∈ U \/ ready s v) H;
  o_once : NoDup (filter (fun v => O !! v = None) (R ++ H));
  o_count h e : Z.of_nat (length (trace s)) < 2 ^ 32 -> entries s !! h = Some e ->
    Z.of_nat (length (filter (fun v => owner s v = Some h) H)) <= ref_cnt e <= Z.of_nat (length (trace s))
}.
Record core (X : gset (Z * nat)) s : Prop := {
  i_base : base_map s = B;
  i_core : core_array s = CA;
  i_exts : exts s = EX;
  i_entries h : pi_base <$> entries s !! h = PB !! h;
  i_orig p c : O !! p = Some c -> objs s !! p = Some c;
  i_clones p : is_Some (clones s !! p) <-> is_Some (objs s !! p) /\ O !! p = None;
  i_class p c : objs s !! p = Some c -> O !! p = None -> p <> 0 /\ exists h, entry_class h c /\ has (oflags (info c)) RF_CLONE = true;
  i_heap : a_ok (rheap s);
  i_live p c : objs s !! p = Some c -> O !! p = None -> a_live (rheap s) !! p = Some (u32 (osize (info c) + 1));
  i_static p : is_Some (O !! p) -> is_Some (a_live (rheap s) !! p);
  i_slots c i v : slots s !! (c, i) = Some v -> (c, i) ∉ X -> exists c', objs s !! v = Some c' /\ (rank c' < rank c)%nat;
  i_members p m v : members s !! (p, m) = Some v -> exists c c', objs s !! p = Some c /\ objs s !! v = Some c' /\ (rank c' < rank c)%nat /\
    (is_Some (O !! p) -> has (oflags (info c)) RF_CLONE = false)
}.
Definition inv (F R : list Z) (X : gset (Z * nat)) s : Prop := core X s /\ own R (held F X s) s.

(** Links of rank above [r], and the objects [G], are left alone; these and the
    objects of the images stay initialised. *)
Record frame (G : list Z) (r : nat) s s' : Prop := {
  fr_slots c i : (r < rank c)%nat -> slots s' !! (c, i) = slots s !! (c, i);
  fr_objs p : p ∈ G -> objs s' !! p = objs s !! p;
  fr_ready v : v ∈ G \/ is_Some (O !! v) -> v ∉ U -> ready s v -> ready s' v
}.
Lemma frame_refl G r s : frame G r s s.
Proof. done. Qed.
Lemma frame_steady G r s s' : slots s' = slots s -> (forall p, p ∈ G -> objs s' !! p = objs s !! p) -> steady s s' -> frame G r s s'.
Proof. intros Es Eo Hs. split; [intros; by rw Es|exact Eo|intros v _ _; apply Hs]. Qed.
Lemma frame_trans G G' r r' s1 s2 s3 : G ⊆ G' -> (r' <= r)%nat -> frame G r s1 s2 -> frame G' r' s2 s3 -> frame G r s1 s3.
Proof.
  intros HG Hr [H1 H2 H5] [H3 H4 H6]. split.
  - intros c i Hc. rw H3; [by apply H1|lia].
  - intros p Hp. rw H4; [by apply H2|by apply HG].
  - intros v Hv Hu Hs. apply H6; [destruct Hv as [Hv|Hv]; [by left; apply HG|by right]|done|by apply H5].
Qed.

Lemma own_sub R L R' L' s : own R L s -> L' ⊆+ L -> R' ++ L' ⊆+ R ++ L -> own R' L' s.
Proof.
  intros [Hv Hre Ho Hc] (D & HD)%submseteq_Permutation (D2 & HD2)%submseteq_Permutation. split.
  - rw HD2 in Hv. by apply Forall_app in Hv as [Hv _].
  - rw HD in Hre. by apply Forall_app in Hre as [Hre _].
  - rw HD2 filter_app in Ho. by apply NoDup_app in Ho as [Ho _].
  - intros h e Ht He. specialize (Hc h e Ht He). rw (Permutation_length (filter_Permutation (fun v => owner s v = Some h) _ _ HD)) filter_app length_app in Hc. lia.
Qed.
Lemma own_perm R L L' s : own R L s -> L ≡ₚ L' -> own R L' s.
Proof. intros Ho HP. apply (own_sub R L R L' s Ho); by rw HP. Qed.
Lemma owned_same s s' k (l : list Z) : objs s' = objs s -> filter (fun w => owner s' w = Some k) l = filter (fun w => owner s w = Some k) l.
Proof. intros Eo. apply list_filter_iff. intros w. unfold owner. by rw Eo. Qed.
(** A state with the same objects and counts, and perhaps a longer trace. *)
Lemma own_state R L s s' : own R L s -> objs s' = objs s -> (forall h, ref_cnt <$> entries s' !! h = ref_cnt <$> entries s !! h) ->
  (length (trace s) <= length (trace s'))%nat -> (forall v, v ∉ U -> ready s v -> ready s' v) -> own R L s'.
Proof.
  intros [Hv Hre Ho Hc] Eo Ee Ht Hst. split; [by rw Eo| |done|].
  { eapply Forall_impl; [exact Hre|]. intros v [Hu|Hr]; [by left|]. destruct (decide (v ∈ U)) as [Hu|Hu]; [by left|right; by apply Hst]. }
  intros h e Ht' He. specialize (Ee h). rw He in Ee. cbn in Ee.
  destruct (entries s !! h) as [e0|] eqn:E0; [|done]. injection Ee as Ee. specialize (Hc h e0). rw (owned_same s s' h L Eo) Ee. assert (Z.of_nat (length (trace s)) < 2 ^ 32) as Ht0 by lia. specialize (Hc Ht0 E0). lia.
Qed.
(** What is uncounted becomes nothing, or counted. *)
Lemma own_count v R L s s' h e e' : own (v :: R) L s -> owner s v = Some h -> entries s !! h = Some e -> objs s' = objs s ->
  entries s' = <[h := e']> (entries s) -> length (trace s') = S (length (trace s)) ->
  (Z.of_nat (length (trace s')) < 2 ^ 32 -> ref_cnt e' = ref_cnt e + 1) -> steady s s' -> ready s v -> own R (v :: L) s'.
Proof.
  intros [Hv Hre Ho Hc] Hh He Eo Ee Et Er Hst Hrv. assert (forall w, owner s' w = owner s w) as Eow by (intros w; unfold owner; by rw Eo).
  split.
  - rw Eo. rw -Permutation_middle. exact Hv.
  - constructor; [right; by apply Hst|]. eapply Forall_impl; [exact Hre|]. intros w [Hu|Hr]; [by left|right; by apply Hst].
  - rw -Permutation_middle. exact Ho.
  - intros k ek Ht Hk. rw Ee in Hk. assert (Z.of_nat (length (trace s)) < 2 ^ 32) as Ht0 by lia. rw filter_cons.
    rw (owned_same s s' k _ Eo) Eow Hh. apply lookup_insert_Some in Hk as [[<- <-]|[Hne Hk]].
    + rw decide_True; [|done]. cbn [length]. specialize (Hc h e Ht0 He). specialize (Er Ht). lia.
    + rw decide_False; [|congruence]. specialize (Hc k ek Ht0 Hk). lia.
Qed.
(** Letting go of a pointer, and of its count. *)
Lemma own_uncount v R L s s' h e e' : own R (v :: L) s -> owner s v = Some h -> entries s !! h = Some e -> objs s' = objs s ->
  entries s' = <[h := e']> (entries s) -> (length (trace s) <= length (trace s'))%nat -> ref_cnt e' = ref_cnt e - 1 -> steady s s' -> own R L s'.
Proof.
  intros [Hv Hre Ho Hc] Hh He Eo Ee Et Er Hst. assert (forall w, owner s' w = owner s w) as Eow by (intros w; unfold owner; by rw Eo). split.
  - rw Eo. rw -Permutation_middle in Hv. by apply Forall_cons in Hv as [_ Hv].
  - apply Forall_cons in Hre as [_ Hre]. eapply Forall_impl; [exact Hre|]. intros w [Hu|Hr]; [by left|right; by apply Hst].
  - rw -Permutation_middle filter_cons in Ho. case_decide; [by apply NoDup_cons in Ho as [_ Ho]|done].
  - intros k ek Ht Hk. rw Ee in Hk. assert (Z.of_nat (length (trace s)) < 2 ^ 32) as Ht0 by lia.
    rw (owned_same s s' k _ Eo). apply lookup_insert_Some in Hk as [[<- <-]|[Hne Hk]].
    + specialize (Hc h e Ht0 He). rw filter_cons decide_True // in Hc. cbn [length] in Hc. lia.
    + specialize (Hc k ek Ht0 Hk). rw filter_cons decide_False in Hc; [lia|congruence].
Qed.

(** ** Steps *)
(** Nothing that matters here has changed. *)
Record same s s' : Prop := {
  sm_base : base_map s' = base_map s; sm_core : core_array s' = core_array s; sm_exts : exts s' = exts s; sm_objs : objs s' = objs s;
  sm_slots : slots s' = slots s; sm_members : members s' = members s; sm_tasks : mpi_tasks s' = mpi_tasks s; sm_heap : rheap s' = rheap s;
  sm_clones p : is_Some (clones s' !! p) <-> is_Some (clones s !! p);
  sm_entries h : (fun e => (pi_base e, ref_cnt e)) <$> entries s' !! h = (fun e => (pi_base e, ref_cnt e)) <$> entries s !! h;
  sm_trace : (length (trace s) <= length (trace s'))%nat;
  sm_ready v : v ∉ U -> ready s v -> ready s' v
}.
Lemma inv_same F R X s s' : same s s' -> inv F R X s -> inv F R X s'.
Proof.
  intros [E1 E2 E3 E4 E5 E6 E7 E8 E9 E10 E11 E12] [[] Ho]. split.
  - split; rw ?E1 ?E2 ?E3 ?E4 ?E5 ?E6 ?E8; try done.
    + intros h. specialize (E10 h). rw -i_entries0. destruct (entries s' !! h), (entries s !! h); try done. cbn in *. congruence.
    + intros p. rw E9. apply i_clones0.
  - unfold held. rw E5 E6 E7. eapply own_state; [exact Ho|done| |done|done]. intros h. specialize (E10 h).
    destruct (entries s' !! h), (entries s !! h); try done. cbn in *. congruence.
Qed.
Lemma frame_same G r s s' : same s s' -> frame G r s s'.
Proof. intros Hs. split; intros; [by rw (sm_slots _ _ Hs)|by rw (sm_objs _ _ Hs)|by apply (sm_ready _ _ Hs)]. Qed.

(** *** Link-map pointers *)
Lemma core_slots X X' s m : core X s ->
  (forall c i v, m !! (c, i) = Some v -> (c, i) ∉ X' -> slots s !! (c, i) = Some v /\ (c, i) ∉ X \/ exists c', objs s !! v = Some c' /\ (rank c' < rank c)%nat) ->
  core X' (set_slots m s).
Proof.
  intros [] Hm. split; try done. intros c i v Hv Hx. destruct (Hm c i v Hv Hx) as [[Hs Hx']|Hv']; [by eapply i_slots0|done].
Qed.
Lemma frame_slots G r s c i m : (forall k, k <> (c, i) -> m !! k = slots s !! k) -> (rank c <= r)%nat -> frame G r s (set_slots m s).
Proof. intros Hm Hr. split; [|done|done]. intros c' i' Hc. apply Hm. intros [= -> _]. lia. Qed.

Lemma inv_slot_set F R X s c i v c' : inv (v :: F) R X s -> (c, i) ∉ X -> objs s !! v = Some c' -> (rank c' < rank c)%nat ->
  inv F R X (set_slots (<[(c, i) := v]> (slots s)) s).
Proof.
  intros [Hc Ho] Hx Hv Hr. split.
  - apply (core_slots X); [done|]. intros d j w Hw Hd. apply lookup_insert_Some in Hw as [[[= <- <-] <-]|[Hne Hw]]; [right; by exists c'|by left].
  - eapply (own_state R _ s); [|done|done|done|done]. eapply (own_sub R _ R); [exact Ho|..]; unfold held; cbn [slots set_slots members mpi_tasks].
    + rw vals_insert //. rw -Permutation_middle. cbn [app]. apply submseteq_skip. apply submseteq_app; [done|]. apply submseteq_app; [apply vals_drop|done].
    + rw vals_insert //. rw -Permutation_middle. cbn [app]. apply submseteq_app; [done|]. apply submseteq_skip. apply submseteq_app; [done|]. apply submseteq_app; [apply vals_drop|done].
Qed.
Lemma inv_slot_clear F R X s k : inv F R X s -> inv F R X (set_slots (delete k (slots s)) s).
Proof.
  intros [Hc Ho]. split.
  - apply (core_slots X); [done|]. intros d j w [_ Hw]%lookup_delete_Some Hd. by left.
  - eapply (own_state R _ s); [|done|done|done|done]. eapply (own_sub R _ R); [exact Ho|..]; unfold held; cbn [slots set_slots members mpi_tasks].
    + apply submseteq_app; [done|]. apply submseteq_app; [apply vals_delete_drop|done].
    + do 2 (apply submseteq_app; [done|]). apply submseteq_app; [apply vals_delete_drop|done].
Qed.
(** A pointer is taken out of the link map but still stands there. *)
Lemma inv_slot_take F R X s c i v : inv F R X s -> (c, i) ∉ X -> slots s !! (c, i) = Some v -> inv (v :: F) R ({[(c, i)]} ∪ X) s.
Proof.
  intros [[] Ho] Hx Hv. split.
  - split; try done. intros d j w Hw Hd. eapply i_slots0; [done|]. intros Hin. apply Hd. by apply elem_of_union_r.
  - eapply own_perm; [exact Ho|]. unfold held. rw (vals_take X _ _ _ Hx Hv). cbn [app]. by rw -Permutation_middle.
Qed.
Lemma inv_slot_forget F R X s c i : inv F R ({[(c, i)]} ∪ X) s -> (c, i) ∉ X -> inv F R X (set_slots (delete (c, i) (slots s)) s).
Proof.
  intros [Hc Ho] Hx. split.
  - apply (core_slots ({[(c, i)]} ∪ X)); [done|]. intros d j w [Hne Hw]%lookup_delete_Some Hd. left. split; [done|].
    rw not_elem_of_union not_elem_of_singleton. split; [congruence|done].
  - eapply (own_state R _ s); [|done|done|done|done]. eapply own_perm; [exact Ho|]. unfold held. cbn [slots set_slots members mpi_tasks]. rw vals_delete.
    rw (vals_stale ({[(c, i)]} ∪ X) (slots s) (c, i) (delete (c, i) (slots s))); [done|intros k Hk; by rw lookup_delete_ne|by apply elem_of_union_l, elem_of_singleton].
Qed.

(** *** Pointers of objects *)
Lemma core_members X s m : core X s ->
  (forall p j v, m !! (p, j) = Some v -> members s !! (p, j) = Some v \/ exists c c', objs s !! p = Some c /\ objs s !! v = Some c' /\ (rank c' < rank c)%nat /\
    (is_Some (O !! p) -> has (oflags (info c)) RF_CLONE = false)) -> core X (set_members m s).
Proof. intros [] Hm. split; try done. intros p j v Hv. destruct (Hm p j v Hv) as [Hs|Hs]; [by eapply i_members0|done]. Qed.
Lemma inv_member_set F R X s p j v c c' : inv (v :: F) R X s -> objs s !! p = Some c -> objs s !! v = Some c' -> (rank c' < rank c)%nat ->
  (is_Some (O !! p) -> has (oflags (info c)) RF_CLONE = false) -> inv F R X (set_members (<[(p, j) := v]> (members s)) s).
Proof.
  intros [Hc Ho] Hp Hv Hr Hf. split.
  - apply (core_members X); [done|]. intros q k w Hw. apply lookup_insert_Some in Hw as [[[= <- <-] <-]|[Hne Hw]]; [right; by exists c, c'|by left].
  - eapply (own_state R _ s); [|done|done|done|done]. assert (vals ∅ (<[(p, j):=v]> (members s)) ≡ₚ v :: vals ({[(p, j)]} ∪ ∅) (members s)) as HP by (apply vals_insert; apply not_elem_of_empty).
    eapply (own_sub R _ R); [exact Ho|..]; unfold held; cbn [slots set_members members mpi_tasks]; rw HP; cbn [app]; rw -!Permutation_middle.
    + apply submseteq_skip. do 2 (apply submseteq_app; [done|]). apply submseteq_app; [apply vals_drop|done].
    + apply submseteq_skip. do 3 (apply submseteq_app; [done|]). apply submseteq_app; [apply vals_drop|done].
Qed.
Lemma inv_member_clear F R X s k : inv F R X s -> inv F R X (set_members (delete k (members s)) s).
Proof.
  intros [Hc Ho]. split.
  - apply (core_members X); [done|]. intros q j w [_ Hw]%lookup_delete_Some. by left.
  - eapply (own_state R _ s); [|done|done|done|done]. eapply (own_sub R _ R); [exact Ho|..]; unfold held; cbn [slots set_members members mpi_tasks].
    + do 2 (apply submseteq_app; [done|]). apply submseteq_app; [apply vals_delete_drop|done].
    + do 3 (apply submseteq_app; [done|]). apply submseteq_app; [apply vals_delete_drop|done].
Qed.
Lemma inv_member_take F R X s p j v : inv F R X s -> members s !! (p, j) = Some v -> inv (v :: F) R X (set_members (delete (p, j) (members s)) s).
Proof.
  intros [Hc Ho] Hv. split.
  - apply (core_members X); [done|]. intros q k w [_ Hw]%lookup_delete_Some. by left.
  - eapply (own_state R _ s); [|done|done|done|done]. eapply own_perm; [exact Ho|]. unfold held. cbn [slots set_members members mpi_tasks].
    rw (vals_take ∅ _ _ _ (not_elem_of_empty _) Hv) vals_delete.
    rw (vals_stale ({[(p, j)]} ∪ ∅) (members s) (p, j) (delete (p, j) (members s))); [|intros k Hk; by rw lookup_delete_ne|by apply elem_of_union_l, elem_of_singleton].
    cbn [app]. by rw -!Permutation_middle.
Qed.

(** *** The task maker *)
Lemma inv_tasks F R X s t : inv (if t =? 0 then F else t :: F) R X s -> inv F R X (set_tasks t s).
Proof.
  intros [Hc Ho]. split; [by destruct Hc; split|]. eapply (own_state R _ s); [|done|done|done|done].
  assert (held F X (set_tasks t s) ⊆+ held (if t =? 0 then F else t :: F) X s) as Hs.
  { unfold held. cbn [slots set_tasks members mpi_tasks]. destruct (t =? 0); cbn [app].
    - do 2 (apply submseteq_app; [done|]). apply submseteq_app; [done|apply submseteq_nil_l].
    - transitivity (t :: F ++ vals X (slots s) ++ vals ∅ (members s) ++ []); [apply Permutation_submseteq; solve_Permutation|].
      apply submseteq_skip. do 3 (apply submseteq_app; [done|]). apply submseteq_nil_l. }
  eapply (own_sub R _ R); [exact Ho|done|]. by apply submseteq_app.
Qed.

(** *** Counts *)
Lemma inv_drop F R X v s : inv (v :: F) R X s -> inv F R X s.
Proof. intros [Hc Ho]. split; [done|]. eapply (own_sub R _ R); [exact Ho|..]; unfold held; cbn [app]; [by apply submseteq_cons|]. apply submseteq_app; [done|by apply submseteq_cons]. Qed.
Lemma inv_drop_r F R X v s : inv F (v :: R) X s -> inv F R X s.
Proof. intros [Hc Ho]. split; [done|]. eapply (own_sub (v :: R) _ R); [exact Ho|done|]. by apply submseteq_cons. Qed.
Lemma core_entries X s h e e' s' : core X s -> entries s !! h = Some e -> pi_base e' = pi_base e ->
  base_map s' = base_map s -> core_array s' = core_array s -> exts s' = exts s -> objs s' = objs s -> slots s' = slots s -> members s' = members s ->
  clones s' = clones s -> rheap s' = rheap s -> entries s' = <[h := e']> (entries s) -> core X s'.
Proof.
  intros [] He Ep E1 E2 E3 E4 E5 E6 E7 E8 E9. split; rw ?E1 ?E2 ?E3 ?E4 ?E5 ?E6 ?E7 ?E8; try done.
  intros k. rw -i_entries0 E9. destruct (decide (h = k)) as [<-|Hne]; [rw lookup_insert_eq He; cbn; by rw Ep|by rw lookup_insert_ne].
Qed.

Lemma wp_entry F R X s h (Q : base_entry -> repo A -> Prop) : inv F R X s -> is_Some (PB !! h) ->
  (forall e, entries s !! h = Some e -> PB !! h = Some (pi_base e) -> Q e s) -> wp (entry h) s Q.
Proof.
  intros [[] _] [p Hp] HQ. unfold entry. apply wp_bind, wp_gets. specialize (i_entries0 h). rw Hp in i_entries0.
  destruct (entries s !! h) as [e|] eqn:E; [|done]. injection i_entries0 as Ep. eapply wp_lift_opt; [done|]. apply HQ; [done|]. by rw Hp Ep.
Qed.
Lemma steady_entry s s' h e e' : entries s !! h = Some e -> pi_base e' = pi_base e -> (has (bstate e) ST_INITIALIZED = true -> has (bstate e') ST_INITIALIZED = true) ->
  entries s' = <[h := e']> (entries s) -> clones s' = clones s -> steady s s'.
Proof.
  intros He Ep Eb E1 E2 v [(st & Hst & Hi)|(k & ek & Hk & Hv & Hi)]; [left; exists st; by rw E2|right]. exists k. rw E1.
  destruct (decide (h = k)) as [<-|Hne]; [exists e'; rw lookup_insert_eq; assert (ek = e) as -> by congruence; split; [done|]; split; [congruence|by apply Eb]|exists ek; by rw lookup_insert_ne].
Qed.
Lemma wp_add_ref F R X s h v (Q : unit -> repo A -> Prop) : inv F (v :: R) X s -> is_Some (PB !! h) -> owner s v = Some h -> ready s v ->
  (forall s', inv (v :: F) R X s' -> objs s' = objs s -> slots s' = slots s -> steady s s' -> Q tt s') -> wp (add_ref h) s Q.
Proof.
  intros Hi Hh Hv Hrv HQ. unfold add_ref. apply wp_bind. eapply (wp_entry F (v :: R) X); [exact Hi|done|]. intros e He Hp.
  unfold put_base, log. apply wp_bind, wp_modify, wp_modify.
  match goal with |- Q tt ?t => assert (steady s t) as Hst by by eapply (steady_entry s t h e (mkBase (pi_base e) (u32 (ref_cnt e + 1)) (bstate e))) end.
  apply HQ; [|done|done|exact Hst]. destruct Hi as [Hc Ho]. split.
  - eapply (core_entries X s h e (mkBase (pi_base e) (u32 (ref_cnt e + 1)) (bstate e))); done.
  - unfold held. cbn [set_entries slots members mpi_tasks app]. eapply (own_count v R _ s _ h e (mkBase (pi_base e) (u32 (ref_cnt e + 1)) (bstate e))); [exact Ho|done|done|done|done| | |exact Hst|exact Hrv].
    + cbn. rw length_app. cbn. lia.
    + cbn [trace set_entries ref_cnt]. rw length_app. cbn [length]. intros Ht. apply u32_small. pose proof (o_count _ _ _ Ho h e) as Hcnt. specialize (Hcnt ltac:(lia) He). lia.
Qed.
Lemma wp_drop_ref F R X s h v (Q : unit -> repo A -> Prop) : inv (v :: F) R X s -> owner s v = Some h -> is_Some (PB !! h) ->
  (forall s', inv F R X s' -> objs s' = objs s -> slots s' = slots s -> steady s s' -> Q tt s') -> wp (drop_ref h) s Q.
Proof.
  intros Hi Hv Hh HQ. unfold drop_ref. apply wp_bind. eapply (wp_entry (v :: F) R X); [exact Hi|done|]. intros e He Hp.
  apply wp_when; [intros Hnz|intros Hz].
  - unfold put_base. apply wp_modify.
    match goal with |- Q tt ?t => assert (steady s t) as Hst by by eapply (steady_entry s t h e (mkBase (pi_base e) (ref_cnt e - 1) (bstate e))) end.
    apply HQ; [|done|done|exact Hst]. destruct Hi as [Hc Ho]. split.
    + eapply (core_entries X s h e (mkBase (pi_base e) (ref_cnt e - 1) (bstate e))); done.
    + unfold held. cbn [set_entries slots members mpi_tasks app]. eapply (own_uncount v R _ s _ h e (mkBase (pi_base e) (ref_cnt e - 1) (bstate e))); [exact Ho|done|done|done|done|done|done|exact Hst].
  - apply HQ; [|done|done|by intros w]. by apply inv_drop in Hi.
Qed.
End inv.

Section release.
Context {A : Type} `{AllocatorLaws A}.
Context (cls : Z -> class) (rank : Z -> nat) (B : gmap base_key Z) (PB O : gmap Z Z) (CA : list Z) (EX : list extension).
Implicit Types s : repo A.
Lemma inv_exempt U v F R X s : inv cls rank B PB O CA EX U F R X s -> inv cls rank B PB O CA EX ({[v]} ∪ U) F R X s.
Proof.
  intros [Hc [Hv Hr Hd Hn]]. split; [done|]. split; [done| |done|done]. eapply Forall_impl; [exact Hr|]. intros w [Hw|Hw]; [left; by apply elem_of_union_r|by right].
Qed.
Lemma inv_unexempt U v F R X s : inv cls rank B PB O CA EX ({[v]} ∪ U) F R X s -> v ∉ held F X s -> inv cls rank B PB O CA EX U F R X s.
Proof.
  intros [Hc [Hv Hr Hd Hn]] Hnot. split; [done|]. split; [done| |done|done]. rw Forall_forall in Hr. apply Forall_forall. intros w Hw.
  destruct (Hr w Hw) as [Hu|Hre]; [|by right]. apply elem_of_union in Hu as [Hu|Hu]; [|by left]. apply elem_of_singleton in Hu as ->. done.
Qed.
End release.
