(* ===== verification/RepoSteps.v ===== *)
(** * Repository: the steps of a request (core/repository-2/repository.cpp,
    dcs.cpp, users.cpp)

    What the parts of a request and of a release do to the invariant of
    RepoInv.v: contexts of clones, states, users, and the loops over link maps
    and arrays. *)
From S2P Require Import Prelude Memory Str Repo LinkMap Repository RepoInv.
Set Default Goal Selector "!".

Lemma filter_ext_in {X} (P Q : X -> Prop) `{!forall x, Decision (P x), !forall x, Decision (Q x)} (l : list X) :
  (forall x, x ∈ l -> P x <-> Q x) -> filter P l = filter Q l.
Proof.
  induction l as [|x l IH]; intros Hl; [done|]. rw !filter_cons. rw IH; [|intros y Hy; apply Hl; by right].
  destruct (Hl x) as [H1 H2]; [left|]. case_decide; case_decide; [done|exfalso; auto|exfalso; auto|done].
Qed.

Section steps.
Context {A : Type} `{AllocatorLaws A}.
Context (cls : Z -> class) (rank : Z -> nat) (B : gmap base_key Z) (PB O : gmap Z Z) (CA : list Z) (EX : list extension) (U : gset Z).
Context (sys : acyclic cls rank B PB O CA EX).
Implicit Types s : repo A.
Abbreviation inv := (inv cls rank B PB O CA EX U).
Abbreviation owner := (owner cls B).
Abbreviation held := held.

Lemma valid_nz F R X s p c : inv F R X s -> objs s !! p = Some c -> p <> 0.
Proof.
  intros [Hc _] Hp. destruct (O !! p) as [c0|] eqn:E; [|by destruct (i_class _ _ _ _ _ _ _ _ _ Hc p c Hp E)].
  destruct (st_orig _ _ _ _ _ _ _ sys p c0 E) as [h Hh]. by destruct (st_entry _ _ _ _ _ _ _ sys h p Hh).
Qed.
(** An object of an image is found by its address, a clone is not. *)
Lemma orig_pointer F R X s p c : inv F R X s -> objs s !! p = Some c ->
  match O !! p with Some _ => exists h, B !! key_pointer p = Some h /\ PB !! h = Some p | None => B !! key_pointer p = None end.
Proof.
  intros Hi Hp. pose proof (valid_nz _ _ _ _ _ _ Hi Hp) as Hnz. destruct (O !! p) as [c0|] eqn:E.
  - destruct (st_orig _ _ _ _ _ _ _ sys p c0 E) as [h Hh]. exists h. split; [|done]. by apply (st_ptr _ _ _ _ _ _ _ sys).
  - destruct (B !! key_pointer p) as [h|] eqn:Eh; [|done]. apply (st_ptr _ _ _ _ _ _ _ sys h p Hnz) in Eh.
    destruct (st_entry _ _ _ _ _ _ _ sys h p Eh) as [_ [? Eo]]. congruence.
Qed.
Lemma held_valid F R X s v : inv F R X s -> v ∈ R ++ held F X s -> is_Some (objs s !! v).
Proof. intros [_ Ho] Hv. pose proof (o_valid _ _ _ _ _ _ _ Ho) as Hf. rw Forall_forall in Hf. by apply Hf. Qed.
Lemma orig_valid F R X s p c : inv F R X s -> O !! p = Some c -> objs s !! p = Some c.
Proof. intros [Hc _] Hp. by apply (i_orig _ _ _ _ _ _ _ _ _ Hc). Qed.
Lemma slot_held F R X s c i v : inv F R X s -> slots s !! (c, i) = Some v -> (c, i) ∉ X -> v ∈ held F X s.
Proof.
  intros _ Hv Hx. unfold RepoInv.held. apply elem_of_app. right. apply elem_of_app. left. rw (vals_take X _ _ _ Hx Hv). left.
Qed.

(** ** Lookups *)
Lemma wp_find F R X s k (Q : option Z -> repo A -> Prop) : inv F R X s -> Q (B !! k) s -> wp (find_object k) s Q.
Proof. intros [Hc _] HQ. unfold find_object. apply wp_bind, wp_gets, wp_ret. by rw (i_base _ _ _ _ _ _ _ _ _ Hc). Qed.
Lemma wp_class_of s p c (Q : class -> repo A -> Prop) : objs s !! p = Some c -> Q (cls c) s -> wp (class_of cls p) s Q.
Proof. intros Hp HQ. unfold class_of. apply wp_bind, wp_gets, wp_bind. by eapply wp_lift_opt. Qed.
Lemma wp_class_id s p c (Q : Z -> repo A -> Prop) : objs s !! p = Some c -> Q c s -> wp (class_id p) s Q.
Proof. intros Hp HQ. unfold class_id. apply wp_bind, wp_gets. by eapply wp_lift_opt. Qed.
Lemma wp_info_of s p c (Q : object_info -> repo A -> Prop) : objs s !! p = Some c -> Q (info cls c) s -> wp (info_of cls p) s Q.
Proof. intros Hp HQ. unfold info_of. by eapply wp_bind, wp_class_of. Qed.
(** The entry and the class of a handle. *)
Lemma wp_entry_info F R X s h (Q : base_entry -> repo A -> Prop) : inv F R X s -> is_Some (PB !! h) ->
  (forall e c, entries s !! h = Some e -> entry_class PB O h c -> PB !! h = Some (pi_base e) -> O !! pi_base e = Some c -> objs s !! pi_base e = Some c -> Q e s) ->
  wp (entry h) s Q.
Proof.
  intros Hi Hh HQ. eapply wp_entry; [exact Hi|done|]. intros e He Hp. destruct (st_entry _ _ _ _ _ _ _ sys h _ Hp) as [_ [c Hc]].
  apply (HQ e c); [done|by exists (pi_base e)|done|done|by eapply orig_valid].
Qed.
Lemma wp_find_entry F R X s p c (Q : option Z -> repo A -> Prop) : inv F R X s -> objs s !! p = Some c -> Q (owner s p) s -> wp (find_object_entry cls p) s Q.
Proof.
  intros Hi Hp HQ. unfold find_object_entry, find_object_by_pointer. apply wp_bind. eapply wp_find; [exact Hi|]. unfold RepoInv.owner in HQ.
  destruct (B !! key_pointer p) as [h|]; [by apply wp_ret|]. apply wp_bind. eapply wp_info_of; [exact Hp|].
  unfold find_object_by_cname. eapply wp_find; [exact Hi|]. by rw Hp in HQ.
Qed.
Lemma wp_get_cstate F R X s p c (Q : Z -> repo A -> Prop) : inv F R X s -> objs s !! p = Some c -> (forall st, (has st ST_INITIALIZED = true -> ready s p) -> Q st s) -> wp (get_context_state p) s Q.
Proof.
  intros Hi Hp HQ. pose proof (valid_nz _ _ _ _ _ _ Hi Hp) as Hnz. pose proof (orig_pointer _ _ _ _ _ _ Hi Hp) as Hptr. unfold get_context_state.
  destruct (Z.eqb_spec p 0); [done|]. cbn [negb]. unfold find_object_by_pointer. apply wp_bind. eapply wp_find; [exact Hi|]. destruct (O !! p) as [c0|] eqn:Eo.
  - destruct Hptr as (h & -> & Hh). apply wp_bind. eapply (wp_entry _ _ _ _ _ _ _ _ F R X); [exact Hi|by eexists|]. intros e He Hpe. apply wp_ret, HQ.
    intros Hst. right. exists h, e. split; [done|]. split; [congruence|done].
  - rw Hptr. unfold dcs_get_context_state. apply wp_bind, wp_gets. destruct Hi as [Hc _].
    destruct (proj2 (i_clones _ _ _ _ _ _ _ _ _ Hc p) (conj (ex_intro _ c Hp) Eo)) as [st Hst]. eapply wp_lift_opt; [exact Hst|]. apply HQ. intros Hin. left. by exists st.
Qed.
Lemma wp_set_state F R X s p c st (Q : unit -> repo A -> Prop) : inv F R X s -> objs s !! p = Some c -> (p ∈ U \/ has st ST_INITIALIZED = true) ->
  (forall s', same U s s' -> (has st ST_INITIALIZED = true -> ready s' p) -> Q tt s') -> wp (set_context_state p st) s Q.
Proof.
  intros Hi Hp Hu HQ. pose proof (valid_nz _ _ _ _ _ _ Hi Hp) as Hnz. pose proof (orig_pointer _ _ _ _ _ _ Hi Hp) as Hptr. unfold set_context_state.
  apply wp_when; [intros _|intros E; destruct (Z.eqb_spec p 0); done]. unfold find_object_by_pointer. apply wp_bind. eapply wp_find; [exact Hi|]. destruct (O !! p) as [c0|] eqn:Eo.
  - destruct Hptr as (h & -> & Hh). apply wp_bind. eapply (wp_entry _ _ _ _ _ _ _ _ F R X); [exact Hi|by eexists|]. intros e He Hpe. unfold put_base. apply wp_modify.
    assert (pi_base e = p) as Ep by congruence. apply HQ.
    + split; try done.
      * intros k. cbn. destruct (decide (h = k)) as [<-|Hne]; [rw lookup_insert_eq He; done|by rw lookup_insert_ne].
      * intros v Hv [(st0 & Hs & Hin)|(k & ek & Hk & Hkv & Hin)]; [left; by exists st0|right]. destruct (decide (h = k)) as [<-|Hne].
        -- exists h, (mkBase (pi_base e) (ref_cnt e) st). cbn. rw lookup_insert_eq. assert (ek = e) as -> by congruence. split; [done|]. split; [done|].
           destruct Hu as [Hu|Hu]; [|done]. destruct Hv. congruence.
        -- exists k, ek. cbn. by rw lookup_insert_ne.
    + intros Hin. right. exists h, (mkBase (pi_base e) (ref_cnt e) st). cbn. by rw lookup_insert_eq.
  - rw Hptr. unfold dcs_set_context_state, dcs_get_context_state. apply wp_bind, wp_bind, wp_gets. destruct Hi as [Hc _].
    destruct (proj2 (i_clones _ _ _ _ _ _ _ _ _ Hc p) (conj (ex_intro _ c Hp) Eo)) as [st0 Hst]. eapply wp_lift_opt; [exact Hst|]. apply wp_modify. apply HQ.
    + split; try done.
      * intros q. cbn. destruct (decide (p = q)) as [<-|Hne]; [rw lookup_insert_eq Hst; by split; eexists|by rw lookup_insert_ne].
      * intros v Hv [(st1 & Hs & Hin)|Hen]; [left|by right]. cbn. destruct (decide (p = v)) as [<-|Hne]; [|exists st1; by rw lookup_insert_ne].
        exists st. rw lookup_insert_eq. split; [done|]. by destruct Hu.
    + intros Hin. left. exists st. cbn. by rw lookup_insert_eq.
Qed.

(** ** Clones *)
Lemma fresh_alloc F R X s n : inv F R X s -> 0 < n -> (a_alloc (rheap s) n).1 <> 0 ->
  objs s !! (a_alloc (rheap s) n).1 = None /\ O !! (a_alloc (rheap s) n).1 = None /\
  a_ok (a_alloc (rheap s) n).2 /\ a_live (a_alloc (rheap s) n).2 = <[(a_alloc (rheap s) n).1 := n]> (a_live (rheap s)) /\ a_live (rheap s) !! (a_alloc (rheap s) n).1 = None.
Proof.
  intros [Hc _] Hn Hp. destruct (alloc_law (rheap s) n (i_heap _ _ _ _ _ _ _ _ _ Hc) Hn) as [Hok [[E _]|(Hpos & Hf & Hl)]]; [done|].
  assert (O !! (a_alloc (rheap s) n).1 = None) as Ho.
  { destruct (O !! (a_alloc (rheap s) n).1) as [c|] eqn:E; [|done]. destruct (i_static _ _ _ _ _ _ _ _ _ Hc (a_alloc (rheap s) n).1) as [m Hm]; [by eexists|congruence]. }
  split; [|done]. destruct (objs s !! (a_alloc (rheap s) n).1) as [c|] eqn:E; [|done]. pose proof (i_live _ _ _ _ _ _ _ _ _ Hc _ _ E Ho). congruence.
Qed.
Lemma copy_none (src p : Z) (m : gmap (Z * nat) Z) : (forall j v, m !! (src, j) = Some v -> False) -> copy_members src p m = m.
Proof.
  intros Hn. unfold copy_members. assert (filter (fun x : (Z * nat) * Z => x.1.1 = src) (map_to_list m) = []) as ->; [|by rw left_id_L].
  destruct (filter (fun x : (Z * nat) * Z => x.1.1 = src) (map_to_list m)) as [|[[q j] v] l] eqn:E; [done|]. exfalso.
  assert ((q, j, v) ∈ filter (fun x : (Z * nat) * Z => x.1.1 = src) (map_to_list m)) as Hin by (rw E; left).
  apply list_elem_of_filter in Hin as [Eq Hin]. cbn in Eq. subst q. apply elem_of_map_to_list in Hin. by eapply Hn.
Qed.

Lemma wp_dcs_create F R X s h flags c (Q : Z -> repo A -> Prop) : inv F R X s -> entry_class PB O h c ->
  has (Z.land (oflags (info cls c)) flags) RF_CLONE = true ->
  (forall s', inv F R X s' -> objs s' = objs s -> slots s' = slots s -> steady s s' -> Q 0 s') ->
  (forall p s', p <> 0 -> inv F (p :: R) X s' -> objs s !! p = None -> objs s' = <[p := c]> (objs s) -> slots s' = slots s -> owner s' p = Some h -> O !! p = None -> steady s s' -> Q p s') ->
  wp (dcs_create_context cls h flags) s Q.
Proof.
  intros Hi (p0 & Hp0 & Hc0) Hfl HQ0 HQ. assert (has (oflags (info cls c)) RF_CLONE = true) as Hcl.
  { unfold has in *. apply negb_true_iff, Z.eqb_neq. apply negb_true_iff, Z.eqb_neq in Hfl. intros E. apply Hfl. rw (Z.land_comm (oflags (info cls c)) flags) -Z.land_assoc E. apply Z.land_0_r. }
  unfold dcs_create_context. apply wp_bind. eapply wp_entry; [exact Hi|by eexists|]. intros e He Hpe. assert (pi_base e = p0) as -> by congruence.
  apply wp_bind. eapply wp_class_id; [by eapply orig_valid|]. fold (info cls c). rw Hfl. unfold dcs_add.
  pose proof (st_size _ _ _ _ _ _ _ sys c) as Hsz. assert (0 < u32 (osize (info cls c) + 1)) as Hn by (rw u32_small; lia).
  pose proof (fresh_alloc F R X s _ Hi Hn) as Hf. destruct (alloc_law (rheap s) _ (i_heap _ _ _ _ _ _ _ _ _ (proj1 Hi)) Hn) as [Hok Hlaw].
  set (n := u32 (osize (info cls c) + 1)) in *. unfold wp. destruct (a_alloc (rheap s) n) as [p a] eqn:Ea. cbn [fst snd] in *. destruct (Z.eqb_spec p 0) as [->|Hnz].
  - apply HQ0; [|done|done|by intros w]. destruct Hlaw as [[_ El]|[Hpos _]]; [|done]. destruct Hi as [[] Ho]. split; [|by eapply own_state]. split; try done; cbn [rheap set_rheap]; [|by rw El].
    intros q d Hq Hqo. rw El. by apply i_live.
  - destruct (Hf Hnz) as (Hfo & HfO & _ & Hl & Hfl'). rw copy_none.
    2: { intros j v Hv. destruct (i_members _ _ _ _ _ _ _ _ _ (proj1 Hi) _ _ _ Hv) as (d & d' & Hd & _ & _ & Hcf).
         assert (objs s !! p0 = Some c) as Hobj by by eapply orig_valid. assert (d = c) as -> by congruence. rw Hcf in Hcl; [done|by eexists]. }
    match goal with |- Q p ?s1 => set (s' := s1) end.
    assert (owner s' p = Some h) as Hown.
    { unfold RepoInv.owner. assert (B !! key_pointer p = None) as ->.
      { destruct (B !! key_pointer p) as [k|] eqn:Ek; [|done]. apply (st_ptr _ _ _ _ _ _ _ sys k p Hnz) in Ek. destruct (st_entry _ _ _ _ _ _ _ sys k p Ek) as [_ [? ?]]. congruence. }
      cbn. rw lookup_insert_eq. cbn. apply (st_clone _ _ _ _ _ _ _ sys h c); [by exists p0|done]. }
    assert (steady s s') as Hst.
    { intros w [(st & Hs & Hin)|Hen]; [left; exists st; cbn|by right]. rw lookup_insert_ne; [done|]. intros <-.
      destruct (proj1 (i_clones _ _ _ _ _ _ _ _ _ (proj1 Hi) p) (ex_intro _ st Hs)) as [[d Hd] _]. congruence. }
    apply HQ; [done| |done|done|done|exact Hown|done|exact Hst].
    assert (forall v, v ∈ R ++ RepoInv.held F X s -> is_Some (objs s !! v)) as Hval by (intros v; by apply held_valid). destruct Hi as [[] Ho]. split.
    + split; try done; cbn.
      * intros q d Hq. rw lookup_insert_ne; [by apply i_orig|]. intros ->. congruence.
      * intros q. destruct (decide (p = q)) as [<-|Hne]; [rw !lookup_insert_eq; split; [intros _; by split; [eexists|]|by eexists]|rw !lookup_insert_ne //].
      * intros q d. destruct (decide (p = q)) as [<-|Hne]; [rw lookup_insert_eq; intros [= <-] _; split; [done|]; exists h; by split; [exists p0|]|rw lookup_insert_ne //; apply i_class].
      * intros q d Hq Hqo. rw Hl. destruct (decide (p = q)) as [<-|Hne].
        -- rw lookup_insert_eq in Hq. injection Hq as <-. by rw lookup_insert_eq.
        -- rw lookup_insert_ne // in Hq. rw lookup_insert_ne //. by apply i_live.
      * intros q Hq. rw Hl. destruct (decide (p = q)) as [<-|Hne]; [by rw lookup_insert_eq; eexists|rw lookup_insert_ne //; by apply i_static].
      * intros d i v Hv Hx. destruct (i_slots d i v Hv Hx) as (d' & Hd' & Hr). exists d'. split; [|done]. rw lookup_insert_ne; [done|congruence].
      * intros q m v Hv. destruct (i_members q m v Hv) as (d & d' & Hd & Hd' & Hr). exists d, d'. rw !lookup_insert_ne; [done|congruence|congruence].
    + assert (forall v, v ∈ R ++ RepoInv.held F X s -> v <> p) as Hvp.
      { intros v Hv ->. destruct (Hval p Hv) as [d Hd]. congruence. }
      destruct Ho as [Hv Hre Hd Hcn]. split.
      * cbn [app]. constructor; [cbn; rw lookup_insert_eq; by eexists|]. eapply Forall_impl; [exact Hv|]. intros v Hv'. cbn.
        destruct (decide (p = v)) as [<-|Hne]; [rw lookup_insert_eq; by eexists|by rw lookup_insert_ne].
      * eapply Forall_impl; [exact Hre|]. intros w [Hw|Hw]; [by left|right; by apply Hst].
      * cbn [app]. rw filter_cons_True; [|done]. constructor; [|done]. intros Hin. apply list_elem_of_filter in Hin as [_ Hin]. by apply (Hvp p).
      * intros k ek Ht Hk. specialize (Hcn k ek Ht Hk). rw (filter_ext_in (fun v => owner s' v = Some k) (fun v => owner s v = Some k)); [exact Hcn|].
        intros v Hin. assert (v <> p) as Hne by (apply Hvp, elem_of_app; by right). unfold RepoInv.owner. cbn. by rw lookup_insert_ne.
Qed.

(** The clone goes away when nobody holds it any more. *)
Lemma inv_remove F R X s p c : inv F R X s -> objs s !! p = Some c -> O !! p = None -> p ∉ R ++ held F X s ->
  exists s', dcs_remove_context cls p s = Some (true, s') /\ inv F R X s' /\ (forall q, q <> p -> objs s' !! q = objs s !! q) /\ slots s' = slots s /\ (forall q, q <> p -> ready s q -> ready s' q) /\ objs s' !! p = None.
Proof.
  intros Hi Hp Ho Hnot. unfold dcs_remove_context. destruct Hi as [Hc Hown]. destruct (proj2 (i_clones _ _ _ _ _ _ _ _ _ Hc p) (conj (ex_intro _ c Hp) Ho)) as [st Hst].
  rw Hst Hp. eexists. split; [done|]. match goal with |- inv _ _ _ ?t /\ _ => set (s' := t) end.
  assert (forall q, q <> p -> ready s q -> ready s' q) as Hkeep.
  { intros q Hq [(st' & Hs & Hin)|Hen]; [left; exists st'; cbn; by rw lookup_delete_ne|by right]. }
  split; [|split; [intros q Hq; cbn; by rw lookup_delete_ne|split; [done|split; [exact Hkeep|by cbn; rw lookup_delete_eq]]]]. subst s'.
  fold (info cls c). pose proof (free_law (rheap s) p _ (i_heap _ _ _ _ _ _ _ _ _ Hc) (i_live _ _ _ _ _ _ _ _ _ Hc p c Hp Ho)) as [Hok Hl].
  assert (forall k v, members s !! k = Some v -> v <> p) as Hmem.
  { intros k v Hv ->. apply Hnot. apply elem_of_app. right. unfold RepoInv.held. do 2 (apply elem_of_app; right). apply elem_of_app. left. rw (vals_take ∅ _ _ _ (not_elem_of_empty _) Hv). left. }
  assert (vals ∅ (drop_members p (members s)) ⊆+ vals ∅ (members s)) as Hdrop by apply vals_filter.
  split.
  - destruct Hc. split; try done; cbn.
    + intros q d Hq. rw lookup_delete_ne; [by apply i_orig|]. intros ->. congruence.
    + intros q. destruct (decide (p = q)) as [<-|Hne]; [rw !lookup_delete_eq; split; [by intros [? ?]|by intros [[? ?] _]]|rw !lookup_delete_ne //].
    + intros q d [_ Hq]%lookup_delete_Some. by apply i_class.
    + intros q d [Hne Hq]%lookup_delete_Some Hqo. rw Hl lookup_delete_ne //. by apply i_live.
    + intros q Hq. rw Hl lookup_delete_ne; [by apply i_static|]. intros ->. destruct Hq as [? Hq]. congruence.
    + intros d i v Hv Hx. destruct (i_slots d i v Hv Hx) as (d' & Hd' & Hr). exists d'. split; [|done]. rw lookup_delete_ne; [done|]. intros ->. apply Hnot.
      apply elem_of_app. right. unfold RepoInv.held. apply elem_of_app. right. apply elem_of_app. left. rw (vals_take X _ _ _ Hx Hv). left.
    + intros q m v [Hv Hq]%map_lookup_filter_Some. cbn in Hq. destruct (i_members q m v Hv) as (d & d' & Hd & Hd' & Hr). exists d, d'.
      rw !lookup_delete_ne //. intros ->. by apply (Hmem (q, m) v).
  - assert (RepoInv.held F X (set_clones (delete p (clones s)) (set_objs (delete p (objs s)) (set_members (drop_members p (members s)) (set_rheap (a_free (rheap s) p (u32 (osize (info cls c) + 1))) s))))
      ⊆+ RepoInv.held F X s) as Hsub.
    { unfold RepoInv.held. cbn. do 2 (apply submseteq_app; [done|]). by apply submseteq_app. }
    assert (forall v, v ∈ R ++ RepoInv.held F X s -> v <> p) as Hvp by by intros v Hv ->.
    eapply own_sub in Hown; [|exact Hsub|by apply submseteq_app]. destruct Hown as [Hv Hre Hd Hcn]. split; [| |done|].
    + apply Forall_forall. intros v Hin. rw Forall_forall in Hv. cbn. rw lookup_delete_ne; [by apply Hv|]. intros ->. apply (Hvp v); [|done].
      apply elem_of_app in Hin as [Hin|Hin]; apply elem_of_app; [by left|right]. by eapply elem_of_submseteq.
    + rw Forall_forall in Hre. apply Forall_forall. intros v Hin. destruct (Hre v Hin) as [Hu|Hr]; [by left|right]. apply Hkeep; [|done].
      apply Hvp, elem_of_app. right. by eapply elem_of_submseteq.
    + intros k ek Ht Hk. rw (filter_ext_in _ (fun v => owner s v = Some k)); [by apply (Hcn k ek Ht Hk)|].
      intros v Hin. assert (v <> p) as Hne by (apply Hvp, elem_of_app; right; by eapply elem_of_submseteq).
      unfold RepoInv.owner. cbn. by rw lookup_delete_ne.
Qed.
End steps.
