(* ===== verification/RepoLoops.v ===== *)
(** * Repository: the loops of a request (core/repository-2/link_map.cpp,
    users.cpp, repository.cpp)

    The walk over a link map, the enumeration of the arrays, and what neither
    objects nor counts depend on: users, notifications, states. *)
From S2P Require Import Prelude Memory Str Repo LinkMap Repository RepoInv RepoSteps.
Set Default Goal Selector "!".

Section loops.
Context {A : Type} `{Allocator A} {EO : ExtOrder}.
Lemma wp_for_each {X} (P : repo A -> Prop) (f : X -> M (repo A) unit) l s :
  (forall x s, x ∈ l -> P s -> wp (f x) s (fun _ => P)) -> P s -> wp (for_each f l) s (fun _ => P).
Proof.
  revert s. induction l as [|x l IH]; intros s Hf Hs; [by apply wp_ret|]. cbn. apply wp_bind. eapply wp_mono; [apply Hf; [left|done]|].
  intros [] s' Hs'. apply IH; [|done]. intros y t Hy. apply Hf. by right.
Qed.
Lemma wp_walk (P : repo A -> Prop) f l i r s :
  (forall j x r s, x ∈ l -> P s -> wp (f j x r) s (fun _ => P)) -> P s -> wp (walk f l i r) s (fun _ => P).
Proof.
  revert i r s. induction l as [|x l IH]; intros i r s Hf Hs; [by apply wp_ret|]. cbn. apply wp_bind. eapply wp_mono; [apply Hf; [left|done]|].
  intros [r'|] s' Hs'; [|by apply wp_ret]. apply IH; [|done]. intros j y r2 t Hy. apply Hf. by right.
Qed.
Lemma wp_on_links cls (P : repo A -> Prop) p f c s : objs s !! p = Some c ->
  (forall j x r s, x ∈ object_link (cls c) -> P s -> wp (f c j x r) s (fun _ => P)) -> P s -> wp (on_links cls p f) s (fun _ => P).
Proof.
  intros Hp Hf Hs. unfold on_links, links_of. apply wp_bind, wp_bind. eapply wp_class_id; [exact Hp|]. apply wp_ret. by apply wp_walk.
Qed.
End loops.

Section idle_rules.
Context {A : Type} `{Allocator A} (U : gset Z).
Abbreviation same := (same U).
Lemma repo_same_refl (s : repo A) : same s s.
Proof. done. Qed.
Lemma repo_same_trans (s1 s2 s3 : repo A) : same s1 s2 -> same s2 s3 -> same s1 s3.
Proof.
  intros [E1 E2 E3 E4 E5 E6 E7 E8 E9 E10 E11 E12] [D1 D2 D3 D4 D5 D6 D7 D8 D9 D10 D11 D12]. split; try congruence.
  - intros p. by rw D9.
  - lia.
  - intros v Hv Hr. by apply D12, E12.
Qed.

(** ** What matters not *)
Definition idle {X} (m : M (repo A) X) s : Prop := wp m s (fun _ s' => same s s').
Lemma idle_bind {X Y} (m : M (repo A) X) (f : X -> M (repo A) Y) s : idle m s -> (forall x s', same s s' -> idle (f x) s') -> idle (m ≫= f) s.
Proof.
  intros Hm Hf. apply wp_bind. eapply wp_mono; [exact Hm|]. intros x s' Hs. eapply wp_mono; [by apply Hf|]. intros y s2 Hs2. exact (repo_same_trans _ _ _ Hs Hs2).
Qed.
Lemma idle_ret {X} (x : X) s : idle (mret x) s.
Proof. by apply wp_ret. Qed.
Lemma idle_when (b : bool) m s : (b = true -> idle m s) -> idle (when b m) s.
Proof. intros Hm. apply wp_when; [exact Hm|done]. Qed.
Lemma idle_log e s : idle (log e) s.
Proof. unfold log. apply wp_modify. split; try done. cbn. rw length_app. lia. Qed.
Lemma idle_grant s : idle grant s.
Proof. unfold idle, wp, grant. by destruct (grants s). Qed.
Lemma idle_gets {X} (f : repo A -> X) s : idle (gets f) s.
Proof. by apply wp_gets. Qed.
Lemma idle_users x s : idle (modify (set_users x)) s.
Proof. by apply wp_modify. Qed.
Lemma idle_pending (f : repo A -> gset Z) s : idle (modify (fun s => set_pending (f s) s)) s.
Proof. by apply wp_modify. Qed.
Lemma idle_ref_ctl l cmd c i s : idle (ref_ctl l cmd c i) s.
Proof. apply idle_when. intros _. apply idle_log. Qed.
Lemma idle_info_ctl l cmd c i h s : idle (info_ctl l cmd c i h) s.
Proof. apply idle_when. intros _. apply idle_log. Qed.
Lemma idle_add_user h p s : idle (users_add_object_user h p) s.
Proof.
  unfold users_add_object_user, users_add_object. apply idle_bind; [|intros; by apply wp_modify]. apply idle_bind; [apply idle_gets|].
  intros m s' _. destruct (m !! h); [apply idle_ret|]. apply idle_bind; [apply idle_grant|]. intros ok s2 _. apply idle_when. intros _. by apply wp_modify.
Qed.
Lemma idle_remove_user h p s : idle (users_remove_object_user h p) s.
Proof. by apply wp_modify. Qed.
End idle_rules.

Section idle.
Context {A : Type} `{AllocatorLaws A} {EO : ExtOrder}.
Context (cls : Z -> class) (rank : Z -> nat) (B : gmap base_key Z) (PB O : gmap Z Z) (CA : list Z) (EX : list extension) (U : gset Z).
Context (sys : acyclic cls rank B PB O CA EX).
Implicit Types s : repo A.
Abbreviation inv := (inv cls rank B PB O CA EX U).
Abbreviation same := (same U).
Abbreviation idle := (idle U).

Lemma wp_idle {X} F R St (m : M (repo A) X) s Q : inv F R St s -> idle m s -> (forall x s', inv F R St s' -> same s s' -> Q x s') -> wp m s Q.
Proof. intros Hi Hm HQ. eapply wp_mono; [exact Hm|]. intros x s' Hs. apply HQ; [eapply inv_same; [exact Hs|exact Hi]|done]. Qed.
Lemma idle_entry F R St h s : inv F R St s -> is_Some (PB !! h) -> idle (entry h) s.
Proof. intros Hi Hh. eapply (wp_entry _ _ _ _ _ _ _ _ F R St); [exact Hi|done|]. by intros. Qed.

(** Every entry of the arrays, with its information. *)
Lemma wp_enum (P : repo A -> Prop) F R St pcb s : (forall t, P t -> inv F R St t) ->
  (forall h t, is_Some (PB !! h) -> P t -> wp (pcb h) t (fun _ => P)) -> P s -> wp (enum_base_array pcb) s (fun _ => P).
Proof.
  intros Hinv Hf Hs. unfold enum_base_array, all_entries. apply wp_bind, wp_gets. destruct (Hinv s Hs) as [Hc _].
  rw (i_core _ _ _ _ _ _ _ _ _ Hc) (i_exts _ _ _ _ _ _ _ _ _ Hc). pose proof (st_arrays _ _ _ _ _ _ _ sys) as Ha. rw Forall_forall in Ha.
  apply wp_for_each; [|done]. intros h t Hh Ht. apply Hf; [|done]. apply Ha. by rw -{1}(ext_order_perm EX).
Qed.
Lemma idle_enum F R St (f : Z -> object_info -> M (repo A) unit) s : inv F R St s -> (forall h oi s, idle (f h oi) s) ->
  idle (enum_base_array (fun h => e ← entry h; oi ← info_of cls (pi_base e); f h oi)) s.
Proof.
  intros Hi Hf. unfold idle. eapply wp_mono; [eapply (wp_enum (fun t => inv F R St t /\ same s t) F R St); [by intros t []| |split; [done|apply repo_same_refl]]|by intros _ t []].
  intros h t Hh [Ht Hs]. apply wp_bind. eapply (wp_entry_info _ _ _ _ _ _ _ _ sys F R St); [exact Ht|done|]. intros e c He _ _ _ Hc.
  apply wp_bind. eapply wp_info_of; [exact Hc|]. eapply wp_idle; [exact Ht|apply Hf|]. intros _ t' Ht' Hs'. split; [done|eapply repo_same_trans; eassumption].
Qed.
Lemma idle_update_users F R St p c s : inv F R St s -> objs s !! p = Some c -> (forall i, (c, i) ∉ St) -> idle (update_users cls p) s.
Proof.
  intros Hi Hp Hx. unfold update_users. apply idle_bind; [|intros; apply idle_ret]. unfold idle.
  eapply wp_mono; [eapply (wp_on_links cls (fun t => inv F R St t /\ same s t)); [exact Hp| |split; [done|apply repo_same_refl]]|by intros _ t []].
  intros j x r t Hx' [Ht Hs]. unfold go. apply wp_bind. eapply wp_mono with (Q := fun _ t' => inv F R St t' /\ same s t'); [|intros; by apply wp_ret].
  assert (idle (if ppi_base x then v ← read_slot c j; when (negb (v =? 0)) (f ← find_object_entry cls v; match f with Some h => users_add_object_user h p | None => mret tt end)
    else enum_base_array (fun h => e ← entry h; oi ← info_of cls (pi_base e); when (named x oi) (users_add_object_user h p))) t) as Hid.
  - destruct (ppi_base x).
    + apply wp_bind. unfold read_slot. apply wp_bind, wp_gets, wp_ret. apply idle_when. intros Hnz.
      destruct (slots t !! (c, j)) as [v|] eqn:Ev; [|by apply negb_true_iff, Z.eqb_neq in Hnz]. cbn [from_option id] in *.
      destruct (i_slots _ _ _ _ _ _ _ _ _ (proj1 Ht) c j v Ev (Hx j)) as (c' & Hv & _).
      apply wp_bind. eapply wp_find_entry; [exact Ht|exact Hv|]. destruct (owner cls B t v); [apply idle_add_user|apply idle_ret].
    + eapply idle_enum; [exact Ht|]. intros h oi t'. apply idle_when. intros _. apply idle_add_user.
  - eapply wp_idle; [exact Ht|exact Hid|]. intros _ t' Ht' Hs'. split; [done|eapply repo_same_trans; eassumption].
Qed.
Lemma idle_lm_remove_user F R St c i l p s : inv F R St s -> idle (remove_user cls c i l p) s.
Proof.
  intros Hi. eapply idle_enum; [exact Hi|]. intros h oi t. apply idle_when. intros _. apply idle_bind; [apply idle_info_ctl|]. intros _ t' _. apply idle_remove_user.
Qed.
End idle.
