(* ===== verification/RepoBelow.v ===== *)
(** * Repository: initialisation on top of requests
    (core/repository-2/link_map.cpp, repository.cpp)

    A class requests and releases objects of classes of smaller rank: what link
    maps, object controls and the task maker do, given that requests and
    releases [below] a rank keep the invariant of RepoInv.v. *)
From S2P Require Import Prelude Memory Str Repo LinkMap Repository RepoInv RepoSteps RepoLoops.
Set Default Goal Selector "!".

Section below.
Context {A : Type} `{AllocatorLaws A} {EO : ExtOrder}.
Context (cls : Z -> class) (rank : Z -> nat) (B : gmap base_key Z) (PB O : gmap Z Z) (CA : list Z) (EX : list extension) (U : gset Z).
Context (sys : acyclic cls rank B PB O CA EX).
Implicit Types s : repo A.
Abbreviation inv := (inv cls rank B PB O CA EX U).
Abbreviation same := (same U).
Abbreviation idle := (idle U).
Abbreviation info := (info cls).
Abbreviation frame := (frame rank O U).
Abbreviation entry_class := (entry_class PB O).

(** The stale links and the objects that are being released belong to callers. *)
Record above (F R : list Z) (r : nat) (St : gset (Z * nat)) : Prop := {
  ab_stale c i : (c, i) ∈ St -> (r < rank c)%nat;
  ab_released v : v ∈ U -> v ∈ R ++ F /\ O !! v = None
}.
(** A request: nothing, or an object that the requester now holds. *)
Definition got (F R : list Z) (St : gset (Z * nat)) (r : nat) s (v : Z) s' : Prop :=
  (v = 0 /\ inv F R St s' \/ v <> 0 /\ (exists c, objs s' !! v = Some c /\ (rank c < r)%nat) /\ inv (v :: F) R St s') /\ frame (R ++ F) r s s'.
Record below (by_handle : option Z -> Z -> M (repo A) Z) (release : Z -> M (repo A) unit) (r : nat) : Prop := {
  bl_get F R St s h c flags : inv F R St s -> entry_class h c -> (rank c < r)%nat -> above F R (rank c) St ->
    wp (by_handle (Some h) flags) s (got F R St r s);
  bl_release F R St s v c : inv (v :: F) R St s -> objs s !! v = Some c -> (rank c < r)%nat -> above F R (rank c) St ->
    wp (release v) s (fun _ s' => inv F R St s' /\ frame (R ++ F) r s s');
  bl_none s : idle (release 0) s
}.
(** An object that is not released meanwhile: a clone that is held, or an original. *)
Definition target (G : list Z) (p c : Z) : Prop :=
  O !! p = None /\ p ∈ G \/ O !! p = Some c /\ has (oflags (info c)) RF_ORIGINAL = true.
Lemma target_kept F R St r s s' p c : target (R ++ F) p c -> objs s !! p = Some c -> inv F R St s' -> frame (R ++ F) r s s' -> objs s' !! p = Some c.
Proof. intros [[_ Hin]|[Ho _]] Hp Hi Hf; [by rw (fr_objs _ _ _ _ _ _ _ Hf)|by eapply orig_valid]. Qed.
Lemma target_members p c G cs : target G p c -> on_init (cls c) ++ on_uninit (cls c) <> [] -> cs = c -> is_Some (O !! p) -> has (oflags (info cs)) RF_CLONE = false.
Proof.
  intros [[Ho _]|[_ Hf]] Hne -> Hs; [rw Ho in Hs; by destruct Hs|]. destruct (has (oflags (info c)) RF_CLONE) eqn:E; [|done].
  by apply (st_both _ _ _ _ _ _ _ sys) in Hf.
Qed.
Lemma frame_mono G G' r r' s s' : G' ⊆ G -> (r <= r')%nat -> frame G r s s' -> frame G' r' s s'.
Proof. intros HG Hr [H1 H2 H3]. split; [intros c i Hc; apply H1; lia|intros p Hp; by apply H2, HG|]. intros v [Hv|Hv]; [by apply H3; left; apply HG|by apply H3; right]. Qed.
Lemma above_slot F R r St c i : above F R r St -> (rank c <= r)%nat -> (c, i) ∉ St.
Proof. intros [Ha _] Hr Hin. specialize (Ha c i Hin). lia. Qed.
Lemma above_add F R r St c i : above F R r St -> (r < rank c)%nat -> above F R r ({[(c, i)]} ∪ St).
Proof. intros [Ha Hu] Hr. split; [|done]. intros d j [[= -> ->]%elem_of_singleton|Hin]%elem_of_union; [done|by eapply Ha]. Qed.
Lemma above_mono F R r r' St : above F R r St -> (r' <= r)%nat -> above F R r' St.
Proof. intros [Ha Hu] Hr. split; [|done]. intros c i Hin. specialize (Ha c i Hin). lia. Qed.

(** What holds while the object [p] of class [c] is dealt with. *)
Definition at_work F R St p c s0 s : Prop := inv F R St s /\ frame (R ++ F) (rank c) s0 s /\ objs s !! p = Some c.
Lemma work_same F R St p c s0 s s' : at_work F R St p c s0 s -> same s s' -> at_work F R St p c s0 s'.
Proof.
  intros (Hi & Hf & Hp) Hs. split; [by eapply inv_same|]. split; [|by rw (sm_objs _ _ _ Hs)].
  eapply (frame_trans rank O U (R ++ F) (R ++ F)); [done|apply Nat.le_refl|exact Hf|by apply frame_same].
Qed.
Lemma wp_work_idle {X} F R St p c s0 s (m : M (repo A) X) (Q : X -> repo A -> Prop) :
  at_work F R St p c s0 s -> idle m s -> (forall x s', at_work F R St p c s0 s' -> Q x s') -> wp m s Q.
Proof. intros Hw Hm HQ. eapply wp_mono; [exact Hm|]. intros x s' Hs. apply HQ. by eapply work_same. Qed.

Section callbacks.
Context (by_handle : option Z -> Z -> M (repo A) Z) (release : Z -> M (repo A) unit).

Lemma wp_request r F R St s cn inm flags : below by_handle release r -> inv F R St s -> above F R r St ->
  (forall h c, lookup_name B cn inm = Some h -> entry_class h c -> (rank c < r)%nat) ->
  wp (object_request by_handle cn inm flags) s (got F R St r s).
Proof.
  intros Hb Hi Ha Hr. unfold object_request. apply wp_bind.
  assert (wp (match cn, inm with Some n, _ => find_object_by_cname n | None, Some n => find_object_by_iname n | None, None => mret None end) s
    (fun f s' => f = lookup_name B cn inm /\ s' = s)) as Hf.
  { unfold find_object_by_cname, find_object_by_iname. destruct cn as [n|]; [by eapply wp_find|]. destruct inm as [n|]; [by eapply wp_find|by apply wp_ret]. }
  eapply wp_mono; [exact Hf|]. intros f s' [Ef ->]. destruct f as [h|]; [|apply wp_ret; split; [by left|apply frame_refl]].
  symmetry in Ef. assert (is_Some (PB !! h)) as [p Hp].
  { unfold lookup_name in Ef. destruct cn; [by eapply (st_base _ _ _ _ _ _ _ sys)|]. destruct inm; [by eapply (st_base _ _ _ _ _ _ _ sys)|done]. }
  destruct (st_entry _ _ _ _ _ _ _ sys h p Hp) as [_ [c Hc]]. assert (entry_class h c) as He by by exists p.
  specialize (Hr h c Ef He). eapply (bl_get _ _ _ Hb); [exact Hi|exact He|exact Hr|]. eapply above_mono; [exact Ha|lia].
Qed.

(** A pointer of the link map receives what was requested for it. *)
Lemma work_slot F R St p c s0 s v s' i : at_work F R St p c s0 s -> target (R ++ F) p c -> above F R (rank c) St -> got F R St (rank c) s v s' ->
  wp (write_slot c i v) s' (fun _ s2 => at_work F R St p c s0 s2).
Proof.
  intros (Hi & Hf & Hp) Ht Ha [Hg Hfr]. unfold write_slot. apply wp_modify.
  assert (frame (R ++ F) (rank c) s0 s') as Hf' by by eapply (frame_trans rank O U (R ++ F) (R ++ F)).
  assert (forall m, (forall k, k <> (c, i) -> m !! k = slots s' !! k) -> frame (R ++ F) (rank c) s0 (set_slots m s')) as Hfm.
  { intros m Hm. eapply (frame_trans rank O U (R ++ F) (R ++ F)); [done|apply Nat.le_refl|exact Hf'|by eapply frame_slots]. }
  destruct Hg as [[-> Hi']|(Hnz & (c' & Hv & Hr) & Hi')].
  - split; [by apply inv_slot_clear|]. split; [apply Hfm; intros k Hk; by rw lookup_delete_ne|]. eapply (target_kept F R St (rank c) s s'); eassumption.
  - destruct (Z.eqb_spec v 0); [done|]. split; [eapply inv_slot_set; [exact Hi'|by eapply above_slot|exact Hv|exact Hr]|].
    split; [apply Hfm; intros k Hk; by rw lookup_insert_ne|]. apply inv_drop in Hi'. eapply (target_kept F R St (rank c) s s'); eassumption.
Qed.
Lemma wp_lm_clean F R St s p c : inv F R St s -> objs s !! p = Some c -> target (R ++ F) p c -> above F R (rank c) St ->
  wp (lm_clean cls p) s (fun _ s' => at_work F R St p c s s').
Proof.
  intros Hi Hp Ht Ha. unfold lm_clean. apply wp_bind. eapply wp_mono; [eapply (wp_on_links cls (at_work F R St p c s)); [exact Hp| |by split; [|split; [apply frame_refl|]]]|intros x s' Hs'; apply wp_ret; exact Hs'].
  intros j x r t Hx Hw. unfold go. apply wp_bind. apply wp_when; [intros _|intros _; by apply wp_ret]. 
  eapply wp_mono; [eapply work_slot; [exact Hw|exact Ht|exact Ha|split; [left; split; [done|apply Hw]|apply frame_refl]]|].
  intros [] t' Ht'. by apply wp_ret.
Qed.
Lemma wp_lm_init F R St s0 s p c : below by_handle release (rank c) -> at_work F R St p c s0 s -> target (R ++ F) p c -> above F R (rank c) St ->
  wp (lm_init cls p (fun l => object_request by_handle (l_cname l) (l_iname l) (l_flags l))) s (fun _ s' => at_work F R St p c s0 s').
Proof.
  intros Hb Hw Ht Ha. unfold lm_init. eapply wp_on_links; [apply Hw| |exact Hw].
  intros j x r t Hx Hwt. apply wp_bind. eapply wp_work_idle; [exact Hwt|apply wp_bind, wp_gets, wp_ret; apply repo_same_refl|]. intros v t1 Hw1.
  destruct (ppi_base x && (v =? 0) && negb (has (l_flags x) RF_POST_INIT)) eqn:E; [|by apply wp_ret].
  apply andb_true_iff in E as [E _]. apply andb_true_iff in E as [E _]. unfold request_slot. apply wp_bind. eapply wp_mono.
  - eapply (wp_request (rank c)); [exact Hb|apply Hw1|exact Ha|]. intros h c' Hl He. eapply (st_links _ _ _ _ _ _ _ sys); [exact Hx|exact E|exact He|by left].
  - intros q t2 Hg. apply wp_bind. eapply wp_mono; [eapply work_slot; [exact Hw1|exact Ht|exact Ha|exact Hg]|]. intros [] t3 Hw3.
    destruct (negb (q =? 0)); [|destruct (negb (has (l_flags x) RF_NOCRITICAL)); by apply wp_ret].
    apply wp_bind. eapply wp_work_idle; [exact Hw3|apply idle_ref_ctl|]. intros [] t4 Hw4. by apply wp_ret.
Qed.

Lemma wp_read_slot c i s (Q : Z -> repo A -> Prop) :
  (forall v, (v <> 0 -> slots s !! (c, i) = Some v) -> Q v s) -> wp (read_slot c i) s Q.
Proof.
  intros HQ. unfold read_slot. apply wp_bind, wp_gets, wp_ret. apply HQ. intros Hnz. destruct (slots s !! (c, i)) as [v|]; [done|].
  by destruct Hnz.
Qed.
(** A pointer of the link map is released and cleared. *)
Lemma wp_release_slot F R St p c s0 s i v l : below by_handle release (rank c) -> at_work F R St p c s0 s -> target (R ++ F) p c -> above F R (rank c) St ->
  slots s !! (c, i) = Some v -> wp (ref_ctl l RCTL_UNREF c i;; release v;; write_slot c i 0) s (fun _ s' => at_work F R St p c s0 s').
Proof.
  intros Hb Hw Ht Ha Hv. pose proof (above_slot _ _ _ _ c i Ha (Nat.le_refl _)) as Hn. apply wp_bind. eapply wp_mono; [apply (idle_ref_ctl U)|]. intros [] t Hs.
  assert (slots t !! (c, i) = Some v) as Hvt by by rw (sm_slots _ _ _ Hs). eapply work_same in Hw; [|exact Hs]. destruct Hw as (Hi & Hf & Hp).
  destruct (i_slots _ _ _ _ _ _ _ _ _ (proj1 Hi) c i v Hvt Hn) as (c' & Hc' & Hr). pose proof (inv_slot_take _ _ _ _ _ _ _ _ _ _ _ _ _ _ _ Hi Hn Hvt) as Hi2.
  apply wp_bind. eapply wp_mono; [eapply (bl_release _ _ _ Hb F R); [exact Hi2|exact Hc'|exact Hr|]|].
  - eapply above_add; [eapply above_mono; [exact Ha|lia]|lia].
  - intros [] t' [Hi3 Hf3]. unfold write_slot. apply wp_modify. cbn [Z.eqb]. split; [by apply inv_slot_forget|]. split.
    + eapply (frame_trans rank O U (R ++ F) (R ++ F)); [done|apply Nat.le_refl|exact Hf|]. eapply (frame_trans rank O U (R ++ F) (R ++ F)); [done|apply Nat.le_refl|exact Hf3|].
      apply (frame_slots rank O U (R ++ F) (rank c) t' c i); [|done]. intros k Hk. by rw lookup_delete_ne.
    + cbn. eapply (target_kept F R ({[(c, i)]} ∪ St) (rank c) t t'); eassumption.
Qed.
Lemma wp_lm_uninit F R St s0 s p c : below by_handle release (rank c) -> at_work F R St p c s0 s -> target (R ++ F) p c -> above F R (rank c) St ->
  wp (lm_uninit cls p release) s (fun _ s' => at_work F R St p c s0 s').
Proof.
  intros Hb Hw Ht Ha. unfold lm_uninit. eapply wp_on_links; [apply Hw| |exact Hw]. intros j x r t _ Hwt. apply wp_bind. apply wp_read_slot. intros v Hv.
  unfold go. apply wp_bind. apply wp_when; [intros E|intros _; by apply wp_ret]. apply andb_true_iff in E as [_ E]. apply negb_true_iff, Z.eqb_neq in E.
  eapply wp_mono; [eapply wp_release_slot; [exact Hb|exact Hwt|exact Ht|exact Ha|by apply Hv]|]. intros [] t' Hw'. by apply wp_ret.
Qed.
Lemma wp_lm_pre_uninit F R St s0 s p c : below by_handle release (rank c) -> at_work F R St p c s0 s -> target (R ++ F) p c -> above F R (rank c) St ->
  wp (lm_pre_uninit cls p release (remove_user cls)) s (fun _ s' => at_work F R St p c s0 s').
Proof.
  intros Hb Hw Ht Ha. unfold lm_pre_uninit. eapply wp_on_links; [apply Hw| |exact Hw]. intros j x r t _ Hwt. apply wp_bind. apply wp_read_slot. intros v Hv.
  unfold go. apply wp_bind. apply wp_when; [intros _|intros _; by apply wp_ret]. destruct (ppi_base x).
  - apply wp_when; [intros E|intros _; by apply wp_ret]. apply negb_true_iff, Z.eqb_neq in E.
    eapply wp_mono; [eapply wp_release_slot; [exact Hb|exact Hwt|exact Ht|exact Ha|by apply Hv]|]. intros [] t' Hw'. by apply wp_ret.
  - eapply wp_work_idle; [exact Hwt|eapply idle_lm_remove_user; [exact sys|apply Hwt]|]. intros [] t' Hw'. by apply wp_ret.
Qed.
Lemma wp_lm_post_init F R St s0 s p c h : below by_handle release (rank c) -> at_work F R St p c s0 s -> target (R ++ F) p c -> above F R (rank c) St ->
  is_Some (PB !! h) -> wp (lm_post_init cls p h (fun h flags => by_handle (Some h) flags)) s (fun _ s' => at_work F R St p c s0 s').
Proof.
  intros Hb Hw Ht Ha Hh. unfold lm_post_init. eapply wp_on_links; [apply Hw| |exact Hw]. intros j x r t Hx Hwt. apply wp_bind. apply wp_read_slot. intros v Hv.
  apply wp_bind. eapply wp_entry_info; [exact sys|apply Hwt|exact Hh|]. intros e c' He Hec _ _ Hpe. apply wp_bind. eapply wp_info_of; [exact Hpe|].
  apply wp_bind. eapply wp_work_idle; [exact Hwt|apply idle_when; intros _; apply idle_info_ctl|]. intros [] t1 Hw1.
  apply wp_bind. apply wp_when; [intros E|intros _; by apply wp_ret].
  apply andb_true_iff in E as [E Ec]. apply andb_true_iff in E as [E _].
  assert (rank c' < rank c)%nat as Hr by (eapply (st_links _ _ _ _ _ _ _ sys); [exact Hx|exact E|exact Hec|by right]).
  apply wp_bind. eapply wp_mono; [eapply (bl_get _ _ _ Hb); [apply Hw1|exact Hec|exact Hr|eapply above_mono; [exact Ha|lia]]|]. intros q t2 Hg.
  apply wp_when; [intros _|intros Eq].
  - apply wp_bind. eapply wp_mono; [eapply work_slot; [exact Hw1|exact Ht|exact Ha|exact Hg]|]. intros [] t3 Hw3.
    eapply wp_work_idle; [exact Hw3|apply idle_ref_ctl|]. intros [] t4 Hw4. by apply wp_ret.
  - apply wp_ret. apply negb_false_iff, Z.eqb_eq in Eq. subst q. destruct Hg as [[[_ Hi2]|[Hne _]] Hf2]; [|done]. destruct Hw1 as (Hi1 & Hf1 & Hp1). split; [done|].
    split; [eapply (frame_trans rank O U (R ++ F) (R ++ F)); [done|apply Nat.le_refl|exact Hf1|exact Hf2]|]. eapply (target_kept F R St (rank c) t1 t2); eassumption.
Qed.
Lemma wp_scan F R St s0 s p c ex : below by_handle release (rank c) -> at_work F R St p c s0 s -> target (R ++ F) p c -> above F R (rank c) St ->
  wp (scan_base_array cls by_handle p ex) s (fun _ s' => at_work F R St p c s0 s').
Proof.
  intros Hb Hw Ht Ha. unfold scan_base_array. eapply (wp_enum _ _ _ _ _ _ _ _ sys (at_work F R St p c s0) F R St); [by intros t []| |exact Hw].
  intros h t Hh Hwt. apply wp_when; [intros _|done]. apply wp_bind. eapply wp_mono; [eapply wp_lm_post_init; [exact Hb|exact Hwt|exact Ht|exact Ha|exact Hh]|].
  intros lmr t1 Hw1. apply wp_when; [intros _|done]. eapply wp_work_idle; [exact Hw1| |intros [] t2 Hw2; exact Hw2].
  eapply idle_update_users; [exact sys|apply Hw1|apply Hw1|]. intros i. by eapply above_slot.
Qed.
Lemma wp_task_maker F R St s0 s p c : below by_handle release (rank c) -> at_work F R St p c s0 s -> target (R ++ F) p c -> above F R (rank c) St ->
  has (oflags (info c)) RF_TASK = true -> wp (get_task_maker by_handle) s (fun _ s' => at_work F R St p c s0 s').
Proof.
  intros Hb Hw Ht Ha Htask. unfold get_task_maker. apply wp_bind, wp_gets. apply wp_bind. apply wp_when; [intros _|intros _; by apply wp_gets].
  apply wp_bind. destruct Hw as (Hi & Hf & Hp). eapply wp_mono; [eapply (wp_request (rank c)); [exact Hb|exact Hi|exact Ha|]|].
  - intros h c' Hl He. by eapply (st_task _ _ _ _ _ _ _ sys).
  - intros t s1 [Hg Hf1]. apply wp_modify. apply wp_gets. split; [|split].
    + apply inv_tasks. destruct Hg as [[-> Hi1]|(Hnz & _ & Hi1)]; [done|]. by destruct (Z.eqb_spec t 0).
    + apply (frame_trans rank O U (R ++ F) (R ++ F) (rank c) (rank c) s0 s); [done|done|done|]. by destruct Hf1.
    + cbn. eapply (target_kept F R St (rank c) s s1); [exact Ht|exact Hp| |exact Hf1]. destruct Hg as [[_ Hi1]|(_ & _ & Hi1)]; [done|by eapply inv_drop].
Qed.
End callbacks.
End below.
