(* ===== verification/RepoProof.v ===== *)
(** * Repository: requests and releases (core/repository-2/repository.cpp)

    In an acyclic system every request and every release returns and keeps the
    invariant of RepoInv.v: by induction on the fuel, of which twice the rank of
    the class and a constant is enough. *)
From S2P Require Import Prelude Memory Str Repo LinkMap Repository RepoInv RepoSteps RepoLoops RepoBelow.
Set Default Goal Selector "!".

Lemma has_lor x y f : has x f = true -> has (Z.lor x y) f = true.
Proof. unfold has. rw !negb_true_iff !Z.eqb_neq Z.land_lor_distr_l Z.lor_eq_0_iff. tauto. Qed.
Lemma has_set x f : f <> 0 -> has (Z.lor x f) f = true.
Proof. intros Hf. unfold has. rw negb_true_iff Z.eqb_neq Z.land_lor_distr_l Z.lor_eq_0_iff Z.land_diag. tauto. Qed.

Section proof.
Context {A : Type} `{AllocatorLaws A} {EO : ExtOrder}.
Context (cls : Z -> class) (rank : Z -> nat) (B : gmap base_key Z) (PB O : gmap Z Z) (CA : list Z) (EX : list extension) (U : gset Z).
Context (sys : acyclic cls rank B PB O CA EX).
Implicit Types s : repo A.
Abbreviation inv := (inv cls rank B PB O CA EX U).
Abbreviation same := (same U).
Abbreviation idle := (idle U).
Abbreviation info := (info cls).
Abbreviation frame := (frame rank O U).
Abbreviation entry_class := (entry_class PB O).
Abbreviation above := (above rank O U).
Abbreviation below := (below cls rank B PB O CA EX U).
Abbreviation target := (target cls O).
Abbreviation at_work := (at_work cls rank B PB O CA EX U).
Abbreviation got := (got cls rank B PB O CA EX U).

Lemma wp_object_ctl by_handle release l F R St s0 s p c : below by_handle release (rank c) -> at_work F R St p c s0 s -> target (R ++ F) p c -> above F R (rank c) St ->
  (forall x, x ∈ l -> x ∈ on_init (cls c) ++ on_uninit (cls c)) -> wp (object_ctl by_handle release p l) s (fun _ s' => at_work F R St p c s0 s').
Proof.
  intros Hb Hw Ht Ha. revert s Hw. induction l as [|[by_cname n fl m|m] l IH]; intros s Hw Hl; [by apply wp_ret| |]; cbn [object_ctl].
  - assert (on_init (cls c) ++ on_uninit (cls c) <> []) as Hne by (intros E; specialize (Hl _ (list_elem_of_here _ _)); rw E in Hl; by apply not_elem_of_nil in Hl).
    apply wp_bind. destruct Hw as (Hi & Hf & Hp). eapply wp_mono with (Q := got F R St (rank c) s).
    + destruct by_cname; (eapply wp_request; [exact sys|exact Hb|exact Hi|exact Ha|]).
      all: intros h c' Hh He; by eapply (st_calls _ _ _ _ _ _ _ sys c _ n fl m h c' (Hl _ (list_elem_of_here _ _))).
    + intros r s1 [Hg Hf1]. unfold set_member. apply wp_bind, wp_modify.
      assert (inv F R St s1) as Hi1 by (destruct Hg as [[_ Hi1]|(_ & _ & Hi1)]; [done|by eapply inv_drop]).
      assert (objs s1 !! p = Some c) as Hp1 by (eapply (target_kept cls rank B PB O CA EX U F R St (rank c) s s1); eassumption).
      assert (at_work F R St p c s0 (set_members (if r =? 0 then delete (p, m) (members s1) else <[(p, m):=r]> (members s1)) s1)) as Hw1.
      { split; [|split].
        - destruct Hg as [[-> Hi2]|(Hnz & (c' & Hc' & Hr) & Hi2)]; [by apply inv_member_clear|]. destruct (Z.eqb_spec r 0); [done|].
          eapply inv_member_set; [exact Hi2|exact Hp1|exact Hc'|exact Hr|]. intros Hs. by eapply (target_members _ _ _ _ _ _ _ sys).
        - apply (frame_trans rank O U (R ++ F) (R ++ F) (rank c) (rank c) s0 s); [done|done|done|]. by destruct Hf1.
        - done. }
      destruct (negb (r =? 0)); [|by apply wp_ret]. apply IH; [exact Hw1|]. intros x Hx. apply Hl. by right.
  - apply wp_bind, wp_gets. unfold set_member. cbn [Z.eqb]. apply wp_bind, wp_modify, wp_bind. destruct Hw as (Hi & Hf & Hp).
    assert (forall x, x ∈ l -> x ∈ on_init (cls c) ++ on_uninit (cls c)) as Hl' by (intros x Hx; apply Hl; by right).
    destruct (members s !! (p, m)) as [v|] eqn:Ev; cbn [from_option id].
    + destruct (i_members _ _ _ _ _ _ _ _ _ (proj1 Hi) p m v Ev) as (d & c' & Hd & Hc' & Hr & _). assert (d = c) as -> by congruence.
      eapply wp_mono; [eapply (bl_release _ _ _ _ _ _ _ _ _ _ _ Hb F R St); [by apply inv_member_take|exact Hc'|exact Hr|eapply above_mono; [exact Ha|lia]]|].
      intros [] s1 [Hi1 Hf1]. apply IH; [|done]. split; [exact Hi1|]. split.
      * eapply (frame_trans rank O U (R ++ F) (R ++ F) (rank c) (rank c) s0 s); [done|done|done|]. by destruct Hf1.
      * eapply (target_kept cls rank B PB O CA EX U F R St (rank c) s s1); [exact Ht|exact Hp|exact Hi1|]. by destruct Hf1.
    + assert (at_work F R St p c s0 (set_members (delete (p, m) (members s)) s)) as Hw1 by (split; [by apply inv_member_clear|]; by destruct Hf).
      eapply wp_mono; [apply (bl_none _ _ _ _ _ _ _ _ _ _ _ Hb)|]. intros [] s1 Hs1. apply IH; [|done]. by eapply work_same.
Qed.

(** ** The four functions, at a fuel *)
Definition get_spec (f : nat) : Prop := forall F R St s h c flags, inv F R St s -> entry_class h c -> above F R (rank c) St -> (2 * rank c + 3 <= f)%nat ->
  wp (object_by_handle cls f (Some h) flags) s (fun v s' =>
    (v = 0 /\ inv F R St s' \/ v <> 0 /\ objs s' !! v = Some c /\ owner cls B s' v = Some h /\ inv (v :: F) R St s') /\ frame (R ++ F) (rank c) s s').
Definition release_spec (f : nat) : Prop := forall F R St s v c, inv (v :: F) R St s -> objs s !! v = Some c -> above F R (rank c) St -> (2 * rank c + 3 <= f)%nat ->
  wp (object_release cls f v) s (fun _ s' => inv F R St s' /\ frame (R ++ F) (rank c) s s').
Definition init_spec (f : nat) : Prop := forall F R St s p c, inv F R St s -> objs s !! p = Some c -> target (R ++ F) p c -> p ∉ U -> above F R (rank c) St -> (2 * rank c + 2 <= f)%nat ->
  wp (init_object cls f p) s (fun ok s' => at_work F R St p c s s' /\ (ok = true -> ready s' p)).
Definition uninit_spec (f : nat) : Prop := forall F R St s p c, inv F R St s -> objs s !! p = Some c -> target (R ++ F) p c -> p ∈ U -> above F R (rank c) St -> (2 * rank c + 2 <= f)%nat ->
  wp (uninit_object cls f p) s (fun _ s' => at_work F R St p c s s').

Lemma below_at f r : get_spec f -> release_spec f -> (2 * r + 1 <= f)%nat -> below (object_by_handle cls f) (object_release cls f) r.
Proof.
  intros Hg Hr Hf. split.
  - intros F R St s h c flags Hi He Hc Ha. eapply wp_mono; [apply Hg; [exact Hi|exact He|exact Ha|lia]|]. intros v s' [Hv Hfr]. split.
    + destruct Hv as [Hv|(Hnz & Hv & _ & Hi')]; [by left|right]. split; [done|]. split; [by exists c|done].
    + eapply frame_mono; [|apply Nat.lt_le_incl, Hc|exact Hfr]. done.
  - intros F R St s v c Hi Hv Hc Ha. eapply wp_mono; [eapply Hr; [exact Hi|exact Hv|exact Ha|lia]|]. intros [] s' [Hi' Hfr]. split; [done|].
    eapply frame_mono; [|apply Nat.lt_le_incl, Hc|exact Hfr]. done.
  - intros s. destruct f; [lia|]. apply idle_ret.
Qed.
Lemma work_start F R St p c s : inv F R St s -> objs s !! p = Some c -> at_work F R St p c s s.
Proof. done. Qed.
Lemma wp_work_state {X} F R St p c s0 s (f : Z -> M (repo A) X) (Q : X -> repo A -> Prop) : at_work F R St p c s0 s ->
  (forall st, (has st ST_INITIALIZED = true -> ready s p) -> wp (f st) s Q) -> wp (st ← get_context_state p; f st) s Q.
Proof. intros (Hi & _ & Hp) HQ. apply wp_bind. by eapply (wp_get_cstate cls rank B PB O CA EX U sys F R St). Qed.
Lemma wp_work_set F R St p c s0 s st (Q : unit -> repo A -> Prop) : at_work F R St p c s0 s -> (p ∈ U \/ has st ST_INITIALIZED = true) ->
  (forall s', at_work F R St p c s0 s' -> (has st ST_INITIALIZED = true -> ready s' p) -> Q tt s') -> wp (set_context_state p st) s Q.
Proof.
  intros Hw Hu HQ. pose proof Hw as (Hi & _ & Hp). eapply (wp_set_state cls rank B PB O CA EX U sys F R St); [exact Hi|exact Hp|exact Hu|].
  intros s' Hs Hr. apply HQ; [by eapply work_same|exact Hr].
Qed.
Lemma wp_ready_idle {X} F R St p c s0 s (m : M (repo A) X) (Q : X -> repo A -> Prop) : at_work F R St p c s0 s -> p ∉ U -> ready s p -> idle m s ->
  (forall x s', at_work F R St p c s0 s' -> ready s' p -> Q x s') -> wp m s Q.
Proof. intros Hw Hu Hr Hm HQ. eapply wp_mono; [exact Hm|]. intros x s' Hs. apply HQ; [by eapply work_same|by apply (sm_ready _ _ _ Hs)]. Qed.
Lemma work_trans F R St p c s0 s s' : at_work F R St p c s0 s -> at_work F R St p c s s' -> at_work F R St p c s0 s'.
Proof. intros (_ & Hf & _) (Hi & Hf' & Hp). split; [done|]. split; [|done]. eapply (frame_trans rank O U (R ++ F) (R ++ F)); [done|apply Nat.le_refl|exact Hf|exact Hf']. Qed.
Lemma work_ready F R St p c s s' : at_work F R St p c s s' -> target (R ++ F) p c -> p ∉ U -> ready s p -> ready s' p.
Proof. intros (_ & Hf & _) Ht Hu Hr. apply (fr_ready _ _ _ _ _ _ _ Hf); [|done|done]. destruct Ht as [[_ Hin]|[Ho _]]; [by left|right; by eexists]. Qed.

Lemma init_step f : get_spec f -> release_spec f -> init_spec (S f).
Proof.
  intros Hg Hr F R St s p c Hi Hp Ht Hu Ha Hf. assert (below (object_by_handle cls f) (object_release cls f) (rank c)) as Hb by (apply below_at; [done|done|lia]).
  assert (forall t, at_work F R St p c s t -> wp (mret false) t (fun ok s' => at_work F R St p c s s' /\ (ok = true -> ready s' p))) as Hno by (intros t Hw; by apply wp_ret).
  cbn [init_object]. eapply wp_work_state; [by apply work_start|]. intros st Hst. destruct (has st ST_INITIALIZED); [by apply wp_ret; split; [|intros _; apply Hst]|].
  apply wp_bind. eapply wp_mono; [eapply wp_lm_clean; [exact Hi|exact Hp|exact Ht|exact Ha]|]. intros [] s1 Hw1.
  apply wp_bind. eapply wp_mono; [eapply wp_lm_init; [exact sys|exact Hb|exact Hw1|exact Ht|exact Ha]|]. intros lmr s2 Hw2.
  destruct (has lmr PLMR_READY); [|by apply Hno]. apply wp_bind. eapply wp_class_of; [apply Hw2|].
  apply wp_bind. eapply wp_work_idle; [exact Hw2|apply idle_log|]. intros [] s3 Hw3.
  apply wp_bind. eapply wp_mono; [eapply wp_object_ctl; [exact Hb|exact Hw3|exact Ht|exact Ha|intros x Hx; by apply elem_of_app; left]|]. intros r s4 Hw4.
  destruct r; [|by apply Hno]. apply wp_bind. eapply wp_work_idle; [exact Hw4|apply idle_when; intros _; apply idle_pending|]. intros [] s5 Hw5.
  assert (has (if has lmr PLMR_KEEP_PENDING then Z.lor (Z.lor st ST_INITIALIZED) ST_PENDING else Z.lor st ST_INITIALIZED) ST_INITIALIZED = true) as Hset
    by (destruct (has lmr PLMR_KEEP_PENDING); [apply has_lor|]; apply has_set; done).
  apply wp_bind. eapply wp_work_set; [exact Hw5|by right|]. intros s6 Hw6 Hr6. specialize (Hr6 Hset).
  apply wp_bind. eapply wp_ready_idle; [exact Hw6|exact Hu|exact Hr6|eapply idle_update_users; [exact sys|apply Hw6|apply Hw6|intros i; by eapply above_slot]|]. intros [] s7 Hw7 Hr7.
  apply wp_bind. apply wp_when; [intros E|intros _; by apply wp_ret]. apply wp_bind.
  eapply wp_mono; [eapply (wp_task_maker _ _ _ _ _ _ _ _ sys _ _ F R St s7 s7); [exact Hb|apply work_start; apply Hw7|exact Ht|exact Ha|exact E]|]. intros t s8 Hw8.
  eapply wp_ready_idle; [exact (work_trans _ _ _ _ _ _ _ _ Hw7 Hw8)|exact Hu|eapply work_ready; [exact Hw8|exact Ht|exact Hu|exact Hr7]|apply idle_when; intros _; apply idle_log|]. intros [] s9 Hw9 Hr9. by apply wp_ret.
Qed.
Lemma uninit_step f : get_spec f -> release_spec f -> uninit_spec (S f).
Proof.
  intros Hg Hr F R St s p c Hi Hp Ht Hu Ha Hf. assert (below (object_by_handle cls f) (object_release cls f) (rank c)) as Hb by (apply below_at; [done|done|lia]).
  cbn [uninit_object]. eapply wp_work_state; [by apply work_start|]. intros st _. destruct (has st ST_INITIALIZED); [|by apply wp_ret].
  apply wp_bind. eapply wp_class_of; [exact Hp|].
  assert (wp (when (has (oflags (c_info (cls c))) RF_TASK) (t ← get_task_maker (object_by_handle cls f); when (negb (t =? 0)) (log (EStop p)))) s
    (fun _ s' => at_work F R St p c s s')) as Htask.
  { apply wp_when; [intros E|done]. apply wp_bind. eapply wp_mono; [eapply wp_task_maker; [exact sys|exact Hb|by apply work_start|exact Ht|exact Ha|exact E]|].
    intros t s1 Hw1. eapply wp_work_idle; [exact Hw1|apply idle_when; intros _; apply idle_log|]. by intros []. }
  apply wp_bind. eapply wp_mono; [exact Htask|]. intros [] s1 Hw1. clear Htask.
  apply wp_bind. eapply wp_mono; [eapply wp_lm_pre_uninit; [exact sys|exact Hb|exact Hw1|exact Ht|exact Ha]|]. intros ? s2 Hw2.
  apply wp_bind. eapply wp_work_idle; [exact Hw2|apply idle_log|]. intros [] s3 Hw3.
  apply wp_bind. eapply wp_mono; [eapply wp_object_ctl; [exact Hb|exact Hw3|exact Ht|exact Ha|intros x Hx; by apply elem_of_app; right]|]. intros r s4 Hw4.
  destruct r; [|by apply wp_ret].
  apply wp_bind. eapply wp_mono; [eapply wp_lm_uninit; [exact Hb|exact Hw4|exact Ht|exact Ha]|]. intros ? s5 Hw5.
  apply wp_bind. eapply wp_work_idle; [exact Hw5|apply idle_pending|]. intros [] s6 Hw6.
  eapply wp_work_state; [exact Hw6|]. intros st2 _. apply wp_bind. eapply wp_work_set; [exact Hw6|by left|]. intros s7 Hw7 _. by apply wp_ret.
Qed.
End proof.

Section requests.
Context {A : Type} `{AllocatorLaws A} {EO : ExtOrder}.
Context (cls : Z -> class) (rank : Z -> nat) (B : gmap base_key Z) (PB O : gmap Z Z) (CA : list Z) (EX : list extension).
Context (sys : acyclic cls rank B PB O CA EX).
Implicit Types s : repo A.
Abbreviation info := (info cls).
Abbreviation inv := (inv cls rank B PB O CA EX).

(** A clone is held once. *)
Lemma once_unheld U F R St s p : inv U F (p :: R) St s -> O !! p = None -> p ∉ R ++ held F St s.
Proof.
  intros [_ Ho] Hn Hin. pose proof (o_once _ _ _ _ _ _ _ Ho) as Hd. cbn [app] in Hd. rw filter_cons_True in Hd; [|done].
  apply NoDup_cons in Hd as [Hd _]. apply Hd. by apply list_elem_of_filter.
Qed.
Lemma once_released U F R St s p : inv U (p :: F) R St s -> O !! p = None -> p ∉ R ++ held F St s.
Proof.
  intros [Hc Ho] Hn Hin. pose proof (o_once _ _ _ _ _ _ _ Ho) as Hd. unfold held in Hd, Hin. cbn [app] in Hd. rw -Permutation_middle filter_cons_True in Hd; [|done].
  apply NoDup_cons in Hd as [Hd _]. apply Hd. by apply list_elem_of_filter.
Qed.
Lemma owner_class s s' p c : objs s !! p = Some c -> objs s' !! p = Some c -> owner cls B s' p = owner cls B s p.
Proof. intros H1 H2. unfold owner. by rw H1 H2. Qed.
Lemma owner_entry s p h : owner cls B s p = Some h -> is_Some (PB !! h).
Proof.
  unfold owner. destruct (B !! key_pointer p) as [k|] eqn:E; [intros [= ->]; by eapply (st_base _ _ _ _ _ _ _ sys)|].
  destruct (objs s !! p) as [c|]; [|done]. cbn. intros E2. by eapply (st_base _ _ _ _ _ _ _ sys).
Qed.
Lemma held_own U F R St s p : inv U F R St s -> p ∈ R ++ F -> is_Some (objs s !! p).
Proof. intros Hi Hp. eapply held_valid; [exact Hi|]. unfold held. rw app_assoc. by apply elem_of_app; left. Qed.
Lemma unheld_own F R St s p q : p ∉ R ++ held F St s -> q ∈ R ++ F -> q <> p.
Proof. intros Hn Hq ->. apply Hn. unfold held. rw app_assoc. by apply elem_of_app; left. Qed.
(** The clone goes away: what is left is as it was without it. *)
Lemma gone_frame U F R St s s' p c r : inv ({[p]} ∪ U) F R St s' -> O !! p = None -> p ∉ R ++ held F St s -> slots s' = slots s ->
  (forall q, q <> p -> objs s' !! q = objs s !! q) -> (forall q, q <> p -> ready s q -> ready s' q) -> objs s' !! p = None -> objs s !! p = Some c ->
  inv U F R St s' /\ frame rank O U (R ++ F) r s s'.
Proof.
  intros Hi Ho Hn Es Eo Er Ep Hp. split.
  - eapply inv_unexempt; [exact Hi|]. intros Hin. destruct (held_valid cls rank B PB O CA EX _ F R St s' p Hi) as [d Hd]; [by apply elem_of_app; right|congruence].
  - split; [intros; by rw Es|intros q Hq; apply Eo; by eapply unheld_own|]. intros v [Hv|Hv] _; apply Er; [by eapply unheld_own|]. intros ->. rw Ho in Hv. by destruct Hv.
Qed.
Lemma wp_remove_clone U F R St s p c (Q : bool -> repo A -> Prop) : inv ({[p]} ∪ U) F R St s -> objs s !! p = Some c -> O !! p = None -> p ∉ R ++ held F St s ->
  (forall s', inv U F R St s' -> frame rank O U (R ++ F) (rank c) s s' -> Q true s') -> wp (dcs_remove_context cls p) s Q.
Proof.
  intros Hi Hp Ho Hn HQ. edestruct (inv_remove cls rank B PB O CA EX ({[p]} ∪ U) F R St s p c) as (s' & E & Hi' & Hob & Hsl & Hre & Hno); [exact Hi|exact Hp|exact Ho|exact Hn|].
  eapply wp_intro; [exact E|]. edestruct (gone_frame U F R St s s' p c (rank c)) as [Hi2 Hf]; [exact Hi'|exact Ho|exact Hn|exact Hsl|exact Hob|exact Hre|exact Hno|exact Hp|]. by apply HQ.
Qed.
(** The count of an entry, dropped. *)
Definition dropped (e : base_entry) : base_entry := mkBase (pi_base e) (ref_cnt e - 1) (bstate e).
Lemma drop_ref_run h e s : entries s !! h = Some e -> drop_ref h s = Some (tt, if ref_cnt e =? 0 then s else set_entries (<[h := dropped e]> (entries s)) s).
Proof.
  intros He. unfold drop_ref, entry, gets, mbind, M_bind, lift_opt. rw He. cbn [fmap option_fmap option_map]. by destruct (Z.eqb_spec (ref_cnt e) 0).
Qed.
(** The clone goes away and its entry counts one less: the other order is the same. *)
Lemma wp_release_clone U F R St s p c h (Q : unit -> repo A -> Prop) : inv ({[p]} ∪ U) (p :: F) R St s -> objs s !! p = Some c -> O !! p = None -> owner cls B s p = Some h ->
  (forall s', inv U F R St s' -> frame rank O U (R ++ F) (rank c) s s' -> Q tt s') -> wp (dcs_remove_context cls p) s (fun _ s' => wp (drop_ref h) s' Q).
Proof.
  intros Hi Hp Ho Hw HQ. pose proof (once_released _ _ _ _ _ _ Hi Ho) as Hn.
  assert (wp (entry h) s (fun e s' => s' = s /\ entries s !! h = Some e)) as (e & _ & _ & -> & He)%wp_run
    by (eapply (wp_entry _ _ _ _ _ _ _ _ (p :: F) R St); [exact Hi|by eapply owner_entry|done]).
  assert (wp (drop_ref h) s (fun _ s1 => inv ({[p]} ∪ U) F R St s1 /\ steady s s1)) as Hd
    by (eapply (wp_drop_ref _ _ _ _ _ _ _ _ F R St s h p); [exact Hi|exact Hw|by eapply owner_entry|done]).
  unfold wp in Hd. rw (drop_ref_run h e s He) in Hd. set (s1 := if ref_cnt e =? 0 then s else set_entries (<[h := dropped e]> (entries s)) s) in Hd. destruct Hd as [Hi1 Hst].
  assert (objs s1 = objs s /\ slots s1 = slots s /\ clones s1 = clones s /\ held F St s1 = held F St s) as (Eo & Es & Ec & Eh) by (subst s1; by destruct (ref_cnt e =? 0)).
  edestruct (inv_remove cls rank B PB O CA EX ({[p]} ∪ U) F R St s1 p c) as (s2 & E2 & Hi2 & Hob & Hsl & Hre & Hno); [exact Hi1|by rw Eo|exact Ho|by rw Eh|].
  edestruct (gone_frame U F R St s s2 p c (rank c)) as [Hi3 Hf]; [exact Hi2|exact Ho|exact Hn|by rw Hsl|intros q Hq; by rw Hob // Eo|intros q Hq Hr; by apply Hre, Hst|exact Hno|exact Hp|].
  specialize (HQ s2 Hi3 Hf). unfold dcs_remove_context in *. rw Ec Eo Hp in E2. destruct (clones s !! p) as [st|] eqn:Ecl; [|done]. injection E2 as <-.
  unfold wp at 1. rw Ecl Hp. unfold wp. erewrite (drop_ref_run h e); [|exact He]. subst s1. by destruct (ref_cnt e =? 0).
Qed.
Lemma inv_orig U F R St s p c : inv U F R St s -> O !! p = Some c -> inv U F (p :: R) St s.
Proof.
  intros Hi Hp. pose proof (orig_valid _ _ _ _ _ _ _ _ _ _ _ _ _ _ Hi Hp) as Hv. destruct Hi as [Hc [Hval Hre Hd Hcn]]. split; [done|]. split; [|done|by rw filter_cons_False; [|rw Hp]|done].
  constructor; [by eexists|exact Hval].
Qed.
Lemma frame_fresh U F R St s s1 p c : inv U F R St s -> objs s !! p = None -> objs s1 = <[p := c]> (objs s) -> slots s1 = slots s -> steady s s1 ->
  frame rank O U (R ++ F) (rank c) s s1.
Proof.
  intros Hi Hp Eo Es Hst. apply frame_steady; [done| |done]. intros q Hq. rw Eo lookup_insert_ne; [done|]. intros <-. destruct (held_own _ _ _ _ _ _ Hi Hq) as [? ?]. congruence.
Qed.

Abbreviation get_spec := (get_spec cls rank B PB O CA EX).
Abbreviation release_spec := (release_spec cls rank B PB O CA EX).
Abbreviation init_spec := (init_spec cls rank B PB O CA EX).
Abbreviation uninit_spec := (uninit_spec cls rank B PB O CA EX).
Abbreviation above := (above rank O).

(** One more object is being released. *)
Lemma above_exempt U F R F' R' r St p : above U F R r St -> (forall v, v ∈ R ++ F -> v ∈ R' ++ F') -> p ∈ R' ++ F' -> O !! p = None -> above ({[p]} ∪ U) F' R' r St.
Proof.
  intros [Ha Hu] Hsub Hp Ho. split; [exact Ha|]. intros v [->%elem_of_singleton|Hv]%elem_of_union; [done|]. destruct (Hu v Hv) as [Hin Hn]. split; [by apply Hsub|done].
Qed.
Lemma above_more U F R F' R' r St : above U F R r St -> (forall v, v ∈ R ++ F -> v ∈ R' ++ F') -> above U F' R' r St.
Proof. intros [Ha Hu] Hsub. split; [exact Ha|]. intros v Hv. destruct (Hu v Hv) as [Hin Hn]. split; [by apply Hsub|done]. Qed.
Lemma frame_exempt U G r s s' p : frame rank O ({[p]} ∪ U) G r s s' -> p ∉ G -> O !! p = None -> frame rank O U G r s s'.
Proof.
  intros [H1 H2 H3] Hp Ho. split; [done|done|]. intros v Hv Hu. apply H3; [done|]. intros [->%elem_of_singleton|Hin]%elem_of_union; [|done].
  destruct Hv as [Hv|Hv]; [done|rw Ho in Hv; by destruct Hv].
Qed.
(** An object that could not be initialised, or is released, is uninitialised. *)
Lemma wp_uninit U f F R St s p c G : uninit_spec ({[p]} ∪ U) f -> inv U F R St s -> objs s !! p = Some c -> O !! p = None -> p ∈ R ++ F -> p ∉ G ->
  (forall v, v ∈ G -> v ∈ R ++ F) -> above U F R (rank c) St -> (2 * rank c + 2 <= f)%nat ->
  wp (uninit_object cls f p) s (fun _ s' => inv ({[p]} ∪ U) F R St s' /\ frame rank O U G (rank c) s s' /\ objs s' !! p = Some c).
Proof.
  intros Hun Hi Hp Ho Hin Hg HG Ha Hf. eapply wp_mono.
  - eapply (Hun F R St s p c); [by apply inv_exempt|exact Hp|by left|by apply elem_of_union_l, elem_of_singleton|by eapply above_exempt|exact Hf].
  - intros u s' (Hi' & Hf' & Hp'). split; [done|]. split; [|done]. eapply (frame_exempt U G _ s s' p); [|exact Hg|exact Ho]. by eapply frame_mono; [|apply Nat.le_refl|].
Qed.

Section get.
Context (U : gset Z) (f : nat).
Definition got_one F R St (c h : Z) s (v : Z) s' : Prop :=
  (v = 0 /\ inv U F R St s' \/ v <> 0 /\ objs s' !! v = Some c /\ owner cls B s' v = Some h /\ inv U (v :: F) R St s') /\ frame rank O U (R ++ F) (rank c) s s'.

(** The clone is initialised and handed out, or it is gone again. *)
Lemma wp_get_clone F R St s s1 h c p : get_spec U f -> release_spec U f -> init_spec U f -> uninit_spec ({[p]} ∪ U) f ->
  inv U F R St s -> above U F R (rank c) St -> (2 * rank c + 2 <= f)%nat -> is_Some (PB !! h) ->
  p <> 0 -> inv U F (p :: R) St s1 -> objs s !! p = None -> objs s1 = <[p := c]> (objs s) -> slots s1 = slots s -> owner cls B s1 p = Some h -> O !! p = None -> steady s s1 ->
  wp (ok ← init_object cls f p;
      if ok : bool then add_ref h;; st ← dcs_get_context_state p; when (has st ST_PENDING) (scan_base_array cls (object_by_handle cls f) p []);; mret p
      else _ ← uninit_object cls f p; _ ← dcs_remove_context cls p; mret 0) s1 (got_one F R St c h s).
Proof.
  intros Hg Hr Hin Hun Hi Ha Hf Hh Hnz Hi1 Hfresh Eo1 Es1 Hw1 HO Hst1.
  assert (below cls rank B PB O CA EX U (object_by_handle cls f) (object_release cls f) (rank c)) as Hb by (apply below_at; [done|done|lia]).
  assert (frame rank O U (R ++ F) (rank c) s s1) as Hf1 by by eapply frame_fresh. assert (objs s1 !! p = Some c) as Hp1 by (rw Eo1; by rw lookup_insert_eq).
  assert (forall v, v ∈ R ++ F -> v <> p) as Hne by (intros v Hv ->; destruct (held_own _ _ _ _ _ _ Hi Hv); congruence).
  assert (p ∉ U) as Hu by (intros Hu; destruct (ab_released _ _ _ _ _ _ _ Ha p Hu) as [Hp _]; by apply (Hne p Hp)).
  apply wp_bind. eapply wp_mono; [eapply Hin; [exact Hi1|exact Hp1|left; split; [done|left]|exact Hu|eapply above_more; [exact Ha|by right]|exact Hf]|].
  intros ok s2 ((Hi2 & Hf2 & Hp2) & Hready). assert (frame rank O U (R ++ F) (rank c) s s2) as Hf02.
  { eapply (frame_trans rank O U (R ++ F) ((p :: R) ++ F)); [by apply list_subseteq_cons|apply Nat.le_refl|exact Hf1|exact Hf2]. }
  destruct ok.
  - apply wp_bind. eapply (wp_add_ref cls rank B PB O CA EX U F R St s2 h p); [exact Hi2|done|rw -Hw1; by eapply owner_class|by apply Hready|]. intros s3 Hi3 Eo3 Es3 Hst3.
    assert (at_work cls rank B PB O CA EX U (p :: F) R St p c s2 s3) as Hw3 by (split; [done|]; split; [apply frame_steady; [done|intros; by rw Eo3|done]|by rw Eo3]).
    assert (forall t, at_work cls rank B PB O CA EX U (p :: F) R St p c s2 t -> wp (mret p) t (got_one F R St c h s)) as Hend.
    { intros t (Hit & Hft & Hpt). apply wp_ret. split; [right; split; [done|]; split; [done|]; split; [rw -Hw1; by eapply owner_class|done]|].
      eapply (frame_trans rank O U (R ++ F) (R ++ p :: F)); [|apply Nat.le_refl|exact Hf02|exact Hft]. intros q Hq. apply elem_of_app in Hq as [Hq|Hq]; apply elem_of_app; [by left|right; by right]. }
    apply wp_bind. unfold dcs_get_context_state. apply wp_bind, wp_gets.
    destruct (proj2 (i_clones _ _ _ _ _ _ _ _ _ (proj1 Hi3) p) (conj (ex_intro _ c (proj2 (proj2 Hw3))) HO)) as [st Hst]. eapply wp_lift_opt; [exact Hst|].
    apply wp_bind. apply wp_when; [intros _|intros _; by apply Hend]. eapply wp_mono; [eapply wp_scan; [exact sys|exact Hb|exact Hw3| |]|intros [] t Ht'; by apply Hend].
    + left. split; [done|]. apply elem_of_app. right. left.
    + eapply above_more; [exact Ha|]. intros v Hv. apply elem_of_app in Hv as [Hv|Hv]; apply elem_of_app; [by left|right; by right].
  - apply wp_bind. eapply wp_mono; [eapply (wp_uninit U f F (p :: R) St s2 p c (R ++ F)); [exact Hun|exact Hi2|exact Hp2|exact HO|left|intros Hin2; by apply (Hne p Hin2)|by right|eapply above_more; [exact Ha|by right]|exact Hf]|].
    intros u s3 (Hi3 & Hf3 & Hp3). apply wp_bind. eapply wp_remove_clone; [by eapply inv_drop_r|exact Hp3|exact HO|by eapply once_unheld|]. intros s4 Hi4 Hf4.
    apply wp_ret. split; [by left|]. eapply (frame_trans rank O U (R ++ F) (R ++ F)); [done|apply Nat.le_refl| |exact Hf4].
    eapply (frame_trans rank O U (R ++ F) (R ++ F)); [done|apply Nat.le_refl|exact Hf02|exact Hf3].
Qed.

(** An original is initialised, unless it is already. *)
Lemma wp_get_original F R St s h c p : init_spec U f -> inv U F R St s -> above U F R (rank c) St -> (2 * rank c + 2 <= f)%nat ->
  PB !! h = Some p -> O !! p = Some c -> has (oflags (info c)) RF_ORIGINAL = true ->
  wp (ok ← init_object cls f p; if ok : bool then add_ref h;; mret p else mret 0) s (got_one F R St c h s).
Proof.
  intros Hin Hi Ha Hf Hh Hc Ho. pose proof (orig_valid _ _ _ _ _ _ _ _ _ _ _ _ _ _ Hi Hc) as Hobj. destruct (st_entry _ _ _ _ _ _ _ sys h p Hh) as [Hnz _].
  assert (p ∉ U) as Hu by (intros Hu; destruct (ab_released _ _ _ _ _ _ _ Ha p Hu) as [_ Hn]; congruence).
  apply wp_bind. eapply wp_mono; [eapply Hin; [exact Hi|exact Hobj|by right|exact Hu|exact Ha|exact Hf]|]. intros ok s2 ((Hi2 & Hf2 & Hp2) & Hready).
  destruct ok; [|apply wp_ret; split; [by left|exact Hf2]].
  assert (owner cls B s2 p = Some h) as Hw by (unfold owner; by rw (proj1 (st_ptr _ _ _ _ _ _ _ sys h p Hnz) Hh)).
  apply wp_bind. eapply (wp_add_ref cls rank B PB O CA EX U F R St s2 h p); [by eapply inv_orig|by eexists|exact Hw|by apply Hready|]. intros s3 Hi3 Eo3 Es3 Hst3.
  apply wp_ret. split; [right; split; [done|]; split; [by rw Eo3|]; split; [rw -Hw; apply (owner_class s2 s3 p c); [done|by rw Eo3]|done]|].
  eapply (frame_trans rank O U (R ++ F) (R ++ F)); [done|apply Nat.le_refl|exact Hf2|]. apply frame_steady; [done|intros; by rw Eo3|done].
Qed.
End get.

Lemma has_land x y f : has (Z.land x y) f = true -> has x f = true.
Proof. unfold has. rw !negb_true_iff !Z.eqb_neq. intros Hn E. apply Hn. by rw (Z.land_comm x y) -Z.land_assoc E Z.land_0_r. Qed.
Lemma get_step U f : get_spec U f -> release_spec U f -> init_spec U f -> (forall p, uninit_spec ({[p]} ∪ U) f) -> get_spec U (S f).
Proof.
  intros Hg Hr Hin Hun F R St s h c flags Hi He Ha Hf.
  assert (forall s', inv U F R St s' -> frame rank O U (R ++ F) (rank c) s s' -> wp (mret 0) s' (got_one U F R St c h s)) as Hnone
    by (intros s' Hi' Hf'; apply wp_ret; split; [by left|done]).
  destruct He as (p0 & Hp0 & Hc0). cbn [object_by_handle]. apply wp_bind. eapply wp_entry; [exact Hi|by eexists|]. intros e _ Hpe. assert (pi_base e = p0) as -> by congruence.
  apply wp_bind. eapply wp_info_of; [by eapply orig_valid|]. destruct (has (oflags (info c)) flags); [|by apply Hnone].
  destruct (has (Z.land (oflags (info c)) flags) RF_CLONE) eqn:Ecl.
  - apply wp_bind. eapply (wp_dcs_create cls rank B PB O CA EX U sys F R St s h flags c); [exact Hi|by exists p0|exact Ecl| |].
    + intros s' Hi' Eo Es Hst. cbn [Z.eqb negb]. apply Hnone; [done|]. apply frame_steady; [done|intros; by rw Eo|done].
    + intros p s1 Hnz Hi1 Hfresh Eo1 Es1 Hw1 HO Hst. destruct (Z.eqb_spec p 0); [done|]. cbn [negb].
      eapply wp_get_clone; [done|done|done|apply Hun|exact Hi|exact Ha|lia|by eexists|done..].
  - destruct (has (Z.land (oflags (info c)) flags) RF_ORIGINAL) eqn:Eor; [|by apply Hnone].
    eapply wp_get_original; [exact Hin|exact Hi|exact Ha|lia|exact Hp0|exact Hc0|by eapply has_land].
Qed.
Lemma release_step U f : (forall p, uninit_spec ({[p]} ∪ U) f) -> release_spec U (S f).
Proof.
  intros Hun F R St s v c Hi Hv Ha Hf. cbn [object_release]. pose proof (valid_nz _ _ _ _ _ _ _ _ sys _ _ _ _ _ _ Hi Hv) as Hnz. destruct (Z.eqb_spec v 0); [done|].
  apply wp_bind. eapply wp_find_entry; [exact Hi|exact Hv|]. destruct (owner cls B s v) as [h|] eqn:Ew; [|apply wp_ret; split; [by eapply inv_drop|apply frame_refl]].
  apply wp_bind. eapply wp_entry; [exact Hi|by eapply owner_entry|]. intros e _ Hpe. apply wp_bind. destruct (Z.eqb_spec (pi_base e) v) as [E|E]; cbn [negb].
  - apply wp_ret. cbn [when]. eapply (wp_drop_ref _ _ _ _ _ _ _ _ F R St); [exact Hi|exact Ew|by eexists|]. intros s1 Hi1 Eo Es Hst. split; [done|]. apply frame_steady; [done|intros; by rw Eo|done].
  - assert (O !! v = None) as HO.
    { pose proof (orig_pointer cls rank B PB O CA EX U sys _ _ _ _ _ _ Hi Hv) as Hptr. destruct (O !! v); [|done]. destruct Hptr as (k & Hk & Hkp).
      unfold owner in Ew. rw Hk in Ew. congruence. }
    pose proof (once_released _ _ _ _ _ _ Hi HO) as Hn. assert (forall q, q ∈ R ++ F -> q ∈ R ++ v :: F) as Hsub.
    { intros q Hq. apply elem_of_app in Hq as [Hq|Hq]; apply elem_of_app; [by left|right; by right]. }
    apply wp_bind. eapply wp_mono; [eapply (wp_uninit U f (v :: F) R St s v c (R ++ F)); [apply Hun|exact Hi|exact Hv|exact HO|apply elem_of_app; right; left| |exact Hsub|by eapply above_more|lia]|].
    { intros Hin. by destruct (unheld_own _ _ _ _ _ _ Hn Hin). }
    intros u s1 (Hi1 & Hf1 & Hv1). destruct u; cbn [when].
    + apply wp_bind, wp_bind. eapply wp_mono with (Q := fun _ s' => wp (drop_ref h) s' (fun _ s2 => inv U F R St s2 /\ frame rank O U (R ++ F) (rank c) s s2)).
      * eapply wp_release_clone; [exact Hi1|exact Hv1|exact HO|rw -Ew; by eapply owner_class|]. intros s2 Hi2 Hf2. split; [done|].
        eapply (frame_trans rank O U (R ++ F) (R ++ F)); [done|apply Nat.le_refl|exact Hf1|exact Hf2].
      * intros b s2 Hd. by apply wp_ret, wp_ret.
    + apply wp_bind, wp_ret, wp_ret. cbn [when]. apply wp_ret. split; [|exact Hf1]. eapply inv_unexempt; [by eapply inv_drop|].
      intros Hin. pose proof (once_released _ _ _ _ _ _ Hi1 HO) as Hn1. apply Hn1, elem_of_app. by right.
Qed.

(** With enough fuel for its rank, every call returns. *)
Lemma calls_return f : (forall U, get_spec U f) /\ (forall U, release_spec U f) /\ (forall U, init_spec U f) /\ (forall U, uninit_spec U f).
Proof.
  induction f as [|f (Hg & Hr & Hin & Hun)].
  - split; [|split; [|split]]; intros U F R St s; intros; lia.
  - split; [|split; [|split]]; intros U; [apply get_step|apply release_step|apply init_step|apply uninit_step]; done.
Qed.
End requests.
