(* ===== verification/RepoContract.v ===== *)
(** * Repository: what a client may rely on (core/interface/iRepository.h,
    core/repository-2/repository.cpp)

    A client asks for objects by name or handle and releases them in any order.
    In an acyclic system every call returns and the client holds initialised
    objects, each clone once, that the reference counts cover. *)
From S2P Require Import Prelude Memory Str Repo LinkMap Repository RepoInv RepoSteps RepoLoops RepoBelow RepoProof.
Set Default Goal Selector "!".

Inductive request := ByCname (n : list Z) (flags : Z) | ByIname (n : list Z) (flags : Z) | ByHandle (h flags : Z) | Free (i : nat).

Section client.
Context {A : Type} `{Allocator A} {EO : ExtOrder}.
Context (cls : Z -> class).
Definition take_object (F : list Z) (m : M (repo A) Z) : M (repo A) (list Z) := v ← m; mret (if v =? 0 then F else v :: F).
(** [F] is what the client holds; [Free i] releases the [i]-th of it. *)
Definition serve (fuel : nat) (F : list Z) (r : request) : M (repo A) (list Z) :=
  match r with
  | ByCname n flags => take_object F (object_by_cname (object_by_handle cls fuel) n flags)
  | ByIname n flags => take_object F (object_by_iname (object_by_handle cls fuel) n flags)
  | ByHandle h flags => take_object F (object_by_handle cls fuel (Some h) flags)
  | Free i => match F !! i with Some v => object_release cls fuel v;; mret (delete i F) | None => mret F end
  end.
Fixpoint session (fuel : nat) (F : list Z) (l : list request) : M (repo A) (list Z) :=
  match l with [] => mret F | r :: l => F ← serve fuel F r; session fuel F l end.

(** The images are loaded and registered and nothing was requested. *)
Record registered (B : gmap base_key Z) (PB O : gmap Z Z) (CA : list Z) (EX : list extension) (s : repo A) : Prop := {
  rg_base : base_map s = B;
  rg_core : core_array s = CA;
  rg_exts : exts s = EX;
  rg_entries h : pi_base <$> entries s !! h = PB !! h;
  rg_objs : objs s = O;
  rg_slots : slots s = ∅;
  rg_members : members s = ∅;
  rg_clones : clones s = ∅;
  rg_tasks : mpi_tasks s = 0;
  rg_heap : a_ok (rheap s);
  rg_static p : is_Some (O !! p) -> is_Some (a_live (rheap s) !! p);
  rg_count h e : entries s !! h = Some e -> 0 <= ref_cnt e <= Z.of_nat (length (trace s))
}.
(** Everything held is an initialised object, clones are held once, and the
    counts are not too small, as long as they cannot have wrapped. *)
Record well_held (F : list Z) (s : repo A) : Prop := {
  wh_objects : Forall (fun v => is_Some (objs s !! v) /\ ready s v) F;
  wh_clones : NoDup (filter (fun v => is_Some (clones s !! v)) F);
  wh_counts h e : Z.of_nat (length (trace s)) < 2 ^ 32 -> entries s !! h = Some e ->
    Z.of_nat (length (filter (fun v => owner cls (base_map s) s v = Some h) F)) <= ref_cnt e
}.
End client.

Section contract.
Context {A : Type} `{AllocatorLaws A} {EO : ExtOrder}.
Context (cls : Z -> class) (rank : Z -> nat) (B : gmap base_key Z) (PB O : gmap Z Z) (CA : list Z) (EX : list extension).
Context (sys : acyclic cls rank B PB O CA EX).
Context (N : nat) (Hrank : forall c, (rank c <= N)%nat).
Implicit Types s : repo A.
Abbreviation inv F s := (inv cls rank B PB O CA EX ∅ F [] ∅ s).

Lemma registered_inv s : registered B PB O CA EX s -> inv [] s.
Proof.
  intros [E1 E2 E3 E4 E5 E6 E7 E8 E9 E10 E11 E12]. split; [split; try done|].
  - by rw E5.
  - intros p. rw E8 E5 lookup_empty. split; [by intros [? ?]|]. intros [[c Hc] Hn]. congruence.
  - intros p c Hp Hn. rw E5 in Hp. congruence.
  - intros p c Hp Hn. rw E5 in Hp. congruence.
  - intros c i v. by rw E6 lookup_empty.
  - intros p m v. by rw E7 lookup_empty.
  - unfold held. rw E6 E7 E9. split; [by constructor|by constructor|by constructor|]. intros h e _ He. cbn. by apply (E12 h).
Qed.
Lemma inv_held F s : inv F s -> well_held cls F s.
Proof.
  intros [Hc [Hv Hr Hd Hn]]. unfold held in *. cbn [app] in *. split.
  - apply Forall_app in Hv as [Hv _]. apply Forall_app in Hr as [Hr _]. rw !Forall_forall in Hv Hr |- *. intros v Hin.
    split; [by apply Hv|]. destruct (Hr v Hin) as [Hu|Hu]; [by apply not_elem_of_empty in Hu|done].
  - rw filter_app in Hd. apply NoDup_app in Hd as [Hd _]. rw Forall_forall in Hv.
    rw (filter_ext_in (fun v => is_Some (clones s !! v)) (fun v => O !! v = None)); [exact Hd|]. intros v Hin.
    rw (i_clones _ _ _ _ _ _ _ _ _ Hc). split; [by intros []|]. intros Ho. split; [|done]. apply Hv, elem_of_app. by left.
  - intros h e Ht He. specialize (Hn h e Ht He). rw filter_app length_app in Hn. rw (i_base _ _ _ _ _ _ _ _ _ Hc). lia.
Qed.
Lemma inv_perm F F' s : F ≡ₚ F' -> inv F s -> inv F' s.
Proof. intros HP [Hc Ho]. split; [done|]. eapply own_perm; [exact Ho|]. unfold held. by rw HP. Qed.
Lemma nothing_above r F : above rank O ∅ F [] r ∅.
Proof. split; [intros c i Hin; by apply not_elem_of_empty in Hin|intros v Hin; by apply not_elem_of_empty in Hin]. Qed.

Lemma serve_keeps fuel F r s : (2 * N + 3 <= fuel)%nat -> (forall h fl, r = ByHandle h fl -> is_Some (PB !! h)) -> inv F s ->
  wp (serve cls fuel F r) s (fun F' s' => inv F' s').
Proof.
  intros Hf Hh Hi. destruct (calls_return cls rank B PB O CA EX sys fuel) as (Hg & Hr & _).
  assert (below cls rank B PB O CA EX ∅ (object_by_handle cls fuel) (object_release cls fuel) (S N)) as Hb by (apply below_at; [done|done|lia]).
  assert (forall m, wp m s (got cls rank B PB O CA EX ∅ F [] ∅ (S N) s) -> wp (take_object F m) s (fun F' s' => inv F' s')) as Htake.
  { intros m Hm. unfold take_object. apply wp_bind. eapply wp_mono; [exact Hm|]. intros v s' [Hv _]. apply wp_ret.
    destruct Hv as [[-> Hv]|(Hnz & _ & Hv)]; [done|]. by destruct (Z.eqb_spec v 0). }
  destruct r as [n fl|n fl|h fl|i]; cbn [serve].
  - apply Htake. eapply wp_request; [exact sys|exact Hb|exact Hi|apply nothing_above|]. intros h c _ _. specialize (Hrank c). lia.
  - apply Htake. eapply wp_request; [exact sys|exact Hb|exact Hi|apply nothing_above|]. intros h c _ _. specialize (Hrank c). lia.
  - apply Htake. destruct (Hh h fl eq_refl) as [p Hp]. destruct (st_entry _ _ _ _ _ _ _ sys h p Hp) as [_ [c Hc]].
    eapply (bl_get _ _ _ _ _ _ _ _ _ _ _ Hb); [exact Hi|by exists p|specialize (Hrank c); lia|apply nothing_above].
  - destruct (F !! i) as [v|] eqn:Ev; [|by apply wp_ret]. apply (inv_perm F (v :: delete i F)) in Hi; [|by apply delete_Permutation].
    destruct (held_valid cls rank B PB O CA EX ∅ _ _ _ s v Hi) as [c Hc]; [left|]. specialize (Hrank c).
    apply wp_bind. eapply wp_mono; [eapply (bl_release _ _ _ _ _ _ _ _ _ _ _ Hb); [exact Hi|exact Hc|lia|apply nothing_above]|].
    intros [] s' [Hi' _]. by apply wp_ret.
Qed.
Lemma session_keeps fuel l F s : (2 * N + 3 <= fuel)%nat -> (forall h fl, ByHandle h fl ∈ l -> is_Some (PB !! h)) -> inv F s ->
  wp (session cls fuel F l) s (fun F' s' => inv F' s').
Proof.
  intros Hf. revert F s. induction l as [|r l IH]; intros F s Hh Hi; [by apply wp_ret|]. cbn [session]. apply wp_bind.
  eapply wp_mono; [apply serve_keeps; [done| |exact Hi]|].
  - intros h fl ->. eapply Hh. left.
  - intros F' s' Hi'. apply IH; [|done]. intros h fl Hin. eapply Hh. by right.
Qed.

(** C26: in a system whose links, requests and task maker lead to classes of
    smaller rank, every sequence of requests and releases returns - a fuel of
    twice the largest rank and three is enough - and then every object that the
    client holds exists and is initialised, no clone was handed out twice or
    freed while it is held, and no reference count is smaller than the number of
    pointers the client holds. *)
Theorem session_safe fuel l s : registered B PB O CA EX s -> (2 * N + 3 <= fuel)%nat ->
  (forall h fl, ByHandle h fl ∈ l -> is_Some (PB !! h)) ->
  exists F s', session cls fuel [] l s = Some (F, s') /\ well_held cls F s'.
Proof.
  intros Hs Hf Hl. destruct (wp_run _ _ _ (session_keeps fuel l [] s Hf Hl (registered_inv s Hs))) as (F & s' & E & Hi).
  exists F, s'. split; [done|]. by apply inv_held.
Qed.
End contract.
