(* ===== verification/RepoRegistry.v ===== *)
(** * Repository: the registry of entries (core/repository-2/base_array.cpp)

    What adding and removing an array does to the map of names and addresses,
    as a function of the map: entries are only replaced by newer ones, and
    removing an array of new names undoes adding it. *)
From S2P Require Import Prelude Memory Str Repo.
Set Default Goal Selector "!".

Section registry.
(** The information and the object of an entry. *)
Context (inf : Z -> object_info) (base : Z -> Z).
Abbreviation registry := (gmap base_key Z).
Implicit Types m : registry.

Definition reg_iname (h : Z) m : registry :=
  let k := key_iname (iname (inf h)) in
  match m !! k with
  | Some h' => if bool_decide (cname (inf h) = cname (inf h')) && (version (inf h') <? version (inf h)) then <[k := h]> m else m
  | None => <[k := h]> m
  end.
Definition reg_cname (h : Z) m : registry :=
  let k := key_cname (cname (inf h)) in
  match m !! k with
  | Some h' => if (version (inf h') <? version (inf h)) && bool_decide (iname (inf h) = iname (inf h')) then <[k := h]> m else m
  | None => <[k := h]> m
  end.
Definition reg_pointer (h : Z) m : registry :=
  match m !! key_pointer (base h) with Some _ => m | None => <[key_pointer (base h) := h]> m end.
Definition reg_entry (h : Z) m : registry := reg_pointer h (reg_cname h (reg_iname h m)).
Definition register (l : list Z) m : registry := foldl (fun m h => reg_entry h m) m l.
Definition unreg_key (k : base_key) (h : Z) m : registry :=
  match m !! k with Some h' => if base h' =? base h then delete k m else m | None => m end.
Definition unreg_entry (h : Z) m : registry :=
  delete (key_pointer (base h)) (unreg_key (key_cname (cname (inf h))) h (unreg_key (key_iname (iname (inf h))) h m)).
Definition unregister (l : list Z) m : registry := foldl (fun m h => unreg_entry h m) m l.
Definition keys_of (h : Z) : list base_key := [key_iname (iname (inf h)); key_cname (cname (inf h)); key_pointer (base h)].

(** ** Replacement *)
(** What may take the place of [h] at the key [k]: a newer version of the same
    class, if [k] is an interface name, or interface, if it is a class name. *)
Definition succeeds (k : base_key) (h h' : Z) : Prop :=
  h' = h \/ version (inf h) < version (inf h') /\ (k.1.1 <> [] -> cname (inf h') = cname (inf h)) /\ (k.1.2 <> [] -> iname (inf h') = iname (inf h)).
Lemma succeeds_trans k h1 h2 h3 : succeeds k h1 h2 -> succeeds k h2 h3 -> succeeds k h1 h3.
Proof.
  unfold succeeds. intros [->|(H1 & C1 & I1)] [->|(H2 & C2 & I2)]; auto. right. split; [lia|].
  split; intros Hk; [rw C2 //; by apply C1|rw I2 //; by apply I1].
Qed.
(** One map grows into another by entries of [l]. *)
Record grows (l : list Z) m m' : Prop := {
  gw_kept k h : m !! k = Some h -> exists h', m' !! k = Some h' /\ succeeds k h h';
  gw_new k h : m' !! k = Some h -> m !! k = Some h \/ h ∈ l /\ k ∈ keys_of h
}.
Lemma grows_refl l m : grows l m m.
Proof. split; [intros k h Hk; exists h; by split; [|left]|by left]. Qed.
Lemma grows_trans l m1 m2 m3 : grows l m1 m2 -> grows l m2 m3 -> grows l m1 m3.
Proof.
  intros [K1 N1] [K2 N2]. split.
  - intros k h Hk. destruct (K1 k h Hk) as (h1 & H1 & S1). destruct (K2 k h1 H1) as (h2 & H2 & S2). exists h2. split; [done|by eapply succeeds_trans].
  - intros k h Hk. destruct (N2 k h Hk) as [Hk2|Hk2]; [by apply N1|by right].
Qed.
Lemma grows_insert l m k h : h ∈ l -> k ∈ keys_of h -> (forall h', m !! k = Some h' -> succeeds k h' h) -> grows l m (<[k := h]> m).
Proof.
  intros Hl Hk Hs. split.
  - intros k' h' Hk'. destruct (decide (k = k')) as [<-|Hne]; [exists h; rw lookup_insert_eq; split; [done|by apply Hs]|exists h'; rw lookup_insert_ne //; split; [done|by left]].
  - intros k' h' [[<- <-]|[_ Hk']]%lookup_insert_Some; [by right|by left].
Qed.
Lemma reg_iname_grows l h m : h ∈ l -> grows l m (reg_iname h m).
Proof.
  intros Hl. unfold reg_iname. destruct (m !! key_iname (iname (inf h))) as [h'|] eqn:E.
  - destruct (bool_decide _ && _) eqn:Eb; [|apply grows_refl]. apply andb_true_iff in Eb as [En Ev]. apply Z.ltb_lt in Ev. apply bool_decide_eq_true in En.
    apply grows_insert; [done|left|]. intros h2 Hh. assert (h2 = h') as -> by congruence. by right.
  - apply grows_insert; [done|left|]. intros h2 Hh. congruence.
Qed.
Lemma reg_cname_grows l h m : h ∈ l -> grows l m (reg_cname h m).
Proof.
  intros Hl. unfold reg_cname. destruct (m !! key_cname (cname (inf h))) as [h'|] eqn:E.
  - destruct (_ && bool_decide _) eqn:Eb; [|apply grows_refl]. apply andb_true_iff in Eb as [Ev En]. apply Z.ltb_lt in Ev. apply bool_decide_eq_true in En.
    apply grows_insert; [done|right; left|]. intros h2 Hh. assert (h2 = h') as -> by congruence. by right.
  - apply grows_insert; [done|right; left|]. intros h2 Hh. congruence.
Qed.
Lemma reg_pointer_grows l h m : h ∈ l -> grows l m (reg_pointer h m).
Proof.
  intros Hl. unfold reg_pointer. destruct (m !! key_pointer (base h)) as [h'|] eqn:E; [apply grows_refl|].
  apply grows_insert; [done|right; right; left|]. intros h2 Hh. congruence.
Qed.
Lemma reg_entry_grows l h m : h ∈ l -> grows l m (reg_entry h m).
Proof.
  intros Hl. unfold reg_entry. eapply grows_trans; [by apply reg_iname_grows|]. eapply grows_trans; [by apply reg_cname_grows|by apply reg_pointer_grows].
Qed.
Lemma register_grows_in l l0 m : (forall h, h ∈ l -> h ∈ l0) -> grows l0 m (register l m).
Proof.
  revert m. induction l as [|h l IH]; intros m Hl; [apply grows_refl|]. cbn. eapply grows_trans; [apply reg_entry_grows, Hl; left|].
  apply IH. intros h' Hh. apply Hl. by right.
Qed.
Lemma register_grows l m : grows l m (register l m).
Proof. by apply register_grows_in. Qed.

(** ** Who holds a key *)
(** Entries that compete for the key [k] by their versions: of the same class, if
    [k] is an interface name, of the same interface, if it is a class name; for
    an address there is no competition. *)
Definition rivals (k : base_key) (h h' : Z) : Prop :=
  match k with
  | (([], []), _) => False
  | (([], _), _) => iname (inf h') = iname (inf h)
  | _ => cname (inf h') = cname (inf h)
  end.
#[local] Instance rivals_dec k h h' : Decision (rivals k h h').
Proof. unfold rivals. destruct k as [[[|] [|]] p]; apply _. Defined.
Lemma rivals_trans k h1 h2 h3 : rivals k h1 h2 -> rivals k h2 h3 -> rivals k h1 h3.
Proof. unfold rivals. destruct k as [[[|] [|]] p]; congruence. Qed.
Lemma rivals_sym k h1 h2 : rivals k h1 h2 -> rivals k h2 h1.
Proof. unfold rivals. destruct k as [[[|] [|]] p]; congruence. Qed.
Lemma rivals_refl k h1 h2 : rivals k h1 h2 -> rivals k h1 h1.
Proof. unfold rivals. by destruct k as [[[|] [|]] p]. Qed.
(** [h] has won the key [k] among [c], in the order of their coming: it is the
    first comer or a rival of it, newer than the rivals before it and at least as
    new as those behind. *)
Definition newest (k : base_key) (c : list Z) (h : Z) : Prop :=
  exists c1 c2, c = c1 ++ h :: c2 /\ (forall h0, head c1 = Some h0 -> rivals k h0 h) /\
    (forall x, x ∈ c1 -> rivals k x h -> version (inf x) < version (inf h)) /\
    (forall x, x ∈ c2 -> rivals k x h -> version (inf x) <= version (inf h)).
(** The candidates for [k]: who holds it, and the entries of [l] with that key. *)
Definition candidates (l : list Z) m (k : base_key) : list Z := option_list (m !! k) ++ filter (fun h => k ∈ keys_of h) l.

(** The winner after one more candidate. *)
Definition pick (k : base_key) (o : option Z) (h : Z) : option Z :=
  match o with
  | Some h' => if bool_decide (rivals k h' h) && (version (inf h') <? version (inf h)) then Some h else Some h'
  | None => Some h
  end.
Lemma newest_pick k c h x : newest k c h -> exists h', pick k (Some h) x = Some h' /\ newest k (c ++ [x]) h'.
Proof.
  intros (c1 & c2 & -> & Hfirst & Hold & Hnew). cbn [pick]. case_bool_decide as Er; [destruct (Z.ltb_spec (version (inf h)) (version (inf x))) as [Ev|Ev]|]; cbn [andb].
  - exists x. split; [done|]. exists (c1 ++ h :: c2), []. split; [done|]. split_and!.
    + intros h0 Hh. destruct c1 as [|h1 c1]; injection Hh as <-; [done|]. eapply rivals_trans; [by apply Hfirst|done].
    + intros y [Hy|[->|Hy]%elem_of_cons]%elem_of_app Hr; [|done|]; assert (rivals k y h) as Hyh by (eapply rivals_trans; [exact Hr|by apply rivals_sym]).
      * specialize (Hold y Hy Hyh). lia.
      * specialize (Hnew y Hy Hyh). lia.
    + by intros y Hy%not_elem_of_nil.
  - exists h. split; [done|]. exists c1, (c2 ++ [x]). split; [by rw -app_assoc|]. split_and!; [done|done|].
    intros y [Hy|Hy]%elem_of_app Hr; [|apply list_elem_of_singleton in Hy as ->]; [by apply Hnew|done].
  - exists h. split; [done|]. exists c1, (c2 ++ [x]). split; [by rw -app_assoc|]. split_and!; [done|done|].
    intros y [Hy|Hy]%elem_of_app Hr; [|apply list_elem_of_singleton in Hy as ->]; [by apply Hnew|]. by destruct Er; apply rivals_sym.
Qed.
Lemma newest_first (c : list Z) h1 h2 c1 c2 d1 d2 : c = c1 ++ h1 :: c2 -> c = d1 ++ h2 :: d2 -> (length c1 < length d1)%nat -> h1 ∈ d1 /\ h2 ∈ c2 /\ head d1 = head (c1 ++ [h1]).
Proof.
  intros -> E Hl. apply app_eq_inv in E as [(x & -> & E)|(x & -> & E)]; [rewrite length_app in Hl; lia|]. destruct x as [|y x]; [rewrite app_nil_r in Hl; lia|].
  injection E as <- ->. split_and!; [apply elem_of_app; right; left|apply elem_of_app; right; left|]. by destruct c1.
Qed.
(** There is no second winner. *)
Lemma newest_unique k c h1 h2 : newest k c h1 -> newest k c h2 -> h1 = h2.
Proof.
  assert (forall h1 h2 c1 c2 d1 d2, c = c1 ++ h1 :: c2 -> c = d1 ++ h2 :: d2 -> (forall h0, head c1 = Some h0 -> rivals k h0 h1) -> (forall h0, head d1 = Some h0 -> rivals k h0 h2) ->
    (forall x, x ∈ d1 -> rivals k x h2 -> version (inf x) < version (inf h2)) -> (forall x, x ∈ c2 -> rivals k x h1 -> version (inf x) <= version (inf h1)) ->
    (length c1 < length d1)%nat -> False) as Hlt.
  { intros x1 x2 c1 c2 d1 d2 E1 E2 F1 F2 O2 N1 Hl. destruct (newest_first c x1 x2 c1 c2 d1 d2 E1 E2 Hl) as (H1 & H2 & Hh). assert (rivals k x1 x2) as Hr.
    { destruct c1 as [|h0 c1]; cbn in Hh; [by apply F2|]. eapply rivals_trans; [apply rivals_sym, (F1 h0 eq_refl)|by apply F2]. }
    pose proof (O2 x1 H1 Hr) as V1. pose proof (N1 x2 H2 (rivals_sym _ _ _ Hr)) as V2. lia. }
  intros (c1 & c2 & E1 & F1 & O1 & N1) (d1 & d2 & E2 & F2 & O2 & N2). destruct (Nat.lt_trichotomy (length c1) (length d1)) as [Hl|[Hl|Hl]].
  - by destruct (Hlt h1 h2 c1 c2 d1 d2).
  - rw E1 in E2. by apply app_inj_1 in E2 as [_ [= <- _]].
  - by destruct (Hlt h2 h1 d1 d2 c1 c2).
Qed.
Lemma foldl_pick k c : foldl (pick k) None c = None /\ c = [] \/ exists h, foldl (pick k) None c = Some h /\ newest k c h.
Proof.
  induction c as [|x c IH] using rev_ind; [by left|]. right. rw foldl_snoc. destruct IH as [[-> ->]|(h & -> & Hn)]; [|by apply newest_pick].
  exists x. split; [done|]. exists [], []. split_and!; [done|done|by intros y Hy%not_elem_of_nil..].
Qed.
Definition named (h : Z) : Prop := iname (inf h) <> [] /\ cname (inf h) <> [].
Lemma key_iname_named n : n <> [] -> exists x t, key_iname n = (x :: t, [], 0).
Proof. destruct n as [|x n]; [done|]. by exists x, (take (MAX_INAME - 2) n). Qed.
Lemma key_cname_named n : n <> [] -> exists x t, key_cname n = ([], x :: t, 0).
Proof. destruct n as [|x n]; [done|]. by exists x, (take (MAX_CNAME - 2) n). Qed.
Lemma reg_entry_lookup h m k : named h -> reg_entry h m !! k = if decide (k ∈ keys_of h) then pick k (m !! k) h else m !! k.
Proof.
  intros [(xi & ti & Ki)%key_iname_named (xc & tc & Kc)%key_cname_named]. assert (forall m', reg_iname h m' !! k = if decide (k = key_iname (iname (inf h))) then pick k (m' !! k) h else m' !! k) as E1.
  { intros m'. unfold reg_iname. destruct (decide (k = key_iname (iname (inf h)))) as [->|Ek].
    - destruct (m' !! key_iname (iname (inf h))) as [h'|] eqn:E; [|by rw lookup_insert_eq]. cbn [pick].
      rw (bool_decide_ext (rivals (key_iname (iname (inf h))) h' h) (cname (inf h) = cname (inf h'))); [|by rw Ki].
      destruct (_ && _); [by rw lookup_insert_eq|done].
    - destruct (m' !! key_iname (iname (inf h))); [destruct (_ && _)|]; by rw ?lookup_insert_ne. }
  assert (forall m', reg_cname h m' !! k = if decide (k = key_cname (cname (inf h))) then pick k (m' !! k) h else m' !! k) as E2.
  { intros m'. unfold reg_cname. destruct (decide (k = key_cname (cname (inf h)))) as [->|Ek].
    - destruct (m' !! key_cname (cname (inf h))) as [h'|] eqn:E; [|by rw lookup_insert_eq]. cbn [pick].
      rw (bool_decide_ext (rivals (key_cname (cname (inf h))) h' h) (iname (inf h) = iname (inf h'))); [|by rw Kc].
      rw (andb_comm (bool_decide _)). destruct (_ && _); [by rw lookup_insert_eq|done].
    - destruct (m' !! key_cname (cname (inf h))); [destruct (_ && _)|]; by rw ?lookup_insert_ne. }
  assert (forall m', reg_pointer h m' !! k = if decide (k = key_pointer (base h)) then pick k (m' !! k) h else m' !! k) as E3.
  { intros m'. unfold reg_pointer. destruct (decide (k = key_pointer (base h))) as [->|Ek].
    - destruct (m' !! key_pointer (base h)) as [h'|] eqn:E; [|by rw lookup_insert_eq]. cbn [pick]. by rw E.
    - destruct (m' !! key_pointer (base h)); [done|]. by rw lookup_insert_ne. }
  unfold reg_entry. rw E3 E2 E1. unfold keys_of. destruct (decide (k ∈ _)) as [Hk|Hk].
  - rw !elem_of_cons elem_of_nil in Hk. destruct Hk as [->|[->|[->|[]]]].
    + rewrite decide_False; [rewrite decide_False; [by rewrite decide_True|]|]; unfold key_pointer; congruence.
    + rewrite decide_False; [rewrite decide_True; [rewrite decide_False; [done|]|done]|]; unfold key_pointer; congruence.
    + rewrite decide_True; [rewrite decide_False; [rewrite decide_False; [done|]|]|done]; unfold key_pointer; congruence.
  - rw !elem_of_cons in Hk. rewrite !decide_False; [done|..]; intros ->; apply Hk; auto.
Qed.
Lemma register_lookup l m k : Forall named l -> register l m !! k = foldl (pick k) (m !! k) (filter (fun h => k ∈ keys_of h) l).
Proof.
  intros Hl. revert m. induction l as [|h l IH]; intros m; [done|]. apply Forall_cons in Hl as [Hh Hl]. cbn [register foldl].
  change (foldl _ _ l) with (register l (reg_entry h m)). rw (IH Hl) reg_entry_lookup // filter_cons. by destruct (decide _).
Qed.
(** The registry afterwards. *)
Lemma register_newest l m k h : Forall named l -> register l m !! k = Some h <-> newest k (candidates l m k) h.
Proof.
  intros Hl. rw register_lookup //. assert (foldl (pick k) (m !! k) (filter (fun h => k ∈ keys_of h) l) = foldl (pick k) None (candidates l m k)) as ->
    by (unfold candidates; by destruct (m !! k)).
  destruct (foldl_pick k (candidates l m k)) as [[-> ->]|(h' & -> & Hn)].
  - split; [done|]. by intros ([|] & c2 & E & _).
  - split; [by intros [= <-]|]. intros Hn'. f_equal. by eapply newest_unique.
Qed.

(** ** Removal *)
Lemma unreg_entry_lookup h m k : unreg_entry h m !! k = (if decide (k = key_pointer (base h)) then None else
  if decide (k ∈ keys_of h) then match m !! k with Some h' => if base h' =? base h then None else Some h' | None => None end else m !! k).
Proof.
  unfold unreg_entry. destruct (decide (k = key_pointer (base h))) as [->|Hp]; [by rw lookup_delete_eq|]. rw lookup_delete_ne //.
  assert (forall k0 m, unreg_key k0 h m !! k = if decide (k = k0) then match m !! k with Some h' => if base h' =? base h then None else Some h' | None => None end else m !! k) as Hu.
  { intros k0 m0. unfold unreg_key. destruct (decide (k = k0)) as [<-|Hne].
    - destruct (m0 !! k) as [h'|] eqn:E; [|done]. destruct (base h' =? base h); [by rw lookup_delete_eq|done].
    - destruct (m0 !! k0) as [h'|]; [|done]. destruct (base h' =? base h); [by rw lookup_delete_ne|done]. }
  rw !Hu. unfold keys_of. destruct (decide (k = key_cname (cname (inf h)))) as [E1|N1]; destruct (decide (k = key_iname (iname (inf h)))) as [E2|N2].
  - rw decide_True; [|rw E2; left]. destruct (m !! k) as [h'|]; [|done]. by destruct (base h' =? base h) eqn:Eb; [|rw Eb].
  - rw decide_True; [done|]. rw E1. right. left.
  - rw decide_True; [done|]. rw E2. left.
  - rw decide_False; [done|]. rw !elem_of_cons. intros [?|[?|[?|Hn]]]; try done. by apply not_elem_of_nil in Hn.
Qed.
(** A key that is there afterwards was there, and is no entry's that was removed. *)
Lemma unregister_Some l m k h : unregister l m !! k = Some h <-> m !! k = Some h /\ Forall (fun x => k <> key_pointer (base x) /\ (k ∈ keys_of x -> base h <> base x)) l.
Proof.
  revert m. induction l as [|x l IH]; intros m; [by cbn; split; [|intros []]|]. cbn. rw IH Forall_cons unreg_entry_lookup.
  destruct (decide (k = key_pointer (base x))) as [E|E]; [split; [by intros []|by intros (_ & (Hn & _) & _)]|].
  destruct (decide (k ∈ keys_of x)) as [Ek|Ek].
  - destruct (m !! k) as [h'|]; [|by split; intros []]. destruct (Z.eqb_spec (base h') (base x)) as [Eb|Eb].
    + split; [by intros []|]. intros ([= ->] & (_ & Hn) & _). by destruct (Hn Ek).
    + split; [intros [[= ->] Hl]; by repeat split|]. by intros (Hm & _ & Hl).
  - split; [intros [Hm Hl]; by repeat split|]. by intros (Hm & _ & Hl).
Qed.
Lemma unregister_register l m : Forall (fun h => forall k, k ∈ keys_of h -> m !! k = None) l -> unregister l (register l m) = m.
Proof.
  intros Hnew. apply map_eq. intros k. apply option_eq. intros h. rw unregister_Some. destruct (register_grows l m) as [Hkept Hgrew]. rw Forall_forall in Hnew. split.
  - intros [Hk Hl]. destruct (Hgrew k h Hk) as [Hm|[Hin Hkey]]; [done|]. rw Forall_forall in Hl. destruct (Hl h Hin) as [_ Hn]. by destruct (Hn Hkey).
  - intros Hm. assert (forall x, x ∈ l -> k ∉ keys_of x) as Hno by (intros x Hx Hkx; specialize (Hnew x Hx k Hkx); congruence). split.
    + destruct (Hkept k h Hm) as (h' & Hk' & _). destruct (Hgrew k h' Hk') as [Hm'|[Hin Hkey]]; [congruence|by destruct (Hno h' Hin)].
    + apply Forall_forall. intros x Hx. specialize (Hno x Hx). split; [|by intros ?]. intros ->. apply Hno. right. right. left.
Qed.
End registry.

(** ** The code computes these functions, as long as the heap grants its requests *)
Section run.
Context {A : Type} `{Allocator A}.
Context (cls : Z -> class).
Implicit Types s : repo A.
Definition base_at s (h : Z) : Z := default 0 (pi_base <$> entries s !! h).
Definition info_at s (h : Z) : object_info := default (mkInfo [] [] 0 0 0) ((fun c => c_info (cls c)) <$> (objs s !! base_at s h)).
(** The entry belongs to an image that is loaded. *)
Definition legible s (h : Z) : Prop := exists e c, entries s !! h = Some e /\ objs s !! pi_base e = Some c.

#[global] Instance legible_dec s h : Decision (legible s h).
Proof.
  unfold legible. destruct (entries s !! h) as [e|] eqn:He; [destruct (objs s !! pi_base e) as [c|] eqn:Hc|].
  - left. by exists e, c.
  - right. intros (e' & c & [= <-] & Hc'). congruence.
  - right. by intros (e' & c & [=] & _).
Defined.

Lemma wp_reads s m h (Q : base_entry -> repo A -> Prop) : legible s h ->
  (forall e, pi_base e = base_at s h -> Q e (set_base_map m s)) -> wp (entry h) (set_base_map m s) Q.
Proof.
  intros (e & c & He & _) HQ. unfold entry. apply wp_bind, wp_gets. eapply wp_lift_opt; [exact He|]. apply HQ. unfold base_at. by rw He.
Qed.
Lemma wp_infos s m h e (Q : object_info -> repo A -> Prop) : legible s h -> pi_base e = base_at s h ->
  Q (info_at s h) (set_base_map m s) -> wp (info_of cls (pi_base e)) (set_base_map m s) Q.
Proof.
  intros (e0 & c & He & Hc) Ee HQ. unfold info_of, class_of. apply wp_bind, wp_bind, wp_gets, wp_bind. unfold info_at in HQ. rw Ee.
  assert (base_at s h = pi_base e0) as Eb by (unfold base_at; by rw He). rw Eb in HQ |- *. eapply wp_lift_opt; [exact Hc|]. apply wp_ret, wp_ret.
  by rw Hc in HQ.
Qed.
Lemma wp_map_insert s m k h : grants s = [] -> wp (map_insert k h) (set_base_map m s) (fun _ s' => s' = set_base_map (<[k := h]> m) s).
Proof. intros Hg. unfold map_insert, wp, grant, mbind, M_bind, when, modify, mret. cbn. by rw Hg. Qed.
Lemma wp_map_replace s m k h : grants s = [] -> wp (map_replace k h) (set_base_map m s) (fun _ s' => s' = set_base_map (<[k := h]> m) s).
Proof.
  intros Hg. unfold map_replace. apply wp_bind, wp_modify. cbn [base_map set_base_map].
  eapply wp_mono; [apply (wp_map_insert s (delete k m) k h Hg)|]. intros _ s' ->. by rw insert_delete_eq.
Qed.

Section adding.
Context (s : repo A) (Hg : grants s = []).
Abbreviation inf := (info_at s).
Abbreviation base := (base_at s).
Abbreviation all_legible m := (map_Forall (fun (_ : base_key) h => legible s h) m).

Lemma wp_add_iname h m : legible s h -> all_legible m -> wp (add_iname cls h) (set_base_map m s) (fun _ s' => s' = set_base_map (reg_iname inf h m) s).
Proof.
  intros Hh Hm. unfold add_iname. apply wp_bind. eapply wp_reads; [exact Hh|]. intros e Ee. apply wp_bind. eapply wp_infos; [exact Hh|exact Ee|].
  unfold find_object. apply wp_bind, wp_bind, wp_gets, wp_ret. cbn [base_map set_base_map]. unfold reg_iname.
  destruct (m !! key_iname (iname (inf h))) as [h'|] eqn:E; [|by apply wp_map_insert]. pose proof (Hm _ _ E) as Hh'.
  apply wp_bind. eapply wp_reads; [exact Hh'|]. intros e' Ee'. apply wp_bind. eapply wp_infos; [exact Hh'|exact Ee'|].
  destruct (_ && _); [by apply wp_map_replace|by apply wp_ret].
Qed.
Lemma wp_add_cname h m : legible s h -> all_legible m -> wp (add_cname cls h) (set_base_map m s) (fun _ s' => s' = set_base_map (reg_cname inf h m) s).
Proof.
  intros Hh Hm. unfold add_cname. apply wp_bind. eapply wp_reads; [exact Hh|]. intros e Ee. apply wp_bind. eapply wp_infos; [exact Hh|exact Ee|].
  unfold find_object. apply wp_bind, wp_bind, wp_gets, wp_ret. cbn [base_map set_base_map]. unfold reg_cname.
  destruct (m !! key_cname (cname (inf h))) as [h'|] eqn:E; [|by apply wp_map_insert]. pose proof (Hm _ _ E) as Hh'.
  apply wp_bind. eapply wp_reads; [exact Hh'|]. intros e' Ee'. apply wp_bind. eapply wp_infos; [exact Hh'|exact Ee'|].
  destruct (_ && _); [by apply wp_map_replace|by apply wp_ret].
Qed.
Lemma wp_add_pointer h m : legible s h -> wp (add_pointer h) (set_base_map m s) (fun _ s' => s' = set_base_map (reg_pointer base h m) s).
Proof.
  intros Hh. unfold add_pointer. apply wp_bind. eapply wp_reads; [exact Hh|]. intros e Ee. unfold find_object. apply wp_bind, wp_bind, wp_gets, wp_ret.
  cbn [base_map set_base_map]. unfold reg_pointer. rw Ee. destruct (m !! key_pointer (base h)); [by apply wp_ret|by apply wp_map_insert].
Qed.
Lemma grows_legible l m m' : Forall (legible s) l -> all_legible m -> grows inf base l m m' -> all_legible m'.
Proof. intros Hl Hm [_ Hn] k h Hk. destruct (Hn k h Hk) as [Hk'|[Hin _]]; [by eapply Hm|]. rw Forall_forall in Hl. by apply Hl. Qed.
Lemma wp_add_base_array l m : Forall (legible s) l -> all_legible m ->
  wp (add_base_array cls l) (set_base_map m s) (fun _ s' => s' = set_base_map (register inf base l m) s).
Proof.
  revert m. induction l as [|h l IH]; intros m Hl Hm; [by apply wp_ret|]. apply Forall_cons in Hl as [Hh Hl]. cbn [add_base_array].
  assert (Forall (legible s) [h]) as H1 by by constructor.
  apply wp_bind. eapply wp_mono; [by apply wp_add_iname|]. intros _ ? ->. assert (all_legible (reg_iname inf h m)) as Hm1 by (eapply grows_legible; [exact H1|exact Hm|apply reg_iname_grows; left]).
  apply wp_bind. eapply wp_mono; [by apply wp_add_cname|]. intros _ ? ->. apply wp_bind. eapply wp_mono; [by apply wp_add_pointer|]. intros _ ? ->.
  apply IH; [done|]. eapply grows_legible; [exact H1|exact Hm1|]. eapply grows_trans; [apply reg_cname_grows; left|apply reg_pointer_grows; left].
Qed.
Lemma wp_remove_key k h m : legible s h -> all_legible m -> wp (remove_key k h) (set_base_map m s) (fun _ s' => s' = set_base_map (unreg_key base k h m) s).
Proof.
  intros Hh Hm. unfold remove_key. apply wp_bind. eapply wp_reads; [exact Hh|]. intros e Ee.
  unfold find_object. apply wp_bind, wp_bind, wp_gets, wp_ret. cbn [base_map set_base_map]. unfold unreg_key.
  destruct (m !! k) as [h'|] eqn:E; [|by apply wp_ret]. apply wp_bind. eapply wp_reads; [exact (Hm _ _ E)|]. intros e' Ee'. rw Ee Ee'.
  apply wp_when; intros Eb; rw Eb; [by apply wp_modify|done].
Qed.
Lemma unreg_legible l m : all_legible m -> all_legible (unregister inf base l m).
Proof. intros Hm k h Hk. apply unregister_Some in Hk as [Hk _]. by eapply Hm. Qed.
Lemma wp_remove_base_array l m : Forall (legible s) l -> all_legible m ->
  wp (remove_base_array cls l) (set_base_map m s) (fun _ s' => s' = set_base_map (unregister inf base l m) s).
Proof.
  revert m. induction l as [|h l IH]; intros m Hl Hm; [by apply wp_ret|]. apply Forall_cons in Hl as [Hh Hl]. cbn [remove_base_array].
  assert (all_legible (unreg_key base (key_iname (iname (inf h))) h m)) as Hm1.
  { intros k x. unfold unreg_key. destruct (m !! key_iname (iname (inf h))); [|apply Hm]. destruct (_ =? _); [|apply Hm]. intros [_ Hx]%lookup_delete_Some. by eapply Hm. }
  unfold remove_iname. do 2 apply wp_bind. eapply wp_reads; [exact Hh|]. intros e Ee. apply wp_bind. eapply wp_infos; [exact Hh|exact Ee|].
  eapply wp_mono; [by apply wp_remove_key|]. intros [] ? ->.
  unfold remove_cname. do 2 apply wp_bind. eapply wp_reads; [exact Hh|]. intros e1 Ee1. apply wp_bind. eapply wp_infos; [exact Hh|exact Ee1|].
  eapply wp_mono; [by apply wp_remove_key|]. intros [] ? ->.
  unfold remove_pointer. do 2 apply wp_bind. eapply wp_reads; [exact Hh|]. intros e2 Ee2. unfold map_erase. apply wp_modify. cbn [base_map set_base_map]. rw Ee2.
  apply (IH (unreg_entry inf base h m)); [done|]. exact (unreg_legible [h] m Hm).
Qed.
Lemma set_same : set_base_map (base_map s) s = s.
Proof. by destruct s. Qed.

(** C27: adding an array of entries with names, while the heap grants its
    requests, returns and changes nothing but the registry.  Afterwards each key -
    an interface name, a class name, an address - is held by exactly the one of
    its candidates that wins it, the candidates being who held it before and then
    the entries added under that key, in order: under an interface name the first
    of the newest versions of the first comer's class, under a class name the
    first of the newest of the first comer's interface, under an address the first
    comer.  Keys without candidates are not registered. *)
Theorem registry_newest l : Forall (legible s) l -> all_legible (base_map s) -> Forall (named inf) l ->
  exists m, add_base_array cls l s = Some (tt, set_base_map m s) /\
    forall k h, m !! k = Some h <-> newest inf k (candidates inf base l (base_map s) k) h.
Proof.
  intros Hl Hm Hn. pose proof (wp_add_base_array l (base_map s) Hl Hm) as Hw. rw set_same in Hw. apply wp_run in Hw as ([] & s' & E & ->).
  eexists. split; [exact E|]. intros k h. by apply register_newest.
Qed.
(** C28: removing an array from the registry undoes adding it, if its names and
    addresses were not registered before: the repository is as it was. *)
Theorem registry_roundtrip l : Forall (legible s) l -> all_legible (base_map s) -> Forall (fun h => forall k, k ∈ keys_of inf base h -> base_map s !! k = None) l ->
  (add_base_array cls l;; remove_base_array cls l) s = Some (tt, s).
Proof.
  intros Hl Hm Hn. assert (wp (add_base_array cls l;; remove_base_array cls l) s (fun _ s' => s' = s)) as Hw.
  { apply wp_bind. pose proof (wp_add_base_array l (base_map s) Hl Hm) as Hw. rw set_same in Hw. eapply wp_mono; [exact Hw|]. intros _ ? ->.
    eapply wp_mono; [apply wp_remove_base_array; [done|]|intros _ ? ->; by rw unregister_register // set_same].
    eapply grows_legible; [exact Hl|exact Hm|apply register_grows]. }
  apply wp_run in Hw as ([] & s' & E & ->). exact E.
Qed.
End adding.
End run.
