(* ===== verification/RepoPlant.v ===== *)
(** * Repository: a system that is acyclic, and systems that are not

    Whether a finite system is acyclic can be computed; a system with a service,
    two cloneable classes and a task maker is, and its sessions are safe. *)
From S2P Require Import Prelude Memory Str Repo LinkMap Repository RepoInv RepoContract RepoRegistry.
Set Default Goal Selector "!".

(** The extensions in the order in which they were loaded. *)
#[export] Instance load_order : ExtOrder := {| ext_order l := l; ext_order_perm l := reflexivity l |}.

Definition nobody : class := mkClass (mkInfo [] [] 0 0 0) [] [] [].

Section check.
Context (cl : gmap Z class) (rank : Z -> nat) (B : gmap base_key Z) (PB O : gmap Z Z) (CA : list Z) (EX : list extension).
Definition class_at (c : Z) : class := default nobody (cl !! c).
Definition class_of_entry (p : Z) : Z := default 0 (O !! p).
(** What the class [c] may ask for when it meets the entry [h] of class [c']. *)
Definition may_link (k : class) (h c' : Z) : bool :=
  existsb (fun l => ppi_base l && (bool_decide (lookup_name B (l_cname l) (l_iname l) = Some h) || lm_compare l (c_info (class_at c')))) (object_link k) ||
  existsb (fun x => match x with Request by_cname n _ _ => bool_decide ((if by_cname : bool then B !! key_cname n else B !! key_iname n) = Some h) | Release _ => false end)
    (on_init k ++ on_uninit k) ||
  (has (oflags (c_info k)) RF_TASK && bool_decide (B !! key_iname I_TASK_MAKER = Some h)).
Definition acyclic_b : bool :=
  bool_decide (map_Forall (fun h p => p <> 0 /\ is_Some (O !! p) /\ B !! key_pointer p = Some h /\
     (has (oflags (c_info (class_at (class_of_entry p)))) RF_CLONE = true -> B !! key_cname (cname (c_info (class_at (class_of_entry p)))) = Some h) /\
     map_Forall (fun c k => may_link k h (class_of_entry p) = true -> rank (class_of_entry p) < rank c)%nat cl) PB) &&
  bool_decide (map_Forall (fun k h => is_Some (PB !! h) /\ (k = key_pointer k.2 -> k.2 <> 0 -> PB !! h = Some k.2)) B) &&
  bool_decide (map_Forall (fun p _ => Exists (fun x => x.2 = p) (map_to_list PB)) O) &&
  bool_decide (Forall (fun h => is_Some (PB !! h)) (CA ++ concat (map ext_array EX))) &&
  bool_decide (map_Forall (fun _ k => (has (oflags (c_info k)) RF_CLONE = true -> has (oflags (c_info k)) RF_ORIGINAL = true -> length (on_init k ++ on_uninit k) = 0%nat) /\
     0 <= osize (c_info k) < 2 ^ 32 - 1) cl).

Lemma class_at_Some c : (exists k, cl !! c = Some k /\ class_at c = k) \/ class_at c = nobody.
Proof. unfold class_at. destruct (cl !! c) as [k|] eqn:E; [left; by exists k|by right]. Qed.
Lemma acyclic_b_ok : acyclic_b = true -> acyclic class_at rank B PB O CA EX.
Proof.
  unfold acyclic_b. rw !andb_true_iff !bool_decide_eq_true. intros [[[[HP HB] HO] HA] HC].
  assert (forall c k h p c', cl !! c = Some k -> PB !! h = Some p -> O !! p = Some c' -> may_link k h c' = true -> (rank c' < rank c)%nat) as Hlink.
  { intros c k h p c' Hk Hp Ho Hm. destruct (HP h p Hp) as (_ & _ & _ & _ & Hl). specialize (Hl c k Hk). cbn in Hl. unfold class_of_entry in Hl. rw Ho in Hl. by apply Hl. }
  split.
  - intros h p Hp. destruct (HP h p Hp) as (H1 & H2 & _). by split.
  - intros h p Hnz. split; [intros Hp; by destruct (HP h p Hp) as (_ & _ & H3 & _)|]. intros Hb. destruct (HB _ _ Hb) as [_ Hk]. by apply Hk.
  - intros k h Hb. by destruct (HB _ _ Hb).
  - intros p c Hp. pose proof (HO p c Hp) as He. apply Exists_exists in He as ([h q] & Hin & Eq). cbn in Eq. subst q. exists h. by apply elem_of_map_to_list in Hin.
  - intros h c (p & Hp & Hc) Hf. destruct (HP h p Hp) as (_ & _ & _ & H4 & _). unfold class_of_entry in H4. rw Hc in H4. by apply H4.
  - done.
  - intros c l h c' Hl Hb (p & Hp & Hc) Hn. destruct (class_at_Some c) as [(k & Hk & Ek)|E]; [|rw E in Hl; by apply not_elem_of_nil in Hl].
    eapply Hlink; [exact Hk|exact Hp|exact Hc|]. unfold may_link. rw !orb_true_iff. do 2 left. apply existsb_exists. exists l. rw Ek in Hl.
    split; [by apply list_elem_of_In|]. rw Hb. cbn. rw orb_true_iff bool_decide_eq_true. exact Hn.
  - intros c by_cname n fl m h c' Hl Hn (p & Hp & Hc). destruct (class_at_Some c) as [(k & Hk & Ek)|E]; [|rw E in Hl; by apply not_elem_of_nil in Hl].
    eapply Hlink; [exact Hk|exact Hp|exact Hc|]. unfold may_link. rw !orb_true_iff. left. right. apply existsb_exists. exists (Request by_cname n fl m). rw Ek in Hl.
    split; [by apply list_elem_of_In|]. by apply bool_decide_eq_true.
  - intros c h c' Hf Hn (p & Hp & Hc). unfold info in Hf. destruct (class_at_Some c) as [(k & Hk & Ek)|E]; [|by rw E in Hf].
    eapply Hlink; [exact Hk|exact Hp|exact Hc|]. unfold may_link. rw !orb_true_iff. right. rw Ek in Hf. rw Hf. by apply bool_decide_eq_true.
  - intros c H1 H2. unfold info in *. destruct (class_at_Some c) as [(k & Hk & Ek)|E]; [|by rw E]. rw Ek in H1, H2 |- *. destruct (HC c k Hk) as [H3 _].
    apply nil_length_inv. by apply H3.
  - intros c. unfold info. destruct (class_at_Some c) as [(k & Hk & Ek)|E]; [|by rw E]. rw Ek. by destruct (HC c k Hk).
Qed.
End check.

(** ** A plant: a log, a task maker, a pump that needs the log and runs as a
    task, and a station that asks for a pump when it is initialised *)
Module Plant.
Definition i_log := str "iLog".
Definition c_log := str "cLog".
Definition i_pump := str "iPump".
Definition c_pump := str "cPump".
Definition i_station := str "iStation".
Definition c_station := str "cStation".
Definition link_to (n : list Z) (flags : Z) : link_info := mkLink true None (Some n) flags true false.
Definition classes : gmap Z class := list_to_map [
  (1, mkClass (mkInfo i_log c_log 16 1 RF_ORIGINAL) [] [] []);
  (2, mkClass (mkInfo I_TASK_MAKER (str "cTaskMaker") 24 1 RF_ORIGINAL) [] [] []);
  (3, mkClass (mkInfo i_pump c_pump 32 1 (Z.lor RF_CLONE RF_TASK)) [link_to c_log RF_ORIGINAL] [] []);
  (4, mkClass (mkInfo i_station c_station 64 1 RF_CLONE) [link_to c_log RF_ORIGINAL] [Request true c_pump RF_CLONE 0] [Release 0])].
Definition rank (c : Z) : nat := if Z.eqb c 3 then 1%nat else if Z.eqb c 4 then 2%nat else 0%nat.
Definition originals : gmap Z Z := list_to_map [(201, 1); (202, 2); (203, 3); (204, 4)].
Definition array : list Z := [101; 102; 103; 104].
Definition bases : gmap Z Z := list_to_map (zip array [201; 202; 203; 204]).
Definition entries0 : gmap Z base_entry := (fun p => mkBase p 0 0) <$> bases.
Definition heap0 (n : nat) : Bump.t := Bump.mk ((fun _ => 64) <$> originals) 1000 n.
Definition cold (n : nat) : repo Bump.t := mkRepo ∅ entries0 originals ∅ ∅ ∅ ∅ ∅ 0 array [] [] (heap0 n) [].
Definition booted (n : nat) : repo Bump.t := match add_base_array (class_at classes) array (cold n) with Some (_, s) => s | None => cold n end.
(** Two pumps and a station; the first pump and the station go again. *)
Definition job : list request := [ByIname i_pump RF_CLONE; ByCname c_station RF_CLONE; ByHandle 103 RF_CLONE; Free 2; Free 1].

Lemma booted_registered : registered (base_map (booted 9)) bases originals array [] (booted 9).
Proof.
  split; try reflexivity.
  - intros h. assert (entries (booted 9) = entries0) as -> by reflexivity. unfold entries0. rw lookup_fmap. by destruct (bases !! h).
  - split; [done|]. intros p n Hp. assert (map_Forall (fun p _ => 0 < p < 1000) (Bump.live (rheap (booted 9)))) as Hf by (apply (bool_decide_unpack _); by vm_compute).
    exact (Hf p n Hp).
  - intros p [c Hc]. assert (map_Forall (fun p _ => is_Some (a_live (rheap (booted 9)) !! p)) originals) as Hf by (apply (bool_decide_unpack _); by vm_compute).
    exact (Hf p c Hc).
  - intros h e He. assert (map_Forall (fun _ e => 0 <= ref_cnt e <= 0) (entries (booted 9))) as Hf by (apply (bool_decide_unpack _); by vm_compute). exact (Hf h e He).
Qed.
Lemma plant_acyclic : acyclic (class_at classes) rank (base_map (booted 9)) bases originals array [].
Proof. apply acyclic_b_ok. by vm_compute. Qed.
Lemma plant_rank c : (rank c <= 2)%nat.
Proof. unfold rank. destruct (c =? 3), (c =? 4); lia. Qed.

Lemma session_safe_witness : registered (base_map (booted 9)) bases originals array [] (booted 9) /\
  exists F s', session (class_at classes) 7 [] job (booted 9) = Some (F, s') /\ well_held (class_at classes) F s'.
Proof.
  exact (conj booted_registered (session_safe (class_at classes) rank _ bases originals array [] plant_acyclic 2 plant_rank 7 job _ booted_registered ltac:(lia)
    (fun h fl Hin => ltac:(unfold job in Hin; rw !elem_of_cons in Hin; destruct Hin as [E|[E|[E|[E|[E|E]]]]]; [discriminate|discriminate|injection E as -> _; by eexists|discriminate|discriminate|by apply not_elem_of_nil in E])))).
Defined.

(** *** A second image: a newer log, and a valve *)
Definition image2 : list Z := [105; 106].
Definition classes2 : gmap Z class :=
  <[5 := mkClass (mkInfo i_log c_log 16 2 RF_ORIGINAL) [] [] []]> (<[6 := mkClass (mkInfo (str "iValve") (str "cValve") 8 1 RF_CLONE) [] [] []]> classes).
Definition loaded2 : repo Bump.t :=
  set_objs (<[205 := 5]> (<[206 := 6]> (objs (booted 9)))) (set_entries (<[105 := mkBase 205 0 0]> (<[106 := mkBase 206 0 0]> (entries (booted 9)))) (booted 9)).
Lemma registry_newest_witness : base_map loaded2 !! key_iname i_log = Some 101 /\
  exists m, add_base_array (class_at classes2) image2 loaded2 = Some (tt, set_base_map m loaded2) /\
    forall k h, m !! k = Some h <-> newest (info_at (class_at classes2) loaded2) k
      (candidates (info_at (class_at classes2) loaded2) (base_at loaded2) image2 (base_map loaded2) k) h.
Proof.
  exact (conj eq_refl (registry_newest (class_at classes2) loaded2 eq_refl image2 ltac:(apply (bool_decide_unpack _); by vm_compute)
    ltac:(apply (bool_decide_unpack _); by vm_compute) ltac:(repeat (apply Forall_cons; split; [by split|]); apply Forall_nil; exact I))).
Defined.
Example registry_newest_log : (s ← (fun s => add_base_array (class_at classes2) image2 s); find_object_by_iname i_log) loaded2 ≫= (fun r => r.1) = Some 105.
Proof. by vm_compute. Qed.
Lemma registry_roundtrip_witness : (add_base_array (class_at classes2) [106];; remove_base_array (class_at classes2) [106]) loaded2 = Some (tt, loaded2).
Proof.
  exact (registry_roundtrip (class_at classes2) loaded2 eq_refl [106] ltac:(apply (bool_decide_unpack _); by vm_compute) ltac:(apply (bool_decide_unpack _); by vm_compute)
    ltac:(apply Forall_cons; split; [intros k Hk; unfold keys_of in Hk; rw !elem_of_cons in Hk; destruct Hk as [->|[->|[->|Hk]]]; [by vm_compute|by vm_compute|by vm_compute|by apply not_elem_of_nil in Hk]|apply Forall_nil; exact I])).
Defined.
End Plant.
