(* ===== verification/RepoDefects.v ===== *)
(** * Repository: what its contract does not promise
    (core/repository-2/repository.cpp, link_map.cpp, dcs.cpp, base_array.cpp;
    core/interface/iBase.h)

    Scenarios on small systems: links in a circle, clones of one class that have
    links, a request that fails half way, an object that waits for another. *)
From S2P Require Import Prelude Memory Str Repo LinkMap Repository RepoInv RepoContract RepoRegistry RepoPlant.
Set Default Goal Selector "!".

(** ** Links in a circle *)
Module Ring.
Definition link_to (n : list Z) : link_info := mkLink true None (Some n) RF_ORIGINAL false false.
Definition cls (c : Z) : class :=
  if c =? 1 then mkClass (mkInfo (str "iHen") (str "cHen") 8 1 RF_ORIGINAL) [link_to (str "cEgg")] [] []
  else mkClass (mkInfo (str "iEgg") (str "cEgg") 8 1 RF_ORIGINAL) [link_to (str "cHen")] [] [].
Definition array : list Z := [101; 102].
Definition cold : repo Bump.t :=
  mkRepo ∅ (list_to_map [(101, mkBase 201 0 0); (102, mkBase 202 0 0)]) (list_to_map [(201, 1); (202, 2)]) ∅ ∅ ∅ ∅ ∅ 0 array [] [] (Bump.empty 1000 9) [].
Definition s0 : repo Bump.t := match add_base_array cls array cold with Some (_, s) => s | None => cold end.

Lemma bind_step {S X Y} (m : M S X) (k : X -> M S Y) s x s' : m s = Some (x, s') -> k x s' = None -> (m ≫= k) s = None.
Proof. unfold mbind, M_bind. by intros ->. Qed.
Lemma bind_none {S X Y} (m : M S X) (k : X -> M S Y) s : m s = None -> (m ≫= k) s = None.
Proof. unfold mbind, M_bind. by intros ->. Qed.

Definition other (p : Z) : Z := if p =? 201 then 102 else 101.
Lemma init_stuck f p : p = 201 \/ p = 202 -> object_by_handle cls f (Some (other p)) RF_ORIGINAL s0 = None -> init_object cls (S f) p s0 = None.
Proof.
  intros Hp Hf. cbn [init_object].
  eapply bind_step with (x := 0) (s' := s0); [destruct Hp as [-> | ->]; by vm_compute|].
  change (has 0 ST_INITIALIZED) with false. cbn match.
  eapply bind_step with (x := tt) (s' := s0); [destruct Hp as [-> | ->]; by vm_compute|]. apply bind_none. unfold lm_init, on_links.
  destruct Hp as [-> | ->].
  - eapply bind_step with (x := (1, [link_to (str "cEgg")])) (s' := s0); [by vm_compute|]. cbn [walk]. apply bind_none.
    eapply bind_step with (x := 0) (s' := s0); [by vm_compute|]. cbn -[object_by_handle object_request]. apply bind_none.
    eapply bind_step with (x := Some 102) (s' := s0); [by vm_compute|]. exact Hf.
  - eapply bind_step with (x := (2, [link_to (str "cHen")])) (s' := s0); [by vm_compute|]. cbn [walk]. apply bind_none.
    eapply bind_step with (x := 0) (s' := s0); [by vm_compute|]. cbn -[object_by_handle object_request]. apply bind_none.
    eapply bind_step with (x := Some 101) (s' := s0); [by vm_compute|]. exact Hf.
Qed.
(** Neither object is ever ready: each waits for the other to be initialised. *)
Theorem circle_never_returns fuel h : h = 101 \/ h = 102 -> object_by_handle cls fuel (Some h) RF_ORIGINAL s0 = None.
Proof.
  revert h. induction (lt_wf fuel) as [fuel _ IH]. intros h Hh. destruct fuel as [|f]; [done|]. cbn [object_by_handle].
  assert (forall p, p = 201 \/ p = 202 -> init_object cls f p s0 = None) as Hinit.
  { intros p Hp. destruct f as [|f]; [done|]. apply init_stuck; [done|]. apply IH; [lia|]. destruct Hp as [-> | ->]; [by right|by left]. }
  destruct Hh as [-> | ->].
  - eapply bind_step with (x := mkBase 201 0 0) (s' := s0); [by vm_compute|]. eapply bind_step with (x := c_info (cls 1)) (s' := s0); [by vm_compute|].
    cbn -[init_object]. apply bind_none, Hinit. by left.
  - eapply bind_step with (x := mkBase 202 0 0) (s' := s0); [by vm_compute|]. eapply bind_step with (x := c_info (cls 2)) (s' := s0); [by vm_compute|].
    cbn -[init_object]. apply bind_none, Hinit. by right.
Qed.
End Ring.

(** ** Clones share the pointers of their class *)
Definition client_state {A} (r : option (list Z * repo A)) : option (list Z * list (Z * nat * Z) * list (Z * base_entry)) :=
  (fun x => (x.1, map_to_list (slots x.2), map_to_list (entries x.2))) <$> r.
(** Two pumps are taken and the first is released: the log link of the other,
    which is critical, is empty, and the log counts a user that is gone. *)
Example clones_share_links :
  match session (class_at Plant.classes) 9 [] [ByIname Plant.i_pump RF_CLONE; ByIname Plant.i_pump RF_CLONE; Free 1] (Plant.booted 9) with
  | Some (F, s) => (exists p, F = [p] /\ ready s p) /\ slots s !! (3, 0%nat) = None /\ ref_cnt <$> entries s !! 101 = Some 1
  | None => False
  end.
Proof.
  vm_compute. split; [|by split]. eexists. split; [done|]. left. by eexists.
Qed.

(** ** A request that fails half way *)
Module Half.
(** A press needs the log and a motor that nobody provides. *)
Definition classes : gmap Z class :=
  <[7 := mkClass (mkInfo (str "iPress") (str "cPress") 8 1 RF_CLONE) [Plant.link_to Plant.c_log RF_ORIGINAL; Plant.link_to (str "cMotor") RF_ORIGINAL] [] []]> Plant.classes.
Definition s0 : repo Bump.t :=
  let s := set_objs (<[207 := 7]> (objs (Plant.booted 9))) (set_entries (<[107 := mkBase 207 0 0]> (entries (Plant.booted 9))) (Plant.booted 9)) in
  match add_base_array (class_at classes) [107] s with Some (_, s) => s | None => s end.
(** Nothing is handed out, and every attempt leaves one more count on the log. *)
Example attempts_leak :
  match session (class_at classes) 9 [] [ByCname (str "cPress") RF_CLONE; ByCname (str "cPress") RF_CLONE; ByCname (str "cPress") RF_CLONE] s0 with
  | Some (F, s) => F = [] /\ ref_cnt <$> entries s !! 101 = Some 3
  | None => False
  end.
Proof. by vm_compute. Qed.
End Half.

(** ** An object that waits *)
Module Late.
(** A gauge can do without the valve and takes it when it comes. *)
Definition gauge : class := mkClass (mkInfo (str "iGauge") (str "cGauge") 8 1 RF_ORIGINAL)
  [mkLink true None (Some (str "cValve")) (Z.lor RF_ORIGINAL RF_NOCRITICAL) false false] [] [].
Definition valve : class := mkClass (mkInfo (str "iValve") (str "cValve") 8 1 RF_ORIGINAL) [] [] [].
Definition cls (c : Z) : class := if c =? 1 then gauge else valve.
Definition iter (x : gset Z) : list Z := elements x.
Definition cold : repo Bump.t :=
  mkRepo ∅ (list_to_map [(101, mkBase 201 0 0); (102, mkBase 202 0 0)]) (list_to_map [(201, 1); (202, 2)]) ∅ ∅ ∅ ∅ ∅ 0 [101] [] [] (Bump.empty 1000 9) [].
Definition waiting : option (repo Bump.t) := snd <$> (add_base_array cls [101];; init_object cls 9 201) cold.
Example gauge_waits : elements <$> (ms_pending <$> waiting) = Some [201].
Proof. by vm_compute. Qed.
(** The next entry - its own - is no valve, but nothing that the link map answers
    says that a pointer is still missing... *)
Example nothing_missing : (waiting ≫= fun s => lm_post_init cls 201 101 (fun h flags => object_by_handle cls 9 (Some h) flags) s) ≫= (fun r => Some (r.1, slots r.2 !! (1, 0%nat)))
  = Some (PLMR_READY, None).
Proof. by vm_compute. Qed.
(** ...so that the gauge is erased from the set of those that wait, and the
    enumeration goes on from the iterator that was erased. *)
Example iterator_erased : init_array cls iter 9 [101] cold = None.
Proof. by vm_compute. Qed.
End Late.

(** ** A newer version goes away *)
(** The older log is still loaded, and is not found by its names any more. *)
Example newer_hides_older :
  match (add_base_array (class_at Plant.classes2) [105];; remove_base_array (class_at Plant.classes2) [105]) Plant.loaded2 with
  | Some (_, s) => base_map s !! key_iname Plant.i_log = None /\ base_map s !! key_cname Plant.c_log = None /\ base_map s !! key_pointer 201 = Some 101
  | None => False
  end.
Proof. by vm_compute. Qed.
