(* ===== verification/RingBuffer.v ===== *)
(** * Ring buffer (core/mem/rb_alg.c, core/mem/rbuffer.cpp)

    Messages with a 16-bit size in front of them, in one block.  The block is the
    list of its bytes; a position is read and written where it lies in the block,
    anything else is undefined.  The methods of [cRingBuffer] pass the calls on;
    its mutex is Mutex.v's. *)
From S2P Require Import Prelude Memory Mutex.
Set Default Goal Selector "!".

Definition INVALID_PULL_POSITION : Z := 4294967295.
Record rb_context {A : Type} := mkRb {
  rb_addr : Z; rb_size : Z; rb_first : Z; rb_last : Z; rb_pull : Z;
  rb_mem : list Z;   (* the bytes at [rb_addr] *)
  rb_heap : A
}.
Arguments rb_context : clear implicits.
Arguments mkRb {A}.

Section ring.
Context {A : Type} `{Allocator A}.
Abbreviation RB := (M (rb_context A)).
Definition set_first x (s : rb_context A) := mkRb (rb_addr s) (rb_size s) x (rb_last s) (rb_pull s) (rb_mem s) (rb_heap s).
Definition set_last x (s : rb_context A) := mkRb (rb_addr s) (rb_size s) (rb_first s) x (rb_pull s) (rb_mem s) (rb_heap s).
Definition set_pull x (s : rb_context A) := mkRb (rb_addr s) (rb_size s) (rb_first s) (rb_last s) x (rb_mem s) (rb_heap s).
Definition set_mem x (s : rb_context A) := mkRb (rb_addr s) (rb_size s) (rb_first s) (rb_last s) (rb_pull s) x (rb_heap s).

(** ** Bytes *)
Definition load (pos : Z) : RB Z := m ← gets rb_mem; lift_opt (m !! Z.to_nat pos).
Definition store (pos b : Z) : RB unit := _ ← load pos; modify (fun s => set_mem (<[Z.to_nat pos := b]> (rb_mem s)) s).
(** [((_rb_msg_t* )(rb_addr + pos))->size] *)
Definition msg_size (pos : Z) : RB Z := lo ← load pos; hi ← load (pos + 1); mret (lo + 256 * hi).
Definition set_msg_size (pos n : Z) : RB unit := store pos (n mod 256);; store (pos + 1) (n / 256).
Fixpoint copy_in (pos : Z) (data : list Z) : RB unit :=
  match data with [] => mret tt | b :: data => store pos b;; copy_in (pos + 1) data end.
Fixpoint copy_out (pos : Z) (n : nat) : RB (list Z) :=
  match n with O => mret [] | S n => b ← load pos; l ← copy_out (pos + 1) n; mret (b :: l) end.

(** ** Operations *)
Definition rb_init (capacity : Z) : RB unit := fun s =>
  if rb_addr s =? 0 then
    let '(p, a) := a_alloc (rb_heap s) capacity in
    Some (tt, if p =? 0 then mkRb 0 (rb_size s) (rb_first s) (rb_last s) (rb_pull s) (rb_mem s) a
              else mkRb p capacity (rb_last s) (rb_last s) INVALID_PULL_POSITION (replicate (Z.to_nat capacity) 0) a)
  else Some (tt, s).
Definition rb_destroy : RB unit := fun s =>
  if rb_addr s =? 0 then Some (tt, s)
  else Some (tt, mkRb 0 0 (rb_first s) (rb_last s) (rb_pull s) [] (a_free (rb_heap s) (rb_addr s) (rb_size s))).

(** The position after the message at [pos]; the start, at the end. *)
Definition next_of (pos : Z) : RB Z := n ← msg_size pos; sz ← gets rb_size; mret (if u32 (pos + n) <? sz then pos + n else 0).
Definition skip_first : RB unit := f ← gets rb_first; f ← next_of f; modify (set_first f).
Definition skip_last : RB unit := l ← gets rb_last; l ← next_of l; modify (set_last l).
Definition skip_pull : RB unit :=
  p ← gets rb_pull;
  when (negb (p =? INVALID_PULL_POSITION))
    (l ← gets rb_last; n ← msg_size l;
     when (negb (p =? u32 (l + n))) (p ← next_of p; modify (set_pull p))).

(** [while(rb_first && rb_last + p_last->size + nsz >= rb_first)] *)
Fixpoint make_room (fuel : nat) (p_last nsz : Z) : RB unit :=
  match fuel with
  | O => undefined
  | S fuel =>
      f ← gets rb_first; l ← gets rb_last;
      if f =? 0 then mret tt else
      n ← msg_size p_last;
      if f <=? u32 (l + n + nsz) then skip_first;; make_room fuel p_last nsz else mret tt
  end.
Definition push (fuel : nat) (data : list Z) (sz : Z) : RB unit :=
  a ← gets rb_addr;
  when (negb (a =? 0))
    (p_last ← gets rb_last;
     n ← msg_size p_last;
     let nsz := u16 (sz + 2) in
     f ← gets rb_first; cap ← gets rb_size;
     '(p_last, p_new) ←
       (if (f <? p_last) && (cap <? u32 (p_last + n + nsz)) then
          set_msg_size p_last (u16 (n + u32 (cap - p_last)));;
          skip_first;; skip_last;;
          l ← gets rb_last; mret (l, l)
        else mret (p_last, u32 (p_last + n)));
     f ← gets rb_first; l ← gets rb_last;
     when (l <? f) (make_room fuel p_last nsz);;
     set_msg_size p_new nsz;;
     copy_in (p_new + 2) (take (Z.to_nat sz) data);;
     when (negb (p_new =? p_last)) skip_last;;
     p ← gets rb_pull;
     when (p =? INVALID_PULL_POSITION) (l ← gets rb_last; modify (set_pull l))).
(** The position of the data and [*psz]; [None] is NULL. *)
Definition pull : RB (option (Z * Z)) :=
  a ← gets rb_addr;
  if a =? 0 then mret None else
  p ← gets rb_pull;
  if p =? INVALID_PULL_POSITION then mret None else
  n ← msg_size p;
  skip_pull;;
  l ← gets rb_last;
  when (p =? l) (modify (set_pull INVALID_PULL_POSITION));;
  mret (Some (p + 2, n)).
Definition reset_pull : RB unit := f ← gets rb_first; modify (set_pull f).

(** The entry points, between [lock(0)] and [unlock]. *)
Definition rb_push_locked (fuel : nat) (data : list Z) (sz : Z) : M (mutex * rb_context A) unit := guarded 0 (push fuel data sz).
Definition rb_pull_locked : M (mutex * rb_context A) (option (Z * Z)) := guarded 0 pull.
Definition rb_reset_locked : M (mutex * rb_context A) unit := guarded 0 reset_pull.
Definition rb_destroy_locked : M (mutex * rb_context A) unit := fun s => if rb_addr s.2 =? 0 then Some (tt, s) else guarded 0 rb_destroy s.
End ring.

(** ** A queue, until the end of the block *)
Definition enc (d : list Z) : list Z := let n := Z.of_nat (length d) + 2 in [n mod 256; n / 256] ++ d.
Definition encs (ms : list (list Z)) : list Z := concat (map enc ms).
Definition len (l : list Z) : Z := Z.of_nat (length l).
(** What a client does, and what it reads. *)
Inductive rop := Push (d : list Z) | Pull | Reset.
Definition spec_op (o : rop) (q : list (list Z) * nat) : option (list Z) * (list (list Z) * nat) :=
  let '(ms, k) := q in
  match o with
  | Push d => (None, (ms ++ [d], k))
  | Pull => match ms !! k with Some d => (Some d, (ms, S k)) | None => (None, (ms, k)) end
  | Reset => (None, (ms, 0%nat))
  end.
Fixpoint spec_ops (l : list rop) (q : list (list Z) * nat) : list (option (list Z)) * (list (list Z) * nat) :=
  match l with [] => ([], q) | o :: l => let '(r, q) := spec_op o q in let '(rs, q) := spec_ops l q in (r :: rs, q) end.
(** The messages are bytes and fit with their sizes; nothing is reset before the first. *)
Fixpoint fits (cap : Z) (l : list rop) (q : list (list Z) * nat) : Prop :=
  match l with
  | [] => True
  | o :: l =>
      match o with Push d => len d + 2 < 2 ^ 16 /\ len (encs (q.1 ++ [d])) <= cap | Pull => True | Reset => q.1 <> [] end /\ fits cap l (spec_op o q).2
  end.

Section queue.
Context {A : Type} `{Allocator A}.
Abbreviation RB := (M (rb_context A)).
Implicit Types s : rb_context A.
(** One call of a client.  The size that [pull] stores counts the two bytes of the
    size itself, so a client that wants the data copies [n - 2] bytes. *)
Definition run_op (fuel : nat) (o : rop) : RB (option (list Z)) :=
  match o with
  | Push d => push fuel d (len d);; mret None
  | Pull => r ← pull; match r with Some (p, n) => l ← copy_out p (Z.to_nat (n - 2)); mret (Some l) | None => mret None end
  | Reset => reset_pull;; mret None
  end.
Fixpoint run_ops (fuel : nat) (l : list rop) : RB (list (option (list Z))) :=
  match l with [] => mret [] | o :: l => r ← run_op fuel o; rs ← run_ops fuel l; mret (r :: rs) end.

(** The bytes of a ring whose messages lie one after another from the start; and
    with it the three positions. *)
Record layout (cap : Z) (ms : list (list Z)) (s : rb_context A) : Prop := {
  sr_addr : rb_addr s <> 0;
  sr_size : rb_size s = cap;
  sr_cap : 0 <= cap < 2 ^ 31;
  sr_len : len (rb_mem s) = cap;
  sr_mem : exists rest, rb_mem s = encs ms ++ rest /\ (ms = [] -> 2 <= cap -> exists r, rest = [0; 0] ++ r);
  sr_first : rb_first s = 0;
  sr_small : Forall (fun d => len d + 2 < 2 ^ 16) ms
}.
Record straight (cap : Z) (ms : list (list Z)) (k : nat) (s : rb_context A) : Prop := {
  sr_layout : layout cap ms s;
  sr_last : rb_last s = len (encs (removelast ms));
  sr_pull : rb_pull s = if (k <? length ms)%nat then len (encs (take k ms)) else INVALID_PULL_POSITION;
  sr_k : (k <= length ms)%nat
}.

Lemma wp_rb_load s pos pre b post (Q : Z -> rb_context A -> Prop) : rb_mem s = pre ++ b :: post -> len pre = pos -> Q b s -> wp (load pos) s Q.
Proof.
  intros Hm Hp HQ. unfold load. apply wp_bind, wp_gets. eapply wp_lift_opt; [|exact HQ]. rw Hm. unfold len in Hp. by rw -Hp Nat2Z.id list_lookup_middle.
Qed.
Lemma wp_rb_store s pos pre b b' post (Q : unit -> rb_context A -> Prop) : rb_mem s = pre ++ b :: post -> len pre = pos ->
  Q tt (set_mem (pre ++ b' :: post) s) -> wp (store pos b') s Q.
Proof.
  intros Hm Hp HQ. unfold store. apply wp_bind. eapply wp_rb_load; [exact Hm|exact Hp|]. apply wp_modify. unfold len in Hp. rw Hm -Hp Nat2Z.id.
  by rw insert_app_r_alt // Nat.sub_diag.
Qed.
Lemma len_app l1 l2 : len (l1 ++ l2) = len l1 + len l2.
Proof. unfold len. rw length_app. lia. Qed.
Lemma len_cons b l : len (b :: l) = 1 + len l.
Proof. unfold len. cbn [length]. lia. Qed.
Lemma len_pos l : 0 <= len l.
Proof. unfold len. lia. Qed.
Lemma wp_copy_in s pos pre mid post data (Q : unit -> rb_context A -> Prop) : rb_mem s = pre ++ mid ++ post -> len pre = pos -> length mid = length data ->
  Q tt (set_mem (pre ++ data ++ post) s) -> wp (copy_in pos data) s Q.
Proof.
  revert s pos pre mid. induction data as [|b data IH]; intros s pos pre mid Hm Hp Hl HQ.
  - destruct mid; [|done]. apply wp_ret. replace s with (set_mem (pre ++ [] ++ post) s); [done|]. by rw -Hm; destruct s.
  - destruct mid as [|b0 mid]; [done|]. cbn [copy_in]. apply wp_bind. eapply wp_rb_store; [exact Hm|exact Hp|].
    eapply (IH _ _ (pre ++ [b]) mid); [by rw -app_assoc|rw len_app -Hp; done|by injection Hl|]. by rw -app_assoc.
Qed.
Lemma wp_set_size s pos pre b1 b2 post n (Q : unit -> rb_context A -> Prop) : rb_mem s = pre ++ b1 :: b2 :: post -> len pre = pos ->
  Q tt (set_mem (pre ++ [n mod 256; n / 256] ++ post) s) -> wp (set_msg_size pos n) s Q.
Proof.
  intros Hm Hp HQ. unfold set_msg_size. apply wp_bind. eapply wp_rb_store; [exact Hm|exact Hp|].
  eapply (wp_rb_store _ _ (pre ++ [n mod 256])); [by rw -app_assoc|rw len_app -Hp; done|]. by rw -app_assoc.
Qed.
Lemma wp_msg_size s pos pre n post (Q : Z -> rb_context A -> Prop) : rb_mem s = pre ++ [n mod 256; n / 256] ++ post -> len pre = pos -> Q n s -> wp (msg_size pos) s Q.
Proof.
  intros Hm Hp HQ. unfold msg_size. apply wp_bind. eapply wp_rb_load; [exact Hm|exact Hp|]. apply wp_bind.
  eapply (wp_rb_load _ _ (pre ++ [n mod 256])); [rw Hm; by rw -app_assoc|rw len_app -Hp; done|]. apply wp_ret.
  replace (n mod 256 + 256 * (n / 256)) with n; [done|]. pose proof (Z.div_mod n 256). lia.
Qed.
Lemma wp_copy_out s pos pre data post (Q : list Z -> rb_context A -> Prop) : rb_mem s = pre ++ data ++ post -> len pre = pos -> Q data s -> wp (copy_out pos (length data)) s Q.
Proof.
  revert pos pre Q. induction data as [|b data IH]; intros pos pre Q Hm Hp HQ; [by apply wp_ret|]. cbn [length copy_out]. apply wp_bind. eapply wp_rb_load; [exact Hm|exact Hp|].
  apply wp_bind. eapply (IH _ (pre ++ [b])); [rw Hm; by rw -app_assoc|rw len_app -Hp; done|]. by apply wp_ret.
Qed.

Lemma encs_app a b : encs (a ++ b) = encs a ++ encs b.
Proof. unfold encs. by rw map_app concat_app. Qed.
Lemma encs_one d : encs [d] = enc d.
Proof. unfold encs. cbn. by rw app_nil_r. Qed.
Lemma len_enc d : len (enc d) = len d + 2.
Proof. unfold enc, len. rw length_app. cbn [length]. lia. Qed.
Lemma encs_split ms k d : ms !! k = Some d -> encs ms = encs (take k ms) ++ enc d ++ encs (drop (S k) ms).
Proof.
  intros Hk. rw -{1}(take_drop_middle ms k d Hk) encs_app. change (d :: drop (S k) ms) with ([d] ++ drop (S k) ms). by rw encs_app encs_one.
Qed.
Lemma encs_take_S ms k d : ms !! k = Some d -> len (encs (take (S k) ms)) = len (encs (take k ms)) + (len d + 2).
Proof. intros Hk. by rw (take_S_r _ _ _ Hk) encs_app encs_one len_app len_enc. Qed.
Lemma encs_last ms d : ms !! pred (length ms) = Some d -> len (encs ms) = len (encs (removelast ms)) + (len d + 2).
Proof.
  intros Hd. destruct ms as [|m ms' _] using rev_ind; [done|]. rw removelast_last encs_app encs_one len_app len_enc.
  rewrite length_app Nat.add_comm /= in Hd. rewrite list_lookup_middle in Hd; [by injection Hd as <-|done].
Qed.
Lemma encs_take_le ms k : len (encs (take k ms)) <= len (encs ms).
Proof. rw -{2}(take_drop k ms) encs_app len_app. pose proof (len_pos (encs (drop k ms))). lia. Qed.
Lemma take_removelast (ms : list (list Z)) : take (pred (length ms)) ms = removelast ms.
Proof. destruct ms as [|m ms' _] using rev_ind; [done|]. by rw removelast_last length_app Nat.add_comm /= take_app_length. Qed.

(** The message [k] of a ring: where it lies and how large it is. *)
Lemma layout_at cap ms s k d (Q : Z -> rb_context A -> Prop) : layout cap ms s -> ms !! k = Some d -> Q (len d + 2) s ->
  wp (msg_size (len (encs (take k ms)))) s Q.
Proof.
  intros Hs Hk HQ. destruct (sr_mem _ _ _ Hs) as (rest & Hm & _). eapply (wp_msg_size _ _ (encs (take k ms)) _ (d ++ encs (drop (S k) ms) ++ rest)); [|done|exact HQ].
  rw Hm (encs_split ms k d Hk). unfold enc, len. by rw -!app_assoc.
Qed.
Lemma layout_total cap ms s : layout cap ms s -> len (encs ms) <= cap.
Proof. intros Hs. destruct (sr_mem _ _ _ Hs) as (rest & Hm & _). rw -(sr_len _ _ _ Hs) Hm len_app. pose proof (len_pos rest). lia. Qed.
Lemma layout_next cap ms s k d (Q : Z -> rb_context A -> Prop) : layout cap ms s -> ms !! k = Some d ->
  Q (if len (encs (take (S k) ms)) <? cap then len (encs (take (S k) ms)) else 0) s -> wp (next_of (len (encs (take k ms)))) s Q.
Proof.
  intros Hs Hk HQ. unfold next_of. apply wp_bind. eapply layout_at; [exact Hs|exact Hk|]. apply wp_bind, wp_gets, wp_ret.
  rw (sr_size _ _ _ Hs) u32_small.
  - by rw -(encs_take_S ms k d Hk).
  - pose proof (layout_total _ _ _ Hs) as Ht. pose proof (sr_cap _ _ _ Hs). pose proof (len_pos (encs (take k ms))). pose proof (len_pos d).
    pose proof (encs_take_le ms (S k)) as Hle. rewrite (encs_take_S ms k d Hk) in Hle. lia.
Qed.

(** *** The operations on it *)
Lemma straight_set_pull cap ms k k' s x : straight cap ms k s -> (k' <= length ms)%nat ->
  x = (if (k' <? length ms)%nat then len (encs (take k' ms)) else INVALID_PULL_POSITION) -> straight cap ms k' (set_pull x s).
Proof. by intros [[] ??] ? ->. Qed.
Lemma wp_pull cap ms k s d (Q : option (Z * Z) -> rb_context A -> Prop) : straight cap ms k s -> ms !! k = Some d ->
  (forall s', straight cap ms (S k) s' -> Q (Some (len (encs (take k ms)) + 2, len d + 2)) s') -> wp pull s Q.
Proof.
  intros Hs Hk HQ. pose proof (sr_layout _ _ _ _ Hs) as Hy. pose proof (lookup_lt_Some _ _ _ Hk) as Hlt. pose proof (layout_total _ _ _ Hy) as Ht. pose proof (sr_cap _ _ _ Hy) as Hc.
  destruct (lookup_lt_is_Some_2 ms (pred (length ms)) ltac:(lia)) as [dl Hl].
  pose proof (encs_last _ _ Hl) as El. pose proof (encs_take_S _ _ _ Hk) as Ek. pose proof (len_pos d) as Pd. pose proof (len_pos dl) as Pl.
  pose proof (len_pos (encs (take k ms))) as P1. pose proof (len_pos (encs (removelast ms))) as P2. pose proof (encs_take_le ms (S k)) as Hle.
  assert (rb_pull s = len (encs (take k ms))) as Ep by (rw (sr_pull _ _ _ _ Hs); by rw (proj2 (Nat.ltb_lt _ _) Hlt)).
  assert ((len (encs (take k ms)) =? INVALID_PULL_POSITION) = false) as Ei by (apply Z.eqb_neq; unfold INVALID_PULL_POSITION; lia).
  unfold pull. apply wp_bind, wp_gets. rw (proj2 (Z.eqb_neq _ _) (sr_addr _ _ _ Hy)). apply wp_bind, wp_gets. rw Ep Ei.
  apply wp_bind. eapply layout_at; [exact Hy|exact Hk|]. apply wp_bind. unfold skip_pull. apply wp_bind, wp_gets. rw Ep Ei. cbn [negb when].
  apply wp_bind, wp_gets. rw (sr_last _ _ _ _ Hs) -take_removelast. apply wp_bind. eapply layout_at; [exact Hy|exact Hl|].
  rewrite take_removelast -El (u32_small (len (encs ms))); [|lia]. rw (proj2 (Z.eqb_neq (len (encs (take k ms))) (len (encs ms)))); [|lia]. cbn [negb when].
  apply wp_bind. eapply layout_next; [exact Hy|exact Hk|]. apply wp_modify.
  apply wp_bind, wp_gets. apply wp_bind. cbn [rb_last set_pull]. rw (sr_last _ _ _ _ Hs).
  destruct (decide (S k = length ms)) as [E|E].
  - rewrite -take_removelast. replace (pred (length ms)) with k by lia. rw Z.eqb_refl. apply wp_modify, wp_ret, HQ. apply (straight_set_pull cap ms k (S k) s); [done|lia|].
    by rw (proj2 (Nat.ltb_ge (S k) _)); [|lia].
  - pose proof (encs_take_le (take (pred (length ms)) ms) (S k)) as Hle'. rewrite take_take Nat.min_l in Hle'; [|lia]. rewrite take_removelast in Hle'.
    rewrite (proj2 (Z.eqb_neq _ _)); [|lia]. cbn [when]. apply wp_ret, wp_ret, HQ. apply (straight_set_pull cap ms k (S k) s); [done|lia|].
    rw (proj2 (Nat.ltb_lt (S k) _)); [|lia]. destruct (lookup_lt_is_Some_2 ms (S k) ltac:(lia)) as [d' Hk'].
    pose proof (encs_take_S _ _ _ Hk') as Ek'. pose proof (encs_take_le ms (S (S k))) as Hle2. pose proof (len_pos d'). by rw (proj2 (Z.ltb_lt (len (encs (take (S k) ms))) cap)); [|lia].
Qed.
Lemma wp_pull_none cap ms s (Q : option (Z * Z) -> rb_context A -> Prop) : straight cap ms (length ms) s -> Q None s -> wp pull s Q.
Proof.
  intros Hs HQ. unfold pull. apply wp_bind, wp_gets. rw (proj2 (Z.eqb_neq _ _) (sr_addr _ _ _ (sr_layout _ _ _ _ Hs))). apply wp_bind, wp_gets.
  by rw (sr_pull _ _ _ _ Hs) Nat.ltb_irrefl.
Qed.
Lemma wp_reset cap ms k s (Q : unit -> rb_context A -> Prop) : straight cap ms k s -> ms <> [] -> (forall s', straight cap ms 0 s' -> Q tt s') -> wp reset_pull s Q.
Proof.
  intros Hs Hn HQ. unfold reset_pull. apply wp_bind, wp_gets, wp_modify, HQ. apply (straight_set_pull cap ms k 0 s); [done|lia|].
  rw (sr_first _ _ _ (sr_layout _ _ _ _ Hs)). by destruct ms.
Qed.

(** The message written last ends where the next one begins. *)
Lemma layout_last cap ms s (Q : Z -> rb_context A -> Prop) : layout cap ms s -> 2 <= cap ->
  Q (len (encs ms) - len (encs (removelast ms))) s -> wp (msg_size (len (encs (removelast ms)))) s Q.
Proof.
  intros Hy Hc HQ. destruct ms as [|m ms' _] using rev_ind.
  - destruct (sr_mem _ _ _ Hy) as (rest & Hm & Hz). destruct (Hz eq_refl Hc) as [r ->]. eapply (wp_msg_size _ _ [] 0 r); [exact Hm|done|exact HQ].
  - assert ((ms' ++ [m]) !! pred (length (ms' ++ [m])) = Some m) as Hl by (rw length_app Nat.add_comm /= list_lookup_middle //).
    rw -take_removelast. eapply layout_at; [exact Hy|exact Hl|]. rewrite (encs_last _ _ Hl) Z.add_simpl_l in HQ. exact HQ.
Qed.
(** Writing a message behind the others. *)
Lemma wp_append cap ms s d (K : RB unit) (Q : unit -> rb_context A -> Prop) : layout cap ms s -> len d + 2 < 2 ^ 16 -> len (encs (ms ++ [d])) <= cap ->
  (forall m, layout cap (ms ++ [d]) (set_mem m s) -> wp K (set_mem m s) Q) ->
  wp (set_msg_size (len (encs ms)) (len d + 2);; copy_in (len (encs ms) + 2) d;; K) s Q.
Proof.
  intros Hy Hd Hf HQ. destruct (sr_mem _ _ _ Hy) as (rest & Hm & _). pose proof (sr_len _ _ _ Hy) as Hl. rewrite Hm len_app in Hl.
  rewrite encs_app encs_one len_app len_enc in Hf. unfold len in Hl, Hf.
  destruct rest as [|b1 [|b2 rest]]; cbn [length] in Hl; [lia|lia|].
  assert (length d <= length rest)%nat as Hr by lia. apply wp_bind. eapply wp_set_size; [exact Hm|done|]. apply wp_bind.
  eapply (wp_copy_in _ _ (encs ms ++ [(len d + 2) mod 256; (len d + 2) / 256]) (take (length d) rest) (drop (length d) rest)).
  - by rw /= take_drop -app_assoc.
  - by rw len_app.
  - rw length_take. lia.
  - apply (HQ (_ ++ d ++ _)). destruct Hy as [H1 H2 H3 H4 H5 H6 H7].
    assert ((encs ms ++ [(len d + 2) mod 256; (len d + 2) / 256]) ++ d ++ drop (length d) rest = encs (ms ++ [d]) ++ drop (length d) rest) as Em
      by (rw encs_app encs_one; unfold enc; by rw -!app_assoc).
    split; [done|done|done| | |done|].
    + cbn [rb_mem set_mem]. unfold len in *. rewrite !length_app length_drop /=. lia.
    + eexists. split; [exact Em|]. by destruct ms.
    + by apply Forall_app_2; [|apply Forall_singleton].
Qed.
Lemma wp_finish cap ms k s d (Q : unit -> rb_context A -> Prop) : layout cap (ms ++ [d]) s -> rb_last s = len (encs (removelast ms)) ->
  rb_pull s = (if (k <? length ms)%nat then len (encs (take k ms)) else INVALID_PULL_POSITION) -> (k <= length ms)%nat ->
  (forall s', straight cap (ms ++ [d]) k s' -> Q tt s') ->
  wp (when (negb (len (encs ms) =? len (encs (removelast ms)))) skip_last;; p ← gets rb_pull;
      when (p =? INVALID_PULL_POSITION) (l ← gets rb_last; modify (set_pull l))) s Q.
Proof.
  intros Hy Hl Hp Hk HQ. pose proof (layout_total _ _ _ Hy) as Ht. pose proof (sr_cap _ _ _ Hy) as Hc. rewrite encs_app encs_one len_app len_enc in Ht.
  pose proof (len_pos d) as Pd. pose proof (len_pos (encs ms)) as Pm. apply wp_bind.
  assert (wp (when (negb (len (encs ms) =? len (encs (removelast ms)))) skip_last) s (fun _ s1 => s1 = set_last (len (encs ms)) s)) as HL.
  { destruct ms as [|m ms' _] using rev_ind; [by rw /= -{1}Hl; destruct s|].
    pose proof (encs_last (ms' ++ [m]) m ltac:(rw length_app Nat.add_comm /= list_lookup_middle //)) as El. pose proof (len_pos m).
    rewrite (proj2 (Z.eqb_neq _ _)); [|lia]. cbn [negb when]. unfold skip_last. apply wp_bind, wp_gets, wp_bind. rw Hl removelast_last.
    replace ms' with (take (length ms') ((ms' ++ [m]) ++ [d])) at 1 by (by rw -app_assoc take_app_length).
    eapply layout_next; [exact Hy|by rw -app_assoc list_lookup_middle|]. apply wp_modify.
    assert (take (S (length ms')) ((ms' ++ [m]) ++ [d]) = ms' ++ [m]) as ->
      by (replace (S (length ms')) with (length (ms' ++ [m])) by (rw length_app /=; lia); apply take_app_length).
    by rw (proj2 (Z.ltb_lt _ cap)); [|lia]. }
  eapply wp_mono; [exact HL|]. intros [] s1 ->. apply wp_bind, wp_gets. cbn [rb_pull set_last]. rw Hp.
  assert (forall x, x = len (encs (take k ms)) -> straight cap (ms ++ [d]) k (set_pull x (set_last (len (encs ms)) s))) as HS.
  { intros x ->. destruct Hy as [H1 H2 H3 H4 H5 H6 H7]. split; [done|by rw removelast_last| |rw length_app; lia].
    cbn [rb_pull set_pull]. rewrite (proj2 (Nat.ltb_lt k _)); [by rw take_app_le|rw length_app /=; lia]. }
  destruct (Nat.ltb_spec k (length ms)) as [Hlt|Hge].
  - pose proof (encs_take_le ms k) as Hle. rewrite (proj2 (Z.eqb_neq _ _)); [|unfold INVALID_PULL_POSITION; lia]. apply HQ.
    specialize (HS (rb_pull s) ltac:(rw Hp; done)). by destruct s.
  - rw Z.eqb_refl. apply wp_bind, wp_gets, wp_modify, HQ, HS. by rw take_ge.
Qed.
Lemma wp_push cap ms k s fuel d (Q : unit -> rb_context A -> Prop) : straight cap ms k s -> len d + 2 < 2 ^ 16 -> len (encs (ms ++ [d])) <= cap ->
  (forall s', straight cap (ms ++ [d]) k s' -> Q tt s') -> wp (push fuel d (len d)) s Q.
Proof.
  intros Hs Hd Hf HQ. pose proof (sr_layout _ _ _ _ Hs) as Hy. pose proof (sr_cap _ _ _ Hy) as Hc. pose proof Hf as Hf'.
  rewrite encs_app encs_one len_app len_enc in Hf'. pose proof (len_pos d) as Pd. pose proof (len_pos (encs ms)) as Pm.
  unfold push. apply wp_bind, wp_gets. rw (proj2 (Z.eqb_neq _ _) (sr_addr _ _ _ Hy)). cbn [negb when]. apply wp_bind, wp_gets.
  rw (sr_last _ _ _ _ Hs). apply wp_bind. apply (layout_last cap ms s); [exact Hy|lia|].
  apply wp_bind, wp_gets, wp_bind, wp_gets. rw (sr_first _ _ _ Hy) (sr_size _ _ _ Hy).
  replace (u16 (len d + 2)) with (len d + 2) by (symmetry; apply Z.mod_small; lia).
  replace (len (encs (removelast ms)) + (len (encs ms) - len (encs (removelast ms)))) with (len (encs ms)) by lia.
  rewrite (u32_small (len (encs ms) + (len d + 2))); [|lia]. rewrite (u32_small (len (encs ms))); [|lia].
  rw (proj2 (Z.ltb_ge cap (len (encs ms) + (len d + 2)))); [|lia]. rw andb_false_r.
  apply wp_bind, wp_ret, wp_bind, wp_gets, wp_bind, wp_gets. rw (sr_first _ _ _ Hy) (sr_last _ _ _ _ Hs).
  rw (proj2 (Z.ltb_ge (len (encs (removelast ms))) 0)); [|apply len_pos]. apply wp_bind, wp_ret.
  replace (take (Z.to_nat (len d)) d) with d by (unfold len; by rw Nat2Z.id take_ge).
  apply (wp_append cap ms s d _ _ Hy Hd Hf). intros m Hm.
  exact (wp_finish cap ms k _ d Q Hm (sr_last _ _ _ _ Hs) (sr_pull _ _ _ _ Hs) (sr_k _ _ _ _ Hs) HQ).
Qed.
Lemma wp_pull_data cap ms k s d (Q : option (list Z) -> rb_context A -> Prop) fuel : straight cap ms k s -> ms !! k = Some d ->
  (forall s', straight cap ms (S k) s' -> Q (Some d) s') -> wp (run_op fuel Pull) s Q.
Proof.
  intros Hs Hk HQ. cbn [run_op]. apply wp_bind. eapply wp_pull; [exact Hs|exact Hk|]. intros s' Hs'.
  replace (len d + 2 - 2) with (len d) by lia. unfold len at 2. rw Nat2Z.id. apply wp_bind.
  destruct (sr_mem _ _ _ (sr_layout _ _ _ _ Hs')) as (rest & Hm & _). rewrite (encs_split ms k d Hk) in Hm.
  eapply (wp_copy_out _ _ (encs (take k ms) ++ [(len d + 2) mod 256; (len d + 2) / 256]) _ (encs (drop (S k) ms) ++ rest)); [|by rw len_app|].
  - rw Hm. unfold enc. by rw -!app_assoc.
  - apply wp_ret, HQ, Hs'.
Qed.
Lemma wp_run_ops cap l fuel : forall ms k s, straight cap ms k s -> fits cap l (ms, k) -> wp (run_ops fuel l) s (fun rs _ => rs = (spec_ops l (ms, k)).1).
Proof.
  assert (forall o l q, (spec_ops (o :: l) q).1 = (spec_op o q).1 :: (spec_ops l (spec_op o q).2).1) as Es.
  { intros o l' q. cbn [spec_ops]. destruct (spec_op o q) as [r q']. cbn [snd fst]. by destruct (spec_ops l' q'). }
  induction l as [|o l IH]; intros ms k s Hs Hf; [done|]. destruct Hf as [Ho Hf]. cbn [run_ops]. rw Es. apply wp_bind.
  assert (forall r q s', (r, q) = spec_op o (ms, k) -> straight cap q.1 q.2 s' ->
    wp (rs ← run_ops fuel l; mret (r :: rs)) s' (fun rs _ => rs = (spec_op o (ms, k)).1 :: (spec_ops l (spec_op o (ms, k)).2).1)) as Hgo.
  { intros r [ms' k'] s' E Hs'. rewrite -E. rewrite -E in Hf. apply wp_bind. eapply wp_mono; [exact (IH _ _ _ Hs' Hf)|]. by intros rs s'' ->. }
  destruct o as [d| |]; cbn in Ho.
  - cbn [run_op]. apply wp_bind. eapply wp_push; [exact Hs|apply Ho|apply Ho|]. intros s' Hs'. apply wp_ret. by eapply Hgo.
  - destruct (ms !! k) as [d|] eqn:Hk.
    + eapply wp_pull_data; [exact Hs|exact Hk|]. intros s' Hs'. eapply Hgo; [cbn; by rw Hk|exact Hs'].
    + assert (k = length ms) as -> by (apply lookup_ge_None in Hk; pose proof (sr_k _ _ _ _ Hs); lia).
      cbn [run_op]. apply wp_bind. eapply wp_pull_none; [exact Hs|]. apply wp_ret. eapply Hgo; [cbn; by rw Hk|exact Hs].
  - cbn [run_op]. apply wp_bind. eapply wp_reset; [exact Hs|exact Ho|]. intros s' Hs'. apply wp_ret. by eapply Hgo.
Qed.
Definition rb_fresh (a : A) : rb_context A := mkRb 0 0 0 0 0 [] a.
Lemma wp_init cap a (Q : unit -> rb_context A -> Prop) : 0 <= cap < 2 ^ 31 -> (a_alloc a cap).1 <> 0 ->
  (forall s', straight cap [] 0 s' -> Q tt s') -> wp (rb_init cap) (rb_fresh a) Q.
Proof.
  intros Hc Ha HQ. unfold rb_init, wp. cbn [rb_addr rb_fresh Z.eqb]. change (rb_heap (rb_fresh a)) with a. destruct (a_alloc a cap) as [p a'].
  rw (proj2 (Z.eqb_neq p 0) Ha). apply HQ. split; [|done..]. split; [done|done|done| | |done|done].
  - unfold len. cbn [rb_mem]. rw length_replicate. lia.
  - exists (replicate (Z.to_nat cap) 0). split; [done|]. intros _ H2. exists (replicate (Z.to_nat cap - 2) 0).
    by replace (Z.to_nat cap) with (2 + (Z.to_nat cap - 2))%nat at 1 by lia.
Qed.

(** C39: a fresh ring buffer is a queue for as long as everything pushed fits in
    its block: pushing, pulling and starting over in any order, every pull
    answers the messages in the order in which they were pushed, byte for byte,
    and NULL when there is none left; nothing is written outside the block. *)
Theorem ring_fifo cap a ops fuel : 0 <= cap < 2 ^ 31 -> (a_alloc a cap).1 <> 0 -> fits cap ops ([], 0%nat) ->
  exists s', (rb_init cap;; run_ops fuel ops) (rb_fresh a) = Some ((spec_ops ops ([], 0%nat)).1, s').
Proof.
  intros Hc Ha Hf. assert (wp (rb_init cap;; run_ops fuel ops) (rb_fresh a) (fun rs _ => rs = (spec_ops ops ([], 0%nat)).1)) as Hw.
  { apply wp_bind, wp_init; [done|done|]. intros s' Hs'. by apply wp_run_ops with (cap := cap). }
  apply wp_run in Hw as (rs & s' & E & ->). by exists s'.
Qed.
End queue.

(** ** Witness and defects *)
Definition rb_empty : rb_context Bump.t := rb_fresh (Bump.empty 4096 8).
Definition ring_ops : list rop := [Pull; Push [1; 2; 3]; Push []; Pull; Pull; Pull; Push [9]; Pull; Reset; Pull].
Lemma ring_fifo_witness :
  (spec_ops ring_ops ([], 0%nat)).1 = [None; None; None; Some [1; 2; 3]; Some []; None; None; Some [9]; None; Some [1; 2; 3]] /\
  exists s', (rb_init 16;; run_ops 0 ring_ops) rb_empty = Some ((spec_ops ring_ops ([], 0%nat)).1, s').
Proof.
  split; [reflexivity|]. apply (ring_fifo 16 (Bump.empty 4096 8) ring_ops 0).
  - lia.
  - by vm_compute.
  - cbn. unfold len. cbn. repeat split; try lia; done.
Defined.

Definition bytes_of (n : nat) (b : Z) : list Z := replicate n b.
Definition answers (cap : Z) (l : list rop) : option (list (option (list Z))) := fst <$> (rb_init cap;; run_ops 50 l) rb_empty.
(** The test for the end of the block asks that the first message lie before the
    last; with one message in the ring it is not made, and the second message is
    written behind the block. *)
Example second_message_overflows : answers 100 [Push (bytes_of 60 1); Push (bytes_of 60 2)] = None.
Proof. by vm_compute. Qed.
(** Nothing compares the message with the capacity. *)
Example large_message_overflows : answers 16 [Push (bytes_of 20 1)] = None.
Proof. by vm_compute. Qed.
(** [rb_reset_pull] does not ask whether there is a message; the empty ring then
    has one of size 0, which the pull answers. *)
Definition reset_empty : option (option (Z * Z) * rb_context Bump.t) := (rb_init 16;; reset_pull;; pull) rb_empty.
Example reset_empty_has_message : fst <$> reset_empty = Some (Some (2, 0)).
Proof. by vm_compute. Qed.
(** The size [rb_pull] gives includes the two bytes of the size itself. *)
Example size_includes_header : fst <$> (rb_init 16;; push 9 [7; 8; 9] 3;; pull) rb_empty = Some (Some (2, 5)).
Proof. by vm_compute. Qed.
(** Past the end of the block the new message goes to the start.  The size of the
    last message grows by all that follows its start and not by the room behind
    its end, so that it then claims bytes outside the block; and the messages are
    dropped up to twice the new message's size and not up to its end: of the four
    of 24 bytes only the last, now of 52 bytes at 72 of 100, is kept. *)
Example wrap_last_claims_beyond :
  fst <$> (rb_init 100;; run_ops 50 (map (fun b => Push (bytes_of 22 b)) [1; 2; 3; 4; 5] ++ [Reset]);; pull) rb_empty = Some (Some (74, 52)).
Proof. by vm_compute. Qed.
