(* ===== verification/StrEdit.v ===== *)
(** * Editing strings (core/additions/str.c)

    What the helpers write is a block of bytes with the string at its start;
    reading or writing outside of a block is [None].  A position is the code's
    32-bit index. *)
From S2P Require Import Prelude Str.
Set Default Goal Selector "!".

Definition rd (m : list Z) (i : Z) : option Z := if (0 <=? i) && (i <? Z.of_nat (length m)) then m !! Z.to_nat i else None.
Definition wr (m : list Z) (i c : Z) : option (list Z) := if (0 <=? i) && (i <? Z.of_nat (length m)) then Some (<[Z.to_nat i := c]> m) else None.
(** [_mem_cpy] from one block into another. *)
Definition put (dst : list Z) (off : nat) (src : list Z) (n : nat) : option (list Z) :=
  if (off + n <=? length dst)%nat && (n <=? length src)%nat then Some (take off dst ++ take n src ++ drop (off + n) dst) else None.

(** ** Bytes *)
Definition upper (c : Z) : Z := if (97 <=? c) && (c <=? 122) then c - 32 else c.
Fixpoint toupper (s : list Z) : option (list Z) :=
  match s with [] => None | c :: t => if c =? 0 then Some (c :: t) else t ← toupper t; Some (upper c :: t) end.
Fixpoint mem_set (sz : nat) (m : list Z) (i pattern : Z) : option (list Z) :=
  match sz with O => Some m | S sz => m ← wr m i pattern; mem_set sz m (i + 1) pattern end.
(** [sz] characters remain; the NUL is written behind them. *)
Fixpoint str_cpy_loop (sz : nat) (dst src : list Z) (i : Z) : option (Z * list Z) :=
  match sz with
  | O => dst ← wr dst i 0; Some (i, dst)
  | S sz =>
      c ← rd src i; dst ← wr dst i c;
      if c =? 0 then dst ← wr dst i 0; Some (i, dst) else str_cpy_loop sz dst src (i + 1)
  end.
Definition str_cpy (dst src : list Z) (sz_max : nat) : option (Z * list Z) := str_cpy_loop sz_max dst src 0.

(** ** Searching *)
Definition INVALID_STRING_POSITION : Z := 4294967295.
Fixpoint find_loop (k : nat) (text sub : list Z) (l : nat) (i : Z) : option Z :=
  match k with
  | O => Some INVALID_STRING_POSITION
  | S k => c ← mem_cmp sub text l; if c =? 0 then Some i else find_loop k (drop 1 text) sub l (i + 1)
  end.
(** The result before it becomes signed. *)
Definition find_string (str1 str2 : list Z) : option Z :=
  l ← str_len str2; l1 ← str_len str1;
  if (l1 + 1 <? l) || (l =? 0) then Some INVALID_STRING_POSITION
  else find_loop (Z.to_nat (l1 + 1 - l)) str1 str2 (Z.to_nat l) 0.
(** The first position of a byte that is one of [str2]'s. *)
Fixpoint check_loop (k : nat) (s1 set : list Z) (i : Z) : option Z :=
  match k with
  | O => Some INVALID_STRING_POSITION
  | S k => c ← head s1; if bool_decide (c ∈ set) then Some i else check_loop k (drop 1 s1) set (i + 1)
  end.
Definition check_str1 (str1 str2 : list Z) : option Z :=
  l1 ← str_len str1; l2 ← str_len str2; check_loop (Z.to_nat l1) str1 (take (Z.to_nat l2) str2) 0.

(** ** Blanks *)
Definition is_space (c : Z) : bool := (c =? 32) || (c =? 9).
Fixpoint blanks (k : nat) (s : list Z) : nat :=
  match k, s with S k, c :: s => if is_space c then S (blanks k s) else O | _, _ => O end.
Definition trim_left (m : list Z) : option (list Z) :=
  l ← str_len m;
  let i := blanks (Z.to_nat l) m in
  if (i =? 0)%nat then Some m else n ← str_len (drop i m); mem_cpy m 0 i (Z.to_nat (n + 1)).
(** [i] is an unsigned position: below the start it is at the other end. *)
Fixpoint trim_right_loop (fuel : nat) (m : list Z) (i : Z) : option (list Z) :=
  match fuel with
  | O => None
  | S fuel => c ← rd m i; if is_space c then m ← wr m i 0; trim_right_loop fuel m (u32 (i - 1)) else Some m
  end.
Definition trim_right (m : list Z) : option (list Z) :=
  l ← str_len m; if l =? 0 then Some m else trim_right_loop (S (length m)) m (l - 1).
Definition clrspc (m : list Z) : option (list Z) := m ← trim_right m; trim_left m.

(** ** Dividing *)
Definition div_str (s p1 : list Z) (sz_p1 : Z) (p2 : list Z) (sz_p2 : Z) (div : list Z) : option (Z * list Z * list Z) :=
  i ← check_str1 s div;
  if negb (i =? INVALID_STRING_POSITION) then
    let n := if i <? sz_p1 then i else sz_p1 in
    p1 ← put p1 0 s (Z.to_nat n); p1 ← wr p1 n 0;
    '(_, p2) ← str_cpy p2 (drop (Z.to_nat (i + 1)) s) (Z.to_nat sz_p2);
    Some (1, p1, p2)
  else
    '(_, p1) ← str_cpy p1 s (Z.to_nat sz_p1);
    p2 ← wr p2 0 0;
    Some (0, p1, p2).
(** The levels of [start_ex] and [stop_ex] after a byte. *)
Definition ex_level (start_ex stop_ex c ex_count : Z) : Z :=
  if start_ex =? stop_ex then (if negb (ex_count =? 0) then 0 else 1)
  else
    let ex_count := if c =? start_ex then u32 (ex_count + 1) else ex_count in
    if c =? stop_ex then u32 (ex_count - 1) else ex_count.
(** Where a byte of [div] is met outside of all levels; [k] positions remain. *)
Fixpoint div_ex_loop (k : nat) (s : list Z) (l1 : Z) (div : list Z) (start_ex stop_ex i ex_count : Z) : option (option Z) :=
  match k with
  | O => Some None
  | S k =>
      if negb (i <? l1) then Some None else
      c ← rd s i;
      if c =? 92 then div_ex_loop k s l1 div start_ex stop_ex (i + 1 + 1) ex_count
      else if (ex_count =? 0) && bool_decide (c ∈ div) then Some (Some i)
      else div_ex_loop k s l1 div start_ex stop_ex (i + 1) (ex_level start_ex stop_ex c ex_count)
  end.
Definition div_str_ex (s p1 : list Z) (sz_p1 : Z) (p2 : list Z) (sz_p2 : Z) (div : list Z) (start_ex stop_ex : Z) : option (Z * list Z * list Z) :=
  l1 ← str_len s; l2 ← str_len div;
  r ← div_ex_loop (Z.to_nat l1) s l1 (take (Z.to_nat l2) div) start_ex stop_ex 0 0;
  match r with
  | Some i =>
      let n := if i <? sz_p1 then i else sz_p1 in
      p1 ← put p1 0 s (Z.to_nat n); p1 ← wr p1 n 0;
      m ← str_len (drop (Z.to_nat i) s);
      '(_, p2) ← str_cpy p2 (drop (Z.to_nat (i + 1)) s) (Z.to_nat (if s32 sz_p2 <? s32 m then sz_p2 else m));
      Some (1, p1, p2)
  | None =>
      '(_, p1) ← str_cpy p1 s (Z.to_nat sz_p1);
      p2 ← wr p2 0 0;
      Some (0, p1, p2)
  end.

(** ** Numbers *)
(** The bytes from both ends towards the middle are exchanged. *)
Fixpoint strrev_loop (fuel : nat) (m : list Z) (p1 p2 : Z) : option (list Z) :=
  match fuel with
  | O => None
  | S fuel =>
      if p1 <? p2 then
        a ← rd m p1; b ← rd m p2; m ← wr m p1 (Z.lxor a b);
        a ← rd m p1; b ← rd m p2; m ← wr m p2 (Z.lxor b a);
        a ← rd m p1; b ← rd m p2; m ← wr m p1 (Z.lxor a b);
        strrev_loop fuel m (p1 + 1) (p2 - 1)
      else Some m
  end.
Definition strrev (m : list Z) : option (list Z) :=
  c ← head m; if c =? 0 then Some m else l ← str_len m; strrev_loop (S (length m)) m 0 (l - 1).
(** [_s8 _sz = sz - 1], down to 0; [k] bounds the positions of an [_s8]. *)
Definition s8 (z : Z) : Z := let z := z mod 256 in if z <? 128 then z else z - 256.
Fixpoint str2i_loop (k : nat) (s : list Z) (sz r m : Z) : option Z :=
  match k with
  | O => None
  | S k =>
      if sz <? 0 then Some r else
      c ← rd s sz;
      if is_digit c then str2i_loop k s (s8 (sz - 1)) (u32 (r + (c - 48) * m)) (u32 (m * 10))
      else str2i_loop k s (s8 (sz - 1)) r m
  end.
Definition str2i (s : list Z) (sz : Z) : option Z := str2i_loop 129 s (s8 (sz - 1)) 0 1.
(** The digits of a number that is not negative, least first, from [i] on. *)
Fixpoint put_digits (fuel : nat) (m : list Z) (b n i : Z) : option (list Z * Z) :=
  match fuel with
  | O => None
  | S fuel =>
      d ← rd digits (Z.rem n b); m ← wr m i d;
      if 0 <? Z.quot n b then put_digits fuel m b (Z.quot n b) (i + 1) else Some (m, i + 1)
  end.
(** [-n] for the least [int] is undefined, and so is dividing by 0. *)
Definition itoa (n : Z) (s : list Z) (b : Z) : option (list Z) :=
  if (n =? - 2 ^ 31) || (b =? 0) then None else
  '(s, i) ← put_digits 64 s b (Z.abs n) 0;
  '(s, i) ← (if n <? 0 then s ← wr s i 45; Some (s, i + 1) else Some (s, i));
  s ← wr s i 0; strrev s.

(** ** Blocks with a string at their start *)
Definition cstr (s junk : list Z) : list Z := s ++ 0 :: junk.
Definition text (s : list Z) : Prop := Forall (fun c => c <> 0) s.
Lemma rd_at a c b i : i = Z.of_nat (length a) -> rd (a ++ c :: b) i = Some c.
Proof.
  intros ->. unfold rd. rw (proj2 (Z.leb_le 0 _)); [|lia]. rw (proj2 (Z.ltb_lt _ _)); [|rw length_app; cbn; lia].
  cbn. by rw Nat2Z.id list_lookup_middle.
Qed.
Lemma wr_at a c c' b i : i = Z.of_nat (length a) -> wr (a ++ c :: b) i c' = Some (a ++ c' :: b).
Proof.
  intros ->. unfold wr. rw (proj2 (Z.leb_le 0 _)); [|lia]. rw (proj2 (Z.ltb_lt _ _)); [|rw length_app; cbn; lia].
  cbn. rw Nat2Z.id insert_app_r_alt //. by rw Nat.sub_diag.
Qed.
Lemma rd_beyond m i : Z.of_nat (length m) <= i -> rd m i = None.
Proof. intros Hi. unfold rd. rw (proj2 (Z.ltb_ge _ _)) // andb_false_r //. Qed.
Lemma str_len_cstr s js : text s -> str_len (cstr s js) = Some (Z.of_nat (length s)).
Proof.
  unfold cstr. induction 1 as [|c s Hc Hs IH]; [done|]. cbn [app str_len]. rw (proj2 (Z.eqb_neq c 0)) // IH. cbn [length mbind option_bind]. f_equal. lia.
Qed.
Lemma put_at a b c d n : length c = n -> (n <= length d)%nat -> put (a ++ c ++ b) (length a) d n = Some (a ++ take n d ++ b).
Proof.
  intros Hc Hd. unfold put. rw (proj2 (Nat.leb_le _ _)); [|rw !length_app; lia]. rw (proj2 (Nat.leb_le _ _)) //. cbn. f_equal.
  rw take_app_length. f_equal. f_equal. rw -Hc -length_app app_assoc drop_app_length //.
Qed.

(** [_toupper] changes the small letters and nothing else. *)
Lemma toupper_spec s js : text s -> toupper (cstr s js) = Some (cstr (map upper s) js).
Proof. unfold cstr. induction 1 as [|c s Hc Hs IH]; [done|]. cbn. by rw (proj2 (Z.eqb_neq c 0)) // IH. Qed.
Lemma mem_set_spec a b m p : mem_set (length m) (a ++ m ++ b) (Z.of_nat (length a)) p = Some (a ++ replicate (length m) p ++ b).
Proof.
  revert a. induction m as [|c m IH]; intros a; [done|]. cbn [mem_set app length]. rw (wr_at a c p) //. cbn [mbind option_bind].
  specialize (IH (a ++ [p])). rewrite length_app -!app_assoc in IH. replace (Z.of_nat (length a) + 1) with (Z.of_nat (length a + length [p])) by (cbn; lia).
  exact IH.
Qed.

(** [_str_cpy] copies up to [sz_max] bytes and a NUL behind them: a string of
    [sz_max] bytes or more takes [sz_max + 1] bytes of the destination. *)
Lemma str_cpy_loop_spec n : forall a dst s js pre, text s -> length pre = length a -> length dst = S (Nat.min n (length s)) -> forall rest,
  str_cpy_loop n (a ++ dst ++ rest) (pre ++ cstr s js) (Z.of_nat (length a)) =
    Some (Z.of_nat (length a + Nat.min n (length s)), a ++ take n s ++ 0 :: rest).
Proof.
  induction n as [|n IH]; intros a dst s js pre Hs Hp Hd rest.
  - destruct dst as [|x [|]]; [done| |done]. cbn [str_cpy_loop app]. rw (wr_at a x 0) //. cbn. by rw Nat.add_0_r.
  - cbn [str_cpy_loop]. destruct dst as [|x dst]; [done|]. cbn [app]. destruct Hs as [|c s Hc Hs].
    + destruct dst; [|done]. unfold cstr. rw (rd_at pre 0) ?Hp //. cbn [mbind option_bind]. rw (wr_at a x 0) //. cbn. rw (wr_at a 0 0) //. cbn. by rw Nat.add_0_r.
    + unfold cstr. cbn [app]. rw (rd_at pre c) ?Hp //. cbn [mbind option_bind]. rw (wr_at a x c) //. cbn [mbind option_bind]. rw (proj2 (Z.eqb_neq c 0) Hc).
      specialize (IH (a ++ [c]) dst s js (pre ++ [c]) Hs ltac:(rw !length_app Hp //) ltac:(cbn in Hd; lia) rest). unfold cstr in IH.
      rewrite -!app_assoc length_app in IH. cbn [app length] in IH. replace (Z.of_nat (length a) + 1) with (Z.of_nat (length a + 1)) by lia.
      rw IH. cbn. f_equal. f_equal. lia.
Qed.
Lemma str_cpy_spec dst s js n rest : text s -> length dst = S (Nat.min n (length s)) ->
  str_cpy (dst ++ rest) (cstr s js) n = Some (Z.of_nat (Nat.min n (length s)), take n s ++ 0 :: rest).
Proof. intros Hs Hd. exact (str_cpy_loop_spec n [] dst s js [] Hs eq_refl Hd rest). Qed.

(** ** Searching *)
Lemma find_positions k text sub i : (k + length sub <= length text)%nat ->
  exists r, find_loop k text sub (length sub) i = Some r /\
    ((r = INVALID_STRING_POSITION /\ forall j, (j < k)%nat -> ~ occurs text sub j) \/
     exists j, r = i + Z.of_nat j /\ (j < k)%nat /\ occurs text sub j /\ forall j', (j' < j)%nat -> ~ occurs text sub j').
Proof.
  revert text i. induction k as [|k IH]; intros text i Hl; [exists INVALID_STRING_POSITION; split; [done|left; split; [done|lia]]|]. cbn [find_loop].
  destruct (mem_cmp_spec sub text (length sub)) as (c & -> & Hc); [lia|lia|]. cbn [mbind option_bind]. rewrite (take_ge sub) // in Hc.
  assert (c = 0 <-> occurs text sub 0) as H0 by (rw Hc; unfold occurs; rw drop_0; by split; symmetry).
  destruct (Z.eqb_spec c 0) as [E|E].
  - exists i. split; [done|]. right. exists 0%nat. split_and!; [lia|lia|by apply H0|lia].
  - destruct (IH (drop 1 text) (i + 1)) as (r & -> & Hr); [rw length_drop; lia|]. exists r. split; [done|].
    assert (forall j, occurs (drop 1 text) sub j <-> occurs text sub (S j)) as HS by (intros j; unfold occurs; by rw drop_drop).
    destruct Hr as [[-> Hno]|(j & -> & Hj & Ho & Hno)].
    + left. split; [done|]. intros [|j] Hj; [by rw -H0|]. rw -HS. apply Hno. lia.
    + right. exists (S j). split_and!; [lia|lia|by apply HS|]. intros [|j'] Hj'; [by rw -H0|]. rw -HS. apply Hno. lia.
Qed.
Lemma mem_cmp_prefix a b t : mem_cmp (a ++ b) t (length a) = mem_cmp a t (length a).
Proof. revert t. induction a as [|x a IH]; intros t; [done|]. cbn. destruct t as [|y t]; [done|]. by rw IH. Qed.
Lemma find_loop_prefix k text a b i : find_loop k text (a ++ b) (length a) i = find_loop k text a (length a) i.
Proof.
  revert text i. induction k as [|k IH]; intros text i; [done|]. cbn [find_loop]. rw mem_cmp_prefix. destruct (mem_cmp a text (length a)) as [c|]; [|done]. cbn.
  by rw IH.
Qed.
Lemma occurs_app s t sub j : (j + length sub <= length s)%nat -> occurs (s ++ t) sub j <-> occurs s sub j.
Proof. intros Hj. unfold occurs. rw drop_app_le; [|lia]. rw take_app_le; [done|]. rw length_drop. lia. Qed.
Lemma occurs_bound s sub j : occurs s sub j -> sub <> [] -> (j + length sub <= length s)%nat.
Proof. unfold occurs. intros E Hn. apply (f_equal length) in E. rewrite length_take length_drop in E. destruct sub; [done|]. cbn [length] in *. lia. Qed.
(** [_find_string] answers the first of all positions, the last one too. *)
Lemma find_string_spec s sub js jb : text s -> text sub -> sub <> [] ->
  exists r, find_string (cstr s js) (cstr sub jb) = Some r /\
    ((r = INVALID_STRING_POSITION /\ forall j, ~ occurs s sub j) \/
     exists j, r = Z.of_nat j /\ occurs s sub j /\ forall j', (j' < j)%nat -> ~ occurs s sub j').
Proof.
  intros Hs Hb Hn. unfold find_string. rw !str_len_cstr //. cbn [mbind option_bind].
  replace (Z.of_nat (length sub) =? 0) with false by (symmetry; apply Z.eqb_neq; destruct sub; cbn; [done|lia]). rw orb_false_r.
  destruct (Z.ltb_spec (Z.of_nat (length s) + 1) (Z.of_nat (length sub))) as [Hlt|Hge].
  { exists INVALID_STRING_POSITION. split; [done|]. left. split; [done|]. intros j Hj%occurs_bound; [lia|done]. }
  rw Nat2Z.id. unfold cstr at 2. rw find_loop_prefix. replace (Z.to_nat _) with (length s + 1 - length sub)%nat by lia.
  destruct (find_positions (length s + 1 - length sub) (cstr s js) sub 0) as (r & -> & Hr); [unfold cstr; rw length_app; cbn; lia|].
  exists r. split; [done|]. destruct Hr as [[-> Hno]|(j & -> & Hj & Ho & Hno)].
  - left. split; [done|]. intros j Hj. pose proof (occurs_bound _ _ _ Hj Hn) as Hle. apply (Hno j); [lia|]. by apply occurs_app.
  - right. exists j. split_and!; [done|apply occurs_app in Ho; [done|lia]|]. intros j' Hj' Ho'. apply (Hno j' Hj'). apply occurs_app; [lia|done].
Qed.

(** ** Blanks *)
Definition blank_run (s : list Z) : Prop := Forall (fun c => is_space c = true) s.
Lemma space_text s : blank_run s -> text s.
Proof. intros H. eapply Forall_impl; [exact H|]. intros c Hc ->. by vm_compute in Hc. Qed.
Lemma trim_right_blanks fuel a c bl js : is_space c = false -> blank_run bl -> (length bl < fuel)%nat -> Z.of_nat (length (a ++ [c] ++ bl)) < 2 ^ 32 ->
  trim_right_loop fuel (a ++ [c] ++ bl ++ js) (Z.of_nat (length (a ++ bl))) = Some (a ++ [c] ++ replicate (length bl) 0 ++ js).
Proof.
  intros Hc. revert fuel js. induction bl as [|b bl IH] using rev_ind; intros fuel js Hb Hf Hl; (destruct fuel as [|fuel]; [lia|]); cbn [trim_right_loop].
  - rw app_nil_r. cbn [app]. rw (rd_at a c) //. cbn. by rw Hc.
  - apply Forall_app in Hb as [Hbl Hb1]. inversion Hb1 as [|x y Hx]; subst. rewrite !length_app in Hl, Hf |- *. cbn [length] in *.
    assert (forall x, a ++ [c] ++ (bl ++ [x]) ++ js = (a ++ [c] ++ bl) ++ x :: js) as E by (intros x; by rw -!app_assoc).
    rw E (rd_at _ b); [|rw !length_app; cbn; lia]. cbn [mbind option_bind]. rw Hx (wr_at _ b 0); [|rw !length_app; cbn; lia]. cbn [mbind option_bind].
    rewrite u32_small; [|lia]. replace (_ - 1) with (Z.of_nat (length (a ++ bl))) by (rw length_app; lia).
    rw -app_assoc -[(_ ++ bl) ++ _]app_assoc IH; [|done|lia|rw !length_app; cbn; lia]. rw Nat.add_1_r replicate_S_end. by rw -!app_assoc.
Qed.
Lemma cstr_cat a b js : cstr (a ++ b) js = a ++ cstr b js.
Proof. unfold cstr. by rw app_assoc. Qed.
Lemma take_cstr s js : take (length s + 1) (cstr s js) = s ++ [0].
Proof. unfold cstr. rw cons_middle app_assoc take_app_length' //. by rw length_app. Qed.
Lemma zeros_cons n js : replicate n 0 ++ 0 :: js = 0 :: replicate n 0 ++ js.
Proof. induction n as [|n IH]; [done|]. cbn. by rw IH. Qed.
Lemma trim_right_spec a c bl js : text a -> c <> 0 -> is_space c = false -> blank_run bl -> Z.of_nat (length (a ++ [c] ++ bl)) < 2 ^ 32 ->
  trim_right (cstr (a ++ [c] ++ bl) js) = Some (cstr (a ++ [c]) (replicate (length bl) 0 ++ js)).
Proof.
  intros Ha Hc Hs Hb Hl. unfold trim_right. rw str_len_cstr; [|by apply Forall_app_2; [|constructor; [|apply space_text]]]. cbn [mbind option_bind].
  rw (proj2 (Z.eqb_neq _ 0)); [|rw !length_app; cbn; lia].
  replace (Z.of_nat (length (a ++ [c] ++ bl)) - 1) with (Z.of_nat (length (a ++ bl))) by (rw !length_app; cbn; lia).
  unfold cstr. rw -!app_assoc trim_right_blanks; [|done|done|rw !length_app; cbn; lia|done]. by rw zeros_cons.
Qed.
Lemma blanks_run bl s k : blank_run bl -> (length bl <= k)%nat -> (match s with c :: _ => is_space c = false | [] => True end) -> blanks k (bl ++ s) = length bl.
Proof.
  intros Hb Hk Hs. revert k Hk. induction Hb as [|c bl Hc Hb IH]; intros k Hk.
  - cbn. destruct k, s as [|c s]; cbn; [done..|by rw Hs].
  - destruct k as [|k]; cbn in Hk; [lia|]. cbn. rw Hc IH; [done|lia].
Qed.
Lemma trim_left_spec bl s js : blank_run bl -> text s -> (match s with c :: _ => is_space c = false | [] => True end) ->
  exists js', trim_left (cstr (bl ++ s) js) = Some (cstr s js').
Proof.
  intros Hb Hs Hh. unfold trim_left. rw str_len_cstr; [|by apply Forall_app_2; [apply space_text|]]. cbn [mbind option_bind]. rw Nat2Z.id cstr_cat.
  rw blanks_run; [|done|rw length_app; lia|by destruct s]. destruct (Nat.eqb_spec (length bl) 0) as [E|E].
  { exists js. by rw (nil_length_inv _ E). }
  rw drop_app_length str_len_cstr //. cbn [mbind option_bind]. rw mem_cpy_spec; [|unfold cstr; rw !length_app; cbn; lia|unfold cstr; rw !length_app; cbn; lia].
  exists (drop (length s + 1) (bl ++ cstr s js)). f_equal.
  replace (Z.to_nat (Z.of_nat (length s) + 1)) with (length s + 1)%nat by lia. unfold memmove. rw take_0 drop_app_length take_cstr. by rw -app_assoc.
Qed.
(** [_clrspc] takes the blanks and tabs from both ends of a string that has
    another byte, moving what is left to the start of its block, and nothing
    inside of it changes. *)
Theorem clrspc_trims l mid r js : blank_run l -> blank_run r -> text mid -> mid <> [] ->
  (forall c, head mid = Some c -> is_space c = false) -> (forall c, last mid = Some c -> is_space c = false) -> Z.of_nat (length (l ++ mid ++ r)) < 2 ^ 32 ->
  exists js', clrspc (cstr (l ++ mid ++ r) js) = Some (cstr mid js').
Proof.
  intros Hl Hr Hm Hn Hh Ht Hlen. unfold clrspc. destruct mid as [|c mid _] using rev_ind; [done|].
  apply Forall_app in Hm as Hmc. specialize (Ht c (last_snoc _ _)).
  assert (l ++ (mid ++ [c]) ++ r = (l ++ mid) ++ [c] ++ r) as E by (by rw -!app_assoc). rw E. rewrite E in Hlen.
  rw trim_right_spec; [|apply Forall_app_2; [by apply space_text|apply Hmc]|by destruct Hmc as [_ H]; inversion H|done|done|done].
  cbn [mbind option_bind]. rw -app_assoc. apply trim_left_spec; [done|done|]. destruct mid; cbn in *; by apply Hh.
Qed.
Lemma clrspc_trims_witness :
  clrspc (cstr (str "  a b 	 ") [1]) = Some (cstr (str "a b") [98; 0; 0; 0; 0; 1]) /\ exists js', clrspc (cstr (str "  a b 	 ") [1]) = Some (cstr (str "a b") js').
Proof.
  split; [by vm_compute|]. apply (clrspc_trims (str "  ") (str "a b") (str " 	 ") [1]); [by repeat constructor|by repeat constructor|by repeat constructor|done|by intros c [= <-]|by intros c [= <-]|done].
Defined.
(** A string of blanks only is erased from its end on, and then on from the other
    end of the 32-bit positions. *)
Lemma trim_right_all_blank bl js fuel : blank_run bl -> bl <> [] -> Z.of_nat (length (bl ++ js)) < 2 ^ 32 -> trim_right_loop fuel (bl ++ js) (Z.of_nat (length bl) - 1) = None.
Proof.
  intros Hb Hn. revert js fuel. induction bl as [|b bl IH] using rev_ind; intros js fuel Hl; [done|].
  destruct fuel as [|fuel]; [done|]. apply Forall_app in Hb as [Hbl Hb1]. inversion Hb1 as [|x y Hx]; subst.
  cbn [trim_right_loop]. rewrite length_app Nat2Z.inj_add Z.add_simpl_r -app_assoc. cbn [app]. rw (rd_at bl b) //. cbn [mbind option_bind].
  rw Hx (wr_at bl b 0) //. cbn [mbind option_bind]. rewrite -app_assoc length_app in Hl. cbn [app length] in Hl. destruct bl as [|b' bl].
  - destruct fuel as [|fuel]; [done|]. cbn [trim_right_loop]. rw rd_beyond; [done|]. replace (u32 _) with (2 ^ 32 - 1) by done. cbn [app length] in *. lia.
  - rw u32_small; [|cbn [length] in *; lia]. apply (IH Hbl); [done|]. rw length_app. cbn [length] in *. lia.
Qed.

(** ** Reversing *)
Lemma strrev_loop_spec fuel : forall a m b, (length m < fuel)%nat ->
  strrev_loop fuel (a ++ m ++ b) (Z.of_nat (length a)) (Z.of_nat (length a + length m) - 1) = Some (a ++ rev m ++ b).
Proof.
  induction fuel as [|fuel IH]; intros a m b Hf; [lia|]. cbn [strrev_loop]. destruct m as [|x m].
  { rw (proj2 (Z.ltb_ge _ _)); [done|cbn; lia]. }
  destruct m as [|y m _] using rev_ind.
  { rw (proj2 (Z.ltb_ge _ _)); [done|cbn; lia]. }
  rw (proj2 (Z.ltb_lt _ _)); [|cbn [length]; rw length_app; cbn; lia].
  assert (forall x' y', a ++ (x' :: m ++ [y']) ++ b = (a ++ x' :: m) ++ y' :: b) as E by (intros x' y'; by rw /= -!app_assoc).
  assert (forall x', Z.of_nat (length a + length (x :: m ++ [y])) - 1 = Z.of_nat (length (a ++ x' :: m))) as EL by (intros x'; cbn [length]; rw !length_app; cbn; lia).
  assert (forall x' y' z, wr (a ++ (x' :: m ++ [y']) ++ b) (Z.of_nat (length a)) z = Some (a ++ (z :: m ++ [y']) ++ b)) as W1 by (intros x' y' z; cbn [app]; by rw wr_at).
  assert (forall x' y' z, wr (a ++ (x' :: m ++ [y']) ++ b) (Z.of_nat (length a + length (x :: m ++ [y])) - 1) z = Some (a ++ (x' :: m ++ [z]) ++ b)) as W2
    by (intros x' y' z; rw !E (EL x'); by rw wr_at).
  assert (forall x' y', rd (a ++ (x' :: m ++ [y']) ++ b) (Z.of_nat (length a)) = Some x') as R1 by (intros x' y'; cbn [app]; by rw rd_at).
  assert (forall x' y', rd (a ++ (x' :: m ++ [y']) ++ b) (Z.of_nat (length a + length (x :: m ++ [y])) - 1) = Some y') as R2
    by (intros x' y'; rw E (EL x'); by rw rd_at).
  repeat (first [rw R1|rw R2|rw W1|rw W2]; cbn [mbind option_bind]).
  replace (Z.lxor y (Z.lxor x y)) with x by (by rw (Z.lxor_comm x y) -Z.lxor_assoc Z.lxor_nilpotent Z.lxor_0_l).
  replace (Z.lxor (Z.lxor x y) x) with y by (by rw (Z.lxor_comm x y) Z.lxor_assoc Z.lxor_nilpotent Z.lxor_0_r).
  specialize (IH (a ++ [y]) m ([x] ++ b)). rewrite length_app -!app_assoc in IH. cbn [length app] in *. rewrite !length_app in Hf |- *. cbn [length] in *.
  replace (Z.of_nat (length a) + 1) with (Z.of_nat (length a + 1)) by lia.
  replace (_ - 1 - 1) with (Z.of_nat (length a + 1 + length m) - 1) by lia. rw -app_assoc IH; [|lia]. rw /= rev_app_distr /=. by rw -!app_assoc.
Qed.
Lemma strrev_spec s js : text s -> strrev (cstr s js) = Some (cstr (rev s) js).
Proof.
  intros Hs. unfold strrev. destruct Hs as [|c s Hc Hs]; [done|]. cbn [cstr app head mbind option_bind]. rw (proj2 (Z.eqb_neq c 0) Hc).
  pose proof (str_len_cstr (c :: s) js ltac:(by constructor)) as El. unfold cstr in El. cbn [app] in El. rw El. cbn [mbind option_bind].
  apply (strrev_loop_spec _ [] (c :: s) (0 :: js)). cbn [length]. rw length_app. cbn. lia.
Qed.

(** ** Numbers *)
(** The decimal digits of a number, least first, and the number of digits. *)
Fixpoint dec (fuel : nat) (n : Z) : list Z :=
  match fuel with O => [] | S fuel => (48 + n mod 10) :: (if 0 <? n / 10 then dec fuel (n / 10) else []) end.
Fixpoint dec_value (ds : list Z) : Z := match ds with [] => 0 | d :: ds => (d - 48) + 10 * dec_value ds end.
Lemma dec_digits fuel n : 0 <= n -> Forall (fun d => is_digit d = true) (dec fuel n).
Proof.
  revert n. induction fuel as [|fuel IH]; intros n Hn; cbn [dec]; [constructor|]. pose proof (Z.mod_pos_bound n 10 ltac:(lia)) as Hm. constructor.
  - unfold is_digit. apply andb_true_intro. split; apply Z.leb_le; lia.
  - destruct (0 <? n / 10); [|constructor]. apply IH. apply Z.div_pos; lia.
Qed.
Lemma dec_enough fuel n : 0 <= n < 10 ^ Z.of_nat fuel -> dec_value (dec fuel n) = n /\ (length (dec fuel n) <= fuel)%nat.
Proof.
  revert n. induction fuel as [|fuel IH]; intros n Hn; [cbn in *; lia|]. cbn [dec]. pose proof (Z.div_mod n 10 ltac:(lia)) as Hd. pose proof (Z.mod_pos_bound n 10 ltac:(lia)) as Hm.
  assert (0 <= n / 10 < 10 ^ Z.of_nat fuel) as Hq.
  { split; [apply Z.div_pos; lia|]. apply Z.div_lt_upper_bound; [lia|]. rewrite Nat2Z.inj_succ Z.pow_succ_r in Hn; lia. }
  destruct (Z.ltb_spec 0 (n / 10)) as [H|H]; cbn [dec_value length].
  - destruct (IH _ Hq) as [-> Hl]. lia.
  - lia.
Qed.
Lemma put_digits_dec fuel : forall n a old rest, (0 < fuel)%nat -> 0 <= n < 10 ^ Z.of_nat fuel -> length old = length (dec fuel n) ->
  put_digits fuel (a ++ old ++ rest) 10 n (Z.of_nat (length a)) = Some (a ++ dec fuel n ++ rest, Z.of_nat (length a + length (dec fuel n))).
Proof.
  induction fuel as [|fuel IH]; intros n a old rest H0 Hn Hl; [lia|]. cbn [put_digits dec] in *.
  rewrite Z.rem_mod_nonneg; [|lia|lia]. rewrite Z.quot_div_nonneg; [|lia|lia]. pose proof (Z.mod_pos_bound n 10 ltac:(lia)) as Hm.
  assert (rd digits (n mod 10) = Some (48 + n mod 10)) as ->.
  { assert (n mod 10 = 0 \/ n mod 10 = 1 \/ n mod 10 = 2 \/ n mod 10 = 3 \/ n mod 10 = 4 \/ n mod 10 = 5 \/ n mod 10 = 6 \/ n mod 10 = 7 \/ n mod 10 = 8 \/ n mod 10 = 9) as Hc by lia.
    by repeat destruct Hc as [->|Hc]; [..|rw Hc]. }
  assert (0 <= n / 10 < 10 ^ Z.of_nat fuel) as Hd.
  { split; [apply Z.div_pos; lia|]. apply Z.div_lt_upper_bound; [lia|]. rewrite Nat2Z.inj_succ Z.pow_succ_r in Hn; lia. }
  cbn [mbind option_bind]. destruct old as [|x old]; [done|]. cbn [app]. rw (wr_at a x) //. cbn [mbind option_bind].
  destruct (0 <? n / 10) eqn:Hq.
  - specialize (IH (n / 10) (a ++ [48 + n mod 10]) old rest). rewrite -!app_assoc length_app in IH. cbn [app length] in *.
    replace (Z.of_nat (length a) + 1) with (Z.of_nat (length a + 1)) by lia. rw IH.
    + f_equal. f_equal. lia.
    + destruct fuel; [|lia]. apply Z.ltb_lt in Hq. cbn in Hn. lia.
    + exact Hd.
    + by injection Hl.
  - cbn in Hl. destruct old; [|done]. cbn. f_equal. f_equal. lia.
Qed.
Lemma dec_some fuel n : dec (S fuel) n <> [].
Proof. done. Qed.
#[local] Opaque dec.
Definition decimal (n : Z) : list Z := (if n <? 0 then [45] else []) ++ rev (dec 64 (Z.abs n)).
Lemma digits_text ds : Forall (fun d => is_digit d = true) ds -> text ds.
Proof. intros H. eapply Forall_impl; [exact H|]. intros d Hd ->. by vm_compute in Hd. Qed.
Lemma decimal_bound n : - 2 ^ 31 < n < 2 ^ 31 -> 0 <= Z.abs n < 10 ^ Z.of_nat 64.
Proof. intros Hn. assert (2 ^ 31 < 10 ^ Z.of_nat 64) by by vm_compute. lia. Qed.
Lemma decimal_text n : text (decimal n).
Proof.
  unfold decimal. apply Forall_app_2; [by case_match; repeat constructor|]. apply Forall_rev. apply digits_text, dec_digits. lia.
Qed.
(** The digits with their sign, and a NUL behind them. *)
Lemma itoa_decimal n old x rest : - 2 ^ 31 < n < 2 ^ 31 -> length old = length (decimal n) -> itoa n (old ++ x :: rest) 10 = Some (cstr (decimal n) rest).
Proof.
  intros Hn Hl. pose proof (decimal_bound n Hn) as Hb. pose proof (decimal_text n) as Ht. unfold itoa, decimal in *.
  rw (proj2 (Z.eqb_neq n (- 2 ^ 31))); [|lia]. cbn [orb Z.eqb]. rewrite length_app length_rev in Hl. destruct (Z.ltb_spec n 0) as [H|H]; cbn [length app] in Hl, Ht |- *.
  - destruct old as [|y old _] using rev_ind; [done|]. rewrite length_app in Hl. cbn [length] in Hl. assert (length old = length (dec 64 (Z.abs n))) as Hl' by lia. rw -app_assoc.
    rw (put_digits_dec 64 (Z.abs n) [] old ([y] ++ x :: rest)); [|lia|done|exact Hl']. cbn [mbind option_bind app length]. rw wr_at //. cbn [mbind option_bind].
    rw (cons_middle 45) app_assoc wr_at; [|rw length_app; cbn; lia]. cbn [mbind option_bind].
    assert (text (dec 64 (Z.abs n) ++ [45])) as Ht' by (apply Forall_app_2; [apply digits_text, dec_digits; lia|by repeat constructor]).
    rewrite (strrev_spec _ rest Ht'). by rw rev_app_distr.
  - rw (put_digits_dec 64 (Z.abs n) [] old (x :: rest)); [|lia|done|exact Hl]. cbn [mbind option_bind app length]. rw wr_at //. cbn [mbind option_bind].
    apply strrev_spec, digits_text, dec_digits. lia.
Qed.
Lemma str2i_digits k : forall ds t r m, Forall (fun d => is_digit d = true) ds -> Z.of_nat (length ds) <= 128 -> (length ds < k)%nat ->
  str2i_loop k (rev ds ++ t) (Z.of_nat (length ds) - 1) r m = Some (u32 (r + m * dec_value ds)) \/ ds = [].
Proof.
  induction k as [|k IH]; intros ds t r m Hd Hl Hk; [lia|]. destruct Hd as [|d ds Hd Hds]; [by right|]. left. cbn [str2i_loop length dec_value rev] in *.
  rw (proj2 (Z.ltb_ge _ 0)); [|lia]. rw -app_assoc. cbn [app]. rw (rd_at (rev ds) d); [|rw length_rev; lia]. cbn [mbind option_bind]. rw Hd.
  replace (s8 (Z.of_nat (S (length ds)) - 1 - 1)) with (Z.of_nat (length ds) - 1).
  2: { unfold s8. destruct (length ds) as [|l]; [done|]. rewrite Z.mod_small; [|lia]. rw (proj2 (Z.ltb_lt _ 128)); lia. }
  destruct ds as [|d' ds].
  - destruct k as [|k]; [cbn in Hk; lia|]. cbn. f_equal. f_equal. lia.
  - destruct (IH (d' :: ds) (d :: t) (u32 (r + (d - 48) * m)) (u32 (m * 10))) as [->|?]; [done|lia|lia| |done]. f_equal. unfold u32.
    rewrite Zplus_mod_idemp_l. rewrite -Zplus_mod_idemp_r Zmult_mod_idemp_l Zplus_mod_idemp_r. f_equal. lia.
Qed.
(** [_str2i] reads back what [_itoa] writes, for every number that is not
    negative: the digits reversed in place are the number's. *)
Theorem str2i_itoa n old x rest : 0 <= n < 2 ^ 31 -> length old = length (decimal n) ->
  exists s, itoa n (old ++ x :: rest) 10 = Some (s ++ 0 :: rest) /\ str2i (s ++ 0 :: rest) (Z.of_nat (length s)) = Some n.
Proof.
  intros Hn Hl. exists (decimal n). split; [by apply itoa_decimal; [lia|]|]. unfold decimal, str2i. rw (proj2 (Z.ltb_ge n 0)); [|lia]. cbn [app].
  rewrite Z.abs_eq; [|lia]. pose proof (decimal_bound n ltac:(lia)) as Hb. rewrite Z.abs_eq in Hb; [|lia]. destruct (dec_enough 64 n Hb) as [Hv Hle]. rw length_rev.
  pose proof (dec_some 63 n) as Hne. rewrite (_ : s8 _ = Z.of_nat (length (dec 64 n)) - 1).
  - destruct (str2i_digits 129 (dec 64 n) (0 :: rest) 0 1) as [->|E]; [apply dec_digits; lia|lia|lia| |done]. rw Hv. f_equal. rw u32_small; lia.
  - unfold s8. destruct (dec 64 n) as [|d l]; [done|]. cbn [length] in *. rewrite Z.mod_small; [|lia]. rw (proj2 (Z.ltb_lt _ 128)); lia.
Qed.
Lemma str2i_itoa_witness :
  itoa 4096 (replicate 4 7 ++ 8 :: [9]) 10 = Some (str "4096" ++ [0; 9]) /\
  exists s, itoa 4096 (replicate 4 7 ++ 8 :: [9]) 10 = Some (s ++ 0 :: [9]) /\ str2i (s ++ 0 :: [9]) (Z.of_nat (length s)) = Some 4096.
Proof. split; [by vm_compute|]. apply (str2i_itoa 4096 (replicate 4 7) 8 [9]); [lia|by vm_compute]. Defined.
(** The length given is one less in eight bits: from 129 on nothing is read. *)
Example str2i_long : str2i (replicate 199 48 ++ str "7") 200 = Some 0.
Proof. by vm_compute. Qed.
(** Where the two level bytes are the same, every byte changes the level, not that
    one only: every other byte is looked at. *)
Example div_ex_same :
  div_str_ex (cstr (str "ab,c") []) (replicate 8 0) 8 (replicate 8 0) 8 (cstr (str ",") []) 34 34 = Some (1, cstr (str "ab") (replicate 5 0), cstr (str "c") (replicate 6 0)) /\
  fst <$> (fst <$> div_str_ex (cstr (str "a,bc") []) (replicate 8 0) 8 (replicate 8 0) 8 (cstr (str ",") []) 34 34) = Some 0.
Proof. split; by vm_compute. Qed.
