(* ===== verification/WildCmp.v ===== *)
(** * Wildcards (core/additions/str.c: [_wildcmp])

    A pointer into a string is the list of the bytes from it on, its NUL among
    them; reading behind the last is [None]. *)
From S2P Require Import Prelude Str StrEdit.
Set Default Goal Selector "!".

(** The first loop, up to a star or the end: 0, or where both pointers are after it. *)
Fixpoint wild_prefix (string wild : list Z) : option (Z + list Z * list Z) :=
  match string with
  | [] => None
  | c :: string' =>
      if c =? 0 then Some (inr (string, wild)) else
      match wild with
      | [] => None
      | w :: wild' =>
          if w =? 42 then Some (inr (string, wild))
          else if negb (w =? c) && negb (w =? 63) then Some (inl 0) else wild_prefix string' wild'
      end
  end.
(** The second, while there are bytes left: 1, or where [wild] is after it. *)
Fixpoint wild_loop (fuel : nat) (string wild mp cp : list Z) : option (Z + list Z) :=
  match fuel with
  | O => None
  | S fuel =>
      c ← head string;
      if c =? 0 then Some (inr wild) else
      w ← head wild;
      if w =? 42 then
        w' ← head (tail wild);
        if w' =? 0 then Some (inl 1) else wild_loop fuel string (tail wild) (tail wild) (tail string)
      else if (w =? c) || (w =? 63) then wild_loop fuel (tail string) (tail wild) mp cp
      else wild_loop fuel cp mp mp (tail cp)
  end.
(** The third, over stars *)
Fixpoint skip_stars (wild : list Z) : option (list Z) :=
  match wild with [] => None | w :: wild' => if w =? 42 then skip_stars wild' else Some wild end.
Definition wildcmp (fuel : nat) (string wild : list Z) : option Z :=
  r ← wild_prefix string wild;
  match r with
  | inl b => Some b
  | inr (string, wild) =>
      r ← wild_loop fuel string wild [] [];
      match r with
      | inl b => Some b
      | inr wild => wild ← skip_stars wild; c ← head wild; Some (if c =? 0 then 1 else 0)
      end
  end.

(** ** What it decides *)
(** A star stands for any bytes, a question mark for one, another byte for itself. *)
Inductive wild_match : list Z -> list Z -> Prop :=
  | wm_nil : wild_match [] []
  | wm_char c w s : c <> 42 -> wild_match w s -> wild_match (c :: w) (c :: s)
  | wm_any a w s : wild_match w s -> wild_match (63 :: w) (a :: s)
  | wm_star w s1 s2 : wild_match w s2 -> wild_match (42 :: w) (s1 ++ s2).
#[local] Hint Constructors wild_match : core.
Definition star_free (p : list Z) : Prop := Forall (fun c => c <> 42) p.
Definition one (w c : Z) : bool := (w =? c) || (w =? 63).

Lemma wm_one w c ws s : w <> 42 -> one w c = true -> wild_match ws s -> wild_match (w :: ws) (c :: s).
Proof. unfold one. intros Hw [->%Z.eqb_eq| ->%Z.eqb_eq]%orb_true_iff Hm; auto. Qed.
Lemma wm_cons_inv w ws s : w <> 42 -> wild_match (w :: ws) s -> exists c s', s = c :: s' /\ one w c = true /\ wild_match ws s'.
Proof.
  unfold one. intros Hw Hm. inversion Hm as [|c w' s' _ Hm'|a w' s' Hm'|]; subst; [| |done].
  - exists w, s'. by rw Z.eqb_refl.
  - exists a, s'. by rw orb_true_r.
Qed.
Lemma wm_star_inv w s : wild_match (42 :: w) s -> exists s1 s2, s = s1 ++ s2 /\ wild_match w s2.
Proof. intros Hm. inversion Hm; subst; [done|eauto]. Qed.
Lemma wm_star_drop w c s : wild_match (42 :: w) s -> wild_match (42 :: w) (c :: s).
Proof. intros (s1 & s2 & -> & Hm)%wm_star_inv. exact (wm_star w (c :: s1) s2 Hm). Qed.
Lemma wm_star_app w s1 s2 : wild_match (42 :: w) s2 -> wild_match (42 :: w) (s1 ++ s2).
Proof. intros Hm. induction s1 as [|c s1 IH]; [done|]. by apply wm_star_drop. Qed.
Lemma wm_star_here w s : wild_match w s -> wild_match (42 :: w) s.
Proof. exact (wm_star w [] s). Qed.
Lemma wm_app p w t s : wild_match p t -> wild_match w s -> wild_match (p ++ w) (t ++ s).
Proof. intros Hp Hw. induction Hp; cbn [app]; [done|by constructor|by constructor|]. rw -app_assoc. by constructor. Qed.
(** A pattern without stars takes as many bytes as it has. *)
Lemma wm_free_app p w s : star_free p -> wild_match (p ++ w) s -> exists t s', s = t ++ s' /\ length t = length p /\ wild_match p t /\ wild_match w s'.
Proof.
  intros Hp. revert s. induction Hp as [|c p Hc Hp IH]; intros s Hm; [by exists [], s; auto|].
  apply wm_cons_inv in Hm as (a & s' & -> & Ho & (t & s'' & -> & Hl & Ht & Hw)%IH); [|done].
  exists (a :: t), s''. cbn. split_and!; [done|by rw Hl|by apply wm_one|done].
Qed.
Lemma wm_free_at p w t s : star_free p -> length t = length p -> wild_match (p ++ w) (t ++ s) -> wild_match w s.
Proof. intros Hp Hl (t' & s' & E & Hl' & _ & Hw)%wm_free_app; [|done]. apply app_inj_1 in E as [-> ->]; [done|lia]. Qed.
Lemma wm_stars w : wild_match w [] <-> Forall (eq 42) w.
Proof.
  split; [|induction 1 as [|c w <- Hw IH]; [done|by apply wm_star_here]].
  induction w as [|c w IH]; intros Hm; [done|]. destruct (decide (c = 42)) as [->|Hc].
  - apply wm_star_inv in Hm as (s1 & s2 & E & Hm). symmetry in E. apply app_nil in E as [-> ->]. constructor; auto.
  - apply wm_cons_inv in Hm as (a & s' & ? & _); [done|done].
Qed.
(** Where a star is reached nothing before it needs another try. *)
Lemma wm_star_star p w t s : star_free p -> wild_match p t -> length t = length p -> wild_match (42 :: p ++ 42 :: w) (t ++ s) <-> wild_match (42 :: w) s.
Proof.
  intros Hp Ht Hl. split.
  - intros (s1 & s2 & E & (t' & s' & -> & Hl' & _ & Hw)%wm_free_app)%wm_star_inv; [|done].
    assert (exists s0, s = s0 ++ s') as [s0 ->]; [|by apply wm_star_app].
    rewrite app_assoc in E. assert (length t <= length (s1 ++ t'))%nat as Hle by (rw length_app; lia).
    exists (drop (length t) (s1 ++ t')). rewrite -(drop_app_le _ _ _ Hle) -E. by rw drop_app_length.
  - intros Hm. by apply wm_star_here, wm_app.
Qed.

(** ** The loops *)
Definition verdict (r : option Z) (P : Prop) : Prop := exists b, r = Some b /\ (b = 0 \/ b = 1) /\ (b = 1 <-> P).
Lemma verdict_0 (P : Prop) : ~ P -> verdict (Some 0) P.
Proof. intros HP. exists 0. split_and!; [done|auto|by split]. Qed.
Lemma verdict_1 (P : Prop) : P -> verdict (Some 1) P.
Proof. intros HP. exists 1. split_and!; [done|auto|by split]. Qed.
Lemma verdict_iff r (P Q : Prop) : (P <-> Q) -> verdict r P -> verdict r Q.
Proof. intros HPQ (b & -> & Hb & E). exists b. by rw -HPQ. Qed.
#[local] Instance verdict_proper r : Proper (iff ==> iff) (verdict r).
Proof. intros P Q E. by split; apply verdict_iff. Qed.

Lemma skip_stars_end w jw : text w -> exists w', skip_stars (cstr w jw) = Some (cstr w' jw) /\ (w' = [] <-> Forall (eq 42) w) /\ text w'.
Proof.
  unfold cstr. induction 1 as [|c w Hc Hw (w' & E & Hi & Ht)]; [exists []; split_and!; [done|split; [by constructor|done]|constructor]|]. cbn. destruct (Z.eqb_spec c 42) as [->|Hn].
  - exists w'. split_and!; [done| |done]. rw Hi. split; [by constructor|by inversion 1].
  - exists (c :: w). split_and!; [done| |by constructor]. split; [done|]. inversion 1; congruence.
Qed.
(** The end of the code, after the second loop. *)
Definition wild_end (r : option (Z + list Z)) : option Z :=
  r ← r; match r with inl b => Some b | inr wild => wild ← skip_stars wild; c ← head wild; Some (if c =? 0 then 1 else 0) end.
Lemma wild_end_stars w jw : text w -> verdict (wild_end (Some (inr (cstr w jw)))) (wild_match w []).
Proof.
  intros Hw. destruct (skip_stars_end w jw Hw) as (w' & E & Hi & Ht). cbn. rw E wm_stars -Hi. destruct w' as [|c w']; [by apply verdict_1|].
  inversion Ht; subst. cbn. rw (proj2 (Z.eqb_neq c 0)); [|done]. by apply verdict_0.
Qed.

(** After a star: [base] is where the current try began, [p] has matched [t]. *)
Lemma wild_loop_star n fuel : forall p w t s js jw base,
  base = t ++ s -> star_free p -> wild_match p t -> length t = length p -> text (p ++ w) -> text base -> (length base <= n)%nat ->
  (length (p ++ w) * ((n + 1) * (n + 1)) + length base * (n + 1) + length s < fuel)%nat ->
  verdict (wild_end (wild_loop fuel (cstr s js) (cstr w jw) (cstr (p ++ w) jw) (tail (cstr base js)))) (wild_match (42 :: p ++ w) base).
Proof.
  induction fuel as [|fuel IH]; intros p w t s js jw base -> Hp Ht Hl Hw Hb Hn Hf; [lia|].
  apply Forall_app in Hw as Hpw. apply Forall_app in Hb as Hts. rewrite !length_app in Hf, Hn.
  destruct s as [|c s].
  - eapply verdict_iff, wild_end_stars; [|apply Hpw]. rw app_nil_r. split; [intros Hm; apply wm_star_here; rw -(app_nil_r t); by apply wm_app|].
    intros (s1 & s2 & E & (t' & s' & -> & Hl' & _ & Hm)%wm_free_app)%wm_star_inv; [|done].
    apply (f_equal length) in E. rewrite !length_app in E. by destruct s'; [|cbn in E; lia].
  - assert (forall Hm : ~ wild_match w (c :: s),
      verdict (wild_end (wild_loop fuel (tail (cstr (t ++ c :: s) js)) (cstr (p ++ w) jw) (cstr (p ++ w) jw) (tail (tail (cstr (t ++ c :: s) js)))))
        (wild_match (42 :: p ++ w) (t ++ c :: s))) as Hback.
    { intros Hm. assert (exists b base', t ++ c :: s = b :: base') as (b & base' & Eb) by (destruct t; eauto). rewrite Eb in Hb. rw Eb.
      apply (f_equal length) in Eb as El. rewrite length_app in El. cbn [length] in *.
      eapply verdict_iff, (IH [] (p ++ w) [] base' js jw base'); [|done|by apply Forall_nil|apply wm_nil|done|done|by inversion Hb|lia|rw !length_app; rewrite El Nat.mul_succ_l in Hf; cbn [app length]; lia].
      split; [apply wm_star_drop|]. intros (s1 & s2 & E & Hm2)%wm_star_inv. destruct s1 as [|b' s1].
      - exfalso. apply Hm. cbn in E. rewrite -E -Eb in Hm2. by apply wm_free_at in Hm2.
      - injection E as -> ->. by constructor. }
    cbn [length] in *. assert (c <> 0) as Hc by (destruct Hts as [_ Hs]; by inversion Hs).
    destruct w as [|x w]; cbn [cstr app wild_loop head mbind option_bind]; rewrite (proj2 (Z.eqb_neq c 0) Hc).
    + replace (0 =? c) with false by (symmetry; apply Z.eqb_neq; lia). cbn. apply Hback. by inversion 1.
    + pose proof (proj2 Hpw) as Hxw. inversion Hxw as [|x' w' Hx Hw']; subst. destruct (Z.eqb_spec x 42) as [->|Hx42].
      * cbn [tail]. rw (wm_star_star p w t (c :: s) Hp Ht Hl). destruct w as [|y w].
        { cbn. apply verdict_1. rw -(app_nil_r (c :: s)). apply wm_star, wm_nil. }
        inversion Hw'; subst. cbn [cstr app head mbind option_bind]. rewrite (proj2 (Z.eqb_neq y 0)); [|done].
        apply (IH [] (y :: w) [] (c :: s) js jw (c :: s)); [done|by apply Forall_nil|apply wm_nil|done|done|apply Hts|cbn; lia|].
        cbn [app length] in *. pose proof (Nat.mul_le_mono_r (S (length s)) n (n + 1) ltac:(lia)). lia.
      * destruct ((x =? c) || (x =? 63)) eqn:Ho.
        -- cbn [tail]. rw (cons_middle x p w) (cons_middle c t s) !app_assoc.
           apply (IH (p ++ [x]) w (t ++ [c]) s js jw); [done|by apply Forall_app_2; [|by apply Forall_singleton]| | | | | |].
           ++ apply wm_app; [done|]. apply wm_one; [done|done|apply wm_nil].
           ++ rw !length_app Hl. done.
           ++ by rw -app_assoc.
           ++ by rw -app_assoc.
           ++ rw !length_app. cbn. lia.
           ++ rw !length_app. cbn. cbn in Hf. lia.
        -- apply Hback. intros (c' & s' & E & Ho' & _)%wm_cons_inv; [|done]. injection E as -> ->. unfold one in Ho'. congruence.
Qed.
Lemma wild_loop_end fuel w jw js : wild_loop (S fuel) (cstr [] js) (cstr w jw) [] [] = Some (inr (cstr w jw)).
Proof. done. Qed.
(** The first loop leaves the question as it is. *)
Lemma wild_prefix_spec s : forall w js jw, text s -> text w ->
  (wild_prefix (cstr s js) (cstr w jw) = Some (inl 0) /\ ~ wild_match w s) \/
  exists s' w', wild_prefix (cstr s js) (cstr w jw) = Some (inr (cstr s' js, cstr w' jw)) /\ text s' /\ text w' /\
    (length s' <= length s)%nat /\ (length w' <= length w)%nat /\ (wild_match w s <-> wild_match w' s') /\ (s' = [] \/ exists w0, w' = 42 :: w0).
Proof.
  induction s as [|c s IH]; intros w js jw Hs Hw; [right; exists [], w; split_and!; [done..|by left]|].
  inversion Hs; subst. cbn [cstr app wild_prefix]. rewrite (proj2 (Z.eqb_neq c 0)); [|done].
  destruct w as [|x w]; cbn [cstr app].
  { left. replace (0 =? c) with false by (symmetry; apply Z.eqb_neq; lia). split; [done|]. by inversion 1. }
  inversion Hw; subst. destruct (Z.eqb_spec x 42) as [->|Hx].
  { right. exists (c :: s), (42 :: w). split_and!; [done..|]. right. by exists w. }
  rw -negb_orb. destruct ((x =? c) || (x =? 63)) eqn:Ho; cbn [negb].
  - assert (wild_match (x :: w) (c :: s) <-> wild_match w s) as Hi.
    { split; [|by apply wm_one]. intros (c' & s' & E & _ & Hm)%wm_cons_inv; [|done]. by injection E as -> ->. }
    destruct (IH w js jw) as [[E Hn]|(s' & w' & E & Hs' & Hw' & Hls & Hlw & Hm & Hend)]; [done|done|left; split; [done|by rw Hi]|].
    right. exists s', w'. cbn [length]. split_and!; [done..|lia|lia|by rw Hi|done].
  - left. split; [done|]. intros (c' & s' & E & Ho' & _)%wm_cons_inv; [|done]. injection E as -> ->. unfold one in Ho'. congruence.
Qed.
Lemma wild_loop_first fuel s w js jw : text s -> text (42 :: w) -> s <> [] -> (S (length w) * ((length s + 1) * (length s + 1)) < fuel)%nat ->
  verdict (wild_end (wild_loop fuel (cstr s js) (cstr (42 :: w) jw) [] [])) (wild_match (42 :: w) s).
Proof.
  intros Hs Hw Hn Hf. destruct fuel as [|fuel]; [lia|]. destruct s as [|c s]; [done|]. inversion Hs; subst. inversion Hw; subst.
  cbn [cstr app wild_loop head mbind option_bind]. rewrite (proj2 (Z.eqb_neq c 0)); [|done]. cbn [Z.eqb Pos.eqb tail].
  destruct w as [|y w]; [cbn; apply verdict_1; rw -(app_nil_r (c :: s)); apply wm_star, wm_nil|].
  cbn [app head mbind option_bind]. rewrite (proj2 (Z.eqb_neq y 0)); [|by inversion H4].
  apply (wild_loop_star (length (c :: s)) fuel [] (y :: w) [] (c :: s) js jw (c :: s)); [done|by apply Forall_nil|apply wm_nil|done|done|done|cbn; lia|].
  cbn [app length] in *. lia.
Qed.

(** C31: [_wildcmp] answers whether the pattern matches the string - a star for any
    bytes, a question mark for one byte, any other byte for itself -, after a
    number of steps bounded by the pattern's length times the square of the
    string's, and reads nothing behind the two NULs: going back to the last star
    only is enough. *)
Theorem wildcmp_match fuel s w js jw : text s -> text w -> (length w * ((length s + 1) * (length s + 1)) < fuel)%nat ->
  exists b, wildcmp fuel (cstr s js) (cstr w jw) = Some b /\ (b = 0 \/ b = 1) /\ (b = 1 <-> wild_match w s).
Proof.
  intros Hs Hw Hf. unfold wildcmp.
  destruct (wild_prefix_spec s w js jw Hs Hw) as [[E Hm]|(s' & w' & E & Hs' & Hw' & Hls & Hlw & Hm & Hend)]; rw E; cbn [mbind option_bind].
  { by apply verdict_0. }
  change (verdict (wild_end (wild_loop fuel (cstr s' js) (cstr w' jw) [] [])) (wild_match w s)). rw Hm.
  destruct (decide (s' = [])) as [->|Hn].
  - destruct fuel as [|fuel]; [lia|]. rw wild_loop_end. by apply wild_end_stars.
  - destruct Hend as [->|[w0 ->]]; [done|]. apply wild_loop_first; [done..|].
    pose proof (Nat.mul_le_mono (length s' + 1) (length s + 1) (length s' + 1) (length s + 1) ltac:(lia) ltac:(lia)).
    eapply Nat.le_lt_trans; [|exact Hf]. by apply Nat.mul_le_mono.
Qed.

(** ** Witness *)
Lemma wildcmp_match_witness :
  wildcmp 1000 (cstr (str "index.min.js") []) (cstr (str "*in?.*js") []) = Some 0 /\ wildcmp 1000 (cstr (str "index.min.js") []) (cstr (str "in*.m?n*") []) = Some 1 /\
  exists b, wildcmp 1000 (cstr (str "a.aab") []) (cstr (str "*a?b") []) = Some b /\ (b = 0 \/ b = 1) /\ (b = 1 <-> wild_match (str "*a?b") (str "a.aab")).
Proof.
  split; [by vm_compute|]. split; [by vm_compute|]. apply (wildcmp_match 1000 (str "a.aab") (str "*a?b") [] []); [by repeat constructor|by repeat constructor|].
  cbn. lia.
Defined.
