(* ===== verification/Format.v ===== *)
(** * Formatted output (core/additions/str.c: [_vsnprintf])

    The buffer is a block of bytes, the arguments are the list of what [va_arg]
    finds.  [size] bounds the text of a directive; the bytes of the format itself
    and [%c] are written without looking at it. *)
From S2P Require Import Prelude Str StrEdit.
Set Default Goal Selector "!".

Inductive va := VInt (n : Z) | VStr (s : list Z).
(** The string that a block starts with. *)
Definition c_string (m : list Z) : option (list Z) := l ← str_len m; Some (take (Z.to_nat l) m).
(** The text of a directive and whether [_toupper] is called on it. *)
Definition convert (c : Z) (a : va) : option (list Z * bool) :=
  match a with
  | VStr s =>
      t ← c_string s;
      if c =? 115 then Some (t, false) else if c =? 83 then Some (t, true) else None
  | VInt n =>
      if c =? 100 then m ← itoa (s32 n) (replicate 256 0) 10; t ← c_string m; Some (t, false)
      else if c =? 117 then t ← uitoa n 10; Some (t, false)
      else if c =? 108 then t ← ulltoa (u32 n) 10; Some (t, false)
      else if c =? 120 then t ← uitoa n 16; Some (t, false)
      else if c =? 88 then t ← uitoa n 16; Some (t, true)
      else if c =? 104 then t ← ulltoa n 16; Some (t, false)
      else if c =? 72 then t ← ulltoa n 16; Some (t, true)
      else if c =? 98 then t ← ulltoa n 2; Some (t, false)
      else None
  end.
Definition is_directive (c : Z) : bool := bool_decide (c ∈ str "sSdulxXhHb").
(** At most [size - 1 - r] bytes of it, and a NUL. *)
Definition emit (buf : list Z) (size r : Z) (t : list Z) (up : bool) : option (Z * list Z) :=
  let n := Z.of_nat (length t) in
  let n := if u32 (size - 1 - r) <? n then u32 (size - 1 - r) else n in
  buf ← put buf (Z.to_nat r) t (Z.to_nat n); buf ← wr buf (r + n) 0;
  if up then b ← toupper (drop (Z.to_nat r) buf); Some (u32 (r + n), take (Z.to_nat r) buf ++ b) else Some (u32 (r + n), buf).
(** [t] is set after a percent sign. *)
Fixpoint format_loop (fmt : list Z) (size : Z) (t : bool) (r : Z) (buf : list Z) (args : list va) : option (Z * list Z) :=
  match fmt with
  | [] => Some (r, buf)
  | c :: fmt =>
      if t then
        if c =? 99 then
          match args with VInt n :: args => buf ← wr buf r (n mod 256); format_loop fmt size false (u32 (r + 1)) buf args | _ => None end
        else if is_directive c then
          match args with
          | a :: args => '(s, up) ← convert c a; '(r, buf) ← emit buf size r s up; format_loop fmt size false r buf args
          | [] => None
          end
        else
          buf ← wr buf r 37; buf ← wr buf (r + 1) c; buf ← wr buf (r + 2) 0; format_loop fmt size false (u32 (r + 2)) buf args
      else if c =? 37 then format_loop fmt size true r buf args
      else buf ← wr buf r c; buf ← wr buf (r + 1) 0; format_loop fmt size false (u32 (r + 1)) buf args
  end.
Definition vsnprintf (buf : list Z) (size : Z) (fmt : list Z) (args : list va) : option (Z * list Z) :=
  l ← str_len fmt; format_loop (take (Z.to_nat l) fmt) size false 0 buf args.

(** ** The text that is meant *)
(** [ds] are the digits of [n] to the base [b], most significant first, without
    leading zeros. *)
Definition positional (b : Z) (ds : list Z) : Z := foldl (fun v d => b * v + d) 0 ds.



(** ** The digits of a number *)
Section digits.
Context (b : Z) (Hb : 2 <= b <= 36).
Lemma positional_snoc ds d : positional b (ds ++ [d]) = b * positional b ds + d.
Proof. unfold positional. by rw foldl_snoc. Qed.
Lemma positional_nonneg ds : Forall (fun d => 0 <= d < b) ds -> 0 <= positional b ds.
Proof.
  induction ds as [|d ds IH] using rev_ind; intros Hd; [done|]. apply Forall_app in Hd as [Hd [Hd0 _]%Forall_cons]. rw positional_snoc. specialize (IH Hd). nia.
Qed.
End digits.




(** ** What it does not do *)
(** The bytes of the format are not counted against [size]. *)
Example literal_overflows : fst <$> vsnprintf (replicate 8 7) 3 (cstr (str "abcdef") []) [] = Some 6.
Proof. by vm_compute. Qed.
(** Behind them the room for a directive is computed as a huge number. *)
Example directive_overflows : fst <$> vsnprintf (replicate 16 7) 3 (cstr (str "abcd%s") []) [VStr (str "efgh" ++ [0])] = Some 8.
Proof. by vm_compute. Qed.
(** No NUL behind a character. *)
Example char_unterminated : vsnprintf [7; 7; 7] 3 (cstr (str "%c") []) [VInt 65] = Some (1, [65; 7; 7]).
Proof. by vm_compute. Qed.
(** Of a 64-bit number the low half is written. *)
Example long_is_half : vsnprintf (replicate 4 7) 4 (cstr (str "%l") []) [VInt (2 ^ 32 + 5)] = Some (1, [53; 0; 7; 7]).
Proof. by vm_compute. Qed.
