(* ===== verification/Xml.v ===== *)
(** * XML parser (hypertext/libht/xml.c, xml.h, behind [iXML] of xml.cpp)

    As for JSON nothing in a parsed document is shared and a tag is what its
    block holds; the arrays of pointers are those of Json.v.  A child's slot is
    written when the call that parses the child has returned: until then nobody
    looks at it.  Tag definitions belong to the client: an entry of their array is
    NULL or the address and the contents of one. *)
From S2P Require Import Prelude Memory Str HtContext Json.
Set Default Goal Selector "!".

Definition XML_OK : Z := 0.
Definition XML_PARSE_ERROR : Z := -1.
Definition XML_MEMORY_ERROR : Z := -2.
Definition TF_ONELINE : Z := 1.
Definition INITIAL_TAG_LIST : Z := 16.
Definition INITIAL_TDEF_ARRAY : Z := 16.

Definition SCOPE_OPEN : Z := 1.
Definition STROPHE : Z := 2.
Definition QUOTES : Z := 4.
Definition SLASH : Z := 8.
Definition SYMBOL : Z := 16.
Definition EXCLAM : Z := 32.
Definition DASH : Z := 64.
Definition COMMENT : Z := 128.
Definition IGNORE : Z := 256.
Definition EQUAL : Z := 512.
Definition ESCAPE : Z := 1024.
Definition PI : Z := 2048.

(** ** Tags *)
(** Positions in the document are offsets; NULL is [None], and for a name the
    pointer that nothing can be read from. *)
#[warnings="-register-all"]
Inductive xml_tag := mkTag {
  p_name : pointer; sz_name : Z;
  t_content : option Z; t_sz_content : Z; sz_end_tag : Z;
  p_parameters : option Z; sz_parameters : Z;
  childs : vec xml_tag;
  p_tdef : option Z
}.
Definition NULL_PTR : pointer := Ext [].
Definition ptr (o : option Z) : pointer := match o with Some off => InDoc off | None => NULL_PTR end.
Definition new_tag : xml_tag := mkTag NULL_PTR 0 None 0 0 None 0 no_vec None.
Definition set_childs (v : vec xml_tag) (t : xml_tag) : xml_tag :=
  mkTag (p_name t) (sz_name t) (t_content t) (t_sz_content t) (sz_end_tag t) (p_parameters t) (sz_parameters t) v (p_tdef t).
Definition XML_TAG_SIZE : Z := 72.
Definition XML_CONTEXT_SIZE : Z := 48.

(** What the parser reads of a definition. *)
Record tag_def := mkDef { p_tag_name : list Z; d_flags : Z }.
Definition tdef_slot : Type := option (Z * tag_def).

Section parser.
Context {A : Type} `{Allocator A}.
Abbreviation XM := (M (pstate A)).

(** [ht_symbols] of two positions; NULL counts 0. *)
Definition symbols (p1 p2 : option Z) : XM Z :=
  x ← htc; mret (match p1, p2 with Some p1, Some p2 => ht_symbols x p1 p2 | _, _ => 0 end).
Definition compare (p1 p2 : pointer) (sz : Z) : XM Z := x ← htc; lift_opt (ht_compare x p1 p2 sz).

Fixpoint find_tdef (l : list tdef_slot) (tname : pointer) (sz : Z) : XM (option (Z * tag_def)) :=
  match l with
  | [] => mret None
  | None :: l => find_tdef l tname sz
  | Some d :: l =>
      r ← compare tname (Ext (p_tag_name d.2)) sz;
      if r =? 0 then mret (Some d) else find_tdef l tname sz
  end.

(** [xml_create_tag] in the list of a parent: the position of the cleared tag,
    [None] without memory. *)
Definition create_at (v : vec xml_tag) (n : nat) : XM (option nat * vec xml_tag) :=
  '(ok, v) ← fill_slot XML_TAG_SIZE v n new_tag; mret (if (ok : bool) then Some n else None, v).
Definition xml_create_tag (v : vec xml_tag) : XM (option nat * vec xml_tag) :=
  if negb (v_ptr v =? 0) then
    match first_null (v_slots v) 0 with
    | Some n => create_at v n
    | None =>
        let n := length (v_slots v) in
        '(r, v) ← alloc_slots v;
        if r =? JSON_OK then create_at v n else mret (None, v)
    end
  else
    p ← heap_op (mem_alloc (INITIAL_TAG_LIST * PTR_SIZE));
    if negb (p =? 0) then create_at (mkVec p (replicate (Z.to_nat INITIAL_TAG_LIST) SNull)) 0 else mret (None, v).
(** What the new tag's block holds then. *)
Definition put_tag (v : vec xml_tag) (n : nat) (t : xml_tag) : vec xml_tag :=
  mkVec (v_ptr v) (alter (fun s => match s with SAt p _ => SAt p t | s => s end) n (v_slots v)).

(** *** The loop *)
Definition has (st m : Z) : bool := negb (Z.land st m =? 0).
Definition clr (st m : Z) : Z := Z.ldiff st m.
(** The variables of [_xml_parse]; [x_tag] is its parent tag. *)
Record xlocals := mkX {
  x_state : Z;
  x_name : option Z; x_sz_name : Z;
  x_params : option Z; x_sz_params : Z;
  x_scope : Z;              (* pos_scope_open *)
  x_prev : Z;               (* _c *)
  x_r : Z;
  x_tag : xml_tag
}.
Definition x_start (t : xml_tag) : xlocals := mkX 0 None 0 None 0 0 0 XML_PARSE_ERROR t.
Definition set_state (st : Z) (x : xlocals) := mkX st (x_name x) (x_sz_name x) (x_params x) (x_sz_params x) (x_scope x) (x_prev x) (x_r x) (x_tag x).
Definition set_names (n : option Z) (sn : Z) (p : option Z) (sp : Z) (x : xlocals) := mkX (x_state x) n sn p sp (x_scope x) (x_prev x) (x_r x) (x_tag x).
Definition set_scope (p : Z) (x : xlocals) := mkX (x_state x) (x_name x) (x_sz_name x) (x_params x) (x_sz_params x) p (x_prev x) (x_r x) (x_tag x).
Definition set_prev (c : Z) (x : xlocals) := mkX (x_state x) (x_name x) (x_sz_name x) (x_params x) (x_sz_params x) (x_scope x) c (x_r x) (x_tag x).
Definition set_r (r : Z) (x : xlocals) := mkX (x_state x) (x_name x) (x_sz_name x) (x_params x) (x_sz_params x) (x_scope x) (x_prev x) r (x_tag x).
Definition set_tag (t : xml_tag) (x : xlocals) := mkX (x_state x) (x_name x) (x_sz_name x) (x_params x) (x_sz_params x) (x_scope x) (x_prev x) (x_r x) t.
Definition forget (x : xlocals) : xlocals := set_scope 0 (set_names None 0 None 0 x).
Definition drop_bits (m : Z) (x : xlocals) : xlocals := set_state (clr (x_state x) m) x.
Definition add_bits (m : Z) (x : xlocals) : xlocals := set_state (Z.lor (x_state x) m) x.
Definition x_has (x : xlocals) (m : Z) : bool := has (x_state x) m.
(** The loop goes on, or [break]. *)
Inductive outcome := Cont (x : xlocals) | Break (x : xlocals).
Definition then_drop (m : Z) (o : outcome) : outcome := match o with Cont x => Cont (drop_bits m x) | o => o end.

(** The sizes that are still open end at [pos]. *)
Definition close_sizes (pos : Z) (x : xlocals) : XM xlocals :=
  sn ← (if negb (bool_decide (x_name x = None)) && (x_sz_name x =? 0) then symbols (Some pos) (x_name x) else mret (x_sz_name x));
  sp ← (if negb (bool_decide (x_params x = None)) && (x_sz_params x =? 0) then symbols (Some pos) (x_params x) else mret (x_sz_params x));
  mret (set_names (x_name x) sn (x_params x) sp x).
(** A tag from the variables. *)
Definition tag_of (x : xlocals) (content : option Z) (szc szend : Z) (d : option (Z * tag_def)) : xml_tag :=
  mkTag (ptr (x_name x)) (u8 (x_sz_name x)) content szc szend (x_params x) (u16 (x_sz_params x)) no_vec (fst <$> d).
(** A tag without contents among the children, or no memory. *)
Definition leaf (fields : XM xml_tag) (x : xlocals) : XM outcome :=
  '(n, v) ← xml_create_tag (childs (x_tag x));
  match n with
  | Some n => t ← fields; mret (Cont (set_tag (set_childs (put_tag v n t) (x_tag x)) x))
  | None => mret (Break (set_r XML_MEMORY_ERROR (set_tag (set_childs v (x_tag x)) x)))
  end.

Definition end_comment (x : xlocals) : outcome :=
  Cont (if x_has x DASH && negb (x_has x SYMBOL) then forget (drop_bits (Z.lor COMMENT (Z.lor DASH SCOPE_OPEN)) x) else x).
Definition end_pi (defs : list tdef_slot) (x : xlocals) : XM outcome :=
  o ← (if x_has x PI then
         o ← leaf (d ← find_tdef defs (ptr (x_name x)) (u32 (x_sz_name x)); mret (tag_of x (x_params x) (u32 (x_sz_params x)) 2 d)) x;
         mret (then_drop PI o)
       else mret (Cont x));
  match o with
  | Cont x => mret (Cont (drop_bits (Z.lor IGNORE SCOPE_OPEN) (forget x)))
  | Break x => mret (Break x)
  end.
Definition close_tag (pos : Z) (d : option (Z * tag_def)) (x : xlocals) : XM outcome :=
  let t := x_tag x in
  r ← compare (ptr (x_name x)) (p_name t) (sz_name t);
  if r =? 0 then
    h ← htc;
    se ← symbols (Some (ht_ptr h)) (Some (x_scope x));
    sc ← symbols (t_content t) (Some (x_scope x));
    mret (Break (set_r XML_OK (set_tag (mkTag (p_name t) (sz_name t) (t_content t) sc (u8 se) (p_parameters t) (sz_parameters t) (childs t) (p_tdef t)) x)))
  else if negb (x_has x SYMBOL) && (x_prev x =? 47) then
    o ← leaf (mret (tag_of x None 0 2 d)) x; mret (then_drop SLASH o)
  else set_err pos;; mret (Break (set_r XML_PARSE_ERROR x)).
Definition open_tag (parse : xml_tag -> XM (Z * xml_tag)) (d : option (Z * tag_def)) (x : xlocals) : XM outcome :=
  '(n, v) ← xml_create_tag (childs (x_tag x));
  match n with
  | None => mret (Break (set_r XML_MEMORY_ERROR (set_tag (set_childs v (x_tag x)) x)))
  | Some n =>
      h ← htc;
      let t := tag_of x (Some (ht_ptr h)) 0 0 d in
      if negb (has (match d with Some d => d_flags d.2 | None => 0 end) TF_ONELINE) then
        '(r, t) ← parse t;
        let x := set_r r (set_tag (set_childs (put_tag v n t) (x_tag x)) x) in
        mret (if negb (r =? XML_OK) then Break x else Cont x)
      else mret (Cont (set_tag (set_childs (put_tag v n t) (x_tag x)) x))
  end.
Definition end_tag (parse : xml_tag -> XM (Z * xml_tag)) (defs : list tdef_slot) (pos : Z) (x : xlocals) : XM outcome :=
  x ← close_sizes pos x;
  d ← find_tdef defs (ptr (x_name x)) (u32 (x_sz_name x));
  o ← (if x_has x SLASH then close_tag pos d x else open_tag parse d x);
  mret (match o with Cont x => Cont (drop_bits SCOPE_OPEN (forget x)) | o => o end).
(** [>] *)
Definition on_gt (parse : xml_tag -> XM (Z * xml_tag)) (defs : list tdef_slot) (pos : Z) (x : xlocals) : XM outcome :=
  if x_has x (Z.lor QUOTES (Z.lor STROPHE ESCAPE)) then mret (Cont x) else
  o ← (if x_has x SCOPE_OPEN then
         if x_has x COMMENT then mret (end_comment x)
         else if x_has x IGNORE && (x_prev x =? 63) then end_pi defs x
         else if negb (x_has x (Z.lor COMMENT (Z.lor IGNORE ESCAPE))) then end_tag parse defs pos x
         else mret (Cont x)
       else set_err pos;; mret (Break x));
  mret (then_drop (Z.lor SYMBOL ESCAPE) o).

Definition in_text : Z := Z.lor QUOTES (Z.lor STROPHE (Z.lor COMMENT (Z.lor IGNORE ESCAPE))).
Definition on_lt (pos : Z) (x : xlocals) : XM outcome :=
  if x_has x in_text then mret (Cont x)
  else if negb (x_has x SCOPE_OPEN) then mret (Cont (drop_bits (Z.lor SYMBOL ESCAPE) (set_scope pos (add_bits SCOPE_OPEN x))))
  else set_err pos;; mret (Break x).
Definition on_slash (pos : Z) (x : xlocals) : XM outcome :=
  if x_has x in_text then mret (Cont x) else
  x ← (if x_has x SCOPE_OPEN then x ← close_sizes pos x; mret (add_bits SLASH x) else mret x);
  mret (Cont (drop_bits (Z.lor SYMBOL ESCAPE) x)).
Definition on_quote (bit : Z) (x : xlocals) : outcome :=
  Cont (drop_bits (Z.lor SYMBOL ESCAPE)
    (if negb (x_has x (Z.lor COMMENT (Z.lor IGNORE ESCAPE))) then set_state (Z.lxor (x_state x) bit) x else x)).
Definition on_blank (pos : Z) (x : xlocals) : XM outcome :=
  if x_has x in_text then mret (Cont x) else
  x ← (if x_has x SCOPE_OPEN && x_has x SYMBOL && negb (bool_decide (x_name x = None)) && bool_decide (x_params x = None) then
         h ← htc; sn ← symbols (Some pos) (x_name x);
         let x := set_names (x_name x) sn (Some (ht_ptr h)) 0 x in
         mret (if x_has x PI then add_bits IGNORE x else x)
       else mret x);
  mret (Cont (drop_bits (Z.lor SYMBOL ESCAPE) x)).
Definition on_exclam (x : xlocals) : outcome :=
  if x_has x in_text then Cont x else
  Cont (drop_bits (Z.lor SYMBOL ESCAPE)
    (if x_has x SCOPE_OPEN && (x_prev x =? 60) && negb (x_has x SYMBOL) then add_bits EXCLAM x else x)).
Definition on_dash (x : xlocals) : outcome :=
  if x_has x (Z.lor QUOTES (Z.lor STROPHE (Z.lor IGNORE ESCAPE))) then Cont x else
  Cont (drop_bits ESCAPE
    (if x_has x SCOPE_OPEN && negb (x_has x SYMBOL) then
       add_bits DASH (if x_has x EXCLAM && x_has x DASH && (x_prev x =? 45) then drop_bits EXCLAM (add_bits COMMENT x) else x)
     else x)).
Definition on_question (pos : Z) (x : xlocals) : XM outcome :=
  if x_has x (Z.lor QUOTES (Z.lor STROPHE (Z.lor COMMENT ESCAPE))) then mret (Cont x) else
  x ← (if x_has x SCOPE_OPEN then
         if (x_prev x =? 60) && negb (x_has x (Z.lor SYMBOL (Z.lor DASH EXCLAM))) then mret (if x_has x PI then x else add_bits PI x)
         else if negb (bool_decide (x_params x = None)) && x_has x PI then
           sp ← symbols (Some pos) (x_params x); mret (set_names (x_name x) (x_sz_name x) (x_params x) sp x)
         else mret x
       else mret x);
  mret (Cont (drop_bits (Z.lor SYMBOL ESCAPE) x)).
Definition on_backslash (x : xlocals) : outcome :=
  Cont (drop_bits SYMBOL (if negb (x_has x ESCAPE) && negb (x_prev x =? 92) then add_bits ESCAPE x else drop_bits ESCAPE x)).
Definition on_symbol (pos : Z) (x : xlocals) : outcome :=
  if x_has x (Z.lor QUOTES STROPHE) then Cont x else
  Cont (drop_bits (Z.lor EXCLAM (Z.lor DASH ESCAPE)) (add_bits SYMBOL
    (if x_has x SCOPE_OPEN && negb (x_has x (Z.lor SYMBOL (Z.lor COMMENT (Z.lor IGNORE ESCAPE)))) && bool_decide (x_name x = None)
     then set_names (Some pos) 0 None 0 x else x))).

Definition xml_step (parse : xml_tag -> XM (Z * xml_tag)) (defs : list tdef_slot) (c pos : Z) (x : xlocals) : XM outcome :=
  if c =? 62 then on_gt parse defs pos x
  else if c =? 60 then on_lt pos x
  else if c =? 47 then on_slash pos x
  else if c =? 39 then mret (on_quote STROPHE x)
  else if c =? 34 then mret (on_quote QUOTES x)
  else if (c =? 32) || (c =? 9) || (c =? 10) then on_blank pos x
  else if c =? 33 then mret (on_exclam x)
  else if c =? 45 then mret (on_dash x)
  else if c =? 63 then on_question pos x
  else if c =? 92 then mret (on_backslash x)
  else mret (on_symbol pos x).
(** [_xml_parse] from the head of its loop on. *)
Fixpoint xml_loop (fuel : nat) (defs : list tdef_slot) (x : xlocals) : XM (Z * xml_tag) :=
  match fuel with
  | O => undefined
  | S fuel =>
      '(c, pos) ← read;
      if c =? 0 then mret (XML_OK, x_tag x) else
      o ← xml_step (fun t => xml_loop fuel defs (x_start t)) defs c pos x;
      match o with
      | Cont x => xml_loop fuel defs (set_prev c x)
      | Break x => mret (x_r x, x_tag x)
      end
  end.
Definition _xml_parse (fuel : nat) (defs : list tdef_slot) (t : xml_tag) : XM (Z * xml_tag) := xml_loop fuel defs (x_start t).
End parser.

(** ** Contexts *)
Record xml_context := mkXC {
  xc_addr : Z;
  xc_htc_addr : Z;
  xc_htc : ht_context;
  xc_root : option (Z * xml_tag);
  pp_tdef : Z; xc_defs : list tdef_slot;
  xc_err_pos : Z
}.
Definition root_tag_name : list Z := str "ht_root" ++ [0].

Section contexts.
Context {A : Type} `{Allocator A}.

(** Without memory for the hypertext context the new context is given back, and
    written to through NULL. *)
Definition xml_create_context : M A (option xml_context) :=
  r ← mem_alloc XML_CONTEXT_SIZE;
  if negb (r =? 0) then
    '(p, h) ← ht_create_context;
    if negb (p =? 0) then mret (Some (mkXC r p h None 0 [] 0)) else mem_free r XML_CONTEXT_SIZE;; undefined
  else mret None.

(** A round for each symbol, one for the end. *)
Definition xml_fuel (sz : Z) : nat := (Z.to_nat sz + 2)%nat.
(** [p_root], allocated by the first call. *)
Definition root_tag (x : xml_context) : M A (Z * xml_tag) :=
  match xc_root x with Some r => mret r | None => p ← mem_alloc XML_TAG_SIZE; mret (p, new_tag) end.
(** The root holds the whole document. *)
Definition parse_root (x : xml_context) (h : ht_context) (sz p : Z) (t : xml_tag) : M A (Z * xml_context) := fun a =>
  let t := mkTag (Ext root_tag_name) 7 (Some 0) (u32 sz) (sz_end_tag t) (p_parameters t) (sz_parameters t) (childs t) (p_tdef t) in
  match _xml_parse (xml_fuel sz) (xc_defs x) t (mkP A h (xc_err_pos x) a) with
  | Some ((r, t), s) => Some ((r, mkXC (xc_addr x) (xc_htc_addr x) (p_htc s) (Some (p, t)) (pp_tdef x) (xc_defs x) (err_pos s)), p_heap s)
  | None => None
  end.
(** Only a context without contents parses: its read function is not set yet. *)
Definition xml_parse (x : xml_context) (content : list Z) (sz : Z) : M A (Z * xml_context) :=
  match pf_read (xc_htc x) with
  | Some _ => mret (XML_PARSE_ERROR, x)
  | None =>
      let h := ht_init_context (Some content) sz (xc_htc x) in
      '(p, t) ← root_tag x;
      if negb (p =? 0) then parse_root x h sz p t
      else mret (XML_PARSE_ERROR, mkXC (xc_addr x) (xc_htc_addr x) h None (pp_tdef x) (xc_defs x) (xc_err_pos x))
  end.

(** The block of a tag is freed by who holds the pointer to it; the one of the
    root by nobody. *)
Fixpoint xml_destroy_tag (t : xml_tag) : M A unit :=
  destroy_slots XML_TAG_SIZE xml_destroy_tag (v_slots (childs t));;
  mem_free (v_ptr (childs t)) (u32 (num (childs t) * PTR_SIZE)).
Definition num_tdefs (x : xml_context) : Z := Z.of_nat (length (xc_defs x)).
Definition xml_destroy_context (x : xml_context) : M A unit :=
  match xc_root x with Some (_, t) => xml_destroy_tag t | None => mret tt end;;
  when (negb (pp_tdef x =? 0)) (mem_free (pp_tdef x) (u32 (num_tdefs x * PTR_SIZE)));;
  mem_free (xc_addr x) XML_CONTEXT_SIZE;;
  ht_destroy_context (xc_htc_addr x).

(** *** Tag definitions *)
Fixpoint free_tdef (l : list tdef_slot) (i : nat) : nat := match l with None :: _ => i | _ :: l => free_tdef l (S i) | [] => i end.
Definition set_defs (p : Z) (l : list tdef_slot) (x : xml_context) : xml_context :=
  mkXC (xc_addr x) (xc_htc_addr x) (xc_htc x) (xc_root x) p l (xc_err_pos x).
Definition xml_add_tdef (d : Z * tag_def) (x : xml_context) : M A xml_context :=
  let i := free_tdef (xc_defs x) 0 in
  if (i =? length (xc_defs x))%nat then
    let new_blen := u32 ((INITIAL_TDEF_ARRAY + num_tdefs x) * PTR_SIZE) in
    p ← mem_alloc new_blen;
    if negb (p =? 0) then
      when (negb (pp_tdef x =? 0)) (mem_free (pp_tdef x) (u32 (num_tdefs x * PTR_SIZE)));;
      mret (set_defs p (<[i := Some d]> (xc_defs x ++ replicate (Z.to_nat INITIAL_TDEF_ARRAY) None)) x)
    else mret x
  else mret (set_defs (pp_tdef x) (<[i := Some d]> (xc_defs x)) x).
Fixpoint remove_first (a : Z) (l : list tdef_slot) : list tdef_slot :=
  match l with
  | [] => []
  | Some d :: l => if d.1 =? a then None :: l else Some d :: remove_first a l
  | None :: l => None :: remove_first a l
  end.
Definition xml_remove_tdef (a : Z) (x : xml_context) : xml_context := set_defs (pp_tdef x) (remove_first a (xc_defs x)) x.
End contexts.

(** ** Queries *)
(** A pointer to a tag is the tag; [None] outside is undefined behaviour. *)
Fixpoint find_child (h : ht_context) (tname : option (list Z)) (sz : Z) (l : list (slot xml_tag)) (index idx : Z) : option (option xml_tag) :=
  match l with
  | [] => Some None
  | s :: l =>
      t ← follow s;
      match t with
      | None => find_child h tname sz l index idx
      | Some t =>
          found ← (match tname with
                   | Some name =>
                       if negb (sz =? 0) then
                         if sz =? sz_name t then r ← ht_compare h (Ext name) (p_name t) sz; Some (r =? 0) else Some false
                       else Some true
                   | None => Some true
                   end);
          if (found : bool) then (if idx =? index then Some (Some t) else find_child h tname sz l index (u32 (idx + 1)))
          else find_child h tname sz l index idx
      end
  end.
Definition find_tag (x : xml_context) (tname : option (list Z)) (sz : Z) (parent : option xml_tag) (index : Z) : option (option xml_tag) :=
  match (match parent with Some t => Some t | None => snd <$> xc_root x end) with
  | Some t => find_child (xc_htc x) tname sz (v_slots (childs t)) index 0
  | None => Some None
  end.
(** [l]: the rest of the path with its NUL; [tname] is [n] bytes before it. *)
Fixpoint xselect_loop (x : xml_context) (l : list Z) (r : option xml_tag) (tname : option (list Z)) (n index : Z) : option (option xml_tag) :=
  match l with
  | [] => find_tag x tname (if tname is Some _ then n else 0) r index
  | c :: rest =>
      if c =? 0 then find_tag x tname (if tname is Some _ then n else 0) r index
      else if c =? 47 then
        match tname with
        | Some _ =>
            t ← find_tag x tname n r index;
            match t with Some t => xselect_loop x rest (Some t) None 0 index | None => Some None end
        | None => xselect_loop x rest r None 0 index
        end
      else match tname with
           | Some _ => xselect_loop x rest r tname (n + 1) index
           | None => xselect_loop x rest r (Some l) 1 index
           end
  end.
Definition xml_select (x : xml_context) (xpath : option (list Z)) (start : option xml_tag) (index : Z) : option (option xml_tag) :=
  xselect_loop x (default [] xpath ++ [0]) start None 0 index.

(** *** Parameters *)
Record plocals := mkPL { q_state : Z; q_var : option Z; q_val : option Z; q_sz_var : Z; q_sz_val : Z }.
Definition q_has (q : plocals) (m : Z) : bool := has (q_state q) m.
Definition q_set (st : Z) (q : plocals) : plocals := mkPL st (q_var q) (q_val q) (q_sz_var q) (q_sz_val q).
Definition q_drop (m : Z) (q : plocals) : plocals := q_set (clr (q_state q) m) q.
(** The loop goes on, or is left with a result. *)
Inductive poutcome := PCont (q : plocals) | PBreak (r : option Z) (q : plocals).
Definition symbols_at (h : ht_context) (p : Z) (o : option Z) : Z := match o with Some q => ht_symbols h p q | None => 0 end.
(** [_ptr] is where the symbol was read. *)
Definition param_quote (h : ht_context) (pname : list Z) (_ptr bit other : Z) (q : plocals) : option poutcome :=
  if q_has q (Z.lor ESCAPE other) then Some (PCont (q_drop (Z.lor SYMBOL ESCAPE) q))
  else if q_has q bit then
    match q_var q, q_val q with
    | Some var, Some val =>
        if negb (q_sz_var q =? 0) && (q_sz_val q =? 0) then
          let sz := u8 (ht_symbols h _ptr val) in
          r ← ht_compare h (InDoc var) (Ext pname) (q_sz_var q);
          if r =? 0 then Some (PBreak (Some val) (mkPL (q_state q) (q_var q) (q_val q) (q_sz_var q) sz))
          else Some (PCont (mkPL 0 None None 0 0))
        else Some (PBreak None q)
    | _, _ => Some (PBreak None q)
    end
  else Some (PCont (q_drop (Z.lor SYMBOL ESCAPE) (q_set (Z.lxor (q_state q) bit) q))).
Definition end_var (h : ht_context) (_ptr : Z) (q : plocals) : plocals :=
  if negb (bool_decide (q_var q = None)) && (q_sz_var q =? 0) && q_has q SYMBOL
  then mkPL (q_state q) (q_var q) (q_val q) (u8 (symbols_at h _ptr (q_var q))) (q_sz_val q) else q.
Definition param_symbol (_ptr : Z) (q : plocals) : plocals :=
  let q :=
    if q_has q (Z.lor SYMBOL ESCAPE) then q
    else if negb (q_has q (Z.lor STROPHE QUOTES)) then
      if bool_decide (q_var q = None) && negb (q_has q EQUAL) then mkPL (q_state q) (Some _ptr) None 0 0 else q
    else if bool_decide (q_val q = None) && q_has q EQUAL && negb (bool_decide (q_var q = None)) && negb (q_sz_var q =? 0)
      then mkPL (q_state q) (q_var q) (Some _ptr) (q_sz_var q) 0 else q in
  q_drop ESCAPE (q_set (Z.lor (q_state q) SYMBOL) q).
Definition param_step (h : ht_context) (pname : list Z) (c _c _ptr : Z) (q : plocals) : option poutcome :=
  if c =? 34 then param_quote h pname _ptr QUOTES STROPHE q
  else if c =? 39 then param_quote h pname _ptr STROPHE QUOTES q
  else if c =? 61 then
    if negb (q_has q (Z.lor STROPHE (Z.lor QUOTES ESCAPE))) then
      if q_has q EQUAL then Some (PBreak None q)
      else let q := end_var h _ptr q in Some (PCont (q_drop (Z.lor SYMBOL ESCAPE) (q_set (Z.lor (q_state q) EQUAL) q)))
    else Some (PCont (q_drop (Z.lor SYMBOL ESCAPE) q))
  else if c =? 32 then
    Some (PCont (q_drop (Z.lor SYMBOL ESCAPE) (if negb (q_has q (Z.lor STROPHE (Z.lor QUOTES (Z.lor ESCAPE EQUAL)))) then end_var h _ptr q else q)))
  else if c =? 92 then
    Some (PCont (q_drop SYMBOL (if negb (q_has q ESCAPE) && negb (_c =? 92) then q_set (Z.lor (q_state q) ESCAPE) q else q_drop ESCAPE q)))
  else Some (PCont (param_symbol _ptr q)).
Fixpoint param_loop (fuel : nat) (h : ht_context) (pname : list Z) (p p_end c : Z) (q : plocals) : option (option Z * Z) :=
  match fuel with
  | O => None
  | S fuel =>
      if p <? p_end then
        '(c', next) ← ht_read h (InDoc p);
        if c' =? 0 then Some (None, q_sz_val q) else
        o ← param_step h pname c' c p q;
        match o with
        | PCont q => match next with InDoc p => param_loop fuel h pname p p_end c' q | Ext _ => None end
        | PBreak r q => Some (r, q_sz_val q)
        end
      else Some (None, q_sz_val q)
  end.
(** The value and its size in symbols. *)
Definition xml_tag_parameter (x : xml_context) (t : xml_tag) (pname : list Z) : option (option Z * Z) :=
  match p_parameters t with
  | Some p =>
      if negb (sz_parameters t =? 0) then
        param_loop (S (Z.to_nat (sz_parameters t))) (xc_htc x) (pname ++ [0]) p (p + sz_parameters t) 0 (mkPL 0 None None 0 0)
      else Some (None, 0)
  | None => Some (None, 0)
  end.
Definition xml_tag_name (t : xml_tag) : pointer * Z := (p_name t, sz_name t).
Definition xml_tag_content (t : xml_tag) : option Z * Z := (t_content t, t_sz_content t).
