(* ===== verification/XmlRefusal.v ===== *)
(** * XML parser: refused allocations (hypertext/libht/xml.c)

    Whatever the document is, the loop of the parser answers [XML_MEMORY_ERROR]
    exactly when the allocator refused it a block, and then after the first
    refusal.  Without a block for the root there is no loop: [xml_parse] answers
    [XML_PARSE_ERROR] then, and the context has no root. *)
From S2P Require Import Prelude Memory Str HtContext Json JsonRefusal Xml.
Set Default Goal Selector "!".

Section xml.
Context {A : Type} `{Allocator A}.
Abbreviation TM := (M (pstate (tracked A))).

Lemma quiet_symbols p1 p2 : quiet (symbols p1 p2 : TM Z).
Proof. unfold symbols. quietly. Qed.
Lemma quiet_compare p1 p2 n : quiet (compare p1 p2 n : TM Z).
Proof. unfold compare. apply quiet_bind; [quietly|]. intros x. apply quiet_lift. Qed.
Hint Resolve quiet_symbols quiet_compare : quiet.
Lemma quiet_tdef l p n : quiet (find_tdef l p n : TM _).
Proof. induction l as [|[d|] l IH]; cbn [find_tdef]; quietly. Qed.
Lemma quiet_close_sizes pos x : quiet (close_sizes pos x : TM _).
Proof. unfold close_sizes. quietly. Qed.
Hint Resolve quiet_tdef quiet_close_sizes : quiet.

(** *** The steps of the loop *)
Definition fine (x : xlocals) : Prop := x_r x <> XML_MEMORY_ERROR.
(** The loop goes on only when nothing was refused; when it is left, its answer
    says whether something was. *)
Definition stepped (m : TM outcome) : Prop := forall s, wlp m s (fun o s' =>
  match o with
  | Cont x => fine x /\ refused s' = refused s
  | Break x => refused s' = refused s + (if x_r x =? XML_MEMORY_ERROR then 1 else 0)
  end).
Lemma stepped_cont x : fine x -> stepped (mret (Cont x)).
Proof. intros Hx s. by apply wlp_ret. Qed.
Lemma stepped_break x : fine x -> stepped (mret (Break x)).
Proof. intros Hx s. apply wlp_ret. rewrite (proj2 (Z.eqb_neq _ _) Hx). lia. Qed.
Lemma stepped_quiet {R} (m : TM R) (f : R -> TM outcome) : quiet m -> (forall r, stepped (f r)) -> stepped (m ≫= f).
Proof.
  intros Hm Hf s. apply wlp_bind. eapply wlp_mono; [apply Hm|]. cbn. intros r s1 E1. eapply wlp_mono; [apply Hf|]. cbn.
  by rewrite E1.
Qed.
(** What follows a step leaves a [break] alone. *)
Lemma stepped_bind (m : TM outcome) (f : outcome -> TM outcome) : stepped m -> (forall x, fine x -> stepped (f (Cont x))) ->
  (forall x, f (Break x) = mret (Break x)) -> stepped (m ≫= f).
Proof.
  intros Hm Hf Hb s. apply wlp_bind. eapply wlp_mono; [apply Hm|]. cbn. intros [x|x] s1 E1.
  - destruct E1 as [Hx E1]. eapply wlp_mono; [by apply Hf|]. cbn. by rewrite E1.
  - rewrite Hb. by apply wlp_ret.
Qed.
(** Code that only changes the variables, and not the answer. *)
Definition same (x : xlocals) (m : TM xlocals) : Prop := forall s, wlp m s (fun y s' => x_r y = x_r x /\ refused s' = refused s).
Lemma same_ret x y : x_r y = x_r x -> same x (mret y).
Proof. intros E s. by apply wlp_ret. Qed.
Lemma same_quiet {R} x (m : TM R) (f : R -> TM xlocals) : quiet m -> (forall r, same x (f r)) -> same x (m ≫= f).
Proof. intros Hm Hf s. apply wlp_bind. eapply wlp_mono; [apply Hm|]. cbn. intros r s1 E1. eapply wlp_mono; [apply Hf|]. cbn. by rewrite E1. Qed.
Lemma same_bind x (m : TM xlocals) (f : xlocals -> TM xlocals) : same x m -> (forall y, x_r y = x_r x -> same x (f y)) -> same x (m ≫= f).
Proof.
  intros Hm Hf s. apply wlp_bind. eapply wlp_mono; [apply Hm|]. cbn. intros y s1 [Ey E1]. eapply wlp_mono; [by apply Hf|]. cbn. by rewrite E1.
Qed.
Lemma stepped_same x (m : TM xlocals) (f : xlocals -> TM outcome) : fine x -> same x m -> (forall y, fine y -> stepped (f y)) -> stepped (m ≫= f).
Proof.
  intros Hx Hm Hf s. apply wlp_bind. eapply wlp_mono; [apply Hm|]. cbn. intros y s1 [Ey E1]. rewrite -E1.
  eapply wlp_mono; [apply Hf; unfold fine; by rewrite Ey|]. done.
Qed.
(** A request that is refused ends the loop. *)
Lemma stepped_tells {R} (b : R -> bool) (m : TM R) (f : R -> TM outcome) : tells false b m ->
  (forall r, b r = false -> stepped (f r)) -> (forall r, b r = true -> exists x, f r = mret (Break x) /\ x_r x = XML_MEMORY_ERROR) -> stepped (m ≫= f).
Proof.
  intros Hm Hf Ht s. apply wlp_bind. eapply wlp_mono; [apply Hm|]. cbv beta. intros r s1 E1. destruct (b r) eqn:Eb.
  - destruct (Ht r Eb) as (x & -> & Ex). apply wlp_ret. rewrite Ex Z.eqb_refl. lia.
  - eapply wlp_mono; [by apply Hf|]. cbv beta. intros o s2. replace (refused s1) with (refused s) by lia. done.
Qed.

Lemma tells_create_at (v : vec xml_tag) n : tells false (fun r => bool_decide (r.1 = None)) (create_at v n : TM _).
Proof. unfold create_at. eapply tells_bind; [apply tells_fill|]. intros [[|] v']; by apply tells_ret. Qed.
Lemma tells_create (v : vec xml_tag) : tells false (fun r => bool_decide (r.1 = None)) (xml_create_tag v : TM _).
Proof.
  unfold xml_create_tag. destruct (negb _).
  - destruct (first_null (v_slots v) 0); [apply tells_create_at|]. eapply tells_bind; [apply tells_alloc_slots|].
    intros [r v']. cbn [fst]. destruct (r =? JSON_OK); cbn [negb]; [apply tells_create_at|by apply tells_ret].
  - eapply tells_bind; [apply tells_alloc|]. intros p. cbv beta. destruct (p =? 0); cbn [negb]; [by apply tells_ret|apply tells_create_at].
Qed.
Lemma stepped_leaf (m : TM xml_tag) x : fine x -> quiet m -> stepped (leaf m x).
Proof.
  intros Hx Hm. unfold leaf. eapply stepped_tells; [apply tells_create|..].
  - intros [[n|] v] E; [|done]. apply stepped_quiet; [done|]. intros t. by apply stepped_cont.
  - intros [[n|] v] E; [done|]. by eexists.
Qed.

Ltac stepping :=
  repeat first
    [ progress intros
    | progress cbn [negb]
    | solve [apply stepped_cont; repeat case_match; done]
    | solve [apply stepped_break; repeat case_match; done]
    | apply stepped_quiet; [solve [quietly]|]
    | match goal with
      | |- stepped (if ?c then _ else _) => destruct c
      | |- stepped (match ?x with _ => _ end) => destruct x
      end ].

Section step.
Context (parse : xml_tag -> TM (Z * xml_tag)) (Hparse : forall t, tells false (fun r => r.1 =? XML_MEMORY_ERROR) (parse t)).
Context (defs : list tdef_slot) (pos : Z).

Lemma stepped_pi x : fine x -> stepped (end_pi defs x).
Proof.
  intros Hx. unfold end_pi. apply stepped_bind.
  - destruct (x_has x PI); [|by apply stepped_cont]. apply stepped_bind; [apply stepped_leaf; [done|quietly]|stepping|done].
  - stepping.
  - done.
Qed.
Lemma stepped_close d x : fine x -> stepped (close_tag pos d x).
Proof.
  intros Hx. unfold close_tag. apply stepped_quiet; [quietly|]. intros r. destruct (r =? 0); [stepping|].
  destruct (_ && _); [|stepping]. apply stepped_bind; [apply stepped_leaf; [done|quietly]|stepping|done].
Qed.
Lemma stepped_open d x : fine x -> stepped (open_tag parse d x).
Proof.
  intros Hx. unfold open_tag. eapply stepped_tells; [apply tells_create|..].
  - intros [[n|] v] E; [|done]. apply stepped_quiet; [quietly|]. intros h. destruct (negb _); [|by apply stepped_cont].
    eapply stepped_tells; [apply Hparse|..].
    + intros [r t] Er%Z.eqb_neq. cbn [fst] in Er. destruct (r =? XML_OK); cbn [negb]; [by apply stepped_cont|by apply stepped_break].
    + intros [r t] Er%Z.eqb_eq. cbn [fst] in Er. subst r. cbn. by eexists.
  - intros [[n|] v] E; [done|]. by eexists.
Qed.
Lemma same_close x : same x (close_sizes pos x).
Proof. unfold close_sizes. apply same_quiet; [quietly|]. intros sn. apply same_quiet; [quietly|]. intros sp. by apply same_ret. Qed.
Lemma stepped_end x : fine x -> stepped (end_tag parse defs pos x).
Proof.
  intros Hx. unfold end_tag. eapply stepped_same; [exact Hx|apply same_close|]. intros y Hy. apply stepped_quiet; [quietly|]. intros d.
  apply stepped_bind; [|stepping|done]. destruct (x_has y SLASH); [by apply stepped_close|by apply stepped_open].
Qed.
Lemma stepped_gt x : fine x -> stepped (on_gt parse defs pos x).
Proof.
  intros Hx. unfold on_gt. destruct (x_has x _); [by apply stepped_cont|]. apply stepped_bind; [|stepping|done].
  destruct (x_has x SCOPE_OPEN); [|stepping]. destruct (x_has x COMMENT).
  - unfold end_comment. stepping.
  - destruct (_ && _); [by apply stepped_pi|]. destruct (negb _); [by apply stepped_end|by apply stepped_cont].
Qed.
Lemma stepped_lt x : fine x -> stepped (on_lt pos x).
Proof. intros Hx. unfold on_lt. stepping. Qed.
Lemma stepped_slash x : fine x -> stepped (on_slash pos x).
Proof.
  intros Hx. unfold on_slash. destruct (x_has x _); [by apply stepped_cont|]. eapply stepped_same; [exact Hx| |stepping].
  destruct (x_has x SCOPE_OPEN); [|by apply same_ret]. apply same_bind; [apply same_close|]. intros y Ey. by apply same_ret.
Qed.
Lemma stepped_blank x : fine x -> stepped (on_blank pos x).
Proof.
  intros Hx. unfold on_blank. destruct (x_has x _); [by apply stepped_cont|]. eapply stepped_same; [exact Hx| |stepping].
  destruct (_ && _); [|by apply same_ret]. apply same_quiet; [quietly|]. intros h. apply same_quiet; [quietly|]. intros sn.
  apply same_ret. by case_match.
Qed.
Lemma stepped_question x : fine x -> stepped (on_question pos x).
Proof.
  intros Hx. unfold on_question. destruct (x_has x _); [by apply stepped_cont|]. eapply stepped_same; [exact Hx| |stepping].
  destruct (x_has x SCOPE_OPEN); [|by apply same_ret]. destruct (_ && _); [apply same_ret; by case_match|].
  destruct (_ && _); [|by apply same_ret]. apply same_quiet; [quietly|]. intros sp. by apply same_ret.
Qed.
Lemma stepped_pure (f : xlocals -> outcome) x : (exists y, f x = Cont y /\ x_r y = x_r x) -> fine x -> stepped (mret (f x)).
Proof. intros (y & -> & E) Hx. apply stepped_cont. unfold fine. by rewrite E. Qed.
Lemma step_stepped c x : fine x -> stepped (xml_step parse defs c pos x).
Proof.
  intros Hx. unfold xml_step. repeat case_match; try first [by apply stepped_gt|by apply stepped_lt|by apply stepped_slash|by apply stepped_blank|by apply stepped_question].
  - apply stepped_pure; [|done]. eexists. split; [reflexivity|]. by case_match.
  - apply stepped_pure; [|done]. eexists. split; [reflexivity|]. by case_match.
  - apply stepped_pure; [|done]. unfold on_exclam. case_match; [by eexists|]. eexists. split; [reflexivity|]. by case_match.
  - apply stepped_pure; [|done]. unfold on_dash. case_match; [by eexists|]. eexists. split; [reflexivity|]. by repeat case_match.
  - apply stepped_pure; [|done]. eexists. split; [reflexivity|]. by case_match.
  - apply stepped_pure; [|done]. unfold on_symbol. case_match; [by eexists|]. eexists. split; [reflexivity|]. by repeat case_match.
Qed.
End step.

(** *** The whole parser *)
Lemma told_loop fuel defs : forall x, fine x -> tells false (fun r => r.1 =? XML_MEMORY_ERROR) (xml_loop fuel defs x : TM _).
Proof.
  induction fuel as [|fuel IH]; intros x Hx; cbn [xml_loop]; [apply tells_undefined|].
  apply tells_quiet; [quietly|]. intros [c pos]. destruct (c =? 0); [by apply tells_ret|].
  intros s. apply wlp_bind. eapply wlp_mono; [apply step_stepped; [|done]|].
  - intros t. by apply IH.
  - cbv beta. intros [y|y] s1 E.
    + destruct E as [Hy E]. rewrite -E. by apply IH.
    + apply wlp_ret. cbn [fst]. lia.
Qed.
(** Parsing in a context without a document. *)
Lemma xml_parse_told x content sz (a : tracked A) r x' a' : pf_read (xc_htc x) = None -> xc_root x = None -> xml_parse x content sz a = Some ((r, x'), a') ->
  refusals a' = refusals a + (if (r =? XML_MEMORY_ERROR) || bool_decide (xc_root x' = None) then 1 else 0).
Proof.
  intros Hr Hx. unfold xml_parse, root_tag. rewrite Hr Hx. unfold mbind, M_bind, mem_alloc. cbn [a_alloc tracked_allocator].
  destruct (a_alloc (t_base a) XML_TAG_SIZE) as [p b]. cbn [mret M_ret]. unfold mret, M_ret. destruct (p =? 0) eqn:Ep; cbn [negb].
  - intros [= <- <- <-]. cbn. lia.
  - unfold parse_root. cbn zeta. set (t := mkTag _ _ _ _ _ _ _ _ _). set (s := mkP _ _ _ _).
    pose proof (told_loop (xml_fuel sz) (xc_defs x) (x_start t) ltac:(done) s) as Hw. unfold _xml_parse, wlp in *.
    destruct (xml_loop _ _ _ s) as [[[r0 t0] s0]|]; [|done]. intros [= <- <- <-]. cbn [fst] in Hw. unfold refused in Hw. cbn in Hw |- *.
    destruct (r0 =? XML_MEMORY_ERROR); cbn; lia.
Qed.
End xml.
