(* ===== verification/XmlRoundtrip.v ===== *)
(** * XML parser: round trip (hypertext/libht/xml.c)

    A document written by [render] is parsed into the tree of its elements, unless
    an allocation is refused.  The restrictions are the parser's: no quotes or
    apostrophes in text, none of either kind in a value, no comments, and no
    self-closing element whose name begins with the name of the element around it;
    XmlDefects.v shows what becomes of those. *)
From S2P Require Import Prelude Memory Str HtContext Json JsonScan JsonMemory JsonRoundtrip Xml XmlRefusal.
Set Default Goal Selector "!".

(** ** Documents *)
Definition LT : Z := 60.
Definition GT : Z := 62.
Definition SLASHC : Z := 47.
Definition SP : Z := 32.
Definition EQ : Z := 61.
Inductive node :=
| Text (l : list Z)
| Elem (name : list Z) (attrs : list (list Z * list Z)) (kids : list node)
| Empty (name : list Z) (attrs : list (list Z * list Z)).
Definition attr (a : list Z * list Z) : list Z := a.1 ++ EQ :: QUOTE :: a.2 ++ [QUOTE].
(** A blank in front of each. *)
Definition attributes (l : list (list Z * list Z)) : list Z := concat (map (fun a => SP :: attr a) l).
Fixpoint xrender (n : node) : list Z :=
  match n with
  | Text l => l
  | Elem name at_ kids => LT :: name ++ attributes at_ ++ GT :: concat (map xrender kids) ++ LT :: SLASHC :: name ++ [GT]
  | Empty name at_ => LT :: name ++ attributes at_ ++ [SLASHC; GT]
  end.
Definition renders (l : list node) : list Z := concat (map xrender l).

(** What the tree is to hold: an element with its name, the text of its
    parameters, its contents between the tags and its elements in order. *)
#[warnings="-register-all"]
Inductive xelem := XE (name params : list Z) (content : option (list Z)) (kids : list xelem).
Fixpoint elem_of (n : node) : list xelem :=
  match n with
  | Text _ => []
  | Elem name at_ kids => [XE name (drop 1 (attributes at_)) (Some (renders kids)) (concat (map elem_of kids))]
  | Empty name at_ => [XE name (drop 1 (attributes at_)) None []]
  end.
Definition elems (l : list node) : list xelem := concat (map elem_of l).

(** *** What can be written *)
Definition special (c : Z) : bool := bool_decide (c ∈ [62; 60; 47; 39; 34; 32; 9; 10; 33; 45; 63; 92]).
Definition name_sym (c : Z) : bool := plain c && negb (special c).
Definition xname (l : list Z) : bool := match l with [] => false | c :: l => name_sym c && forallb (fun c => name_sym c || (c =? 45)) l end.
Definition value_char (c : Z) : bool := plain c && negb (bool_decide (c ∈ [34; 39; 92])).
Definition text_char (c : Z) : bool := plain c && negb (bool_decide (c ∈ [62; 60; 39; 34; 92])).
Definition attrs_ok (l : list (list Z * list Z)) : bool :=
  forallb (fun a => xname a.1 && forallb value_char a.2) l && (Z.of_nat (length (attributes l)) <? 2 ^ 16).
Definition is_prefix (p l : list Z) : bool := bool_decide (take (length p) l = p).
(** [parent]: the name of the element around it. *)
Fixpoint well_written (parent : list Z) (n : node) : bool :=
  match n with
  | Text l => forallb text_char l
  | Elem name at_ kids => xname name && (Z.of_nat (length name) <? 256) && attrs_ok at_ && forallb (well_written name) kids
  | Empty name at_ => xname name && (Z.of_nat (length name) <? 256) && attrs_ok at_ && negb (is_prefix parent name)
  end.

(** *** Reading a tree back *)
(** Nothing is read outside of the document. *)
Definition slice (m : list Z) (p n : Z) : option (list Z) :=
  if (0 <=? p) && (0 <=? n) && (p + n <=? Z.of_nat (length m)) then Some (take (Z.to_nat n) (drop (Z.to_nat p) m)) else None.
Definition params_of (m : list Z) (t : xml_tag) : option (list Z) := match p_parameters t with Some p => slice m p (sz_parameters t) | None => Some [] end.
Definition content_of (m : list Z) (t : xml_tag) : option (option (list Z)) := match t_content t with Some p => Some <$> slice m p (t_sz_content t) | None => Some None end.
Fixpoint xdecode (m : list Z) (t : xml_tag) : option xelem :=
  kids ← read_slots (xdecode m) (v_slots (childs t));
  params ← params_of m t;
  content ← content_of m t;
  match p_name t with
  | InDoc p => name ← slice m p (sz_name t); Some (XE name params content kids)
  | Ext _ => None
  end.

(** ** Adding a child *)
Section heap.
Context {A : Type} `{AllocatorLaws A}.
Abbreviation ST := (pstate A).

Definition frame (a a' : A) : Prop := forall q n, a_live a !! q = Some n -> a_live a' !! q = Some n.
Definition vec_live (v : vec xml_tag) (a : A) : Prop :=
  a_ok a /\ (v_ptr v = 0 /\ v_slots v = [] \/ v_ptr v <> 0 /\ a_live a !! v_ptr v = Some (num v * PTR_SIZE)).
Lemma heap_frame_trans a b c : frame a b -> frame b c -> frame a c.
Proof. intros H1 H2 q n Hq. by apply H2, H1. Qed.

Lemma wp_heap_alloc n (s : ST) (Q : Z -> ST -> Prop) : a_ok (p_heap s) -> 0 < n ->
  (forall p a, a_ok a -> frame (p_heap s) a -> (p = 0 \/ p <> 0 /\ a_live (p_heap s) !! p = None /\ a_live a !! p = Some n) -> Q p (mkP A (p_htc s) (err_pos s) a)) ->
  wp (heap_op (mem_alloc n)) s Q.
Proof.
  intros Hok Hn HQ. destruct (alloc_law (p_heap s) n Hok Hn) as [Hok' Hl]. unfold wp, heap_op, mem_alloc. destruct (a_alloc (p_heap s) n) as [p a] eqn:E.
  cbn [fst snd] in *. apply HQ; [done| |].
  - intros q k Hq. destruct Hl as [[_ ->]|(_ & Hf & ->)]; [done|]. rw lookup_insert_ne //. congruence.
  - destruct Hl as [[-> _]|(Hp & Hf & ->)]; [by left|]. right. split_and!; [lia|done|]. apply lookup_insert_eq.
Qed.
Lemma wp_heap_free p n (s : ST) (Q : unit -> ST -> Prop) : a_ok (p_heap s) -> a_live (p_heap s) !! p = Some n ->
  (forall a, a_ok a -> a_live a = delete p (a_live (p_heap s)) -> Q tt (mkP A (p_htc s) (err_pos s) a)) -> wp (heap_op (mem_free p n)) s Q.
Proof.
  intros Hok Hl HQ. destruct (free_law (p_heap s) p n Hok Hl) as [Hok' Hd]. unfold wp, heap_op, mem_free. rw decide_True //. by apply HQ.
Qed.

Definition Y : Type := xelem.
Context (m : list Z).
Abbreviation dec := (xdecode m).
(** A new child is to be put behind the others. *)
Definition cell (v : vec xml_tag) (n : nat) (ys : list xelem) : Prop :=
  (n < length (v_slots v))%nat /\ (exists p t, v_slots v !! n = Some (SAt p t)) /\ packed v (S n) /\
  forall t y, dec t = Some y -> read_slots dec (v_slots (put_tag v n t)) = Some (ys ++ [y]) /\ packed (put_tag v n t) (S n).
Lemma put_tag_num v n t : num (put_tag v n t) = num v.
Proof. unfold num, put_tag. cbn. by rw length_alter. Qed.
Lemma cell_fill v n ys p : packed v n -> (n < length (v_slots v))%nat -> read_slots dec (v_slots v) = Some ys ->
  cell (mkVec (v_ptr v) (<[n := SAt p new_tag]> (v_slots v))) n ys.
Proof.
  intros Hp Hn Hys. unfold cell. cbn [v_slots]. rw length_insert. split; [done|]. split; [exists p, new_tag; by rw list_lookup_insert_eq|].
  split; [by apply packed_fill|]. intros t y Hy. unfold put_tag. cbn [v_slots v_ptr].
  assert (alter (fun s => match s with SAt p _ => SAt p t | s => s end) n (<[n := SAt p new_tag]> (v_slots v)) = <[n := SAt p t]> (v_slots v)) as ->.
  { apply list_eq. intros i. destruct (decide (n = i)) as [<-|Hi].
    - rw list_lookup_alter_eq list_lookup_insert_eq // list_lookup_insert_eq //.
    - rw list_lookup_alter_ne // !list_lookup_insert_ne //. }
  split; [by apply read_slots_fill|by apply packed_fill].
Qed.

Lemma create_at_ok v n ys (s : ST) a0 : vec_live v (p_heap s) -> frame a0 (p_heap s) -> packed v n -> (n < length (v_slots v))%nat -> read_slots dec (v_slots v) = Some ys ->
  wp (create_at v n) s (fun r s' => p_htc s' = p_htc s /\ vec_live r.2 (p_heap s') /\ frame a0 (p_heap s') /\ v_ptr r.2 = v_ptr v /\ (r.1 = None \/ r.1 = Some n /\ cell r.2 n ys)).
Proof.
  intros [Hok Hv] Hf Hp Hn Hys. unfold create_at, fill_slot. apply wp_bind, wp_bind, wp_heap_alloc; [done|done|]. intros p a Hoka Hfa Hpa.
  assert (vec_live v a) as Hva. { split; [done|]. destruct Hv as [Hv|[Hz Hl]]; [by left|right]. split; [done|]. by apply Hfa. }
  destruct (negb (p =? 0)).
  - apply wp_ret, wp_ret. cbn [fst snd v_ptr]. split; [done|]. split; [split; [done|]|split; [by eapply heap_frame_trans|split; [done|right; split; [done|by apply cell_fill]]]].
    destruct (proj2 Hva) as [[Hz Hs]|Hl]; [rewrite Hs in Hn; cbn in Hn; lia|]. right. unfold num. cbn. by rw length_insert.
  - apply wp_ret, wp_ret. split; [done|]. split; [exact Hva|]. split; [by eapply heap_frame_trans|]. split; [done|by left].
Qed.
(** The array grows by 16 when it is full. *)
Lemma grow_ok v n ys (s : ST) a0 : vec_live v (p_heap s) -> frame a0 (p_heap s) -> packed v n -> length (v_slots v) = n -> Z.of_nat n < MAX_DOCUMENT ->
  read_slots dec (v_slots v) = Some ys -> v_ptr v <> 0 -> a_live a0 !! v_ptr v = None ->
  wp (alloc_slots v) s (fun r s' => p_htc s' = p_htc s /\ vec_live r.2 (p_heap s') /\ frame a0 (p_heap s') /\ a_live a0 !! v_ptr r.2 = None /\
    (r.1 <> JSON_OK \/ r.1 = JSON_OK /\ packed r.2 n /\ (n < length (v_slots r.2))%nat /\ read_slots dec (v_slots r.2) = Some ys)).
Proof.
  intros [Hok Hv] Hf Hp Hl Hmax Hys Hnz Ha0. destruct Hv as [[? _]|[_ Hv]]; [done|]. unfold MAX_DOCUMENT in Hmax.
  assert (num v = Z.of_nat n) as En by (unfold num; by rw Hl). unfold alloc_slots. rw En.
  assert (u32 (Z.of_nat n + INITIAL_SIZE) = Z.of_nat n + 16) as -> by (apply u32_small; unfold INITIAL_SIZE; lia).
  assert (u32 ((Z.of_nat n + 16) * PTR_SIZE) = (Z.of_nat n + 16) * 8) as -> by (apply u32_small; unfold PTR_SIZE; lia).
  assert (u32 (Z.of_nat n * PTR_SIZE) = Z.of_nat n * PTR_SIZE) as -> by (apply u32_small; unfold PTR_SIZE; lia).
  apply wp_bind, wp_heap_alloc; [done|lia|]. intros p a Hoka Hfa Hpa. destruct (Z.eqb_spec p 0) as [->|Hp0]; cbn [negb].
  - apply wp_ret. split; [done|]. split; [split; [done|right; split; [done|by apply Hfa]]|]. split; [by eapply heap_frame_trans|]. split; [done|by left].
  - rw (proj2 (Z.ltb_lt _ (2 ^ 32))); [|unfold PTR_SIZE; lia]. rw (proj2 (Z.leb_le _ _)); [|lia]. cbn [andb]. rw (proj2 (Z.eqb_neq _ 0) Hnz). cbn [negb when].
    destruct Hpa as [?|(_ & Hfr & Hlp)]; [done|]. rewrite En in Hv. apply wp_bind, wp_heap_free; [done|by apply Hfa|]. intros a2 Hok2 Hl2. cbn [p_heap] in Hl2.
    apply wp_ret. cbn [fst snd v_ptr v_slots p_heap p_htc]. replace (Z.to_nat (Z.of_nat n + 16 - Z.of_nat n)) with 16%nat by lia.
    assert (v_ptr v <> p) as Hne by (intros <-; congruence).
    split; [done|]. split; [split; [done|right; split; [done|]]|].
    { rw Hl2 lookup_delete_ne //. unfold num. cbn [v_slots]. rw length_app length_replicate Hlp. unfold PTR_SIZE. f_equal. lia. }
    split; [|split; [destruct (a_live a0 !! p) eqn:E; [apply Hf in E; congruence|done]|]].
    + intros q k Hq. rw Hl2 lookup_delete_ne; [by apply Hfa, Hf|by intros <-; congruence].
    + right. split; [done|]. split; [by apply packed_grow|]. split; [rw length_app length_replicate; lia|]. rw read_slots_app Hys read_slots_null. cbn. by rw app_nil_r.
Qed.
Lemma create_ok v n ys (s : ST) a0 : vec_live v (p_heap s) -> frame a0 (p_heap s) -> packed v n -> Z.of_nat n < MAX_DOCUMENT ->
  read_slots dec (v_slots v) = Some ys -> a_live a0 !! v_ptr v = None ->
  wp (xml_create_tag v) s (fun r s' => p_htc s' = p_htc s /\ vec_live r.2 (p_heap s') /\ frame a0 (p_heap s') /\ a_live a0 !! v_ptr r.2 = None /\ (r.1 = None \/ r.1 = Some n /\ cell r.2 n ys)).
Proof.
  intros Hv Hf Hp Hmax Hys Ha0. unfold xml_create_tag. destruct (Z.eqb_spec (v_ptr v) 0) as [Hz|Hz]; cbn [negb].
  - destruct Hv as [Hok [[_ Hs]|[? _]]]; [|done]. assert (n = 0%nat) as ->. { pose proof (packed_num v n Hp) as Hn. unfold num in Hn. rewrite Hs in Hn. cbn in Hn. lia. }
    apply wp_bind, wp_heap_alloc; [done|done|]. intros p a Hoka Hfa Hpa. destruct (Z.eqb_spec p 0) as [->|Hp0]; cbn [negb].
    + apply wp_ret. split; [done|]. split; [split; [done|by left]|]. split; [by eapply heap_frame_trans|]. split; [done|by left].
    + destruct Hpa as [?|(_ & Hfr & Hlp)]; [done|]. rewrite Hs in Hys. injection Hys as <-.
      eapply wp_mono; [apply (create_at_ok (mkVec p (replicate (Z.to_nat INITIAL_TAG_LIST) SNull)) 0 [] _ a0)|].
      * split; [done|]. right. split; [done|]. exact Hlp.
      * by eapply heap_frame_trans.
      * exists [], 16%nat. split_and!; [done|done|lia|constructor].
      * vm_compute. lia.
      * exact (read_slots_null dec 16).
      * intros r s' (E & H1 & H2 & H3 & H4). split; [done|]. split; [done|]. split; [done|]. split; [|done]. rw H3. cbn [v_ptr].
        destruct (a_live a0 !! p) eqn:E2; [apply Hf in E2; cbn in Hfr; congruence|done].
  - rw (first_null_packed v n 0 Hp). destruct (Nat.eqb_spec (length (v_slots v)) n) as [En|En].
    + apply wp_bind. eapply wp_mono; [by apply (grow_ok v n ys s a0)|]. intros [r v'] s' (E & H1 & H2 & H3 & H4). cbn [fst snd] in *. destruct H4 as [H4|(-> & H4 & H5 & H6)].
      * rw (proj2 (Z.eqb_neq r JSON_OK) H4). apply wp_ret. split; [done|]. split; [done|]. split; [done|]. split; [done|by left].
      * change (JSON_OK =? JSON_OK) with true. cbv iota. rw En. eapply wp_mono; [by apply (create_at_ok v' n ys s' a0)|].
        intros r2 s2 (E2 & G1 & G2 & G3 & G4). split; [by rw E2|]. split; [done|]. split; [done|]. split; [by rw G3|done].
    + cbn [Nat.add]. eapply wp_mono; [apply (create_at_ok v n ys s a0); try done|].
      * pose proof (packed_num v n Hp). unfold num in *. lia.
      * intros r2 s2 (E2 & G1 & G2 & G3 & G4). split; [done|]. split; [done|]. split; [done|]. split; [by rw G3|done].
Qed.
End heap.

(** ** Running the loop *)
Section running.
Context {A : Type} `{AllocatorLaws A} (m : list Z).
Context (m_max : Z.of_nat (length m) < MAX_DOCUMENT).
Abbreviation ST := (pstate A).
Abbreviation at_ := (at_ m).
Abbreviation txt := (txt m).

(** From the head of the loop, [c] read last, with the symbol at [p] to come: the
    post-condition is met with any fuel for the rest of the document. *)
Definition runp (c : Z) (x : xlocals) (p : nat) (a : A) (Q : Z * xml_tag -> ST -> Prop) : Prop :=
  forall f s, (length m - p < f)%nat -> at_ p s -> p_heap s = a -> wp (xml_loop f [] (set_prev c x)) s Q.
Definition run (x : xlocals) (p : nat) (a : A) (Q : Z * xml_tag -> ST -> Prop) : Prop := forall c, runp c x p a Q.

Lemma read_char_wp p c l (s : ST) : at_ p s -> txt p (c :: l) -> plain c = true -> wp read s (fun r s' => r = (c, Z.of_nat p) /\ at_ (S p) s' /\ p_heap s' = p_heap s).
Proof.
  intros [o E] Ht Hc. unfold wp, read. rw E. cbn -[read_utf8]. change (read_of E_UTF_8) with read_utf8. unfold read_utf8. cbn -[utf8_tail].
  pose proof (txt_bound m p c l Ht) as Hb. destruct (Z.ltb_spec (Z.of_nat p) (Z.of_nat (length m))); [|lia].
  rw (txt_load m p c l Ht). cbn [mbind option_bind]. cbn [utf8_tail]. rw (plain_lead m c Hc). cbn [andb mbind option_bind].
  split; [done|]. split; [|done]. exists o. cbn. unfold set_pos. cbn. do 2 f_equal. lia.
Qed.
Lemma read_end_wp (s : ST) : at_ (length m) s -> wp read s (fun r s' => r.1 = 0 /\ at_ (length m) s' /\ p_heap s' = p_heap s).
Proof.
  intros [o E]. unfold wp, read. rw E. cbn -[read_utf8]. change (read_of E_UTF_8) with read_utf8. unfold read_utf8. cbn -[utf8_tail].
  rw Z.ltb_irrefl. split; [done|]. split; [by exists o|done].
Qed.
(** One symbol, whatever its step does. *)
Lemma run_any c0 c x p a l Q : txt p (c :: l) -> plain c = true ->
  (forall f s, (length m - S p < f)%nat -> at_ (S p) s -> p_heap s = a ->
    wp (xml_step (fun t => xml_loop f [] (x_start t)) [] c (Z.of_nat p) (set_prev c0 x)) s
      (fun o s' => match o with Cont x' => wp (xml_loop f [] (set_prev c x')) s' Q | Break x' => Q (x_r x', x_tag x') s' end)) ->
  runp c0 x p a Q.
Proof.
  intros Ht Hc HQ f s Hf Hs Ha. pose proof (txt_bound m p c l Ht) as Hb. destruct f as [|f]; [lia|]. cbn [xml_loop]. apply wp_bind.
  eapply wp_mono; [by eapply read_char_wp|]. intros r s' (-> & Hs' & Ha'). assert ((c =? 0) = false) as -> by (unfold plain in Hc; lia).
  apply wp_bind. eapply wp_mono; [apply HQ; [lia|done|by rw Ha']|]. intros [x'|x'] s2 H2; [done|by apply wp_ret].
Qed.
(** A symbol whose step changes the variables only. *)
Lemma run_step c0 c x x' p a l Q : txt p (c :: l) -> plain c = true ->
  (forall P s, at_ (S p) s -> xml_step P [] c (Z.of_nat p) (set_prev c0 x) s = Some (Cont (set_prev c0 x'), s)) ->
  runp c x' (S p) a Q -> runp c0 x p a Q.
Proof.
  intros Ht Hc Hx HQ. eapply run_any; [done|done|]. intros f s Hf Hs Ha. eapply wp_intro; [by apply Hx|]. cbn beta iota. by apply HQ.
Qed.
(** Symbols that change nothing but what was read last. *)
Definition calm (x : xlocals) (c : Z) : Prop :=
  plain c = true /\ forall c0 P p (s : ST), xml_step P [] c p (set_prev c0 x) s = Some (Cont (set_prev c0 x), s).
Lemma run_calm x l p a k Q : Forall (calm x) l -> txt p (l ++ k) -> run x (p + length l) a Q -> run x p a Q.
Proof.
  intros Hl. revert p. induction Hl as [|c l [Hc Hx] Hl IH]; intros p Ht HQ.
  - by rewrite Nat.add_0_r in HQ.
  - intros c0. cbn [app] in Ht. eapply run_step; [exact Ht|done|by intros P s _; apply Hx|]. apply txt_cons in Ht as [_ Ht].
    apply (IH (S p) Ht). cbn [length] in HQ. by rewrite Nat.add_succ_r in HQ.
Qed.
Lemma run_end x a Q c : (forall s, at_ (length m) s -> p_heap s = a -> Q (XML_OK, x_tag x) s) -> runp c x (length m) a Q.
Proof.
  intros HQ f s Hf Hs Ha. destruct f as [|f]; [lia|]. cbn [xml_loop]. apply wp_bind. eapply wp_mono; [by apply read_end_wp|].
  intros [c' p] s' (Hc & Hs' & Ha'). cbn in Hc. subst c'. change (0 =? 0) with true. cbv iota. apply wp_ret, HQ; [done|by rw Ha'].
Qed.
Lemma symbols_at_ok k p q (s : ST) : at_ k s -> (q <= p)%nat -> (p < length m)%nat -> symbols (Some (Z.of_nat p)) (Some (Z.of_nat q)) s = Some (Z.of_nat (p - q), s).
Proof.
  intros [o E] Hq Hp. unfold symbols, htc, gets, mbind, M_bind, mret, M_ret. rw E. unfold ht_symbols, belongs. cbn [htc_content sz_content encoding].
  unfold MAX_DOCUMENT in m_max. assert ((0 <=? Z.of_nat p) && (Z.of_nat p <? Z.of_nat (length m)) = true) as -> by (apply andb_true_iff; split; lia).
  assert ((0 <=? Z.of_nat q) && (Z.of_nat q <? Z.of_nat (length m)) = true) as -> by (apply andb_true_iff; split; lia). cbn [andb].
  rw (proj2 (Z.ltb_ge _ _)); [|lia]. change (symbol_bytes E_UTF_8) with 1. rw Z.div_1_r u32_small; [|lia]. do 2 f_equal. lia.
Qed.

(** *** The variables on the way *)
Definition xt (st r : Z) (t : xml_tag) : xlocals := mkX st None 0 None 0 0 0 r t.
Definition text_state (st : Z) : Prop := st = 0 \/ st = SYMBOL.
Definition in_tag (st : Z) (q : nat) (sn : Z) (pr : option nat) (sp : Z) (p : nat) (r : Z) (t : xml_tag) : xlocals :=
  mkX st (Some (Z.of_nat q)) sn (Z.of_nat <$> pr) sp (Z.of_nat p) 0 r t.

Lemma not_special c : special c = false -> forall k, k ∈ [62; 60; 47; 39; 34; 32; 9; 10; 33; 45; 63; 92] -> (c =? k) = false.
Proof. unfold special. intros Hc%bool_decide_eq_false k Hk. apply Z.eqb_neq. by intros ->. Qed.
Lemma step_symbol (P : xml_tag -> M ST (Z * xml_tag)) c pos x : special c = false -> xml_step P [] c pos x = mret (on_symbol pos x).
Proof. intros Hc. unfold xml_step. by rw !(not_special c Hc) //; set_solver. Qed.
Lemma step_text (P : xml_tag -> M ST (Z * xml_tag)) c st r t c0 : text_char c = true -> text_state st ->
  exists st', text_state st' /\ forall pos s, xml_step P [] c pos (set_prev c0 (xt st r t)) s = Some (Cont (set_prev c0 (xt st' r t)), s).
Proof.
  intros [Hc Hn]%andb_true_iff Hst. apply negb_true_iff, bool_decide_eq_false in Hn.
  destruct (decide (c = 47 \/ c = 32 \/ c = 9 \/ c = 10 \/ c = 33 \/ c = 63)) as [Hs|Hs].
  { exists 0. split; [by left|]. intros pos s. by destruct Hs as [->|[->|[->|[->|[->| ->]]]]]; destruct Hst as [->| ->]. }
  destruct (decide (c = 45)) as [->|Hd]; [exists st; split; [done|]; intros pos s; by destruct Hst as [->| ->]|].
  exists SYMBOL. split; [by right|]. intros pos s. rw step_symbol; [by destruct Hst as [->| ->]|]. unfold special. apply bool_decide_eq_false. set_solver.
Qed.
Lemma run_text l : forall p st r t a k Q, forallb text_char l = true -> text_state st -> txt p (l ++ k) ->
  (forall st', text_state st' -> run (xt st' r t) (p + length l) a Q) -> run (xt st r t) p a Q.
Proof.
  induction l as [|c l IH]; intros p st r t a k Q Hl Hst Ht HQ; [specialize (HQ st Hst); by rewrite Nat.add_0_r in HQ|].
  cbn in Hl. apply andb_true_iff in Hl as [Hc Hl]. intros c0. cbn [app] in Ht. assert (plain c = true) as Hpl by (by apply andb_true_iff in Hc as [? _]).
  eapply run_any; [exact Ht|done|]. intros f s Hf Hs Ha. destruct (step_text (fun t => xml_loop f [] (x_start t)) c st r t c0 Hc Hst) as (st' & Hst' & E).
  eapply wp_intro; [apply E|]. cbn beta iota. apply txt_cons in Ht as [_ Ht].
  refine (IH (S p) st' r t a k Q Hl Hst' Ht _ c f s Hf Hs Ha). intros st2 H2. specialize (HQ st2 H2). cbn [length] in HQ. by rewrite Nat.add_succ_r in HQ.
Qed.
Lemma run_lt p st r t a k Q c0 : text_state st -> txt p (LT :: k) -> runp LT (mkX SCOPE_OPEN None 0 None 0 (Z.of_nat p) 0 r t) (S p) a Q -> runp c0 (xt st r t) p a Q.
Proof. intros Hst Ht HQ. eapply run_step; [exact Ht|done| |exact HQ]. intros P s _. by destruct Hst as [->| ->]. Qed.
Definition name_state (st : Z) : Prop := st = 17 \/ st = 25.
Lemma name_calm st c q sn pr sp p r t : name_state st -> name_sym c = true \/ c = 45 -> calm (in_tag st q sn pr sp p r t) c.
Proof.
  intros [->| ->] [[Hc Hs%negb_true_iff]%andb_true_iff| ->]; (split; [done|]); intros c0 P pos s; first [done|by rw step_symbol].
Qed.
Lemma name_calm_all st l q sn pr sp p r t : name_state st -> forallb (fun c => name_sym c || (c =? 45)) l = true -> Forall (calm (in_tag st q sn pr sp p r t)) l.
Proof.
  intros Hst. induction l as [|c l IH]; cbn; [constructor|]. intros [[Hc|Hc%Z.eqb_eq]%orb_true_iff Hl]%andb_true_iff; (constructor; [|by apply IH]); apply name_calm; auto.
Qed.
Lemma value_calm c q sn pr sp p r t : value_char c = true -> calm (in_tag 5 q sn pr sp p r t) c.
Proof.
  intros [Hc Hn]%andb_true_iff. apply negb_true_iff, bool_decide_eq_false in Hn. split; [done|]. intros c0 P pos s.
  destruct (decide (special c = true)) as [Hs|Hs%not_true_iff_false]; [|by rw step_symbol].
  unfold special in Hs. apply bool_decide_eq_true in Hs. repeat (apply list_elem_of_cons in Hs as [->|Hs]; [try done; exfalso; apply Hn; set_solver|]). set_solver.
Qed.

(** A name: its first symbol sets the state, the others change nothing. *)
Lemma run_name st l x q q' sn pr sp p r t a k Q c0 : name_state st -> xname l = true -> txt q (l ++ k) ->
  (forall c P s, name_sym c = true -> xml_step P [] c (Z.of_nat q) (set_prev c0 x) s = Some (Cont (set_prev c0 (in_tag st q' sn pr sp p r t)), s)) ->
  run (in_tag st q' sn pr sp p r t) (q + length l) a Q -> runp c0 x q a Q.
Proof.
  intros Hst Hl Ht Hx HQ. destruct l as [|c l]; [done|]. cbn [xname] in Hl. apply andb_true_iff in Hl as [Hc Hl]. cbn [app] in Ht.
  eapply run_step; [exact Ht|by apply andb_true_iff in Hc as [? _]|by intros P s _; apply Hx|]. apply txt_cons in Ht as [_ Ht].
  apply (run_calm _ l (S q) a k Q); [by apply name_calm_all|done|]. cbn [length] in HQ. by rewrite Nat.add_succ_r in HQ.
Qed.
(** One attribute, from its name on. *)
Lemma run_attr b q sn pr p r t a kq k Q c0 : xname b.1 = true -> forallb value_char b.2 = true -> txt q (attr b ++ k) ->
  run (in_tag 1 kq sn (Some pr) 0 p r t) (q + length (attr b)) a Q -> runp c0 (in_tag 1 kq sn (Some pr) 0 p r t) q a Q.
Proof.
  intros Hn Hv Ht HQ. unfold attr in *. rewrite !length_app in HQ. cbn [length] in HQ. rewrite -app_assoc in Ht. cbn [app] in Ht. rewrite -app_assoc in Ht.
  eapply (run_name 17 b.1 _ q kq sn (Some pr) 0 p r t); [by left|done|exact Ht| |].
  { intros c P s Hc. apply andb_true_iff in Hc as [_ Hs%negb_true_iff]. by rw step_symbol. }
  apply txt_app in Ht as [_ Ht]. intros c1. eapply (run_step _ _ _ (in_tag 17 kq sn (Some pr) 0 p r t)); [exact Ht|done|by intros P s _; reflexivity|]. apply txt_cons in Ht as [_ Ht].
  eapply (run_step _ _ _ (in_tag 5 kq sn (Some pr) 0 p r t)); [exact Ht|done|by intros P s _; reflexivity|]. apply txt_cons in Ht as [_ Ht].
  eapply (run_calm (in_tag 5 kq sn (Some pr) 0 p r t) b.2); [|exact Ht|].
  { rewrite Forall_forall. rewrite forallb_forall in Hv. intros c Hc. apply value_calm, Hv. by apply list_elem_of_In. }
  apply txt_app in Ht as [_ Ht]. intros c2. eapply (run_step _ _ _ (in_tag 1 kq sn (Some pr) 0 p r t)); [exact Ht|done|by intros P s _; reflexivity|].
  rewrite length_app /= in HQ. replace (S (S (S (q + length b.1)) + length b.2)) with (q + (length b.1 + S (S (length b.2 + 1))))%nat by lia. apply HQ.
Qed.
Lemma run_attrs l : forall q sn pr p r t a kq k Q, forallb (fun a => xname a.1 && forallb value_char a.2) l = true -> txt q (attributes l ++ k) ->
  run (in_tag 1 kq sn (Some pr) 0 p r t) (q + length (attributes l)) a Q -> run (in_tag 1 kq sn (Some pr) 0 p r t) q a Q.
Proof.
  induction l as [|b l IH]; intros q sn pr p r t a kq k Q Hl Ht HQ; [by rewrite Nat.add_0_r in HQ|].
  cbn in Hl. apply andb_true_iff in Hl as [[Hn Hv]%andb_true_iff Hl]. unfold attributes in Ht. cbn [map concat app] in Ht. rewrite -app_assoc in Ht.
  intros c0. eapply (run_step _ SP _ (in_tag 1 kq sn (Some pr) 0 p r t)); [exact Ht|done|by intros P s _; reflexivity|]. apply txt_cons in Ht as [_ Ht].
  eapply run_attr; [done|done|exact Ht|]. apply txt_app in Ht as [_ Ht]. eapply IH; [done|exact Ht|].
  unfold attributes in HQ. cbn [map concat app length] in HQ. rewrite length_app in HQ. fold (attributes l) in HQ.
  by replace (S q + length (attr b) + length (attributes l))%nat with (q + S (length (attr b) + length (attributes l)))%nat by lia.
Qed.
Lemma wp_eq {R} (c : M ST R) s r s' : wp c s (fun a s2 => a = r /\ s2 = s') -> c s = Some (r, s').
Proof. unfold wp. destruct (c s) as [[a s2]|]; [by intros [-> ->]|done]. Qed.
(** From the opening bracket to what ends the tag. *)
Definition head_of (n : list Z) (l : list (list Z * list Z)) (p : nat) (r : Z) (t : xml_tag) : xlocals :=
  match l with
  | [] => in_tag 17 (S p) 0 None 0 p r t
  | _ => in_tag 1 (S p) (Z.of_nat (length n)) (Some (S (S p) + length n)%nat) 0 p r t
  end.
Lemma run_head n l p st r t a k Q : xname n = true -> attrs_ok l = true -> text_state st -> txt p (LT :: n ++ attributes l ++ k) -> k <> [] ->
  run (head_of n l p r t) (S p + length n + length (attributes l)) a Q -> run (xt st r t) p a Q.
Proof.
  intros Hn Hl Hst Ht Hk HQ c0. eapply run_lt; [done|exact Ht|]. apply txt_cons in Ht as [_ Ht].
  assert (forall c P s, name_sym c = true -> xml_step P [] c (Z.of_nat (S p)) (set_prev LT (mkX SCOPE_OPEN None 0 None 0 (Z.of_nat p) 0 r t)) s =
    Some (Cont (set_prev LT (in_tag 17 (S p) 0 None 0 p r t)), s)) as H1.
  { intros c P s Hc. apply andb_true_iff in Hc as [_ Hs%negb_true_iff]. by rw step_symbol. }
  eapply (run_name 17 n _ (S p) (S p) 0 None 0 p r t); [by left|done|exact Ht|exact H1|]. apply txt_app in Ht as [_ Ht].
  destruct l as [|b l]; [by rewrite Nat.add_0_r in HQ|]. apply andb_true_iff in Hl as [Hl _]. cbn in Hl. apply andb_true_iff in Hl as [[Hb1 Hb2]%andb_true_iff Hl].
  unfold attributes in Ht. cbn [map concat app] in Ht. fold (attributes l) in Ht. rewrite -app_assoc in Ht. intros c1.
  eapply (run_step _ SP _ (head_of n (b :: l) p r t)); [exact Ht|done| |].
  { intros P s Hs. apply wp_eq. change (wp (on_blank (Z.of_nat (S p + length n)) (set_prev c1 (in_tag 17 (S p) 0 None 0 p r t))) s
      (fun o s' => o = Cont (set_prev c1 (head_of n (b :: l) p r t)) /\ s' = s)). unfold on_blank. cbn [x_has has x_state set_prev in_tag Z.land].
    change (negb (Z.land 17 in_text =? 0)) with false. cbv iota. apply wp_bind, wp_bind, wp_gets, wp_bind.
    eapply wp_intro; [apply (symbols_at_ok _ (S p + length n) (S p) s Hs); [lia|]; apply txt_bound in Ht; lia|].
    replace (S p + length n - S p)%nat with (length n) by lia. apply wp_ret, wp_ret. split; [|done]. destruct Hs as [o E]. rw E. reflexivity. }
  apply txt_cons in Ht as [_ Ht]. rewrite app_assoc in Ht. change (head_of n (b :: l) p r t) with (in_tag 1 (S p) (Z.of_nat (length n)) (Some (S (S p) + length n)%nat) 0 p r t) in *.
  rewrite -app_assoc in Ht. eapply run_attr; [done|done|exact Ht|]. apply txt_app in Ht as [_ Ht]. eapply run_attrs; [done|exact Ht|].
  unfold attributes in HQ. cbn [map concat app length] in HQ. rewrite length_app in HQ. fold (attributes l) in HQ.
  by replace (S (S p + length n) + length (attr b) + length (attributes l))%nat with (S p + length n + S (length (attr b) + length (attributes l)))%nat by lia.
Qed.

(** *** Names *)
(** The name of a tag, wherever it is. *)
Definition named (t : xml_tag) (n0 : list Z) : Prop := sz_name t = Z.of_nat (length n0) /\ Forall is_byte n0 /\
  forall h i c, p_content h = m -> n0 !! i = Some c -> deref load8 h (p_name t) (Z.of_nat i) = Some c.
Lemma compare_prefix h q nm d k' t n0 : p_content h = m -> txt q (nm ++ d :: k') -> Forall is_byte (nm ++ [d]) -> d ∉ n0 -> named t n0 -> forall k i,
  (i + k = length n0)%nat -> (i <= length nm)%nat -> take i nm = take i n0 -> exists r,
  compare_loop k h E_UTF_8 E_UTF_8 (InDoc (Z.of_nat q)) (p_name t) (Z.of_nat i) = Some r /\ (r =? 0) = is_prefix n0 nm.
Proof.
  intros Hh Ht Hb Hd (_ & Hb0 & Hn0). assert (forall i c, (nm ++ [d]) !! i = Some c -> deref load8 h (InDoc (Z.of_nat q)) (Z.of_nat i) = Some c) as Hnm.
  { intros i c Hi. cbn [deref]. rw Hh -Nat2Z.inj_add load8_nat. destruct Ht as [y Ey]. rw -lookup_drop Ey. rewrite (cons_middle d nm) app_assoc -app_assoc.
    by apply lookup_app_l_Some. }
  induction k as [|k IH]; intros i Hi Hin Htk.
  - exists 0. split; [done|]. unfold is_prefix. rw bool_decide_eq_true_2; [done|]. assert (i = length n0) as -> by lia. by rewrite (take_ge n0) in Htk.
  - cbn [compare_loop]. unfold symbol_at. change (E_UTF_8 =? E_UTF_8) with true. cbv iota.
    destruct (lookup_lt_is_Some_2 n0 i) as [c2 E2]; [lia|]. destruct (lookup_lt_is_Some_2 (nm ++ [d]) i) as [c1 E1]; [rw length_app; cbn; lia|].
    rw (Hnm i c1 E1) (Hn0 h i c2 Hh E2). cbn [mbind option_bind].
    pose proof (Forall_lookup_1 _ _ _ _ Hb E1) as B1. pose proof (Forall_lookup_1 _ _ _ _ Hb0 E2) as B2. unfold is_byte in *.
    assert (s32 (c1 - c2) = c1 - c2) as -> by (unfold s32; rw Z.mod_small; lia). destruct (Z.eqb_spec (c1 - c2) 0) as [Ez|Ez]; cbn [negb].
    + assert (c1 = c2) as -> by lia. destruct (decide (i < length nm)%nat) as [Hlt|Hge].
      * rewrite lookup_app_l // in E1. replace (Z.of_nat i + 1) with (Z.of_nat (S i)) by lia. apply IH; [lia|lia|]. by rw (take_S_r _ _ _ E1) (take_S_r _ _ _ E2) Htk.
      * assert (i = length nm) as -> by lia. rewrite list_lookup_middle // in E1. injection E1 as <-. exfalso. apply Hd. by eapply list_elem_of_lookup_2.
    + exists (c1 - c2). split; [done|]. destruct (Z.eqb_spec (c1 - c2) 0); [done|]. symmetry. unfold is_prefix. apply bool_decide_eq_false. intros Hpre.
      rewrite -Hpre in E2. apply lookup_take_Some in E2 as [E2 _]. apply Ez. rewrite (lookup_app_l_Some _ _ _ _ E2) in E1. injection E1 as ->. lia.
Qed.
Lemma compare_tag_name q nm d k' t n0 k (s : ST) : at_ k s -> txt q (nm ++ d :: k') -> Forall is_byte (nm ++ [d]) -> d ∉ n0 -> named t n0 -> exists r,
  compare (InDoc (Z.of_nat q)) (p_name t) (sz_name t) s = Some (r, s) /\ (r =? 0) = is_prefix n0 nm.
Proof.
  intros [o E] Ht Hb Hd Hn. destruct (compare_prefix (mkHC m (Z.of_nat (length m)) (Z.of_nat k) E_UTF_8 o) q nm d k' t n0) with (k := length n0) (i := 0%nat) as (r & Er & Hr); try done; [lia|].
  exists r. split; [|done]. unfold compare, htc, gets, mbind, M_bind, lift_opt. rw E. unfold ht_compare. cbn [htc_content]. rw (proj1 Hn) Nat2Z.id.
  assert (forall p, encoding_at (mkHC m (Z.of_nat (length m)) (Z.of_nat k) E_UTF_8 o) p = E_UTF_8) as Hen by (intros p; unfold encoding_at; cbn; by case_match).
  by rw !Hen Er.
Qed.

(** *** The end of a tag *)
Definition pr_of (n : list Z) (l : list (list Z * list Z)) (p : nat) : option nat := match l with [] => None | _ => Some (S (S p) + length n)%nat end.
Definition sp_of (l : list (list Z * list Z)) : Z := Z.of_nat (length (attributes l) - 1).
Definition st_of (l : list (list Z * list Z)) : Z := match l with [] => 17 | _ => 1 end.
Definition measured (st : Z) (n : list Z) (l : list (list Z * list Z)) (p : nat) (r : Z) (t : xml_tag) : xlocals :=
  in_tag st (S p) (Z.of_nat (length n)) (pr_of n l p) (sp_of l) p r t.
Lemma close_sizes_head n l p r t c k e (s : ST) : xname n = true -> at_ k s -> e = (S p + length n + length (attributes l))%nat -> (e < length m)%nat ->
  close_sizes (Z.of_nat e) (set_prev c (head_of n l p r t)) s = Some (set_prev c (measured (st_of l) n l p r t), s).
Proof.
  intros Hn Hs -> He. assert (length n <> 0%nat) as Hn0 by (by destruct n). apply wp_eq. unfold close_sizes. destruct l as [|b l].
  - change (length (attributes [])) with 0%nat in *. cbn [head_of in_tag x_name x_sz_name set_prev x_params x_sz_params fmap option_fmap option_map]. cbn [bool_decide negb andb Z.eqb]. apply wp_bind.
    eapply wp_intro; [apply (symbols_at_ok k _ _ s Hs); lia|]. apply wp_bind, wp_ret, wp_ret. split; [|done].
    replace (S p + length n + 0 - S p)%nat with (length n) by lia. reflexivity.
  - assert (1 < length (attributes (b :: l)))%nat as Ha by (unfold attributes, attr; cbn; rw !length_app; cbn; lia).
    cbn [head_of in_tag x_name x_sz_name set_prev x_params x_sz_params fmap option_fmap option_map]. rw (proj2 (Z.eqb_neq (Z.of_nat (length n)) 0)); [|lia]. rw andb_false_r.
    apply wp_bind, wp_ret, wp_bind. change (negb (bool_decide (Some _ = None)) && (0 =? 0)) with true. cbv iota.
    eapply wp_intro; [apply (symbols_at_ok k _ _ s Hs); [lia|exact He]|]. apply wp_ret. split; [|done].
    replace (S p + length n + length (attributes (b :: l)) - (S (S p) + length n))%nat with (length (attributes (b :: l)) - 1)%nat by lia. reflexivity.
Qed.
Lemma close_sizes_measured st n l p r t c pos (s : ST) : xname n = true -> close_sizes pos (set_prev c (measured st n l p r t)) s = Some (set_prev c (measured st n l p r t), s).
Proof.
  intros Hn. assert (length n <> 0%nat) as Hn0 by (by destruct n). apply wp_eq. unfold close_sizes, measured. cbn [in_tag x_name x_sz_name set_prev x_params x_sz_params].
  rw (proj2 (Z.eqb_neq (Z.of_nat (length n)) 0)); [|lia]. rw andb_false_r. apply wp_bind, wp_ret, wp_bind. destruct l as [|b l]; [by apply wp_ret, wp_ret|].
  assert (1 < length (attributes (b :: l)))%nat as Ha by (unfold attributes, attr; cbn; rw !length_app; cbn; lia).
  assert ((sp_of (b :: l) =? 0) = false) as -> by (apply Z.eqb_neq; unfold sp_of; lia). rw andb_false_r. by apply wp_ret, wp_ret.
Qed.

(** *** What a tag holds *)
Record holds_tag (a0 : A) (t : xml_tag) (ys : list xelem) (k : nat) (a : A) : Prop := {
  hg_live : vec_live (childs t) a;
  hg_frame : frame a0 a;
  hg_fresh : a_live a0 !! v_ptr (childs t) = None;
  hg_packed : packed (childs t) k;
  hg_read : read_slots (xdecode m) (v_slots (childs t)) = Some ys
}.
Lemma holds_put a0 t v k ys a a2 t2 y : vec_live v a -> frame a0 a -> a_live a0 !! v_ptr v = None -> cell m v k ys -> a_ok a2 -> frame a a2 -> xdecode m t2 = Some y ->
  holds_tag a0 (set_childs (put_tag v k t2) t) (ys ++ [y]) (S k) a2.
Proof.
  intros [Hok Hv] Hf Hfr (Hlt & _ & _ & Hc) Hok2 Hf2 Hy. destruct (Hc t2 y Hy) as [Hr Hp]. split; cbn [childs set_childs]; [|by eapply heap_frame_trans|exact Hfr|exact Hp|exact Hr].
  split; [done|]. destruct Hv as [[_ Hs]|[Hz Hl]]; [rewrite Hs in Hlt; cbn in Hlt; lia|]. right. split; [exact Hz|]. rw put_tag_num. by apply Hf2.
Qed.
Lemma holds_new a0 t : a_ok a0 -> childs t = no_vec -> holds_tag a0 t [] 0 a0.
Proof.
  intros Hok E. split; rewrite ?E; [split; [done|by left]|by intros q n| |apply packed_no_vec|done]. cbn. destruct (a_live a0 !! 0) eqn:E0; [|done].
  apply live_pos in E0; [lia|done].
Qed.
Lemma on_gt_tag (P : xml_tag -> M ST (Z * xml_tag)) pos x : x_state x ∈ [17; 1; 9; 25] -> on_gt P [] pos x = (o ← end_tag P [] pos x; mret (then_drop (Z.lor SYMBOL ESCAPE) o)).
Proof.
  intros Hx. destruct x as [st nm sn pr sp sc pv r t]. cbn [x_state] in Hx.
  repeat (apply list_elem_of_cons in Hx as [->|Hx]; [reflexivity|]). set_solver.
Qed.
Lemma attrs_bound l : attrs_ok l = true -> 0 <= sp_of l < 2 ^ 16.
Proof. intros [_ Hl%Z.ltb_lt]%andb_true_iff. unfold sp_of. lia. Qed.

Definition child_of (n : list Z) (l : list (list Z * list Z)) (p : nat) (content : option nat) (szc szend : Z) : xml_tag :=
  mkTag (InDoc (Z.of_nat (S p))) (Z.of_nat (length n)) (Z.of_nat <$> content) szc szend (Z.of_nat <$> pr_of n l p) (sp_of l) no_vec None.
Lemma tag_of_measured st n l p r t c content szc szend : Z.of_nat (length n) < 256 -> attrs_ok l = true ->
  tag_of (set_prev c (measured st n l p r t)) (Z.of_nat <$> content) szc szend None = child_of n l p content szc szend.
Proof.
  intros Hn Hl. unfold tag_of, child_of, measured. cbn [in_tag x_name x_sz_name x_params x_sz_params set_prev ptr fmap option_fmap option_map].
  pose proof (attrs_bound l Hl). unfold u8, u16. rewrite !Z.mod_small; [done|lia|lia].
Qed.

(** The name of an open tag and what is in it. *)
Definition after_child (p2 : nat) (y : xelem) (a1 : A) (rt : Z * xml_tag) (s2 : ST) : Prop :=
  rt.1 = XML_MEMORY_ERROR \/ rt.1 = XML_OK /\ at_ p2 s2 /\ a_ok (p_heap s2) /\ frame a1 (p_heap s2) /\ xdecode m rt.2 = Some y.
Lemma run_open n l p st r t a a0 ys k K Q p2 y : xname n = true -> Z.of_nat (length n) < 256 -> attrs_ok l = true -> text_state st ->
  txt p (LT :: n ++ attributes l ++ GT :: K) -> holds_tag a0 t ys k a -> Z.of_nat k < MAX_DOCUMENT -> (forall t' s', Q (XML_MEMORY_ERROR, t') s') ->
  let e := (S p + length n + length (attributes l))%nat in
  (S e <= p2)%nat ->
  (forall a1, a_ok a1 -> runp 0 (xt 0 XML_PARSE_ERROR (child_of n l p (Some (S e)) 0 0)) (S e) a1 (after_child p2 y a1)) ->
  (forall a2 v, holds_tag a0 (set_childs v t) (ys ++ [y]) (S k) a2 -> run (xt 0 XML_OK (set_childs v t)) p2 a2 Q) ->
  run (xt st r t) p a Q.
Proof.
  intros Hn Hn8 Hl Hst Ht Hh Hk HM e He HC HQ. eapply (run_head n l p st r t a (GT :: K)); [done|done|done|exact Ht|done|]. fold e.
  apply txt_cons in Ht as [_ Ht]. apply txt_app in Ht as [_ Ht]. apply txt_app in Ht as [_ Ht]. fold e in Ht. pose proof (txt_bound _ _ _ _ Ht) as Hb.
  intros c. eapply run_any; [exact Ht|done|]. intros f s Hf Hs Ha. change (xml_step ?P [] GT ?pos ?x) with (on_gt P [] pos x).
  rw on_gt_tag; [|by destruct l; set_solver]. apply wp_bind. unfold end_tag. apply wp_bind. eapply wp_intro; [apply (close_sizes_head n l p r t c (S e) e s Hn Hs); [done|lia]|].
  apply wp_bind, wp_ret, wp_bind. assert (x_has (set_prev c (measured (st_of l) n l p r t)) SLASH = false) as -> by by destruct l. unfold open_tag.
  apply wp_bind. cbn [measured in_tag set_prev x_tag]. destruct Hh as [H1 H2 H3 H4 H5]. rewrite -Ha in H1, H2.
  eapply wp_mono; [by apply (create_ok m (childs t) k ys s a0)|]. intros [o v] s1 (Eh & G1 & G2 & G3 & G4). cbn [fst snd] in *.
  destruct G4 as [->|[-> G4]]; [by do 3 apply wp_ret; apply HM|]. apply wp_bind, wp_gets. assert (at_ (S e) s1) as Hs1 by (destruct Hs as [o E]; exists o; by rw Eh).
  assert (ht_ptr (p_htc s1) = Z.of_nat (S e)) as -> by (destruct Hs1 as [o2 E]; by rw E).
  change (negb (has 0 TF_ONELINE)) with true. cbv iota. change (Some (Z.of_nat (S e))) with (Z.of_nat <$> Some (S e)). rw tag_of_measured //.
  apply wp_bind. eapply wp_mono; [exact (HC (p_heap s1) (proj1 G1) f s1 Hf Hs1 eq_refl)|]. intros [r2 t2] s2 [HE|(HE & Hs2 & Hok2 & Hf2 & Hd)]; cbn [fst snd] in HE; subst r2.
  - do 3 apply wp_ret. apply HM.
  - apply wp_ret, wp_ret, wp_ret. cbn [snd] in Hd. specialize (HQ (p_heap s2) (put_tag v k t2) (holds_put a0 t v k ys _ _ t2 y G1 G2 G3 G4 Hok2 Hf2 Hd) GT f s2 ltac:(lia) Hs2 eq_refl).
    by destruct l.
Qed.

Lemma xname_chars n : xname n = true -> Forall (fun c => plain c = true /\ (c = 45 \/ special c = false)) n.
Proof.
  assert (forall c, name_sym c = true -> plain c = true /\ (c = 45 \/ special c = false)) as H1 by (intros c [Hc Hs%negb_true_iff]%andb_true_iff; auto).
  destruct n as [|c n]; [done|]. intros [Hc Hn]%andb_true_iff. constructor; [by apply H1|]. induction n as [|d n IH]; [constructor|].
  cbn in Hn. apply andb_true_iff in Hn as [[Hd|Hd%Z.eqb_eq]%orb_true_iff Hn]; (constructor; [|by apply IH]); [by apply H1|by subst d; auto].
Qed.
Lemma xname_bytes n : xname n = true -> Forall is_byte n.
Proof. intros Hn%xname_chars. eapply Forall_impl; [exact Hn|]. cbn beta. intros c [Hc _]. unfold plain, is_byte in *. lia. Qed.
Lemma xname_no n c : xname n = true -> c <> 45 -> special c = true -> c ∉ n.
Proof. intros Hn%xname_chars Hc Hs Hin. rewrite Forall_forall in Hn. destruct (Hn c Hin) as [_ [?|?]]; congruence. Qed.

(** *** A closing tag *)
Lemma symbols_to k p q (s : ST) : at_ k s -> (p <= q)%nat -> (q < length m)%nat -> symbols (Some (Z.of_nat p)) (Some (Z.of_nat q)) s = Some (Z.of_nat (q - p), s).
Proof.
  intros Hs Hq Hp. rewrite -(symbols_at_ok k q p s Hs Hq Hp). unfold symbols, htc, gets, mbind, M_bind, mret, M_ret. do 2 f_equal. unfold ht_symbols.
  rewrite (andb_comm (belongs _ (InDoc (Z.of_nat p)))). destruct (_ && _); [|done]. f_equal. f_equal. destruct (Z.ltb_spec (Z.of_nat p) (Z.of_nat q)), (Z.ltb_spec (Z.of_nat q) (Z.of_nat p)); lia.
Qed.
Definition closed_tag (t : xml_tag) (sc se : Z) : xml_tag :=
  mkTag (p_name t) (sz_name t) (t_content t) sc se (p_parameters t) (sz_parameters t) (childs t) (p_tdef t).
Lemma run_close n p st r t a K c Q : xname n = true -> named t n -> text_state st -> txt p (LT :: SLASHC :: n ++ GT :: K) -> t_content t = Some (Z.of_nat c) -> (c <= p)%nat ->
  (forall s' se, at_ (p + length n + 3) s' -> p_heap s' = a -> Q (XML_OK, closed_tag t (Z.of_nat (p - c)) se) s') -> run (xt st r t) p a Q.
Proof.
  intros Hn Hnt Hst Ht Hc Hcp HQ c0. pose proof (txt_bound _ _ _ _ Ht) as Hb0. eapply run_lt; [done|exact Ht|]. apply txt_cons in Ht as [_ Ht].
  eapply (run_step _ SLASHC _ (mkX 9 None 0 None 0 (Z.of_nat p) 0 r t)); [exact Ht|done|by intros P s _; reflexivity|]. apply txt_cons in Ht as [_ Ht].
  eapply (run_name 25 n _ (S (S p)) (S (S p)) 0 None 0 p r t); [by right|done|exact Ht| |].
  { intros d P s Hd. apply andb_true_iff in Hd as [_ Hs%negb_true_iff]. by rw step_symbol. }
  pose proof Ht as Hname. apply txt_app in Ht as [_ Ht]. pose proof (txt_bound _ _ _ _ Ht) as Hb. intros c1. eapply run_any; [exact Ht|done|]. intros f s Hf Hs Ha.
  change (xml_step ?P [] GT ?pos ?x) with (on_gt P [] pos x). rw on_gt_tag; [|cbn; set_solver]. apply wp_bind. unfold end_tag. apply wp_bind.
  assert (close_sizes (Z.of_nat (S (S p) + length n)) (set_prev c1 (in_tag 25 (S (S p)) 0 None 0 p r t)) s = Some (set_prev c1 (in_tag 25 (S (S p)) (Z.of_nat (length n)) None 0 p r t), s)) as E.
  { apply wp_eq. unfold close_sizes. cbn [in_tag x_name x_sz_name set_prev x_params x_sz_params bool_decide negb andb Z.eqb]. apply wp_bind.
    eapply wp_intro; [apply (symbols_at_ok _ _ (S (S p)) s Hs); lia|]. apply wp_bind, wp_ret, wp_ret. split; [|done]. by replace (S (S p) + length n - S (S p))%nat with (length n) by lia. }
  eapply wp_intro; [exact E|]. apply wp_bind, wp_ret, wp_bind. change (x_has (set_prev c1 (in_tag 25 (S (S p)) (Z.of_nat (length n)) None 0 p r t)) SLASH) with true. cbv iota.
  unfold close_tag. apply wp_bind. cbn [in_tag set_prev x_name x_tag x_scope ptr].
  destruct (compare_tag_name (S (S p)) n GT K t n _ s Hs Hname) as (z & Ez & Hz); [|by apply xname_no|done|].
  { apply Forall_app_2; [by apply xname_bytes|by repeat constructor]. }
  eapply wp_intro; [exact Ez|]. rw Hz. assert (is_prefix n n = true) as -> by (apply bool_decide_eq_true; by apply take_ge). apply wp_bind, wp_gets, wp_bind.
  eapply (wp_mono _ _ (fun se s' => s' = s)); [done|]. intros se s' ->. apply wp_bind. rw Hc. eapply wp_intro; [apply (symbols_to _ _ _ s Hs); lia|].
  do 3 apply wp_ret. replace (S (S (S p) + length n))%nat with (p + length n + 3)%nat in Hs by lia. specialize (HQ s (u8 se) Hs Ha). unfold closed_tag in HQ. rewrite Hc in HQ. exact HQ.
Qed.

(** *** A self-closing tag *)
Lemma slice_at p l : txt p l -> (p <= length m)%nat -> slice m (Z.of_nat p) (Z.of_nat (length l)) = Some l.
Proof.
  intros Ht Hp. pose proof (txt_take m _ _ Ht) as E. unfold slice. rw (proj2 (Z.leb_le 0 (Z.of_nat p))); [|lia]. rw (proj2 (Z.leb_le 0 _)); [|lia].
  rw (proj2 (Z.leb_le _ _)); [by rw !Nat2Z.id E|]. apply (f_equal length) in E. rewrite length_take length_drop in E. lia.
Qed.
Lemma decode_child n l p K content szc se v d : txt p (LT :: n ++ attributes l ++ K) ->
  xdecode m (mkTag (InDoc (Z.of_nat (S p))) (Z.of_nat (length n)) content szc se (Z.of_nat <$> pr_of n l p) (sp_of l) v d) =
    kids ← read_slots (xdecode m) (v_slots v);
    content ← match content with Some p => Some <$> slice m p szc | None => Some None end;
    Some (XE n (drop 1 (attributes l)) content kids).
Proof.
  intros Ht. pose proof (txt_bound _ _ _ _ Ht) as Hb. apply txt_cons in Ht as [_ Ht]. apply txt_app in Ht as [Hn Ht]. apply txt_app in Ht as [Ht _].
  assert (params_of m (mkTag (InDoc (Z.of_nat (S p))) (Z.of_nat (length n)) content szc se (Z.of_nat <$> pr_of n l p) (sp_of l) v d) = Some (drop 1 (attributes l))) as Ep.
  { unfold params_of, sp_of. cbn [p_parameters sz_parameters]. destruct l as [|b l]; [done|]. cbn [pr_of fmap option_fmap option_map].
    destruct (attributes (b :: l)) as [|x at_] eqn:E; [done|]. cbn [length drop]. rw Nat.sub_1_r /=. pose proof (txt_bound _ _ _ _ Ht) as Hb2. apply txt_cons in Ht as [_ Ht]. apply slice_at; [exact Ht|lia]. }
  cbn [xdecode]. rw Ep. cbn [childs]. destruct (read_slots _ _) as [kids|]; [|done]. cbn [mbind option_bind p_name sz_name]. unfold content_of. cbn [t_content t_sz_content].
  rw (slice_at _ _ Hn); [|lia]. by destruct content.
Qed.
Lemma run_empty n l p st r t a a0 ys k n0 K Q : xname n = true -> Z.of_nat (length n) < 256 -> attrs_ok l = true -> text_state st ->
  txt p (LT :: n ++ attributes l ++ SLASHC :: GT :: K) -> holds_tag a0 t ys k a -> Z.of_nat k < MAX_DOCUMENT -> named t n0 -> SLASHC ∉ n0 -> SP ∉ n0 -> is_prefix n0 n = false ->
  (forall t' s', Q (XML_MEMORY_ERROR, t') s') ->
  (forall a2 v, holds_tag a0 (set_childs v t) (ys ++ [XE n (drop 1 (attributes l)) None []]) (S k) a2 -> run (xt 0 r (set_childs v t)) (p + length (xrender (Empty n l))) a2 Q) ->
  run (xt st r t) p a Q.
Proof.
  intros Hn Hn8 Hl Hst Ht Hh Hk Hnt Hd1 Hd2 Hpre HM HQ. eapply (run_head n l p st r t a (SLASHC :: GT :: K)); [done|done|done|exact Ht|done|]. pose proof Ht as Ht0.
  apply txt_cons in Ht as [_ Ht]. pose proof Ht as Hname. apply txt_app in Ht as [_ Ht]. apply txt_app in Ht as [_ Ht].
  set (e := (S p + length n + length (attributes l))%nat) in *. pose proof (txt_bound _ _ _ _ Ht) as Hb.
  intros c. eapply run_any; [exact Ht|done|]. intros f s Hf Hs Ha. change (xml_step _ [] SLASHC _ ?x) with (@on_slash A (Z.of_nat e) x). unfold on_slash.
  assert (x_has (set_prev c (head_of n l p r t)) in_text = false) as -> by by destruct l. assert (x_has (set_prev c (head_of n l p r t)) SCOPE_OPEN = true) as -> by by destruct l.
  apply wp_bind, wp_bind. eapply wp_intro; [apply (close_sizes_head n l p r t c (S e) e s Hn Hs); [done|lia]|]. apply wp_ret, wp_ret.
  assert (runp SLASHC (measured 9 n l p r t) (S e) a Q) as Hrun; [|specialize (Hrun f s Hf Hs Ha); by destruct l].
  clear f s Hf Hs Ha c. apply txt_cons in Ht as [_ Ht]. eapply run_any; [exact Ht|done|]. intros f s Hf Hs Ha.
  change (xml_step ?P [] GT ?pos ?x) with (on_gt P [] pos x). rw on_gt_tag; [|cbn; set_solver]. apply wp_bind. unfold end_tag. apply wp_bind.
  eapply wp_intro; [by apply close_sizes_measured|]. apply wp_bind, wp_ret, wp_bind. change (x_has (set_prev SLASHC (measured 9 n l p r t)) SLASH) with true. cbv iota.
  unfold close_tag. apply wp_bind. cbn [measured in_tag set_prev x_name x_tag x_scope ptr].
  assert (exists d K', n ++ attributes l ++ SLASHC :: GT :: K = n ++ d :: K' /\ d ∉ n0 /\ is_byte d) as (d & K' & Ed & Hd & Hdb).
  { destruct l as [|b l]; [by exists SLASHC, (GT :: K)|]. by exists SP, ((attr b ++ attributes l) ++ SLASHC :: GT :: K). }
  rewrite Ed in Hname. destruct (compare_tag_name (S p) n d K' t n0 _ s Hs Hname) as (z & Ez & Hz); [|done|done|].
  { apply Forall_app_2; [by apply xname_bytes|by apply Forall_singleton]. }
  eapply wp_intro; [exact Ez|]. rw Hz Hpre. change (negb (x_has _ SYMBOL) && (x_prev _ =? 47)) with true. cbv iota.
  apply wp_bind. unfold leaf. apply wp_bind. cbn [x_tag]. destruct Hh as [H1 H2 H3 H4 H5]. rewrite -Ha in H1, H2.
  eapply wp_mono; [by apply (create_ok m (childs t) k ys s a0)|]. intros [o v] s1 (Eh & G1 & G2 & G3 & G4). cbn [fst snd] in *.
  destruct G4 as [->|[-> G4]]; [by do 4 apply wp_ret; apply HM|]. assert (at_ (S (S e)) s1) as Hs1 by (destruct Hs as [o E]; exists o; by rw Eh).
  apply wp_bind, wp_ret, wp_ret, wp_ret, wp_ret, wp_ret.
  change (tag_of (set_prev SLASHC (measured 9 n l p r t)) None 0 2 None) with (tag_of (set_prev SLASHC (measured 9 n l p r t)) (Z.of_nat <$> None) 0 2 None).
  rw tag_of_measured //. assert (xdecode m (child_of n l p None 0 2) = Some (XE n (drop 1 (attributes l)) None [])) as Hdec by (unfold child_of; by rw (decode_child _ _ _ _ _ _ _ _ _ Ht0)).
  specialize (HQ (p_heap s1) (put_tag v k (child_of n l p None 0 2)) (holds_put a0 t v k ys _ _ _ _ G1 G2 G3 G4 (proj1 G1) (fun q n Hq => Hq) Hdec)).
  replace (p + length (xrender (Empty n l)))%nat with (S (S e)) in HQ by (unfold e; cbn [xrender length]; rw !length_app; cbn; lia).
  exact (HQ GT f s1 Hf Hs1 eq_refl).
Qed.

(** *** Elements *)
Fixpoint nsize (n : node) : nat := match n with Elem _ _ kids => S (sum_list (map nsize kids)) | _ => 1 end.
Lemma xname_ends n : xname n = true -> SLASHC ∉ n /\ SP ∉ n /\ GT ∉ n.
Proof. intros Hn. split_and!; by apply xname_no. Qed.
(** An element, its contents being dealt with. *)
Lemma run_elem n l kids p st r t a a0 ys k K Q : well_written [] (Elem n l kids) = true -> text_state st -> txt p (xrender (Elem n l kids) ++ K) ->
  holds_tag a0 t ys k a -> (k <= p)%nat -> (forall t' s', Q (XML_MEMORY_ERROR, t') s') ->
  (forall q st r t a1 Q, text_state st -> txt q (renders kids ++ LT :: SLASHC :: n ++ GT :: K) -> holds_tag a1 t [] 0 a1 -> named t n -> (forall t' s', Q (XML_MEMORY_ERROR, t') s') ->
    (forall st' r' v a2 k', text_state st' -> holds_tag a1 (set_childs v t) (elems kids) k' a2 -> run (xt st' r' (set_childs v t)) (q + length (renders kids)) a2 Q) -> run (xt st r t) q a1 Q) ->
  (forall a2 v, holds_tag a0 (set_childs v t) (ys ++ elem_of (Elem n l kids)) (S k) a2 -> run (xt 0 XML_OK (set_childs v t)) (p + length (xrender (Elem n l kids))) a2 Q) ->
  run (xt st r t) p a Q.
Proof.
  intros Hw Hst Ht Hh Hk HM HK HQ. cbn [well_written] in Hw. apply andb_true_iff in Hw as [[[Hn Hn8%Z.ltb_lt]%andb_true_iff Hl]%andb_true_iff _].
  cbn [xrender] in Ht. fold (renders kids) in Ht. cbn [app] in Ht. rewrite -!app_assoc in Ht. cbn [app] in Ht. rewrite -!app_assoc in Ht. cbn [app] in Ht. rewrite -app_assoc in Ht. cbn [app] in Ht.
  pose proof Ht as Ht0. set (e := (S p + length n + length (attributes l))%nat). set (c := (S e + length (renders kids))%nat).
  assert (p + length (xrender (Elem n l kids)) = c + length n + 3)%nat as Ep.
  { unfold c, e, renders. cbn [xrender length]. rw !length_app. cbn [length]. rw !length_app. cbn [length]. rw length_app. cbn. lia. }
  apply txt_cons in Ht as [Ht1 Ht]. pose proof (txt_bound _ _ _ _ Ht1) as Hb. apply txt_app in Ht as [_ Ht]. apply txt_app in Ht as [_ Ht]. fold e in Ht.
  assert (S e <= length m)%nat as Hb2 by (pose proof (txt_bound _ _ _ _ Ht); lia). apply txt_cons in Ht as [_ Ht].
  eapply (run_open n l p st r t a a0 ys k _ Q (p + length (xrender (Elem n l kids))) (XE n (drop 1 (attributes l)) (Some (renders kids)) (elems kids)));
    [done|done|done|done|exact Ht0|done|lia|done|rw Ep; fold e; lia| |exact HQ].
  fold e. intros a1 Hok1. refine (HK (S e) 0 XML_PARSE_ERROR (child_of n l p (Some (S e)) 0 0) a1 _ (or_introl eq_refl) Ht (holds_new a1 (child_of n l p (Some (S e)) 0 0) Hok1 eq_refl) _ _ _ 0).
  - split; [done|]. split; [by apply xname_bytes|]. intros h i d Hh' Hi. cbn [p_name child_of deref]. rw Hh' -Nat2Z.inj_add load8_nat -lookup_drop.
    destruct (proj1 (txt_app m _ _ _) (proj2 (proj1 (txt_cons m _ _ _) Ht0))) as [[y ->] _]. by apply lookup_app_l_Some.
  - intros t' s'. by left.
  - intros st' r' v a2 k' Hst' Hh2. apply txt_app in Ht as [Hkids Ht]. fold c in Ht |- *.
    eapply (run_close n c st' r' _ a2 K (S e)); [done| |done|exact Ht|done|lia|].
    + split; [done|]. split; [by apply xname_bytes|]. intros h i d Hh' Hi. cbn [p_name child_of set_childs deref]. rw Hh' -Nat2Z.inj_add load8_nat -lookup_drop.
      destruct (proj1 (txt_app m _ _ _) (proj2 (proj1 (txt_cons m _ _ _) Ht0))) as [[y ->] _]. by apply lookup_app_l_Some.
    + intros s' se Hs' Ha'. right. split; [done|]. rw Ep. split; [done|]. destruct Hh2 as [[G1 _] G2 _ _ G5]. rw Ha'. split; [done|]. split; [done|].
      cbn [snd closed_tag set_childs child_of p_name sz_name t_content p_parameters sz_parameters childs p_tdef].
      rw (decode_child _ _ _ _ _ _ _ _ _ Ht0). cbn [childs set_childs child_of] in G5. rw G5. cbn [mbind option_bind].
      replace (c - S e)%nat with (length (renders kids)) by (unfold c; lia). 
      change (t_content (set_childs v (child_of n l p (Some (S e)) 0 0))) with (Some (Z.of_nat (S e))). cbv iota. by rw (slice_at _ _ Hkids Hb2).
Qed.

Lemma set_childs_same (t : xml_tag) : set_childs (childs t) t = t.
Proof. by destruct t. Qed.
Lemma renders_cons n ns : renders (n :: ns) = xrender n ++ renders ns.
Proof. done. Qed.
Lemma elems_cons n ns : elems (n :: ns) = elem_of n ++ elems ns.
Proof. done. Qed.
Lemma well_written_any n0 n l kids : well_written n0 (Elem n l kids) = well_written [] (Elem n l kids).
Proof. done. Qed.
(** Everything between two tags. *)
Lemma run_nodes N : forall ns, (sum_list (map nsize ns) < N)%nat -> forall p st r t a a0 ys k n0 K Q, forallb (well_written n0) ns = true -> text_state st -> txt p (renders ns ++ K) ->
  holds_tag a0 t ys k a -> (k <= p)%nat -> named t n0 -> SLASHC ∉ n0 -> SP ∉ n0 -> (forall t' s', Q (XML_MEMORY_ERROR, t') s') ->
  (forall st' r' v a2 k', text_state st' -> holds_tag a0 (set_childs v t) (ys ++ elems ns) k' a2 -> run (xt st' r' (set_childs v t)) (p + length (renders ns)) a2 Q) ->
  run (xt st r t) p a Q.
Proof.
  induction N as [|N IHN]; intros ns HN; [lia|]. induction ns as [|n ns IH]; intros p st r t a a0 ys k n0 K Q Hw Hst Ht Hh Hk Hnt Hd1 Hd2 HM HQ.
  - specialize (HQ st r (childs t) a k Hst). rewrite set_childs_same Nat.add_0_r in HQ. apply HQ. by rw app_nil_r.
  - cbn in Hw. apply andb_true_iff in Hw as [Hn Hw]. rewrite renders_cons -app_assoc in Ht. cbn [map sum_list] in HN. rewrite renders_cons length_app in HQ. rewrite elems_cons in HQ.
    assert (forall st' r' v a2 k' ys', text_state st' -> ys' = ys ++ elem_of n -> holds_tag a0 (set_childs v t) ys' k' a2 -> (k' <= p + length (xrender n))%nat ->
      run (xt st' r' (set_childs v t)) (p + length (xrender n)) a2 Q) as Hgo.
    { intros st' r' v a2 k' ys' Hst' -> Hh2 Hk2. apply txt_app in Ht as [_ Ht].
      eapply (IH ltac:(lia) (p + length (xrender n))%nat st' r' (set_childs v t) a2 a0 (ys ++ elem_of n) k' n0); [done|done|exact Ht|done|done|exact Hnt|done|done|done|].
      intros st2 r2 v2 a3 k3 Hst2 Hh3. change (set_childs v2 (set_childs v t)) with (set_childs v2 t) in *. rewrite -app_assoc in Hh3.
      specialize (HQ st2 r2 v2 a3 k3 Hst2 Hh3). by rewrite Nat.add_assoc in HQ. }
    destruct n as [l|n l kids|n l].
    + eapply (run_text l p st r t); [exact Hn|done|exact Ht|]. intros st' Hst'. specialize (Hgo st' r (childs t) a k ys Hst'). rewrite set_childs_same app_nil_r in Hgo. apply Hgo; [done|done|lia].
    + eapply (run_elem n l kids p st r t a a0 ys k _ Q); [by rewrite well_written_any in Hn|done|exact Ht|done|done|done| |].
      * cbn [well_written] in Hn. apply andb_true_iff in Hn as [[[Hnm _]%andb_true_iff _]%andb_true_iff Hkw]. destruct (xname_ends n Hnm) as (? & ? & _).
        intros q st2 r2 t2 a1 Q2 Hst2 Ht2 Hh2 Hn2 HM2 HQ2. eapply (IHN kids); [unfold id in HN; cbn [nsize] in HN; lia|exact Hkw|done|exact Ht2|exact Hh2|lia|exact Hn2|done|done|done|exact HQ2].
      * intros a2 v Hh2. eapply Hgo; [by left|done|exact Hh2|]. cbn [xrender length]. rw !length_app. cbn [length]. rw !length_app. cbn. lia.
    + cbn [well_written] in Hn. apply andb_true_iff in Hn as [[[Hnm Hn8%Z.ltb_lt]%andb_true_iff Hl]%andb_true_iff Hpre%negb_true_iff].
      cbn [xrender app] in Ht. rewrite -!app_assoc in Ht. cbn [app] in Ht. pose proof (txt_bound _ _ _ _ Ht) as Hpm.
      eapply (run_empty n l p st r t a a0 ys k n0); [done|done|done|done|exact Ht|done|lia|done|done|done|done|done|].
      intros a2 v Hh2. eapply Hgo; [by left|done|exact Hh2|]. cbn [xrender length]. rw !length_app. cbn. lia.
Qed.
End running.

(** ** The property *)
(** The element that stands for the whole document. *)
Definition document (ns : list node) : xelem := XE (str "ht_root") [] (Some (renders ns)) (elems ns).
(** The root's name is not in the document. *)
Definition decode_root (m : list Z) (t : xml_tag) : option xelem :=
  kids ← read_slots (xdecode m) (v_slots (childs t));
  params ← params_of m t;
  content ← content_of m t;
  match p_name t with
  | Ext l => name ← slice l 0 (sz_name t); Some (XE name params content kids)
  | InDoc _ => None
  end.
(** The document a context reads, in UTF-8. *)
Definition holding (m : list Z) (x : xml_context) : Prop := exists k o, xc_htc x = mkHT (mkHC m (Z.of_nat (length m)) (Z.of_nat k) E_UTF_8 o) (Some E_UTF_8).
(** As [xml_create_context] leaves a context. *)
Definition fresh_context (x : xml_context) : Prop := xc_htc x = mkHT blank_content None /\ xc_root x = None /\ xc_defs x = [].

Lemma plain_chars l : (exists f, forallb f l = true /\ forall c, f c = true -> plain c = true) -> Forall (fun c => plain c = true) l.
Proof. intros (f & Hl & Hf). rewrite Forall_forall. rewrite forallb_forall in Hl. intros c Hc. apply Hf, Hl. by apply list_elem_of_In. Qed.
Lemma xname_plain n : xname n = true -> Forall (fun c => plain c = true) n.
Proof. intros Hn%xname_chars. eapply Forall_impl; [exact Hn|]. by intros c [? _]. Qed.
Lemma attributes_plain l : attrs_ok l = true -> Forall (fun c => plain c = true) (attributes l).
Proof.
  intros [Hl _]%andb_true_iff. induction l as [|b l IH]; [constructor|]. cbn in Hl. apply andb_true_iff in Hl as [[Hn Hv]%andb_true_iff Hl].
  unfold attributes, attr. cbn [map concat app]. constructor; [done|]. rewrite !Forall_app. split; [|by apply IH]. split; [by apply xname_plain|].
  constructor; [done|]. constructor; [done|]. rewrite Forall_app. split; [|by repeat constructor]. apply plain_chars. exists value_char. split; [done|]. by intros c [? _]%andb_true_iff.
Qed.
Lemma render_plain N : forall ns n0, (sum_list (map nsize ns) < N)%nat -> forallb (well_written n0) ns = true -> Forall (fun c => plain c = true) (renders ns).
Proof.
  induction N as [|N IHN]; intros ns n0 HN; [lia|]. induction ns as [|n ns IH]; intros Hw; [constructor|].
  cbn in Hw. apply andb_true_iff in Hw as [Hn Hw]. cbn [map sum_list] in HN. change (id (nsize n)) with (nsize n) in HN. rewrite renders_cons Forall_app. split; [|apply IH; [lia|done]].
  destruct n as [l|n l kids|n l]; cbn [well_written xrender nsize] in *.
  - apply plain_chars. exists text_char. split; [done|]. by intros c [? _]%andb_true_iff.
  - apply andb_true_iff in Hn as [[[Hnm _]%andb_true_iff Hl]%andb_true_iff Hk]. pose proof (xname_plain n Hnm). pose proof (attributes_plain l Hl).
    constructor; [done|]. rewrite !Forall_app. split_and; [done|]. split_and; [done|]. constructor; [done|]. rewrite Forall_app. split; [apply (IHN kids n); [lia|done]|].
    constructor; [done|]. constructor; [done|]. rewrite Forall_app. split; [done|by repeat constructor].
  - apply andb_true_iff in Hn as [[[Hnm _]%andb_true_iff Hl]%andb_true_iff _]. pose proof (xname_plain n Hnm). pose proof (attributes_plain l Hl).
    constructor; [done|]. rewrite !Forall_app. split; [done|]. split; [done|by repeat constructor].
Qed.
Lemma no_bom m : Forall (fun c => plain c = true) m -> detect_bom bom_table m = None.
Proof.
  intros Hm. assert (forall b e l k, plain b = false -> detect_bom ((b :: l, e) :: k) m = detect_bom k m) as Hb; [|by rw /bom_table !Hb].
  intros b e l k Hb. cbn [detect_bom]. rewrite bool_decide_eq_false_2; [done|]. intros E. destruct m as [|c m]; [done|]. cbn in E. injection E as -> _. inversion Hm; congruence.
Qed.
Lemma init_plain m : Forall (fun c => plain c = true) m -> exists o,
  ht_init_context (Some m) (Z.of_nat (length m)) (mkHT blank_content None) = mkHT (mkHC m (Z.of_nat (length m)) 0 E_UTF_8 o) (Some E_UTF_8).
Proof. intros Hm. unfold ht_init_context. cbn [default]. rw (no_bom m Hm). case_match; by eexists. Qed.

Section property.
Context {A : Type} `{AllocatorLaws A}.

(** What parsing gives, whatever the allocator answers. *)
Lemma xml_parse_text x a ns : fresh_context x -> a_ok a -> forallb (well_written (str "ht_root")) ns = true -> Z.of_nat (length (renders ns)) < MAX_DOCUMENT ->
  exists r x' a', xml_parse x (renders ns) (Z.of_nat (length (renders ns))) a = Some ((r, x'), a') /\
    (r = XML_OK /\ holding (renders ns) x' /\ (exists p t, xc_root x' = Some (p, t) /\ decode_root (renders ns) t = Some (document ns)) \/
     r = XML_MEMORY_ERROR \/ r = XML_PARSE_ERROR /\ xc_root x' = None).
Proof.
  intros (Hx1 & Hx2 & Hx3) Hok Hw Hmax. set (m := renders ns) in *. unfold xml_parse. rw Hx1. cbn [pf_read]. unfold root_tag. rw Hx2.
  destruct (init_plain m (render_plain _ ns _ (Nat.lt_succ_diag_r _) Hw)) as [o Eo]. rw Eo.
  destruct (alloc_law a XML_TAG_SIZE Hok ltac:(done)) as [Hok2 _]. unfold mbind, M_bind, mem_alloc, mret, M_ret. destruct (a_alloc a XML_TAG_SIZE) as [p a2]. cbn [fst snd] in Hok2.
  destruct (Z.eqb_spec p 0) as [->|Hp]; cbn [negb].
  { eexists _, _, _. split; [done|]. right. right. by split. }
  unfold parse_root. rw Hx3. set (t0 := mkTag _ _ _ _ _ _ _ _ _). unfold _xml_parse.
  assert (at_ m 0 (mkP A (mkHT (mkHC m (Z.of_nat (length m)) 0 E_UTF_8 o) (Some E_UTF_8)) (xc_err_pos x) a2)) as Hat by (by exists o).
  assert (run m (xt 0 XML_PARSE_ERROR t0) 0 a2 (fun rt s => rt.1 = XML_MEMORY_ERROR \/ rt.1 = XML_OK /\ (exists k, at_ m k s) /\ decode_root m rt.2 = Some (document ns))) as Hrun.
  { eapply (run_nodes m Hmax _ ns (Nat.lt_succ_diag_r _) 0 0 XML_PARSE_ERROR t0 a2 a2 [] 0 (str "ht_root") []); [exact Hw|by left|by rw app_nil_r; exists []; rw app_nil_r|by apply holds_new|done| | | |by intros; left|].
    - split; [done|]. split; [by repeat constructor|]. intros h i c _ Hi. cbn [deref p_name t0]. rw load8_nat. by apply lookup_app_l_Some.
    - vm_compute. set_solver.
    - vm_compute. set_solver.
    - intros st' r' v a3 k' _ Hh c. cbn [Nat.add]. apply run_end. intros s Hs _. right. split; [done|]. split; [by eexists|]. unfold decode_root. cbn [snd xt x_tag].
      destruct Hh as [_ _ _ _ Hr]. rw Hr. cbn [mbind option_bind]. pose proof (slice_at m 0 m ltac:(exists []; by rw app_nil_r) ltac:(lia)) as Es.
      transitivity (content ← Some <$> slice m 0 (u32 (Z.of_nat (length m))); Some (XE (str "ht_root") [] content (elems ns))); [reflexivity|].
      rewrite u32_small; [|unfold MAX_DOCUMENT in Hmax; lia]. change 0 with (Z.of_nat 0). by rw Es. }
  specialize (Hrun 0 (xml_fuel (Z.of_nat (length m))) _ ltac:(unfold xml_fuel; lia) Hat eq_refl). apply wp_run in Hrun as ([r t] & s' & E & HQ). cbn [fst snd] in HQ.
  change (set_prev 0 (xt 0 XML_PARSE_ERROR t0)) with (x_start t0) in E. rw E. eexists _, _, _. split; [done|].
  destruct HQ as [->|(-> & (k & o2 & Eh) & Hd)]; [by right; left|]. left. split; [done|]. split; [by exists k, o2|]. by exists p, t.
Qed.
End property.

(** C21: parsing what was written.  A fresh context parses every document made of
    elements, attributes, self-closing elements and text.  If the allocator grants
    every block that is asked for, the answer is XML_OK, and the tree has every
    element in its place, with its name, the text of its parameters and its
    contents between its tags.  If it refuses one, nothing more is asked for and
    the answer is XML_MEMORY_ERROR, or XML_PARSE_ERROR when it was the block of the
    root.  There is no other answer. *)
Theorem xml_parse_render {A} `{AllocatorLaws A} x (a : tracked A) ns : fresh_context x -> a_ok a ->
  forallb (well_written (str "ht_root")) ns = true -> Z.of_nat (length (renders ns)) < MAX_DOCUMENT ->
  exists r x' a', xml_parse x (renders ns) (Z.of_nat (length (renders ns))) a = Some ((r, x'), a') /\
    (r = XML_OK /\ refusals a' = refusals a /\ holding (renders ns) x' /\
       (exists p t, xc_root x' = Some (p, t) /\ decode_root (renders ns) t = Some (document ns)) \/
     refusals a' = refusals a + 1 /\ (r = XML_MEMORY_ERROR \/ r = XML_PARSE_ERROR /\ xc_root x' = None)).
Proof.
  intros Hx Hok Hw Hmax. destruct (xml_parse_text x a ns Hx Hok Hw Hmax) as (r & x' & a' & E & Hr). exists r, x', a'. split; [done|].
  destruct Hx as (Hx1 & Hx2 & _). pose proof (xml_parse_told x _ _ a r x' a' ltac:(by rw Hx1) Hx2 E) as Ht.
  destruct Hr as [(-> & Hh & p & t & Ep & Hd)|[->|[-> Hn]]]; [left|right..].
  - rw Ep in Ht. cbn in Ht. split; [done|]. split; [lia|]. split; [done|]. by exists p, t.
  - split; [exact Ht|by left].
  - split; [|by right]. rw Hn in Ht. exact Ht.
Qed.

Definition xml_sample : list node :=
  [Elem (str "page") [(str "id", str "7"); (str "class", str "wide one")]
     [Text (str "hello "); Elem (str "b") [] [Text (str "world!")]; Text (str " / "); Empty (str "br") [(str "n", str "a/b")]];
   Text [10]; Elem (str "page") [] []].
(** With enough memory the sample is read; with memory for four blocks it is not. *)
Lemma xml_parse_render_witness : let x := mkXC 1 2 (mkHT blank_content None) None 0 [] 0 in let m := renders xml_sample in
  (fun r : Z * xml_context * tracked Bump.t => (r.1.1, refusals r.2)) <$> xml_parse x m (Z.of_nat (length m)) (mkTracked (Bump.empty 16 4) 0) = Some (XML_MEMORY_ERROR, 1) /\
  exists x' a' p t, xml_parse x m (Z.of_nat (length m)) (mkTracked (Bump.empty 16 100) 0) = Some ((XML_OK, x'), a') /\ refusals a' = 0 /\
    xc_root x' = Some (p, t) /\ decode_root m t = Some (document xml_sample).
Proof.
  split; [by vm_compute|].
  destruct (xml_parse_render (mkXC 1 2 (mkHT blank_content None) None 0 [] 0) (mkTracked (Bump.empty 16 100) 0) xml_sample) as (r & x' & a' & E & Hr);
    [done| |by vm_compute|by vm_compute|].
  - split; [done|]. intros p n Hp. by rw lookup_empty in Hp.
  - assert ((fun r : Z * xml_context * tracked Bump.t => refusals r.2) <$> xml_parse (mkXC 1 2 (mkHT blank_content None) None 0 [] 0) (renders xml_sample)
      (Z.of_nat (length (renders xml_sample))) (mkTracked (Bump.empty 16 100) 0) = Some 0) as Hk by (vm_compute; reflexivity).
    rewrite E in Hk. cbn in Hk. injection Hk as Hk. destruct Hr as [(-> & _ & _ & p & t & Ep & Hd)|(Hn & _)].
    + exists x', a', p, t. exact (conj E (conj Hk (conj Ep Hd))).
    + cbn in Hn. lia.
Defined.
