(* ===== verification/XmlSelect.v ===== *)
(** * XML parser: paths (hypertext/libht/xml.c: [find_tag], [xml_select])

    A path of names is followed in the tree of a parsed document.  The same index
    is used on every level, as the code does. *)
From S2P Require Import Prelude Memory Str HtContext Json JsonScan JsonMemory JsonRoundtrip Xml XmlRoundtrip.
Set Default Goal Selector "!".

(** ** What is meant *)
Definition e_name (e : xelem) : list Z := let 'XE n _ _ _ := e in n.
Definition e_kids (e : xelem) : list xelem := let 'XE _ _ _ l := e in l.
Definition named_kids (n : list Z) (l : list xelem) : list xelem := filter (fun e => e_name e = n) l.
(** The child number [i] with the first name, and from there on. *)
Fixpoint find_path (i : nat) (names : list (list Z)) (l : list xelem) : option xelem :=
  match names with
  | [] => None
  | [n] => named_kids n l !! i
  | n :: names => e ← named_kids n l !! i; find_path i names (e_kids e)
  end.
(** The path in the string: names between slashes. *)
Fixpoint path_text (names : list (list Z)) : list Z :=
  match names with [] => [] | [n] => n | n :: names => n ++ SLASHC :: path_text names end.
Definition path_name (n : list Z) : Prop := n <> [] /\ Forall (fun c => is_byte c /\ c <> 0 /\ c <> SLASHC) n.

(** ** The children of a tag *)
Section select.
Context (m : list Z) (m_bytes : Forall is_byte m).
Abbreviation dec := (xdecode m).

Lemma slice_some p n l : slice m p n = Some l -> 0 <= p /\ n = Z.of_nat (length l) /\ txt m (Z.to_nat p) l /\ Forall is_byte l.
Proof.
  unfold slice. destruct (_ && _) eqn:E; [|done]. intros [= <-]. apply andb_true_iff in E as [[Hp%Z.leb_le Hn%Z.leb_le]%andb_true_iff Hl%Z.leb_le].
  split; [done|]. split; [rw length_take length_drop; lia|]. split; [apply prefix_take|]. by apply Forall_take, Forall_drop.
Qed.
Lemma dec_name t e : dec t = Some e -> exists p, p_name t = InDoc p /\ 0 <= p /\ sz_name t = Z.of_nat (length (e_name e)) /\ txt m (Z.to_nat p) (e_name e) /\ Forall is_byte (e_name e).
Proof.
  destruct t as [nm szn c szc sze ps szp v d]. cbn [xdecode]. intros (kids & _ & E)%bind_Some. apply bind_Some in E as (pa & _ & E). apply bind_Some in E as (co & _ & E).
  cbn [p_name sz_name] in E |- *. destruct nm as [p|]; [|done]. apply bind_Some in E as (nm & Es & [= <-]). apply slice_some in Es. exists p. cbn [e_name]. tauto.
Qed.
Lemma dec_kids t e : dec t = Some e -> read_slots dec (v_slots (childs t)) = Some (e_kids e).
Proof.
  destruct t as [nm szn c szc sze ps szp v d]. cbn [xdecode childs]. intros (kids & Ek & E)%bind_Some. apply bind_Some in E as (pa & _ & E). apply bind_Some in E as (co & _ & E).
  destruct nm as [p|]; [|done]. cbn [p_name] in E. apply bind_Some in E as (nm & _ & [= <-]). by cbn [e_kids].
Qed.
(** [h] reads the document. *)
Definition reads (h : ht_context) : Prop := exists k o, h = mkHT (mkHC m (Z.of_nat (length m)) (Z.of_nat k) E_UTF_8 o) (Some E_UTF_8).
Lemma compare_child h n rest t e : reads h -> Forall is_byte n -> dec t = Some e -> length n = length (e_name e) -> exists r,
  ht_compare h (Ext (n ++ rest)) (p_name t) (Z.of_nat (length n)) = Some r /\ (r =? 0) = bool_decide (e_name e = n).
Proof.
  intros (k & o & ->) Hn He Hl. destruct (dec_name t e He) as (p & -> & Hp & _ & [y Ey] & Hb). unfold ht_compare. cbn [htc_content].
  assert (forall q, encoding_at (mkHC m (Z.of_nat (length m)) (Z.of_nat k) E_UTF_8 o) q = E_UTF_8) as Hen by (intros q; unfold encoding_at; cbn; by case_match). rw !Hen Nat2Z.id.
  destruct (compare_lists (mkHC m (Z.of_nat (length m)) (Z.of_nat k) E_UTF_8 o) (Ext (n ++ rest)) (InDoc p) n (e_name e) Hl Hn Hb) as (r & Er & Hr).
  - intros i c Hi. cbn [deref]. rw load8_nat. by apply lookup_app_l_Some.
  - intros i c Hi. cbn [deref p_content]. replace (p + Z.of_nat i) with (Z.of_nat (Z.to_nat p + i)) by lia. rw load8_nat -lookup_drop Ey. by apply lookup_app_l_Some.
  - exists r. split; [done|]. rw Hr. apply bool_decide_ext. by split.
Qed.
Lemma find_child_named h n rest index : reads h -> Forall is_byte n -> n <> [] -> index < 2 ^ 32 -> forall l es idx i, read_slots dec l = Some es -> 0 <= idx -> index = idx + Z.of_nat i ->
  exists r, find_child h (Some (n ++ rest)) (Z.of_nat (length n)) l index idx = Some r /\ dec <$> r = Some <$> (named_kids n es !! i).
Proof.
  intros Hh Hn Hne H32. induction l as [|[|p|p t] l IH]; intros es idx i Hr H0 Hi.
  - injection Hr as <-. by exists None.
  - apply (IH es idx i Hr H0 Hi).
  - done.
  - cbn in Hr. apply bind_Some in Hr as (e & He & Hr). apply bind_Some in Hr as (es' & Hes & [= <-]). fold (read_slots dec) in Hes. cbn [find_child follow mbind option_bind].
    replace (Z.of_nat (length n) =? 0) with false by (symmetry; apply Z.eqb_neq; destruct n; cbn; [done|lia]). cbn [negb].
    destruct (dec_name t e He) as (q & _ & _ & Hsz & _). rw Hsz. unfold named_kids in *. destruct (Z.eqb_spec (Z.of_nat (length n)) (Z.of_nat (length (e_name e)))) as [El|El].
    + destruct (compare_child h n rest t e Hh Hn He) as (r & Er & Hz); [lia|]. rw Er. cbn [mbind option_bind]. rw Hz. destruct (decide (e_name e = n)) as [E|E].
      * rewrite bool_decide_eq_true_2 //. cbn [filter list_filter]. rw decide_True //. destruct (Z.eqb_spec idx index) as [->|Hd].
        -- assert (i = 0%nat) as -> by lia. exists (Some t). split; [done|]. cbn. by rw He.
        -- destruct i as [|i]; [lia|]. rewrite u32_small; [|lia]. apply (IH es' (idx + 1) i Hes); lia.
      * rewrite bool_decide_eq_false_2 //. cbn [filter list_filter]. rw decide_False //. by apply (IH es' idx i Hes).
    + cbn [mbind option_bind filter list_filter]. rw decide_False; [by apply (IH es' idx i Hes)|by intros E; rewrite E in El].
Qed.

(** ** Following a path *)
Lemma select_name x n : forall rest whole done0 r index, Forall (fun c => is_byte c /\ c <> 0 /\ c <> SLASHC) n -> whole = done0 ++ n ++ rest -> done0 <> [] ->
  xselect_loop x (n ++ rest) r (Some whole) (Z.of_nat (length done0)) index = xselect_loop x rest r (Some whole) (Z.of_nat (length (done0 ++ n))) index.
Proof.
  induction n as [|c n IH]; intros rest whole done0 r index Hn E Hd; [by rw app_nil_r|]. inversion Hn as [|? ? (_ & Hc0 & Hc) Hn']; subst.
  cbn [app xselect_loop]. rw (proj2 (Z.eqb_neq c 0) Hc0). change 47 with SLASHC. rw (proj2 (Z.eqb_neq c SLASHC) Hc).
  replace (Z.of_nat (length done0) + 1) with (Z.of_nat (length (done0 ++ [c]))) by (rw length_app; cbn; lia).
  rw (IH rest _ (done0 ++ [c])); [by rw -app_assoc|done|by rw -app_assoc|by destruct done0].
Qed.
Lemma select_start x n rest r index : path_name n -> xselect_loop x (n ++ rest) r None 0 index = xselect_loop x rest r (Some (n ++ rest)) (Z.of_nat (length n)) index.
Proof.
  intros [Hne Hn]. destruct n as [|c n]; [done|]. inversion Hn as [|? ? (_ & Hc0 & Hc) Hn']; subst. cbn [app xselect_loop]. rw (proj2 (Z.eqb_neq c 0) Hc0). change 47 with SLASHC.
  rw (proj2 (Z.eqb_neq c SLASHC) Hc). by apply (select_name x n rest (c :: n ++ rest) [c] r index).
Qed.
(** The tag that a step starts from, and its elements. *)
Definition starts (x : xml_context) (r : option xml_tag) (es : list xelem) : Prop := exists t,
  (match r with Some t => Some t | None => snd <$> xc_root x end) = Some t /\ read_slots dec (v_slots (childs t)) = Some es.
Lemma find_tag_named x r es n rest i : reads (xc_htc x) -> path_name n -> Z.of_nat i < 2 ^ 32 -> starts x r es ->
  exists t, find_tag x (Some (n ++ rest)) (Z.of_nat (length n)) r (Z.of_nat i) = Some t /\ dec <$> t = Some <$> (named_kids n es !! i).
Proof.
  intros Hh [Hne Hn] Hi (t & Et & Hes). unfold find_tag. rw Et. apply find_child_named; [done| |done|done|done|done|lia]. eapply Forall_impl; [exact Hn|]. by intros c [? _].
Qed.
Lemma follow_path x i names : reads (xc_htc x) -> Z.of_nat i < 2 ^ 32 -> Forall path_name names -> names <> [] -> forall r es, starts x r es ->
  exists t, xselect_loop x (path_text names ++ [0]) r None 0 (Z.of_nat i) = Some t /\ dec <$> t = Some <$> find_path i names es.
Proof.
  intros Hh Hi Hn. induction Hn as [|n names Hn Hns IH]; intros Hne r es Hs; [done|]. destruct names as [|n2 names].
  - cbn [path_text find_path]. rw select_start //. cbn [xselect_loop Z.eqb]. by apply find_tag_named.
  - change (path_text (n :: n2 :: names)) with (n ++ SLASHC :: path_text (n2 :: names)). rw -app_assoc. cbn [app]. rw select_start //.
    cbn [xselect_loop]. change (SLASHC =? 0) with false. change (SLASHC =? 47) with true. cbv iota.
    destruct (find_tag_named x r es n (SLASHC :: path_text (n2 :: names) ++ [0]) i Hh Hn Hi Hs) as (t & Et & Hd). rw Et. cbn [mbind option_bind].
    change (find_path i (n :: n2 :: names) es) with (e ← named_kids n es !! i; find_path i (n2 :: names) (e_kids e)). destruct t as [t|].
    + destruct (named_kids n es !! i) as [e|]; [|done]. injection Hd as He. cbn [mbind option_bind]. apply IH; [done|]. exists t. split; [done|]. by apply dec_kids.
    + destruct (named_kids n es !! i) as [e|]; [done|]. by exists None.
Qed.
End select.

Lemma read_root m t e : decode_root m t = Some e -> read_slots (xdecode m) (v_slots (childs t)) = Some (e_kids e).
Proof.
  unfold decode_root. intros (kids & Ek & E)%bind_Some. apply bind_Some in E as (pa & _ & E). apply bind_Some in E as (co & _ & E).
  destruct (p_name t) as [|l]; [done|]. apply bind_Some in E as (nm & _ & [= <-]). exact Ek.
Qed.
(** C22: selecting in a parsed document.  With a path of names and an index,
    [xml_select] from the root returns the tag of the element that the names lead
    to, the index choosing among the children of one name on every level, and NULL
    exactly where there is none. *)
Theorem xml_select_finds x p t ns names i : holding (renders ns) x -> xc_root x = Some (p, t) -> decode_root (renders ns) t = Some (document ns) ->
  Forall is_byte (renders ns) -> Forall path_name names -> names <> [] -> Z.of_nat i < 2 ^ 32 ->
  exists r, xml_select x (Some (path_text names)) None (Z.of_nat i) = Some r /\ xdecode (renders ns) <$> r = Some <$> find_path i names (elems ns).
Proof.
  intros Hh Hr Hd Hb Hn Hne Hi. apply follow_path; [done|exact Hh|done|done|done|]. exists t. rw Hr. split; [done|]. exact (read_root _ _ _ Hd).
Qed.

(** The context after a parse of the sample. *)
Definition parsed_sample : option ((Z * xml_context) * Bump.t) :=
  xml_parse (mkXC 1 2 (mkHT blank_content None) None 0 [] 0) (renders xml_sample) (Z.of_nat (length (renders xml_sample))) (Bump.empty 16 100).
Definition sample_context : xml_context := match parsed_sample with Some ((_, x), _) => x | None => mkXC 1 2 (mkHT blank_content None) None 0 [] 0 end.
Definition sample_path : list (list Z) := [str "page"; str "b"].
Lemma xml_select_finds_witness : (exists r, xml_select sample_context (Some (path_text sample_path)) None 0 = Some r /\
    xdecode (renders xml_sample) <$> r = Some <$> find_path 0 sample_path (elems xml_sample)) /\
  find_path 0 sample_path (elems xml_sample) = Some (XE (str "b") [] (Some (str "world!")) []).
Proof.
  split; [|by vm_compute]. destruct (xc_root sample_context) as [[p t]|] eqn:E; [|by vm_compute in E].
  apply (xml_select_finds sample_context p t xml_sample sample_path 0).
  - eexists (length (renders xml_sample)), _. by vm_compute.
  - done.
  - apply (f_equal (fun r => match r with Some (_, t) => decode_root (renders xml_sample) t | None => None end)) in E. by rw -E; vm_compute.
  - apply all_byte. by vm_compute.
  - repeat constructor; cbn; try lia; done.
  - done.
  - done.
Defined.
