(* ===== verification/XmlDefects.v ===== *)
(** * XML parser: what it does outside of the round trip (hypertext/libht/xml.c)

    Each document is parsed by a new context with memory enough; what is compared
    is the result, the position of the error and the names in the tree. *)
From S2P Require Import Prelude Memory Str HtContext Json JsonRoundtrip Xml XmlRoundtrip.
Set Default Goal Selector "!".

Inductive names := Named (name : list Z) (kids : list names).
Fixpoint names_of (e : xelem) : names := let 'XE n _ _ l := e in Named n (map names_of l).
Definition blank_context : xml_context := mkXC 1 2 (mkHT blank_content None) None 0 [] 0.
Definition parsed_in (x : xml_context) (d : list Z) : option ((Z * xml_context) * Bump.t) := xml_parse x d (Z.of_nat (length d)) (Bump.empty 16 100).
Definition parsed (d : list Z) : option ((Z * xml_context) * Bump.t) := parsed_in blank_context d.
(** The result, the error's position, and the names below the root. *)
Definition outline (d : list Z) : option (Z * Z * option (list names)) :=
  (fun r => (r.1.1, xc_err_pos r.1.2, x ← xc_root r.1.2; map names_of <$> read_slots (xdecode d) (v_slots (childs x.2)))) <$> parsed d.
Definition root_of (d : list Z) : xml_tag := match parsed d with Some ((_, x), _) => match xc_root x with Some (_, t) => t | None => new_tag end | None => new_tag end.
(** The first child of a tag. *)
Definition first_child (t : xml_tag) : option xml_tag := match v_slots (childs t) with SAt _ t :: _ => Some t | _ => None end.
(** The context after the document. *)
Definition context_of (d : list Z) : xml_context := match parsed d with Some ((_, x), _) => x | None => blank_context end.

(** ** Comments *)
(** A letter sets the flag that the end of a comment has to find clear, and only
    characters that are ignored inside a comment clear it. *)
Example comment_without_letters : outline (str "<a><!----><b></b></a>") = Some (XML_OK, 0, Some [Named (str "a") [Named (str "b") []]]).
Proof. by vm_compute. Qed.
Example comment_swallows : outline (str "<a><!-- n --><b></b></a>") = Some (XML_OK, 0, Some [Named (str "a") []]).
Proof. by vm_compute. Qed.
Example unclosed_comment : outline (str "<a><!-- n") = Some (XML_OK, 0, Some [Named (str "a") []]).
Proof. by vm_compute. Qed.

(** ** Quotes *)
(** An apostrophe in the text opens a string; so does one in a value. *)
Example apostrophe_in_text : outline (str "<a>it's<b></b></a><c></c>") = Some (XML_OK, 0, Some [Named (str "a") []]).
Proof. by vm_compute. Qed.
Definition quoted : list Z := str "<a x=" ++ QUOTE :: str "it's" ++ QUOTE :: str "></a><b></b>".
Example apostrophe_in_value : outline quoted = Some (XML_OK, 0, Some []).
Proof. by vm_compute. Qed.

(** ** Names *)
(** The name in a closing tag is compared as far as the open one goes. *)
Example longer_close : outline (str "<a></ab><b></b>") = Some (XML_OK, 0, Some [Named (str "a") []; Named (str "b") []]).
Proof. by vm_compute. Qed.
Example shorter_close : outline (str "<ab></a>") = Some (XML_PARSE_ERROR, 7, Some [Named (str "ab") []]).
Proof. by vm_compute. Qed.
(** A self-closing element closes the one around it when the names agree so. *)
Example self_closing_twin : outline (str "<a><a/></a><b></b>") = Some (XML_PARSE_ERROR, 10, Some [Named (str "a") []]).
Proof. by vm_compute. Qed.
Example self_closing_longer : outline (str "<b><br/>x</b>") = Some (XML_PARSE_ERROR, 12, Some [Named (str "b") []]).
Proof. by vm_compute. Qed.
(** No name at all: NULL is compared. *)
Example nameless_close : parsed (str "<a></>") = None.
Proof. by vm_compute. Qed.

(** ** Errors *)
(** [r] still holds what the last child returned. *)
Example stray_gt : outline (str "<a></a>> <b></b>") = Some (XML_OK, 7, Some [Named (str "a") []]) /\ outline (str "> <b></b>") = Some (XML_PARSE_ERROR, 0, Some []).
Proof. split; by vm_compute. Qed.
Example unclosed : outline (str "<a><b>") = Some (XML_OK, 0, Some [Named (str "a") [Named (str "b") []]]).
Proof. by vm_compute. Qed.
(** No memory for the root is told as an error of the document. *)
Example no_root : (fun r => (r.1.1, xc_root r.1.2)) <$> xml_parse blank_context (str "<a></a>") 7 (Bump.empty 16 0) = Some (XML_PARSE_ERROR, None).
Proof. by vm_compute. Qed.
(** Nor for the context of the new context: what was released is 0, and written to. *)
Example no_htc : xml_create_context (Bump.empty 16 1) = None.
Proof. by vm_compute. Qed.

(** ** Parameters *)
Definition with_params (v w : list Z) : list Z := str "<a v=" ++ QUOTE :: v ++ QUOTE :: str " w=" ++ QUOTE :: w ++ QUOTE :: str "></a>".
Definition parameter (d pname : list Z) : option (option (list Z)) :=
  t ← first_child (root_of d);
  r ← xml_tag_parameter (context_of d) t pname;
  Some (match r.1 with Some p => slice d p r.2 | None => None end).
Example parameter_found : parameter (with_params (str "10") (str "wide")) (str "w") = Some (Some (str "wide")).
Proof. by vm_compute. Qed.
(** An empty value stops the search, also for the parameters behind it. *)
Example empty_value : parameter (with_params [] (str "wide")) (str "w") = Some None.
Proof. by vm_compute. Qed.
(** The name asked for may be longer than the one it finds. *)
Example longer_name : parameter (with_params (str "10") (str "wide")) (str "vertical") = Some (Some (str "10")).
Proof. by vm_compute. Qed.

(** ** Blocks *)
(** Whoever destroys a context with a tag that has no children frees an array that
    was not allocated, and nobody frees the root. *)
Definition destroyed (d : list Z) : option (unit * Bump.t) :=
  r ← parsed d;
  match xc_root r.1.2 with Some (_, t) => xml_destroy_tag t r.2 | None => Some (tt, r.2) end.
Example destroy_leaf : destroyed (str "<a></a>") = None /\ destroyed (str "text") = None.
Proof. split; by vm_compute. Qed.
Example blocks : (fun r => map_to_list (Bump.live r.2)) <$> parsed (str "<a></a>") = Some [(216, XML_TAG_SIZE); (88, INITIAL_TAG_LIST * PTR_SIZE); (16, XML_TAG_SIZE)].
Proof. by vm_compute. Qed.
